(* ===== verification/_CoqProject ===== *)
-Q . S2P
Prelude.v
Json.v
Sha256.v
Datetime.v
Validation.v
WorkflowContract.v
StrictJson.v
Model.v
Redaction.v
Storage.v
StorageWf.v
Search.v
StorageReads.v
Repository.v
ResourcePaths.v
Delegated.v
Workflows.v
Lifecycle.v
ProgressMutations.v
Arenas.v
Sessions.v
Frames.v
NamedWork.v
WorkGraph.v
Footprint.v
Requests.v
Relationships.v
Outbox.v
Dispatcher.v
Grants.v
Credentials.v
Verifier.v
Receiver.v
Enforcement.v
DelegatedReads.v
UrlQuery.v
Todos.v
TodoViews.v
Kanban.v
Inbox.v
Enrollment.v
Monitoring.v
Topology.v
