(* ===== verification/Prelude.v ===== *)
(** * Devgraph: a verification of the Work graph

    Devgraph ([src/src/devgraph]) keeps a graph of work: Proposals, Initiatives,
    Projects, Issues, Tasks and Todos with their parents, dependencies, blockers,
    workflow state, reviews, decisions, Arenas and the sessions that worked on
    them.  Admitted changes to its structure (parents, dependencies, blockers,
    Arena memberships) go through two entry points,
    [NamedWorkMutations.execute] and [ArenaMutations.execute], inside one storage
    transaction; [RelationshipGraph] also writes edges, for the demonstration seed
    only.  This library models that path from the storage up, as pure
    functions and state-passing programs with exceptions, and proves that it keeps
    the graph consistent.

    ** Files and the code they model (paths under [src/src/devgraph])

    - [Prelude.v]: exceptions, the result type [res] and the state-and-exception
      monad [M], Python string operations, stable sorting, and the tactics
      [minv] (inversion of successful runs) and [bools].
    - [Json.v]: Python values, [json.dumps] with sorted keys and [json.loads],
      proved inverse of each other; pydantic's own JSON reader is the class
      [Pydantic] with the law that it reads what [json.dumps] writes.
    - [Sha256.v], [Datetime.v]: [hashlib.sha256] and ISO timestamps, executable,
      with their round trip.
    - [Validation.v]: [model/validation.py].
    - [WorkflowContract.v]: [workflow_contract.py] and [progress.py].
    - [StrictJson.v]: [_strict_json_object] and [_canonical_json] of
      [auth/secs_issue_create.py], and the values and payload models that survive
      printing and reading again.
    - [Model.v]: [model/base.py], [model/work.py] and the record validation and
      reading of [model/repository.py].
    - [Storage.v], [StorageWf.v], [StorageReads.v]: [storage/memory.py] with the
      contracts [storage/containment.py], [receipt_lookup.py],
      [supporting_material.py], [delegated.py] and [migrations.py]: the state is
      [Store] (nodes with object identities, edges in order, applied constraints,
      the open transaction), each method one definition.  [StorageWf] holds the
      invariant [store_wf] and the automation [keeps] and [edgeless].
    - [Search.v]: the work-list graph search that several modules write out.
    - [Repository.v]: [WorkObjectRepository] of [model/repository.py].
    - [ResourcePaths.v]: [resource_paths.py].
    - [Workflows.v]: [workflows.py].
    - [Lifecycle.v]: [model/lifecycle.py].
    - [ProgressMutations.v]: [progress_mutations.py] and [progress_contract.py].
    - [Arenas.v]: [arenas.py] and [arena_contract.py].
    - [Sessions.v]: [observability/session_ref.py], [session_contract.py],
      [session_registry.py] and [session_work_state.py].
    - [Frames.v]: which relationships each operation leaves alone.
    - [NamedWork.v]: [named_work.py], the dispatch that composes the above.
    - [WorkGraph.v]: the two entry points as one transition system.
    - [Footprint.v]: the records and edges each mutation can touch.
    - [Requests.v]: [work_requests.py] and [arena_requests.py] with the request
      models of [api/schemas.py], from raw bytes to the executed mutation.
    - [Relationships.v]: [relationships.py] and [services/priority.py].  Python's
      recursion limit is not modelled, nor are [str()] of containers and [int()]
      of text in [services/priority.py].
    - [Redaction.v]: [policy/redaction.py] and [policy/export.py].
    - [Outbox.v], [Dispatcher.v]: [events/model.py], [events/outbox.py] and
      [events/dispatcher.py].
    - [Delegated.v]: [storage/delegated.py] and the scoped pages of
      [storage/memory.py].
    - [Grants.v]: [auth/scopes.py], [auth/grant_validity.py],
      [auth/delegated_contract.py] and [auth/access_policy.py], with the grant
      models of [auth/write_scope.py] and [auth/path_scope.py].
    - [Verifier.v]: the verifiers of [auth/secs_issue_create.py],
      [auth/secs_work.py] and [auth/secs_work_v2.py], [named_requests.py],
      [credential_requests.py] and [auth/sdk_receiver_profile.py]; the Ed25519
      check is the class [Ed25519].
    - [Credentials.v]: [auth/credentials.py], [auth/context.py],
      [auth/verifier.py], [auth/local_read.py] and [auth/delegated_registry.py]:
      the verifier protocol is the class [CredentialVerifier] with its laws, the
      three verifiers are instances.
    - [Receiver.v]: the adapters of the same modules, the scope guard of
      [auth/write_scope.py] and the audit log of [auth/enforcement.py], composed
      with outbox and mutations into calls on a host (storage and audit log).
    - [Enforcement.v]: the facade and write sessions of [auth/enforcement.py],
      written against the verifier protocol, and [observability/session_reads.py].
    - [DelegatedReads.v]: the Work and Arena reads of [auth/delegated_read.py].
    - [UrlQuery.v]: [parse_qsl], [parse_qs] and [urlencode] of the standard library.
    - [Todos.v], [TodoViews.v], [Kanban.v]: the read views [storage/todos.py] with
      [todos.py], [todo_views.py] and [kanban.py]: queries and filters, scans with
      their counters, cursors, revisions and the board's columns and scopes.
    - [Inbox.v]: the access-request inbox of [auth/access_requests.py] with the
      models of [auth/monitor_read.py] it needs; the SQLite tables are maps.
    - [Enrollment.v]: the read enrollment service of [auth/native_read.py].
    - [Monitoring.v], [Topology.v]: the snapshot of [monitoring.py] and its filtered
      projection of [topology.py].

    ** What the theorems show

    - Storage: transactions are all or nothing; every call keeps [store_wf];
      receipts are claimed once and linked by the claiming transaction; pages are
      ordered, bounded and complete under their cursors.  The invariant needs the
      records with a Work label to name their kind: the storage checks the canonical
      constraints of such nodes only, and [StorageWf.storage_invariant] says what
      holds of the rest.
    - Repository: writes are compare-and-set within the 64-bit version bound,
      records are read back as written, statuses follow their table, archived Work
      is terminal.
    - Workflows, progress and lifecycle: moves follow the stage tables, done is
      earned by its gates, reviews count only while current, dispositions are
      exclusive and carry their decision.
    - Arenas, paths and sessions: searches end and agree with their batched form,
      memberships, links and attributions are unique, first imports stay, path
      algebra is set algebra of the resources admitted.
    - Composition ([WorkGraph]): every storage that admitted requests build is
      well formed with an acyclic, single-parent graph; it refines the abstract
      placement of Work that the requests promise; the Arena of Work is always
      determined.
    - Requests: canonical bytes are a fixed point of their contract and identify
      the request; whatever bytes arrive, the graph invariant holds; the resource
      inventory that is authorized names every record and edge a request touches.
    - Outbox and policy: a retry identity is unambiguous and takes effect once,
      recorded calls are all or nothing; redaction is idempotent, leaves no bearer
      token and no value given to a word that names a credential, and keeps text
      without them, so that a redacted export holds no private record, secret or
      reference; the dispatcher
      attempts exactly the due receipts, a bounded number of times, after their
      backoff.
    - Grants: an attenuated draft admits nothing its ancestors do not, compiled
      rules allow exactly what is granted, validity documents round-trip.
    - Receivers: a verified call is authentic and its signature stands for one
      request; an executed call is confined to what one current grant holds before
      and after, is all or nothing with the audit record that the outbox's callback
      writes for it, and keeps the graph invariant.
    - Read access: verified contexts are for the audience asked and current; a
      refused call of the facade reaches nothing, an authorized one is recorded
      once and needs exactly its scope; a write session is used once; delegated
      pages and single reads return exactly what the grants reach, which is what
      they admit when they carry no resource paths (the service does not look at
      paths, see [DelegatedReads]), and do not tell hidden from missing Work.
    - Views: a Todo page is its reference page with exact counts; lists and
      boards read the whole graph, select and order it as their filters say, page it
      without loss or repetition under one revision, and a board's scope is the
      closure of its children; a topology read is the first wanted nodes and edges
      of its scope within the limits, with facet counts that predict what selecting a
      value gives, and its canonical target reads back.  What a filter asks for is
      stated as a record of conditions ([wanted], [shows], [wanted_node]) and the
      order as a relation, next to the functions that compute them.
    - Access requests and enrollment: an action takes effect only when signed by
      the member it names over a stored unused challenge; the inbox and the
      registry stay within their bounds over any sequence of calls; a pair of
      member and installation has at most one active credential, and a revoked
      pair never gets another.

    ** Modelling decisions

    - A Python [str] is a Rocq [string] of code points below 256; integers are [Z]
      with the source's bounds written out; floats are opaque literals.
    - Values are compared structurally: the Python equalities across types
      ([True == 1], [1.0 == 1]) are not modelled.
    - Error messages are kept where the code inspects them.
    - Time is an oracle: the [Clock] gives the n-th reading, a valid UTC time;
      no order of readings is assumed.  [fromisoformat] follows Python 3.10.
    - The storage lock and concurrent transactions are not modelled: operations
      run one after another, as under [work_mutation_transaction].
    - The per-request caches of [Workflows] are modelled as direct reads.
    - The mutations take the validated content of their contract; [Requests]
      derives that content from the bytes and proves that it satisfies the
      admission conditions [WorkGraph] asks for.  Code points from 256 up in
      request bytes or a decoded query are refused by the model, as outside its
      alphabet.  Statements about text are for this alphabet: lower case keeps the
      length of its text there and not on all of Unicode, so the round trip of a
      topology target, for one, does not extend to it (see [Topology]).
    - Loops run on fuel that is proved sufficient: four steps for walks up the
      hierarchy (the kinds form a DAG of four levels), one pop for each root and
      each edge in graph searches, the length of the text for the JSON reader.

    ** Not modelled

    The Neo4j adapter (text sent to an external database), the HTTP layer, client,
    command line, local runtimes, operations scripts and frontend (I/O and glue
    over third-party libraries), the Rust crates, session capture (native files
    and processes) and signature verification.  Not modelled either: the owner's
    administration, provisioning and holder-session services built over the
    modelled grants and registries, and the one-off progress migration, which runs the workflow engine with injected
    caches that the model does not have. *)

From stdpp Require Import base gmap strings list sorting.
From Stdlib Require Import ZArith Ascii String.

#[global] Arguments String.append !_ _ : simpl nomatch.

(** ** Exceptions

    One constructor per exception class the modelled modules raise; a class
    whose message is never inspected still carries it, because
    [WorkObjectRepository._from_node] dispatches on [str(error)]. *)

Inductive exn : Type :=
  | ValueError (msg : string)
  | InvalidWorkObjectId
  | NumericBoundError (msg : string)
  | ValidationError (model : string)
  | TypeError (msg : string)
  | KeyError (msg : string)
  | StorageUnavailable (msg : string)
  | WorkObjectRepositoryError (msg : string)
  | UnknownWorkObjectKindError (msg : string)
  | MissingWorkObjectError (kind id : string)
  | WorkObjectAlreadyExistsError (msg : string)
  | InvalidStatusTransitionError (msg : string)
  | WorkObjectVersionConflictError (kind id : string) (expected actual : Z)
  | WorkflowConflict (msg : string)
  | ProposalLifecycleError (msg : string)
  | WorkRelationshipConflict (msg : string)
  | ArenaConflict (msg : string)
  | IdempotencyScopeConflict (msg : string)
  | AttributeError (msg : string)
  | OverflowError (msg : string)
  | SecSIssueCreateDenied (reason : string)
  | InvalidWorkRequest (msg : string)
  | InvalidArenaRequest (msg : string)
  | SecSWorkDenied (reason : string)
  | UnauthenticatedError (msg : string)
  | ForbiddenError (msg : string)
  | RuntimeError (msg : string)
  | InvalidTodoFilter (msg : string)
  | InvalidBoardFilter (msg : string)
  | BoardChanged (msg : string)
  | InvalidTopologyFilter (msg : string).

#[export] Instance exn_eq_dec : EqDecision exn.
Proof. solve_decision. Defined.

(** The classes deriving from [ValueError]: [RuntimeError] subclasses
    ([StorageUnavailable], [IdempotencyScopeConflict], [SecSIssueCreateDenied],
    [SecSWorkDenied]), the authorization errors, [TypeError], [AttributeError],
    [OverflowError] and [KeyError] (a [LookupError]) do not. *)
Definition is_value_error (e : exn) : bool :=
  match e with
  | TypeError _ | KeyError _ | StorageUnavailable _ | IdempotencyScopeConflict _
  | AttributeError _ | OverflowError _ | SecSIssueCreateDenied _ | SecSWorkDenied _
  | UnauthenticatedError _ | ForbiddenError _ | RuntimeError _ => false
  | _ => true
  end.

Definition is_type_error (e : exn) : bool :=
  match e with TypeError _ => true | _ => false end.

Definition is_key_error (e : exn) : bool :=
  match e with KeyError _ => true | _ => false end.

(** [class WorkObjectRepositoryError(ValueError)] and its subclasses;
    [WorkflowConflict] derives from [InvalidStatusTransitionError]. *)
Definition is_repository_error (e : exn) : bool :=
  match e with
  | WorkObjectRepositoryError _ | UnknownWorkObjectKindError _
  | MissingWorkObjectError _ _ | WorkObjectAlreadyExistsError _
  | InvalidStatusTransitionError _ | WorkObjectVersionConflictError _ _ _ _
  | WorkflowConflict _ => true
  | _ => false
  end.

(** [str(error)] for the classes whose text is inspected. *)
Definition exn_str (e : exn) : string :=
  match e with
  | ValueError m | NumericBoundError m | TypeError m | KeyError m
  | StorageUnavailable m | ValidationError m => m
  | InvalidWorkObjectId => "invalid_work_object_id"
  | _ => ""
  end.

(** ** Results and the state-and-exception monad

    [res] is a Python call that either returns or raises; [M S] threads a
    mutable store of type [S], which a raised exception leaves as it is. *)

Inductive res (A : Type) : Type :=
  | Ok (a : A)
  | Err (e : exn).
Arguments Ok {A} _.
Arguments Err {A} _.

#[export] Instance res_eq_dec `{EqDecision A} : EqDecision (res A).
Proof. solve_decision. Defined.

#[export] Instance res_ret : MRet res := @Ok.

#[export] Instance res_bind : MBind res := λ A B f m,
  match m with Ok a => f a | Err e => Err e end.

Definition is_ok {A} (r : res A) : bool := match r with Ok _ => true | Err _ => false end.

(** [if b: raise e]. *)
Definition raise_if (b : bool) (e : exn) : res unit := if b then Err e else Ok tt.

(** [try: r except classes(p) as exc: raise f(exc)]. *)
Definition rethrow {A} (p : exn → bool) (f : exn → exn) (r : res A) : res A :=
  match r with Ok a => Ok a | Err e => if p e then Err (f e) else Err e end.

(** [try: r except classes(p): return a]. *)
Definition catch {A} (p : exn → bool) (a : A) (r : res A) : res A :=
  match r with Ok x => Ok x | Err e => if p e then Ok a else Err e end.

(** [dict[key]] on an optional lookup. *)
Definition of_option {A} (e : exn) (o : option A) : res A :=
  match o with Some a => Ok a | None => Err e end.

Fixpoint res_mapM {A B} (f : A → res B) (l : list A) : res (list B) :=
  match l with
  | [] => Ok []
  | x :: l' => y ← f x; ys ← res_mapM f l'; Ok (y :: ys)
  end.

Definition M (S A : Type) : Type := S → res A * S.

#[export] Instance M_ret {S} : MRet (M S) := λ A a s, (Ok a, s).

#[export] Instance M_bind {S} : MBind (M S) := λ A B f m s,
  match m s with (Ok a, s') => f a s' | (Err e, s') => (Err e, s') end.

Section monad.
  Context {S : Type}.

Definition raise {A} (e : exn) : M S A := λ s, (Err e, s).

Definition lift {A} (r : res A) : M S A := λ s, (r, s).

Definition gets {A} (f : S → A) : M S A := λ s, (Ok (f s), s).

(** A read of the store that may raise. *)
Definition reads {A} (f : S → res A) : M S A := λ s, (f s, s).

Definition modify (f : S → S) : M S unit := λ s, (Ok tt, f s).

Definition guard_raise (b : bool) (e : exn) : M S unit := if b then raise e else mret tt.

(** [try: m except p as exc: raise f(exc)]: the store keeps the body's
    writes, as in Python. *)
Definition M_rethrow {A} (p : exn → bool) (f : exn → exn) (m : M S A) : M S A := λ s,
  match m s with
  | (Ok a, s') => (Ok a, s')
  | (Err e, s') => (if p e then Err (f e) else Err e, s')
  end.

Fixpoint M_mapM {A B} (f : A → M S B) (l : list A) : M S (list B) :=
  match l with
  | [] => mret []
  | x :: l' => y ← f x; ys ← M_mapM f l'; mret (y :: ys)
  end.

Fixpoint M_iter {A} (f : A → M S unit) (l : list A) : M S unit :=
  match l with
  | [] => mret tt
  | x :: l' => f x;; M_iter f l'
  end.

End monad.

(** ** Python strings

    A [str] is a [string] whose characters are code points below 256. *)

Definition code (c : ascii) : N := N_of_ascii c.

Definition in_range (lo hi : N) (c : ascii) : bool := (lo <=? code c)%N && (code c <=? hi)%N.

Definition is_digit (c : ascii) : bool := in_range 48 57 c.
Definition is_upper (c : ascii) : bool := in_range 65 90 c.
Definition is_lower (c : ascii) : bool := in_range 97 122 c.
Definition is_alpha (c : ascii) : bool := is_upper c || is_lower c.
Definition is_alnum (c : ascii) : bool := is_alpha c || is_digit c.
Definition is_lower_hex (c : ascii) : bool := is_digit c || in_range 97 102 c.

(** [str.isspace] and [\s] on code points below 256. *)
Definition is_space (c : ascii) : bool :=
  in_range 9 13 c || in_range 28 32 c || (code c =? 133)%N || (code c =? 160)%N.

Fixpoint str_forall (p : ascii → bool) (s : string) : bool :=
  match s with
  | EmptyString => true
  | String c s' => p c && str_forall p s'
  end.

Definition str_exists (p : ascii → bool) (s : string) : bool :=
  negb (str_forall (λ c, negb (p c)) s).

Fixpoint count_char (c : ascii) (s : string) : nat :=
  match s with
  | EmptyString => 0
  | String d s' => (if Ascii.eqb c d then 1 else 0) + count_char c s'
  end.

(** [s.split(c, 1)]: [None] when [c] does not occur. *)
Fixpoint split_once (c : ascii) (s : string) : option (string * string) :=
  match s with
  | EmptyString => None
  | String d s' =>
      if Ascii.eqb c d then Some (EmptyString, s')
      else match split_once c s' with
           | Some (a, b) => Some (String d a, b)
           | None => None
           end
  end.

(** [not s.strip()]. *)
Definition is_blank (s : string) : bool := str_forall is_space s.

(** [bool(s)]. *)
Definition truthy (s : string) : bool := negb (String.eqb s "").

(** [s[:n]]. *)
Definition str_take (n : nat) (s : string) : string := String.substring 0 n s.

Definition str_len (s : string) : Z := Z.of_nat (String.length s).

(** [len(s.encode("utf-8"))]: a code point from 128 to 255 takes two bytes. *)
Fixpoint utf8_len (s : string) : Z :=
  match s with
  | EmptyString => 0
  | String c s' => (if (code c <? 128)%N then 1 else 2) + utf8_len s'
  end.

(** [s.encode("utf-8")], one character per byte. *)
Fixpoint utf8_encode (s : string) : string :=
  match s with
  | EmptyString => EmptyString
  | String c s' =>
      if (code c <? 128)%N then String c (utf8_encode s')
      else String (ascii_of_N (192 + N.div (code c) 64))
             (String (ascii_of_N (128 + N.modulo (code c) 64)) (utf8_encode s'))
  end.

Definition slash : ascii := "/"%char.

(** [f"{kind}/{id}"]. *)
Definition resource_of (k : string * string) : string := k.1 +:+ "/" +:+ k.2.

Definition str_in (s : string) (l : list string) : bool := bool_decide (s ∈ l).

(** [len(set(l)) != len(l)]. *)
Definition has_dup {A} `{EqDecision A} (l : list A) : bool := negb (bool_decide (NoDup l)).

(** [list(dict.fromkeys(l))]: duplicates after the first are dropped. *)
Fixpoint fromkeys {A} `{EqDecision A} (l : list A) : list A :=
  match l with
  | [] => []
  | x :: l' => x :: filter (λ y, y ≠ x) (fromkeys l')
  end.

(** [s.replace(a, b)] for single characters. *)
Fixpoint str_replace (a b : ascii) (s : string) : string :=
  match s with
  | EmptyString => EmptyString
  | String c s' => String (if Ascii.eqb c a then b else c) (str_replace a b s')
  end.

(** ** Orders used as sort keys

    Code-point order on strings, lexicographic order on pairs. *)

Definition str_lt (a b : string) : Prop := String.ltb a b = true.
Definition str_le (a b : string) : Prop := String.leb a b = true.
Definition key_ltb (a b : string * string) : bool :=
  String.ltb a.1 b.1 || (String.eqb a.1 b.1 && String.ltb a.2 b.2).
Definition key_leb (a b : string * string) : bool :=
  String.ltb a.1 b.1 || (String.eqb a.1 b.1 && String.leb a.2 b.2).
Definition key_le (a b : string * string) : Prop := key_leb a b = true.

#[export] Instance str_lt_dec : RelDecision str_lt.
Proof. intros a b. unfold str_lt. apply _. Defined.

#[export] Instance str_le_dec : RelDecision str_le.
Proof. intros a b. unfold str_le. apply _. Defined.

#[export] Instance key_le_dec : RelDecision key_le.
Proof. intros a b. unfold key_le. apply _. Defined.

Definition sort_keys (l : list (string * string)) : list (string * string) := merge_sort key_le l.
Definition sort_strings (l : list string) : list string := merge_sort str_le l.

(** [sorted(l, key=...)], stable: [le] compares the keys. *)
Section sorting.
  Context {A : Type} (le : A → A → bool).

Fixpoint sorted_insert (x : A) (l : list A) : list A :=
  match l with
  | [] => [x]
  | y :: l' => if le x y then x :: l else y :: sorted_insert x l'
  end.

Definition stable_sort (l : list A) : list A := foldr sorted_insert [] l.

End sorting.

(** ** Reasoning about the monads *)

Section monad_lemmas.
  Context {S : Type}.

Lemma res_bind_Ok {A B} (m : res A) (k : A → res B) b :
  m ≫= k = Ok b ↔ ∃ a, m = Ok a ∧ k a = Ok b.
Proof. destruct m; naive_solver. Qed.

Lemma res_bind_Err {A B} (m : res A) (k : A → res B) e :
  m ≫= k = Err e ↔ m = Err e ∨ ∃ a, m = Ok a ∧ k a = Err e.
Proof. destruct m; naive_solver. Qed.

Lemma raise_if_Ok b e u : raise_if b e = Ok u ↔ b = false.
Proof. destruct b, u; naive_solver. Qed.

Lemma of_option_Ok {A} e (o : option A) a : of_option e o = Ok a ↔ o = Some a.
Proof. destruct o; naive_solver. Qed.

Lemma rethrow_Ok {A} p f (r : res A) a : rethrow p f r = Ok a ↔ r = Ok a.
Proof. destruct r; simpl; [naive_solver|]. case_match; naive_solver. Qed.

Lemma M_bind_Ok {A B} (m : M S A) (k : A → M S B) s b s' :
  (m ≫= k) s = (Ok b, s') ↔ ∃ a s1, m s = (Ok a, s1) ∧ k a s1 = (Ok b, s').
Proof.
  unfold mbind, M_bind. destruct (m s) as [[a|e] s1]; split.
  - intros. by exists a, s1.
  - intros (?&?&?&?). by simplify_eq.
  - done.
  - intros (?&?&?&?). by simplify_eq.
Qed.

Lemma M_bind_Err {A B} (m : M S A) (k : A → M S B) s e s' :
  (m ≫= k) s = (Err e, s') ↔
  m s = (Err e, s') ∨ ∃ a s1, m s = (Ok a, s1) ∧ k a s1 = (Err e, s').
Proof.
  unfold mbind, M_bind. destruct (m s) as [[a|e'] s1]; split.
  - intros. right. by exists a, s1.
  - intros [?|(?&?&?&?)]; by simplify_eq.
  - intros. left. congruence.
  - intros [?|(?&?&?&?)]; by simplify_eq.
Qed.

(** Run the first step of a program. *)
Lemma M_bind_intro {A B} (m : M S A) (k : A → M S B) s a s1 r :
  m s = (Ok a, s1) → k a s1 = r → (m ≫= k) s = r.
Proof. intros Hm Hk. unfold mbind, M_bind. by rewrite Hm. Qed.

Lemma M_bind_fail {A B} (m : M S A) (k : A → M S B) s e s1 :
  m s = (Err e, s1) → (m ≫= k) s = (Err e, s1).
Proof. intros Hm. unfold mbind, M_bind. by rewrite Hm. Qed.

Lemma lift_run {A} (r : res A) a s : r = Ok a → lift r s = (Ok a, s : S).
Proof. by intros ->. Qed.

Lemma guard_run b e s : b = false → guard_raise b e s = (Ok tt, s : S).
Proof. by intros ->. Qed.

Lemma reads_run {A} (f : S → res A) a s : f s = Ok a → reads f s = (Ok a, s).
Proof. unfold reads. by intros ->. Qed.

Lemma M_rethrow_Ok {A} p f (m : M S A) s a s' :
  M_rethrow p f m s = (Ok a, s') ↔ m s = (Ok a, s').
Proof.
  unfold M_rethrow. destruct (m s) as [[a'|e] s1]; [done|].
  destruct (p e); naive_solver.
Qed.

Lemma guard_raise_Ok b e (s s' : S) u :
  guard_raise b e s = (Ok u, s') ↔ b = false ∧ s' = s.
Proof. destruct b, u; compute; naive_solver. Qed.

Lemma lift_Ok {A} (r : res A) (s s' : S) a : lift r s = (Ok a, s') ↔ r = Ok a ∧ s' = s.
Proof. unfold lift. naive_solver. Qed.

Lemma reads_Ok {A} (f : S → res A) (s s' : S) a : reads f s = (Ok a, s') ↔ f s = Ok a ∧ s' = s.
Proof. unfold reads. split; [by intros [= ? ?]|]. by intros [-> ->]. Qed.

Lemma M_ret_Ok {A} (a b : A) (s s' : S) :
  (mret a : M S A) s = (Ok b, s') ↔ b = a ∧ s' = s.
Proof. unfold mret, M_ret. naive_solver. Qed.

Lemma gets_Ok {A} (f : S → A) (s s' : S) a : gets f s = (Ok a, s') ↔ a = f s ∧ s' = s.
Proof. unfold gets. naive_solver. Qed.

Lemma modify_Ok (f : S → S) (s s' : S) u : modify f s = (Ok u, s') ↔ s' = f s.
Proof. unfold modify. destruct u. naive_solver. Qed.

Lemma raise_not_Ok {A} e (s s' : S) (a : A) : raise e s = (Ok a, s') ↔ False.
Proof. unfold raise. naive_solver. Qed.

(** Left identity, right identity and associativity, pointwise. *)
Lemma M_bind_ret_l {A B} (a : A) (k : A → M S B) s : (mret a ≫= k) s = k a s.
Proof. done. Qed.

Lemma M_bind_assoc {A B C} (m : M S A) (f : A → M S B) (g : B → M S C) s :
  ((m ≫= f) ≫= g) s = (m ≫= (λ a, f a ≫= g)) s.
Proof. unfold mbind, M_bind. by destruct (m s) as [[?|?] ?]. Qed.

End monad_lemmas.

(** [minv] takes a successful run of a monadic program apart, step by step. *)
Ltac minv_step :=
  match goal with
  | H : mbind _ _ _ = (Ok _, _) |- _ =>
      apply M_bind_Ok in H; let a := fresh "r" in let s := fresh "s" in
      destruct H as (a & s & H & ?)
  | H : @mbind res _ _ _ _ _ = Ok _ |- _ =>
      apply res_bind_Ok in H; let a := fresh "r" in destruct H as (a & H & ?)
  | H : guard_raise _ _ _ = (Ok _, _) |- _ => apply guard_raise_Ok in H as [H ->]
  | H : lift _ _ = (Ok _, _) |- _ => apply lift_Ok in H as [H ->]
  | H : reads _ _ = (Ok _, _) |- _ => apply reads_Ok in H as [H ->]
  | H : gets _ _ = (Ok _, _) |- _ => apply gets_Ok in H as [-> ->]
  | H : modify _ _ = (Ok _, _) |- _ => apply modify_Ok in H as ->
  | H : mret _ _ = (Ok ?b, _) |- _ => is_var b; apply M_ret_Ok in H as [-> ->]
  | H : mret _ _ = (Ok _, _) |- _ => apply M_ret_Ok in H as [H ->]
  | H : raise _ _ = (Ok _, _) |- _ => apply raise_not_Ok in H as []
  | H : M_rethrow _ _ _ _ = (Ok _, _) |- _ => apply M_rethrow_Ok in H
  | H : raise_if _ _ = Ok _ |- _ => apply raise_if_Ok in H
  | H : of_option _ _ = Ok _ |- _ => apply of_option_Ok in H
  | H : rethrow _ _ _ = Ok _ |- _ => apply rethrow_Ok in H
  | H : Ok _ = Ok _ |- _ => apply (inj Ok) in H
  | H : Err _ = Ok _ |- _ => discriminate H
  | H : (Ok _, _) = (Ok _, _) |- _ => apply pair_equal_spec in H as [H ?]
  | H : (Err _, _) = (Ok _, _) |- _ => discriminate H
  | u : unit |- _ => destruct u
  end.
Ltac minv := repeat minv_step.

(** [mgo] runs the guards, lifted checks and reads at the head of a program,
    leaving their side conditions. *)
Ltac mgo_step :=
  lazymatch goal with
  | |- mbind _ (lift _) _ = _ => eapply M_bind_intro; [eapply lift_run|]
  | |- mbind _ (guard_raise _ _) _ = _ => eapply M_bind_intro; [eapply guard_run|]
  | |- mbind _ (reads _) _ = _ => eapply M_bind_intro; [eapply reads_run|]
  | |- mbind _ _ _ = _ => eapply M_bind_intro; [reflexivity|]
  end.

(** [bools] turns boolean guards into propositions. *)
Ltac bools_step :=
  match goal with
  | H : negb _ = false |- _ => apply negb_false_iff in H
  | H : negb _ = true |- _ => apply negb_true_iff in H
  | H : _ && _ = true |- _ => apply andb_true_iff in H as [? ?]
  | H : _ || _ = false |- _ => apply orb_false_iff in H as [? ?]
  | H : bool_decide _ = true |- _ => apply bool_decide_eq_true in H
  | H : bool_decide _ = false |- _ => apply bool_decide_eq_false in H
  | H : String.eqb _ _ = true |- _ => apply String.eqb_eq in H
  | H : String.eqb _ _ = false |- _ => apply String.eqb_neq in H
  | H : Z.leb _ _ = true |- _ => apply Z.leb_le in H
  | H : Z.leb _ _ = false |- _ => apply Z.leb_gt in H
  | H : Z.ltb _ _ = true |- _ => apply Z.ltb_lt in H
  | H : Z.ltb _ _ = false |- _ => apply Z.ltb_ge in H
  | H : Z.eqb _ _ = true |- _ => apply Z.eqb_eq in H
  | H : Z.eqb _ _ = false |- _ => apply Z.eqb_neq in H
  end.
Ltac bools := repeat bools_step.

#[export] Instance Ok_inj {A} : Inj (=) (=) (@Ok A).
Proof. congruence. Qed.

(** ** Reasoning about strings and orders *)

Lemma str_forall_spec p s : str_forall p s = true ↔ ∀ n c, String.get n s = Some c → p c = true.
Proof.
  induction s as [|c s IH]; simpl; [naive_solver|].
  rewrite andb_true_iff, IH. split.
  - intros [? ?] [|n] d; [naive_solver|eauto].
  - intros H. split; [by apply (H 0)|]. intros n d ?. by apply (H (S n)).
Qed.

Lemma str_forall_app p s t : str_forall p (s +:+ t) = str_forall p s && str_forall p t.
Proof. induction s as [|c s IH]; simpl; [done|]. rewrite IH. by rewrite andb_assoc. Qed.

Lemma str_app_assoc (a b c : string) : (a +:+ b) +:+ c = a +:+ (b +:+ c).
Proof. induction a as [|x a IH]; simpl; [done|]. f_equal. apply IH. Qed.

Lemma str_app_nil_r (a : string) : a +:+ "" = a.
Proof. induction a as [|x a IH]; simpl; [done|]. f_equal. apply IH. Qed.

Lemma str_length_app (a b : string) :
  String.length (a +:+ b) = String.length a + String.length b.
Proof. induction a as [|x a IH]; simpl; [done|]. by rewrite IH. Qed.

Lemma str_forall_mono (p q : ascii → bool) s :
  (∀ c, p c = true → q c = true) → str_forall p s = true → str_forall q s = true.
Proof.
  intros Hpq. induction s as [|c s IH]; simpl; [done|].
  rewrite !andb_true_iff. naive_solver.
Qed.

Lemma split_once_app c a b :
  str_forall (λ d, negb (Ascii.eqb c d)) a = true →
  split_once c (a +:+ String c b) = Some (a, b).
Proof.
  induction a as [|d a IH]; simpl.
  - by rewrite Ascii.eqb_refl.
  - rewrite andb_true_iff, negb_true_iff. intros [-> ?]. by rewrite IH.
Qed.

Lemma resource_of_inj_l a b :
  str_forall (λ d, negb (Ascii.eqb slash d)) a.1 = true →
  str_forall (λ d, negb (Ascii.eqb slash d)) b.1 = true →
  resource_of a = resource_of b → a = b.
Proof.
  intros Ha Hb Heq.
  assert (Some a = Some b) as ?; [|congruence].
  destruct a as [a1 a2], b as [b1 b2]. simpl in *.
  rewrite <-(split_once_app slash a1 a2 Ha), <-(split_once_app slash b1 b2 Hb).
  by f_equal.
Qed.

Lemma ascii_compare_refl c : Ascii.compare c c = Eq.
Proof. apply N.compare_refl. Qed.

Lemma str_compare_refl a : String.compare a a = Eq.
Proof. induction a as [|c a IH]; simpl; [done|]. by rewrite ascii_compare_refl. Qed.

Lemma str_ltb_spec a b : String.ltb a b = true ↔ String.compare a b = Lt.
Proof. unfold String.ltb. case_match; naive_solver. Qed.

Lemma str_leb_spec a b : String.leb a b = true ↔ a = b ∨ String.ltb a b = true.
Proof.
  unfold String.leb, String.ltb. split.
  - case_match eqn:E; [|by right|done]. left. by apply String.compare_eq_iff.
  - intros [->|H]; [by rewrite str_compare_refl|]. by case_match.
Qed.

Lemma str_ltb_irrefl a : String.ltb a a = false.
Proof. unfold String.ltb. by rewrite str_compare_refl. Qed.

Lemma str_ltb_trans a b c :
  String.ltb a b = true → String.ltb b c = true → String.ltb a c = true.
Proof.
  rewrite !str_ltb_spec. revert b c. induction a as [|x a IH]; intros [|y b] [|z c]; simpl; try done.
  destruct (Ascii.compare x y) eqn:Exy; [..|done]; destruct (Ascii.compare y z) eqn:Eyz; try done;
    intros H1 H2; try apply Ascii.compare_eq_iff in Exy as ->;
    try apply Ascii.compare_eq_iff in Eyz as ->; rewrite ?ascii_compare_refl, ?Exy, ?Eyz; eauto.
  enough (Ascii.compare x z = Lt) as -> by done.
  change (N.compare (N_of_ascii x) (N_of_ascii z) = Lt).
  change (N.compare (N_of_ascii x) (N_of_ascii y) = Lt) in Exy.
  change (N.compare (N_of_ascii y) (N_of_ascii z) = Lt) in Eyz.
  apply N.compare_lt_iff in Exy, Eyz. apply N.compare_lt_iff. by etrans.
Qed.

Lemma str_trichotomy a b : String.ltb a b = true ∨ a = b ∨ String.ltb b a = true.
Proof.
  rewrite !str_ltb_spec. rewrite (String.compare_antisym b a).
  destruct (String.compare a b) eqn:E; simpl; auto.
  right; left. by apply String.compare_eq_iff.
Qed.

#[export] Instance str_lt_strict : StrictOrder str_lt.
Proof.
  split.
  - intros a H. unfold str_lt in H. by rewrite str_ltb_irrefl in H.
  - intros a b c. apply str_ltb_trans.
Qed.

#[export] Instance str_le_total : Total str_le.
Proof. intros a b. apply String.leb_total. Qed.

#[export] Instance str_le_trans : Transitive str_le.
Proof.
  intros a b c. unfold str_le. rewrite !str_leb_spec.
  intros [->|H1] [->|H2]; eauto using str_ltb_trans.
Qed.

Lemma key_leb_spec a b : key_leb a b = true ↔ a = b ∨ key_ltb a b = true.
Proof.
  destruct a as [a1 a2], b as [b1 b2]. unfold key_leb, key_ltb. simpl.
  rewrite !orb_true_iff, !andb_true_iff, String.eqb_eq, str_leb_spec. naive_solver.
Qed.

Lemma key_ltb_trans a b c : key_ltb a b = true → key_ltb b c = true → key_ltb a c = true.
Proof.
  destruct a as [a1 a2], b as [b1 b2], c as [c1 c2]. unfold key_ltb. simpl.
  rewrite !orb_true_iff, !andb_true_iff, !String.eqb_eq.
  intros [?|[-> ?]] [?|[-> ?]]; eauto using str_ltb_trans.
Qed.

Lemma key_ltb_irrefl a : key_ltb a a = false.
Proof. unfold key_ltb. rewrite !str_ltb_irrefl. by rewrite andb_false_r. Qed.

Lemma key_trichotomy a b : key_ltb a b = true ∨ a = b ∨ key_ltb b a = true.
Proof.
  destruct a as [a1 a2], b as [b1 b2]. unfold key_ltb. simpl.
  rewrite !orb_true_iff, !andb_true_iff, !String.eqb_eq.
  destruct (str_trichotomy a1 b1) as [?|[->|?]], (str_trichotomy a2 b2) as [?|[->|?]]; naive_solver.
Qed.

#[export] Instance key_le_total : Total key_le.
Proof.
  intros a b. unfold key_le. rewrite !key_leb_spec.
  destruct (key_trichotomy a b) as [?|[->|?]]; naive_solver.
Qed.

#[export] Instance key_le_trans : Transitive key_le.
Proof.
  intros a b c. unfold key_le. rewrite !key_leb_spec.
  intros [->|H1] [->|H2]; eauto using key_ltb_trans.
Qed.

#[export] Instance key_le_antisymm : AntiSymm (=) key_le.
Proof.
  intros a b. unfold key_le. rewrite !key_leb_spec.
  intros [->|H1] [?|H2]; [done..|].
  pose proof (key_ltb_trans _ _ _ H1 H2) as H. by rewrite key_ltb_irrefl in H.
Qed.

#[export] Instance str_le_antisymm : AntiSymm (=) str_le.
Proof. intros a b. apply String.leb_antisym. Qed.

Section sorting_lemmas.
  Context {A : Type} (le : A → A → bool).

Lemma sorted_insert_perm x l : sorted_insert le x l ≡ₚ x :: l.
Proof.
  induction l as [|y l IH]; simpl; [done|]. case_match; [done|]. rewrite IH. apply Permutation_swap.
Qed.

Lemma stable_sort_perm l : stable_sort le l ≡ₚ l.
Proof. induction l as [|x l IH]; simpl; [done|]. by rewrite sorted_insert_perm, IH. Qed.

Lemma stable_sort_sorted l :
  (∀ x y, le x y = false → le y x = true) → (∀ x y z, le x y = true → le y z = true → le x z = true) →
  StronglySorted (λ x y, le x y = true) (stable_sort le l).
Proof.
  intros Htot Htr. induction l as [|x l IH]; simpl; [constructor|].
  induction IH as [|y l' Hs IHs Hy]; simpl; [repeat constructor|].
  destruct (le x y) eqn:E.
  - constructor; [by constructor|]. constructor; [done|]. eapply Forall_impl; [exact Hy|]. eauto.
  - constructor; [done|]. rewrite sorted_insert_perm. constructor; eauto.
Qed.

End sorting_lemmas.

(** Sorting items with distinct keys by a comparison that ties on equal keys only
    gives a strictly ordered list. *)
Lemma stable_sort_keyed {A K} (le : A → A → bool) (lt : A → A → Prop) (key : A → K) l :
  (∀ x y, le x y = false → le y x = true) → (∀ x y z, le x y = true → le y z = true → le x z = true) →
  (∀ x y, le x y = true → lt x y ∨ key x = key y) → NoDup (key <$> l) →
  StronglySorted lt (stable_sort le l) ∧ ∀ x, x ∈ stable_sort le l ↔ x ∈ l.
Proof.
  intros Htot Htr Htie Hd. split; [|intros x; by rewrite stable_sort_perm].
  pose proof (stable_sort_sorted le l Htot Htr) as Hs.
  assert (NoDup (key <$> stable_sort le l)) as Hn by (by rewrite stable_sort_perm).
  induction Hs as [|x l' _ IH Hx]; [constructor|]. rewrite fmap_cons in Hn. apply NoDup_cons in Hn as [Hni Hn].
  constructor; [by apply IH|]. rewrite Forall_forall in *. intros y Hy. destruct (Htie x y (Hx y Hy)) as [?|Hk]; [done|].
  destruct Hni. rewrite Hk. by apply list_elem_of_fmap_2.
Qed.

Lemma sort_keys_perm l : sort_keys l ≡ₚ l.
Proof. apply merge_sort_Permutation. Qed.

Lemma sort_keys_sorted l : StronglySorted key_le (sort_keys l).
Proof. apply (StronglySorted_merge_sort key_le). Qed.

Lemma str_in_spec s l : str_in s l = true ↔ s ∈ l.
Proof. apply bool_decide_eq_true. Qed.

Lemma has_dup_false `{EqDecision A} (l : list A) : has_dup l = false ↔ NoDup l.
Proof. unfold has_dup. rewrite negb_false_iff. apply bool_decide_eq_true. Qed.

(** ** Hints *)

Create HintDb devgraph.
#[export] Hint Resolve sort_keys_sorted sort_keys_perm : devgraph.
#[export] Hint Rewrite @has_dup_false str_in_spec : devgraph.

(** [length] is the length of lists in the files that load this one; strings
    use [String.length]. *)
Abbreviation length := Datatypes.length.
