(* ===== verification/Json.v ===== *)
(** * Python values and JSON text

    The dynamic values the program stores in node properties, the text
    [json.dumps] writes for them (sorted keys, compact separators) and the
    reading of JSON text back into values. A [dict] is kept as an association
    list strictly sorted by key, which [mk_dict] builds from pairs in insertion
    order (the last write of a key wins). [json.loads] is [loads]; the JSON
    reader of the pydantic package, which is not part of the repository, is the
    parameter [pydantic_json] of the class [Pydantic]. *)

From stdpp Require Import base gmap strings list sorting.
From Stdlib Require Import ZArith Ascii String DecimalString.
From Stdlib Require DecimalFacts DecimalZ DecimalN.
From S2P Require Import Prelude.

(** ** Values *)

Inductive value : Type :=
  | VNone
  | VBool (b : bool)
  | VInt (z : Z)
  | VFloat (literal : string)
  | VStr (s : string)
  | VList (l : list value)
  | VDict (d : list (string * value)).

Section value_ind.
  Context (P : value → Prop).
  Context (HNone : P VNone) (HBool : ∀ b, P (VBool b)) (HInt : ∀ z, P (VInt z)).
  Context (HFloat : ∀ s, P (VFloat s)) (HStr : ∀ s, P (VStr s)).
  Context (HList : ∀ l, Forall P l → P (VList l)).
  Context (HDict : ∀ d, Forall (λ kv : string * value, P kv.2) d → P (VDict d)).

Fixpoint value_nested_ind (v : value) : P v :=
  match v with
  | VNone => HNone
  | VBool b => HBool b
  | VInt z => HInt z
  | VFloat s => HFloat s
  | VStr s => HStr s
  | VList l => HList l ((fix go (l : list value) : Forall P l := match l with
                          | [] => Forall_nil_2 P
                          | x :: l' => Forall_cons_2 P x l' (value_nested_ind x) (go l')
                          end) l)
  | VDict d => HDict d ((fix go (d : list (string * value)) : Forall (λ kv, P kv.2) d := match d with
                          | [] => Forall_nil_2 _
                          | kv :: d' => Forall_cons_2 _ kv d' (value_nested_ind kv.2) (go d')
                          end) d)
  end.
End value_ind.

Fixpoint value_eqb (v w : value) : bool :=
  match v, w with
  | VNone, VNone => true
  | VBool a, VBool b => Bool.eqb a b
  | VInt a, VInt b => (a =? b)%Z
  | VFloat a, VFloat b => String.eqb a b
  | VStr a, VStr b => String.eqb a b
  | VList a, VList b =>
      (fix go a b := match a, b with
       | [], [] => true
       | x :: a', y :: b' => value_eqb x y && go a' b'
       | _, _ => false
       end) a b
  | VDict a, VDict b =>
      (fix go a b := match a, b with
       | [], [] => true
       | (k, x) :: a', (l, y) :: b' => String.eqb k l && value_eqb x y && go a' b'
       | _, _ => false
       end) a b
  | _, _ => false
  end.

Lemma value_eqb_spec v : ∀ w, value_eqb v w = true ↔ v = w.
Proof.
  induction v as [|b|z|s|s|l IH|d IH] using value_nested_ind; intros [ | | | | |l'|d']; simpl;
    try (split; congruence).
  - rewrite eqb_true_iff. split; congruence.
  - rewrite Z.eqb_eq. split; congruence.
  - rewrite String.eqb_eq. split; congruence.
  - rewrite String.eqb_eq. split; congruence.
  - enough (∀ l', (fix go a b := match a, b with
      | [], [] => true | x :: a', y :: b' => value_eqb x y && go a' b' | _, _ => false end) l l'
      = true ↔ l = l') as -> by (split; congruence).
    clear l'. induction IH as [|x l Hx _ IHl]; intros [|y l']; try (split; congruence).
    rewrite andb_true_iff, Hx, IHl. split; [intros [-> ->]|]; [done|]. intros [=]. auto.
  - enough (∀ d', (fix go a b := match a, b with
      | [], [] => true
      | (k, x) :: a', (l, y) :: b' => String.eqb k l && value_eqb x y && go a' b'
      | _, _ => false end) d d' = true ↔ d = d') as -> by (split; congruence).
    clear d'. induction IH as [|[k x] d Hx _ IHd]; intros [|[k' y] d']; try (split; congruence).
    simpl in Hx. rewrite !andb_true_iff, Hx, IHd, String.eqb_eq.
    split; [intros [[-> ->] ->]|]; [done|]. intros [=]. auto.
Qed.

#[export] Instance value_eq_dec : EqDecision value.
Proof.
  intros v w. refine (cast_if (decide (value_eqb v w = true))); by rewrite <-value_eqb_spec.
Defined.

(** ** Dictionaries *)

Section dict.
  Context {V : Type}.

Fixpoint dict_insert (k : string) (v : V) (d : list (string * V)) : list (string * V) :=
  match d with
  | [] => [(k, v)]
  | (k', v') :: d' =>
      if String.ltb k k' then (k, v) :: d
      else if String.eqb k k' then (k, v) :: d'
      else (k', v') :: dict_insert k v d'
  end.

Definition mk_dict (pairs : list (string * V)) : list (string * V) :=
  foldl (λ d kv, dict_insert kv.1 kv.2 d) [] pairs.

Fixpoint dict_get (k : string) (d : list (string * V)) : option V :=
  match d with
  | [] => None
  | (k', v) :: d' => if String.eqb k k' then Some v else dict_get k d'
  end.

(** The canonical form: keys strictly increasing. *)
Definition dict_sorted (d : list (string * V)) : Prop :=
  StronglySorted str_lt d.*1.

End dict.

Abbreviation props := (gmap string value).

Definition dict_of_props (m : props) : value := VDict (mk_dict (map_to_list m)).

(** ** Printing: [json.dumps(v, sort_keys=True, separators=(",", ":"))] *)

Definition dquote : ascii := "034"%char.
Definition backslash : ascii := "092"%char.

Definition hex_digit (n : N) : ascii :=
  ascii_of_N (if (n <? 10)%N then 48 + n else 87 + n).

Definition escape_u (c : ascii) : string :=
  String backslash (String "u" (String "0" (String "0"
    (String (hex_digit (N.div (code c) 16)) (String (hex_digit (N.modulo (code c) 16)) ""))))).

Definition escape_char (ensure_ascii : bool) (c : ascii) : string :=
  if Ascii.eqb c dquote then String backslash (String dquote "")
  else if Ascii.eqb c backslash then String backslash (String backslash "")
  else if (code c =? 8)%N then String backslash "b"
  else if (code c =? 9)%N then String backslash "t"
  else if (code c =? 10)%N then String backslash "n"
  else if (code c =? 12)%N then String backslash "f"
  else if (code c =? 13)%N then String backslash "r"
  else if (code c <? 32)%N || (ensure_ascii && (127 <=? code c)%N) then escape_u c
  else String c "".

Fixpoint escape (ensure_ascii : bool) (s : string) : string :=
  match s with
  | EmptyString => ""
  | String c s' => escape_char ensure_ascii c +:+ escape ensure_ascii s'
  end.

Definition quote (ensure_ascii : bool) (s : string) : string :=
  String dquote (escape ensure_ascii s +:+ String dquote "").

Definition print_int (z : Z) : string := NilZero.string_of_int (Z.to_int z).

Fixpoint join (sep : string) (l : list string) : string :=
  match l with
  | [] => ""
  | [x] => x
  | x :: l' => x +:+ sep +:+ join sep l'
  end.

Fixpoint dumps (ensure_ascii : bool) (v : value) : string :=
  match v with
  | VNone => "null"
  | VBool b => if b then "true" else "false"
  | VInt z => print_int z
  | VFloat s => s
  | VStr s => quote ensure_ascii s
  | VList l => "[" +:+ join "," (map (dumps ensure_ascii) l) +:+ "]"
  | VDict d =>
      "{" +:+ join "," (map (λ kv, quote ensure_ascii kv.1 +:+ ":" +:+ kv.2)
                          (mk_dict (map (λ kv, (kv.1, dumps ensure_ascii kv.2)) d))) +:+ "}"
  end.

(** ** Reading: [json.loads(text)] *)

Definition is_json_ws (c : ascii) : bool :=
  (code c =? 32)%N || (code c =? 9)%N || (code c =? 10)%N || (code c =? 13)%N.

Fixpoint skip_ws (s : string) : string :=
  match s with
  | String c s' => if is_json_ws c then skip_ws s' else s
  | EmptyString => ""
  end.

Definition hex_val (c : ascii) : option N :=
  if is_digit c then Some (code c - 48)%N
  else if in_range 97 102 c then Some (code c - 87)%N
  else if in_range 65 70 c then Some (code c - 55)%N
  else None.

Definition hex4 (a b c d : ascii) : option N :=
  a ← hex_val a; b ← hex_val b; c ← hex_val c; d ← hex_val d;
  Some (((a * 16 + b) * 16 + c) * 16 + d)%N.

(** The text after the opening quote. An escape for a code point of 256 or
    more is outside the modelled alphabet and is refused. *)
Fixpoint parse_chars (s : string) : option (string * string) :=
  match s with
  | EmptyString => None
  | String c s1 =>
      if Ascii.eqb c dquote then Some ("", s1)
      else if Ascii.eqb c backslash then
        match s1 with
        | EmptyString => None
        | String e s2 =>
            if Ascii.eqb e "u" then
              match s2 with
              | String h1 (String h2 (String h3 (String h4 s3))) =>
                  n ← hex4 h1 h2 h3 h4;
                  if (n <? 256)%N then
                    r ← parse_chars s3; Some (String (ascii_of_N n) r.1, r.2)
                  else None
              | _ => None
              end
            else
              x ← (if Ascii.eqb e dquote then Some dquote
                   else if Ascii.eqb e backslash then Some backslash
                   else if Ascii.eqb e "/" then Some "/"%char
                   else if Ascii.eqb e "b" then Some (ascii_of_N 8)
                   else if Ascii.eqb e "f" then Some (ascii_of_N 12)
                   else if Ascii.eqb e "n" then Some (ascii_of_N 10)
                   else if Ascii.eqb e "r" then Some (ascii_of_N 13)
                   else if Ascii.eqb e "t" then Some (ascii_of_N 9)
                   else None);
              r ← parse_chars s2; Some (String x r.1, r.2)
        end
      else if (code c <? 32)%N then None
      else r ← parse_chars s1; Some (String c r.1, r.2)
  end.

Fixpoint span (p : ascii → bool) (s : string) : string * string :=
  match s with
  | EmptyString => ("", "")
  | String c s' => if p c then let r := span p s' in (String c r.1, r.2) else ("", s)
  end.

Fixpoint strip_prefix (pre s : string) : option string :=
  match pre, s with
  | EmptyString, _ => Some s
  | String a pre', String b s' => if Ascii.eqb a b then strip_prefix pre' s' else None
  | _, EmptyString => None
  end.

(** An optional sign, digits without a superfluous leading zero, and an
    optional fraction and exponent; a literal with a fraction or an exponent is
    kept as written. *)
Definition parse_frac (s : string) : option (string * string) :=
  match s with
  | String "." s1 =>
      let r := span is_digit s1 in
      if truthy r.1 then Some (String "." r.1, r.2) else None
  | _ => Some ("", s)
  end.

Definition parse_exp (s : string) : option (string * string) :=
  match s with
  | String e s1 =>
      if Ascii.eqb e "e" || Ascii.eqb e "E" then
        let sg := match s1 with
                  | String c s2 =>
                      if Ascii.eqb c "+" || Ascii.eqb c "-" then (String c "", s2) else ("", s1)
                  | EmptyString => ("", s1)
                  end in
        let r := span is_digit sg.2 in
        if truthy r.1 then Some (String e (sg.1 +:+ r.1), r.2) else None
      else Some ("", s)
  | EmptyString => Some ("", s)
  end.

Definition take_sign (s : string) : bool * string :=
  match s with
  | String c s' => if Ascii.eqb c "-" then (true, s') else (false, s)
  | EmptyString => (false, s)
  end.

(** The hooks of [json.loads]: what becomes of the members of an object, of
    an integer, and of the text of a float or of [NaN], [Infinity] and
    [-Infinity]; [None] is a hook that raises. *)
Record json_hooks := {
  object_pairs : list (string * value) → option (list (string * value));
  parse_int : Z → option Z;
  parse_float : string → option string;
  parse_constant : string → option string
}.

Definition default_hooks : json_hooks :=
  {| object_pairs := λ d, Some (mk_dict d); parse_int := Some; parse_float := Some; parse_constant := Some |}.

Section reader.
  Context (h : json_hooks).

Definition parse_number (s : string) : option (value * string) :=
  let sg := take_sign s in
  let ds := span is_digit sg.2 in
  if negb (truthy ds.1) then None
  else if String.prefix "0" ds.1 && negb (String.eqb ds.1 "0") then None
  else
    f ← parse_frac ds.2;
    x ← parse_exp f.2;
    let lit := (if sg.1 then "-" else "") +:+ ds.1 in
    if negb (truthy f.1) && negb (truthy x.1) then
      i ← NilZero.int_of_string lit; z ← parse_int h (Z.of_int i); Some (VInt z, x.2)
    else l ← parse_float h (lit +:+ f.1 +:+ x.1); Some (VFloat l, x.2).

Definition parse_constants (s : string) : option (value * string) :=
  let constant (name : string) (k : option (value * string)) :=
    match strip_prefix name s with
    | Some r => l ← parse_constant h name; Some (VFloat l, r)
    | None => k
    end in
  constant "NaN" (constant "Infinity" (constant "-Infinity" None)).

Fixpoint parse_value (fuel : nat) (s : string) : option (value * string) :=
  match fuel with
  | 0 => None
  | S fuel =>
      match skip_ws s with
      | EmptyString => None
      | String c s1 =>
          if Ascii.eqb c dquote then
            r ← parse_chars s1; Some (VStr r.1, r.2)
          else if Ascii.eqb c "[" then
            match skip_ws s1 with
            | String "]" s2 => Some (VList [], s2)
            | _ => r ← parse_elems fuel s1; Some (VList r.1, r.2)
            end
          else if Ascii.eqb c "{" then
            match skip_ws s1 with
            | String "}" s2 => d ← object_pairs h []; Some (VDict d, s2)
            | _ => r ← parse_members fuel s1; d ← object_pairs h r.1; Some (VDict d, r.2)
            end
          else if Ascii.eqb c "n" then
            r ← strip_prefix "ull" s1; Some (VNone, r)
          else if Ascii.eqb c "t" then
            r ← strip_prefix "rue" s1; Some (VBool true, r)
          else if Ascii.eqb c "f" then
            r ← strip_prefix "alse" s1; Some (VBool false, r)
          else match parse_number (String c s1) with
               | Some r => Some r
               | None => parse_constants (String c s1)
               end
      end
  end
with parse_elems (fuel : nat) (s : string) : option (list value * string) :=
  match fuel with
  | 0 => None
  | S fuel =>
      r ← parse_value fuel s;
      match skip_ws r.2 with
      | String "," s2 => t ← parse_elems fuel s2; Some (r.1 :: t.1, t.2)
      | String "]" s2 => Some ([r.1], s2)
      | _ => None
      end
  end
with parse_members (fuel : nat) (s : string) : option (list (string * value) * string) :=
  match fuel with
  | 0 => None
  | S fuel =>
      match skip_ws s with
      | String c s1 =>
          if Ascii.eqb c dquote then
            k ← parse_chars s1;
            match skip_ws k.2 with
            | String ":" s2 =>
                r ← parse_value fuel s2;
                match skip_ws r.2 with
                | String "," s3 => t ← parse_members fuel s3; Some ((k.1, r.1) :: t.1, t.2)
                | String "}" s3 => Some ([(k.1, r.1)], s3)
                | _ => None
                end
            | _ => None
            end
          else None
      | EmptyString => None
      end
  end.

Definition loads_with (text : string) : option value :=
  r ← parse_value (S (String.length text)) text;
  if truthy (skip_ws r.2) then None else Some r.1.

End reader.

Definition loads : string → option value := loads_with default_hooks.

(** ** The canonical form of a value: sorted dictionaries, no float literal *)

Fixpoint canonical_value (v : value) : Prop :=
  match v with
  | VFloat _ => False
  | VList l => (fix go l := match l with [] => True | x :: l' => canonical_value x ∧ go l' end) l
  | VDict d => dict_sorted d ∧
      (fix go d := match d with [] => True | kv :: d' => canonical_value kv.2 ∧ go d' end) d
  | _ => True
  end.

Lemma canonical_list l : canonical_value (VList l) ↔ Forall canonical_value l.
Proof. simpl. induction l as [|x l IH]; [naive_solver|]. rewrite Forall_cons, <-IH. done. Qed.

Lemma canonical_dict d :
  canonical_value (VDict d) ↔ dict_sorted d ∧ Forall (λ kv, canonical_value kv.2) d.
Proof.
  simpl. apply and_iff_compat_l.
  induction d as [|x d IH]; [naive_solver|]. rewrite Forall_cons, <-IH. done.
Qed.

(** Every integer of a value satisfies [P]. *)
Fixpoint all_ints (P : Z → Prop) (v : value) : Prop :=
  match v with
  | VInt z => P z
  | VList l => (fix go l := match l with [] => True | x :: l' => all_ints P x ∧ go l' end) l
  | VDict d => (fix go d := match d with [] => True | kv :: d' => all_ints P kv.2 ∧ go d' end) d
  | _ => True
  end.

Lemma all_ints_list P l : all_ints P (VList l) ↔ Forall (all_ints P) l.
Proof. simpl. induction l as [|x l IH]; [naive_solver|]. rewrite Forall_cons, <-IH. done. Qed.

Lemma all_ints_dict P d : all_ints P (VDict d) ↔ Forall (λ kv, all_ints P kv.2) d.
Proof. simpl. induction d as [|x d IH]; [naive_solver|]. rewrite Forall_cons, <-IH. done. Qed.

Lemma all_ints_any (P : Z → Prop) v : (∀ z, P z) → all_ints P v.
Proof.
  intros HP. induction v as [|b|z|s|s|l IH|d IH] using value_nested_ind; try done; [apply HP| |].
  - by apply all_ints_list.
  - by apply all_ints_dict.
Qed.

(** ** Dictionaries: insertion keeps the canonical form *)

Section dict_lemmas.
  Context {V : Type}.
  Implicit Types (d : list (string * V)).

Lemma dict_insert_last k v d :
  Forall (λ x, str_lt x k) d.*1 → dict_insert k v d = d ++ [(k, v)].
Proof.
  induction d as [|[k' v'] d IH]; simpl; [done|]. intros [Hk Hd]%Forall_cons.
  destruct (String.ltb k k') eqn:E.
  { exfalso. apply (irreflexivity str_lt k). by transitivity k'. }
  destruct (String.eqb_spec k k') as [->|].
  { by apply irreflexivity in Hk; [|apply _]. }
  by rewrite IH.
Qed.

Lemma mk_dict_app d1 d2 :
  dict_sorted (d1 ++ d2) → foldl (λ d kv, dict_insert kv.1 kv.2 d) d1 d2 = d1 ++ d2.
Proof.
  revert d1. induction d2 as [|[k v] d2 IH]; intros d1; simpl; [by rewrite app_nil_r|].
  intros Hs. rewrite dict_insert_last.
  - rewrite IH; [by rewrite <-app_assoc|]. by rewrite <-app_assoc.
  - unfold dict_sorted in Hs. rewrite fmap_app in Hs. simpl in Hs. clear IH.
    induction (d1.*1) as [|x l IH]; [by constructor|]. simpl in Hs.
    apply StronglySorted_inv in Hs as [Hs Hx]. constructor; [|by apply IH].
    apply Forall_app in Hx as [_ Hx]. by apply Forall_cons in Hx as [? _].
Qed.

Lemma mk_dict_id d : dict_sorted d → mk_dict d = d.
Proof. intros. by apply (mk_dict_app []). Qed.

Lemma dict_insert_dom k v d x : x ∈ (dict_insert k v d).*1 → x = k ∨ x ∈ d.*1.
Proof.
  induction d as [|[k' v'] d IH]; simpl.
  - intros ->%list_elem_of_singleton. auto.
  - repeat case_match; simpl; rewrite ?elem_of_cons; naive_solver.
Qed.

Lemma dict_insert_sorted k v d : dict_sorted d → dict_sorted (dict_insert k v d).
Proof.
  unfold dict_sorted. induction d as [|[k' v'] d IH]; simpl.
  - intros _. repeat constructor.
  - intros Hs. pose proof Hs as [Hd Hk]%StronglySorted_inv.
    destruct (String.ltb k k') eqn:E; [|destruct (String.eqb_spec k k') as [->|Hne]]; simpl.
    + constructor; [done|]. constructor; [done|]. eapply Forall_impl; [exact Hk|].
      intros y Hy. by transitivity k'.
    + by constructor.
    + constructor; [by apply IH|]. apply Forall_forall. intros y Hy.
      apply dict_insert_dom in Hy as [->|Hy]; [|rewrite Forall_forall in Hk; by apply Hk].
      destruct (str_trichotomy k k') as [?|[?|?]]; congruence.
Qed.

Lemma mk_dict_sorted d : dict_sorted (mk_dict d).
Proof.
  unfold mk_dict. assert (dict_sorted ([] : list (string * V))) as H by constructor.
  revert H. generalize (@nil (string * V)).
  induction d as [|[k v] d IH]; intros d0 Hd0; simpl; [done|]. by apply IH, dict_insert_sorted.
Qed.

Lemma dict_get_insert k k' v d :
  dict_get k' (dict_insert k v d) = if String.eqb k' k then Some v else dict_get k' d.
Proof.
  induction d as [|[l w] d IH]; simpl; [done|].
  destruct (String.ltb k l); [done|].
  destruct (String.eqb_spec k l) as [->|Hkl]; simpl; [by destruct (String.eqb k' l)|].
  rewrite IH. destruct (String.eqb_spec k' k), (String.eqb_spec k' l); congruence.
Qed.

Lemma dict_insert_perm k v d : k ∉ d.*1 → dict_insert k v d ≡ₚ (k, v) :: d.
Proof.
  induction d as [|[l w] d IH]; simpl; [done|]. rewrite not_elem_of_cons. intros [Hkl Hd].
  destruct (String.ltb k l); [done|]. destruct (String.eqb_spec k l) as [->|_]; [done|].
  rewrite IH by done. by rewrite Permutation_swap.
Qed.

Lemma mk_dict_perm d : NoDup d.*1 → mk_dict d ≡ₚ d.
Proof.
  unfold mk_dict. intros Hd.
  enough (∀ d0, NoDup (d.*1 ++ d0.*1) →
    foldl (λ d kv, dict_insert kv.1 kv.2 d) d0 d ≡ₚ d ++ d0) as H.
  { rewrite (H []); [by rewrite app_nil_r|]. by rewrite app_nil_r. }
  clear Hd. induction d as [|[k v] d IH]; intros d0; simpl; [done|].
  intros [Hk Hd]%NoDup_cons. rewrite not_elem_of_app in Hk. destruct Hk as [Hk Hk0].
  assert (dict_insert k v d0 ≡ₚ (k, v) :: d0) as Hp by by apply dict_insert_perm.
  rewrite IH; [by rewrite Hp, Permutation_middle|].
  rewrite Hp. simpl. rewrite <-Permutation_middle. apply NoDup_cons. rewrite elem_of_app.
  naive_solver.
Qed.

Lemma mk_dict_of_map (m : gmap string V) :
  mk_dict (map_to_list m) ≡ₚ map_to_list m ∧ list_to_map (mk_dict (map_to_list m)) = m.
Proof.
  assert (mk_dict (map_to_list m) ≡ₚ map_to_list m) as Hp.
  { apply mk_dict_perm, NoDup_fst_map_to_list. }
  split; [done|]. rewrite <-(list_to_map_to_list m) at 2. apply list_to_map_proper; [|done].
  rewrite Hp. apply NoDup_fst_map_to_list.
Qed.

Lemma dict_get_mk_dict (m : gmap string V) k : dict_get k (mk_dict (map_to_list m)) = m !! k.
Proof.
  rewrite <-(proj2 (mk_dict_of_map m)) at 2.
  induction (mk_dict (map_to_list m)) as [|[l v] d IH]; simpl; [by rewrite lookup_empty|].
  destruct (String.eqb_spec k l) as [->|]; [by rewrite lookup_insert_eq|].
  by rewrite lookup_insert_ne by done.
Qed.

End dict_lemmas.

Lemma dict_of_props_canonical (m : props) :
  map_Forall (λ _ v, canonical_value v) m → canonical_value (dict_of_props m).
Proof.
  intros Hm. apply canonical_dict. split; [apply mk_dict_sorted|].
  rewrite (proj1 (mk_dict_of_map m)). by apply map_Forall_to_list in Hm; eapply Forall_impl; [done|intros []].
Qed.

Lemma dict_of_props_inj (m m' : props) : dict_of_props m = dict_of_props m' → m = m'.
Proof.
  intros [= H]. by rewrite <-(proj2 (mk_dict_of_map m)), H, (proj2 (mk_dict_of_map m')).
Qed.

Lemma lookup_list_to_map {V} k (d : list (string * V)) : (list_to_map d : gmap string V) !! k = dict_get k d.
Proof.
  induction d as [|[k' v] d IH]; [done|]. simpl. destruct (String.eqb_spec k k') as [->|Hne].
  - by rewrite lookup_insert_eq.
  - by rewrite lookup_insert_ne.
Qed.

Lemma dict_get_elem {V} k (d : list (string * V)) v : dict_get k d = Some v → (k, v) ∈ d.
Proof.
  induction d as [|[l w] d IH]; simpl; [done|]. destruct (String.eqb_spec k l) as [->|].
  - intros [= ->]. by left.
  - intros H. right. auto.
Qed.

Lemma dict_get_fmap {V W} (f : V → W) k (d : list (string * V)) :
  dict_get k (map (λ kv, (kv.1, f kv.2)) d) = f <$> dict_get k d.
Proof. induction d as [|[l v] d IH]; simpl; [done|]. by case_match. Qed.

(** ** The reader inverts the printer *)

Section roundtrip.
  Context (ea : bool) (h : json_hooks).
  Context (Hpairs : ∀ d, dict_sorted d → object_pairs h d = Some d).

(** The values that the hooks return as they are. *)
Abbreviation printed v := (canonical_value v ∧ all_ints (λ z, parse_int h z = Some z) v).

Lemma parse_escaped_char c s :
  parse_chars (escape_char ea c +:+ s) =
  r ← parse_chars s; Some (String c r.1, r.2).
Proof. destruct ea, c as [[] [] [] [] [] [] [] []]; reflexivity. Qed.

Lemma parse_escaped s rest :
  parse_chars (escape ea s +:+ String dquote rest) = Some (s, rest).
Proof.
  induction s as [|c s IH]; simpl; [done|].
  by rewrite str_app_assoc, parse_escaped_char, IH.
Qed.

Lemma parse_quoted s rest : parse_chars ((escape ea s +:+ String dquote "") +:+ rest) = Some (s, rest).
Proof. rewrite str_app_assoc. apply parse_escaped. Qed.

(** What may follow a printed value: the end, or a closing or separating
    character, none of which continues a number. *)
Definition terminator (rest : string) : Prop :=
  rest = "" ∨ ∃ c r, rest = String c r ∧ (c = ","%char ∨ c = "]"%char ∨ c = "}"%char).

Lemma span_digits ds rest :
  str_forall is_digit ds = true → terminator rest → span is_digit (ds +:+ rest) = (ds, rest).
Proof.
  intros Hds Hr. induction ds as [|c ds IH]; simpl in *.
  - destruct Hr as [->|(c&r&->&[->|[->| ->]])]; done.
  - apply andb_true_iff in Hds as [-> Hds]. by rewrite IH.
Qed.

Lemma string_of_uint_digits d : str_forall is_digit (NilEmpty.string_of_uint d) = true.
Proof. induction d; simpl; auto. Qed.

Lemma nzhead_no_zero d : Decimal.nzhead d = Decimal.Nil ∨ ∀ e, Decimal.nzhead d ≠ Decimal.D0 e.
Proof. induction d; simpl; auto; right; congruence. Qed.

(** Decimal numerals print as nonempty digit strings without a leading zero. *)
Definition numeral (s : string) : Prop :=
  str_forall is_digit s = true ∧ truthy s = true ∧
  String.prefix "0" s && negb (String.eqb s "0") = false.

Lemma unorm_numeral d : numeral (NilZero.string_of_uint (Decimal.unorm d)).
Proof.
  unfold numeral, Decimal.unorm. pose proof (nzhead_no_zero d) as H.
  destruct (Decimal.nzhead d) eqn:E; simpl.
  { done. }
  { exfalso. destruct H as [?|H]; [done|]. by apply (H u). }
  all: rewrite string_of_uint_digits; done.
Qed.

Lemma to_int_numeral z :
  ∃ d, numeral (NilZero.string_of_uint d) ∧ d ≠ Decimal.Nil ∧
       (Z.to_int z = Decimal.Pos d ∨ Z.to_int z = Decimal.Neg d).
Proof.
  assert (∀ n : N, numeral (NilZero.string_of_uint (N.to_uint n)) ∧ N.to_uint n ≠ Decimal.Nil) as Hn.
  { intros n. rewrite <-(DecimalN.Unsigned.of_to n), DecimalN.Unsigned.to_of.
    split; [apply unorm_numeral|]. unfold Decimal.unorm. by case_match. }
  destruct z as [|p|p]; simpl.
  - exists (Decimal.D0 Decimal.Nil). destruct (Hn 0%N). auto.
  - exists (Pos.to_uint p). destruct (Hn (Npos p)). auto.
  - exists (Pos.to_uint p). destruct (Hn (Npos p)). auto.
Qed.

Lemma number_tail rest :
  terminator rest → parse_frac rest = Some ("", rest) ∧ parse_exp rest = Some ("", rest).
Proof. intros [->|(c&r&->&[->|[->| ->]])]; done. Qed.

Lemma take_sign_digits ds rest :
  truthy ds = true → str_forall is_digit ds = true → take_sign (ds +:+ rest) = (false, ds +:+ rest).
Proof.
  destruct ds as [|c ds]; [done|]. intros _. simpl. intros [Hc _]%andb_true_iff.
  destruct (Ascii.eqb_spec c "-") as [->|]; done.
Qed.

Lemma parse_printed_int z rest : parse_int h z = Some z → terminator rest →
  parse_number h (print_int z +:+ rest) = Some (VInt z, rest).
Proof.
  intros Hz0 Hr. unfold print_int, parse_number. destruct (number_tail rest Hr) as [Hf He].
  destruct (to_int_numeral z) as (d&(Hd&Ht&Hz)&Hnil&HZ).
  assert (NilZero.int_of_string (NilZero.string_of_int (Z.to_int z)) = Some (Z.to_int z)) as Hi.
  { apply NilZero.isi; destruct HZ as [-> | ->]; congruence. }
  pose proof (DecimalZ.of_to z) as Hof.
  destruct HZ as [E|E]; rewrite E in Hi, Hof |- *; unfold NilZero.string_of_int in Hi |- *.
  - rewrite (take_sign_digits _ _ Ht Hd). cbn [fst snd]. rewrite (span_digits _ _ Hd Hr).
    cbn [fst snd]. rewrite Ht, Hz, Hf. simpl. rewrite He. simpl. rewrite Hi. cbn -[Z.of_int]. by rewrite Hof, Hz0.
  - change (String "-" (NilZero.string_of_uint d) +:+ rest)
      with (String "-" (NilZero.string_of_uint d +:+ rest)).
    change (take_sign _) with (true, NilZero.string_of_uint d +:+ rest). cbn [fst snd].
    rewrite (span_digits _ _ Hd Hr). cbn [fst snd]. rewrite Ht, Hz, Hf. simpl. rewrite He.
    simpl. simpl in Hi. rewrite Hi. cbn -[Z.of_int]. by rewrite Hof, Hz0.
Qed.

(** Fuel a printed value needs, and its bound by the length of the text. *)
Fixpoint vsize (v : value) : nat :=
  match v with
  | VList l => S (list_sum (map (λ x, S (vsize x)) l))
  | VDict d => S (list_sum (map (λ kv, S (vsize kv.2)) d))
  | _ => 1
  end.

(** A printed value starts with a character that is neither blank nor [']']. *)
Definition value_head (s : string) : Prop :=
  match s with
  | String c _ => is_json_ws c = false ∧ c ≠ "]"%char
  | EmptyString => False
  end.

Lemma numeral_head s rest : numeral s → value_head (s +:+ rest).
Proof.
  intros (Hd&Ht&_). destruct s as [|c s]; [done|]. simpl in Hd |- *.
  apply andb_true_iff in Hd as [Hc _]. clear -Hc.
  by destruct c as [[] [] [] [] [] [] [] []].
Qed.

Lemma dumps_head v rest : canonical_value v → value_head (dumps ea v +:+ rest).
Proof.
  intros Hv. destruct v as [|[]|z|?|s|l|d]; try done.
  simpl. unfold print_int. destruct (to_int_numeral z) as (u&Hu&_&[-> | ->]); [|done].
  by apply numeral_head.
Qed.

Lemma open_bracket s fuel : value_head s →
  parse_value h (S fuel) (String "[" s) = r ← parse_elems h fuel s; Some (VList r.1, r.2).
Proof.
  destruct s as [|c s]; [done|]. cbn -[parse_elems parse_value].
  destruct c as [[] [] [] [] [] [] [] []]; intros [Hw Hc];
    first [discriminate Hw | by destruct Hc | reflexivity].
Qed.

Lemma print_value_int z rest fuel : parse_int h z = Some z → terminator rest →
  parse_value h (S fuel) (print_int z +:+ rest) = Some (VInt z, rest).
Proof.
  intros Hz Hr. pose proof (parse_printed_int z rest Hz Hr) as Hn.
  transitivity (match parse_number h (print_int z +:+ rest) with
                | Some r => Some r
                | None => parse_constants h (print_int z +:+ rest)
                end); [|by rewrite Hn]. clear Hn Hz Hr.
  unfold print_int. destruct (to_int_numeral z) as (u&(Hd&Ht&_)&_&[-> | ->]); simpl; [|done].
  destruct (NilZero.string_of_uint u) as [|c ds]; [done|]. simpl in Hd.
  apply andb_true_iff in Hd as [Hc _]. clear -Hc.
  change (String c ds +:+ rest) with (String c (ds +:+ rest)).
  destruct c as [[] [] [] [] [] [] [] []]; first [discriminate Hc | reflexivity].
Qed.

Definition print_member (kv : string * value) : string :=
  quote ea kv.1 +:+ ":" +:+ dumps ea kv.2.

Lemma dumps_dict d : dict_sorted d →
  dumps ea (VDict d) = "{" +:+ join "," (map print_member d) +:+ "}".
Proof.
  intros Hd. simpl. rewrite mk_dict_id.
  - rewrite map_map. done.
  - unfold dict_sorted. clear -Hd. unfold dict_sorted in Hd.
    replace ((map (λ kv : string * value, (kv.1, dumps ea kv.2)) d).*1) with (d.*1); [done|].
    clear Hd. induction d as [|x d IH]; simpl; [done|]. by f_equal.
Qed.

(** A value reads back, whatever terminates it. *)
Definition reads_back (v : value) : Prop := ∀ fuel rest,
  vsize v ≤ fuel → terminator rest → parse_value h fuel (dumps ea v +:+ rest) = Some (v, rest).

Lemma terminator_cons c r : (c = ","%char ∨ c = "]"%char ∨ c = "}"%char) → terminator (String c r).
Proof. right. eauto. Qed.
Hint Resolve terminator_cons : core.

(** Separators are not blank. *)
Ltac sep_step :=
  cbn -[parse_value parse_elems parse_members parse_chars];
  repeat (match goal with |- context [is_json_ws ?c] => change (is_json_ws c) with false end;
          cbn -[parse_value parse_elems parse_members parse_chars]).

Lemma parse_printed_elems x l rest fuel :
  reads_back x → Forall reads_back l → list_sum (map (λ x, S (vsize x)) (x :: l)) ≤ fuel →
  parse_elems h fuel (join "," (map (dumps ea) (x :: l)) +:+ String "]" rest) = Some (x :: l, rest).
Proof.
  intros Hx Hl. revert x fuel Hx. induction Hl as [|y l Hy Hl IH]; intros x fuel Hx Hf;
    (destruct fuel as [|fuel]; [simpl in Hf; lia|]).
  - simpl in Hf |- *. rewrite Hx by (lia || auto). done.
  - specialize (IH y fuel Hy). set (J := join "," (map (dumps ea) (y :: l))) in IH.
    change (join "," (map (dumps ea) (x :: y :: l))) with (dumps ea x +:+ "," +:+ J).
    clearbody J.     rewrite !str_app_assoc. cbn [parse_elems].
    change ("," +:+ ?s) with (String "," s). rewrite Hx by (simpl in Hf; lia || auto).
    sep_step. rewrite IH by (simpl in *; lia). done.
Qed.

Lemma parse_printed_members kv d rest fuel :
  reads_back kv.2 → Forall (λ kv, reads_back kv.2) d →
  list_sum (map (λ kv, S (vsize kv.2)) (kv :: d)) ≤ fuel →
  parse_members h fuel (join "," (map print_member (kv :: d)) +:+ String "}" rest) = Some (kv :: d, rest).
Proof.
  intros Hx Hl. revert kv fuel Hx. induction Hl as [|y l Hy Hl IH]; intros [k x] fuel Hx Hf;
    (destruct fuel as [|fuel]; [simpl in Hf; lia|]); simpl in Hx.
  - cbn [map join]. unfold print_member, quote. cbn [fst snd]. cbn [parse_members].
    change (String dquote ?s +:+ ?t) with (String dquote (s +:+ t)).
    sep_step. rewrite !str_app_assoc.
    change (String dquote "" +:+ ?s) with (String dquote s). rewrite parse_escaped.
    change (":" +:+ ?s) with (String ":" s). sep_step.
    rewrite Hx by (simpl in Hf; lia || auto). done.
  - specialize (IH y fuel Hy). set (J := join "," (map print_member (y :: l))) in IH.
    change (join "," (map print_member ((k, x) :: y :: l))) with (print_member (k, x) +:+ "," +:+ J).
    clearbody J.     unfold print_member at 1, quote. cbn [fst snd]. cbn [parse_members].
    change (String dquote ?s +:+ ?t) with (String dquote (s +:+ t)).
    sep_step. rewrite !str_app_assoc.
    change (String dquote "" +:+ ?s) with (String dquote s). rewrite parse_escaped.
    change (":" +:+ ?s) with (String ":" s). sep_step.
    change ("," +:+ ?s) with (String "," s). rewrite Hx by (simpl in Hf; lia || auto).
    sep_step. rewrite IH by (simpl in *; lia). done.
Qed.

Lemma canonical_reads v : printed v → reads_back v.
Proof.
  induction v as [|b|z|s|s|l IH|d IH] using value_nested_ind; intros [Hv Hi] [|fuel] rest Hf Hr;
    try (simpl in Hf; lia).
  - done.
  - by destruct b.
  - by apply print_value_int.
  - done.
  - simpl. unfold quote. change (String dquote ?s +:+ ?t) with (String dquote (s +:+ t)).
    cbn -[parse_chars]. by rewrite parse_quoted.
  - rewrite canonical_list in Hv. rewrite all_ints_list in Hi. destruct l as [|x l]; [done|].
    assert (Forall reads_back (x :: l)) as [Hx Hl]%Forall_cons.
    { rewrite Forall_forall in IH, Hv, Hi |- *. auto. }
    cbn [dumps]. rewrite !str_app_assoc. change ("[" +:+ ?s) with (String "[" s).
    change ("]" +:+ rest) with (String "]" rest). rewrite open_bracket.
    + rewrite parse_printed_elems; [done..|]. simpl in Hf |- *. lia.
    + apply Forall_cons in Hv as [Hv _]. destruct l as [|y l]; cbn [map join];
        rewrite ?str_app_assoc; by apply dumps_head.
  - rewrite canonical_dict in Hv. rewrite all_ints_dict in Hi. destruct Hv as [Hs Hv].
    destruct d as [|x d].
    { cbn. by rewrite (Hpairs [] Hs). }
    assert (Forall (λ kv, reads_back kv.2) (x :: d)) as [Hx Hl]%Forall_cons.
    { rewrite Forall_forall in IH, Hv, Hi |- *. auto. }
    rewrite dumps_dict by done. rewrite !str_app_assoc. change ("{" +:+ ?s) with (String "{" s).
    change ("}" +:+ rest) with (String "}" rest).
    assert (∃ s, join "," (map print_member (x :: d)) +:+ String "}" rest = String dquote s) as [s Es].
    { unfold print_member, quote. destruct d as [|y d]; cbn [map join]; eexists; reflexivity. }
    assert (parse_members h fuel (String dquote s) = Some (x :: d, rest)) as Hm.
    { rewrite <-Es. apply parse_printed_members; [done..|]. simpl in Hf |- *. lia. }
    rewrite Es. change (parse_value h (S fuel) (String "{" (String dquote s))) with
      (r ← parse_members h fuel (String dquote s); d ← object_pairs h r.1; Some (VDict d, r.2)).
    rewrite Hm. cbn. by rewrite (Hpairs _ Hs).
Qed.

Lemma vsize_list_sum (f : value → nat) l :
  Forall (λ x, vsize x ≤ f x) l →
  list_sum (map (λ x, S (vsize x)) l) ≤ list_sum (map (λ x, S (f x)) l).
Proof. induction 1; simpl; lia. Qed.

Lemma join_length sep l :
  String.length (join (String sep "") l) + 1 ≥ list_sum (map (λ x, S (String.length x)) l).
Proof.
  induction l as [|x [|y l] IH]; [simpl; lia..|].
  change (join (String sep "") (x :: y :: l))
    with (x +:+ String sep "" +:+ join (String sep "") (y :: l)).
  rewrite !str_length_app. change (String.length (String sep "")) with 1.
  set (j := String.length (join _ _)) in *. clearbody j. simpl in *. lia.
Qed.

Lemma print_member_length kv : String.length (dumps ea kv.2) ≤ String.length (print_member kv).
Proof. unfold print_member. rewrite !str_length_app. lia. Qed.

Lemma vsize_length v : canonical_value v → vsize v ≤ String.length (dumps ea v).
Proof.
  induction v as [|b|z|s|s|l IH|d IH] using value_nested_ind; intros Hv; try done.
  - simpl. lia.
  - destruct b; simpl; lia.
  - pose proof (dumps_head (VInt z) "" I) as H. rewrite str_app_nil_r in H.
    destruct (dumps ea (VInt z)); [done|]. simpl. lia.
  - simpl. lia.
  - rewrite canonical_list in Hv.
    pose proof (join_length "," (map (dumps ea) l)) as H. rewrite map_map in H.
    assert (list_sum (map (λ x, S (vsize x)) l) ≤ list_sum (map (λ x, S (String.length (dumps ea x))) l)).
    { apply (vsize_list_sum (λ x, String.length (dumps ea x))).
      rewrite Forall_forall in *. auto. }
    cbn [dumps vsize]. rewrite !str_length_app. cbn. lia.
  - rewrite canonical_dict in Hv. destruct Hv as [Hs Hv]. rewrite dumps_dict by done.
    pose proof (join_length "," (map print_member d)) as H. rewrite map_map in H.
    assert (list_sum (map (λ kv, S (vsize kv.2)) d)
            ≤ list_sum (map (λ kv, S (String.length (print_member kv))) d)).
    { clear H Hs. induction IH as [|[k x] d Hx _ IHd]; [simpl; lia|].
      apply Forall_cons in Hv as [Hv1 Hv]. specialize (IHd Hv). specialize (Hx Hv1).
      pose proof (print_member_length (k, x)). cbn [map list_sum foldr fst snd] in *.
      unfold list_sum in IHd. lia. }
    cbn [vsize]. rewrite !str_length_app. cbn. lia.
Qed.

(** Reading what [json.dumps] printed gives the value back. *)
Lemma loads_with_dumps v : printed v → loads_with h (dumps ea v) = Some v.
Proof.
  intros Hv. unfold loads_with. rewrite <-(str_app_nil_r (dumps ea v)) at 2.
  rewrite canonical_reads; [done|done| |by left].
  pose proof (vsize_length v (proj1 Hv)). lia.
Qed.

End roundtrip.

Lemma loads_dumps ea v : canonical_value v → loads (dumps ea v) = Some v.
Proof.
  intros Hv. apply loads_with_dumps.
  - intros d Hd. simpl. by rewrite mk_dict_id.
  - split; [done|]. by apply all_ints_any.
Qed.

Lemma dumps_inj ea v w :
  canonical_value v → canonical_value w → dumps ea v = dumps ea w → v = w.
Proof.
  intros Hv Hw H. enough (Some v = Some w) by congruence.
  by rewrite <-(loads_dumps ea v Hv), <-(loads_dumps ea w Hw), H.
Qed.

(** ** The pydantic reader

    [Model.model_validate_json(text, strict=True)] first reads the text as JSON;
    that step belongs to the pydantic package. The named law is its documented
    behaviour: it accepts JSON text, hence what [json.dumps] printed, and
    refuses text that is not JSON, hence the bare word ["new"]. *)

Class Pydantic : Type := { pydantic_json : string → option value }.

Class PydanticLaws `{Pydantic} : Prop :=
  { pydantic_reads_dumps ea v : canonical_value v → pydantic_json (dumps ea v) = Some v;
    pydantic_bare_word : pydantic_json "new" = None }.

(** The reader of this file satisfies the law, so the law can hold. *)
Definition reference_pydantic : Pydantic := {| pydantic_json := loads |}.

Lemma reference_pydantic_laws : @PydanticLaws reference_pydantic.
Proof. constructor; [apply loads_dumps|done]. Qed.
