(* ===== verification/Sha256.v ===== *)
(** * SHA-256

    [hashlib.sha256(data).hexdigest()], as an executable function on byte
    strings (FIPS 180-4, on 32-bit words kept in [Z] with their wrap-around
    written out). The program uses digests as receipt claims, request identities
    and fingerprints; the storage lookups check their form, so the form is
    proved here. *)

From stdpp Require Import base strings list.
From Stdlib Require Import ZArith Ascii String.
From S2P Require Import Prelude Json.

Local Open Scope Z_scope.

Definition word (x : Z) : Z := Z.land x 4294967295.
Definition add32 (a b : Z) : Z := word (a + b).
Definition rotr (n x : Z) : Z := word (Z.lor (Z.shiftr x n) (Z.shiftl x (32 - n))).
Definition not32 (x : Z) : Z := Z.lxor x 4294967295.

Definition round_constants : list Z :=
  [1116352408; 1899447441; 3049323471; 3921009573; 961987163; 1508970993;
   2453635748; 2870763221; 3624381080; 310598401; 607225278; 1426881987;
   1925078388; 2162078206; 2614888103; 3248222580; 3835390401; 4022224774;
   264347078; 604807628; 770255983; 1249150122; 1555081692; 1996064986;
   2554220882; 2821834349; 2952996808; 3210313671; 3336571891; 3584528711;
   113926993; 338241895; 666307205; 773529912; 1294757372; 1396182291;
   1695183700; 1986661051; 2177026350; 2456956037; 2730485921; 2820302411;
   3259730800; 3345764771; 3516065817; 3600352804; 4094571909; 275423344;
   430227734; 506948616; 659060556; 883997877; 958139571; 1322822218;
   1537002063; 1747873779; 1955562222; 2024104815; 2227730452; 2361852424;
   2428436474; 2756734187; 3204031479; 3329325298].

Definition initial_hash : list Z :=
  [1779033703; 3144134277; 1013904242; 2773480762; 1359893119; 2600822924;
   528734635; 1541459225].

(** Big-endian words of a byte list whose length is a multiple of four. *)
Fixpoint to_words (bs : list Z) : list Z :=
  match bs with
  | a :: b :: c :: d :: rest =>
      Z.lor (Z.lor (Z.shiftl a 24) (Z.shiftl b 16)) (Z.lor (Z.shiftl c 8) d) :: to_words rest
  | _ => []
  end.

Definition be_bytes (n : nat) (x : Z) : list Z :=
  map (λ i, Z.land (Z.shiftr x (8 * Z.of_nat i)) 255) (reverse (seq 0 n)).

Definition pad (bs : list Z) : list Z :=
  let l := Z.of_nat (length bs) in
  bs ++ [128] ++ repeat 0 (Z.to_nat ((55 - l) mod 64)) ++ be_bytes 8 (8 * l).

(** The message schedule, most recent word first. *)
Fixpoint extend (n : nat) (w : list Z) : list Z :=
  match n with
  | O => w
  | S n' =>
      let at_ i := nth i w 0 in
      let s0 := Z.lxor (Z.lxor (rotr 7 (at_ 14%nat)) (rotr 18 (at_ 14%nat)))
                  (Z.shiftr (at_ 14%nat) 3) in
      let s1 := Z.lxor (Z.lxor (rotr 17 (at_ 1%nat)) (rotr 19 (at_ 1%nat)))
                  (Z.shiftr (at_ 1%nat) 10) in
      extend n' (add32 (add32 (at_ 15%nat) s0) (add32 (at_ 6%nat) s1) :: w)
  end.

Record working := Working { wa : Z; wb : Z; wc : Z; wd : Z; we : Z; wf : Z; wg : Z; wh : Z }.

Definition sha_round (v : working) (kw : Z * Z) : working :=
  let s1 := Z.lxor (Z.lxor (rotr 6 (we v)) (rotr 11 (we v))) (rotr 25 (we v)) in
  let ch := Z.lxor (Z.land (we v) (wf v)) (Z.land (not32 (we v)) (wg v)) in
  let t1 := add32 (add32 (add32 (wh v) s1) (add32 ch kw.1)) kw.2 in
  let s0 := Z.lxor (Z.lxor (rotr 2 (wa v)) (rotr 13 (wa v))) (rotr 22 (wa v)) in
  let maj := Z.lxor (Z.lxor (Z.land (wa v) (wb v)) (Z.land (wa v) (wc v))) (Z.land (wb v) (wc v)) in
  Working (add32 t1 (add32 s0 maj)) (wa v) (wb v) (wc v) (add32 (wd v) t1) (we v) (wf v) (wg v).

Definition to_working (h : list Z) : working :=
  Working (nth 0 h 0) (nth 1 h 0) (nth 2 h 0) (nth 3 h 0)
    (nth 4 h 0) (nth 5 h 0) (nth 6 h 0) (nth 7 h 0).

Definition of_working (v : working) : list Z :=
  [wa v; wb v; wc v; wd v; we v; wf v; wg v; wh v].

Definition compress (h block : list Z) : list Z :=
  let w := reverse (extend 48 (reverse block)) in
  let v := foldl sha_round (to_working h) (combine round_constants w) in
  zip_with add32 h (of_working v).

Fixpoint blocks (fuel : nat) (h ws : list Z) : list Z :=
  match fuel, ws with
  | S fuel', _ :: _ => blocks fuel' (compress h (take 16 ws)) (drop 16 ws)
  | _, _ => h
  end.

Definition sha256_words (bs : list Z) : list Z :=
  let ws := to_words (pad bs) in blocks (length ws) initial_hash ws.

Definition hex_word (x : Z) : string :=
  foldr (λ i s, String (hex_digit (Z.to_N (Z.land (Z.shiftr x (4 * Z.of_nat i)) 15))) s) ""
    [7; 6; 5; 4; 3; 2; 1; 0]%nat.

Fixpoint bytes_of_string (s : string) : list Z :=
  match s with
  | EmptyString => []
  | String c s' => Z.of_N (code c) :: bytes_of_string s'
  end.

(** [hashlib.sha256(data).hexdigest()], [data] one character per byte. *)
Definition sha256_hex (data : string) : string :=
  foldr (λ w s, hex_word w +:+ s) "" (sha256_words (bytes_of_string data)).

Example sha256_empty :
  sha256_hex "" = "e3b0c44298fc1c149afbf4c8996fb92427ae41e4649b934ca495991b7852b855".
Proof. vm_compute. reflexivity. Qed.

Example sha256_abc :
  sha256_hex "abc" = "ba7816bf8f01cfea414140de5dae2223b00361a396177a9cb410ff61f20015ad".
Proof. vm_compute. reflexivity. Qed.

(** ** The form of a digest *)

Lemma hex_digit_lower n : (n < 16)%N → is_lower_hex (hex_digit n) = true.
Proof.
  intros H. destruct n as [|p]; [done|].
  do 4 (destruct p as [p|p|]; try done); lia.
Qed.

Lemma nibble_bound x i : (Z.to_N (Z.land (Z.shiftr x i) 15) < 16)%N.
Proof.
  assert (0 <= Z.land (Z.shiftr x i) 15 < 16); [|lia].
  change 15 with (Z.ones 4). rewrite Z.land_ones by lia. apply Z.mod_pos_bound. lia.
Qed.

Lemma hex_word_form x :
  String.length (hex_word x) = 8%nat ∧ str_forall is_lower_hex (hex_word x) = true.
Proof.
  unfold hex_word. split; [reflexivity|]. cbn [foldr str_forall].
  by rewrite !hex_digit_lower by apply nibble_bound.
Qed.

Lemma compress_length h block : length h = 8%nat → length (compress h block) = 8%nat.
Proof.
  intros H. unfold compress. rewrite length_zip_with, H.
  change (length (of_working ?v)) with 8%nat. reflexivity.
Qed.

Lemma blocks_length fuel h ws : length h = 8%nat → length (blocks fuel h ws) = 8%nat.
Proof.
  revert h ws. induction fuel as [|fuel IH]; intros h [|x ws] H; cbn [blocks]; [done..|].
  apply IH. by apply compress_length.
Qed.

Definition is_digest (s : string) : bool :=
  (String.length s =? 64)%nat && str_forall is_lower_hex s.

Lemma sha256_hex_digest data : is_digest (sha256_hex data) = true.
Proof.
  unfold sha256_hex, sha256_words.
  set (l := blocks _ _ _). assert (length l = 8%nat) as Hl by (by apply blocks_length).
  clearbody l.
  assert (String.length (foldr (λ w s, hex_word w +:+ s) "" l) = (8 * length l)%nat ∧
          str_forall is_lower_hex (foldr (λ w s, hex_word w +:+ s) "" l) = true) as [H1 H2].
  { clear Hl. induction l as [|x l [IH1 IH2]]; cbn [foldr length]; [done|].
    destruct (hex_word_form x) as [Hx1 Hx2].
    rewrite str_length_app, str_forall_app, Hx1, Hx2, IH1, IH2. split; [lia|done]. }
  unfold is_digest. rewrite H1, H2, Hl. done.
Qed.

#[global] Arguments sha256_hex : simpl never.
#[global] Opaque sha256_words.
