(* ===== verification/Datetime.v ===== *)
(** * Timestamps

    [datetime.datetime] with an optional UTC offset in whole seconds:
    [isoformat], and [fromisoformat] on the grammar of Python 3.10 (the oldest
    version the project supports): a date, any separator, a time with optional
    minutes, seconds and 3 or 6 fractional digits, an optional offset. The
    stored records hold these strings, so the round trip is proved here. *)

From stdpp Require Import base strings list.
From Stdlib Require Import ZArith Ascii String.
From S2P Require Import Prelude.

Local Open Scope Z_scope.

Record datetime := Datetime {
  year : Z; month : Z; day : Z;
  hour : Z; minute : Z; second : Z; microsecond : Z;
  utcoffset : option Z
}.

#[export] Instance datetime_eq_dec : EqDecision datetime.
Proof. solve_decision. Defined.

Definition is_leap (y : Z) : bool :=
  (y mod 4 =? 0) && (negb (y mod 100 =? 0) || (y mod 400 =? 0)).

Definition days_in_month (y m : Z) : Z :=
  if m =? 2 then if is_leap y then 29 else 28
  else if (m =? 4) || (m =? 6) || (m =? 9) || (m =? 11) then 30 else 31.

(** What the [datetime] constructor accepts. *)
Definition datetime_ok (d : datetime) : bool :=
  (1 <=? year d) && (year d <=? 9999) && (1 <=? month d) && (month d <=? 12) &&
  (1 <=? day d) && (day d <=? days_in_month (year d) (month d)) &&
  (0 <=? hour d) && (hour d <=? 23) && (0 <=? minute d) && (minute d <=? 59) &&
  (0 <=? second d) && (second d <=? 59) &&
  (0 <=? microsecond d) && (microsecond d <=? 999999) &&
  match utcoffset d with
  | None => true
  | Some o => (-86400 <? o) && (o <? 86400)
  end.

(** [timestamp.tzinfo is None or timestamp.utcoffset() is None] is false. *)
Definition aware (d : datetime) : bool :=
  match utcoffset d with Some _ => true | None => false end.

(** ** Printing *)

Definition digit_char (z : Z) : ascii := ascii_of_N (48 + Z.to_N z).

Fixpoint fixed_dec (n : nat) (z : Z) : string :=
  match n with
  | O => ""
  | S n' => String (digit_char (z / 10 ^ Z.of_nat n' mod 10)) (fixed_dec n' z)
  end.

Definition print_offset (o : Z) : string :=
  let a := Z.abs o in
  (if o <? 0 then "-" else "+") +:+ fixed_dec 2 (a / 3600) +:+ ":" +:+ fixed_dec 2 (a / 60 mod 60) +:+
  (if a mod 60 =? 0 then "" else ":" +:+ fixed_dec 2 (a mod 60)).

Definition isoformat (d : datetime) : string :=
  fixed_dec 4 (year d) +:+ "-" +:+ fixed_dec 2 (month d) +:+ "-" +:+ fixed_dec 2 (day d) +:+ "T" +:+
  fixed_dec 2 (hour d) +:+ ":" +:+ fixed_dec 2 (minute d) +:+ ":" +:+ fixed_dec 2 (second d) +:+
  (if microsecond d =? 0 then "" else "." +:+ fixed_dec 6 (microsecond d)) +:+
  match utcoffset d with None => "" | Some o => print_offset o end.

(** ** Reading *)

Definition digit_val (c : ascii) : option Z :=
  if is_digit c then Some (Z.of_N (code c) - 48) else None.

Fixpoint take_digits (n : nat) (acc : Z) (s : string) : option (Z * string) :=
  match n with
  | O => Some (acc, s)
  | S n' =>
      match s with
      | String c s' => v ← digit_val c; take_digits n' (acc * 10 + v) s'
      | EmptyString => None
      end
  end.

Definition expect (c : ascii) (s : string) : option string :=
  match s with
  | String d s' => if Ascii.eqb c d then Some s' else None
  | EmptyString => None
  end.

(** [HH[:MM[:SS]]], then the rest. *)
Definition parse_hms (s : string) : option (Z * Z * Z * string) :=
  h ← take_digits 2 0 s;
  match expect ":" h.2 with
  | None => Some (h.1, 0, 0, h.2)
  | Some s1 =>
      m ← take_digits 2 0 s1;
      match expect ":" m.2 with
      | None => Some (h.1, m.1, 0, m.2)
      | Some s2 => x ← take_digits 2 0 s2; Some (h.1, m.1, x.1, x.2)
      end
  end.

Definition ends_time (s : string) : bool :=
  match s with
  | EmptyString => true
  | String c _ => Ascii.eqb c "+" || Ascii.eqb c "-"
  end.

(** [.fff] or [.ffffff]. *)
Definition parse_fraction (s : string) : option (Z * string) :=
  match expect "." s with
  | None => Some (0, s)
  | Some s1 =>
      match take_digits 6 0 s1 with
      | Some r => Some r
      | None => r ← take_digits 3 0 s1; Some (r.1 * 1000, r.2)
      end
  end.

(** Nothing, or a sign with [HH:MM] or [HH:MM:SS]. *)
Definition parse_offset (s : string) : option (option Z) :=
  match s with
  | EmptyString => Some None
  | String c s1 =>
      if Ascii.eqb c "+" || Ascii.eqb c "-" then
        h ← take_digits 2 0 s1; s2 ← expect ":" h.2; m ← take_digits 2 0 s2;
        x ← match expect ":" m.2 with
            | None => Some (0, m.2)
            | Some s3 => take_digits 2 0 s3
            end;
        match x.2 with
        | EmptyString =>
            let o := h.1 * 3600 + m.1 * 60 + x.1 in
            Some (Some (if Ascii.eqb c "-" then - o else o))
        | _ => None
        end
      else None
  end.

(** [datetime.fromisoformat(s)]; [None] stands for its [ValueError]. *)
Definition fromisoformat (s : string) : option datetime :=
  y ← take_digits 4 0 s; s1 ← expect "-" y.2;
  mo ← take_digits 2 0 s1; s2 ← expect "-" mo.2;
  da ← take_digits 2 0 s2;
  d ← match da.2 with
      | EmptyString => Some (Datetime y.1 mo.1 da.1 0 0 0 0 None)
      | String _ s3 =>
          t ← parse_hms s3;
          let '(h, mi, se, s4) := t in
          f ← parse_fraction s4;
          if ends_time f.2 then
            o ← parse_offset f.2; Some (Datetime y.1 mo.1 da.1 h mi se f.1 o)
          else None
      end;
  if datetime_ok d then Some d else None.

(** ** The round trip *)

Lemma digit_val_char z : 0 <= z < 10 → digit_val (digit_char z) = Some z.
Proof.
  intros H. assert (z = 0 ∨ z = 1 ∨ z = 2 ∨ z = 3 ∨ z = 4 ∨ z = 5 ∨ z = 6 ∨ z = 7 ∨ z = 8 ∨ z = 9)
    as Hz by lia.
  repeat destruct Hz as [->|Hz]; try reflexivity. by subst.
Qed.

Lemma take_fixed_dec n z acc rest : 0 <= z →
  take_digits n acc (fixed_dec n z +:+ rest) =
  Some (acc * 10 ^ Z.of_nat n + z mod 10 ^ Z.of_nat n, rest).
Proof.
  revert acc. induction n as [|n IH]; intros acc Hz.
  - simpl. rewrite Z.mod_1_r. do 2 f_equal. lia.
  - cbn [fixed_dec take_digits]. change (String ?c ?s +:+ rest) with (String c (s +:+ rest)).
    cbn [take_digits]. rewrite digit_val_char by (apply Z.mod_pos_bound; lia).
    cbn [mbind option_bind]. rewrite IH by done. do 2 f_equal.
    rewrite Nat2Z.inj_succ, Z.pow_succ_r by lia.
    set (p := 10 ^ Z.of_nat n). assert (0 < p) by (apply Z.pow_pos_nonneg; lia).
    rewrite (Z.mul_comm 10 p), Z.rem_mul_r by lia. lia.
Qed.

Lemma take_fixed n z rest : 0 <= z < 10 ^ Z.of_nat n →
  take_digits n 0 (fixed_dec n z +:+ rest) = Some (z, rest).
Proof. intros H. rewrite take_fixed_dec by lia. by rewrite Z.mod_small by lia. Qed.

Lemma datetime_ok_spec d : datetime_ok d = true ↔
  1 <= year d <= 9999 ∧ 1 <= month d <= 12 ∧ 1 <= day d <= days_in_month (year d) (month d) ∧
  0 <= hour d <= 23 ∧ 0 <= minute d <= 59 ∧ 0 <= second d <= 59 ∧ 0 <= microsecond d <= 999999 ∧
  match utcoffset d with None => True | Some o => -86400 < o < 86400 end.
Proof.
  unfold datetime_ok. rewrite !andb_true_iff, !Z.leb_le.
  destruct (utcoffset d); rewrite ?andb_true_iff, ?Z.ltb_lt; intuition lia.
Qed.

Lemma days_in_month_bound y m : days_in_month y m <= 31.
Proof. unfold days_in_month. repeat case_match; lia. Qed.

Lemma parse_print_offset o : -86400 < o < 86400 → parse_offset (print_offset o) = Some (Some o).
Proof.
  intros Ho. unfold print_offset. set (a := Z.abs o).
  assert (0 <= a < 86400) as Ha by lia.
  assert (0 <= a / 3600 < 10 ^ 2) by (split; [apply Z.div_pos; lia|apply Z.div_lt_upper_bound; lia]).
  assert (0 <= a / 60 mod 60 < 10 ^ 2) by (pose proof (Z.mod_pos_bound (a / 60) 60); lia).
  assert (0 <= a mod 60 < 10 ^ 2) by (pose proof (Z.mod_pos_bound a 60); lia).
  assert (a / 3600 * 3600 + a / 60 mod 60 * 60 + a mod 60 = a) as Hsum.
  { pose proof (Z.div_mod a 60). pose proof (Z.div_mod (a / 60) 60).
    replace (a / 3600) with (a / 60 / 60) by (rewrite Z.div_div by lia; done). lia. }
  assert (∀ c : ascii, Ascii.eqb c "+" || Ascii.eqb c "-" = true →
    parse_offset (String c (fixed_dec 2 (a / 3600) +:+ ":" +:+ fixed_dec 2 (a / 60 mod 60) +:+
      (if a mod 60 =? 0 then "" else ":" +:+ fixed_dec 2 (a mod 60)))) =
    Some (Some (if Ascii.eqb c "-" then - a else a))) as Hp.
  { intros c Hc. unfold parse_offset. rewrite Hc, take_fixed by done.
    cbn [mbind option_bind snd fst]. change (":" +:+ ?s) with (String ":" s).
    change (expect ":" (String ":" ?s)) with (Some s). cbn [mbind option_bind].
    rewrite take_fixed by done. cbn [mbind option_bind snd fst].
    destruct (Z.eqb_spec (a mod 60) 0) as [E|E].
    - cbn [expect mbind option_bind snd fst].
      replace (a / 3600 * 3600 + a / 60 mod 60 * 60 + 0) with a by lia. done.
    - change (":" +:+ ?s) with (String ":" s). change (expect ":" (String ":" ?s)) with (Some s).
      cbv iota beta.
      rewrite <-(str_app_nil_r (fixed_dec 2 (a mod 60))), take_fixed by done.
      cbn [mbind option_bind snd fst]. by rewrite Hsum. }
  destruct (Z.ltb_spec o 0).
  - change ("-" +:+ ?s) with (String "-" s). rewrite Hp by done. simpl. do 2 f_equal. lia.
  - change ("+" +:+ ?s) with (String "+" s). rewrite Hp by done. simpl. do 2 f_equal. lia.
Qed.

Lemma offset_head o : ∃ c s, print_offset o = String c s ∧ (c = "+"%char ∨ c = "-"%char).
Proof. unfold print_offset. destruct (o <? 0); eexists _, _; split; try reflexivity; auto. Qed.

Lemma expect_app c s : expect c (String c "" +:+ s) = Some s.
Proof. simpl. by rewrite Ascii.eqb_refl. Qed.

(** [datetime.fromisoformat(d.isoformat()) == d]. *)
Lemma fromisoformat_isoformat d : datetime_ok d = true → fromisoformat (isoformat d) = Some d.
Proof.
  intros Hok. pose proof Hok as Hd. apply datetime_ok_spec in Hd.
  destruct Hd as (Hy&Hmo&Hda&Hh&Hmi&Hse&Hus&Ho).
  pose proof (days_in_month_bound (year d) (month d)).
  unfold isoformat, fromisoformat.
  rewrite take_fixed by (simpl; lia). cbn [mbind option_bind fst snd].
  rewrite (expect_app "-"). cbn [mbind option_bind].
  rewrite take_fixed by (simpl; lia). cbn [mbind option_bind fst snd].
  rewrite (expect_app "-"). cbn [mbind option_bind].
  rewrite take_fixed by (simpl; lia). cbn [mbind option_bind fst snd].
  change ("T" +:+ ?s) with (String "T" s). cbv iota beta. unfold parse_hms.
  rewrite take_fixed by (simpl; lia). cbn [mbind option_bind fst snd].
  rewrite (expect_app ":"). rewrite take_fixed by (simpl; lia). cbn [mbind option_bind fst snd].
  rewrite (expect_app ":"). rewrite take_fixed by (simpl; lia). cbn [mbind option_bind fst snd].
  set (tz := match utcoffset d with None => "" | Some o => print_offset o end).
  assert (ends_time tz = true ∧ expect "." tz = None ∧ parse_offset tz = Some (utcoffset d))
    as (Ht1&Ht2&Ht3).
  { unfold tz. destruct (utcoffset d) as [o|]; [|done].
    destruct (offset_head o) as (c&s&E&Hc). pose proof (parse_print_offset o Ho) as Hp.
    rewrite E in Hp |- *. by destruct Hc as [-> | ->]. }
  assert (parse_fraction ((if microsecond d =? 0 then "" else "." +:+ fixed_dec 6 (microsecond d)) +:+ tz)
          = Some (microsecond d, tz)) as ->.
  { unfold parse_fraction. destruct (Z.eqb_spec (microsecond d) 0) as [E|E].
    - change ("" +:+ tz) with tz. by rewrite Ht2, E.
    - rewrite str_app_assoc. change ("." +:+ ?s) with (String "." s).
      change (expect "." (String "." ?s)) with (Some s). cbv iota beta.
      by rewrite take_fixed by (simpl; lia). }
  cbn [mbind option_bind fst snd]. rewrite Ht1, Ht3. cbn [mbind option_bind].
  clear Ht1 Ht2 Ht3 tz. destruct d. cbn [year month day hour minute second microsecond utcoffset] in *.
  cbn [mbind option_bind]. by rewrite Hok.
Qed.

#[export] Hint Rewrite fromisoformat_isoformat using done : devgraph.
