(* ===== verification/Validation.v ===== *)
(** * Identifier grammar and numeric bounds

    [src/devgraph/model/validation.py]: the identifier grammar
    [ascii-lower-hyphen-v1], the signed 64-bit bounds of versions and
    priorities, page limits, and the registries of canonical kinds and statuses. *)

From stdpp Require Import base gmap strings list sorting.
From Stdlib Require Import ZArith Ascii String.
From S2P Require Import Prelude Json.

Local Open Scope Z_scope.

Definition SIGNED_64_MIN : Z := -9223372036854775808.
Definition SIGNED_64_MAX : Z := 9223372036854775807.

Definition CANONICAL_WORK_KINDS : list string :=
  ["Todo"; "Proposal"; "Initiative"; "Project"; "Issue"; "Task"; "Requirement";
   "AcceptanceCriterion"; "Blocker"; "Decision"; "Handoff"; "ReviewPacket"; "Milestone"].

Definition CANONICAL_WORK_STATUSES : list string := ["draft"; "review"; "accepted"; "archived"].

Definition CANONICAL_MODEL_PROPERTIES : list string :=
  ["kind"; "title"; "description"; "status"; "created_at"; "updated_at"; "version";
   "artifact_ids"; "external_link_ids"; "priority"].

Definition id_edge (c : ascii) : bool := is_lower c || is_digit c.
Definition id_char (c : ascii) : bool := id_edge c || Ascii.eqb c "-".

Fixpoint last_char (c : ascii) (s : string) : ascii :=
  match s with
  | EmptyString => c
  | String d s' => last_char d s'
  end.

(** [_ID_PATTERN.fullmatch(s)]: [a-z0-9], then up to 254 of [a-z0-9-] and a
    final [a-z0-9]. *)
Definition _ID_PATTERN (s : string) : bool :=
  match s with
  | EmptyString => false
  | String c s' => id_edge c && id_edge (last_char c s') && str_forall id_char s' && (str_len s <=? 256)
  end.

(** [validate_work_object_id] on a [str] argument. *)
Definition require_id (s : string) : res string :=
  if _ID_PATTERN s then Ok s else Err InvalidWorkObjectId.

Definition validate_work_object_id (v : value) : res string :=
  match v with VStr s => require_id s | _ => Err InvalidWorkObjectId end.

(** [validate_work_object_id_collection(values, expected_type=list)]. *)
Definition validate_work_object_id_collection (v : value) : res (list string) :=
  match v with
  | VList l => res_mapM validate_work_object_id l
  | _ => Err (TypeError "invalid_identifier_collection")
  end.

(** The same on a tuple of [str]. *)
Definition require_ids (l : list string) : res (list string) := res_mapM require_id l.

Definition version_ok (z : Z) : bool := (1 <=? z) && (z <=? SIGNED_64_MAX).
Definition priority_ok (z : Z) : bool := (SIGNED_64_MIN <=? z) && (z <=? SIGNED_64_MAX).
Definition page_limit_ok (z : Z) : bool := (1 <=? z) && (z <=? 100).

Definition require_version (z : Z) : res Z :=
  if version_ok z then Ok z else Err (NumericBoundError "invalid_version").

Definition validate_version (v : value) : res Z :=
  match v with VInt z => require_version z | _ => Err (NumericBoundError "invalid_version") end.

Definition require_priority (z : Z) : res Z :=
  if priority_ok z then Ok z else Err (NumericBoundError "invalid_priority").

Definition validate_priority (v : value) : res Z :=
  match v with VInt z => require_priority z | _ => Err (NumericBoundError "invalid_priority") end.

Definition validate_page_limit (z : Z) : res Z :=
  if page_limit_ok z then Ok z else Err (NumericBoundError "invalid_page_limit").

(** ** Lemmas *)

Lemma res_mapM_id {A} (f : A → res A) l r :
  (∀ x y, f x = Ok y → y = x) → res_mapM f l = Ok r → r = l.
Proof.
  intros Hf. revert r. induction l as [|x l IH]; intros r H; simpl in H; minv; [done|].
  subst. f_equal; eauto.
Qed.

Lemma res_mapM_Ok {A B} (f : A → res B) l r :
  res_mapM f l = Ok r ↔ Forall2 (λ x y, f x = Ok y) l r.
Proof.
  revert r. induction l as [|x l IH]; intros r; simpl.
  - split; [intros; minv; subst; constructor|by intros ->%Forall2_nil_inv_l].
  - split.
    + intros H. minv. subst. constructor; [done|]. by apply IH.
    + intros (y&l'&Hx&Hl&->)%Forall2_cons_inv_l. rewrite Hx. simpl.
      apply IH in Hl as ->. done.
Qed.

Lemma require_id_Ok s t : require_id s = Ok t ↔ t = s ∧ _ID_PATTERN s = true.
Proof. unfold require_id. destruct (_ID_PATTERN s); naive_solver. Qed.

Lemma require_version_Ok z y : require_version z = Ok y ↔ y = z ∧ 1 <= z <= SIGNED_64_MAX.
Proof.
  unfold require_version, version_ok. destruct (_ && _) eqn:E; rewrite ?andb_true_iff, ?andb_false_iff,
    ?Z.leb_le, ?Z.leb_gt in E; split; [naive_solver|naive_solver|done|intros [-> ?]; lia].
Qed.

Lemma require_priority_Ok z y :
  require_priority z = Ok y ↔ y = z ∧ SIGNED_64_MIN <= z <= SIGNED_64_MAX.
Proof.
  unfold require_priority, priority_ok. destruct (_ && _) eqn:E; rewrite ?andb_true_iff,
    ?andb_false_iff, ?Z.leb_le, ?Z.leb_gt in E; split; [naive_solver|naive_solver|done|intros [-> ?]; lia].
Qed.

Lemma require_ids_Ok l r : require_ids l = Ok r ↔ r = l ∧ Forall (λ s, _ID_PATTERN s = true) l.
Proof.
  unfold require_ids. rewrite res_mapM_Ok. revert r. induction l as [|x l IH]; intros r.
  - split; [by intros ->%Forall2_nil_inv_l|intros [-> _]; constructor].
  - rewrite Forall_cons. split.
    + intros (y&l'&[-> ?]%require_id_Ok&Hl&->)%Forall2_cons_inv_l. apply IH in Hl as [-> ?]. done.
    + intros [-> [Hx Hl]]. constructor; [by apply require_id_Ok|]. by apply IH.
Qed.

(** A list of [str] values validates as the strings themselves. *)
Lemma validate_ids_strs l :
  validate_work_object_id_collection (VList (VStr <$> l)) = require_ids l.
Proof.
  unfold validate_work_object_id_collection, require_ids.
  induction l as [|x l IH]; [done|]. rewrite fmap_cons.
  cbn [res_mapM validate_work_object_id]. by rewrite IH.
Qed.

Lemma id_char_not_slash s : _ID_PATTERN s = true → str_forall (λ d, negb (Ascii.eqb slash d)) s = true.
Proof.
  destruct s as [|c s]; [done|]. unfold _ID_PATTERN. rewrite !andb_true_iff. intros [[[Hc _] Hs] _].
  assert (∀ d, id_char d = true → negb (Ascii.eqb slash d) = true) as Hne.
  { intros d Hd. destruct (Ascii.eqb_spec slash d) as [<-|]; done. }
  simpl. apply andb_true_iff. split.
  - apply Hne. unfold id_char. by rewrite Hc.
  - by eapply str_forall_mono.
Qed.

#[export] Hint Rewrite require_id_Ok require_version_Ok require_priority_Ok require_ids_Ok : devgraph.
