(* ===== verification/WorkflowContract.v ===== *)
(** * Versioned workflows: tables, state documents and review documents

    [src/devgraph/workflow_contract.py] and [src/devgraph/progress.py]: the
    stage tables, the [WorkflowState] document kept in [workflow_json], the
    review documents ([Evidence], [RequirementVerdict], [LayerVerdict],
    [WorkflowReview]) with their validators, and the progress derived from a
    stage.  A pydantic model is a record and a decoder from [value]; reading
    JSON text into a [value] is the [Pydantic] interface of [Json]. *)

From stdpp Require Import base gmap strings list sorting.
From Stdlib Require Import ZArith Ascii String.
From S2P Require Import Prelude Json Validation.

Local Open Scope Z_scope.

(** ** Tables *)

Definition stage_row : Type := string * string * string.

Definition vibe_ceo : string := "vibe-ceo.v1".
Definition execution : string := "execution.v1".
Definition WorkflowId : list string := [vibe_ceo; execution].

Definition COLUMNS : list string :=
  ["backlog"; "planning"; "plan_approval"; "ready"; "in_progress"; "review"; "done"; "waiting"].

Definition COLUMN_LABELS : list (string * string) :=
  zip COLUMNS ["Backlog"; "Planning"; "Plan approval"; "Ready"; "In progress"; "Review"; "Done";
    "Waiting"].

Definition PARENTS : list (string * list string) :=
  [("Project", ["Initiative"]); ("Issue", ["Initiative"; "Project"]);
   ("Task", ["Initiative"; "Project"; "Issue"])].

Definition WORK_KINDS : list string := ["Proposal"; "Initiative"; "Project"; "Issue"; "Task"].

Definition LAYERS : list string :=
  ["product"; "architecture"; "implementation"; "e2e"; "design"; "ux"].

Definition STAGES : list (string * list stage_row) :=
  [(vibe_ceo,
     [("backlog", "Backlog", "backlog");
      ("planning", "Requirements, context and plan", "planning");
      ("developer_plan_approval", "Developer plan approval", "plan_approval");
      ("ceo_plan_approval", "CEO plan approval", "plan_approval");
      ("ready", "Approved plan, ready for execution", "ready");
      ("in_progress", "Coordinating execution", "in_progress");
      ("ceo_delivery_approval", "CEO delivery approval", "review");
      ("technical_review", "Technical review", "review");
      ("handoff_verification", "Handoff verification", "review");
      ("done", "Done", "done");
      ("blocked_waiting_input", "Blocked, waiting for input", "waiting")]);
   (execution,
     [("backlog", "Backlog", "backlog");
      ("intake", "Intake", "planning");
      ("requirements_normalized", "Requirements normalized", "planning");
      ("baseline_captured", "Baseline captured", "ready");
      ("implementing_commit", "Implementing commit", "in_progress");
      ("commit_ready_for_review", "Commit ready for review", "review");
      ("layer_review", "Layer review", "review");
      ("reconciling_ledger", "Reconciling ledger", "review");
      ("delivery_packet_ready", "Delivery packet ready", "review");
      ("done", "Done", "done");
      ("blocked_waiting_input", "Blocked, waiting for input", "waiting")])].

(** The rows of one workflow; [STAGES[workflow_id]]. *)
Definition stages_of (workflow_id : string) : option (list stage_row) := dict_get workflow_id STAGES.

Definition stage_ids (rows : list stage_row) : list string := map (λ r, r.1.1) rows.

(** [workflow_id in STAGES and stage in {row[0] for row in STAGES[workflow_id]}]. *)
Definition known_stage (workflow_id stage : string) : bool :=
  match stages_of workflow_id with
  | Some rows => str_in stage (stage_ids rows)
  | None => false
  end.

(** [dict(zip([r[0] for r in rows[:-2]], [r[0] for r in rows[1:-1]]))]. *)
Definition FORWARD : list (string * list (string * string)) :=
  map (λ kr, let ids := stage_ids kr.2 in
             (kr.1, zip (take (length ids - 2) ids) (take (length ids - 2) (drop 1 ids)))) STAGES.

Definition RETURNS : list (string * list (string * string)) :=
  [(vibe_ceo,
     [("in_progress", "planning"); ("developer_plan_approval", "planning");
      ("ceo_plan_approval", "planning"); ("ceo_delivery_approval", "in_progress");
      ("technical_review", "in_progress"); ("handoff_verification", "in_progress")]);
   (execution,
     [("implementing_commit", "intake"); ("commit_ready_for_review", "implementing_commit");
      ("layer_review", "implementing_commit"); ("reconciling_ledger", "implementing_commit");
      ("delivery_packet_ready", "implementing_commit")])].

(** [FORWARD[workflow_id].get(stage)] and [RETURNS[workflow_id].get(stage)]. *)
Definition forward (workflow_id stage : string) : option string :=
  dict_get workflow_id FORWARD ≫= dict_get stage.
Definition returns (workflow_id stage : string) : option string :=
  dict_get workflow_id RETURNS ≫= dict_get stage.

Definition ENTRY_REVIEWS : list (string * list string) :=
  [("developer_plan_approval", ["requirements"]); ("ceo_plan_approval", ["developer_plan"]);
   ("ready", ["ceo_plan"]); ("requirements_normalized", ["requirements"]);
   ("baseline_captured", ["baseline"]); ("commit_ready_for_review", ["commit"]);
   ("reconciling_ledger", ["technical"]); ("technical_review", ["ceo_delivery"]);
   ("handoff_verification", ["technical"]); ("done", ["technical"; "handoff"])].

Definition entry_reviews (stage : string) : list string := default [] (dict_get stage ENTRY_REVIEWS).

Definition COMPLETION_GATES : list string :=
  ["ceo_delivery_approval"; "delivery_packet_ready"; "handoff_verification"; "done"].

Definition PHASES : list string :=
  ["requirements"; "baseline"; "developer_plan"; "ceo_plan"; "commit"; "ceo_delivery"; "technical";
   "handoff"; "resolution"].

(** [RECORD_KINDS[phase]] for a phase of [PHASES]. *)
Definition RECORD_KINDS (phase : string) : string :=
  if str_in phase ["developer_plan"; "ceo_plan"; "ceo_delivery"; "resolution"] then "Decision"
  else if String.eqb phase "handoff" then "Handoff" else "ReviewPacket".

(** ** Field validators shared by the pydantic models

    Every model is [strict] with [extra="forbid"]; any failing field or
    validator raises one [ValidationError] for the model. *)

Section fields.
  Context (model : string).

Definition invalid {A} : res A := Err (ValidationError model).

Definition check (b : bool) : res unit := raise_if (negb b) (ValidationError model).

Definition as_dict (v : value) : res (list (string * value)) :=
  match v with VDict d => Ok d | _ => invalid end.

Definition forbid_extra (names : list string) (d : list (string * value)) : res unit :=
  check (forallb (λ kv, str_in kv.1 names) d).

(** [str] with [min_length] and [max_length]. *)
Definition as_str (min max : Z) (v : value) : res string :=
  match v with
  | VStr s => if (min <=? str_len s) && (str_len s <=? max) then Ok s else invalid
  | _ => invalid
  end.

(** An unbounded [str]. *)
Definition as_text (v : value) : res string :=
  match v with VStr s => Ok s | _ => invalid end.

Definition as_literal (choices : list string) (v : value) : res string :=
  match v with VStr s => if str_in s choices then Ok s else invalid | _ => invalid end.

(** A field whose validator is [validate_work_object_id]. *)
Definition as_id (v : value) : res string :=
  match validate_work_object_id v with Ok s => Ok s | Err _ => invalid end.

Definition as_list {A} (max : Z) (f : value → res A) (v : value) : res (list A) :=
  match v with
  | VList l => if Z.of_nat (length l) <=? max then res_mapM f l else invalid
  | _ => invalid
  end.

Definition required {A} (name : string) (f : value → res A) (d : list (string * value)) : res A :=
  match dict_get name d with Some v => f v | None => invalid end.

Definition optional {A} (name : string) (a : A) (f : value → res A) (d : list (string * value)) : res A :=
  match dict_get name d with Some v => f v | None => Ok a end.

End fields.

(** ** The workflow state document *)

Record WorkflowState := {
  workflow_id : string;
  stage : string;
  resume_stage : option string;
  blocking_reason : string;
  reviews : gmap string string
}.

#[export] Instance WorkflowState_eq_dec : EqDecision WorkflowState.
Proof. solve_decision. Defined.

Definition blocked : string := "blocked_waiting_input".

(** The field constraints: [workflow_id] is a [Literal], [blocking_reason] at
    most 4096 characters, [reviews] at most 9 entries. *)
Definition state_fields_ok (s : WorkflowState) : bool :=
  str_in (workflow_id s) WorkflowId && (str_len (blocking_reason s) <=? 4096)
    && (Z.of_nat (size (reviews s)) <=? 9).

(** The after-validator [WorkflowState.valid]. *)
Definition WorkflowState_valid (s : WorkflowState) : bool :=
  known_stage (workflow_id s) (stage s)
  && match resume_stage s with
     | None => true
     | Some r => known_stage (workflow_id s) r && negb (str_in r ["done"; blocked])
     end
  && Bool.eqb (String.eqb (stage s) blocked) (bool_decide (is_Some (resume_stage s)))
  && negb (String.eqb (stage s) blocked && is_blank (blocking_reason s))
  && forallb (λ pr, str_in pr.1 PHASES && _ID_PATTERN pr.2) (map_to_list (reviews s)).

Definition state_ok (s : WorkflowState) : bool := state_fields_ok s && WorkflowState_valid s.

(** [state.model_dump()]. *)
Definition model_dump (s : WorkflowState) : value :=
  VDict (mk_dict
    [("schema_version", VInt 1);
     ("workflow_id", VStr (workflow_id s));
     ("stage", VStr (stage s));
     ("resume_stage", match resume_stage s with Some r => VStr r | None => VNone end);
     ("blocking_reason", VStr (blocking_reason s));
     ("reviews", dict_of_props (VStr <$> reviews s))]).

Definition encode_state (s : WorkflowState) : string := dumps true (model_dump s).

Definition as_reviews (v : value) : res (gmap string string) :=
  d ← as_dict "WorkflowState" v;
  kvs ← res_mapM (λ kv, s ← as_text "WorkflowState" kv.2; Ok (kv.1, s)) d;
  Ok (list_to_map kvs).

(** [WorkflowState.model_validate] on the parsed document. *)
Definition WorkflowState_of (v : value) : res WorkflowState :=
  let m := "WorkflowState" in
  d ← as_dict m v;
  forbid_extra m ["schema_version"; "workflow_id"; "stage"; "resume_stage"; "blocking_reason"; "reviews"] d;;
  optional "schema_version" tt (λ v, check m (value_eqb v (VInt 1))) d;;
  wid ← required m "workflow_id" (as_literal m WorkflowId) d;
  st ← required m "stage" (as_text m) d;
  rs ← optional "resume_stage" None
         (λ v, match v with VNone => Ok None | _ => s ← as_text m v; Ok (Some s) end) d;
  br ← optional "blocking_reason" "" (as_str m 0 4096) d;
  rv ← optional "reviews" ∅ as_reviews d;
  let s := {| workflow_id := wid; stage := st; resume_stage := rs; blocking_reason := br; reviews := rv |} in
  check m (state_ok s);;
  Ok s.

(** [WorkflowState(workflow_id=..., stage=...)]. *)
Definition new_state (wid st : string) : res WorkflowState :=
  let s := {| workflow_id := wid; stage := st; resume_stage := None; blocking_reason := "";
              reviews := ∅ |} in
  check "WorkflowState" (state_ok s);; Ok s.

Definition default_workflow (kind : string) : string :=
  if str_in kind ["Issue"; "Task"] then execution else vibe_ceo.

(** [initial_state]: the constructor's validation of a default workflow at
    [backlog] cannot fail ([initial_state_ok] below). *)
Definition initial_state (kind : string) : res string :=
  s ← new_state (default_workflow kind) "backlog"; Ok (encode_state s).

(** ** Progress ([progress.py]) *)

Definition TODO_KINDS : list string := ["Todo"; "Proposal"; "Initiative"; "Project"; "Issue"; "Task"].

Inductive Progress : Type := NOT_STARTED | IN_PROGRESS | DONE.

#[export] Instance Progress_eq_dec : EqDecision Progress.
Proof. solve_decision. Defined.

(** [Progress.X.value]; members are [str] and compare equal to it. *)
Definition Progress_value (p : Progress) : string :=
  match p with NOT_STARTED => "not_started" | IN_PROGRESS => "in_progress" | DONE => "done" end.

(** [Progress(value)]. *)
Definition Progress_of (s : string) : res Progress :=
  if String.eqb s "not_started" then Ok NOT_STARTED
  else if String.eqb s "in_progress" then Ok IN_PROGRESS
  else if String.eqb s "done" then Ok DONE
  else Err (ValueError "not a valid Progress").

Definition stage_progress (workflow_id stage : string) : res Progress :=
  if known_stage workflow_id stage
  then Ok (if String.eqb stage "backlog" then NOT_STARTED
           else if String.eqb stage "done" then DONE else IN_PROGRESS)
  else Err (ValueError "unknown_workflow_stage").

Section decoding.
  Context `{Pydantic}.

(** [decode_state] on a [str]. *)
Definition decode_state (raw : string) : res WorkflowState :=
  if 16384 <? utf8_len raw then Err (ValueError "invalid_workflow_state")
  else match pydantic_json raw with
       | Some v => WorkflowState_of v
       | None => invalid "WorkflowState"
       end.

(** [decode_state] on any property value. *)
Definition decode_state_value (v : value) : res WorkflowState :=
  match v with VStr s => decode_state s | _ => Err (ValueError "invalid_workflow_state") end.

(** [validate_progress(progress, workflow_json)]; an empty [workflow_json] is
    falsy and is not decoded. *)
Definition validate_progress (progress workflow_json : option string) : res (option Progress) :=
  match progress with
  | None => Ok None
  | Some p =>
      v ← Progress_of p;
      match workflow_json with
      | Some w =>
          if truthy w then
            s ← decode_state w;
            sp ← stage_progress (workflow_id s) (stage s);
            raise_if (negb (bool_decide (v = sp))) (ValueError "progress_stage_conflict");;
            Ok (Some v)
          else Ok (Some v)
      | None => Ok (Some v)
      end
  end.

End decoding.

Definition PROGRESS_LABELS : list (string * string) :=
  [("not_started", "Not started"); ("in_progress", "In progress"); ("done", "Done")].

Definition progress_label (p : option string) : string :=
  default "Needs classification" (p ≫= λ s, dict_get s PROGRESS_LABELS).

(** ** Evidence links

    [safe_evidence_url] and the parts of [ipaddress] it calls. *)

Fixpoint split_all (c : ascii) (s : string) : list string :=
  match s with
  | EmptyString => [EmptyString]
  | String d s' =>
      if Ascii.eqb c d then EmptyString :: split_all c s'
      else match split_all c s' with
           | p :: ps => String d p :: ps
           | [] => [String d EmptyString]
           end
  end.

Definition is_hex (c : ascii) : bool := is_digit c || in_range 97 102 c || in_range 65 70 c.

Definition has_char (c : ascii) (s : string) : bool := str_exists (Ascii.eqb c) s.

(** [int(s)] of a string of ASCII digits. *)
Fixpoint digits_value (acc : Z) (s : string) : Z :=
  match s with
  | EmptyString => acc
  | String c s' => digits_value (acc * 10 + (Z.of_N (code c) - 48)) s'
  end.

(** [IPv4Address._parse_octet]. *)
Definition ipv4_octet (s : string) : bool :=
  truthy s && str_forall is_digit s && (str_len s <=? 3)
  && (String.eqb s "0" || negb (String.prefix "0" s)) && (digits_value 0 s <=? 255).

Definition ipv4_address (s : string) : bool :=
  let octets := split_all "." s in
  Nat.eqb (length octets) 4 && forallb ipv4_octet octets.

(** [IPv6Address._parse_hextet]; [int] refuses an empty hextet. *)
Definition hextet (s : string) : bool := truthy s && str_forall is_hex s && (str_len s <=? 4).

Definition nth_part (parts : list string) (i : nat) : string := default "" (parts !! i).

(** [IPv6Address._ip_int_from_string] succeeds on [parts], a dotted suffix
    already replaced by two hextets. *)
Definition ipv6_parts (parts : list string) : bool :=
  let n := length parts in
  let empties := filter (λ i, nth_part parts i = "") (seq 1 (n - 2)) in
  (n <=? 9)%nat
  && match empties with
     | [] => Nat.eqb n 8 && forallb hextet parts
     | [skip] =>
         let first_empty := negb (truthy (nth_part parts 0)) in
         let last_empty := negb (truthy (nth_part parts (n - 1))) in
         let hi := if first_empty then (skip - 1)%nat else skip in
         let lo := if last_empty then (n - skip - 2)%nat else (n - skip - 1)%nat in
         negb (first_empty && negb (Nat.eqb hi 0)) && negb (last_empty && negb (Nat.eqb lo 0))
         && (hi + lo <? 8)%nat
         && forallb hextet (take hi parts) && forallb hextet (drop (n - lo) parts)
     | _ => false
     end.

Definition ipv6_address (s : string) : bool :=
  let parts := split_all ":" s in
  truthy s && (3 <=? length parts)%nat
  && (let suffix := nth_part parts (length parts - 1) in
      if has_char "." suffix
      then ipv4_address suffix && ipv6_parts (take (length parts - 1) parts ++ ["0"; "0"])
      else ipv6_parts parts).

(** [re.match(r"^https?://([^/?#]*)", url)[1]]. *)
Definition url_authority (url : string) : option string :=
  let after := match strip_prefix "https://" url with
               | Some r => Some r
               | None => strip_prefix "http://" url
               end in
  (λ r, (span (λ c, negb (Ascii.eqb c "/" || Ascii.eqb c "?" || Ascii.eqb c "#")) r).1) <$> after.

(** [not port or re.fullmatch(r":[0-9]{1,5}", port) and int(port[1:]) <= 65535]. *)
Definition port_ok (port : string) : bool :=
  match port with
  | EmptyString => true
  | String c ds =>
      Ascii.eqb c ":" && truthy ds && str_forall is_digit ds && (str_len ds <=? 5)
      && (digits_value 0 ds <=? 65535)
  end.

Definition host_char (c : ascii) : bool := is_alnum c || Ascii.eqb c "." || Ascii.eqb c "-".

(** Without a closing bracket [find] is -1, the host is empty and the result is false. *)
Definition safe_evidence_url (url : string) : bool :=
  if str_exists (λ c, (code c <=? 32)%N || (code c =? 127)%N || Ascii.eqb c backslash) url then false
  else match url_authority url with
       | None => false
       | Some (String "[" rest) =>
           match split_once "]" rest with
           | Some (inner, port) => ipv6_address inner && negb (has_char "%" inner) && port_ok port
           | None => false
           end
       | Some authority =>
           let host := (span (λ c, negb (Ascii.eqb c ":")) authority).1 in
           let port := (span (λ c, negb (Ascii.eqb c ":")) authority).2 in
           truthy host && str_forall host_char host && port_ok port
       end.

(** ** Review documents *)

Record Evidence := {
  ev_kind : string;
  ev_id : string;
  ev_title : string;
  ev_url : string
}.

(** The after-validator [safe_link]. *)
Definition safe_link (e : Evidence) : bool :=
  if truthy (ev_url e)
  then String.eqb (ev_kind e) "ExternalLink" && negb (is_blank (ev_title e)) && safe_evidence_url (ev_url e)
  else negb (truthy (ev_title e)).

Definition Evidence_of (v : value) : res Evidence :=
  let m := "Evidence" in
  d ← as_dict m v;
  forbid_extra m ["kind"; "id"; "title"; "url"] d;;
  k ← required m "kind" (as_literal m ["Artifact"; "ExternalLink"]) d;
  i ← required m "id" (as_id m) d;
  t ← optional "title" "" (as_str m 0 4096) d;
  u ← optional "url" "" (as_str m 0 4096) d;
  let e := {| ev_kind := k; ev_id := i; ev_title := t; ev_url := u |} in
  check m (safe_link e);;
  Ok e.

Definition Evidence_dump (e : Evidence) : value :=
  VDict (mk_dict [("kind", VStr (ev_kind e)); ("id", VStr (ev_id e)); ("title", VStr (ev_title e));
                  ("url", VStr (ev_url e))]).

Record RequirementVerdict := {
  rv_id : string;
  rv_subject : string;
  rv_title : string;
  rv_outcome : string;
  rv_evidence_ids : list string;
  rv_reason : string
}.

(** [valid_subject]: empty, or a kind and an identifier joined by a slash. *)
Definition valid_subject (s : string) : bool :=
  negb (truthy s)
  || match split_once slash s with
     | Some (k, i) => str_in k (WORK_KINDS ++ ["Requirement"; "AcceptanceCriterion"]) && _ID_PATTERN i
     | None => false
     end.

Definition RequirementVerdict_of (v : value) : res RequirementVerdict :=
  let m := "RequirementVerdict" in
  d ← as_dict m v;
  forbid_extra m ["id"; "subject"; "title"; "outcome"; "evidence_ids"; "reason"] d;;
  i ← required m "id" (as_id m) d;
  s ← optional "subject" "" (as_str m 0 280) d;
  check m (valid_subject s);;
  t ← required m "title" (as_str m 1 4096) d;
  o ← required m "outcome" (as_literal m ["met"; "unmet"; "excluded"]) d;
  es ← optional "evidence_ids" [] (as_list m 50 (as_text m)) d;
  r ← optional "reason" "" (as_str m 0 4096) d;
  Ok {| rv_id := i; rv_subject := s; rv_title := t; rv_outcome := o; rv_evidence_ids := es;
        rv_reason := r |}.

Definition RequirementVerdict_dump (r : RequirementVerdict) : value :=
  VDict (mk_dict [("id", VStr (rv_id r)); ("subject", VStr (rv_subject r)); ("title", VStr (rv_title r));
                  ("outcome", VStr (rv_outcome r)); ("evidence_ids", VList (VStr <$> rv_evidence_ids r));
                  ("reason", VStr (rv_reason r))]).

Record LayerVerdict := {
  lv_layer : string;
  lv_verdict : string;
  lv_reason : string
}.

Definition VERDICTS : list string := ["approved"; "changes_requested"; "not_applicable"].

Definition LayerVerdict_of (v : value) : res LayerVerdict :=
  let m := "LayerVerdict" in
  d ← as_dict m v;
  forbid_extra m ["layer"; "verdict"; "reason"] d;;
  l ← required m "layer" (as_literal m LAYERS) d;
  vd ← required m "verdict" (as_literal m VERDICTS) d;
  r ← optional "reason" "" (as_str m 0 4096) d;
  Ok {| lv_layer := l; lv_verdict := vd; lv_reason := r |}.

Definition LayerVerdict_dump (l : LayerVerdict) : value :=
  VDict (mk_dict [("layer", VStr (lv_layer l)); ("verdict", VStr (lv_verdict l));
                  ("reason", VStr (lv_reason l))]).

Record WorkflowReview := {
  wr_record_id : string;
  wr_phase : string;
  wr_verdict : string;
  wr_summary : string;
  wr_evidence : list Evidence;
  wr_requirements : list RequirementVerdict;
  wr_layers : list LayerVerdict
}.

(** One row of the requirement ledger against the review's evidence. *)
Definition requirement_row_ok (evidence : list string) (r : RequirementVerdict) : bool :=
  forallb (λ e, str_in e evidence) (rv_evidence_ids r)
  && negb (String.eqb (rv_outcome r) "met" && bool_decide (rv_evidence_ids r = []))
  && negb (String.eqb (rv_outcome r) "excluded" && is_blank (rv_reason r)).

(** The after-validator [WorkflowReview.unique]. *)
Definition review_unique (w : WorkflowReview) : bool :=
  negb (has_dup (map ev_id (wr_evidence w))) && negb (has_dup (map rv_id (wr_requirements w)))
  && negb (has_dup (map lv_layer (wr_layers w)))
  && forallb (requirement_row_ok (map ev_id (wr_evidence w))) (wr_requirements w)
  && negb (existsb (λ l, String.eqb (lv_verdict l) "not_applicable" && is_blank (lv_reason l)) (wr_layers w)).

(** [WorkflowReview.model_validate(payload, strict=True)]. *)
Definition WorkflowReview_of (v : value) : res WorkflowReview :=
  let m := "WorkflowReview" in
  d ← as_dict m v;
  forbid_extra m ["record_id"; "phase"; "verdict"; "summary"; "evidence"; "requirements"; "layers"] d;;
  i ← required m "record_id" (as_id m) d;
  p ← required m "phase" (as_literal m PHASES) d;
  vd ← required m "verdict" (as_literal m VERDICTS) d;
  s ← required m "summary" (as_str m 1 8192) d;
  es ← optional "evidence" [] (as_list m 50 Evidence_of) d;
  rs ← optional "requirements" [] (as_list m 100 RequirementVerdict_of) d;
  ls ← optional "layers" [] (as_list m 6 LayerVerdict_of) d;
  let w := {| wr_record_id := i; wr_phase := p; wr_verdict := vd; wr_summary := s; wr_evidence := es;
              wr_requirements := rs; wr_layers := ls |} in
  check m (review_unique w);;
  Ok w.

Definition WorkflowReview_dump (w : WorkflowReview) : value :=
  VDict (mk_dict
    [("record_id", VStr (wr_record_id w)); ("phase", VStr (wr_phase w)); ("verdict", VStr (wr_verdict w));
     ("summary", VStr (wr_summary w)); ("evidence", VList (Evidence_dump <$> wr_evidence w));
     ("requirements", VList (RequirementVerdict_dump <$> wr_requirements w));
     ("layers", VList (LayerVerdict_dump <$> wr_layers w))]).

(** ** Request payloads *)

Record WorkflowAssign := {
  wa_workflow_id : string;
  wa_stage : string;
  wa_reason : string
}.

Definition WorkflowAssign_of (v : value) : res WorkflowAssign :=
  let m := "WorkflowAssign" in
  d ← as_dict m v;
  forbid_extra m ["workflow_id"; "stage"; "reason"] d;;
  w ← required m "workflow_id" (as_literal m WorkflowId) d;
  s ← optional "stage" "backlog" (as_text m) d;
  r ← required m "reason" (as_str m 1 4096) d;
  check m (known_stage w s);;
  Ok {| wa_workflow_id := w; wa_stage := s; wa_reason := r |}.

Record WorkflowTransition := {
  wt_stage : string;
  wt_reason : string
}.

Definition WorkflowTransition_of (v : value) : res WorkflowTransition :=
  let m := "WorkflowTransition" in
  d ← as_dict m v;
  forbid_extra m ["stage"; "reason"] d;;
  s ← required m "stage" (as_str m 1 64) d;
  r ← optional "reason" "" (as_str m 0 4096) d;
  Ok {| wt_stage := s; wt_reason := r |}.

(** ** Lemmas: the state document round-trips *)

Lemma check_Ok m b u : check m b = Ok u ↔ b = true.
Proof. destruct b, u; naive_solver. Qed.

(** The dump, with its keys in print order. *)
Lemma model_dump_fields s : model_dump s = VDict
  [("blocking_reason", VStr (blocking_reason s));
   ("resume_stage", match resume_stage s with Some r => VStr r | None => VNone end);
   ("reviews", dict_of_props (VStr <$> reviews s));
   ("schema_version", VInt 1);
   ("stage", VStr (stage s));
   ("workflow_id", VStr (workflow_id s))].
Proof. reflexivity. Qed.

Lemma model_dump_canonical s : canonical_value (model_dump s).
Proof.
  apply canonical_dict. split; [apply mk_dict_sorted|].
  change (mk_dict _) with [("blocking_reason", VStr (blocking_reason s));
   ("resume_stage", match resume_stage s with Some r => VStr r | None => VNone end);
   ("reviews", dict_of_props (VStr <$> reviews s)); ("schema_version", VInt 1);
   ("stage", VStr (stage s)); ("workflow_id", VStr (workflow_id s))].
  repeat apply Forall_cons_2; [done|by destruct (resume_stage s)| |done..].
  apply dict_of_props_canonical. intros k v. rewrite lookup_fmap.
  destruct (reviews s !! k); naive_solver.
Qed.

Lemma res_mapM_fmap {A B C} (g : C → A) (f : A → res B) (h : C → B) l :
  (∀ x, f (g x) = Ok (h x)) → res_mapM f (map g l) = Ok (map h l).
Proof. intros Hf. induction l as [|x l IH]; simpl; [done|]. by rewrite Hf, IH. Qed.

Lemma as_reviews_dump (m : gmap string string) : as_reviews (dict_of_props (VStr <$> m)) = Ok m.
Proof.
  unfold as_reviews, dict_of_props. simpl. rewrite map_to_list_fmap.
  assert (mk_dict (map (λ kv, (kv.1, VStr kv.2)) (map_to_list m))
    = map (λ kv, (kv.1, VStr kv.2)) (mk_dict (map_to_list m))) as Hd.
  { unfold mk_dict. change (@nil (string * value)) with
      (map (λ kv : string * string, (kv.1, VStr kv.2)) []).
    generalize (@nil (string * string)). induction (map_to_list m) as [|[k v] l IH]; intros d; simpl; [done|].
    rewrite <-IH. f_equal. clear. induction d as [|[l w] d IH]; simpl; [done|].
    repeat case_match; simpl; congruence. }
  transitivity (res_mapM (λ kv, s ← as_text "WorkflowState" kv.2; Ok (kv.1, s))
    (map (λ kv : string * string, (kv.1, VStr kv.2)) (mk_dict (map_to_list m)))
    ≫= λ kvs, Ok (list_to_map kvs : gmap string string)).
  { rewrite <-Hd. do 2 f_equal. }
  rewrite (res_mapM_fmap _ _ (λ kv, kv)) by by intros []. simpl.
  by rewrite map_id, (proj2 (mk_dict_of_map m)).
Qed.

Lemma state_ok_fields s : state_ok s = true →
  workflow_id s ∈ WorkflowId ∧ str_len (blocking_reason s) <= 4096.
Proof.
  unfold state_ok, state_fields_ok. rewrite !andb_true_iff, str_in_spec, !Z.leb_le. naive_solver.
Qed.

Lemma WorkflowState_of_dump s : state_ok s = true → WorkflowState_of (model_dump s) = Ok s.
Proof.
  intros Hok. destruct (state_ok_fields s Hok) as [Hw Hb]. rewrite model_dump_fields.
  destruct s as [wid st rs br rv]. simpl in Hw, Hb. unfold WorkflowState_of. simpl.
  unfold required, optional. simpl.
  rewrite (proj2 (str_in_spec wid WorkflowId)) by done. simpl.
  assert (0 <= str_len br) by (unfold str_len; lia).
  rewrite (proj2 (Z.leb_le _ _)), (proj2 (Z.leb_le (str_len br) 4096)) by done. simpl.
  rewrite as_reviews_dump. destruct rs; simpl; by rewrite Hok.
Qed.

Lemma WorkflowState_of_ok v s : WorkflowState_of v = Ok s → state_ok s = true.
Proof. unfold WorkflowState_of, check. intros. minv. subst. by apply negb_false_iff. Qed.

Section decoding_lemmas.
  Context `{PydanticLaws}.

Lemma decode_encode s :
  state_ok s = true → utf8_len (encode_state s) <= 16384 → decode_state (encode_state s) = Ok s.
Proof.
  intros Hok Hlen. unfold decode_state. rewrite (proj2 (Z.ltb_ge _ _)) by done.
  unfold encode_state. rewrite pydantic_reads_dumps by apply model_dump_canonical.
  by apply WorkflowState_of_dump.
Qed.

Lemma decode_state_ok raw s : decode_state raw = Ok s → state_ok s = true.
Proof.
  unfold decode_state. intros. repeat case_match; try done. by eapply WorkflowState_of_ok.
Qed.

Lemma initial_state_decodes kind : ∃ w, initial_state kind = Ok w ∧ truthy w = true ∧
  decode_state w = new_state (default_workflow kind) "backlog".
Proof.
  assert (∃ s, new_state (default_workflow kind) "backlog" = Ok s) as [s Hs].
  { unfold new_state, default_workflow. destruct (str_in _ _); by eexists. }
  exists (encode_state s). unfold initial_state. rewrite Hs. split; [done|]. split; [done|].
  unfold new_state, check in Hs. minv. subst. apply negb_false_iff in Hs. apply decode_encode; [done|].
  unfold default_workflow. destruct (str_in _ _); by vm_compute.
Qed.

(** A valid blocked state whose reason is 2,800 characters outside ASCII. *)
Definition long_reason : WorkflowState :=
  {| workflow_id := execution; stage := blocked; resume_stage := Some "backlog";
     blocking_reason := Nat.iter (Z.to_nat 2800) (String "255"%char) ""; reviews := ∅ |}.

(** C40: the stored document of a workflow state round-trips exactly up to its
    16,384-byte bound, beyond which reading it raises; the bound is tighter than
    the model's: a valid state with a 2,800-character reason is written and cannot
    be read. *)
Theorem state_document_bound :
  (∀ st, state_ok st = true →
     decode_state (encode_state st) = if 16384 <? utf8_len (encode_state st)
                                      then Err (ValueError "invalid_workflow_state") else Ok st)
  ∧ state_ok long_reason = true
  ∧ decode_state (encode_state long_reason) = Err (ValueError "invalid_workflow_state").
Proof.
  split.
  - intros st Hok. destruct (Z.ltb_spec 16384 (utf8_len (encode_state st))).
    + unfold decode_state. by rewrite (proj2 (Z.ltb_lt _ _)).
    + by apply decode_encode.
  - assert (Hv : state_ok long_reason && (16384 <? utf8_len (encode_state long_reason)) = true) by (vm_compute; reflexivity).
    apply andb_prop in Hv as [Hok Hl]. split; [exact Hok|]. unfold decode_state. rewrite Hl. reflexivity.
Qed.

End decoding_lemmas.

Section witness.
#[local] Existing Instance reference_pydantic.
#[local] Existing Instance reference_pydantic_laws.

Lemma state_document_bound_witness : decode_state (encode_state long_reason) = Err (ValueError "invalid_workflow_state").
Proof. exact (proj2 (proj2 state_document_bound)). Defined.

End witness.
