(* ===== verification/StrictJson.v ===== *)
(** * Strict request bytes

    The reading and writing of signed request bytes in
    [src/devgraph/auth/secs_issue_create.py]: [_strict_json_object] refuses
    oversized, ill-encoded, deeply nested, duplicated, fractional or unsafe
    content, and [_canonical_json] prints the one byte string that is signed.
    [wire] describes the values that survive the two, and [fixed] the pydantic
    fields whose dump validates to the value it was dumped from. *)

From stdpp Require Import base gmap strings list sorting.
From Stdlib Require Import ZArith Ascii String.
From S2P Require Import Prelude Json Validation WorkflowContract.

Local Open Scope Z_scope.

(** ** UTF-8

    [bytes] are strings too; [utf8_encode] is their encoding.  A code point of the modelled alphabet takes one
    byte below 128 and two from there on; a sequence for a larger code point is
    refused as an ill-formed one is. *)

Fixpoint utf8_decode (b : string) : option string :=
  match b with
  | EmptyString => Some ""
  | String c b1 =>
      if (code c <? 128)%N then s ← utf8_decode b1; Some (String c s)
      else if in_range 194 195 c then
        match b1 with
        | String d b2 =>
            if in_range 128 191 d then
              s ← utf8_decode b2; Some (String (ascii_of_N ((code c - 192) * 64 + (code d - 128))) s)
            else None
        | EmptyString => None
        end
      else None
  end.

Lemma utf8_roundtrip s : utf8_decode (utf8_encode s) = Some s.
Proof.
  induction s as [|c s IH]; [done|].
  assert (utf8_decode (utf8_encode (String c s)) = t ← utf8_decode (utf8_encode s); Some (String c t)) as ->
    by by destruct c as [[] [] [] [] [] [] [] []].
  by rewrite IH.
Qed.

Lemma utf8_encode_inj s t : utf8_encode s = utf8_encode t → s = t.
Proof. intros H. enough (Some s = Some t) by congruence. by rewrite <-!utf8_roundtrip, H. Qed.

(** ** [_strict_json_object] and [_canonical_json] *)

Definition DEVGRAPH_JSON_SAFE_INTEGER_MAX_V1 : Z := 9007199254740991.
Definition DEVGRAPH_JSON_SAFE_INTEGER_MIN_V1 : Z := - DEVGRAPH_JSON_SAFE_INTEGER_MAX_V1.
Definition _MAX_JSON_DEPTH : nat := 16.

Definition safe_integer (z : Z) : bool :=
  (DEVGRAPH_JSON_SAFE_INTEGER_MIN_V1 <=? z) && (z <=? DEVGRAPH_JSON_SAFE_INTEGER_MAX_V1).

Definition parse_integer (z : Z) : option Z := if safe_integer z then Some z else None.

Fixpoint object_from_pairs (result pairs : list (string * value)) : option (list (string * value)) :=
  match pairs with
  | [] => Some result
  | (k, v) :: pairs' =>
      match dict_get k result with
      | Some _ => None
      | None => object_from_pairs (dict_insert k v result) pairs'
      end
  end.

Definition strict_hooks : json_hooks :=
  {| object_pairs := object_from_pairs []; parse_int := parse_integer;
     parse_float := λ _, None; parse_constant := λ _, None |}.

(** The same hooks with other integers admitted. *)
Definition closed_hooks (ok : Z → bool) : json_hooks :=
  {| object_pairs := object_from_pairs []; parse_int := λ z, if ok z then Some z else None;
     parse_float := λ _, None; parse_constant := λ _, None |}.

(** [_require_json_depth]: no value lies more than [n] levels below [v]. *)
Fixpoint depth_ok (n : nat) (v : value) : bool :=
  match n, v with
  | O, VList (_ :: _) | O, VDict (_ :: _) => false
  | S n, VList l => forallb (depth_ok n) l
  | S n, VDict d => forallb (λ kv, depth_ok n kv.2) d
  | _, _ => true
  end.

(** A byte order mark is a code point outside the alphabet, which
    [utf8_decode] refuses. *)
Definition _strict_json_object (maximum_bytes : Z) (reason : string) (raw : string) : res (list (string * value)) :=
  let denied := SecSIssueCreateDenied reason in
  raise_if (maximum_bytes <? str_len raw) denied;;
  text ← of_option denied (utf8_decode raw);
  v ← of_option denied (loads_with strict_hooks text);
  raise_if (negb (depth_ok _MAX_JSON_DEPTH v)) denied;;
  match v with VDict d => Ok d | _ => Err denied end.

Definition _canonical_json (v : value) : string := utf8_encode (dumps false v).

(** ** What the reader returns and accepts *)

Lemma object_from_pairs_sorted d1 d2 : dict_sorted (d1 ++ d2) → object_from_pairs d1 d2 = Some (d1 ++ d2).
Proof.
  revert d1. induction d2 as [|[k v] d2 IH]; intros d1 Hs; simpl; [by rewrite app_nil_r|].
  assert (Forall (λ x, str_lt x k) d1.*1) as Hk.
  { clear IH. unfold dict_sorted in Hs. rewrite fmap_app in Hs. simpl in Hs.
    induction (d1.*1) as [|x l IH]; [by constructor|]. apply StronglySorted_inv in Hs as [Hs Hx].
    constructor; [|by apply IH]. apply Forall_app in Hx as [_ Hx]. by apply Forall_cons in Hx as [? _]. }
  assert (dict_get k d1 = None) as ->.
  { clear IH Hs. induction d1 as [|[l w] d1 IH]; [done|]. simpl in Hk |- *. apply Forall_cons in Hk as [Hl Hk].
    destruct (String.eqb_spec k l) as [->|]; [by apply (irreflexivity str_lt) in Hl|auto]. }
  rewrite dict_insert_last by done. rewrite IH; by rewrite <-app_assoc.
Qed.

Lemma Forall_dict_insert {V} (P : string * V → Prop) k v d : P (k, v) → Forall P d → Forall P (dict_insert k v d).
Proof.
  intros Hk. induction 1 as [|[l w] d Hl Hd IH]; simpl; [by repeat constructor|].
  repeat case_match; repeat constructor; auto.
Qed.

Lemma Forall_mk_dict {V} (P : string * V → Prop) d : Forall P d → Forall P (mk_dict d).
Proof.
  unfold mk_dict. intros Hd. assert (Forall P ([] : list (string * V))) as H0 by constructor. revert H0.
  generalize (@nil (string * V)). induction Hd as [|[k v] d Hk Hd IH]; intros d0 H0; simpl; [done|].
  by apply IH, Forall_dict_insert.
Qed.

Lemma object_from_pairs_Some d0 d d' :
  object_from_pairs d0 d = Some d' → dict_sorted d0 →
  dict_sorted d' ∧ ∀ P, Forall P d0 → Forall P d → Forall P d'.
Proof.
  revert d0. induction d as [|[k v] d IH]; intros d0; simpl.
  - intros [= ->]. auto.
  - case_match; [done|]. intros H0 Hs. apply IH in H0 as [H1 H2]; [|by apply dict_insert_sorted].
    split; [done|]. intros P Hd0 [Hk Hd]%Forall_cons. apply H2; [by apply Forall_dict_insert|done].
Qed.

(** The integers that the strict reader accepts. *)
Abbreviation safe_ints := (all_ints (λ z, safe_integer z = true)).

(** What the strict reader returns, and what it reads back, at a depth. *)
Record wire (n : nat) (v : value) : Prop := {
  wire_canonical : canonical_value v;
  wire_ints : safe_ints v;
  wire_depth : depth_ok n v = true
}.

Section strict_reader.
  Context (ok : Z → bool).

(** The text at hand is the default branch, or starts with the bracket or
    separator the reader looks for. *)
Ltac by_head t :=
  destruct t as [|[[] [] [] [] [] [] [] []] ?];
  first [assumption | discriminate | solve [eauto]
         | intros [= <- _]; first [apply Forall_singleton; assumption | by repeat constructor]].

Abbreviation sound v := (canonical_value v ∧ all_ints (λ z, ok z = true) v).

Lemma parse_number_sound s v rest : parse_number (closed_hooks ok) s = Some (v, rest) → sound v.
Proof.
  unfold parse_number. case_match; [done|]. case_match; [done|].
  intros (f & _ & H')%bind_Some. apply bind_Some in H' as (x & _ & H'). revert H'. case_match.
  - intros (i & _ & H')%bind_Some. apply bind_Some in H' as (z & Hz & [= <- _]).
    simpl in Hz. case_match; [|done]. by injection Hz as <-.
  - intros (l & ? & _)%bind_Some. done.
Qed.

Lemma parse_constants_sound s r : parse_constants (closed_hooks ok) s ≠ Some r.
Proof. unfold parse_constants. by repeat case_match. Qed.

Lemma parse_sound fuel :
  (∀ s v rest, parse_value (closed_hooks ok) fuel s = Some (v, rest) → sound v)
  ∧ (∀ s l rest, parse_elems (closed_hooks ok) fuel s = Some (l, rest) → Forall (λ v, sound v) l)
  ∧ (∀ s d rest, parse_members (closed_hooks ok) fuel s = Some (d, rest) → Forall (λ kv, sound kv.2) d).
Proof.
  induction fuel as [|fuel (IHv & IHe & IHm)]; [done|].
  split; [|split]; intros s x rest; cbn -[parse_chars parse_number parse_constants strip_prefix].
  - destruct (skip_ws s) as [|c s1]; [done|]. case_match; [by intros (? & _ & [= <- _])%bind_Some|].
    case_match; [|case_match; [|do 3 (case_match; [by intros (? & _ & [= <- _])%bind_Some|])]].
    + assert (parse_elems (closed_hooks ok) fuel s1 ≫= (λ r, Some (VList r.1, r.2)) = Some (x, rest) → sound x) as Hd.
      { intros ([l r] & Hl%IHe & [= <- _])%bind_Some. rewrite canonical_list, all_ints_list. by apply Forall_and. }
      by_head (skip_ws s1).
    + assert (parse_members (closed_hooks ok) fuel s1 ≫=
        (λ r, d ← object_from_pairs [] r.1; Some (VDict d, r.2)) = Some (x, rest) → sound x) as Hd.
      { intros ([l r] & Hl%IHm & H2)%bind_Some. apply bind_Some in H2 as (d & Hd & [= <- _]).
        apply object_from_pairs_Some in Hd as [Hs Hd]; [|constructor].
        apply Forall_and in Hl as [Hc Hi]. rewrite canonical_dict, all_ints_dict. auto. }
      by_head (skip_ws s1).
    + case_match; [|by intros ?%parse_constants_sound]. intros [= ->]. by eapply parse_number_sound.
  - intros ([v r] & Hv%IHv & H2)%bind_Some. revert H2. simpl.
    assert (∀ s2, parse_elems (closed_hooks ok) fuel s2 ≫= (λ t, Some (v :: t.1, t.2)) = Some (x, rest) →
      Forall (λ v, sound v) x) as Hd.
    { intros s2 ([l r2] & Hl%IHe & [= <- _])%bind_Some. by constructor. }
    by_head (skip_ws r).
  - destruct (skip_ws s) as [|c s1]; [done|]. case_match; [|done].
    intros ([k r] & _ & H2)%bind_Some. revert H2. simpl.
    assert (∀ s2, parse_value (closed_hooks ok) fuel s2 ≫= (λ r, match skip_ws r.2 with
        | String "," s3 => t ← parse_members (closed_hooks ok) fuel s3; Some ((k, r.1) :: t.1, t.2)
        | String "}" s3 => Some ([(k, r.1)], s3)
        | _ => None
        end) = Some (x, rest) → Forall (λ kv, sound kv.2) x) as Hd.
    { intros s2 ([v r2] & Hv%IHv & H2)%bind_Some. revert H2. simpl.
      assert (∀ s3, parse_members (closed_hooks ok) fuel s3 ≫= (λ t, Some ((k, v) :: t.1, t.2)) = Some (x, rest) →
        Forall (λ kv, sound kv.2) x) as Hd.
      { intros s3 ([l r3] & Hl%IHm & [= <- _])%bind_Some. by constructor. }
      by_head (skip_ws r2). }
    by_head (skip_ws r).
Qed.

Lemma loads_closed_sound text v : loads_with (closed_hooks ok) text = Some v → sound v.
Proof.
  unfold loads_with. intros ([w r] & Hw & H)%bind_Some. revert H. case_match; [done|]. intros [= <-].
  by eapply (proj1 (parse_sound _)).
Qed.

Lemma loads_closed_dumps v : sound v → loads_with (closed_hooks ok) (dumps false v) = Some v.
Proof.
  intros [Hc Hi]. apply loads_with_dumps.
  - intros d Hd. by apply (object_from_pairs_sorted []).
  - split; [done|]. clear Hc. revert Hi.
    induction v as [|b|z|s|s|l IH|d IH] using value_nested_ind; try done.
    + simpl. by intros ->.
    + rewrite !all_ints_list, !Forall_forall. rewrite Forall_forall in IH. auto.
    + rewrite !all_ints_dict, !Forall_forall. rewrite Forall_forall in IH. auto.
Qed.

End strict_reader.

Lemma loads_strict_sound text v : loads_with strict_hooks text = Some v → canonical_value v ∧ safe_ints v.
Proof. apply (loads_closed_sound safe_integer). Qed.

Lemma loads_strict_dumps v : canonical_value v ∧ safe_ints v → loads_with strict_hooks (dumps false v) = Some v.
Proof. apply (loads_closed_dumps safe_integer). Qed.

(** Reading returns sound values within the depth. *)
Lemma strict_json_object_Ok m r raw d :
  _strict_json_object m r raw = Ok d → str_len raw <= m ∧ wire _MAX_JSON_DEPTH (VDict d).
Proof.
  unfold _strict_json_object. intros. minv. bools. case_match; minv; subst. split; [done|].
  match goal with H : loads_with _ _ = Some _ |- _ => apply loads_strict_sound in H as [? ?] end. by constructor.
Qed.

(** The canonical bytes of such a value read back as it. *)
Lemma strict_json_canonical m r d :
  wire _MAX_JSON_DEPTH (VDict d) → str_len (_canonical_json (VDict d)) <= m →
  _strict_json_object m r (_canonical_json (VDict d)) = Ok d.
Proof.
  intros [Hc Hi Hd] Hm. unfold _strict_json_object, _canonical_json in *. apply Z.ltb_ge in Hm.
  rewrite Hm, utf8_roundtrip. cbn [raise_if of_option mbind res_bind].
  rewrite loads_strict_dumps by done. cbn [of_option mbind res_bind]. by rewrite Hd.
Qed.

(** The bytes determine the value. *)
Lemma canonical_json_inj n v w : wire n v → wire n w → _canonical_json v = _canonical_json w → v = w.
Proof. intros [] [] H%utf8_encode_inj. by apply (dumps_inj false). Qed.

(** ** Building such values *)

Lemma wire_none n : wire n VNone.
Proof. by constructor; destruct n. Qed.

Lemma wire_str n s : wire n (VStr s).
Proof. by constructor; destruct n. Qed.

Lemma wire_int n z : safe_integer z = true → wire n (VInt z).
Proof. by constructor; destruct n. Qed.

Lemma wire_nil n : wire n (VList []).
Proof. by constructor; destruct n. Qed.

Lemma forallb_Forall {A} (f : A → bool) l : forallb f l = true ↔ Forall (λ x, f x = true) l.
Proof. induction l; simpl; [done|]. rewrite andb_true_iff, Forall_cons. naive_solver. Qed.

Lemma wire_list n l : wire (S n) (VList l) ↔ Forall (wire n) l.
Proof.
  split.
  - intros [Hc Hi Hd]. rewrite canonical_list in Hc. rewrite all_ints_list in Hi. simpl in Hd.
    apply forallb_Forall in Hd. rewrite Forall_forall in *. intros x Hx. constructor; auto.
  - intros Hl. constructor.
    + apply canonical_list. eapply Forall_impl; [done|]. by intros ? [].
    + apply all_ints_list. eapply Forall_impl; [done|]. by intros ? [].
    + simpl. apply forallb_Forall. eapply Forall_impl; [done|]. by intros ? [].
Qed.

Lemma wire_dict_iff n d : wire (S n) (VDict d) ↔ dict_sorted d ∧ Forall (λ kv, wire n kv.2) d.
Proof.
  split.
  - intros [Hc Hi Hd]. rewrite canonical_dict in Hc. rewrite all_ints_dict in Hi. simpl in Hd.
    apply forallb_Forall in Hd. destruct Hc as [Hs Hc]. split; [done|].
    rewrite Forall_forall in *. intros x Hx. constructor; auto.
  - intros [Hs Hl]. constructor.
    + apply canonical_dict. split; [done|]. eapply Forall_impl; [done|]. by intros ? [].
    + apply all_ints_dict. eapply Forall_impl; [done|]. by intros ? [].
    + simpl. apply forallb_Forall. eapply Forall_impl; [done|]. by intros ? [].
Qed.

Lemma wire_dict n d : Forall (λ kv, wire n kv.2) d → wire (S n) (VDict (mk_dict d)).
Proof. intros Hd. apply wire_dict_iff. split; [apply mk_dict_sorted|by apply Forall_mk_dict]. Qed.

Lemma wire_field n d k v : wire (S n) (VDict d) → dict_get k d = Some v → wire n v.
Proof.
  intros [_ Hd]%wire_dict_iff Hk%dict_get_elem. rewrite Forall_forall in Hd. exact (Hd _ Hk).
Qed.

(** ** Fields whose dump validates to the value dumped *)

Definition faithful {A} (n : nat) (f : value → res A) (g : A → value) : Prop :=
  ∀ v x, wire n v → f v = Ok x → f (g x) = Ok x ∧ wire n (g x).

Create HintDb wire.
#[export] Hint Resolve wire_none wire_str wire_int wire_nil : wire.

Section faithful.
  Context (n : nat) (m : string).

Lemma text_faithful : faithful n (as_text m) VStr.
Proof. intros [] x _ H; try discriminate H. injection H as ->. auto with wire. Qed.

Lemma str_faithful lo hi : faithful n (as_str m lo hi) VStr.
Proof.
  intros [] x _ H; try discriminate H. assert (s = x) as -> by (simpl in H; unfold invalid in H; case_match; congruence). auto with wire.
Qed.

Lemma literal_faithful l : faithful n (as_literal m l) VStr.
Proof.
  intros [] x _ H; try discriminate H. assert (s = x) as -> by (simpl in H; unfold invalid in H; case_match; congruence). auto with wire.
Qed.

Lemma id_faithful : faithful n (as_id m) VStr.
Proof.
  intros v x _. unfold as_id. destruct (validate_work_object_id v) as [s|] eqn:E; intros [= ->].
  destruct v; try discriminate E. assert (s = x) as -> by (simpl in E; unfold require_id in E; case_match; congruence).
  rewrite E. auto with wire.
Qed.

Lemma list_faithful {A} (f : value → res A) g mx :
  faithful n f g → faithful (S n) (as_list m mx f) (λ l, VList (g <$> l)).
Proof.
  intros Hf v xs Hv. unfold as_list. destruct v as [| | | | |l|]; try discriminate. apply wire_list in Hv.
  rewrite length_fmap. case_match; [|discriminate]. intros Hl.
  assert (length xs = length l) as Hlen.
  { clear -Hl. revert xs Hl. induction l; intros xs Hl; simpl in Hl; minv; subst; [done|]. simpl. f_equal. eauto. }
  enough (res_mapM f (g <$> xs) = Ok xs ∧ Forall (wire n) (g <$> xs)) as [H1 H2].
  { rewrite Hlen, H. split; [done|]. by apply wire_list. }
  clear Hlen H. revert xs Hl. induction Hv as [|v l Hv _ IH]; intros xs Hl; simpl in Hl; minv; subst; [done|].
  edestruct Hf as [H1 H2]; [exact Hv|eassumption|]. edestruct IH as [H3 H4]; [eassumption|].
  rewrite fmap_cons. cbn [res_mapM]. rewrite H1. cbn [mbind res_bind]. rewrite H3. auto.
Qed.

Lemma required_faithful {A} (f : value → res A) g k d x :
  faithful n f g → wire (S n) (VDict d) → required m k f d = Ok x → f (g x) = Ok x ∧ wire n (g x).
Proof. unfold required. intros Hf Hd H. case_match; [|discriminate]. eapply Hf; [|done]. by eapply wire_field. Qed.

Lemma optional_faithful {A} (f : value → res A) g k a d x :
  faithful n f g → f (g a) = Ok a ∧ wire n (g a) → wire (S n) (VDict d) → optional k a f d = Ok x →
  f (g x) = Ok x ∧ wire n (g x).
Proof.
  unfold optional. intros Hf Ha Hd H. case_match; [|by simplify_eq]. eapply Hf; [|done]. by eapply wire_field.
Qed.

End faithful.

#[export] Hint Resolve text_faithful str_faithful literal_faithful id_faithful list_faithful : wire.

(** [fields_back] turns the validated fields of a model into the validation of
    their dumps. *)
Ltac fields_back :=
  repeat match goal with
  | H : as_dict _ ?v = Ok _ |- _ => destruct v; try discriminate H; injection H as <-
  | H : required ?m ?k ?f ?d = Ok ?x, Hd : wire (S ?n) (VDict ?d) |- _ =>
      edestruct (required_faithful n m f) as [? ?]; [solve [eauto with wire]|exact Hd|exact H|]; clear H
  | H : optional ?k ?a ?f ?d = Ok ?x, Hd : wire (S ?n) (VDict ?d) |- _ =>
      edestruct (optional_faithful n f) as [? ?];
        [solve [eauto with wire]| |exact Hd|exact H|]; [split; [reflexivity|solve [eauto with wire]]|]; clear H
  end.

Lemma res_bind_run {A B} (m : res A) (f : A → res B) a b : m = Ok a → f a = Ok b → m ≫= f = Ok b.
Proof. by intros ->. Qed.

(** Runs a validator on a dump, with the validations [fields_back] provides. *)
Ltac revalidate_step :=
  lazymatch goal with
  | |- mbind _ (as_dict _ _) = Ok _ => eapply res_bind_run; [reflexivity|]
  | |- mbind _ (forbid_extra _ _ _) = Ok _ => eapply res_bind_run; [reflexivity|]
  | |- mbind _ (required _ _ ?f _) = Ok _ =>
      eapply res_bind_run; [first [match goal with H : f _ = Ok _ |- _ => exact H end | reflexivity]|]
  | |- mbind _ (optional _ _ ?f _) = Ok _ =>
      eapply res_bind_run; [first [match goal with H : f _ = Ok _ |- _ => exact H end | reflexivity]|]
  | |- mbind _ _ = Ok _ => eapply res_bind_run; [eassumption|]
  end.

Ltac wire_fields :=
  apply wire_dict; repeat (apply Forall_cons; split; [solve [cbn; eauto with wire]|]); apply Forall_nil; exact I.

(** A model is dumped faithfully: its validator and its dump are unfolded. *)
Ltac faithful_solve parser dump :=
  intros ?v ?x ?Hv ?H; unfold parser in H; minv; fields_back; subst;
  split; [unfold parser, dump; repeat revalidate_step; try reflexivity|unfold dump; wire_fields].

(** ** The payload models of the workflow contract *)

Lemma Evidence_faithful n : faithful (S n) Evidence_of Evidence_dump.
Proof. faithful_solve Evidence_of Evidence_dump. Qed.

Lemma RequirementVerdict_faithful n : faithful (S (S n)) RequirementVerdict_of RequirementVerdict_dump.
Proof. faithful_solve RequirementVerdict_of RequirementVerdict_dump. Qed.

Lemma LayerVerdict_faithful n : faithful (S n) LayerVerdict_of LayerVerdict_dump.
Proof. faithful_solve LayerVerdict_of LayerVerdict_dump. Qed.

#[export] Hint Resolve Evidence_faithful RequirementVerdict_faithful LayerVerdict_faithful : wire.

Lemma WorkflowReview_faithful n : faithful (S (S (S (S n)))) WorkflowReview_of WorkflowReview_dump.
Proof. faithful_solve WorkflowReview_of WorkflowReview_dump. Qed.
