(* ===== verification/Model.v ===== *)
(** * Work objects

    [src/devgraph/model/base.py], [model/work.py], [model/artifacts.py],
    [model/external_links.py], [_parse_timestamp] and [_from_node] of
    [model/repository.py], and [validate_canonical_work_object_properties] of
    [model/validation.py].  A dataclass is a record; [__post_init__] is
    [post_init], which [dataclasses.replace] runs again. *)

From stdpp Require Import base gmap strings list sorting.
From Stdlib Require Import ZArith Ascii String.
From S2P Require Import Prelude Json Datetime Validation WorkflowContract.

Local Open Scope Z_scope.

(** ** Classes and statuses *)

Inductive Kind : Type :=
  | KTodo | KProposal | KInitiative | KProject | KIssue | KTask
  | KRequirement | KAcceptanceCriterion | KBlocker | KDecision | KHandoff | KReviewPacket | KMilestone
  | KArtifact | KExternalLink.

#[export] Instance Kind_eq_dec : EqDecision Kind.
Proof. solve_decision. Defined.

(** [type(self).__name__]. *)
Definition kind_name (k : Kind) : string :=
  match k with
  | KTodo => "Todo" | KProposal => "Proposal" | KInitiative => "Initiative" | KProject => "Project"
  | KIssue => "Issue" | KTask => "Task" | KRequirement => "Requirement"
  | KAcceptanceCriterion => "AcceptanceCriterion" | KBlocker => "Blocker" | KDecision => "Decision"
  | KHandoff => "Handoff" | KReviewPacket => "ReviewPacket" | KMilestone => "Milestone"
  | KArtifact => "Artifact" | KExternalLink => "ExternalLink"
  end.

Definition work_kinds : list Kind :=
  [KTodo; KProposal; KInitiative; KProject; KIssue; KTask; KRequirement; KAcceptanceCriterion;
   KBlocker; KDecision; KHandoff; KReviewPacket; KMilestone].

(** [WORK_OBJECT_TYPES.get(name)]. *)
Definition WORK_OBJECT_TYPES (name : string) : option Kind :=
  dict_get name (map (λ k, (kind_name k, k)) work_kinds).

(** [isinstance(w, Todo)] and [w.kind in TODO_KINDS]. *)
Definition is_todo (k : Kind) : bool := str_in (kind_name k) TODO_KINDS.

Inductive WorkStatus : Type := DRAFT | REVIEW | ACCEPTED | ARCHIVED.

#[export] Instance WorkStatus_eq_dec : EqDecision WorkStatus.
Proof. solve_decision. Defined.

Definition status_value (s : WorkStatus) : string :=
  match s with DRAFT => "draft" | REVIEW => "review" | ACCEPTED => "accepted" | ARCHIVED => "archived" end.

(** [WorkStatus(value)]. *)
Definition WorkStatus_of (s : string) : res WorkStatus :=
  if String.eqb s "draft" then Ok DRAFT else if String.eqb s "review" then Ok REVIEW
  else if String.eqb s "accepted" then Ok ACCEPTED else if String.eqb s "archived" then Ok ARCHIVED
  else Err (ValueError "not a valid WorkStatus").

Definition GENERIC_STATUS_TRANSITIONS : list (WorkStatus * WorkStatus) :=
  [(DRAFT, REVIEW); (REVIEW, DRAFT); (DRAFT, ACCEPTED); (REVIEW, ACCEPTED)].

(** ** The work object *)

Record WorkObject := {
  kind : Kind;
  id : string;
  title : string;
  description : string;
  status : WorkStatus;
  created_at : datetime;
  updated_at : datetime;
  version : Z;
  artifact_ids : list string;
  external_link_ids : list string;
  priority : Z;
  workflow_json : option string;
  progress : option string;
  archived : bool;
  progress_record_id : option string;
  progress_migration_json : option string
}.

#[export] Instance WorkObject_eq_dec : EqDecision WorkObject.
Proof. solve_decision. Defined.

(** The dataclass defaults of a class, with the two [utc_now] default factories
    already evaluated. *)
Definition new_work (k : Kind) (i t : string) (created updated : datetime) : WorkObject :=
  {| kind := k; id := i; title := t; description := "";
     status := if decide (k = KDecision) then ACCEPTED else DRAFT;
     created_at := created; updated_at := updated; version := 1; artifact_ids := [];
     external_link_ids := []; priority := 0;
     workflow_json := if is_todo k then Some "new" else None;
     progress := if is_todo k then Some "new" else None;
     archived := false; progress_record_id := None; progress_migration_json := None |}.

(** Field replacements used by [dataclasses.replace]. *)
Definition set_status (s : WorkStatus) (w : WorkObject) : WorkObject :=
  {| kind := kind w; id := id w; title := title w; description := description w; status := s;
     created_at := created_at w; updated_at := updated_at w; version := version w;
     artifact_ids := artifact_ids w; external_link_ids := external_link_ids w; priority := priority w;
     workflow_json := workflow_json w; progress := progress w; archived := archived w;
     progress_record_id := progress_record_id w; progress_migration_json := progress_migration_json w |}.

Definition set_archived (b : bool) (w : WorkObject) : WorkObject :=
  {| kind := kind w; id := id w; title := title w; description := description w; status := status w;
     created_at := created_at w; updated_at := updated_at w; version := version w;
     artifact_ids := artifact_ids w; external_link_ids := external_link_ids w; priority := priority w;
     workflow_json := workflow_json w; progress := progress w; archived := b;
     progress_record_id := progress_record_id w; progress_migration_json := progress_migration_json w |}.

Definition set_content (t d : string) (a e : list string) (p : Z) (w : WorkObject) : WorkObject :=
  {| kind := kind w; id := id w; title := t; description := d; status := status w;
     created_at := created_at w; updated_at := updated_at w; version := version w;
     artifact_ids := a; external_link_ids := e; priority := p;
     workflow_json := workflow_json w; progress := progress w; archived := archived w;
     progress_record_id := progress_record_id w; progress_migration_json := progress_migration_json w |}.

Definition set_workflow (wf pr : option string) (w : WorkObject) : WorkObject :=
  {| kind := kind w; id := id w; title := title w; description := description w; status := status w;
     created_at := created_at w; updated_at := updated_at w; version := version w;
     artifact_ids := artifact_ids w; external_link_ids := external_link_ids w; priority := priority w;
     workflow_json := wf; progress := pr; archived := archived w;
     progress_record_id := progress_record_id w; progress_migration_json := progress_migration_json w |}.

Definition set_record (r : option string) (w : WorkObject) : WorkObject :=
  {| kind := kind w; id := id w; title := title w; description := description w; status := status w;
     created_at := created_at w; updated_at := updated_at w; version := version w;
     artifact_ids := artifact_ids w; external_link_ids := external_link_ids w; priority := priority w;
     workflow_json := workflow_json w; progress := progress w; archived := archived w;
     progress_record_id := r; progress_migration_json := progress_migration_json w |}.

(** [updated_at=now, version=self.version + 1]. *)
Definition touch (now : datetime) (w : WorkObject) : WorkObject :=
  {| kind := kind w; id := id w; title := title w; description := description w; status := status w;
     created_at := created_at w; updated_at := now; version := version w + 1;
     artifact_ids := artifact_ids w; external_link_ids := external_link_ids w; priority := priority w;
     workflow_json := workflow_json w; progress := progress w; archived := archived w;
     progress_record_id := progress_record_id w; progress_migration_json := progress_migration_json w |}.

Definition work_key (w : WorkObject) : string * string := (kind_name (kind w), id w).

Section model.
  Context `{Pydantic}.

(** [WorkObject.__post_init__]. *)
Definition base_post_init (w : WorkObject) : res unit :=
  require_id (id w);;
  require_version (version w);;
  require_priority (priority w);;
  require_ids (artifact_ids w);;
  require_ids (external_link_ids w);;
  raise_if (negb (aware (created_at w) && aware (updated_at w)))
    (ValueError "timestamps must be timezone-aware").

(** [Todo.__post_init__]: the sentinel ["new"] stands for the workflow's initial
    state and its progress. *)
Definition todo_post_init (w : WorkObject) : res WorkObject :=
  wf ← (if decide (workflow_json w = Some "new")
        then if decide (kind w = KTodo) then Ok None else s ← initial_state (kind_name (kind w)); Ok (Some s)
        else Ok (workflow_json w));
  pr ← (if decide (progress w = Some "new")
        then match wf with
             | Some raw =>
                 if truthy raw then
                   s ← decode_state raw;
                   p ← stage_progress (workflow_id s) (stage s);
                   Ok (Some (Progress_value p))
                 else Ok (Some (Progress_value NOT_STARTED))
             | None => Ok (Some (Progress_value NOT_STARTED))
             end
        else Ok (progress w));
  validate_progress pr wf;;
  Ok (set_workflow wf pr w).

Definition post_init (w : WorkObject) : res WorkObject :=
  base_post_init w;;
  if is_todo (kind w) then todo_post_init w else Ok w.

(** [replace(self, ...)]: the constructor runs on the changed fields. *)
Definition replace (f : WorkObject → WorkObject) (w : WorkObject) : res WorkObject := post_init (f w).

Definition with_status (s : WorkStatus) (now : datetime) (w : WorkObject) : res WorkObject :=
  replace (λ w, touch now (set_archived (if decide (s = ARCHIVED) then true else archived w)
                             (set_status s w))) w.

Definition opt_prop (name : string) (o : option string) (m : props) : props :=
  match o with Some s => <[name := VStr s]> m | None => m end.

Definition strs (l : list string) : value := VList (VStr <$> l).

(** [WorkObject.to_node_properties]. *)
Definition base_properties (w : WorkObject) : props :=
  list_to_map
    [("title", VStr (title w)); ("description", VStr (description w));
     ("status", VStr (status_value (status w))); ("created_at", VStr (isoformat (created_at w)));
     ("updated_at", VStr (isoformat (updated_at w))); ("version", VInt (version w));
     ("kind", VStr (kind_name (kind w))); ("artifact_ids", strs (artifact_ids w));
     ("external_link_ids", strs (external_link_ids w)); ("priority", VInt (priority w))].

Definition to_node_properties (w : WorkObject) : props :=
  opt_prop "workflow_json" (workflow_json w)
    (if is_todo (kind w) then
       opt_prop "progress_record_id" (progress_record_id w)
         (opt_prop "progress_migration_json" (progress_migration_json w)
            (opt_prop "progress" (progress w)
               (<["progress_schema" := VInt 1]> (base_properties w))))
     else base_properties w).

(** ** Canonical persistence validation *)

Definition OPTIONAL_PROPERTIES : list string :=
  ["workflow_json"; "progress_schema"; "progress"; "progress_record_id"; "progress_migration_json"].

Definition names_ok (allow_unknown : bool) (p : props) : bool :=
  forallb (λ k, bool_decide (is_Some (p !! k))) CANONICAL_MODEL_PROPERTIES
  && (allow_unknown
      || forallb (λ kv, str_in kv.1 (CANONICAL_MODEL_PROPERTIES ++ OPTIONAL_PROPERTIES)) (map_to_list p)).

Definition get_str (v : value) : option string := match v with VStr s => Some s | _ => None end.

(** The progress block of the validator. *)
Definition canonical_progress (label : string) (p c : props) : res props :=
  if bool_decide (is_Some (p !! "progress")) || bool_decide (is_Some (p !! "progress_schema"))
     || bool_decide (is_Some (p !! "progress_record_id"))
  then
    raise_if (negb (str_in label TODO_KINDS && bool_decide (p !! "progress_schema" = Some (VInt 1))))
      (ValueError "invalid_progress_schema");;
    let c := <["progress_schema" := VInt 1]> c in
    c ← match p !! "progress" with
        | None => Ok c
        | Some (VStr s) =>
            validate_progress (Some s) (p !! "workflow_json" ≫= get_str);;
            Ok (<["progress" := VStr s]> c)
        | Some _ => Err (ValueError "invalid_progress")
        end;
    match p !! "progress_record_id" with
    | None => Ok c
    | Some r => validate_work_object_id r;; Ok (<["progress_record_id" := r]> c)
    end
  else Ok c.

(** The [progress_migration_json] block. *)
Definition canonical_migration (p c : props) : res props :=
  match p !! "progress_migration_json" with
  | None => Ok c
  | Some v =>
      match v with
      | VStr s =>
          if 65536 <? str_len s then Err (ValueError "invalid_progress_migration")
          else match loads s with
               | Some (VDict _) => Ok (<["progress_migration_json" := v]> c)
               | _ => Err (ValueError "invalid_progress_migration")
               end
      | _ => Err (ValueError "invalid_progress_migration")
      end
  end.

(** An ISO-8601 string with an offset. *)
Definition canonical_timestamp (o : option value) : res datetime :=
  match o with
  | Some (VStr t) =>
      match fromisoformat t with
      | Some d => if aware d then Ok d else Err (ValueError "invalid_work_object_timestamp")
      | None => Err (ValueError "Invalid isoformat string")
      end
  | _ => Err (ValueError "invalid_work_object_timestamp")
  end.

(** [value.get(name)] of a canonical property that is present. *)
Definition prop (p : props) (name : string) : value := default VNone (p !! name).

Definition canonical_content (label : string) (is_archived : bool) (c : props) : res unit :=
  raise_if (negb (bool_decide (c !! "kind" = Some (VStr label)))) (ValueError "invalid_work_object_kind");;
  raise_if (negb (bool_decide (is_Some (c !! "title" ≫= get_str))
                  && bool_decide (is_Some (c !! "description" ≫= get_str))))
    (ValueError "invalid_work_object_content");;
  let st := c !! "status" ≫= get_str in
  raise_if (negb (match st with Some s => str_in s CANONICAL_WORK_STATUSES | None => false end))
    (ValueError "invalid_work_object_status");;
  canonical_timestamp (c !! "created_at");;
  canonical_timestamp (c !! "updated_at");;
  validate_version (prop c "version");;
  validate_priority (prop c "priority");;
  validate_work_object_id_collection (prop c "artifact_ids");;
  validate_work_object_id_collection (prop c "external_link_ids");;
  raise_if (bool_decide (c !! "progress_schema" = None)
            && negb (Bool.eqb is_archived (bool_decide (st = Some "archived"))))
    (ValueError "invalid_work_object_archive_state").

Definition validate_canonical_work_object_properties
    (label node_id : string) (p : props) (is_archived allow_unknown : bool) : res props :=
  raise_if (negb (str_in label CANONICAL_WORK_KINDS)) (ValueError "invalid_work_object_kind");;
  require_id node_id;;
  raise_if (negb (names_ok allow_unknown p)) (ValueError "invalid_work_object_properties");;
  let c := filter (λ kv, kv.1 ∈ CANONICAL_MODEL_PROPERTIES) p in
  c ← match p !! "workflow_json" with
      | Some w => decode_state_value w;; Ok (<["workflow_json" := w]> c)
      | None => Ok c
      end;
  c ← canonical_progress label p c;
  c ← canonical_migration p c;
  canonical_content label is_archived c;;
  Ok c.

(** ** Rehydration *)

(** [storage/base.py]: a stored node. *)
Record NodeRecord := Node {
  nr_label : string;
  nr_id : string;
  nr_properties : props;
  nr_archived : bool
}.

#[export] Instance NodeRecord_eq_dec : EqDecision NodeRecord.
Proof. solve_decision. Defined.

Definition nr_key (n : NodeRecord) : string * string := (nr_label n, nr_id n).

(** [tuple(properties[name])] of a validated list of strings. *)
Definition get_strs (v : value) : list string :=
  match v with VList l => omap get_str l | _ => [] end.

Definition get_int (v : value) : Z := match v with VInt z => z | _ => 0 end.

(** The constructor call of [_from_node] on validated properties. *)
Definition work_of_properties (k : Kind) (i : string) (c : props) (is_archived : bool) : res WorkObject :=
  t ← of_option (ValueError "title") (c !! "title" ≫= get_str);
  d ← of_option (ValueError "description") (c !! "description" ≫= get_str);
  sv ← of_option (ValueError "status") (c !! "status" ≫= get_str);
  s ← WorkStatus_of sv;
  created ← canonical_timestamp (c !! "created_at");
  updated ← canonical_timestamp (c !! "updated_at");
  post_init
    {| kind := k; id := i; title := t; description := d; status := s; created_at := created;
       updated_at := updated; version := get_int (prop c "version");
       artifact_ids := get_strs (prop c "artifact_ids");
       external_link_ids := get_strs (prop c "external_link_ids");
       priority := get_int (prop c "priority");
       workflow_json := c !! "workflow_json" ≫= get_str; progress := c !! "progress" ≫= get_str;
       archived := is_archived; progress_record_id := c !! "progress_record_id" ≫= get_str;
       progress_migration_json := c !! "progress_migration_json" ≫= get_str |}.

(** The handlers of [_from_node]: repository errors pass, [ValueError] and
    [TypeError] become a repository error that carries identifiers only. *)
Definition unreadable (e : exn) : exn :=
  if bool_decide (exn_str e = "invalid_work_object_archive_state")
  then WorkObjectRepositoryError "archive status mismatch"
  else WorkObjectRepositoryError "unreadable properties".

Definition _from_node (n : NodeRecord) : res WorkObject :=
  match nr_properties n !! "kind" ≫= get_str with
  | None => Err (UnknownWorkObjectKindError "unknown persisted kind")
  | Some pk =>
      match WORK_OBJECT_TYPES pk with
      | None => Err (UnknownWorkObjectKindError "unknown persisted kind")
      | Some k =>
          if String.eqb pk (nr_label n) then
            rethrow (λ e, (is_value_error e || is_type_error e) && negb (is_repository_error e)) unreadable
              (c ← validate_canonical_work_object_properties (nr_label n) (nr_id n) (nr_properties n)
                     (nr_archived n) true;
               work_of_properties k (nr_id n) c (nr_archived n))
          else Err (UnknownWorkObjectKindError "kind/label mismatch")
      end
  end.

(** ** Artifacts and external links *)

Inductive ArtifactRole : Type :=
  | PROPOSAL_DOCUMENT | REVIEW_PACKET | EVIDENCE | EXPORT | SCREENSHOT | LOG_SUMMARY
  | INITIATIVE_OBSERVATION.

Definition artifact_role_value (r : ArtifactRole) : string :=
  match r with
  | PROPOSAL_DOCUMENT => "proposal_document" | REVIEW_PACKET => "review_packet" | EVIDENCE => "evidence"
  | EXPORT => "export" | SCREENSHOT => "screenshot" | LOG_SUMMARY => "log_summary"
  | INITIATIVE_OBSERVATION => "initiative_observation"
  end.

Record Artifact := {
  ar_work : WorkObject;
  ar_role : ArtifactRole;
  ar_uri : string;
  ar_media_type : string;
  ar_summary : string
}.

Definition artifact_properties (a : Artifact) : props :=
  <["role" := VStr (artifact_role_value (ar_role a))]> (<["uri" := VStr (ar_uri a)]>
    (<["media_type" := VStr (ar_media_type a)]> (<["summary" := VStr (ar_summary a)]>
      (to_node_properties (ar_work a))))).

Inductive ExternalLinkRole : Type :=
  | GITHUB_ISSUE | GITHUB_PR | GITHUB_REPO | GITHUB_COMMIT | GENERIC_URL.

Definition link_role_value (r : ExternalLinkRole) : string :=
  match r with
  | GITHUB_ISSUE => "github_issue" | GITHUB_PR => "github_pr" | GITHUB_REPO => "github_repo"
  | GITHUB_COMMIT => "github_commit" | GENERIC_URL => "generic_url"
  end.

Record ExternalLink := {
  el_work : WorkObject;
  el_role : ExternalLinkRole;
  el_url : string;
  el_external_id : string;
  el_summary : string
}.

Definition link_properties (l : ExternalLink) : props :=
  <["role" := VStr (link_role_value (el_role l))]> (<["url" := VStr (el_url l)]>
    (<["external_id" := VStr (el_external_id l)]> (<["summary" := VStr (el_summary l)]>
      (to_node_properties (el_work l))))).

End model.

(** ** Lemmas *)

Lemma WorkStatus_of_value s : WorkStatus_of (status_value s) = Ok s.
Proof. by destruct s. Qed.

Lemma kind_name_inj k k' : kind_name k = kind_name k' → k = k'.
Proof. by destruct k, k'. Qed.

Lemma WORK_OBJECT_TYPES_name k : k ∈ work_kinds → WORK_OBJECT_TYPES (kind_name k) = Some k.
Proof. unfold work_kinds. rewrite !elem_of_cons, elem_of_nil. naive_solver. Qed.

Lemma WORK_OBJECT_TYPES_Some name k :
  WORK_OBJECT_TYPES name = Some k → name = kind_name k ∧ k ∈ work_kinds.
Proof.
  unfold WORK_OBJECT_TYPES, work_kinds. simpl.
  repeat (case_match; [intros [= <-]; by split; [apply String.eqb_eq|set_solver]|]). done.
Qed.

Lemma work_kind_canonical k : k ∈ work_kinds → str_in (kind_name k) CANONICAL_WORK_KINDS = true.
Proof. unfold work_kinds. rewrite !elem_of_cons, elem_of_nil. naive_solver. Qed.

Lemma is_todo_work_kind k : is_todo k = true → k ∈ work_kinds.
Proof. unfold work_kinds. destruct k; (done || set_solver). Qed.

(** The lookups of a printed work object. *)
Ltac props_cases w :=
  unfold to_node_properties, opt_prop, canonical_progress;
  destruct (is_todo (kind w)), (workflow_json w), (progress w), (progress_record_id w),
    (progress_migration_json w); try reflexivity.

Section model_lemmas.
  Context `{Pydantic}.
  Implicit Types (w : WorkObject).

Lemma tnp_base w name v : base_properties w !! name = Some v → to_node_properties w !! name = Some v.
Proof.
  intros Hb. unfold to_node_properties, opt_prop.
  assert (name ∉ OPTIONAL_PROPERTIES) as Hn.
  { intros Hin. unfold OPTIONAL_PROPERTIES in Hin. rewrite !elem_of_cons, elem_of_nil in Hin.
    destruct Hin as [->|[->|[->|[->|[->|[]]]]]]; discriminate Hb. }
  unfold OPTIONAL_PROPERTIES in Hn. rewrite !not_elem_of_cons in Hn.
  destruct Hn as (?&?&?&?&?&_).
  repeat case_match; rewrite ?lookup_insert_ne by done; done.
Qed.

Lemma tnp_workflow w : to_node_properties w !! "workflow_json" = VStr <$> workflow_json w.
Proof. props_cases w. Qed.

Lemma tnp_schema w :
  to_node_properties w !! "progress_schema" = if is_todo (kind w) then Some (VInt 1) else None.
Proof. props_cases w. Qed.

Lemma tnp_progress w :
  to_node_properties w !! "progress" = if is_todo (kind w) then VStr <$> progress w else None.
Proof. props_cases w. Qed.

Lemma tnp_record w : to_node_properties w !! "progress_record_id"
  = if is_todo (kind w) then VStr <$> progress_record_id w else None.
Proof. props_cases w. Qed.

Lemma tnp_migration w : to_node_properties w !! "progress_migration_json"
  = if is_todo (kind w) then VStr <$> progress_migration_json w else None.
Proof. props_cases w. Qed.

Lemma tnp_names b w : names_ok b (to_node_properties w) = true.
Proof. destruct b; props_cases w. Qed.

Lemma tnp_filter w :
  filter (λ kv, kv.1 ∈ CANONICAL_MODEL_PROPERTIES) (to_node_properties w) = base_properties w.
Proof. props_cases w. Qed.

(** What a work object must satisfy to be stored and read back unchanged. *)
Record storable (w : WorkObject) : Prop := {
  st_kind : kind w ∈ work_kinds;
  st_id : _ID_PATTERN (id w) = true;
  st_version : 1 <= version w <= SIGNED_64_MAX;
  st_priority : SIGNED_64_MIN <= priority w <= SIGNED_64_MAX;
  st_artifacts : Forall (λ s, _ID_PATTERN s = true) (artifact_ids w);
  st_links : Forall (λ s, _ID_PATTERN s = true) (external_link_ids w);
  st_created : datetime_ok (created_at w) = true ∧ aware (created_at w) = true;
  st_updated : datetime_ok (updated_at w) = true ∧ aware (updated_at w) = true;
  st_workflow raw : workflow_json w = Some raw → is_ok (decode_state raw) = true;
  st_progress : is_ok (validate_progress (progress w) (workflow_json w)) = true;
  st_record r : progress_record_id w = Some r → _ID_PATTERN r = true;
  st_migration m : progress_migration_json w = Some m →
    str_len m <= 65536 ∧ ∃ d, loads m = Some (VDict d);
  st_plain : is_todo (kind w) = false →
    progress w = None ∧ progress_record_id w = None ∧ archived w = bool_decide (status w = ARCHIVED)
}.

(** [to_node_properties] prints the migration document of [Todo] classes only. *)
Definition printable (w : WorkObject) : Prop :=
  is_todo (kind w) = false → progress_migration_json w = None.

Lemma canonical_timestamp_iso d :
  datetime_ok d = true → aware d = true → canonical_timestamp (Some (VStr (isoformat d))) = Ok d.
Proof.
  intros Hok Ha. unfold canonical_timestamp. rewrite fromisoformat_isoformat by done. by rewrite Ha.
Qed.

Lemma validate_strs l : Forall (λ s, _ID_PATTERN s = true) l →
  validate_work_object_id_collection (strs l) = Ok l.
Proof. intros. unfold strs. rewrite validate_ids_strs. by apply require_ids_Ok. Qed.

Lemma get_strs_strs l : get_strs (strs l) = l.
Proof.
  unfold get_strs, strs. induction l as [|x l IH]; [done|].
  change (x :: omap get_str (VStr <$> l) = x :: l). by rewrite IH.
Qed.

Lemma status_value_canonical s : str_in (status_value s) CANONICAL_WORK_STATUSES = true.
Proof. by destruct s. Qed.

Lemma status_archived s : bool_decide (Some (status_value s) = Some "archived") = bool_decide (s = ARCHIVED).
Proof. by destruct s. Qed.

Lemma is_ok_spec {A} (r : res A) : is_ok r = true ↔ ∃ a, r = Ok a.
Proof. destruct r; naive_solver. Qed.

Lemma content_tnp w b : storable w → (is_todo (kind w) = false → b = archived w) →
  canonical_content (kind_name (kind w)) b (to_node_properties w) = Ok tt.
Proof.
  intros Hw Hb. unfold canonical_content, prop.
  rewrite (tnp_base w "kind" (VStr (kind_name (kind w)))) by done.
  rewrite (tnp_base w "title" (VStr (title w))) by done.
  rewrite (tnp_base w "description" (VStr (description w))) by done.
  rewrite (tnp_base w "status" (VStr (status_value (status w)))) by done.
  rewrite (tnp_base w "created_at" (VStr (isoformat (created_at w)))) by done.
  rewrite (tnp_base w "updated_at" (VStr (isoformat (updated_at w)))) by done.
  rewrite (tnp_base w "version" (VInt (version w))) by done.
  rewrite (tnp_base w "priority" (VInt (priority w))) by done.
  rewrite (tnp_base w "artifact_ids" (strs (artifact_ids w))) by done.
  rewrite (tnp_base w "external_link_ids" (strs (external_link_ids w))) by done.
  rewrite tnp_schema. cbn [mbind option_bind get_str from_option].
  rewrite (bool_decide_true (Some (VStr (kind_name (kind w))) = _)), !(bool_decide_true (is_Some (Some _))) by done.
  rewrite status_value_canonical, status_archived. cbn [negb andb raise_if mbind res_bind].
  destruct (st_created w Hw), (st_updated w Hw). rewrite !canonical_timestamp_iso by done.
  cbn [from_option mbind res_bind]. unfold Datatypes.id. cbn [validate_version validate_priority].
  rewrite (proj2 (require_version_Ok _ (version w))) by (split; [done|by apply st_version]).
  rewrite (proj2 (require_priority_Ok _ (priority w))) by (split; [done|by apply st_priority]).
  rewrite !validate_strs by (by apply st_artifacts || by apply st_links).
  destruct (is_todo (kind w)) eqn:E; [done|]. rewrite (Hb eq_refl).
  destruct (st_plain w Hw E) as (_&_&->). simpl. by rewrite eqb_reflx.
Qed.

Lemma canonical_progress_tnp w : storable w →
  canonical_progress (kind_name (kind w)) (to_node_properties w)
    (opt_prop "workflow_json" (workflow_json w) (base_properties w))
  = Ok (opt_prop "workflow_json" (workflow_json w)
     (if is_todo (kind w) then opt_prop "progress_record_id" (progress_record_id w)
        (opt_prop "progress" (progress w) (<["progress_schema" := VInt 1]> (base_properties w)))
      else base_properties w)).
Proof.
  intros Hw. unfold canonical_progress.
  rewrite tnp_progress, tnp_schema, tnp_record, tnp_workflow. change (str_in _ TODO_KINDS) with (is_todo (kind w)).
  destruct (is_todo (kind w)) eqn:E; [|done].
  rewrite (bool_decide_true (is_Some (Some (VInt 1)))) by done. rewrite orb_true_r. cbn [orb].
  rewrite bool_decide_true by done. cbn [negb andb raise_if mbind res_bind].
  pose proof (st_progress w Hw) as [p Hp]%is_ok_spec.
  assert ((VStr <$> workflow_json w) ≫= get_str = workflow_json w) as -> by by destruct (workflow_json w).
  destruct (progress w) as [pr|]; cbn [fmap option_fmap option_map]; [rewrite Hp|];
    cbn [mbind res_bind]; (destruct (progress_record_id w) as [r|] eqn:Er; cbn [fmap option_fmap option_map];
      [cbn [validate_work_object_id]; rewrite (proj2 (require_id_Ok r r)) by (by split; [|apply (st_record w Hw)])|]);
    unfold opt_prop; destruct (workflow_json w); reflexivity.
Qed.

(** A storable object's printed properties pass the canonical validator
    unchanged. *)
Lemma validate_tnp w b allow : storable w → (is_todo (kind w) = false → b = archived w) →
  validate_canonical_work_object_properties (kind_name (kind w)) (id w) (to_node_properties w) b allow
  = Ok (to_node_properties w).
Proof.
  intros Hw Hb. unfold validate_canonical_work_object_properties.
  rewrite work_kind_canonical by by apply st_kind. cbn [negb raise_if mbind res_bind].
  rewrite (proj2 (require_id_Ok _ (id w))) by (split; [done|by apply st_id]). cbn [mbind res_bind].
  rewrite tnp_names, tnp_filter, tnp_workflow. cbn [negb raise_if mbind res_bind].
  transitivity (c ← Ok (opt_prop "workflow_json" (workflow_json w) (base_properties w));
    c ← canonical_progress (kind_name (kind w)) (to_node_properties w) c;
    c ← canonical_migration (to_node_properties w) c;
    canonical_content (kind_name (kind w)) b c;; Ok c).
  { destruct (workflow_json w) as [raw|] eqn:Ew; [|done]. cbn [fmap option_fmap option_map decode_state_value].
    pose proof (st_workflow w Hw raw Ew) as [s ->]%is_ok_spec. done. }
  cbn [mbind res_bind]. rewrite canonical_progress_tnp by done. cbn [mbind res_bind].
  transitivity (c ← Ok (to_node_properties w); canonical_content (kind_name (kind w)) b c;; Ok c).
  { f_equal. unfold canonical_migration. rewrite tnp_migration.
    destruct (is_todo (kind w)) eqn:E; [|unfold to_node_properties; by rewrite E].
    destruct (progress_migration_json w) as [m|] eqn:Em; cbn [fmap option_fmap option_map].
    - destruct (st_migration w Hw m Em) as [Hl [d Hd]].
      rewrite (proj2 (Z.ltb_ge _ _)) by done. rewrite Hd. f_equal. unfold to_node_properties. rewrite E, Em.
      unfold opt_prop. destruct (workflow_json w), (progress_record_id w), (progress w); reflexivity.
    - f_equal. unfold to_node_properties. by rewrite E, Em. }
  cbn [mbind res_bind]. by rewrite content_tnp.
Qed.

Lemma base_post_init_storable w : storable w → base_post_init w = Ok tt.
Proof.
  intros Hw. unfold base_post_init.
  rewrite (proj2 (require_id_Ok _ (id w))) by (split; [done|by apply st_id]).
  rewrite (proj2 (require_version_Ok _ (version w))) by (split; [done|by apply st_version]).
  rewrite (proj2 (require_priority_Ok _ (priority w))) by (split; [done|by apply st_priority]).
  rewrite (proj2 (require_ids_Ok (artifact_ids w) (artifact_ids w))) by (split; [done|by apply st_artifacts]).
  rewrite (proj2 (require_ids_Ok (external_link_ids w) (external_link_ids w))) by (split; [done|by apply st_links]).
  destruct (st_created w Hw) as [_ ->], (st_updated w Hw) as [_ ->]. done.
Qed.

Lemma Progress_of_Ok s p : Progress_of s = Ok p → s = Progress_value p.
Proof.
  unfold Progress_of. repeat case_match; intros; simplify_eq; by apply String.eqb_eq.
Qed.

Lemma post_init_storable `{!PydanticLaws} w : storable w → post_init w = Ok w.
Proof.
  intros Hw. unfold post_init. rewrite base_post_init_storable by done. cbn [mbind res_bind].
  destruct (is_todo (kind w)) eqn:E; [|done]. unfold todo_post_init.
  pose proof (st_progress w Hw) as [p Hp]%is_ok_spec.
  rewrite decide_False; last first.
  { intros Hn. pose proof (st_workflow w Hw _ Hn) as [s Hs]%is_ok_spec.
    unfold decode_state in Hs. by rewrite pydantic_bare_word in Hs. }
  cbn [mbind res_bind]. rewrite decide_False; last first.
  { intros Hn. rewrite Hn in Hp. done. }
  cbn [mbind res_bind]. rewrite Hp. by destruct w.
Qed.

(** ** What an accepted property map looks like *)

Definition restrict (names : list string) (p : props) : props := filter (λ kv, kv.1 ∈ names) p.

Definition KNOWN_PROPERTIES : list string :=
  "progress_migration_json" :: "progress_record_id" :: "progress" :: "progress_schema" ::
  "workflow_json" :: CANONICAL_MODEL_PROPERTIES.

Lemma restrict_lookup names p k : k ∈ names → restrict names p !! k = p !! k.
Proof.
  intros Hk. unfold restrict. destruct (p !! k) as [v|] eqn:E.
  - by apply map_lookup_filter_Some.
  - apply map_lookup_filter_None. by left.
Qed.

Lemma restrict_insert names p k v :
  p !! k = Some v → <[k := v]> (restrict names p) = restrict (k :: names) p.
Proof.
  intros Hk. apply map_eq. intros l. destruct (decide (l = k)) as [->|Hl].
  - rewrite lookup_insert_eq, restrict_lookup by set_solver. done.
  - rewrite lookup_insert_ne by done. destruct (decide (l ∈ names)).
    + by rewrite !restrict_lookup by set_solver.
    + unfold restrict. transitivity (None : option value); [|symmetry];
        apply map_lookup_filter_None; right; simpl; set_solver.
Qed.

Lemma restrict_none names p k : p !! k = None → restrict names p = restrict (k :: names) p.
Proof.
  intros Hk. apply map_eq. intros l. destruct (decide (l = k)) as [->|Hl].
  - rewrite (restrict_lookup (k :: names)) by set_solver. rewrite Hk. unfold restrict.
    apply map_lookup_filter_None. by left.
  - destruct (decide (l ∈ names)).
    + by rewrite !restrict_lookup by set_solver.
    + unfold restrict. transitivity (None : option value); [|symmetry];
        apply map_lookup_filter_None; right; simpl; set_solver.
Qed.

(** The facts [canonical_content] establishes. *)
Record content_facts (label : string) (a : bool) (c : props) : Prop := {
  cf_kind : c !! "kind" = Some (VStr label);
  cf_title : ∃ s, c !! "title" = Some (VStr s);
  cf_description : ∃ s, c !! "description" = Some (VStr s);
  cf_status : ∃ s, c !! "status" = Some (VStr (status_value s))
    ∧ (c !! "progress_schema" = None → a = bool_decide (s = ARCHIVED));
  cf_created : ∃ d, canonical_timestamp (c !! "created_at") = Ok d;
  cf_updated : ∃ d, canonical_timestamp (c !! "updated_at") = Ok d;
  cf_version : ∃ z, c !! "version" = Some (VInt z) ∧ 1 <= z <= SIGNED_64_MAX;
  cf_priority : ∃ z, c !! "priority" = Some (VInt z) ∧ SIGNED_64_MIN <= z <= SIGNED_64_MAX;
  cf_artifacts : ∃ l, c !! "artifact_ids" = Some (strs l) ∧ Forall (λ s, _ID_PATTERN s = true) l;
  cf_links : ∃ l, c !! "external_link_ids" = Some (strs l) ∧ Forall (λ s, _ID_PATTERN s = true) l
}.

Lemma get_str_Some o s : o ≫= get_str = Some s → o = Some (VStr s).
Proof. destruct o as [[]|]; naive_solver. Qed.

Lemma canonical_status s : str_in s CANONICAL_WORK_STATUSES = true → ∃ t, s = status_value t.
Proof.
  rewrite str_in_spec. unfold CANONICAL_WORK_STATUSES. rewrite !elem_of_cons, elem_of_nil.
  intros [->|[->|[->|[->|[]]]]]; [by exists DRAFT|by exists REVIEW|by exists ACCEPTED|by exists ARCHIVED].
Qed.

Lemma version_value v z : validate_version v = Ok z → v = VInt z ∧ 1 <= z <= SIGNED_64_MAX.
Proof. destruct v; try done. intros [-> ?]%require_version_Ok. done. Qed.

Lemma priority_value v z :
  validate_priority v = Ok z → v = VInt z ∧ SIGNED_64_MIN <= z <= SIGNED_64_MAX.
Proof. destruct v; try done. intros [-> ?]%require_priority_Ok. done. Qed.

Lemma ids_value v l : validate_work_object_id_collection v = Ok l →
  v = strs l ∧ Forall (λ s, _ID_PATTERN s = true) l.
Proof.
  destruct v as [| | | | |vs|]; try done. simpl. rewrite res_mapM_Ok. unfold strs. intros H2.
  enough (vs = VStr <$> l ∧ Forall (λ s, _ID_PATTERN s = true) l) by naive_solver.
  induction H2 as [|v s vs l Hv _ [-> IH]]; [done|]. destruct v; try done.
  apply require_id_Ok in Hv as [-> ?]. split; [done|]. by constructor.
Qed.

Lemma prop_Some c name v : prop c name = v → v ≠ VNone → c !! name = Some v.
Proof. unfold prop. destruct (c !! name); simpl; naive_solver. Qed.

Lemma canonical_content_facts label a c :
  canonical_content label a c = Ok tt → content_facts label a c.
Proof.
  unfold canonical_content. intros H1. minv.
  bools. repeat match goal with H : is_Some _ |- _ => destruct H as [? ?%get_str_Some] end.
  destruct (c !! "status" ≫= get_str) as [sv|] eqn:Es; [|done]. apply get_str_Some in Es.
  match goal with H : str_in _ _ = true |- _ => apply canonical_status in H as [st ->] end.
  match goal with H : validate_version _ = _ |- _ => apply version_value in H as [Hv ?] end.
  match goal with H : validate_priority _ = _ |- _ => apply priority_value in H as [Hp ?] end.
  repeat match goal with
  | H : validate_work_object_id_collection _ = _ |- _ => apply ids_value in H as [? ?]
  | H : prop _ _ = _ |- _ => apply prop_Some in H; [|done]
  end.
  constructor; eauto. exists st. split; [done|]. intros Hn.
  match goal with H : bool_decide _ && _ = false |- _ => rewrite Hn, status_archived in H;
    rewrite bool_decide_true in H by done; simpl in H; by apply negb_false_iff, eqb_prop in H end.
Qed.

(** The facts about the optional properties; [strict] includes the agreement of
    [progress] with the stage of [workflow_json]. *)
Record optional_facts (strict : bool) (label : string) (c : props) : Prop := {
  of_workflow v : c !! "workflow_json" = Some v → ∃ raw, v = VStr raw ∧ is_ok (decode_state raw) = true;
  of_schema : (c !! "progress_schema" = None ∧ c !! "progress" = None ∧ c !! "progress_record_id" = None)
    ∨ (c !! "progress_schema" = Some (VInt 1) ∧ str_in label TODO_KINDS = true);
  of_progress v : c !! "progress" = Some v → ∃ s, v = VStr s
    ∧ is_ok (validate_progress (Some s) (if strict then c !! "workflow_json" ≫= get_str else None)) = true;
  of_record v : c !! "progress_record_id" = Some v → ∃ r, v = VStr r ∧ _ID_PATTERN r = true;
  of_migration v : c !! "progress_migration_json" = Some v → ∃ m, v = VStr m
    ∧ str_len m <= 65536 ∧ ∃ d, loads m = Some (VDict d)
}.

Record canonical_props (strict : bool) (label node_id : string) (a : bool) (c : props) : Prop := {
  cp_label : str_in label CANONICAL_WORK_KINDS = true;
  cp_id : _ID_PATTERN node_id = true;
  cp_content : content_facts label a c;
  cp_optional : optional_facts strict label c
}.

Lemma id_value v r : validate_work_object_id v = Ok r → v = VStr r ∧ _ID_PATTERN r = true.
Proof. destruct v; try done. intros [-> ?]%require_id_Ok. done. Qed.

Lemma canonical_progress_inv label p names c :
  canonical_progress label p (restrict names p) = Ok c →
  c = restrict ("progress_record_id" :: "progress" :: "progress_schema" :: names) p
  ∧ ((p !! "progress_schema" = None ∧ p !! "progress" = None ∧ p !! "progress_record_id" = None)
     ∨ (p !! "progress_schema" = Some (VInt 1) ∧ str_in label TODO_KINDS = true))
  ∧ (∀ v, p !! "progress" = Some v → ∃ s, v = VStr s
      ∧ is_ok (validate_progress (Some s) (p !! "workflow_json" ≫= get_str)) = true)
  ∧ (∀ v, p !! "progress_record_id" = Some v → ∃ r, v = VStr r ∧ _ID_PATTERN r = true).
Proof.
  unfold canonical_progress. destruct (_ || _) eqn:Eb; intros H1.
  - minv. apply negb_false_iff, andb_true_iff in H1 as [Hl Hs%bool_decide_eq_true].
    rewrite (restrict_insert _ _ _ _ Hs) in *.
    destruct (p !! "progress") as [[| | | |pr| |]|] eqn:Ep; minv; try done; subst.
    + rewrite (restrict_insert _ _ _ _ Ep) in *.
      destruct (p !! "progress_record_id") as [rid|] eqn:Er; minv; subst.
      * rewrite (restrict_insert _ _ _ _ Er) in *.
        match goal with H : validate_work_object_id _ = _ |- _ => apply id_value in H as [-> Hr] end.
        split; [done|]. split; [by right|]. split; [|naive_solver].
        intros v [= <-]. exists pr. split; [done|]. by apply is_ok_spec; eexists.
      * rewrite <-(restrict_none _ _ _ Er). split; [done|]. split; [by right|]. split; [|congruence].
        intros v [= <-]. exists pr. split; [done|]. by apply is_ok_spec; eexists.
    + rewrite (restrict_none ("progress_schema" :: names) _ _ Ep) in *.
      destruct (p !! "progress_record_id") as [rid|] eqn:Er; minv; subst.
      * rewrite (restrict_insert _ _ _ _ Er) in *.
        match goal with H : validate_work_object_id _ = _ |- _ => apply id_value in H as [-> Hr] end.
        split; [done|]. split; [by right|]. split; [congruence|naive_solver].
      * rewrite <-(restrict_none _ _ _ Er). split; [done|]. split; [by right|]. split; congruence.
  - apply orb_false_iff in Eb as [[Ep%bool_decide_eq_false Es%bool_decide_eq_false]%orb_false_iff
      Er%bool_decide_eq_false]. minv. apply eq_None_not_Some in Ep, Es, Er. subst.
    rewrite <-(restrict_none _ _ _ Er), <-(restrict_none _ _ _ Ep), <-(restrict_none _ _ _ Es).
    split; [done|]. split; [by left|]. split; congruence.
Qed.

Lemma canonical_migration_inv p names c : canonical_migration p (restrict names p) = Ok c →
  c = restrict ("progress_migration_json" :: names) p
  ∧ (∀ v, p !! "progress_migration_json" = Some v → ∃ m, v = VStr m
      ∧ str_len m <= 65536 ∧ ∃ d, loads m = Some (VDict d)).
Proof.
  unfold canonical_migration. destruct (p !! "progress_migration_json") as [v|] eqn:E.
  - destruct v as [| | | |m| |]; try done. destruct (65536 <? str_len m) eqn:El; [done|].
    apply Z.ltb_ge in El. destruct (loads m) as [[]|] eqn:Ed; try done. intros. minv. subst.
    rewrite (restrict_insert _ _ _ _ E). split; [done|]. intros ? [= <-]. eauto.
  - intros. minv. subst. rewrite <-(restrict_none _ _ _ E). split; [done|]. congruence.
Qed.

(** The validator returns the known properties and nothing else, and what it
    returns satisfies every constraint. *)
Lemma validate_canonical_inv label node_id p a allow c :
  validate_canonical_work_object_properties label node_id p a allow = Ok c →
  c = restrict KNOWN_PROPERTIES p ∧ names_ok allow p = true ∧ canonical_props true label node_id a c.
Proof.
  unfold validate_canonical_work_object_properties. intros H1. minv.
  bools. match goal with H : require_id _ = _ |- _ => apply require_id_Ok in H as [_ Hid] end.
  fold (restrict CANONICAL_MODEL_PROPERTIES p) in *.
  match goal with H : canonical_progress _ _ ?c = _ |- _ => assert (c = restrict ("workflow_json" :: CANONICAL_MODEL_PROPERTIES) p
    ∧ ∀ v, p !! "workflow_json" = Some v → ∃ raw, v = VStr raw ∧ is_ok (decode_state raw) = true) as [-> Hwf] end.
  { destruct (p !! "workflow_json") as [v|] eqn:Ew; minv; subst.
    - rewrite (restrict_insert _ _ _ _ Ew). split; [done|]. intros ? [= <-].
      destruct v; try done. eexists. split; [done|]. by apply is_ok_spec; eexists.
    - by rewrite <-(restrict_none _ _ _ Ew). }
  match goal with H : canonical_progress _ _ _ = _ |- _ =>
    apply canonical_progress_inv in H as (->&Hs&Hp&Hr) end.
  match goal with H : canonical_migration _ _ = _ |- _ =>
    apply canonical_migration_inv in H as (->&Hm) end.
  subst. split; [done|]. split; [done|].
  constructor; [done|done|by apply canonical_content_facts|].
  change (restrict _ p) with (restrict KNOWN_PROPERTIES p).
  constructor; intros; rewrite !restrict_lookup in * by (by apply str_in_spec); eauto.
Qed.

(** The node properties a rehydrated object was read from. *)
Record reads_from (p : props) (w : WorkObject) : Prop := {
  rf_kind : p !! "kind" = Some (VStr (kind_name (kind w)));
  rf_title : p !! "title" = Some (VStr (title w));
  rf_description : p !! "description" = Some (VStr (description w));
  rf_status : p !! "status" = Some (VStr (status_value (status w)));
  rf_created : canonical_timestamp (p !! "created_at") = Ok (created_at w);
  rf_updated : canonical_timestamp (p !! "updated_at") = Ok (updated_at w);
  rf_version : p !! "version" = Some (VInt (version w));
  rf_priority : p !! "priority" = Some (VInt (priority w));
  rf_artifacts : p !! "artifact_ids" = Some (strs (artifact_ids w));
  rf_links : p !! "external_link_ids" = Some (strs (external_link_ids w));
  rf_workflow : p !! "workflow_json" = VStr <$> workflow_json w;
  rf_progress : p !! "progress" = VStr <$> progress w;
  rf_record : p !! "progress_record_id" = VStr <$> progress_record_id w;
  rf_migration : p !! "progress_migration_json" = VStr <$> progress_migration_json w
}.

Lemma canonical_timestamp_ok o d :
  canonical_timestamp o = Ok d → datetime_ok d = true ∧ aware d = true.
Proof.
  unfold canonical_timestamp. destruct o as [[| | | |t| |]|]; try done.
  destruct (fromisoformat t) as [d'|] eqn:E; [|done]. destruct (aware d') eqn:Ea; [|done].
  intros [= <-]. split; [|done]. unfold fromisoformat in E.
  repeat match goal with H : _ ≫= _ = Some _ |- _ => apply bind_Some in H as (?&?&H) end.
  by case_match; simplify_eq.
Qed.

Lemma todo_post_init_keeps w w' :
  todo_post_init w = Ok w' → workflow_json w ≠ Some "new" → progress w ≠ Some "new" → w' = w.
Proof.
  unfold todo_post_init. intros Hw Hn Hp. do 2 (rewrite decide_False in Hw by done; cbn [mbind res_bind] in Hw).
  minv. subst. by destruct w.
Qed.

Lemma str_value o (P : string → Prop) :
  (∀ v, o = Some v → ∃ s, v = VStr s ∧ P s) → ∀ s, (o ≫= get_str) = Some s → P s.
Proof. intros Ho s Hs%get_str_Some. destruct (Ho _ Hs) as (?&[= <-]&?). done. Qed.

Lemma str_value_eq o (P : string → Prop) :
  (∀ v, o = Some v → ∃ s, v = VStr s ∧ P s) → o = VStr <$> (o ≫= get_str).
Proof. destruct o as [v|]; [|done]. intros Ho. destruct (Ho v eq_refl) as (s&->&_). done. Qed.

(** The object a successful rehydration returns is storable and carries the
    stored values. *)
Lemma work_of_properties_inv `{!PydanticLaws} k i a c w :
  k ∈ work_kinds → canonical_props true (kind_name k) i a c → work_of_properties k i c a = Ok w →
  storable w ∧ reads_from c w ∧ kind w = k ∧ id w = i ∧ archived w = a.
Proof.
  intros Hk [Hl Hid Hc Ho] Hw. unfold work_of_properties in Hw. minv.
  repeat match goal with H : _ ≫= get_str = Some _ |- _ => apply get_str_Some in H end.
  destruct (cf_status _ _ _ Hc) as (st&Est&Ha), (cf_version _ _ _ Hc) as (ver&Ever&?),
    (cf_priority _ _ _ Hc) as (pri&Epri&?), (cf_artifacts _ _ _ Hc) as (al&Eal&?),
    (cf_links _ _ _ Hc) as (ll&Ell&?).
  match goal with H : WorkStatus_of ?s = Ok _, H' : c !! "status" = Some (VStr ?s) |- _ =>
    assert (s = status_value st) as -> by congruence; rewrite WorkStatus_of_value in H end.
  minv. subst. unfold prop in *. rewrite Ever, Epri, Eal, Ell in *.
  cbn [from_option get_int] in *. unfold Datatypes.id in *. cbn [get_int] in *. rewrite !get_strs_strs in *.
  match goal with H : post_init ?x = Ok w |- _ => set (raw := x) in * end.
  assert (storable raw) as Hr.
  { repeat match goal with H : canonical_timestamp _ = Ok _ |- _ =>
      apply canonical_timestamp_ok in H end.
    destruct Ho as [Hwf Hs Hp Hrec Hm]. constructor; simpl; try done.
    - by apply str_value.
    - destruct (c !! "progress") as [v|] eqn:E; [|done]. by destruct (Hp v eq_refl) as (s&->&?).
    - by apply str_value.
    - by apply str_value.
    - intros Ht. destruct Hs as [(Es&->&->)|[_ Ht']].
      + split_and!; [done|done|by apply Ha].
      + unfold is_todo in Ht. congruence. }
  rewrite (post_init_storable raw Hr) in *. minv. subst.
  split; [done|]. split; [|done]. destruct Ho as [Hwf Hs Hp Hrec Hm].
  constructor; simpl; try done; [by apply (cf_kind _ _ _ Hc)|..];
    (eapply str_value_eq; first [exact Hwf|exact Hp|exact Hrec|exact Hm]).
Qed.

Lemma from_node_inv `{!PydanticLaws} n w : _from_node n = Ok w →
  storable w ∧ reads_from (nr_properties n) w ∧ work_key w = nr_key n ∧ archived w = nr_archived n.
Proof.
  unfold _from_node. destruct (nr_properties n !! "kind" ≫= get_str) as [pk|]; [|done].
  destruct (WORK_OBJECT_TYPES pk) as [k|] eqn:Ek; [|done].
  apply WORK_OBJECT_TYPES_Some in Ek as [-> Hk].
  destruct (String.eqb_spec (kind_name k) (nr_label n)) as [El|]; [|done]. intros Hw. minv.
  rewrite <-El in *. match goal with H : validate_canonical_work_object_properties _ _ _ _ _ = _ |- _ =>
    apply validate_canonical_inv in H as (->&_&Hc) end.
  match goal with H : work_of_properties _ _ _ _ = _ |- _ =>
    destruct (work_of_properties_inv _ _ _ _ _ Hk Hc H) as (Hst&Hrf&Hkw&Hi&Ha) end.
  split; [done|]. split; [|unfold work_key, nr_key; by rewrite Hkw, Hi, El].
  destruct Hrf. constructor; rewrite <-(restrict_lookup KNOWN_PROPERTIES) by (by apply str_in_spec); assumption.
Qed.

(** Only the known properties matter to the validator and to rehydration. *)
Lemma restrict_restrict names p : restrict names (restrict names p) = restrict names p.
Proof.
  unfold restrict. apply map_filter_id. by intros k v [_ ?]%map_lookup_filter_Some.
Qed.

Lemma restrict_sub names names' p : names' ⊆ names → restrict names' (restrict names p) = restrict names' p.
Proof.
  intros Hs. apply map_eq. intros k. destruct (decide (k ∈ names')) as [Hk|Hk].
  - rewrite !restrict_lookup by (done || by apply Hs). done.
  - unfold restrict. transitivity (None : option value); [|symmetry];
      apply map_lookup_filter_None; right; simpl; done.
Qed.

Lemma names_ok_restrict p : names_ok true (restrict KNOWN_PROPERTIES p) = names_ok true p.
Proof.
  unfold names_ok. rewrite !andb_true_r.
  change (forallb _ CANONICAL_MODEL_PROPERTIES) with
    (forallb (λ k, bool_decide (is_Some (restrict KNOWN_PROPERTIES p !! k))) CANONICAL_MODEL_PROPERTIES) at 1.
  cbn [forallb CANONICAL_MODEL_PROPERTIES].
  rewrite !restrict_lookup by (by apply str_in_spec). done.
Qed.

Lemma validate_restrict label i p a :
  validate_canonical_work_object_properties label i (restrict KNOWN_PROPERTIES p) a true
  = validate_canonical_work_object_properties label i p a true.
Proof.
  unfold validate_canonical_work_object_properties, canonical_progress, canonical_migration.
  rewrite names_ok_restrict. change (filter _ (restrict KNOWN_PROPERTIES p)) with
    (restrict CANONICAL_MODEL_PROPERTIES (restrict KNOWN_PROPERTIES p)).
  rewrite restrict_sub by (unfold KNOWN_PROPERTIES; set_solver).
  rewrite !restrict_lookup by (by apply str_in_spec). done.
Qed.

Lemma from_node_restrict label i p a :
  _from_node (Node label i (restrict KNOWN_PROPERTIES p) a) = _from_node (Node label i p a).
Proof.
  unfold _from_node. cbn [nr_properties nr_label nr_id nr_archived].
  rewrite restrict_lookup by (by apply str_in_spec). by rewrite validate_restrict.
Qed.

Lemma restrict_tnp w : restrict KNOWN_PROPERTIES (to_node_properties w) = to_node_properties w.
Proof. unfold restrict. props_cases w. Qed.

(** ** Rehydration succeeds on every faithful property map *)

(** The progress schema a map with a work object's values may carry. *)
Definition schema_ok (p : props) (w : WorkObject) : Prop :=
  (p !! "progress_schema" = None ∧ progress w = None ∧ progress_record_id w = None
     ∧ archived w = bool_decide (status w = ARCHIVED))
  ∨ (p !! "progress_schema" = Some (VInt 1) ∧ is_todo (kind w) = true).

Lemma reads_names p w : reads_from p w → names_ok true p = true.
Proof.
  intros []. unfold names_ok. rewrite andb_true_r. cbn [forallb CANONICAL_MODEL_PROPERTIES].
  unfold canonical_timestamp in *.
  destruct (p !! "created_at"), (p !! "updated_at"); try done.
  repeat match goal with H : p !! _ = Some _ |- _ => rewrite H; clear H end. done.
Qed.

Lemma opt_step names p name (w : option string) (c : res props) :
  p !! name = VStr <$> w →
  (∀ x, w = Some x → c = Ok (<[name := VStr x]> (restrict names p))) →
  (w = None → c = Ok (restrict names p)) → c = Ok (restrict (name :: names) p).
Proof.
  intros Hp Hs Hn. destruct w as [x|]; simpl in Hp.
  - rewrite (Hs x) by done. f_equal. by apply restrict_insert.
  - rewrite Hn by done. f_equal. by apply restrict_none.
Qed.

Lemma canonical_progress_reads p w names : storable w → reads_from p w → schema_ok p w →
  canonical_progress (kind_name (kind w)) p (restrict names p)
  = Ok (restrict ("progress_record_id" :: "progress" :: "progress_schema" :: names) p).
Proof.
  intros Hw Hr Hs. pose proof (rf_progress p w Hr) as Hp. pose proof (rf_record p w Hr) as Hrec.
  unfold canonical_progress. rewrite (rf_workflow p w Hr).
  change (str_in _ TODO_KINDS) with (is_todo (kind w)). destruct Hs as [(Hn&Hpw&Hrw&_)|[Hs Ht]].
  - rewrite Hpw in Hp. rewrite Hrw in Hrec. simpl in Hp, Hrec. rewrite Hn, Hp, Hrec. simpl. f_equal.
    by rewrite (restrict_none names p "progress_schema"), (restrict_none _ p "progress"),
      (restrict_none _ p "progress_record_id") by done.
  - rewrite Hs, Ht. rewrite (bool_decide_true (is_Some (Some (VInt 1)))) by done.
    rewrite orb_true_r. cbn [orb]. rewrite bool_decide_true by done. cbn [negb andb raise_if mbind res_bind].
    rewrite (restrict_insert _ _ _ _ Hs). pose proof (st_progress w Hw) as [pv Hpv]%is_ok_spec.
    assert ((VStr <$> workflow_json w) ≫= get_str = workflow_json w) as -> by by destruct (workflow_json w).
    transitivity (c ← Ok (restrict ("progress" :: "progress_schema" :: names) p);
      match p !! "progress_record_id" with
      | Some r => validate_work_object_id r;; Ok (<["progress_record_id" := r]> c)
      | None => Ok c
      end).
    + f_equal. eapply opt_step; [exact Hp| |].
      * intros x Hx. rewrite Hp. rewrite Hx in *. cbn [fmap option_fmap option_map]. by rewrite Hpv.
      * intros Hx. rewrite Hp. by rewrite Hx.
    + cbn [mbind res_bind]. eapply opt_step; [exact Hrec| |].
      * intros x Hx. rewrite Hrec, Hx. cbn [fmap option_fmap option_map validate_work_object_id].
        unfold require_id. by rewrite (st_record w Hw x Hx).
      * intros Hx. by rewrite Hrec, Hx.
Qed.

Lemma content_reads p w a : storable w → reads_from p w → schema_ok p w →
  (p !! "progress_schema" = None → a = archived w) →
  canonical_content (kind_name (kind w)) a (restrict KNOWN_PROPERTIES p) = Ok tt.
Proof.
  intros Hw [Hk Ht Hd Hst Hc Hu Hv Hp Ha Hl _ _ _ _] Hs Haw. unfold canonical_content, prop.
  rewrite !restrict_lookup by (by apply str_in_spec). rewrite Hk, Ht, Hd, Hst, Hc, Hu, Hv, Hp, Ha, Hl.
  cbn [mbind option_bind get_str from_option].
  rewrite (bool_decide_true (Some (VStr (kind_name (kind w))) = _)), !(bool_decide_true (is_Some (Some _))) by done.
  rewrite status_value_canonical, status_archived. cbn [negb andb raise_if mbind res_bind from_option].
  unfold Datatypes.id. cbn [validate_version validate_priority].
  rewrite (proj2 (require_version_Ok _ (version w))) by (split; [done|by apply st_version]).
  rewrite (proj2 (require_priority_Ok _ (priority w))) by (split; [done|by apply st_priority]).
  rewrite !validate_strs by (by apply st_artifacts || by apply st_links). cbn [mbind res_bind].
  destruct Hs as [(Hn&_&_&Hars)|[Hs _]]; [|by rewrite Hs].
  rewrite (Haw Hn), Hn, <-Hars, eqb_reflx. done.
Qed.

Lemma validate_reads p w a : storable w → reads_from p w → schema_ok p w →
  (p !! "progress_schema" = None → a = archived w) →
  validate_canonical_work_object_properties (kind_name (kind w)) (id w) p a true
  = Ok (restrict KNOWN_PROPERTIES p).
Proof.
  intros Hw Hr Hs Ha. unfold validate_canonical_work_object_properties.
  rewrite work_kind_canonical by by apply st_kind. cbn [negb raise_if mbind res_bind].
  rewrite (proj2 (require_id_Ok _ (id w))) by (split; [done|by apply st_id]). cbn [mbind res_bind].
  rewrite (reads_names p w) by done. cbn [negb raise_if mbind res_bind].
  change (filter _ p) with (restrict CANONICAL_MODEL_PROPERTIES p).
  transitivity (c ← Ok (restrict ("workflow_json" :: CANONICAL_MODEL_PROPERTIES) p);
    c ← canonical_progress (kind_name (kind w)) p c; c ← canonical_migration p c;
    canonical_content (kind_name (kind w)) a c;; Ok c).
  { f_equal. pose proof (rf_workflow p w Hr) as Hwf. eapply opt_step; [exact Hwf| |].
    - intros x Hx. rewrite Hwf, Hx. cbn [fmap option_fmap option_map decode_state_value].
      pose proof (st_workflow w Hw x Hx) as [st ->]%is_ok_spec. done.
    - intros Hx. by rewrite Hwf, Hx. }
  cbn [mbind res_bind]. rewrite canonical_progress_reads by done. cbn [mbind res_bind].
  transitivity (c ← Ok (restrict KNOWN_PROPERTIES p); canonical_content (kind_name (kind w)) a c;; Ok c).
  { f_equal. unfold canonical_migration. pose proof (rf_migration p w Hr) as Hm. eapply opt_step; [exact Hm| |].
    - intros x Hx. rewrite Hm, Hx. cbn [fmap option_fmap option_map].
      destruct (st_migration w Hw x Hx) as [Hl [d Hd]]. rewrite (proj2 (Z.ltb_ge _ _)) by done. by rewrite Hd.
    - intros Hx. by rewrite Hm, Hx. }
  cbn [mbind res_bind]. by rewrite content_reads.
Qed.

(** A node that carries a storable object's values rehydrates to it. *)
Lemma from_node_reads `{!PydanticLaws} p w : storable w → reads_from p w → schema_ok p w →
  _from_node (Node (kind_name (kind w)) (id w) p (archived w)) = Ok w.
Proof.
  intros Hw Hr Hs. unfold _from_node. cbn [nr_properties nr_label nr_id nr_archived].
  rewrite (rf_kind p w Hr). cbn [mbind option_bind get_str].
  rewrite WORK_OBJECT_TYPES_name by by apply st_kind. rewrite String.eqb_refl.
  rewrite validate_reads by done. cbn [mbind res_bind]. apply rethrow_Ok.
  destruct Hr. unfold work_of_properties, prop.
  rewrite !restrict_lookup by (by apply str_in_spec).
  repeat match goal with H : p !! _ = Some _ |- _ => rewrite H; clear H end.
  cbn [mbind option_bind get_str of_option res_bind from_option]. rewrite WorkStatus_of_value.
  repeat match goal with H : canonical_timestamp _ = _ |- _ => rewrite H; clear H end.
  cbn [mbind res_bind]. unfold Datatypes.id. cbn [get_int]. rewrite !get_strs_strs.
  assert (∀ o : option string, (VStr <$> o) ≫= get_str = o) as Ho by by intros [].
  repeat match goal with H : p !! _ = VStr <$> _ |- _ => rewrite H; clear H end. rewrite !Ho.
  transitivity (post_init w); [f_equal; by destruct w|by apply post_init_storable].
Qed.

Lemma tnp_reads w : storable w → printable w → reads_from (to_node_properties w) w.
Proof.
  intros Hw Hm. destruct (st_created w Hw), (st_updated w Hw). constructor; [by apply tnp_base..| | | | | | | | | | ].
  - rewrite (tnp_base w "created_at" (VStr (isoformat (created_at w)))) by done.
    by apply canonical_timestamp_iso.
  - rewrite (tnp_base w "updated_at" (VStr (isoformat (updated_at w)))) by done.
    by apply canonical_timestamp_iso.
  - by apply tnp_base.
  - by apply tnp_base.
  - by apply tnp_base.
  - by apply tnp_base.
  - apply tnp_workflow.
  - rewrite tnp_progress. destruct (is_todo (kind w)) eqn:E; [done|]. by destruct (st_plain w Hw E) as (->&_).
  - rewrite tnp_record. destruct (is_todo (kind w)) eqn:E; [done|]. by destruct (st_plain w Hw E) as (_&->&_).
  - rewrite tnp_migration. destruct (is_todo (kind w)) eqn:E; [done|]. by rewrite Hm.
Qed.

Lemma tnp_schema_ok w : storable w → schema_ok (to_node_properties w) w.
Proof.
  intros Hw. unfold schema_ok. rewrite tnp_schema. destruct (is_todo (kind w)) eqn:E; [by right|].
  destruct (st_plain w Hw E) as (?&?&?). by left.
Qed.

(** Printing a storable object and reading it back is the identity. *)
Lemma from_node_tnp `{!PydanticLaws} w : storable w → printable w →
  _from_node (Node (kind_name (kind w)) (id w) (to_node_properties w) (archived w)) = Ok w.
Proof. intros. apply from_node_reads; auto using tnp_reads, tnp_schema_ok. Qed.

(** Changes that keep an object storable. *)
Lemma storable_touch now w : storable w → datetime_ok now = true → aware now = true →
  version w < SIGNED_64_MAX → storable (touch now w).
Proof. intros [] ???. constructor; simpl; try done; lia. Qed.

Lemma storable_content t d a e pr w : storable w →
  Forall (λ s, _ID_PATTERN s = true) a → Forall (λ s, _ID_PATTERN s = true) e →
  SIGNED_64_MIN <= pr <= SIGNED_64_MAX → storable (set_content t d a e pr w).
Proof. intros [] ???. by constructor. Qed.

Lemma storable_status st b w : storable w →
  (is_todo (kind w) = false → b = bool_decide (st = ARCHIVED)) → storable (set_archived b (set_status st w)).
Proof.
  intros [] Hb. constructor; simpl; try done. intros Ht. destruct (st_plain0 Ht) as (?&?&?). auto.
Qed.

Lemma storable_archived b w : storable w → is_todo (kind w) = true → storable (set_archived b w).
Proof. intros [] Hb. constructor; simpl; try done. congruence. Qed.

End model_lemmas.
