(* ===== verification/Redaction.v ===== *)
(** * Redaction and export

    [src/devgraph/policy/redaction.py] and [src/devgraph/policy/export.py].  The two
    value patterns and the key pattern are written out as matchers over the text
    that remains; [sub] is [re.sub] for one of them.  Redaction is idempotent, and a
    redacted export shows no private record, reference or sensitive value. *)

From stdpp Require Import base gmap strings list sorting.
From Stdlib Require Import ZArith Ascii String.
From S2P Require Import Prelude Json Datetime Validation WorkflowContract Model.

(** ** Patterns *)

Definition REDACTED_PLACEHOLDER : string := "[REDACTED]".

(** [\w] on code points below 256: letters, digits, the underscore and the
    numeric signs. *)
Definition is_word (c : ascii) : bool :=
  is_alnum c || Ascii.eqb c "_" || (code c =? 170)%N || (code c =? 181)%N || (code c =? 186)%N
  || (code c =? 178)%N || (code c =? 179)%N || (code c =? 185)%N || in_range 188 190 c
  || (in_range 192 255 c && negb (code c =? 215)%N && negb (code c =? 247)%N).

Definition lower (c : ascii) : ascii := if is_upper c then ascii_of_N (code c + 32) else c.

(** A lower-case literal under [IGNORECASE]. *)
Fixpoint strip_ci (pre s : string) : option string :=
  match pre, s with
  | EmptyString, _ => Some s
  | String a pre', String b s' => if Ascii.eqb a (lower b) then strip_ci pre' s' else None
  | _, EmptyString => None
  end.

(** An optional character of a class. *)
Definition skip_opt (p : ascii → bool) (s : string) : string :=
  match s with String c s' => if p c then s' else s | EmptyString => s end.

Definition drop_while (p : ascii → bool) (s : string) : string := (span p s).2.

(** [p+]: what follows a longest run that is not empty. *)
Definition some_of (p : ascii → bool) (s : string) : option string :=
  match s with String c s' => if p c then Some (drop_while p s') else None | EmptyString => None end.

Definition dash (c : ascii) : bool := Ascii.eqb c "_" || Ascii.eqb c "-".

(** The characters of a bearer token: [[A-Za-z0-9._~+/=-]]. *)
Definition token_char (c : ascii) : bool :=
  is_alnum c || has_char c "._~+/=-".

(** [Bearer\s+[A-Za-z0-9._~+/=-]+]: the text after the match. *)
Definition match_bearer (previous : option ascii) (s : string) : option string :=
  r ← strip_prefix "Bearer" s; r ← some_of is_space r; some_of token_char r.

(** The keywords, each as the text after it. *)
Definition value_keywords : list (string → option string) :=
  map strip_ci ["secret"; "token"; "credential"; "password"; "passphrase"; "macaroon"]
  ++ [λ s, r ← strip_ci "api" s; strip_ci "key" (skip_opt dash r)].

(** [s?\s*[:=]\s*\S+] after a keyword. *)
Definition assignment (s : string) : option string :=
  match drop_while is_space (skip_opt (λ c, Ascii.eqb (lower c) "s") s) with
  | String c r =>
      if Ascii.eqb c ":" || Ascii.eqb c "=" then some_of (λ c, negb (is_space c)) (drop_while is_space r) else None
  | EmptyString => None
  end.

Fixpoint first_match (ms : list (string → option string)) (s : string) : option string :=
  match ms with
  | [] => None
  | m :: ms' => match m s with Some r => Some r | None => first_match ms' s end
  end.

(** [\b] before a keyword: the character before is not a word character. *)
Definition boundary (previous : option ascii) : bool :=
  match previous with Some c => negb (is_word c) | None => true end.

Definition match_assignment (previous : option ascii) (s : string) : option string :=
  if boundary previous then first_match (map (λ k s, r ← k s; assignment r) value_keywords) s else None.

Section sub.
  Context (m : option ascii → string → option string).

(** [pattern.sub(REDACTED_PLACEHOLDER, s)]: [skip] characters of [s] belong to the
    match just replaced. *)
Fixpoint sub (previous : option ascii) (skip : nat) (s : string) : string :=
  match s with
  | EmptyString => ""
  | String c s' =>
      match skip with
      | S n => sub (Some c) n s'
      | O =>
          match m previous s with
          | Some rest => REDACTED_PLACEHOLDER +:+ sub (Some c) (String.length s' - String.length rest) s'
          | None => String c (sub (Some c) 0 s')
          end
      end
  end.

End sub.

Definition redact_text (s : string) : string := sub match_assignment None 0 (sub match_bearer None 0 s).

(** ** Keys *)

(** [$]: the end, or a last line break. *)
Definition at_end (s : string) : bool := String.eqb s "" || String.eqb s (String (ascii_of_N 10) "").

Definition key_keywords : list (string → option string) :=
  map strip_ci ["credential"; "secret"; "password"; "passphrase"; "macaroon"; "authorization"; "cookie"]
  ++ [λ s, r ← strip_ci "api" s; strip_ci "key" (skip_opt dash r); strip_ci "bearer";
      λ s, r ← strip_ci "private" s; strip_ci "key" (skip_opt dash r)].

Definition ends_segment (s : string) : bool :=
  at_end s || match s with String c _ => dash c | EmptyString => false end.

(** The pattern at the start of a segment. *)
Definition sensitive_segment (s : string) : bool :=
  existsb (λ k, match k s with
                | Some r => ends_segment (skip_opt (λ c, Ascii.eqb (lower c) "s") r) || ends_segment r
                | None => false
                end) key_keywords
  || match strip_ci "token" s with Some r => at_end r | None => false end.

Fixpoint sensitive_after (s : string) : bool :=
  match s with
  | EmptyString => false
  | String c s' => (dash c && sensitive_segment s') || sensitive_after s'
  end.

Definition _is_sensitive_key (key : string) : bool := sensitive_segment key || sensitive_after key.

(** ** Payloads *)

Fixpoint _redact_value (v : value) : value :=
  match v with
  | VStr s => VStr (redact_text s)
  | VDict d => VDict (map (λ kv, (kv.1, if _is_sensitive_key kv.1 then VStr REDACTED_PLACEHOLDER else _redact_value kv.2)) d)
  | VList l => VList (map _redact_value l)
  | _ => v
  end.

Definition redact_mapping (d : list (string * value)) : list (string * value) :=
  map (λ kv, (kv.1, if _is_sensitive_key kv.1 then VStr REDACTED_PLACEHOLDER else _redact_value kv.2)) d.

Definition redact_event (d : list (string * value)) : list (string * value) := redact_mapping d.

(** ** Export *)

Inductive ExportMode : Type := INTERNAL | REDACTED | DENIED | PUBLIC_SAFE_SUMMARY.

Definition mode_value (m : ExportMode) : string :=
  match m with
  | INTERNAL => "internal" | REDACTED => "redacted" | DENIED => "denied"
  | PUBLIC_SAFE_SUMMARY => "public_safe_summary"
  end.

Inductive PrivateResourceCategory : Type :=
  | PRIVATE_PROPOSAL | REVIEW_EVIDENCE | ARTIFACT_PAYLOAD | PRIVATE_EXTERNAL_LINK
  | ACTOR_SESSION_METADATA | RAW_IMPORTED_PAYLOAD | AUTH_ENVELOPE_METADATA.

(** The records that are exported: plain work objects, artifacts and links. *)
Inductive exported : Type :=
  | work_record (w : WorkObject)
  | artifact_record (a : Artifact)
  | link_record (l : ExternalLink).

Definition record_work (r : exported) : WorkObject :=
  match r with work_record w => w | artifact_record a => ar_work a | link_record l => el_work l end.

Definition classify_private_category (r : exported) : option PrivateResourceCategory :=
  match r with
  | work_record w =>
      match kind w with
      | KProposal => Some PRIVATE_PROPOSAL
      | KReviewPacket | KDecision => Some REVIEW_EVIDENCE
      | _ => None
      end
  | artifact_record a =>
      match ar_role a with
      | REVIEW_PACKET | EVIDENCE => Some REVIEW_EVIDENCE
      | _ => Some ARTIFACT_PAYLOAD
      end
  | link_record _ => Some PRIVATE_EXTERNAL_LINK
  end.

Definition is_private_for_export (r : exported) : bool :=
  match classify_private_category r with Some _ => true | None => false end.

Section export.
  Context `{Pydantic}.

Definition record_properties (r : exported) : props :=
  match r with
  | work_record w => to_node_properties w
  | artifact_record a => artifact_properties a
  | link_record l => link_properties l
  end.

Definition _record_payload (r : exported) : list (string * value) :=
  mk_dict (("id", VStr (id (record_work r))) :: map_to_list (record_properties r)).

Definition _PRIVATE_REFERENCE_FIELDS : list string := ["artifact_ids"; "external_link_ids"].

Definition _strip_private_reference_ids (d : list (string * value)) : list (string * value) :=
  map (λ kv, if str_in kv.1 _PRIVATE_REFERENCE_FIELDS then (kv.1, VList []) else kv) d.

Definition redacted_payload (r : exported) : list (string * value) :=
  _strip_private_reference_ids (redact_mapping (_record_payload r)).

(** [by_kind[kind] = by_kind.get(kind, 0) + 1] over the records. *)
Definition count_by_kind (rs : list exported) : list (string * Z) :=
  foldl (λ d r, let k := kind_name (kind (record_work r)) in dict_insert k (default 0%Z (dict_get k d) + 1)%Z d) [] rs.

Definition export_records (rs : list exported) (m : ExportMode) : res (list (string * value)) :=
  let mode := ("mode", VStr (mode_value m)) in
  match m with
  | INTERNAL => Ok [mode; ("records", VList (map (λ r, VDict (_record_payload r)) rs))]
  | REDACTED =>
      let included := map (λ r, VDict (redacted_payload r)) (filter (λ r, is_private_for_export r = false) rs) in
      Ok [mode; ("records", VList included);
          ("omitted_private", VInt (Z.of_nat (length rs) - Z.of_nat (length included)))]
  | PUBLIC_SAFE_SUMMARY =>
      Ok [mode; ("total", VInt (Z.of_nat (length rs)));
          ("by_kind", VDict (map (λ kv, (kv.1, VInt kv.2)) (count_by_kind rs)));
          ("private_records", VInt (Z.of_nat (length (filter (λ r, is_private_for_export r = true) rs))))]
  | DENIED => Err (ValueError "not a filtering mode")
  end.

Definition denied_export (correlation_id : option string) : list (string * value) :=
  [("mode", VStr (mode_value DENIED)); ("records", VList []); ("reason", VStr "export scope not granted");
   ("correlation_id", match correlation_id with Some c => VStr c | None => VNone end)].

End export.

(** ** Substitution is idempotent *)

Definition bracket : ascii := "["%char.

Section sub_lemmas.
  Context (m : option ascii → string → option string).

(** A character of the output other than the bracket comes from the input. *)
Lemma sub_raw p s c t : sub m p 0 s = String c t → c ≠ bracket →
  ∃ s', s = String c s' ∧ t = sub m (Some c) 0 s' ∧ m p s = None.
Proof.
  destruct s as [|d s']; simpl; [done|]. destruct (m p (String d s')) eqn:E.
  - intros [= <- _]. done.
  - intros [= <- <-]. eauto.
Qed.

Lemma sub_bracket p s t : sub m p 0 s = String bracket t → (∃ s', s = String bracket s') ∨ is_Some (m p s).
Proof.
  destruct s as [|d s']; simpl; [done|]. destruct (m p (String d s')) eqn:E; [eauto|]. intros [= -> _]. eauto.
Qed.

Lemma strip_prefix_sub pre p s r :
  str_forall (λ c, negb (Ascii.eqb c bracket)) pre = true → strip_prefix pre (sub m p 0 s) = Some r →
  ∃ p' s', strip_prefix pre s = Some s' ∧ r = sub m p' 0 s'.
Proof.
  revert p s. induction pre as [|c pre IH]; intros p s; simpl.
  - intros _ [= <-]. eauto.
  - intros [Hc Hpre]%andb_prop. destruct (sub m p 0 s) as [|d t] eqn:E; [done|].
    destruct (Ascii.eqb_spec c d) as [->|]; [|done]. intros Hr.
    apply sub_raw in E as (s' & -> & -> & _).
    + rewrite Ascii.eqb_refl. eauto.
    + intros ->. by apply negb_true_iff in Hc.
Qed.

Lemma strip_ci_sub pre p s r :
  str_forall (λ c, negb (Ascii.eqb c bracket)) pre = true → strip_ci pre (sub m p 0 s) = Some r →
  ∃ p' s', strip_ci pre s = Some s' ∧ r = sub m p' 0 s'.
Proof.
  revert p s. induction pre as [|c pre IH]; intros p s; simpl.
  - intros _ [= <-]. eauto.
  - intros [Hc Hpre]%andb_prop. destruct (sub m p 0 s) as [|d t] eqn:E; [done|].
    destruct (Ascii.eqb_spec c (lower d)) as [->|]; [|done]. intros Hr.
    apply sub_raw in E as (s' & -> & -> & _).
    + rewrite Ascii.eqb_refl. eauto.
    + intros ->. by apply negb_true_iff in Hc.
Qed.

Lemma drop_while_cons q c s : drop_while q (String c s) = if q c then drop_while q s else String c s.
Proof. unfold drop_while. simpl. by destruct (q c). Qed.

(** The head of an output: nothing, a bracket, or a character of the input. *)
Ltac sub_head E :=
  match type of E with
  | sub _ _ 0 _ = ?o =>
      destruct o as [|?c ?t]; [|destruct (Ascii.eqb_spec c bracket) as [->|?];
        [|apply sub_raw in E as (?s' & -> & -> & ?); [|done]]]
  end.

Lemma bearer_sub p s r q q' : match_bearer q (sub m p 0 s) = Some r → is_Some (match_bearer q' s).
Proof.
  unfold match_bearer. intros (r1 & H1 & H2)%bind_Some. apply bind_Some in H2 as (r2 & H2 & H3).
  apply strip_prefix_sub in H1 as (p1 & s1 & -> & ->); [|done]. simpl.
  destruct (sub m p1 0 s1) as [|c t] eqn:E; [done|]. simpl in H2. destruct (is_space c) eqn:Hc; [|done].
  injection H2 as <-. apply sub_raw in E as (s2 & -> & -> & _); [|by intros ->]. simpl. rewrite Hc. simpl.
  enough (∀ s p, is_Some (some_of token_char (drop_while is_space (sub m p 0 s))) →
    is_Some (some_of token_char (drop_while is_space s))) as Hw by (eapply Hw; eauto).
  clear. induction s as [|d s IH]; intros p Hr; [done|].
  destruct (sub m p 0 (String d s)) as [|c t] eqn:E; [by destruct Hr|]. rewrite drop_while_cons in Hr |- *.
  destruct (Ascii.eqb_spec c bracket) as [->|Hne]; [by destruct Hr|].
  apply sub_raw in E as (s' & [= -> ->] & -> & _); [|done]. destruct (is_space c); [eauto|].
  simpl in *. destruct (token_char c); [done|by destruct Hr].
Qed.

Context (Hhead : ∀ p s, is_Some (m p s) → ∃ c s', s = String c s' ∧ is_space c = false).

Lemma value_sub p s :
  is_Some (some_of (λ c, negb (is_space c)) (drop_while is_space (sub m p 0 s))) →
  is_Some (some_of (λ c, negb (is_space c)) (drop_while is_space s)).
Proof.
  assert (∀ c s, is_space c = false → is_Some (some_of (λ c, negb (is_space c)) (drop_while is_space (String c s)))) as Hok.
  { intros c s0 Hc. rewrite drop_while_cons, Hc. simpl. by rewrite Hc. }
  revert p. induction s as [|d s IH]; intros p Hr; [done|].
  destruct (sub m p 0 (String d s)) as [|c t] eqn:E; [by destruct Hr|].
  destruct (Ascii.eqb_spec c bracket) as [->|Hne].
  - apply sub_bracket in E as [(s' & [= -> ->])|(c & s' & -> & Hc)%Hhead]; by apply Hok.
  - apply sub_raw in E as (s' & [= -> ->] & -> & _); [|done]. rewrite drop_while_cons in Hr |- *.
    destruct (is_space c) eqn:Hc; [eauto|]. simpl in *. by rewrite Hc in *.
Qed.

Lemma assignment_sub p s : is_Some (assignment (sub m p 0 s)) → is_Some (assignment s).
Proof.
  set (colon r := match drop_while is_space r with
    | String c r => if Ascii.eqb c ":" || Ascii.eqb c "="
                    then some_of (λ c, negb (is_space c)) (drop_while is_space r) else None
    | EmptyString => None end).
  assert (∀ s p, is_Some (colon (sub m p 0 s)) → is_Some (colon s)) as Hcolon.
  { clear p s. induction s as [|d s IH]; intros p Hr; [done|].
    destruct (sub m p 0 (String d s)) as [|c t] eqn:E; [by destruct Hr|].
    destruct (Ascii.eqb_spec c bracket) as [->|Hne]; [by destruct Hr|].
    apply sub_raw in E as (s' & [= -> ->] & -> & _); [|done]. unfold colon in *. rewrite drop_while_cons in Hr |- *.
    destruct (is_space c) eqn:Hc; [eauto|]. destruct (_ || _); [by eapply value_sub|by destruct Hr]. }
  intros Hr. change (is_Some (colon (skip_opt (λ c, Ascii.eqb (lower c) "s") s))).
  change (is_Some (colon (skip_opt (λ c, Ascii.eqb (lower c) "s") (sub m p 0 s)))) in Hr.
  destruct (sub m p 0 s) as [|c t] eqn:E; [by destruct Hr|].
  destruct (Ascii.eqb_spec c bracket) as [->|Hne]; [by destruct Hr|]. pose proof E as E'.
  apply sub_raw in E as (s' & -> & -> & _); [|done]. simpl in Hr |- *. destruct (Ascii.eqb (lower c) "s"); [eauto|].
  eapply (Hcolon (String c s') p). by rewrite E'.
Qed.

Lemma keyword_sub k p s r : k ∈ value_keywords → k (sub m p 0 s) = Some r → ∃ p' s', k s = Some s' ∧ r = sub m p' 0 s'.
Proof.
  unfold value_keywords. intros Hk. apply elem_of_app in Hk as [Hk|Hk].
  - apply list_elem_of_fmap in Hk as (kw & -> & Hk). apply strip_ci_sub.
    revert kw Hk. apply Forall_forall. by repeat constructor.
  - apply list_elem_of_singleton in Hk as ->. intros (r1 & H1 & H2)%bind_Some.
    apply strip_ci_sub in H1 as (p1 & s1 & -> & ->); [|done]. cbn [mbind option_bind].
    destruct (sub m p1 0 s1) as [|c t] eqn:E; [done|].
    destruct (Ascii.eqb_spec c bracket) as [->|Hne]; [done|]. pose proof E as E'.
    apply sub_raw in E as (s2 & -> & -> & _); [|done]. cbn [skip_opt] in H2 |- *. destruct (dash c).
    + by apply strip_ci_sub in H2.
    + apply (strip_ci_sub "key" p1 (String c s2) r); [done|]. by rewrite E'.
Qed.

End sub_lemmas.

Definition suffix_of (r s : string) : Prop := ∃ u, s = u +:+ r.

Lemma suffix_refl s : suffix_of s s.
Proof. by exists "". Qed.

Lemma suffix_cons c r s : suffix_of r s → suffix_of r (String c s).
Proof. intros [u ->]. by exists (String c u). Qed.

Lemma suffix_trans r s t : suffix_of r s → suffix_of s t → suffix_of r t.
Proof. intros [u ->] [v ->]. exists (v +:+ u). by rewrite str_app_assoc. Qed.

Lemma drop_while_suffix q s : suffix_of (drop_while q s) s.
Proof.
  induction s as [|c s IH]; [apply suffix_refl|]. rewrite drop_while_cons.
  destruct (q c); [by apply suffix_cons|apply suffix_refl].
Qed.

Lemma some_of_suffix q s r : some_of q s = Some r → suffix_of r s.
Proof.
  destruct s as [|c s]; simpl; [done|]. destruct (q c); [|done]. intros [= <-]. apply suffix_cons, drop_while_suffix.
Qed.

Lemma skip_opt_suffix q s : suffix_of (skip_opt q s) s.
Proof. destruct s as [|c s]; [apply suffix_refl|]. simpl. destruct (q c); [apply suffix_cons|]; apply suffix_refl. Qed.

Lemma strip_ci_suffix pre s r : strip_ci pre s = Some r → suffix_of r s.
Proof.
  revert s. induction pre as [|a pre IH]; intros s; simpl; [intros [= ->]; apply suffix_refl|].
  destruct s as [|b s]; [done|]. destruct (Ascii.eqb a (lower b)); [|done]. intros. by apply suffix_cons, IH.
Qed.

(** A match of a keyword starts at a character that is not a space. *)
Lemma strip_ci_head a pre s r : is_space a = false → strip_ci (String a pre) s = Some r →
  ∃ c s', s = String c s' ∧ is_space c = false ∧ suffix_of r s'.
Proof.
  intros Ha. destruct s as [|c s]; simpl; [done|]. destruct (Ascii.eqb_spec a (lower c)) as [->|]; [|done].
  intros Hr%strip_ci_suffix. exists c, s. split_and!; [done| |done]. clear -Ha.
  by destruct c as [[] [] [] [] [] [] [] []].
Qed.

Lemma keyword_head k s r : k ∈ value_keywords → k s = Some r → ∃ c s', s = String c s' ∧ is_space c = false ∧ suffix_of r s'.
Proof.
  unfold value_keywords. intros Hk. apply elem_of_app in Hk as [Hk|Hk].
  - apply list_elem_of_fmap in Hk as (kw & -> & Hk).
    repeat (apply elem_of_cons in Hk as [->|Hk]; [by apply strip_ci_head|]). by apply not_elem_of_nil in Hk.
  - apply list_elem_of_singleton in Hk as ->. intros (r1 & H1 & H2)%bind_Some.
    apply strip_ci_head in H1 as (c & s' & -> & Hc & H1); [|done]. exists c, s'. split_and!; [done|done|].
    eapply suffix_trans; [by eapply strip_ci_suffix|]. eapply suffix_trans; [apply skip_opt_suffix|done].
Qed.

Lemma first_match_Some ms s r : first_match ms s = Some r → ∃ k, k ∈ ms ∧ k s = Some r.
Proof.
  induction ms as [|k ms IH]; simpl; [done|]. destruct (k s) eqn:E.
  - intros [= ->]. exists k. split; [by left|done].
  - intros (k' & ? & ?)%IH. exists k'. split; [by right|done].
Qed.

Lemma first_match_is_Some ms k s : k ∈ ms → is_Some (k s) → is_Some (first_match ms s).
Proof.
  induction 1 as [k ms|k k' ms Hk IH]; simpl; intros Hs.
  - destruct Hs as [r ->]. done.
  - destruct (k' s); [done|auto].
Qed.

(** Nothing, or a space. *)
Definition ends (s : string) : Prop := match s with EmptyString => True | String c _ => is_space c = true end.

Lemma drop_while_ends q s : (∀ c, q c = false → is_space c = true) → ends (drop_while q s).
Proof. intros Hq. induction s as [|c s IH]; [done|]. rewrite drop_while_cons. destruct (q c) eqn:E; [done|]. by apply Hq. Qed.

Lemma assignment_rest s r : assignment s = Some r → ends r ∧ suffix_of r s.
Proof.
  unfold assignment. intros H.
  pose proof (suffix_trans _ _ _ (drop_while_suffix is_space _) (skip_opt_suffix (λ c, Ascii.eqb (lower c) "s") s)) as Hs.
  destruct (drop_while is_space _) as [|c t]; [done|]. destruct (_ || _); [|done].
  pose proof (some_of_suffix _ _ _ H) as H2. split.
  - destruct (drop_while is_space t) as [|d u]; [done|]. simpl in H. destruct (negb (is_space d)); [|done].
    injection H as <-. apply drop_while_ends. intros x. apply negb_false_iff.
  - eapply suffix_trans; [exact H2|]. eapply suffix_trans; [apply drop_while_suffix|].
    eapply suffix_trans; [apply suffix_cons, suffix_refl|exact Hs].
Qed.

Lemma match_assignment_Some p s r : match_assignment p s = Some r →
  boundary p = true ∧ ends r ∧ ∃ c s', s = String c s' ∧ is_space c = false ∧ suffix_of r s'.
Proof.
  unfold match_assignment. destruct (boundary p); [|done]. intros (k & Hk & H)%first_match_Some.
  apply list_elem_of_fmap in Hk as (kw & -> & Hk). apply bind_Some in H as (r1 & H1 & H2).
  destruct (keyword_head _ _ _ Hk H1) as (c & s' & -> & Hc & Hs). apply assignment_rest in H2 as [He H2].
  split; [done|]. split; [done|]. exists c, s'. split_and!; [done|done|]. by eapply suffix_trans.
Qed.

Lemma match_assignment_head p s : is_Some (match_assignment p s) → ∃ c s', s = String c s' ∧ is_space c = false.
Proof. intros [r (_ & _ & c & s' & ? & ? & _)%match_assignment_Some]. eauto. Qed.

(** A match in the output of the substitution is one in its input. *)
Lemma match_assignment_sub p q s : is_Some (match_assignment q (sub match_assignment p 0 s)) → is_Some (match_assignment q s).
Proof.
  intros [r H]. unfold match_assignment in H |- *. fold match_assignment in H |- *. destruct (boundary q); [|done].
  apply first_match_Some in H as (k & Hk & H). apply list_elem_of_fmap in Hk as (kw & -> & Hk).
  apply bind_Some in H as (r1 & H1 & H2).
  apply (keyword_sub match_assignment) in H1 as (p' & s' & Hs & ->); [|done].
  eapply first_match_is_Some; [apply list_elem_of_fmap; exists kw; split; [done|exact Hk]|]. simpl. rewrite Hs. simpl.
  eapply (assignment_sub match_assignment); [exact match_assignment_head|]. eauto.
Qed.

Lemma sub_skip m p u r : ∃ p', sub m p (String.length u) (u +:+ r) = sub m p' 0 r.
Proof. revert p. induction u as [|c u IH]; intros p; simpl; [eauto|]. apply IH. Qed.

Lemma sub_match m p c s r : m p (String c s) = Some r → suffix_of r s →
  ∃ p', sub m p 0 (String c s) = REDACTED_PLACEHOLDER +:+ sub m p' 0 r.
Proof.
  intros Hm [u ->]. cbn [sub]. rewrite Hm, str_length_app, Nat.add_sub.
  destruct (sub_skip m (Some c) u r) as [p' ->]. eauto.
Qed.

Lemma assignment_placeholder q t :
  sub match_assignment q 0 (REDACTED_PLACEHOLDER +:+ t) = REDACTED_PLACEHOLDER +:+ sub match_assignment (Some "]"%char) 0 t.
Proof. destruct q as [c|]; [|reflexivity]. cbn. unfold match_assignment at 1, boundary. by destruct (is_word c). Qed.

Lemma bearer_placeholder q t :
  sub match_bearer q 0 (REDACTED_PLACEHOLDER +:+ t) = REDACTED_PLACEHOLDER +:+ sub match_bearer (Some "]"%char) 0 t.
Proof. reflexivity. Qed.

Lemma assignments_gone p q s : boundary q = boundary p ∨ ends s →
  sub match_assignment q 0 (sub match_assignment p 0 s) = sub match_assignment p 0 s.
Proof.
  remember (String.length s) as n eqn:Hn. revert p q s Hn. induction (lt_wf n) as [n _ IH]. intros p q s -> Hq.
  destruct s as [|c s]; [done|]. destruct (match_assignment p (String c s)) as [r|] eqn:E.
  - destruct (match_assignment_Some _ _ _ E) as (_ & He & c' & s' & [= <- <-] & _ & Hs).
    destruct (sub_match _ _ _ _ _ E Hs) as [p' ->]. rewrite assignment_placeholder. f_equal.
    destruct Hs as [u ->]. eapply IH; [|done|by right]. simpl. rewrite str_length_app. lia.
  - assert (match_assignment q (sub match_assignment p 0 (String c s)) = None) as Hnone.
    { apply eq_None_not_Some. intros Hs. apply match_assignment_sub in Hs as Hi. destruct Hq as [Hq|Hq].
      - destruct Hi as [r Hr]. unfold match_assignment in E, Hr. rewrite Hq in Hr. congruence.
      - destruct (match_assignment_head _ _ Hi) as (? & ? & [= <- <-] & Hc). simpl in Hq. congruence. }
    cbn [sub] in Hnone |- *. rewrite E in Hnone |- *. cbn [sub]. rewrite Hnone. f_equal.
    eapply IH; [|done|by left]. simpl. lia.
Qed.

Lemma bearer_context q q' s : match_bearer q s = match_bearer q' s.
Proof. done. Qed.

Lemma bearers_gone p k q s : sub match_bearer q 0 (sub match_bearer p k s) = sub match_bearer p k s.
Proof.
  revert p k q. induction s as [|c s IH]; intros p k q; [done|]. destruct k as [|k]; [|apply IH].
  destruct (match_bearer p (String c s)) as [r|] eqn:E.
  - cbn [sub]. rewrite E, bearer_placeholder. by rewrite IH.
  - assert (match_bearer q (sub match_bearer p 0 (String c s)) = None) as Hnone.
    { apply eq_None_not_Some. intros [r' Hs]. apply (bearer_sub _ _ _ _ _ p) in Hs as [? ?]. congruence. }
    cbn [sub] in Hnone |- *. rewrite E in Hnone |- *. cbn [sub]. by rewrite Hnone, IH.
Qed.

(** Replacing assignments makes no bearer token. *)
Lemma bearers_stay_gone p k q s : (∀ q, sub match_bearer q 0 s = s) →
  sub match_bearer q 0 (sub match_assignment p k s) = sub match_assignment p k s.
Proof.
  revert p k q. induction s as [|c s IH]; intros p k q Hs; [done|].
  assert (match_bearer q (String c s) = None) as Hc.
  { specialize (Hs q). cbn [sub] in Hs. destruct (match_bearer q (String c s)) as [r|] eqn:E; [|done].
    injection Hs as <- _. done. }
  assert (∀ q, sub match_bearer q 0 s = s) as Hs'.
  { intros q0. specialize (Hs q). cbn [sub] in Hs. rewrite Hc in Hs. injection Hs as Hs. by rewrite <-Hs, bearers_gone. }
  destruct k as [|k]; [|by apply IH]. destruct (match_assignment p (String c s)) as [r|] eqn:E.
  - cbn [sub]. rewrite E, bearer_placeholder. by rewrite IH.
  - assert (match_bearer q (sub match_assignment p 0 (String c s)) = None) as Hnone.
    { apply eq_None_not_Some. intros [r' H]. apply (bearer_sub _ _ _ _ _ q) in H as [? ?]. congruence. }
    cbn [sub] in Hnone |- *. rewrite E in Hnone |- *. cbn [sub]. by rewrite Hnone, IH.
Qed.

Lemma redact_text_idempotent s : redact_text (redact_text s) = redact_text s.
Proof.
  unfold redact_text. rewrite bearers_stay_gone; [|intros q; apply bearers_gone]. apply assignments_gone. by left.
Qed.

(** ** Sensitive text

    What the two patterns are for, said as occurrences in a text: a bearer token,
    and a value given to a word that names a credential. *)

Fixpoint lowered (s : string) : string :=
  match s with EmptyString => "" | String c s' => String (lower c) (lowered s') end.

Definition CREDENTIAL_WORDS : list string :=
  ["secret"; "token"; "credential"; "password"; "passphrase"; "macaroon"; "apikey"; "api_key"; "api-key"].

Definition has_bearer (s : string) : Prop := ∃ before spaces c after,
  s = before +:+ "Bearer" +:+ spaces +:+ String c after
  ∧ spaces ≠ "" ∧ str_forall is_space spaces = true ∧ token_char c = true.

(** The last character of [u], or [p]. *)
Fixpoint last_or (p : option ascii) (u : string) : option ascii :=
  match u with EmptyString => p | String c u' => last_or (Some c) u' end.

(** The value is set off by a colon or an equals sign. *)
Definition value_given (s : string) : Prop := ∃ plural gap sign gap' c after,
  s = plural +:+ gap +:+ String sign (gap' +:+ String c after)
  ∧ lowered plural ∈ [""; "s"] ∧ str_forall is_space gap = true ∧ (sign = ":"%char ∨ sign = "="%char)
  ∧ str_forall is_space gap' = true ∧ is_space c = false.

Definition has_assignment (s : string) : Prop := ∃ before word rest,
  s = before +:+ word +:+ rest
  ∧ boundary (last_or None before) = true ∧ lowered word ∈ CREDENTIAL_WORDS ∧ value_given rest.

Definition has_secret (s : string) : Prop := has_bearer s ∨ has_assignment s.

Lemma drop_while_spec q s : ∃ u, s = u +:+ drop_while q s ∧ str_forall q u = true.
Proof.
  induction s as [|c s (u&Hs&Hu)]; [by exists ""|]. rewrite drop_while_cons. destruct (q c) eqn:E; [|by exists ""].
  exists (String c u). cbn [String.append str_forall]. by rewrite <-Hs, E.
Qed.

Lemma drop_while_past q u c s : str_forall q u = true → q c = false → drop_while q (u +:+ String c s) = String c s.
Proof.
  intros Hu Hc. induction u as [|d u IH]; cbn [String.append] in *; rewrite drop_while_cons; [by rewrite Hc|].
  cbn [str_forall] in Hu. apply andb_true_iff in Hu as [-> Hu]. by apply IH.
Qed.

Lemma lowered_app a b : lowered (a +:+ b) = lowered a +:+ lowered b.
Proof. induction a as [|c a IH]; [done|]. cbn [String.append lowered]. by rewrite IH. Qed.

Lemma lowered_split w a b : lowered w = a +:+ b → ∃ u v, w = u +:+ v ∧ lowered u = a ∧ lowered v = b.
Proof.
  revert w. induction a as [|c a IH]; intros w; cbn [String.append]; [by exists "", w|].
  destruct w as [|d w]; [done|]. cbn [lowered]. intros [= <- (u&v&->&<-&<-)%IH]. by exists (String d u), v.
Qed.

Lemma strip_ci_spec pre s r : strip_ci pre s = Some r ↔ ∃ w, s = w +:+ r ∧ lowered w = pre.
Proof.
  revert s. induction pre as [|a pre IH]; intros s; cbn [strip_ci].
  - split; [intros [= ->]; by exists ""|]. by intros ([|]&->&?).
  - destruct s as [|b s]; [split; [done|by intros ([|]&?&?)]|]. destruct (Ascii.eqb_spec a (lower b)) as [->|Hne].
    + rewrite IH. split; [intros (w&->&<-); by exists (String b w)|]. intros ([|d w]&Hs&Hw); [done|].
      injection Hs as <- ->. injection Hw as <-. by exists w.
    + split; [done|]. intros ([|d w]&Hs&Hw); [done|]. injection Hs as <- ->. injection Hw as <- _. done.
Qed.

Lemma dash_lower c : dash c = true → lower c = c ∧ (c = "_"%char ∨ c = "-"%char).
Proof.
  unfold dash. rewrite orb_true_iff, !Ascii.eqb_eq. intros [->| ->]; (split; [reflexivity|]); [by left|by right].
Qed.

Lemma dash_key c : lower c = "k"%char → dash c = false.
Proof. intros Hc. destruct (dash c) eqn:E; [|done]. apply dash_lower in E as [Hl [->| ->]]; done. Qed.

(** The keywords match the words that name a credential. *)
Lemma keywords_spec s r : (∃ k, k ∈ value_keywords ∧ k s = Some r) ↔ ∃ w, s = w +:+ r ∧ lowered w ∈ CREDENTIAL_WORDS.
Proof.
  unfold value_keywords. setoid_rewrite elem_of_app. split.
  - intros (k&[(kw&->&Hk)%list_elem_of_fmap| ->%list_elem_of_singleton]&H).
    + apply strip_ci_spec in H as (w&->&<-). exists w. split; [done|].
      unfold CREDENTIAL_WORDS. repeat (apply elem_of_cons in Hk as [->|Hk]; [set_solver|]). by apply not_elem_of_nil in Hk.
    + apply bind_Some in H as (r1&(u&->&Hu)%strip_ci_spec&H). destruct r1 as [|c r1]; [done|]. cbn [skip_opt] in H.
      destruct (dash c) eqn:Ec; apply strip_ci_spec in H as (v&Hr&Hv).
      * apply dash_lower in Ec as [Hl Hc]. exists (u +:+ String c v). rewrite str_app_assoc. cbn [String.append]. split; [by rewrite Hr|].
        rewrite lowered_app, Hu. cbn [lowered]. rewrite Hv, Hl. destruct Hc as [->| ->]; cbn; unfold CREDENTIAL_WORDS; set_solver.
      * exists (u +:+ v). rewrite str_app_assoc, Hr. split; [done|]. rewrite lowered_app, Hu, Hv. unfold CREDENTIAL_WORDS. cbn. set_solver.
  - intros (w&->&Hw). unfold CREDENTIAL_WORDS in Hw. change "apikey" with ("api" +:+ "key") in Hw.
    change "api_key" with ("api" +:+ "_key") in Hw. change "api-key" with ("api" +:+ "-key") in Hw.
    do 6 (apply elem_of_cons in Hw as [Hw|Hw]; [eexists (strip_ci _); split; [left; apply list_elem_of_fmap; eexists; split; [reflexivity|]|
      apply strip_ci_spec; exists w; split; [done|exact Hw]]; set_solver|]).
    eexists. split; [right; apply list_elem_of_singleton; reflexivity|].
    repeat (apply elem_of_cons in Hw as [(u&v&->&Hu&Hv)%lowered_split|Hw]; [|]); [..|by apply not_elem_of_nil in Hw].
    all: rewrite str_app_assoc; apply bind_Some; exists (v +:+ r); split; [apply strip_ci_spec; by exists u|].
    all: destruct v as [|c v]; [done|]; cbn [String.append skip_opt]; injection Hv as Hc Hv.
    + rewrite (dash_key c Hc). apply strip_ci_spec. exists (String c v). split; [done|]. cbn [lowered]. by rewrite Hc, Hv.
    + replace (dash c) with true by (by destruct c as [[] [] [] [] [] [] [] []]). apply strip_ci_spec. by exists v.
    + replace (dash c) with true by (by destruct c as [[] [] [] [] [] [] [] []]). apply strip_ci_spec. by exists v.
Qed.

Lemma lowered_plural p : lowered p ∈ [""; "s"] ↔ p = "" ∨ ∃ c, p = String c "" ∧ lower c = "s"%char.
Proof.
  rewrite !elem_of_cons. split.
  - intros [H|[H|H%not_elem_of_nil]]; [left; by destruct p|right|done]. destruct p as [|c [|d p]]; [done| |done]. injection H as H. by exists c.
  - intros [->|(c&->&Hc)]; [by left|]. right. left. cbn. by rewrite Hc.
Qed.

Lemma space_not_s c : is_space c || Ascii.eqb c ":" || Ascii.eqb c "=" = true → Ascii.eqb (lower c) "s" = false.
Proof. destruct c as [[] [] [] [] [] [] [] []]; (reflexivity || discriminate). Qed.

Lemma sign_not_space c : c = ":"%char ∨ c = "="%char → is_space c = false ∧ Ascii.eqb c ":" || Ascii.eqb c "=" = true.
Proof. by intros [->| ->]. Qed.

Lemma assignment_spec s : is_Some (assignment s) ↔ value_given s.
Proof.
  unfold assignment, value_given. split.
  - intros [r H]. destruct (drop_while_spec is_space (skip_opt (λ c, Ascii.eqb (lower c) "s") s)) as (gap&Hgap&Hg).
    destruct (drop_while is_space (skip_opt _ s)) as [|sign rest]; [done|]. destruct (_ || _) eqn:Es; [|done].
    destruct (drop_while_spec is_space rest) as (gap'&Hgap'&Hg'). destruct (drop_while is_space rest) as [|c after]; [done|].
    cbn [some_of] in H. destruct (is_space c) eqn:Hc; [done|]. rewrite Hgap' in Hgap.
    assert (sign = ":"%char ∨ sign = "="%char) as Hs by (by apply orb_true_iff in Es as [?%Ascii.eqb_eq|?%Ascii.eqb_eq]; [left|right]).
    destruct s as [|d s]; cbn [skip_opt] in Hgap; [by destruct gap|]. destruct (Ascii.eqb_spec (lower d) "s") as [Hd|Hd].
    + exists (String d ""), gap, sign, gap', c, after. rewrite <-Hgap. split_and!; try done. apply lowered_plural. right. by exists d.
    + exists "", gap, sign, gap', c, after. rewrite <-Hgap. split_and!; try done. apply lowered_plural. by left.
  - intros (plural&gap&sign&gap'&c&after&->&Hp&Hg&Hs&Hg'&Hc). destruct (sign_not_space sign Hs) as [Hns Hsign].
    assert (skip_opt (λ c, Ascii.eqb (lower c) "s") (plural +:+ gap +:+ String sign (gap' +:+ String c after))
            = gap +:+ String sign (gap' +:+ String c after)) as ->.
    { apply lowered_plural in Hp as [->|(d&->&Hd)]; cbn [String.append].
      - destruct gap as [|d gap]; cbn [String.append skip_opt].
        + rewrite space_not_s; [done|]. by rewrite <-orb_assoc, Hsign, orb_true_r.
        + cbn [str_forall] in Hg. apply andb_true_iff in Hg as [Hd _]. rewrite space_not_s; [done|]. by rewrite Hd.
      - cbn [skip_opt]. by rewrite Hd. }
    rewrite (drop_while_past _ _ _ _ Hg Hns), Hsign, (drop_while_past _ _ _ _ Hg' Hc). cbn [some_of]. by rewrite Hc.
Qed.

Lemma strip_prefix_spec pre s r : strip_prefix pre s = Some r ↔ s = pre +:+ r.
Proof.
  revert s. induction pre as [|a pre IH]; intros s; cbn [strip_prefix String.append]; [split; [by intros [= ->]|by intros ->]|].
  destruct s as [|b s]; [done|]. destruct (Ascii.eqb_spec a b) as [->|Hne]; [rewrite IH|]; split; intros H; try done; congruence.
Qed.

Lemma token_not_space c : token_char c = true → is_space c = false.
Proof. destruct c as [[] [] [] [] [] [] [] []]; (reflexivity || discriminate). Qed.

Lemma match_bearer_spec p s : is_Some (match_bearer p s) ↔ ∃ spaces c after,
  s = "Bearer" +:+ spaces +:+ String c after ∧ spaces ≠ "" ∧ str_forall is_space spaces = true ∧ token_char c = true.
Proof.
  unfold match_bearer. split.
  - intros [r (r1&H1&H)%bind_Some]. apply bind_Some in H as (r2&H2&H3). apply strip_prefix_spec in H1 as ->.
    destruct r1 as [|d r1]; [done|]. cbn [some_of] in H2. destruct (is_space d) eqn:Hd; [|done]. injection H2 as H2.
    destruct (drop_while_spec is_space r1) as (u&Hu&Hsp). rewrite H2 in Hu. destruct r2 as [|c after]; [done|].
    cbn [some_of] in H3. destruct (token_char c) eqn:Hc; [|done]. exists (String d u), c, after. cbn [String.append str_forall].
    by rewrite Hu, Hd.
  - intros (spaces&c&after&->&Hne&Hsp&Hc). destruct spaces as [|d spaces]; [done|]. cbn [str_forall] in Hsp.
    apply andb_true_iff in Hsp as [Hd Hsp]. rewrite (proj2 (strip_prefix_spec _ _ _) eq_refl). cbn [mbind option_bind String.append some_of]. rewrite Hd.
    cbn [mbind option_bind]. rewrite drop_while_past; [|done|by apply token_not_space]. cbn [some_of]. by rewrite Hc.
Qed.

Lemma match_assignment_spec p s : is_Some (match_assignment p s) ↔
  boundary p = true ∧ ∃ word rest, s = word +:+ rest ∧ lowered word ∈ CREDENTIAL_WORDS ∧ value_given rest.
Proof.
  unfold match_assignment. destruct (boundary p); [|split; [by intros [? ?]|by intros [? _]]]. split.
  - intros [r (k&Hk&H)%first_match_Some]. split; [done|]. apply list_elem_of_fmap in Hk as (kw&->&Hk).
    apply bind_Some in H as (rest&Hr&H). destruct (proj1 (keywords_spec s rest)) as (w&->&Hw); [by exists kw|].
    exists w, rest. split; [done|]. split; [done|]. by apply assignment_spec.
  - intros (_&w&rest&->&Hw&Hg). destruct (proj2 (keywords_spec (w +:+ rest) rest)) as (kw&Hk&Hr); [by exists w|].
    apply assignment_spec in Hg. eapply first_match_is_Some; [apply list_elem_of_fmap; exists kw; split; [reflexivity|exact Hk]|].
    cbn. by rewrite Hr.
Qed.

(** A fixed point of the substitution has no match at any place, and without a match
    the substitution changes nothing. *)
Section places.
  Context (m : option ascii → string → option string).
  Hypothesis not_bracket : ∀ p s, m p (String bracket s) = None.
  Hypothesis not_empty : ∀ p, m p "" = None.

Lemma sub_fixed p s u r : sub m p 0 s = s → s = u +:+ r → m (last_or p u) r = None.
Proof using not_bracket not_empty.
  revert p u. induction s as [|c s IH]; intros p u Hs Hu; [by destruct u, r|]. cbn [sub] in Hs.
  destruct (m p (String c s)) eqn:E; [injection Hs as <- _; by rewrite not_bracket in E|]. injection Hs as Hs.
  destruct u as [|d u]; cbn [String.append last_or] in *; [by rewrite <-Hu|]. injection Hu as <- ->. by apply IH.
Qed.

Lemma sub_unchanged p s : (∀ u r, s = u +:+ r → m (last_or p u) r = None) → sub m p 0 s = s.
Proof.
  revert p. induction s as [|c s IH]; intros p Hm; [done|]. cbn [sub]. pose proof (Hm "" (String c s) eq_refl) as H0. cbn [last_or] in H0. rewrite H0.
  f_equal. apply IH.
  intros u r ->. by apply (Hm (String c u) r).
Qed.

End places.

Lemma has_bearer_places s : has_bearer s ↔ ∃ u r, s = u +:+ r ∧ is_Some (match_bearer (last_or None u) r).
Proof.
  unfold has_bearer. setoid_rewrite match_bearer_spec. split.
  - intros (u&sp&c&after&->&?&?&?). exists u, ("Bearer" +:+ sp +:+ String c after). split; [done|]. by exists sp, c, after.
  - intros (u&r&->&sp&c&after&->&?&?&?). by exists u, sp, c, after.
Qed.

Lemma has_assignment_places s : has_assignment s ↔ ∃ u r, s = u +:+ r ∧ is_Some (match_assignment (last_or None u) r).
Proof.
  unfold has_assignment. setoid_rewrite match_assignment_spec. split.
  - intros (u&w&rest&->&Hb&?&?). exists u, (w +:+ rest). split; [done|]. split; [done|]. by exists w, rest.
  - intros (u&r&->&Hb&w&rest&->&?&?). by exists u, w, rest.
Qed.

(** Redacted text has no secret, and text without a secret is kept. *)
Lemma redact_text_spec s : ¬ has_secret (redact_text s) ∧ (¬ has_secret s → redact_text s = s).
Proof.
  assert (∀ p t, match_assignment p (String bracket t) = None) as Hb1 by (intros p t; unfold match_assignment; by destruct (boundary p)).
  assert (∀ p, match_assignment p "" = None) as He1 by (intros p; unfold match_assignment; by destruct (boundary p)).
  split.
  - intros [(u&r&Hs&[x Hx])%has_bearer_places|(u&r&Hs&[x Hx])%has_assignment_places].
    + rewrite (sub_fixed match_bearer) with (p := None) (s := redact_text s) in Hx; [done|done|done| |done].
      unfold redact_text. apply bearers_stay_gone. intros q. apply bearers_gone.
    + rewrite (sub_fixed match_assignment) with (p := None) (s := redact_text s) in Hx; [done|done|done| |done].
      unfold redact_text. apply assignments_gone. by left.
  - intros Hn. unfold redact_text. rewrite (sub_unchanged match_bearer).
    + apply sub_unchanged. intros u r ->. apply eq_None_not_Some. intros Hm. apply Hn. right. apply has_assignment_places. by exists u, r.
    + intros u r ->. apply eq_None_not_Some. intros Hm. apply Hn. left. apply has_bearer_places. by exists u, r.
Qed.

Lemma redact_value_idempotent v : _redact_value (_redact_value v) = _redact_value v.
Proof.
  induction v as [|b|z|s|s|l IH|d IH] using value_nested_ind; simpl; try done.
  - by rewrite redact_text_idempotent.
  - f_equal. rewrite map_map. apply map_ext_in. intros x Hx. rewrite Forall_forall in IH. by apply IH, list_elem_of_In.
  - f_equal. rewrite map_map. apply map_ext_in. intros [k x] Hx. simpl. f_equal. destruct (_is_sensitive_key k); [done|].
    rewrite Forall_forall in IH. by apply (IH (k, x)), list_elem_of_In.
Qed.

(** ** What a redacted payload holds *)

Section payload.
  Context {PY : Pydantic}.

Lemma filter_split (rs : list exported) :
  (length (filter (λ r, is_private_for_export r = false) rs) + length (filter (λ r, is_private_for_export r = true) rs) = length rs)%nat.
Proof.
  induction rs as [|r rs IH]; [done|]. rewrite !filter_cons. destruct (is_private_for_export r) eqn:E; repeat case_decide; try done; simpl; lia.
Qed.

Lemma payload_keys r : (redacted_payload r).*1 = (_record_payload r).*1.
Proof.
  unfold redacted_payload, _strip_private_reference_ids, redact_mapping. rewrite map_map.
  induction (_record_payload r) as [|[k v] d IH]; [done|]. simpl. rewrite IH. by destruct (str_in k _).
Qed.

(** The reference fields are not sensitive keys. *)
Lemma reference_not_sensitive k : str_in k _PRIVATE_REFERENCE_FIELDS = true → _is_sensitive_key k = false.
Proof.
  rewrite str_in_spec. unfold _PRIVATE_REFERENCE_FIELDS. intros Hk.
  repeat (apply elem_of_cons in Hk as [->|Hk]; [done|]). by apply not_elem_of_nil in Hk.
Qed.

Lemma payload_fixed r : redact_mapping (redacted_payload r) = redacted_payload r.
Proof.
  unfold redacted_payload, _strip_private_reference_ids, redact_mapping. rewrite !map_map.
  apply map_ext. intros [k v]. simpl. destruct (str_in k _) eqn:E; simpl.
  - by rewrite (reference_not_sensitive k E).
  - f_equal. destruct (_is_sensitive_key k); [done|apply redact_value_idempotent].
Qed.

Lemma payload_values r k v : (k, v) ∈ redacted_payload r →
  (_is_sensitive_key k = true → v = VStr REDACTED_PLACEHOLDER) ∧ (str_in k _PRIVATE_REFERENCE_FIELDS = true → v = VList []).
Proof.
  unfold redacted_payload, _strip_private_reference_ids, redact_mapping. rewrite map_map.
  intros ([k' v'] & H & _)%list_elem_of_fmap. simpl in H. destruct (str_in k' _) eqn:E; simplify_eq.
  - split; [|done]. intros Hs. rewrite (reference_not_sensitive k' E) in Hs. done.
  - split; [by intros ->|congruence].
Qed.

(** The texts of a value. *)
Fixpoint texts (v : value) : list string :=
  match v with
  | VStr s => [s]
  | VList l => List.concat (map texts l)
  | VDict d => List.concat (map (λ kv, texts kv.2) d)
  | _ => []
  end.

Definition clean (v : value) : Prop := ∀ t, t ∈ texts v → ¬ has_secret t.

Lemma elem_of_texts {A} (f : A → list string) l t : t ∈ List.concat (map f l) ↔ ∃ x, x ∈ l ∧ t ∈ f x.
Proof.
  rewrite list_elem_of_In, in_concat. split.
  - intros (ts&(x&<-&Hx)%in_map_iff&Ht). exists x. by rewrite !list_elem_of_In.
  - intros (x&Hx&Ht). exists (f x). split; [|by apply list_elem_of_In]. apply in_map_iff. exists x. by rewrite <-list_elem_of_In.
Qed.

Lemma placeholder_clean : ¬ has_secret REDACTED_PLACEHOLDER.
Proof. exact (proj1 (redact_text_spec REDACTED_PLACEHOLDER)). Qed.

Lemma redact_value_clean v : clean (_redact_value v).
Proof.
  induction v as [|b|z|s|s|l IH|d IH] using value_nested_ind; intros t; cbn [_redact_value texts];
    try (intros Ht; by apply not_elem_of_nil in Ht).
  - intros ->%list_elem_of_singleton. apply redact_text_spec.
  - rewrite map_map, elem_of_texts. intros (x&Hx&Ht). rewrite Forall_forall in IH. by eapply IH.
  - rewrite map_map, elem_of_texts. intros ([k x]&Hx&Ht). cbn [fst snd] in Ht. destruct (_is_sensitive_key k).
    + apply list_elem_of_singleton in Ht as ->. apply placeholder_clean.
    + rewrite Forall_forall in IH. by apply (IH (k, x) Hx).
Qed.

(** The values of a record: no mapping inside. *)
Definition flat (v : value) : bool :=
  match v with VDict _ => false | VList l => forallb (λ x, match x with VStr _ => true | _ => false end) l | _ => true end.

Lemma redact_value_kept v : flat v = true → clean v → _redact_value v = v.
Proof.
  assert (∀ s, ¬ has_secret s → redact_text s = s) as Hkeep by (intros s; apply redact_text_spec).
  destruct v as [|b|z|s|s|l|d]; cbn [flat _redact_value]; try done.
  - intros _ Hc. f_equal. apply Hkeep, Hc. by left.
  - intros Hf Hc. f_equal. induction l as [|x l IH]; [done|]. cbn [forallb map] in *. apply andb_true_iff in Hf as [Hx Hl].
    f_equal; [|apply IH; [done|]; intros t Ht; apply Hc; cbn [texts map List.concat]; apply elem_of_app; by right].
    destruct x as [| | | |s| |]; try done. cbn [_redact_value]. f_equal. apply Hkeep, Hc. cbn. by left.
Qed.

Lemma tnp_flat w : map_Forall (λ _ v, flat v = true) (to_node_properties w).
Proof.
  assert (∀ l, flat (strs l) = true) as Hstrs by (intros l; induction l as [|x l IH]; done).
  assert (map_Forall (λ _ v, flat v = true) (base_properties w)) as Hbase.
  { intros k v Hk. apply elem_of_list_to_map_2 in Hk.
    repeat (apply elem_of_cons in Hk as [[= -> ->]|Hk]; [done|]). by apply not_elem_of_nil in Hk. }
  unfold to_node_properties, opt_prop. destruct (is_todo (kind w));
    repeat case_match; repeat first [exact Hbase|apply map_Forall_insert_2; [done|]].
Qed.

(** The names of a work object's properties are no names of credentials. *)
Lemma tnp_keys w k v : to_node_properties w !! k = Some v → _is_sensitive_key k = false.
Proof.
  intros Hk. pose proof (tnp_names false w) as Hn. unfold names_ok in Hn. apply andb_true_iff in Hn as [_ Hn]. cbn [orb] in Hn.
  rewrite forallb_forall in Hn. specialize (Hn (k, v)). apply elem_of_map_to_list, list_elem_of_In, Hn, str_in_spec in Hk.
  assert (Forall (λ k, _is_sensitive_key k = false) (CANONICAL_MODEL_PROPERTIES ++ OPTIONAL_PROPERTIES)) as Hall.
  { apply (bool_decide_unpack _). by vm_compute. }
  rewrite Forall_forall in Hall. by apply Hall.
Qed.

Lemma mk_dict_elem {V} (l : list (string * V)) kv : kv ∈ mk_dict l → kv ∈ l.
Proof.
  assert (∀ k (v : V) d x, x ∈ dict_insert k v d → x = (k, v) ∨ x ∈ d) as Hins.
  { intros k v d x. induction d as [|[k' v'] d IH]; cbn [dict_insert]; [rewrite list_elem_of_singleton; tauto|].
    repeat case_match; rewrite !elem_of_cons; tauto. }
  unfold mk_dict. enough (∀ d, kv ∈ foldl (λ d kv, dict_insert kv.1 kv.2 d) d l → kv ∈ d ∨ kv ∈ l) as H.
  { intros Hkv. by destruct (H [] Hkv) as [Hx%not_elem_of_nil|?]. }
  induction l as [|[k v] l IH]; intros d; cbn [foldl]; [by left|]. intros [[->|?]%Hins|?]%IH; rewrite elem_of_cons; auto.
Qed.

Lemma payload_members w k v : (k, v) ∈ _record_payload (work_record w) → _is_sensitive_key k = false ∧ flat v = true.
Proof.
  unfold _record_payload. intros H%mk_dict_elem. apply elem_of_cons in H as [[= -> ->]|H%elem_of_map_to_list]; [done|].
  split; [by eapply tnp_keys|by eapply tnp_flat].
Qed.

(** The kinds of records that leave in a redacted export. *)
Definition public (r : exported) : Prop :=
  match r with work_record w => kind w ∉ [KProposal; KReviewPacket; KDecision] | _ => False end.

#[export] Instance public_dec r : Decision (public r).
Proof. destruct r; apply _. Defined.

Lemma public_spec r : public r ↔ is_private_for_export r = false.
Proof.
  unfold is_private_for_export, public. destruct r as [w|a|l]; cbn [classify_private_category].
  - destruct (kind w); set_solver.
  - by destruct (ar_role a).
  - done.
Qed.

(** A member as it leaves: references are emptied, no text of another value holds a
    secret, and a value without a secret is unchanged. *)
Definition leaves_as (kv kv' : string * value) : Prop :=
  kv'.1 = kv.1
  ∧ if decide (kv.1 ∈ ["artifact_ids"; "external_link_ids"]) then kv'.2 = VList []
    else clean kv'.2 ∧ (clean kv.2 → kv'.2 = kv.2).

Lemma payload_leaves r : public r → Forall2 leaves_as (_record_payload r) (redacted_payload r).
Proof.
  destruct r as [w|a|l]; [|done..]. intros _. unfold redacted_payload, _strip_private_reference_ids, redact_mapping.
  assert (∀ kv, kv ∈ _record_payload (work_record w) → _is_sensitive_key kv.1 = false ∧ flat kv.2 = true) as Hm.
  { intros [k v]. apply payload_members. }
  induction (_record_payload (work_record w)) as [|[k v] d IH]; [constructor|]. cbn [map fst snd].
  destruct (Hm (k, v)) as [Hk Hf]; [by left|]. cbn [fst snd] in Hk, Hf. rewrite Hk.
  constructor; [|apply IH; intros kv ?; apply Hm; by right]. unfold leaves_as. cbn [fst snd].
  destruct (str_in k _PRIVATE_REFERENCE_FIELDS) eqn:E; cbn [fst snd]; (split; [done|]).
  - rewrite decide_True by (by apply str_in_spec). done.
  - rewrite decide_False by (intros H; apply (proj2 (str_in_spec k _PRIVATE_REFERENCE_FIELDS)) in H; congruence). split; [apply redact_value_clean|]. by apply redact_value_kept.
Qed.

End payload.

(** ** Properties *)

Section properties.
  Context {PY : Pydantic}.

(** Redacting is idempotent on every value: redacting redacted output changes
    nothing, in texts, under sensitive keys and in nested containers. *)
Theorem redaction_idempotent v d :
  _redact_value (_redact_value v) = _redact_value v ∧ redact_event (redact_event d) = redact_event d.
Proof.
  split; [apply redact_value_idempotent|]. pose proof (redact_value_idempotent (VDict d)) as H. simpl in H. by injection H.
Qed.

(** C35: A redacted export is safe.  It holds, in order, exactly the records that are
    work objects other than proposals, review packets and decisions, and counts all
    others; each keeps its keys, its references to artifacts and links are emptied,
    and no text of its other values holds a secret - neither a bearer token nor a
    value given to a word that names a credential - while a value that held none is
    unchanged. *)
Theorem redacted_export_safe rs out :
  export_records rs REDACTED = Ok out →
  ∃ ds, dict_get "records" out = Some (VList (map VDict ds))
  ∧ Forall2 (λ r d, Forall2 leaves_as (_record_payload r) d) (filter public rs) ds
  ∧ dict_get "omitted_private" out = Some (VInt (Z.of_nat (length (filter (λ r, ¬ public r) rs)))).
Proof.
  intros [= <-]. exists (map redacted_payload (filter (λ r, is_private_for_export r = false) rs)).
  split; [by rewrite map_map|].
  assert (filter (λ r, is_private_for_export r = false) rs = filter public rs) as ->.
  { apply list_filter_iff. intros r. by rewrite public_spec. }
  split.
  - assert (Forall public (filter public rs)) as Hp by (apply Forall_forall; by intros r [? _]%list_elem_of_filter).
    induction Hp as [|r l Hr _ IH]; constructor; [by apply payload_leaves|exact IH].
  - cbn. rewrite !length_map. rewrite <-(filter_split rs).
    assert (filter (λ r, is_private_for_export r = false) rs = filter public rs) as -> by (apply list_filter_iff; intros r; by rewrite public_spec).
    assert (filter (λ r, is_private_for_export r = true) rs = filter (λ r, ¬ public r) rs) as ->.
    { apply list_filter_iff. intros r. by rewrite public_spec, not_false_iff_true. }
    do 2 f_equal. lia.
Qed.

End properties.

(** ** Witnesses *)

Definition epoch_time : datetime := Datetime 2024 1 1 0 0 0 0 (Some 0%Z).

Definition ex_export : list exported :=
  map (λ kd, work_record (new_work kd "i" "token: abc" epoch_time epoch_time)) [KTask; KProposal].

#[local] Existing Instance reference_pydantic.

Definition ex_record : exported := work_record (new_work KTask "i" "token: abc" epoch_time epoch_time).

Lemma redacted_export_safe_witness :
  ∃ out, export_records ex_export REDACTED = Ok out ∧ dict_get "title" (redacted_payload ex_record) = Some (VStr "[REDACTED]")
  ∧ ∃ d, dict_get "records" out = Some (VList [VDict d]) ∧ Forall2 leaves_as (_record_payload ex_record) d.
Proof.
  eexists. split; [reflexivity|]. split; [vm_compute; reflexivity|].
  destruct (redacted_export_safe ex_export _ eq_refl) as (ds & Hds & Hleaves & _).
  change (filter public ex_export) with [ex_record] in Hleaves.
  destruct ds as [|d [|d' ds]]; inversion Hleaves as [|r d0 l l' Hd Hl]; subst; [|by inversion Hl].
  exists d. exact (conj Hds Hd).
Defined.

