(* ===== verification/Storage.v ===== *)
(** * The in-memory graph storage: state, mutations, transactions, receipts

    [MemoryGraphStorage] of [src/devgraph/storage/memory.py] with the records of
    [storage/base.py].  The instance's attributes are the record [Store]; a
    method that writes is a program of [M Store], a method that only reads is a
    function of the store.  Python object identity is used once, by
    [link_new_event_receipt]; [refs] gives every stored node the identity of the
    object put there.  The lock is not represented: one thread runs. *)

From stdpp Require Import base gmap strings list sorting.
From Stdlib Require Import ZArith Ascii String.
From S2P Require Import Prelude Json Datetime Validation WorkflowContract Model.

Local Open Scope Z_scope.

(** ** State *)

Abbreviation key := (string * string)%type.

Record EdgeRecord := Edge {
  from_label : string;
  from_id : string;
  relationship : string;
  to_label : string;
  to_id : string;
  edge_properties : props
}.

#[export] Instance EdgeRecord_eq_dec : EqDecision EdgeRecord.
Proof. solve_decision. Defined.

Definition edge_from (e : EdgeRecord) : key := (from_label e, from_id e).
Definition edge_to (e : EdgeRecord) : key := (to_label e, to_id e).

(** The tuple kept for a receipt claimed in this transaction: its transaction,
    the claimed subject and the identity of the node. *)
Record receipt_claim := Claim {
  claim_tx : nat;
  claim_label : option value;
  claim_id : option value;
  claim_ref : nat
}.

(** The thread-local transaction state. *)
Record Tx := {
  tx_token : nat;
  fresh_receipt_claims : gmap string receipt_claim;
  rollback_only : bool
}.

Record Store := {
  nodes : gmap key NodeRecord;
  refs : gmap key nat;
  edges : list EdgeRecord;
  applied_constraints : gset string;
  tx : option Tx;
  next_ref : nat;
  next_tx : nat;
  ticks : nat
}.

Definition empty_store : Store :=
  {| nodes := ∅; refs := ∅; edges := []; applied_constraints := ∅; tx := None; next_ref := 0;
     next_tx := 0; ticks := 0 |}.

(** [datetime.now(timezone.utc)]: the [n]-th reading of the clock is a valid UTC
    time; nothing is assumed about the order of readings. *)
Class Clock : Type := {
  clock : nat → datetime;
  clock_ok n : datetime_ok (clock n) = true ∧ utcoffset (clock n) = Some 0
}.

(** A clock that stands still, for examples. *)
Definition epoch : datetime := Datetime 2024 1 1 0 0 0 0 (Some 0).
Definition epoch_clock : Clock := {| clock := λ _, epoch; clock_ok := λ _, conj eq_refl eq_refl |}.

(** [self._nodes[key] = record], a new object. *)
Definition put_node (k : key) (n : NodeRecord) (s : Store) : Store :=
  {| nodes := <[k := n]> (nodes s); refs := <[k := next_ref s]> (refs s); edges := edges s;
     applied_constraints := applied_constraints s; tx := tx s; next_ref := S (next_ref s);
     next_tx := next_tx s; ticks := ticks s |}.

Definition set_edges (es : list EdgeRecord) (s : Store) : Store :=
  {| nodes := nodes s; refs := refs s; edges := es; applied_constraints := applied_constraints s;
     tx := tx s; next_ref := next_ref s; next_tx := next_tx s; ticks := ticks s |}.

Definition set_constraints (cs : gset string) (s : Store) : Store :=
  {| nodes := nodes s; refs := refs s; edges := edges s; applied_constraints := cs;
     tx := tx s; next_ref := next_ref s; next_tx := next_tx s; ticks := ticks s |}.

Definition set_tx (t : option Tx) (s : Store) : Store :=
  {| nodes := nodes s; refs := refs s; edges := edges s; applied_constraints := applied_constraints s;
     tx := t; next_ref := next_ref s; next_tx := next_tx s; ticks := ticks s |}.

Definition tick (s : Store) : Store :=
  {| nodes := nodes s; refs := refs s; edges := edges s; applied_constraints := applied_constraints s;
     tx := tx s; next_ref := next_ref s; next_tx := next_tx s; ticks := S (ticks s) |}.

(** ** Truth values

    [bool(x)] of a property value; a float literal is zero when its mantissa
    has no digit other than 0. *)
Definition value_truthy (v : value) : bool :=
  match v with
  | VNone => false
  | VBool b => b
  | VInt z => negb (z =? 0)
  | VFloat lit =>
      str_exists (λ c, in_range 49 57 c || is_alpha c)
        (span (λ c, negb (Ascii.eqb c "e" || Ascii.eqb c "E")) lit).1
  | VStr s => truthy s
  | VList l => negb (bool_decide (l = []))
  | VDict d => negb (bool_decide (d = []))
  end.

Definition opt_truthy (o : option value) : bool :=
  match o with Some v => value_truthy v | None => false end.

Section storage.
  Context `{Pydantic, Clock}.

(** [utc_now()]. *)
Definition utc_now : M Store datetime := λ s, (Ok (clock (ticks s)), tick s).

(** ** Nodes *)

(** [_is_canonical_payload(label, properties)]. *)
Definition _is_canonical_payload (label : string) (p : props) : bool :=
  str_in label CANONICAL_WORK_KINDS && bool_decide (is_Some (p !! "kind")).

(** [except (TypeError, ValueError): raise StorageUnavailable("malformed ...")]. *)
Definition malformed {A} (r : res A) : res A :=
  rethrow (λ e, is_value_error e || is_type_error e)
    (λ _, StorageUnavailable "malformed canonical work object") r.

Definition get_node (label node_id : string) (s : Store) : res (option NodeRecord) :=
  require_id node_id;; Ok (nodes s !! (label, node_id)).

Definition _require_node (label node_id : string) (s : Store) : res NodeRecord :=
  o ← get_node label node_id s; of_option (KeyError "missing node") o.

Definition create_node (label node_id : string) (p : props) : M Store NodeRecord :=
  lift (require_id node_id);;
  np ← lift (if _is_canonical_payload label p
             then malformed (validate_canonical_work_object_properties label node_id p false false)
             else Ok p);
  existing ← gets (λ s, nodes s !! (label, node_id));
  guard_raise (bool_decide (is_Some existing)) (KeyError "node already exists");;
  let record := Node label node_id np false in
  modify (put_node (label, node_id) record);;
  mret record.

(** [status == "archived"] of a property map. *)
Definition status_is_archived (p : props) : bool := bool_decide (p !! "status" = Some (VStr "archived")).

Definition update_node (label node_id : string) (p : props) : M Store NodeRecord :=
  lift (require_id node_id);;
  existing ← reads (_require_node label node_id);
  let ep := nr_properties existing in
  let canonical := _is_canonical_payload label ep || _is_canonical_payload label p in
  guard_raise (canonical && (nr_archived existing
      || (status_is_archived ep && negb (opt_truthy (ep !! "progress_schema"))))) (KeyError "archived");;
  np ← lift (if canonical then
      cur ← malformed (validate_canonical_work_object_properties label node_id ep (nr_archived existing) true);
      new ← malformed (validate_canonical_work_object_properties label node_id p
              (if opt_truthy (p !! "progress_schema") then nr_archived existing else status_is_archived p)
              false);
      raise_if (negb (bool_decide (new !! "created_at" = cur !! "created_at")
                      && (get_int (prop new "version") =? get_int (prop cur "version") + 1)))
        (KeyError "stale or inconsistent");;
      Ok new
    else Ok p);
  let updated := Node (nr_label existing) (nr_id existing) (np ∪ ep)
    (nr_archived existing || (canonical && status_is_archived np && negb (status_is_archived ep))) in
  modify (put_node (label, node_id) updated);;
  mret updated.

(** The canonical branch of [archive_node] with new properties. *)
Definition archive_canonical (label node_id : string) (ep p : props) : res props :=
  c ← malformed (validate_canonical_work_object_properties label node_id p true false);
  raise_if (negb (match ep !! "version", c !! "version" with
                  | Some (VInt cv), Some (VInt nv) => nv =? cv + 1
                  | _, _ => false
                  end)
            || negb (bool_decide (c !! "created_at" = ep !! "created_at"))
            || negb (bool_decide (c !! "kind" = Some (VStr label)))
            || (negb (opt_truthy (c !! "progress_schema")) && negb (status_is_archived c)))
    (KeyError "missing, stale, or inconsistent");;
  Ok c.

Definition archive_node (label node_id : string) (p : option props) : M Store NodeRecord :=
  lift (require_id node_id);;
  existing ← reads (_require_node label node_id);
  let ep := nr_properties existing in
  let canonical_payload :=
    _is_canonical_payload label ep
    || match p with Some q => _is_canonical_payload label q | None => false end in
  if canonical_payload && nr_archived existing then
    match p with
    | None => mret existing
    | Some _ => raise (KeyError "already archived")
    end
  else
    ap ← lift (if canonical_payload then
        match p with
        | None =>
            raise_if (negb (status_is_archived ep)) (StorageUnavailable "malformed canonical work object");;
            malformed (validate_canonical_work_object_properties label node_id ep true true);;
            Ok ep
        | Some q => archive_canonical label node_id ep q
        end
      else Ok (default ∅ p ∪ ep));
    let record := Node (nr_label existing) (nr_id existing) ap true in
    modify (put_node (label, node_id) record);;
    mret record.

(** [existing.properties["version"] + 1]; the sum with a stored float is left
    out (it raises here). *)
Definition next_version (ep : props) : res Z :=
  match ep !! "version" with
  | None => Err (KeyError "version")
  | Some (VInt z) => Ok (z + 1)
  | Some (VBool b) => Ok (Z.b2z b + 1)
  | Some _ => Err (TypeError "unsupported operand")
  end.

Definition restore_stale : exn := KeyError "missing, stale, or inconsistent restore".

Definition restore_node (label node_id : string) (p : props) : M Store NodeRecord :=
  existing ← reads (_require_node label node_id);
  let ep := nr_properties existing in
  c ← lift (validate_canonical_work_object_properties label node_id p false false);
  guard_raise (negb (nr_archived existing) || negb (bool_decide (c !! "progress_schema" = Some (VInt 1))))
    restore_stale;;
  nv ← lift (next_version ep);
  guard_raise (negb (get_int (prop c "version") =? nv)) restore_stale;;
  created ← lift (of_option (KeyError "created_at") (ep !! "created_at"));
  guard_raise (negb (bool_decide (c !! "created_at" = Some created))) restore_stale;;
  let node := Node label node_id (c ∪ ep) false in
  modify (put_node (label, node_id) node);;
  mret node.

(** ** Edges *)

Definition create_edge (fl fi rel tl ti : string) (p : props) : M Store EdgeRecord :=
  lift (require_id fi);;
  lift (require_id ti);;
  from ← gets (λ s, nodes s !! (fl, fi));
  guard_raise (bool_decide (from = None)) (KeyError "missing from node");;
  to ← gets (λ s, nodes s !! (tl, ti));
  guard_raise (bool_decide (to = None)) (KeyError "missing to node");;
  let edge := Edge fl fi rel tl ti p in
  modify (λ s, if decide (edge ∈ edges s) then s else set_edges (edges s ++ [edge]) s);;
  mret edge.

Definition edge_is (fl fi rel tl ti : string) (e : EdgeRecord) : bool :=
  bool_decide ((from_label e, from_id e, relationship e, to_label e, to_id e) = (fl, fi, rel, tl, ti)).

Definition delete_edge (fl fi rel tl ti : string) : M Store unit :=
  modify (λ s, set_edges (filter (λ e, edge_is fl fi rel tl ti e = false) (edges s)) s).

Definition list_edges (rel : option string) (limit : option Z) (s : Store) : res (list EdgeRecord) :=
  raise_if (match limit with Some l => negb ((1 <=? l) && (l <=? 10001)) | None => false end)
    (ValueError "invalid edge limit");;
  let es := match rel with
            | Some r => filter (λ e, relationship e = r) (edges s)
            | None => edges s
            end in
  Ok (match limit with Some l => take (Z.to_nat l) es | None => es end).

(** ** Constraints *)

Definition count_idempotent_application (statements : list string) (seen : gset string) :
    (Z * Z) * gset string :=
  foldl (λ acc st, let '((applied, existing), seen) := acc in
           if decide (st ∈ seen) then ((applied, existing + 1), seen)
           else ((applied + 1, existing), {[st]} ∪ seen)) ((0, 0), seen) statements.

(** The result is ([applied_count], [existing_count]). *)
Definition apply_constraints (statements : list string) : M Store (Z * Z) := λ s,
  let r := count_idempotent_application statements (applied_constraints s) in
  (Ok r.1, set_constraints r.2 s).

(** ** Transactions *)

Definition begin_tx (s : Store) : Store :=
  {| nodes := nodes s; refs := refs s; edges := edges s; applied_constraints := applied_constraints s;
     tx := Some {| tx_token := next_tx s; fresh_receipt_claims := ∅; rollback_only := false |};
     next_ref := next_ref s; next_tx := S (next_tx s); ticks := ticks s |}.

(** The snapshot taken at entry goes back; clock and identities move on. *)
Definition restore_snapshot (snapshot s : Store) : Store :=
  {| nodes := nodes snapshot; refs := refs snapshot; edges := edges snapshot;
     applied_constraints := applied_constraints snapshot; tx := tx snapshot; next_ref := next_ref s;
     next_tx := next_tx s; ticks := ticks s |}.

Definition is_rollback_only (s : Store) : bool :=
  match tx s with Some t => rollback_only t | None => false end.

Definition transaction {A} (body : M Store A) : M Store A := λ s,
  let outer := bool_decide (tx s = None) in
  let s0 := if outer then begin_tx s else s in
  let close s1 := if outer then set_tx None s1 else s1 in
  match body s0 with
  | (Ok a, s1) =>
      if is_rollback_only s1
      then (Err (StorageUnavailable "nested transaction failed"), close (restore_snapshot s0 s1))
      else (Ok a, close s1)
  | (Err e, s1) => (Err e, close (restore_snapshot s0 s1))
  end.

Definition work_mutation_transaction {A} (body : M Store A) : M Store A := transaction body.

(** ** Event receipts *)

Definition RECEIPT_DIGEST_FIELDS : list string := ["idempotency_claim_digest"; "idempotency_key_digest"].

Definition is_hex64 (s : string) : bool := (str_len s =? 64) && str_forall is_lower_hex s.

Definition validate_receipt_lookup (property_name digest : string) : res unit :=
  raise_if (negb (str_in property_name RECEIPT_DIGEST_FIELDS) || negb (is_hex64 digest))
    (StorageUnavailable "invalid receipt lookup").

(** The receipts whose property has the given value. *)
Definition receipts_with (name digest : string) (s : Store) : list NodeRecord :=
  filter (λ n, nr_label n = "EventReceipt" ∧ nr_properties n !! name = Some (VStr digest))
    (map_to_list (nodes s)).*2.

Definition find_event_receipt_by_digest (name digest : string) (s : Store) : res (option NodeRecord) :=
  validate_receipt_lookup name digest;;
  match receipts_with name digest s with
  | [] => Ok None
  | [n] => Ok (Some n)
  | _ => Err (StorageUnavailable "ambiguous receipt lookup")
  end.

(** Record a fresh claim in the open transaction, if there is one. *)
Definition note_claim (n : NodeRecord) (p : props) (s : Store) : Store :=
  match tx s with
  | None => s
  | Some t =>
      set_tx (Some {| tx_token := tx_token t;
        fresh_receipt_claims := <[nr_id n :=
          Claim (tx_token t) (p !! "subject_label") (p !! "subject_id")
            (default 0%nat (refs s !! nr_key n))]> (fresh_receipt_claims t);
        rollback_only := rollback_only t |}) s
  end.

(** [EventReceiptClaim(created, node)]. *)
Definition claim_event_receipt (node_id digest : string) (p : props) : M Store (bool * NodeRecord) :=
  guard_raise (negb (bool_decide (p !! "idempotency_claim_digest" = Some (VStr digest))))
    (StorageUnavailable "invalid idempotency claim");;
  matches ← gets (receipts_with "idempotency_claim_digest" digest);
  match matches with
  | [] =>
      node ← create_node "EventReceipt" node_id p;
      modify (note_claim node p);;
      mret (true, node)
  | [n] => mret (false, n)
  | _ => raise (StorageUnavailable "ambiguous idempotency claim")
  end.

(** The endpoints check inside the [try] of [link_new_event_receipt]. *)
Definition fresh_endpoints_ok (sl si ri : string) (proof : receipt_claim) (s : Store) : bool :=
  match nodes s !! ("EventReceipt", ri) with
  | None => false
  | Some target =>
      bool_decide (refs s !! ("EventReceipt", ri) = Some (claim_ref proof))
      && negb (nr_archived target)
      && bool_decide (nr_properties target !! "subject_label" = Some (VStr sl))
      && bool_decide (nr_properties target !! "subject_id" = Some (VStr si))
      && bool_decide (is_Some (nodes s !! (sl, si)))
      && forallb (λ e, negb (String.eqb (relationship e) "EMITTED_EVENT"
                             && String.eqb (to_label e) "EventReceipt" && String.eqb (to_id e) ri)) (edges s)
  end.

Definition mark_rollback (s : Store) : Store :=
  match tx s with
  | None => s
  | Some t => set_tx (Some {| tx_token := tx_token t; fresh_receipt_claims := fresh_receipt_claims t;
                              rollback_only := true |}) s
  end.

Definition drop_claim (ri : string) (s : Store) : Store :=
  match tx s with
  | None => s
  | Some t => set_tx (Some {| tx_token := tx_token t;
                              fresh_receipt_claims := delete ri (fresh_receipt_claims t);
                              rollback_only := rollback_only t |}) s
  end.

(** [except BaseException: state.rollback_only = True; raise]. *)
Definition or_rollback {A} (m : M Store A) : M Store A := λ s,
  match m s with
  | (Ok a, s1) => (Ok a, s1)
  | (Err e, s1) => (Err e, mark_rollback s1)
  end.

Definition link_new_event_receipt (sl si ri : string) : M Store EdgeRecord :=
  lift (require_id si);;
  lift (require_id ri);;
  active ← gets tx;
  proof ← lift (match active with
      | None => Err (StorageUnavailable "fresh receipt claim required")
      | Some t =>
          match fresh_receipt_claims t !! ri with
          | None => Err (StorageUnavailable "fresh receipt claim required")
          | Some c =>
              if bool_decide (claim_tx c = tx_token t)
                 && bool_decide (claim_label c = Some (VStr sl)) && bool_decide (claim_id c = Some (VStr si))
              then Ok c else Err (StorageUnavailable "fresh receipt claim required")
          end
      end);
  edge ← or_rollback (
    ok ← gets (fresh_endpoints_ok sl si ri proof);
    guard_raise (negb ok) (StorageUnavailable "fresh receipt endpoints unavailable");;
    create_edge sl si "EMITTED_EVENT" "EventReceipt" ri ∅);
  modify (drop_claim ri);;
  mret edge.

(** ** Inspection *)

Definition inspect_node (n : NodeRecord) : res unit :=
  if str_in (nr_label n) CANONICAL_WORK_KINDS then
    raise_if (negb (bool_decide (nr_properties n !! "kind" = Some (VStr (nr_label n))))) (ValueError "kind");;
    validate_canonical_work_object_properties (nr_label n) (nr_id n) (nr_properties n) (nr_archived n) true;;
    Ok tt
  else Ok tt.

Definition inspect_canonical_persistence (s : Store) : res unit :=
  rethrow (λ e, is_value_error e || is_type_error e)
    (λ _, StorageUnavailable "malformed canonical persistence")
    (res_mapM inspect_node (map_to_list (nodes s)).*2;; Ok tt).

(** [HealthStatus(live, ready)]. *)
Definition health (s : Store) : bool * bool := (true, true).

End storage.
