(* ===== verification/StorageWf.v ===== *)
(** * The storage invariant

    Every record sits under its own key and satisfies the canonical
    constraints, every edge has both endpoints and is stored once, and every
    node has an identity of its own.  All mutating methods of
    [src/devgraph/storage/memory.py] keep this, alone and in transactions. *)

From stdpp Require Import base gmap strings list sorting.
From Stdlib Require Import ZArith Ascii String.
From S2P Require Import Prelude Json Datetime Validation WorkflowContract Model Storage.

Local Open Scope Z_scope.

Section wf.
  Context {PY : Pydantic} {PL : PydanticLaws} {CK : Clock}.

(** ** The invariant *)

(** [loose] are keys whose records are exempt from the canonical constraints: the
    storage checks a node with a Work label only when its properties have a kind. *)
Record node_wf (loose : list key) (k : key) (n : NodeRecord) : Prop := {
  nw_key : nr_key n = k;
  nw_id : _ID_PATTERN k.2 = true;
  nw_canonical : k ∉ loose → str_in k.1 CANONICAL_WORK_KINDS = true →
    canonical_props false k.1 k.2 (nr_archived n) (restrict KNOWN_PROPERTIES (nr_properties n))
}.

Definition edge_wf (ns : gmap key NodeRecord) (e : EdgeRecord) : Prop :=
  is_Some (ns !! edge_from e) ∧ is_Some (ns !! edge_to e).

Record wf_except (loose : list key) (s : Store) : Prop := {
  sw_nodes : map_Forall (node_wf loose) (nodes s);
  sw_edges : Forall (edge_wf (nodes s)) (edges s);
  sw_nodup : NoDup (edges s);
  sw_refs : dom (refs s) = dom (nodes s);
  sw_fresh k r : refs s !! k = Some r → (r < next_ref s)%nat;
  sw_identity k k' r : refs s !! k = Some r → refs s !! k' = Some r → k = k'
}.
Arguments nw_key {_}.
Arguments nw_id {_}.
Arguments nw_canonical {_}.
Arguments sw_nodes {_}.
Arguments sw_edges {_}.
Arguments sw_nodup {_}.
Arguments sw_refs {_}.
Arguments sw_fresh {_}.
Arguments sw_identity {_}.

Notation store_wf := (wf_except []).

(** ** Calls and runs *)

Inductive call : Type :=
  | call_create_node (label node_id : string) (p : props)
  | call_update_node (label node_id : string) (p : props)
  | call_archive_node (label node_id : string) (p : option props)
  | call_restore_node (label node_id : string) (p : props)
  | call_create_edge (fl fi rel tl ti : string) (p : props)
  | call_delete_edge (fl fi rel tl ti : string)
  | call_apply_constraints (statements : list string)
  | call_claim_event_receipt (node_id digest : string) (p : props)
  | call_link_new_event_receipt (sl si ri : string)
  | call_transaction (body : list call).

(** Run a call and drop its result; a transaction body stops at its first error. *)
Fixpoint run_call (c : call) : M Store unit :=
  match c with
  | call_create_node l i p => create_node l i p;; mret tt
  | call_update_node l i p => update_node l i p;; mret tt
  | call_archive_node l i p => archive_node l i p;; mret tt
  | call_restore_node l i p => restore_node l i p;; mret tt
  | call_create_edge fl fi r tl ti p => create_edge fl fi r tl ti p;; mret tt
  | call_delete_edge fl fi r tl ti => delete_edge fl fi r tl ti
  | call_apply_constraints l => apply_constraints l;; mret tt
  | call_claim_event_receipt i d p => claim_event_receipt i d p;; mret tt
  | call_link_new_event_receipt sl si ri => link_new_event_receipt sl si ri;; mret tt
  | call_transaction body =>
      transaction ((fix go l := match l with [] => mret tt | c :: l' => run_call c;; go l' end) body)
  end.

(** The keys under which a call creates a node with a Work label and no kind; the
    repositories never do, their properties name the kind. *)
Fixpoint kindless (c : call) : list key :=
  match c with
  | call_create_node l i p =>
      if str_in l CANONICAL_WORK_KINDS && bool_decide (p !! "kind" = None) then [(l, i)] else []
  | call_transaction body => mjoin (map kindless body)
  | _ => []
  end.

Definition kindless_keys (cs : list call) : list key := mjoin (map kindless cs).

(** Runs one call after the other; an error is the caller's to catch. *)
Definition run_calls (cs : list call) (s : Store) : Store := foldl (λ s c, (run_call c s).2) s cs.

(** ** Preservation *)

(** Peel a program that writes at its last step only. *)
Ltac peel :=
  unfold mbind, M_bind, lift, gets, guard_raise, reads, raise, mret, M_ret, modify;
  repeat (case_match; simplify_eq; try done); intros; by simplify_eq.

Section preservation.
  Context {loose : list key}.

Definition keeps_on {A} (m : M Store A) : Prop :=
  ∀ s, wf_except loose s → wf_except loose (m s).2 ∧ (next_ref s ≤ next_ref (m s).2)%nat.

Lemma empty_store_wf : wf_except loose empty_store.
Proof. constructor; simpl; try done; try apply map_Forall_empty; constructor. Qed.

Lemma keeps_id {A} (f : Store → res A) : keeps_on (reads f).
Proof. intros s Hs. done. Qed.

Lemma keeps_bind {A B} (m : M Store A) (k : A → M Store B) :
  keeps_on m → (∀ a, keeps_on (k a)) → keeps_on (m ≫= k).
Proof.
  intros Hm Hk s Hs. unfold mbind, M_bind. destruct (Hm s Hs) as [H1 H2].
  destruct (m s) as [[a|e] s1]; simpl in *; [|done]. destruct (Hk a s1 H1). split; [done|lia].
Qed.

Lemma put_node_wf k n s : wf_except loose s → node_wf loose k n → wf_except loose (put_node k n s).
Proof.
  intros [Hn He Hd Hr Hf Hi] Hk. constructor; simpl.
  - by apply map_Forall_insert_2.
  - eapply Forall_impl; [exact He|]. intros e [??]. split; simpl; rewrite lookup_insert_is_Some'; auto.
  - done.
  - by rewrite !dom_insert_L, Hr.
  - intros k' r. rewrite lookup_insert_Some. intros [[_ <-]|[_ ?%Hf]]; lia.
  - intros k1 k2 r. rewrite !lookup_insert_Some.
    intros [[<- <-]|[? H1]] [[<- ?]|[? H2]]; eauto.
    + apply Hf in H2. lia.
    + subst. apply Hf in H1. lia.
Qed.

Lemma tx_irrelevant t s : wf_except loose s → wf_except loose (set_tx t s).
Proof. intros []. by constructor. Qed.

Lemma keeps_put k n s : wf_except loose s → node_wf loose k n →
  wf_except loose (put_node k n s) ∧ (next_ref s ≤ next_ref (put_node k n s))%nat.
Proof. intros. split; [by apply put_node_wf|]. simpl. lia. Qed.

Lemma known_content label a p :
  content_facts label a (restrict KNOWN_PROPERTIES p) → p !! "kind" = Some (VStr label).
Proof. intros Hc. rewrite <-(cf_kind _ _ _ Hc). by rewrite restrict_lookup by (by apply str_in_spec). Qed.

Lemma optional_weaken label c : optional_facts true label c → optional_facts false label c.
Proof.
  intros [Hw Hs Hp Hr Hm]. constructor; try done. intros v Hv. destruct (Hp v Hv) as (s&->&Hs').
  exists s. split; [done|]. unfold validate_progress in *. destruct (Progress_of s); done.
Qed.

Lemma canonical_weaken label i a c : canonical_props true label i a c → canonical_props false label i a c.
Proof. intros []. constructor; eauto using optional_weaken. Qed.

Lemma validated label i p a allow c :
  validate_canonical_work_object_properties label i p a allow = Ok c →
  c = restrict KNOWN_PROPERTIES p ∧ canonical_props false label i a (restrict KNOWN_PROPERTIES p).
Proof. intros (->&_&Hc)%validate_canonical_inv. eauto using canonical_weaken. Qed.

Lemma malformed_Ok {A} (r : res A) a : malformed r = Ok a ↔ r = Ok a.
Proof. apply rethrow_Ok. Qed.

Lemma create_node_keeps label i p :
  ((label, i) ∉ loose → str_in label CANONICAL_WORK_KINDS = true → is_Some (p !! "kind")) → keeps_on (create_node label i p).
Proof.
  intros Hk s Hs. destruct (create_node label i p s) as [[n|e] s'] eqn:E; simpl.
  - unfold create_node in E. minv. apply keeps_put; [done|]. constructor; simpl; [done| |].
    + by apply require_id_Ok in E as [_ ?].
    + intros Hout Hl. specialize (Hk Hout). unfold _is_canonical_payload in *. rewrite Hl in *.
      rewrite bool_decide_true in * by auto. simpl in *.
      match goal with H : malformed _ = _ |- _ => apply malformed_Ok, validated in H as [-> ?] end.
      by rewrite restrict_restrict.
  - enough (s' = s) as -> by done. revert E. unfold create_node. peel.
Qed.

(** Merging validated properties into a validated record keeps_on the constraints;
    only the agreement of progress and stage may be lost. *)
Lemma restrict_union names p q : restrict names (p ∪ q) = restrict names p ∪ restrict names q.
Proof.
  apply map_eq. intros k. rewrite lookup_union. destruct (decide (k ∈ names)) as [Hk|Hk].
  - by rewrite !restrict_lookup, lookup_union by done.
  - assert (∀ r, restrict names r !! k = None) as Hn.
    { intros r. unfold restrict. apply map_lookup_filter_None. by right. }
    by rewrite !Hn.
Qed.

Lemma content_merge label a b c d : content_facts label a c →
  ((c ∪ d) !! "progress_schema" = None → c !! "status" = Some (VStr "archived") ↔ b = true) →
  content_facts label b (c ∪ d).
Proof.
  intros [Hk [t Ht] [e He] (st&Hst&_) [cr Hcr] [up Hup] (v&Hv&?) (p&Hp&?) (al&Hal&?) (ll&Hll&?)] Hb.
  assert (∀ k x, c !! k = Some x → (c ∪ d) !! k = Some x) as Hu by (intros; by apply lookup_union_Some_l).
  assert (∀ k x, canonical_timestamp (c !! k) = Ok x → canonical_timestamp ((c ∪ d) !! k) = Ok x) as Hts.
  { intros k x. destruct (c !! k) as [w|] eqn:Ek; [|done]. by rewrite (Hu _ _ Ek). }
  constructor; eauto. exists st. split; [by apply Hu|]. intros Hn%Hb. rewrite Hst in Hn.
  destruct st, b; simpl in *; try done; naive_solver.
Qed.

Lemma optional_merge label c d :
  optional_facts false label c → optional_facts false label d → optional_facts false label (c ∪ d).
Proof.
  intros [Hw Hs Hp Hr Hm] [Hw' Hs' Hp' Hr' Hm'].
  constructor; try (intros v [?|[? ?]]%lookup_union_Some_raw; eauto).
  rewrite !lookup_union. destruct Hs as [(->&->&->)|[-> ?]]; [|right; split; [by destruct (d !! "progress_schema")|done]].
  destruct Hs' as [(->&->&->)|[-> ?]]; [by left|by right].
Qed.

Lemma canonical_merge label i a a' b c d :
  canonical_props false label i a c → canonical_props false label i a' d →
  ((c ∪ d) !! "progress_schema" = None → c !! "status" = Some (VStr "archived") ↔ b = true) →
  canonical_props false label i b (c ∪ d).
Proof. intros [] [] ?. constructor; eauto using content_merge, optional_merge. Qed.

Lemma require_node_Ok label i s n :
  _require_node label i s = Ok n → nodes s !! (label, i) = Some n.
Proof. unfold _require_node, get_node. intros. minv. congruence. Qed.

Lemma known_lookup p k : str_in k KNOWN_PROPERTIES = true → restrict KNOWN_PROPERTIES p !! k = p !! k.
Proof. intros. by apply restrict_lookup, str_in_spec. Qed.

Lemma schema_truthy label p : optional_facts false label (restrict KNOWN_PROPERTIES p) →
  opt_truthy (p !! "progress_schema") = bool_decide (is_Some (p !! "progress_schema")).
Proof.
  intros Ho. destruct (of_schema _ _ _ Ho) as [(Hn&_)|[Hn _]];
    rewrite known_lookup in Hn by done; by rewrite Hn.
Qed.

(** The record [update_node] writes. *)
Lemma update_node_Ok label i p s n s' : update_node label i p s = (Ok n, s') →
  ∃ old np, nodes s !! (label, i) = Some old ∧ s' = put_node (label, i) n s
    ∧ nr_label n = nr_label old ∧ nr_id n = nr_id old ∧ nr_properties n = np ∪ nr_properties old
    ∧ let canonical := _is_canonical_payload label (nr_properties old) || _is_canonical_payload label p in
      nr_archived n = nr_archived old
        || (canonical && status_is_archived np && negb (status_is_archived (nr_properties old)))
    ∧ (canonical = true → nr_archived old = false
        ∧ status_is_archived (nr_properties old) && negb (opt_truthy (nr_properties old !! "progress_schema")) = false
        ∧ ∃ cur, validate_canonical_work_object_properties label i (nr_properties old) false true = Ok cur
        ∧ validate_canonical_work_object_properties label i p
            (if opt_truthy (p !! "progress_schema") then false else status_is_archived p) false = Ok np
        ∧ np !! "created_at" = cur !! "created_at"
        ∧ get_int (prop np "version") = get_int (prop cur "version") + 1)
    ∧ (canonical = false → np = p).
Proof.
  unfold update_node. intros E. minv.
  match goal with H : _require_node _ _ _ = Ok ?r, H' : (if _ then _ else _) = Ok ?q |- _ =>
    apply require_node_Ok in H as Hold; rename r into old, q into np end.
  exists old, np. do 5 (split; [done|]). cbv zeta. split; [done|].
  destruct (_is_canonical_payload label (nr_properties old) || _is_canonical_payload label p) eqn:Ec;
    [|by split; [|intros _; minv]].
  split; [intros _|done]. minv. cbn [andb] in *. bools.
  repeat match goal with H : malformed _ = _ |- _ => apply (proj1 (malformed_Ok _ _)) in H end.
  match goal with H : nr_archived old = false |- _ => rename H into Hfa end.
  match goal with H : validate_canonical_work_object_properties _ _ _ (nr_archived old) _ = _ |- _ =>
    rewrite Hfa in H end.
  match goal with H : validate_canonical_work_object_properties _ _ p _ _ = _ |- _ => rewrite Hfa in H end.
  subst.
  split; [done|]. split; [done|]. eexists. split_and!; done.
Qed.

Lemma update_node_keeps label i p : keeps_on (update_node label i p).
Proof.
  intros s Hs. destruct (update_node label i p s) as [[n|e] s'] eqn:E; simpl.
  - apply update_node_Ok in E as (old&np&Hold&->&Hl&Hi&Hp&Ha&Hc&Hnc).
    pose proof (sw_nodes s Hs _ _ Hold) as [Hk Hid Hcan]. apply keeps_put; [done|].
    constructor; [unfold nr_key in *; congruence|done|]. simpl in *. intros Hout Hlab.
    rewrite Hp, restrict_union. specialize (Hcan Hout Hlab).
    assert (_is_canonical_payload label (nr_properties old) = true) as Hpay.
    { unfold _is_canonical_payload. rewrite Hlab. simpl. apply bool_decide_eq_true.
      by rewrite (known_content _ _ _ (cp_content _ _ _ _ _ Hcan)). }
    rewrite Hpay in *. simpl in *. destruct (Hc eq_refl) as (Hfa&Hst&cur&Hcur&Hnp&_). clear Hc Hnc.
    apply validated in Hnp as [-> Hnp]. rewrite restrict_restrict. eapply canonical_merge; [done|done|].
    intros Hn. rewrite Ha, Hfa. simpl.
    rewrite lookup_union, !known_lookup in Hn by done. rewrite known_lookup by done.
    assert (nr_properties old !! "progress_schema" = None) as Hn2 by (by destruct (p !! _), (nr_properties old !! _)).
    rewrite Hn2 in Hst. simpl in Hst. rewrite andb_true_r in Hst. rewrite Hst. simpl.
    rewrite andb_true_r. unfold status_is_archived. rewrite known_lookup by done.
    by rewrite bool_decide_eq_true.
  - enough (s' = s) as -> by done. revert E. unfold update_node. peel.
Qed.

Lemma canonical_payload_wf label i n s : wf_except loose s → nodes s !! (label, i) = Some n →
  (label, i) ∉ loose → str_in label CANONICAL_WORK_KINDS = true → _is_canonical_payload label (nr_properties n) = true.
Proof.
  intros Hs Hn Hout Hl. pose proof (nw_canonical _ _ (sw_nodes s Hs _ _ Hn) Hout Hl) as Hc.
  unfold _is_canonical_payload. rewrite Hl. simpl. apply bool_decide_eq_true.
  by rewrite (known_content _ _ _ (cp_content _ _ _ _ _ Hc)).
Qed.

(** The record [archive_node] writes, when it writes one. *)
Lemma archive_node_Ok label i p s n s' : archive_node label i p s = (Ok n, s') →
  ∃ old, nodes s !! (label, i) = Some old ∧
    ((n = old ∧ s' = s ∧ p = None ∧ nr_archived old = true) ∨
     (s' = put_node (label, i) n s ∧ nr_label n = nr_label old ∧ nr_id n = nr_id old
      ∧ nr_archived n = true
      ∧ (_is_canonical_payload label (nr_properties old)
           || match p with Some q => _is_canonical_payload label q | None => false end = true →
         nr_archived old = false
         ∧ match p with
           | None => nr_properties n = nr_properties old
               ∧ is_ok (validate_canonical_work_object_properties label i (nr_properties n) true true) = true
           | Some q => archive_canonical label i (nr_properties old) q = Ok (nr_properties n)
           end))).
Proof.
  unfold archive_node. intros E. minv.
  match goal with H : _require_node _ _ _ = Ok ?r |- _ =>
    apply require_node_Ok in H as Hold; rename r into old end.
  exists old. split; [done|].
  destruct (_is_canonical_payload label (nr_properties old) || _) eqn:Ec.
  - destruct (nr_archived old) eqn:Ea; cbn [andb] in *.
    + destruct p; minv. by left.
    + minv. right. split_and!; try done. intros _. split; [done|]. simpl.
      destruct p; minv; [congruence|]. split; [done|]. subst.
      match goal with H : malformed _ = _ |- _ => apply (proj1 (malformed_Ok _ _)) in H; rewrite H end. done.
  - cbn [andb] in *. minv. right. by split_and!.
Qed.

Lemma archive_canonical_Ok label i ep q c : archive_canonical label i ep q = Ok c →
  validate_canonical_work_object_properties label i q true false = Ok c
  ∧ c !! "created_at" = ep !! "created_at"
  ∧ (∃ z, ep !! "version" = Some (VInt z) ∧ c !! "version" = Some (VInt (z + 1))).
Proof.
  unfold archive_canonical. intros Hc. minv. subst. bools.
  match goal with H : malformed _ = _ |- _ => apply (proj1 (malformed_Ok _ _)) in H end.
  split; [done|]. split; [done|].
  destruct (ep !! "version") as [[]|], (c !! "version") as [[]|]; try done. bools. naive_solver.
Qed.

Lemma archive_node_keeps label i p : keeps_on (archive_node label i p).
Proof.
  intros s Hs. destruct (archive_node label i p s) as [[n|e] s'] eqn:E; simpl.
  - apply archive_node_Ok in E as (old&Hold&[(->&->&_)|(->&Hl&Hi&Ha&Hc)]); [done|].
    pose proof (sw_nodes s Hs _ _ Hold) as [Hk Hid Hcan]. apply keeps_put; [done|].
    constructor; [unfold nr_key in *; congruence|done|]. simpl in *. intros Hout Hlab.
    rewrite (canonical_payload_wf _ _ _ _ Hs Hold Hout Hlab) in Hc. destruct (Hc eq_refl) as [_ Hp].
    rewrite Ha. destruct p as [q|].
    + apply archive_canonical_Ok in Hp as [Hv _]. apply validated in Hv as [-> Hv].
      by rewrite restrict_restrict.
    + destruct Hp as [_ [c Hv%validated]%is_ok_spec]. naive_solver.
  - enough (s' = s) as -> by done. revert E. unfold archive_node. peel.
Qed.

Lemma restore_node_Ok label i p s n s' : restore_node label i p s = (Ok n, s') →
  ∃ old c z, nodes s !! (label, i) = Some old ∧ s' = put_node (label, i) n s
    ∧ n = Node label i (c ∪ nr_properties old) false ∧ nr_archived old = true
    ∧ validate_canonical_work_object_properties label i p false false = Ok c
    ∧ c !! "progress_schema" = Some (VInt 1)
    ∧ c !! "created_at" = nr_properties old !! "created_at"
    ∧ next_version (nr_properties old) = Ok z ∧ get_int (prop c "version") = z.
Proof.
  unfold restore_node. intros E. minv. apply require_node_Ok in E. bools. eexists _, _, _.
  split_and!; try done. congruence.
Qed.

Lemma restore_node_keeps label i p : keeps_on (restore_node label i p).
Proof.
  intros s Hs. destruct (restore_node label i p s) as [[n|e] s'] eqn:E; simpl.
  - apply restore_node_Ok in E as (old&c&z&Hold&->&->&Ha&Hv&Hsch&_).
    pose proof (sw_nodes s Hs _ _ Hold) as [Hk Hid Hcan]. apply keeps_put; [done|].
    constructor; [done|done|]. simpl in *. intros Hout Hlab. apply validated in Hv as [-> Hv].
    rewrite restrict_union, restrict_restrict. eapply canonical_merge; [done|by apply Hcan|].
    intros Hn. rewrite lookup_union, Hsch in Hn. by apply union_None in Hn as [? _].
  - enough (s' = s) as -> by done. revert E. unfold restore_node. peel.
Qed.

Lemma create_edge_keeps fl fi r tl ti p : keeps_on (create_edge fl fi r tl ti p).
Proof.
  intros s Hs. destruct (create_edge fl fi r tl ti p s) as [[n|e] s'] eqn:E; simpl.
  - unfold create_edge in E. minv. bools. case_decide as He; [done|]. split; [|done].
    destruct Hs as [Hn Hed Hd Hr Hf Hi]. constructor; simpl; try done.
    + apply Forall_app. split; [done|]. constructor; [|done].
      unfold edge_wf, edge_from, edge_to. simpl. rewrite <-!not_eq_None_Some. done.
    + apply NoDup_app. split_and!; [done| |apply NoDup_singleton]. set_solver.
  - enough (s' = s) as -> by done. revert E. unfold create_edge. peel.
Qed.

Lemma delete_edge_keeps fl fi r tl ti : keeps_on (delete_edge fl fi r tl ti).
Proof.
  intros s [Hn Hed Hd Hr Hf Hi]. split; [|done]. constructor; simpl; try done.
  - apply Forall_forall. intros e [_ He]%list_elem_of_filter. by eapply Forall_forall in Hed.
  - by apply NoDup_filter.
Qed.

Lemma apply_constraints_keeps l : keeps_on (apply_constraints l).
Proof. intros s []. split; [|done]. by constructor. Qed.

Lemma set_tx_keeps (f : Store → option Tx) : keeps_on (modify (λ s, set_tx (f s) s)).
Proof. intros s Hs. split; [by apply tx_irrelevant|done]. Qed.

Lemma note_claim_keeps n p : keeps_on (modify (note_claim n p)).
Proof. intros s Hs. unfold modify, note_claim. simpl. case_match; [split; [by apply tx_irrelevant|done]|done]. Qed.

Lemma drop_claim_keeps ri : keeps_on (modify (drop_claim ri)).
Proof. intros s Hs. unfold modify, drop_claim. simpl. case_match; [split; [by apply tx_irrelevant|done]|done]. Qed.

Lemma or_rollback_keeps {A} (m : M Store A) : keeps_on m → keeps_on (or_rollback m).
Proof.
  intros Hm s Hs. destruct (Hm s Hs) as [H1 H2]. unfold or_rollback.
  destruct (m s) as [[a|e] s1]; simpl in *; [done|]. unfold mark_rollback.
  case_match; [split; [by apply tx_irrelevant|done]|done].
Qed.

Lemma claim_event_receipt_keeps i d p : keeps_on (claim_event_receipt i d p).
Proof.
  unfold claim_event_receipt. apply keeps_bind; [by destruct (negb _); intros s Hs|intros _].
  apply keeps_bind; [done|]. intros [|n [|n' l]]; [|done..].
  apply keeps_bind; [by apply create_node_keeps|]. intros n.
  apply keeps_bind; [apply note_claim_keeps|done].
Qed.

Lemma link_new_event_receipt_keeps sl si ri : keeps_on (link_new_event_receipt sl si ri).
Proof.
  unfold link_new_event_receipt. do 2 (apply keeps_bind; [done|intros ?]).
  apply keeps_bind; [done|intros t]. apply keeps_bind; [done|intros c].
  apply keeps_bind.
  - apply or_rollback_keeps. apply keeps_bind; [done|intros b].
    apply keeps_bind; [by destruct b; intros s Hs|intros _]. apply create_edge_keeps.
  - intros e. apply keeps_bind; [apply drop_claim_keeps|done].
Qed.

Lemma transaction_keeps {A} (m : M Store A) : keeps_on m → keeps_on (transaction m).
Proof.
  intros Hm s Hs. unfold transaction.
  set (s0 := if bool_decide (tx s = None) then begin_tx s else s).
  assert (wf_except loose s0 ∧ next_ref s0 = next_ref s) as [Hs0 Hn].
  { unfold s0. case_match; [|done]. split; [|done]. destruct Hs. by constructor. }
  destruct (Hm s0 Hs0) as [H1 H2]. destruct (m s0) as [r s1]. simpl in *.
  assert (wf_except loose (restore_snapshot s0 s1)) as Hres.
  { destruct Hs0 as [? ? ? ? Hf ?]. constructor; simpl; try done. intros k r' ?%Hf. lia. }
  assert (∀ s2, wf_except loose s2 → (next_ref s1 ≤ next_ref s2)%nat →
    wf_except loose (if bool_decide (tx s = None) then set_tx None s2 else s2)
    ∧ (next_ref s ≤ next_ref (if bool_decide (tx s = None) then set_tx None s2 else s2))%nat) as Hclose.
  { intros s2 Hs2 Hle. case_match; simpl; (split; [by try apply tx_irrelevant|lia]). }
  destruct r as [a|e]; [destruct (is_rollback_only s1)|]; simpl; by apply Hclose.
Qed.

Lemma drop_result_keeps {A} (m : M Store A) : keeps_on m → keeps_on (m;; mret tt).
Proof. intros Hm. apply keeps_bind; [done|]. by intros a s Hs. Qed.

Lemma keeps_same {A} (m : M Store A) : (∀ s, (m s).2 = s) → keeps_on m.
Proof. intros Hm s Hs. by rewrite Hm. Qed.

Lemma keeps_guard b e : keeps_on (guard_raise b e).
Proof. by apply keeps_same; destruct b. Qed.

Lemma keeps_clock : keeps_on utc_now.
Proof. intros s Hs. split; [|done]. destruct Hs. by constructor. Qed.

Lemma keeps_rethrow {A} p f (m : M Store A) : keeps_on m → keeps_on (M_rethrow p f m).
Proof. intros Hm s Hs. unfold M_rethrow. pose proof (Hm s Hs). by destruct (m s) as [[?|e] ?]. Qed.

Lemma keeps_mapM {A B} (f : A → M Store B) l : (∀ x, keeps_on (f x)) → keeps_on (M_mapM f l).
Proof.
  intros Hf. induction l as [|x l IH]; [by apply keeps_same|]. simpl.
  apply keeps_bind; [done|intros y]. apply keeps_bind; [done|]. intros ys. by apply keeps_same.
Qed.

Lemma keeps_iter {A} (f : A → M Store unit) l : (∀ x, keeps_on (f x)) → keeps_on (M_iter f l).
Proof.
  intros Hf. induction l as [|x l IH]; [by apply keeps_same|]. simpl. by apply keeps_bind; [done|intros _].
Qed.

End preservation.

Notation keeps := (keeps_on (loose := [])).

Lemma wf_except_mono l l' s : (∀ k, k ∈ l → k ∈ l') → wf_except l s → wf_except l' s.
Proof.
  intros Hl [Hn He Hd Hr Hf Hi]. constructor; try done. intros k n Hk. destruct (Hn k n Hk) as [? ? Hc].
  constructor; [done..|]. intros Hout. apply Hc. auto.
Qed.

Fixpoint run_call_keeps {loose} (c : call) : (∀ k, k ∈ kindless c → k ∈ loose) → keeps_on (loose := loose) (run_call c).
Proof.
  destruct c as [l i p|l i p|l i p|l i p|fl fi r tl ti p|fl fi r tl ti|l|i d p|sl si ri|body];
    intros Hok; cbn [run_call].
  - apply drop_result_keeps, create_node_keeps. intros Hout Hl. cbn [kindless] in Hok. rewrite Hl in Hok.
    destruct (p !! "kind") as [v|]; [done|]. destruct Hout. apply Hok. by left.
  - apply drop_result_keeps, update_node_keeps.
  - apply drop_result_keeps, archive_node_keeps.
  - apply drop_result_keeps, restore_node_keeps.
  - apply drop_result_keeps, create_edge_keeps.
  - apply delete_edge_keeps.
  - apply drop_result_keeps, apply_constraints_keeps.
  - apply drop_result_keeps, claim_event_receipt_keeps.
  - apply drop_result_keeps, link_new_event_receipt_keeps.
  - apply transaction_keeps. cbn [kindless] in Hok.
    induction body as [|c body IH]; [by intros s Hs|]. cbn [map mjoin] in Hok.
    apply keeps_bind; [apply run_call_keeps; intros k Hk; apply Hok, elem_of_app; by left|].
    intros _. apply IH. intros k Hk. apply Hok, elem_of_app. by right.
Qed.

Lemma run_calls_keeps loose cs s :
  (∀ k, k ∈ kindless_keys cs → k ∈ loose) → wf_except loose s → wf_except loose (run_calls cs s).
Proof.
  unfold run_calls, kindless_keys. revert s. induction cs as [|c cs IH]; intros s Hok Hs; [done|]. cbn [map mjoin foldl] in *.
  apply IH; [intros k Hk; apply Hok, elem_of_app; by right|].
  apply run_call_keeps; [intros k Hk; apply Hok, elem_of_app; by left|done].
Qed.

(** ** Transactions *)

Lemma transaction_Err {A} (m : M Store A) s e s' : transaction m s = (Err e, s') →
  nodes s' = nodes s ∧ refs s' = refs s ∧ edges s' = edges s
  ∧ applied_constraints s' = applied_constraints s ∧ tx s' = tx s.
Proof.
  unfold transaction. destruct (tx s) eqn:Et.
  - rewrite bool_decide_false by done.
    destruct (m s) as [[a|e'] s1]; [destruct (is_rollback_only s1)|]; intros [= <- <-]; by simpl.
  - rewrite bool_decide_true by done.
    destruct (m (begin_tx s)) as [[a|e'] s1]; [destruct (is_rollback_only s1)|]; intros [= <- <-]; by simpl.
Qed.

Lemma transaction_Ok {A} (m : M Store A) s a s' : transaction m s = (Ok a, s') ↔
  ∃ s1, m (if bool_decide (tx s = None) then begin_tx s else s) = (Ok a, s1)
    ∧ is_rollback_only s1 = false
    ∧ s' = if bool_decide (tx s = None) then set_tx None s1 else s1.
Proof.
  unfold transaction. destruct (m _) as [[b|e'] s1].
  - destruct (is_rollback_only s1) eqn:Er; split; try done.
    + intros (?&?&?&?). congruence.
    + intros [= <- <-]. eauto.
    + intros (?&?&?&?). by simplify_eq.
  - split; [done|]. intros (?&?&?&?). congruence.
Qed.

(** A set [rollback_only] flag survives every later call. *)
Definition sticky {A} (m : M Store A) : Prop :=
  ∀ s, is_rollback_only s = true → is_rollback_only (m s).2 = true.

Lemma sticky_bind {A B} (m : M Store A) (k : A → M Store B) :
  sticky m → (∀ a, sticky (k a)) → sticky (m ≫= k).
Proof.
  intros Hm Hk s Hs. unfold mbind, M_bind. specialize (Hm s Hs).
  destruct (m s) as [[a|e] s1]; simpl in *; [by apply Hk|done].
Qed.

Lemma sticky_tx {A} (m : M Store A) : (∀ s, tx (m s).2 = tx s) → sticky m.
Proof. intros Hm s Hs. unfold is_rollback_only in *. by rewrite Hm. Qed.

Lemma sticky_transaction {A} (m : M Store A) : sticky m → sticky (transaction m).
Proof.
  intros Hm s Hs. unfold transaction. unfold is_rollback_only in Hs.
  destruct (tx s) as [t|] eqn:Et; [|done]. rewrite bool_decide_false by done.
  assert (is_rollback_only s = true) as Hr by (unfold is_rollback_only; by rewrite Et).
  specialize (Hm s Hr). destruct (m s) as [[a|e] s1]; simpl in *; [rewrite Hm|];
    simpl; unfold is_rollback_only; simpl; by rewrite Et.
Qed.

Lemma create_node_tx l i p s : tx (create_node l i p s).2 = tx s.
Proof. unfold create_node. peel. Qed.

Lemma update_node_tx l i p s : tx (update_node l i p s).2 = tx s.
Proof. unfold update_node. peel. Qed.

Lemma archive_node_tx l i p s : tx (archive_node l i p s).2 = tx s.
Proof. unfold archive_node. peel. Qed.

Lemma restore_node_tx l i p s : tx (restore_node l i p s).2 = tx s.
Proof. unfold restore_node. peel. Qed.

Lemma create_edge_tx fl fi r tl ti p s : tx (create_edge fl fi r tl ti p s).2 = tx s.
Proof. unfold create_edge. peel. Qed.

Lemma sticky_set_tx (f : Store → Store) :
  (∀ s, is_rollback_only s = true → is_rollback_only (f s) = true) → sticky (modify f).
Proof. intros Hf s Hs. by apply Hf. Qed.

Lemma note_claim_sticky n p : sticky (modify (note_claim n p)).
Proof. apply sticky_set_tx. unfold is_rollback_only, note_claim. intros s. by destruct (tx s). Qed.

Lemma drop_claim_sticky ri : sticky (modify (drop_claim ri)).
Proof. apply sticky_set_tx. unfold is_rollback_only, drop_claim. intros s. by destruct (tx s). Qed.

Lemma claim_sticky i d p : sticky (claim_event_receipt i d p).
Proof.
  unfold claim_event_receipt. apply sticky_bind; [by destruct (negb _); intros s Hs|intros _].
  apply sticky_bind; [by apply sticky_tx|]. intros [|n [|n' l]]; [|by apply sticky_tx..].
  apply sticky_bind; [apply sticky_tx, create_node_tx|]. intros n.
  apply sticky_bind; [apply note_claim_sticky|by intros; apply sticky_tx].
Qed.

Lemma or_rollback_sticky {A} (m : M Store A) : sticky m → sticky (or_rollback m).
Proof.
  intros Hm s Hs. specialize (Hm s Hs). unfold or_rollback.
  destruct (m s) as [[a|e] s1]; simpl in *; [done|].
  unfold mark_rollback, is_rollback_only in *. by destruct (tx s1).
Qed.

Lemma link_sticky sl si ri : sticky (link_new_event_receipt sl si ri).
Proof.
  unfold link_new_event_receipt. do 4 (apply sticky_bind; [by apply sticky_tx|intros ?]).
  apply sticky_bind; [|intros e; apply sticky_bind; [apply drop_claim_sticky|by intros; apply sticky_tx]].
  apply or_rollback_sticky. apply sticky_bind; [by apply sticky_tx|intros b].
  apply sticky_bind; [by destruct b; intros s' Hs'|intros _]. apply sticky_tx, create_edge_tx.
Qed.

Fixpoint run_call_sticky (c : call) : sticky (run_call c).
Proof.
  destruct c as [l i p|l i p|l i p|l i p|fl fi r tl ti p|fl fi r tl ti|l|i d p|sl si ri|body]; cbn [run_call];
    try (apply sticky_bind; [|by intros; apply sticky_tx]).
  - apply sticky_tx, create_node_tx.
  - apply sticky_tx, update_node_tx.
  - apply sticky_tx, archive_node_tx.
  - apply sticky_tx, restore_node_tx.
  - apply sticky_tx, create_edge_tx.
  - by apply sticky_tx.
  - by apply sticky_tx.
  - apply claim_sticky.
  - apply link_sticky.
  - apply sticky_transaction. induction body as [|c body IH]; [by apply sticky_tx|]. apply sticky_bind; [done|]. by intros _.
Qed.

Lemma run_calls_sticky cs s : is_rollback_only s = true → is_rollback_only (run_calls cs s) = true.
Proof.
  unfold run_calls. revert s. induction cs as [|c cs IH]; intros s Hs; [done|].
  simpl. by apply IH, run_call_sticky.
Qed.

(** ** Receipts *)

Lemma nodes_perm (k : key) (n : NodeRecord) (m : gmap key NodeRecord) : m !! k = None →
  (map_to_list (<[k := n]> m)).*2 ≡ₚ n :: (map_to_list m).*2.
Proof. intros Hk. by rewrite map_to_list_insert. Qed.

Lemma receipts_with_fresh name d n s k : nodes s !! k = None → receipts_with name d s = [] →
  nr_label n = "EventReceipt" → nr_properties n !! name = Some (VStr d) →
  receipts_with name d (put_node k n s) = [n].
Proof.
  intros Hk Hr Hl Hd. apply Permutation_singleton_r. unfold receipts_with in *. simpl.
  rewrite nodes_perm by done. rewrite filter_cons_True by done. by rewrite Hr.
Qed.

Lemma note_claim_nodes n p s : nodes (note_claim n p s) = nodes s ∧ edges (note_claim n p s) = edges s.
Proof. unfold note_claim. by destruct (tx s). Qed.

Lemma create_receipt_Ok i p s n s' : create_node "EventReceipt" i p s = (Ok n, s') →
  n = Node "EventReceipt" i p false ∧ nodes s !! ("EventReceipt", i) = None
  ∧ s' = put_node ("EventReceipt", i) n s.
Proof.
  unfold create_node. intros E. minv. bools. simpl in *. minv. subst.
  split; [done|]. split; [by apply eq_None_not_Some|done].
Qed.

Lemma claim_fresh_Ok i d p s n s' : claim_event_receipt i d p s = (Ok (true, n), s') →
  n = Node "EventReceipt" i p false ∧ p !! "idempotency_claim_digest" = Some (VStr d)
  ∧ receipts_with "idempotency_claim_digest" d s = []
  ∧ nodes s !! ("EventReceipt", i) = None
  ∧ s' = note_claim n p (put_node ("EventReceipt", i) n s).
Proof.
  unfold claim_event_receipt. intros E. minv. bools.
  destruct (receipts_with _ _ _) as [|n0 [|n1 l]] eqn:Er; minv; [|simplify_eq].
  simplify_eq. match goal with H : create_node _ _ _ _ = _ |- _ => apply create_receipt_Ok in H as (->&?&->) end.
  done.
Qed.

Lemma link_Ok sl si ri s e s' : link_new_event_receipt sl si ri s = (Ok e, s') →
  ∃ t c, tx s = Some t ∧ fresh_receipt_claims t !! ri = Some c ∧ claim_tx c = tx_token t
    ∧ claim_label c = Some (VStr sl) ∧ claim_id c = Some (VStr si)
    ∧ fresh_endpoints_ok sl si ri c s = true
    ∧ e = Edge sl si "EMITTED_EVENT" "EventReceipt" ri ∅ ∧ _ID_PATTERN ri = true
    ∧ ∃ s1, create_edge sl si "EMITTED_EVENT" "EventReceipt" ri ∅ s = (Ok e, s1) ∧ s' = drop_claim ri s1.
Proof.
  unfold link_new_event_receipt. intros E. minv.
  match goal with H : or_rollback ?m ?s0 = _ |- _ => unfold or_rollback in H;
    destruct (m s0) as [[e0|?] s2] eqn:Em in H; [|done] end.
  simplify_eq. minv. destruct (tx s) as [t|] eqn:Et; [|done].
  destruct (fresh_receipt_claims t !! ri) as [c|] eqn:Ef; [|done].
  match goal with H : (if ?b then _ else _) = _ |- _ => destruct b eqn:Eb; [|done] end. minv. subst. bools.
  match goal with H : require_id ri = _ |- _ => apply require_id_Ok in H as [_ ?] end.
  match goal with H : create_edge _ _ _ _ _ _ _ = _ |- _ => pose proof H as Hc; unfold create_edge in Hc end.
  minv. eexists t, _. split_and!; try done. by eexists.
Qed.

End wf.

Arguments nw_key {_ _}.
Arguments nw_id {_ _}.
Arguments nw_canonical {_ _}.
Arguments sw_nodes {_ _}.
Arguments sw_edges {_ _}.
Arguments sw_nodup {_ _}.
Arguments sw_refs {_ _}.
Arguments sw_fresh {_ _}.
Arguments sw_identity {_ _}.

Notation store_wf := (wf_except []).
Notation keeps := (keeps_on (loose := [])).

(** ** Automation: programs over the storage keep it well formed

    [keeps_solve] follows a program's structure; the operations proved so far are
    in the hint database [keeps]. *)

Create HintDb keeps.
#[export] Hint Resolve keeps_guard keeps_clock update_node_keeps archive_node_keeps restore_node_keeps
  create_edge_keeps delete_edge_keeps apply_constraints_keeps claim_event_receipt_keeps
  link_new_event_receipt_keeps : keeps.

Ltac keeps_step :=
  match goal with
  | |- keeps (mbind _ _) => apply keeps_bind; [|intros ?]
  | |- keeps (reads _) => apply keeps_id
  | |- keeps (lift _) => by apply keeps_same
  | |- keeps (gets _) => by apply keeps_same
  | |- keeps (mret _) => by apply keeps_same
  | |- keeps (raise _) => by apply keeps_same
  | |- keeps (M_rethrow _ _ _) => apply keeps_rethrow
  | |- keeps (M_mapM _ _) => apply keeps_mapM; intros ?
  | |- keeps (M_iter _ _) => apply keeps_iter; intros ?
  | |- keeps (transaction _) => apply transaction_keeps
  | |- keeps (work_mutation_transaction _) => apply transaction_keeps
  | |- keeps (match ?x with _ => _ end) => destruct x
  | |- keeps _ => solve [auto with keeps]
  end.

Ltac keeps_solve := repeat keeps_step.

(** ** Success of the basic writes, and programs that write no edge *)

Section effects.
  Context {PY : Pydantic} {CK : Clock}.

Definition same_graph (s s' : Store) : Prop := nodes s' = nodes s ∧ edges s' = edges s.

Lemma create_node_Ok label i p s n s' : create_node label i p s = (Ok n, s') →
  nodes s !! (label, i) = None ∧ s' = put_node (label, i) n s ∧ nr_key n = (label, i) ∧ nr_archived n = false
  ∧ _ID_PATTERN i = true
  ∧ (if _is_canonical_payload label p
     then validate_canonical_work_object_properties label i p false false = Ok (nr_properties n)
     else nr_properties n = p).
Proof.
  unfold create_node. intros E. minv. bools. apply require_id_Ok in E as [_ Hid].
  split_and!; [by apply eq_None_not_Some| |done|done|done|]; [done|]. simpl.
  case_match; [by apply (proj1 (malformed_Ok _ _)) in H|]. by minv.
Qed.

Lemma create_edge_Ok fl fi r tl ti p s e s' : create_edge fl fi r tl ti p s = (Ok e, s') →
  e = Edge fl fi r tl ti p ∧ is_Some (nodes s !! (fl, fi)) ∧ is_Some (nodes s !! (tl, ti))
  ∧ nodes s' = nodes s ∧ edges s' = (if decide (e ∈ edges s) then edges s else edges s ++ [e]).
Proof.
  unfold create_edge. intros E. minv. bools. split_and!; try done; try by apply not_eq_None_Some.
  - by case_match.
  - by case_match.
Qed.

Lemma delete_edge_Ok fl fi r tl ti s u s' : delete_edge fl fi r tl ti s = (Ok u, s') →
  nodes s' = nodes s ∧ edges s' = filter (λ e, edge_is fl fi r tl ti e = false) (edges s).
Proof. unfold delete_edge, modify. by intros [= _ <-]. Qed.

(** A listing below the budget is the whole relation. *)
Lemma list_edges_all r limit s es : list_edges (Some r) (Some limit) s = Ok es →
  Z.of_nat (length es) < limit → es = filter (λ e, relationship e = r) (edges s).
Proof.
  unfold list_edges. intros Hl Hlen. minv. subst. rewrite length_take in Hlen.
  apply take_ge. lia.
Qed.

Lemma transaction_graph {A} (m : M Store A) s a s' : transaction m s = (Ok a, s') →
  ∃ s0 s1, m s0 = (Ok a, s1) ∧ same_graph s s0 ∧ (ticks s0 = ticks s ∧ (store_wf s → store_wf s0))
    ∧ same_graph s1 s'.
Proof.
  intros (s1 & Hm & _ & ->)%transaction_Ok. eexists _, s1. split; [exact Hm|].
  case_match; [|done]. split; [done|]. split; [|done]. split; [done|]. intros []. by constructor.
Qed.

Definition edgeless {A} (m : M Store A) : Prop := ∀ s, edges (m s).2 = edges s.

Lemma edgeless_bind {A B} (m : M Store A) (k : A → M Store B) :
  edgeless m → (∀ a, edgeless (k a)) → edgeless (m ≫= k).
Proof.
  intros Hm Hk s. unfold mbind, M_bind. specialize (Hm s).
  destruct (m s) as [[a|e] s1]; simpl in *; [by rewrite Hk|done].
Qed.

Lemma edgeless_transaction {A} (m : M Store A) : edgeless m → edgeless (transaction m).
Proof.
  intros Hm s. unfold transaction. set (s0 := if bool_decide (tx s = None) then begin_tx s else s).
  assert (edges s0 = edges s) as H0 by (unfold s0; by case_match).
  specialize (Hm s0). destruct (m s0) as [[a|e] s1]; simpl in *; repeat case_match; simpl; congruence.
Qed.

Lemma edgeless_same {A} (m : M Store A) : (∀ s, (m s).2 = s) → edgeless m.
Proof. intros Hm s. by rewrite Hm. Qed.

Lemma edgeless_guard b e : edgeless (guard_raise b e).
Proof. by apply edgeless_same; destruct b. Qed.

Lemma edgeless_clock : edgeless utc_now.
Proof. done. Qed.

Lemma edgeless_put k n : edgeless (modify (put_node k n)).
Proof. done. Qed.

Lemma edgeless_iter {A} (f : A → M Store unit) l : (∀ x, edgeless (f x)) → edgeless (M_iter f l).
Proof.
  intros Hf. induction l as [|x l IH]; [by apply edgeless_same|]. simpl. by apply edgeless_bind; [done|intros _].
Qed.

Lemma edgeless_Ok {A} (m : M Store A) s a s' : edgeless m → m s = (Ok a, s') → edges s' = edges s.
Proof. intros Hm Hr. specialize (Hm s). by rewrite Hr in Hm. Qed.

Lemma edgeless_rethrow {A} p f (m : M Store A) : edgeless m → edgeless (M_rethrow p f m).
Proof. intros Hm s. unfold M_rethrow. specialize (Hm s). by destruct (m s) as [[?|e] ?]. Qed.

End effects.

Create HintDb edgeless.
#[export] Hint Resolve edgeless_guard edgeless_clock edgeless_put : edgeless.

Ltac edgeless_step :=
  match goal with
  | |- edgeless (mbind _ _) => apply edgeless_bind; [|intros ?]
  | |- edgeless (reads _) => by apply edgeless_same
  | |- edgeless (lift _) => by apply edgeless_same
  | |- edgeless (gets _) => by apply edgeless_same
  | |- edgeless (mret _) => by apply edgeless_same
  | |- edgeless (raise _) => by apply edgeless_same
  | |- edgeless (M_rethrow _ _ _) => apply edgeless_rethrow
  | |- edgeless (M_iter _ _) => apply edgeless_iter; intros ?
  | |- edgeless (transaction _) => apply edgeless_transaction
  | |- edgeless (match ?x with _ => _ end) => destruct x
  | |- edgeless _ => solve [auto with edgeless]
  end.

Ltac edgeless_solve := repeat edgeless_step.

Section edgeless.
  Context {PY : Pydantic} {CK : Clock}.

Lemma create_node_edgeless l i p : edgeless (create_node l i p).
Proof. unfold create_node. edgeless_solve. Qed.

Lemma update_node_edgeless l i p : edgeless (update_node l i p).
Proof. unfold update_node. edgeless_solve. Qed.

Lemma archive_node_edgeless l i p : edgeless (archive_node l i p).
Proof. unfold archive_node. edgeless_solve. Qed.

Lemma restore_node_edgeless l i p : edgeless (restore_node l i p).
Proof. unfold restore_node. edgeless_solve. Qed.

End edgeless.

#[export] Hint Resolve create_node_edgeless update_node_edgeless archive_node_edgeless restore_node_edgeless
  : edgeless.

(** ** Properties *)

Section properties.
  Context {PY : Pydantic} {PL : PydanticLaws} {CK : Clock}.

(** C17: From an empty store, or from any store that satisfies it, every sequence of
    storage calls - node creation, update, archival, restoration, edge creation and
    deletion, constraint application, receipt claims and links, nested transactions,
    successful or not - keeps the storage invariant: each record under its own key
    with a canonical identifier, edges stored once and never dangling, object
    identities distinct, and every record with a Work label within the canonical
    constraints, except under the keys where the sequence itself created such a node
    without a kind, which the storage does not check.  A sequence without such a
    creation, as the repositories issue, has no exception. *)
Theorem storage_invariant cs s : store_wf s →
  wf_except (kindless_keys cs) (run_calls cs s) ∧ wf_except (kindless_keys cs) (run_calls cs empty_store)
  ∧ (kindless_keys cs = [] → store_wf (run_calls cs s) ∧ store_wf (run_calls cs empty_store)).
Proof.
  intros Hs. assert (∀ s0, store_wf s0 → wf_except (kindless_keys cs) (run_calls cs s0)) as Hrun.
  { intros s0 Hs0. apply run_calls_keeps; [done|]. eapply wf_except_mono; [|exact Hs0]. by intros k Hk%not_elem_of_nil. }
  split_and!; [by apply Hrun|apply Hrun, empty_store_wf|]. intros <-. split; [by apply Hrun|apply Hrun, empty_store_wf].
Qed.

(** A transaction is all or nothing for every body: when it raises, nodes,
    identities, edges, constraints and the enclosing transaction state are the
    ones at entry; when it returns, the body returned that value, no nested
    failure is pending, and the body's final graph is what is kept. *)
Theorem transaction_all_or_nothing {A} (body : M Store A) s :
  match transaction body s with
  | (Err _, s') => nodes s' = nodes s ∧ refs s' = refs s ∧ edges s' = edges s
      ∧ applied_constraints s' = applied_constraints s ∧ tx s' = tx s
  | (Ok a, s') => ∃ s1, body (if bool_decide (tx s = None) then begin_tx s else s) = (Ok a, s1)
      ∧ is_rollback_only s1 = false ∧ nodes s' = nodes s1 ∧ edges s' = edges s1
      ∧ applied_constraints s' = applied_constraints s1
  end.
Proof.
  destruct (transaction body s) as [[a|e] s'] eqn:E.
  - apply transaction_Ok in E as (s1&?&?&->). exists s1. split_and!; try done; by case_match.
  - by eapply transaction_Err.
Qed.

(** A receipt link that fails its endpoint check poisons the transaction: even
    if the caller swallows that error and any others and goes on with further
    calls, the transaction raises at the end and restores the graph. *)
Theorem failed_link_poisons before after sl si ri s :
  tx s = None →
  (link_new_event_receipt sl si ri (run_calls before (begin_tx s))).1
    = Err (StorageUnavailable "fresh receipt endpoints unavailable") →
  ∃ s', transaction (λ s0, (Ok tt, run_calls (before ++ call_link_new_event_receipt sl si ri :: after) s0)) s
      = (Err (StorageUnavailable "nested transaction failed"), s')
    ∧ nodes s' = nodes s ∧ edges s' = edges s ∧ tx s' = None.
Proof.
  intros Ht Hl. set (s0 := run_calls before (begin_tx s)) in *.
  assert (is_rollback_only (link_new_event_receipt sl si ri s0).2 = true) as Hr.
  { revert Hl. unfold link_new_event_receipt. unfold mbind, M_bind, lift, gets, require_id. simpl.
    destruct (_ID_PATTERN si); [|done]. destruct (_ID_PATTERN ri); [|done]. simpl.
    destruct (tx s0) as [t|] eqn:Et; [|done]. simpl. destruct (fresh_receipt_claims t !! ri); [|done].
    destruct (_ && _); [|done]. simpl. unfold or_rollback.
    destruct (fresh_endpoints_ok _ _ _ _ _); simpl.
    - destruct (create_edge _ _ _ _ _ _ s0) as [[e|e] s1] eqn:Ec; simpl; [done|]. intros [= ->]. exfalso.
      revert Ec. unfold create_edge. unfold mbind, M_bind, lift, gets, guard_raise, raise, mret, M_ret, modify.
      unfold require_id. repeat (case_match; simplify_eq; try done).
    - intros _. unfold is_rollback_only, mark_rollback. by rewrite Et. }
  set (s1 := run_calls (before ++ call_link_new_event_receipt sl si ri :: after) (begin_tx s)).
  assert (is_rollback_only s1 = true) as Hs1.
  { unfold s1, run_calls. rewrite foldl_app. cbn [foldl]. apply run_calls_sticky.
    fold (run_calls before (begin_tx s)). fold s0. cbn [run_call].
    unfold mbind, M_bind. destruct (link_new_event_receipt sl si ri s0) as [[?|?] ?]; done. }
  unfold transaction. rewrite Ht, bool_decide_true by done. fold s1. rewrite Hs1. eexists. done.
Qed.

(** Claiming the retry identity of an event is idempotent: after a fresh claim,
    every later claim of the same digest - under any record id and with any
    properties - returns that first record, reports that it was not created, and
    changes nothing. *)
Theorem claim_event_receipt_once i d p i' p' s n s1 :
  claim_event_receipt i d p s = (Ok (true, n), s1) →
  p' !! "idempotency_claim_digest" = Some (VStr d) →
  nodes s1 !! ("EventReceipt", i) = Some (Node "EventReceipt" i p false)
  ∧ claim_event_receipt i' d p' s1 = (Ok (false, n), s1).
Proof.
  intros (->&Hp&Hr&Hk&->)%claim_fresh_Ok Hp'. set (n := Node _ _ _ _).
  destruct (note_claim_nodes n p (put_node ("EventReceipt", i) n s)) as [Hn _].
  split; [rewrite Hn; simpl; by rewrite lookup_insert_eq|].
  unfold claim_event_receipt. rewrite Hp'. rewrite bool_decide_true by done.
  unfold mbind, M_bind, guard_raise, gets. simpl.
  assert (receipts_with "idempotency_claim_digest" d
    (note_claim n p (put_node ("EventReceipt", i) n s)) = [n]) as ->; [|done].
  unfold receipts_with. rewrite Hn.
  by apply (receipts_with_fresh "idempotency_claim_digest" d n s ("EventReceipt", i)).
Qed.

(** A receipt is linked at most once and only by the transaction that claimed
    it: a successful link had a fresh claim of the open transaction for exactly
    this subject, found no earlier link of the receipt, appended one edge, and
    consumed the claim, so that linking the receipt again is refused. *)
Theorem link_requires_fresh_claim sl si ri s e s' :
  link_new_event_receipt sl si ri s = (Ok e, s') →
  (∃ t c, tx s = Some t ∧ fresh_receipt_claims t !! ri = Some c ∧ claim_tx c = tx_token t
    ∧ claim_label c = Some (VStr sl) ∧ claim_id c = Some (VStr si))
  ∧ Forall (λ e', ¬ (relationship e' = "EMITTED_EVENT" ∧ edge_to e' = ("EventReceipt", ri))) (edges s)
  ∧ edges s' = edges s ++ [e] ∧ nodes s' = nodes s
  ∧ ∀ sl' si', _ID_PATTERN si' = true →
      link_new_event_receipt sl' si' ri s' = (Err (StorageUnavailable "fresh receipt claim required"), s').
Proof.
  intros (t&c&Ht&Hf&Hc&Hl&Hi&Hok&->&Hri&s1&Hce&->)%link_Ok.
  unfold fresh_endpoints_ok in Hok. destruct (nodes s !! _) as [target|]; [|done]. bools.
  assert (Forall (λ e', ¬ (relationship e' = "EMITTED_EVENT" ∧ edge_to e' = ("EventReceipt", ri))) (edges s)) as Hno.
  { apply Forall_forall. intros e' He' [Hr [= Hl' Hi']].
    match goal with H : forallb _ _ = true |- _ => rewrite forallb_forall in H;
      specialize (H e' (proj1 (list_elem_of_In _ _) He')); rewrite Hr, Hl', Hi', !String.eqb_refl in H end.
    done. }
  split; [by eauto 10|]. split; [done|].
  unfold create_edge in Hce. minv. case_decide as Hin.
  { exfalso. eapply Forall_forall in Hno; [|exact Hin]. by apply Hno. }
  assert (tx (set_edges (edges s ++ [Edge sl si "EMITTED_EVENT" "EventReceipt" ri ∅]) s) = Some t) as Ht' by done.
  unfold drop_claim. rewrite Ht'. split; [done|]. split; [done|]. intros sl' si' Hsi'.
  unfold link_new_event_receipt, mbind, M_bind, lift, gets, require_id. rewrite Hsi', Hri. simpl.
  by rewrite lookup_delete_eq.
Qed.

End properties.

(** ** Witnesses *)

Section witnesses.

#[local] Existing Instance reference_pydantic.
#[local] Existing Instance reference_pydantic_laws.
#[local] Existing Instance epoch_clock.

Definition ex_receipt : props :=
  list_to_map [("idempotency_claim_digest", VStr "d"); ("subject_label", VStr "Note");
               ("subject_id", VStr "n1")].

Definition ex_calls : list call :=
  [call_create_node "Note" "n1" ∅;
   call_transaction [call_claim_event_receipt "r1" "d" ex_receipt;
                     call_link_new_event_receipt "Note" "n1" "r1"]].

(** A Task without a kind is stored unchecked, and is the one exception. *)
Definition ex_loose : list call := ex_calls ++ [call_create_node "Task" "t" ∅].

Lemma storage_invariant_witness :
  length (edges (run_calls ex_calls empty_store)) = 1%nat ∧ store_wf (run_calls ex_calls empty_store)
  ∧ is_Some (nodes (run_calls ex_loose empty_store) !! ("Task", "t")) ∧ wf_except [("Task", "t")] (run_calls ex_loose empty_store).
Proof.
  split_and!; [by vm_compute| |by vm_compute; eexists|].
  - destruct (storage_invariant ex_calls empty_store empty_store_wf) as (_ & _ & H). by apply H.
  - apply (storage_invariant ex_loose empty_store empty_store_wf).
Defined.

Lemma failed_link_poisons_witness : ∃ s',
  transaction (λ s0, (Ok tt, run_calls ([call_claim_event_receipt "r1" "d" ex_receipt]
      ++ call_link_new_event_receipt "Note" "n1" "r1" :: [call_create_node "Note" "n2" ∅]) s0)) empty_store
    = (Err (StorageUnavailable "nested transaction failed"), s')
  ∧ nodes s' = nodes empty_store ∧ edges s' = edges empty_store ∧ tx s' = None.
Proof. apply failed_link_poisons; by vm_compute. Defined.

Lemma claim_event_receipt_once_witness :
  let s1 := (claim_event_receipt "r1" "d" ex_receipt empty_store).2 in
  nodes s1 !! ("EventReceipt", "r1") = Some (Node "EventReceipt" "r1" ex_receipt false)
  ∧ claim_event_receipt "r2" "d" ex_receipt s1 = (Ok (false, Node "EventReceipt" "r1" ex_receipt false), s1).
Proof. apply (claim_event_receipt_once "r1" "d" ex_receipt "r2" ex_receipt empty_store); by vm_compute. Defined.

Definition ex_claimed : Store :=
  run_calls [call_create_node "Note" "n1" ∅; call_claim_event_receipt "r1" "d" ex_receipt]
    (begin_tx empty_store).

Lemma link_requires_fresh_claim_witness :
  edges (link_new_event_receipt "Note" "n1" "r1" ex_claimed).2
  = edges ex_claimed ++ [Edge "Note" "n1" "EMITTED_EVENT" "EventReceipt" "r1" ∅].
Proof.
  refine (proj1 (proj2 (proj2 (link_requires_fresh_claim "Note" "n1" "r1" ex_claimed
    (Edge "Note" "n1" "EMITTED_EVENT" "EventReceipt" "r1" ∅) _ _)))). by vm_compute.
Defined.

End witnesses.
