(* ===== verification/Search.v ===== *)
(** * Work-list graph search

    The loop [while pending: node = pending.pop(); ...] that
    [MemoryGraphStorage._arena_descendant_keys] and
    [NamedWorkMutations._edge_change] run over the edges of one relationship:
    pop a key, stop on a goal, skip a visited key, otherwise mark it and push
    its successors.  One fuel unit is one pop. *)

From stdpp Require Import base gmap strings list relations.
From S2P Require Import Prelude.

Section search.
  Context {K : Type} `{Countable K}.
  Context (succ : K → list K) (goal : K → bool).

Inductive outcome : Type :=
  | Found
  | Exhausted (visited : gset K)
  | OutOfFuel.

Fixpoint search (fuel : nat) (pending : list K) (visited : gset K) : outcome :=
  match pending with
  | [] => Exhausted visited
  | k :: rest =>
      match fuel with
      | O => OutOfFuel
      | S fuel' =>
          if goal k then Found
          else if decide (k ∈ visited) then search fuel' rest visited
          else search fuel' (reverse (succ k) ++ rest) ({[k]} ∪ visited)
      end
  end.

(** One step along the graph. *)
Definition step (a b : K) : Prop := b ∈ succ a.

(** ** Soundness and completeness *)

(** What [search] maintains: successors of visited keys are visited or pending. *)
Definition closed_upto (pending : list K) (visited : gset K) : Prop :=
  ∀ k k', k ∈ visited → step k k' → k' ∈ visited ∨ k' ∈ pending.

Lemma search_found fuel pending visited :
  search fuel pending visited = Found → ∃ r k, r ∈ pending ∧ rtc step r k ∧ goal k = true.
Proof.
  revert pending visited. induction fuel as [|fuel IH]; intros [|k rest] visited; simpl; try done.
  destruct (goal k) eqn:Eg; [intros _; exists k, k; set_solver|].
  case_decide as Hk.
  - intros (r&k'&?&?&?)%IH. exists r, k'. set_solver.
  - intros (r&k'&Hr&Hp&?)%IH. apply elem_of_app in Hr as [Hr|Hr].
    + exists k, k'. split; [set_solver|]. split; [|done]. eapply rtc_l; [|done].
      unfold step. by apply elem_of_reverse.
    + exists r, k'. set_solver.
Qed.

Lemma search_exhausted fuel pending visited seen :
  closed_upto pending visited → (∀ k, k ∈ visited → goal k = false) →
  search fuel pending visited = Exhausted seen →
  (∀ k, k ∈ visited ∨ k ∈ pending → k ∈ seen)
  ∧ (∀ k k', k ∈ seen → step k k' → k' ∈ seen)
  ∧ (∀ k, k ∈ seen → goal k = false)
  ∧ (∀ k, k ∈ seen → k ∈ visited ∨ ∃ r, r ∈ pending ∧ rtc step r k).
Proof.
  revert pending visited. induction fuel as [|fuel IH]; intros [|k rest] visited Hc Hg; simpl; try done.
  - intros [= <-]. split_and!; [set_solver| |done|auto]. intros a b Ha Hab. destruct (Hc a b Ha Hab); set_solver.
  - intros [= <-]. split_and!; [set_solver| |done|auto]. intros a b Ha Hab. destruct (Hc a b Ha Hab); set_solver.
  - destruct (goal k) eqn:Eg; [done|]. case_decide as Hk; intros Hs; apply IH in Hs as (H1&H2&H3&H4).
    + split_and!; [set_solver|done|done|]. intros x Hx. destruct (H4 x Hx) as [?|(r&?&?)]; [by left|].
      right. exists r. set_solver.
    + intros a b Ha Hab. destruct (Hc a b Ha Hab) as [?|Hb]; [by left|]. set_solver.
    + done.
    + split_and!; [|done|done|].
      * intros x Hx. apply H1. set_solver.
      * intros x Hx. destruct (H4 x Hx) as [Hv|(r&Hr&Hp)].
        -- apply elem_of_union in Hv as [->%elem_of_singleton|?]; [|by left]. right. exists k. set_solver.
        -- right. apply elem_of_app in Hr as [Hr|Hr]; [|exists r; set_solver].
           exists k. split; [set_solver|]. eapply rtc_l; [|done]. by apply elem_of_reverse.
    + intros a b Ha Hab. apply elem_of_union in Ha as [->%elem_of_singleton|Ha].
      * right. apply elem_of_app. left. by apply elem_of_reverse.
      * destruct (Hc a b Ha Hab) as [?|Hb]; [set_solver|].
        apply elem_of_cons in Hb as [->|Hb]; [left; set_solver|right; set_solver].
    + intros x Hx. apply elem_of_union in Hx as [->%elem_of_singleton|?]; auto.
Qed.

(** ** Enough fuel

    The graph comes from a list of edges; every edge is pushed at most once,
    when its source is visited. *)

Context (es : list (K * K)).
Context (succ_edges : ∀ k, length (succ k) ≤ length (filter (λ e : K * K, e.1 = k) es)).

Definition budget (visited : gset K) : nat := length (filter (λ e : K * K, e.1 ∉ visited) es).

Lemma budget_visit k visited : k ∉ visited →
  length (succ k) + budget ({[k]} ∪ visited) ≤ budget visited.
Proof.
  intros Hk. specialize (succ_edges k). unfold budget in *. etransitivity.
  { apply Nat.add_le_mono_r. exact succ_edges. }
  clear succ_edges. induction es as [|e l IH]; [done|]. rewrite !filter_cons.
  destruct (decide (e.1 = k)) as [->|Hne].
  - rewrite decide_False by set_solver. rewrite decide_True by done. simpl. lia.
  - destruct (decide (e.1 ∉ visited)).
    + rewrite decide_True by set_solver. simpl. lia.
    + rewrite decide_False by set_solver. lia.
Qed.

Lemma search_fuel fuel pending visited :
  length pending + budget visited ≤ fuel → search fuel pending visited ≠ OutOfFuel.
Proof.
  revert pending visited. induction fuel as [|fuel IH]; intros [|k rest] visited Hf; simpl in *; try done; try lia.
  destruct (goal k); [done|]. case_decide as Hk; apply IH; [lia|].
  pose proof (budget_visit k visited Hk). rewrite length_app, length_reverse. lia.
Qed.

(** From nothing visited, with a fuel unit per root and per edge, the search is
    decided: it finds a goal exactly when one is reachable. *)
Lemma search_decides roots fuel : length roots + length es ≤ fuel →
  (search fuel roots ∅ = Found ∧ ∃ r k, r ∈ roots ∧ rtc step r k ∧ goal k = true)
  ∨ (∃ seen, search fuel roots ∅ = Exhausted seen
      ∧ (∀ k, k ∈ seen ↔ ∃ r, r ∈ roots ∧ rtc step r k) ∧ (∀ k, k ∈ seen → goal k = false)).
Proof.
  intros Hf. destruct (search fuel roots ∅) as [|seen|] eqn:E.
  - left. split; [done|]. by eapply search_found.
  - right. exists seen. split; [done|].
    apply search_exhausted in E as (H1&H2&H3&H4); [|by intros ?; set_solver|set_solver].
    split; [|done]. intros k. split.
    + intros [?|?]%H4; [set_solver|done].
    + intros (r&Hr&Hp). assert (r ∈ seen) as Hin by auto. clear Hr. induction Hp; eauto.
  - exfalso. eapply search_fuel; [|exact E]. unfold budget.
    etransitivity; [|exact Hf]. apply Nat.add_le_mono_l. apply length_filter.
Qed.

End search.

Arguments Found {K _ _}.
Arguments Exhausted {K _ _} _.
Arguments OutOfFuel {K _ _}.
