(* ===== verification/StorageReads.v ===== *)
(** * Reads of the in-memory storage

    The read methods of [src/devgraph/storage/memory.py] that do not depend on
    delegated selectors, with the argument validators of
    [storage/containment.py] and [storage/supporting_material.py].  A method is a
    function of the store; those the code wraps in [transaction()] or the lock
    read the same store. *)

From stdpp Require Import base gmap strings list sorting relations.
From Stdlib Require Import ZArith Ascii String.
From S2P Require Import Prelude Json Datetime Validation WorkflowContract Model Storage StorageWf Search.

Local Open Scope Z_scope.

(** ** Sort keys *)

Definition node_leb (a b : NodeRecord) : bool := key_leb (nr_key a) (nr_key b).

(** The five-tuple of an edge and its order. *)
Definition edge_tuple (e : EdgeRecord) : list string :=
  [from_label e; from_id e; relationship e; to_label e; to_id e].

Fixpoint tuple_leb (a b : list string) : bool :=
  match a, b with
  | [], _ => true
  | _, [] => false
  | x :: a', y :: b' => String.ltb x y || (String.eqb x y && tuple_leb a' b')
  end.

Definition edge_leb (a b : EdgeRecord) : bool := tuple_leb (edge_tuple a) (edge_tuple b).

Definition all_nodes (s : Store) : list NodeRecord := (map_to_list (nodes s)).*2.

(** [sorted({...})] of a set of keys given by its members. *)
Definition sorted_keys (l : list key) : list key := sort_keys (remove_dups l).

(** [f"{label}/{id}" > after_resource]. *)
Definition after_cursor (after : option string) (k : key) : bool :=
  match after with None => true | Some a => String.ltb a (resource_of k) end.

(** ** Node queries *)

(** [sorted(values, key=(label, id), reverse=descending)]; keys are distinct. *)
Definition sorted_nodes (descending : bool) (l : list NodeRecord) : list NodeRecord :=
  let r := stable_sort node_leb l in if descending then reverse r else r.

Definition query (label : option string) (is_archived : option bool) (descending : bool)
    (after_id : option string) (limit : option Z) (s : Store) : res (list NodeRecord) :=
  match after_id with
  | Some a =>
      raise_if (bool_decide (label = None)) (ValueError "after_id requires a node label");;
      require_id a;; Ok tt
  | None => Ok tt
  end;;
  match limit with Some l => validate_page_limit l;; Ok tt | None => Ok tt end;;
  let records := sorted_nodes descending (all_nodes s) in
  let records := match label with
                 | Some l => filter (λ n, nr_label n = l) records
                 | None => records
                 end in
  let records := match is_archived with
                 | Some b => filter (λ n, nr_archived n = b) records
                 | None => records
                 end in
  let records := match after_id with
                 | Some a => filter (λ n, (if descending then String.ltb (nr_id n) a
                                           else String.ltb a (nr_id n)) = true) records
                 | None => records
                 end in
  Ok (match limit with Some l => take (Z.to_nat l) records | None => records end).

(** ** Containment *)

Definition validate_containment_subject (k : key) : res unit :=
  raise_if (negb (str_in k.1 CANONICAL_WORK_KINDS)) (ValueError "invalid containment subject");;
  require_id k.2;; Ok tt.

Definition validate_containment_keys (keys : list key) : res unit :=
  raise_if (negb ((1 <=? Z.of_nat (length keys)) && (Z.of_nat (length keys) <=? 100)))
    (ValueError "invalid containment batch");;
  res_mapM validate_containment_subject keys;;
  raise_if (has_dup keys) (ValueError "duplicate containment subject").

(** [resource.count("/") == 1] and the two parts. *)
Definition split_resource (r : string) : option key :=
  if Nat.eqb (count_char slash r) 1 then split_once slash r else None.

Definition validate_arena_page (arena_id : string) (after : option string) (limit : Z) : res unit :=
  require_id arena_id;;
  validate_page_limit limit;;
  match after with
  | None => Ok tt
  | Some a =>
      match split_resource a with
      | None => Err (ValueError "invalid Arena member cursor")
      | Some (k, i) =>
          raise_if (negb (str_in k ["Initiative"; "Task"])) (ValueError "invalid Arena member cursor");;
          require_id i;; Ok tt
      end
  end.

Record WorkContainment := Containment {
  wc_node : NodeRecord;
  wc_parents : list EdgeRecord;
  wc_memberships : list EdgeRecord
}.

(** The first two incoming edges of one type: the second is the ambiguity
    witness. *)
Definition incoming (rel : string) (k : key) (s : Store) : list EdgeRecord :=
  take 2 (filter (λ e, edge_to e = k ∧ relationship e = rel) (edges s)).

Definition _work_containment (keys : list key) (s : Store) : res (list WorkContainment) :=
  res_mapM (λ k, match nodes s !! k with
                 | None => Err (StorageUnavailable "missing containment target")
                 | Some n => Ok (Containment n (incoming "HAS_CHILD" k s) (incoming "CONTAINS_WORK" k s))
                 end) keys.

Definition work_containment (label node_id : string) (s : Store) : res (option WorkContainment) :=
  validate_containment_subject (label, node_id);;
  match nodes s !! (label, node_id) with
  | None => Ok None
  | Some _ =>
      l ← _work_containment [(label, node_id)] s;
      Ok (head l)
  end.

Definition work_containment_batch (keys : list key) (s : Store) : res (list WorkContainment) :=
  validate_containment_keys keys;; _work_containment (sort_keys keys) s.

(** The distinct direct members of an Arena after the cursor. *)
Definition arena_targets (arena_id : string) (after : option string) (s : Store) : list key :=
  map edge_to (filter (λ e, (from_label e, from_id e, relationship e) = ("Arena", arena_id, "CONTAINS_WORK")
                            ∧ after_cursor after (edge_to e) = true) (edges s)).

Definition arena_member_page (arena_id : string) (after : option string) (limit : Z) (s : Store) :
    res (list WorkContainment) :=
  validate_arena_page arena_id after limit;;
  _work_containment (take (Z.to_nat limit) (sorted_keys (arena_targets arena_id after s))) s.

Definition delegated_arena_page (arena_ids : list string) (all_resources include_archived : bool)
    (after_id : option string) (limit : Z) (s : Store) : res (list NodeRecord) :=
  validate_page_limit limit;;
  raise_if ((all_resources && negb (bool_decide (arena_ids = [])))
            || (negb all_resources && bool_decide (arena_ids = [])) || has_dup arena_ids)
    (ValueError "invalid delegated Arena selectors");;
  require_ids arena_ids;;
  match after_id with Some a => require_id a;; Ok tt | None => Ok tt end;;
  Ok (take (Z.to_nat limit) (sorted_nodes false (filter (λ n,
        (String.eqb (nr_label n) "Arena" && (all_resources || str_in (nr_id n) arena_ids)
         && (include_archived || negb (nr_archived n))
         && match after_id with Some a => String.ltb a (nr_id n) | None => true end) = true) (all_nodes s)))).

Definition children_of (es : list EdgeRecord) (k : key) : list key :=
  map edge_to (filter (λ e, relationship e = "HAS_CHILD" ∧ edge_from e = k) es).

Definition arena_roots (arenas : list string) (es : list EdgeRecord) : list key :=
  map edge_to (filter (λ e, relationship e = "CONTAINS_WORK" ∧ from_label e = "Arena" ∧ from_id e ∈ arenas) es).

(** [pending.pop()] takes the end of the list, which is the head here.  A root
    and an edge are pushed at most once, so a pop for each is enough
    ([descendants_spec]). *)
Definition _arena_descendant_keys (arenas : list string) (s : Store) : gset key :=
  let roots := arena_roots arenas (edges s) in
  match search (children_of (edges s)) (λ _, false) (length roots + length (edges s)) (reverse roots) ∅ with
  | Exhausted allowed => allowed
  | _ => ∅
  end.

(** ** Related work *)

Definition RELATED : list string := ["HAS_CHILD"; "DEPENDS_ON"; "BLOCKS"].

Definition edge_source (inc : bool) (e : EdgeRecord) : key := if inc then edge_to e else edge_from e.
Definition edge_target (inc : bool) (e : EdgeRecord) : key := if inc then edge_from e else edge_to e.

Definition related_keys (k : key) (rel : string) (inc : bool) (after : option string) (s : Store) : list key :=
  map (edge_target inc) (filter (λ e, relationship e = rel ∧ edge_source inc e = k
    ∧ (edge_target inc e).1 ∈ CANONICAL_WORK_KINDS ∧ after_cursor after (edge_target inc e) = true) (edges s)).

Definition related_work_nodes (label node_id rel : string) (inc : bool) (after : option string) (limit : Z)
    (s : Store) : res (list NodeRecord) :=
  validate_page_limit limit;;
  raise_if (negb (str_in rel RELATED)) (ValueError "invalid relationship read");;
  Ok (omap (λ k, nodes s !! k)
        (take (Z.to_nat limit) (sorted_keys (related_keys (label, node_id) rel inc after s)))).

(** ** Supporting material *)

Definition SUPPORTING_RELATIONSHIPS : list (string * string) :=
  [("HAS_ARTIFACT", "Artifact"); ("HAS_EXTERNAL_LINK", "ExternalLink");
   ("HAS_REQUIREMENT", "Requirement"); ("HAS_ACCEPTANCE_CRITERION", "AcceptanceCriterion")].

Definition SUPPORTING_KINDS : list string := map snd SUPPORTING_RELATIONSHIPS.

Definition MAX_PROVENANCE : nat := 100.

Definition SUPPORTING_PROPERTIES : list string :=
  ["kind"; "schema"; "schema_version"; "title"; "description"; "role"; "summary"; "uri"; "media_type";
   "url"; "external_id"; "status"; "priority"; "version"].

Record SupportingReference := {
  sr_kind : string;
  sr_id : string;
  sr_paths : list string;
  sr_truncated : bool
}.

Definition validate_supporting_resource (r : option string) : res unit :=
  match r with
  | None => Ok tt
  | Some x =>
      match split_resource x with
      | None => Err (ValueError "invalid_supporting_resource")
      | Some (k, i) =>
          raise_if (negb (str_in k SUPPORTING_KINDS)) (ValueError "invalid_supporting_resource");;
          require_id i;; Ok tt
      end
  end.

Definition validate_supporting_read (label node_id : string) (artifacts links : list string) (limit : Z)
    (after target : option string) : res unit :=
  raise_if (negb (str_in label WORK_KINDS) || negb ((1 <=? limit) && (limit <=? 101)))
    (ValueError "invalid_supporting_read");;
  require_id node_id;;
  require_ids artifacts;;
  require_ids links;;
  validate_supporting_resource after;;
  validate_supporting_resource target.

(** The ([kind], [id], [path]) triples in the order [add] sees them. *)
Definition supporting_paths (label node_id : string) (artifacts links : list string) (s : Store) :
    list (key * string) :=
  let attached := filter (λ e, edge_from e = (label, node_id)
    ∧ dict_get (relationship e) SUPPORTING_RELATIONSHIPS = Some (to_label e)) (edges s) in
  let requirements := map to_id (filter (λ e, relationship e = "HAS_REQUIREMENT") attached) in
  map (λ i, (("Artifact", i), "field/artifact_ids")) artifacts
  ++ map (λ i, (("ExternalLink", i), "field/external_link_ids")) links
  ++ map (λ e, (edge_to e, "edge/" +:+ relationship e)) attached
  ++ map (λ e, (edge_to e, "requirement/" +:+ from_id e))
       (filter (λ e, from_label e = "Requirement" ∧ from_id e ∈ requirements
                     ∧ relationship e = "HAS_ACCEPTANCE_CRITERION" ∧ to_label e = "AcceptanceCriterion")
          (edges s)).

Definition supporting_material_references (label node_id : string) (artifacts links : list string)
    (after target : option string) (limit : Z) (s : Store) : res (list SupportingReference) :=
  validate_supporting_read label node_id artifacts links limit after target;;
  let adds := filter (λ kp, after_cursor after kp.1 = true
      ∧ match target with None => true | Some t => String.eqb (resource_of kp.1) t end = true)
    (supporting_paths label node_id artifacts links s) in
  Ok (map (λ k, let via := sort_strings (remove_dups (map snd (filter (λ kp, kp.1 = k) adds))) in
                {| sr_kind := k.1; sr_id := k.2; sr_paths := take MAX_PROVENANCE via;
                   sr_truncated := (MAX_PROVENANCE <? length via)%nat |})
        (take (Z.to_nat limit) (sorted_keys (map fst adds)))).

Definition validate_supporting_keys (keys : list key) : res unit :=
  raise_if (100 <? Z.of_nat (length keys)) (ValueError "invalid_supporting_keys");;
  res_mapM (λ k, raise_if (negb (str_in k.1 SUPPORTING_KINDS)) (ValueError "invalid_supporting_keys");;
                 require_id k.2) keys;;
  Ok tt.

Definition supporting_material_nodes (keys : list key) (s : Store) : res (list NodeRecord) :=
  validate_supporting_keys keys;;
  Ok (omap (λ k, n ← nodes s !! k;
       Some (Node (nr_label n) (nr_id n) (restrict SUPPORTING_PROPERTIES (nr_properties n)) (nr_archived n))) keys).

(** ** Edge selections and the monitor snapshot *)

Definition upper_char (c : ascii) : bool := is_upper c || is_digit c || Ascii.eqb c "_".

(** [[A-Z][A-Z0-9_]{0,63}]. *)
Definition relationship_name (r : string) : bool :=
  match r with
  | EmptyString => false
  | String c r' => is_upper c && str_forall upper_char r' && (str_len r <=? 64)
  end.

Definition validate_edge_selection (keys : list key) (rels : list string) (limit : Z) : res unit :=
  raise_if ((10000 <? Z.of_nat (length keys)) || (16 <? Z.of_nat (length rels))
            || negb ((1 <=? limit) && (limit <=? 10001))) (ValueError "invalid scoped edge selection");;
  res_mapM (λ k, raise_if (negb (str_in k.1 CANONICAL_WORK_KINDS)) (ValueError "invalid scoped edge selection");;
                 require_id k.2) keys;;
  raise_if (has_dup keys || negb (forallb relationship_name rels)) (ValueError "invalid scoped edge selection").

Definition delegated_work_edges (keys : list key) (rels : list string) (limit : Z) (s : Store) :
    res (list EdgeRecord) :=
  validate_edge_selection keys rels limit;;
  Ok (take (Z.to_nat limit) (stable_sort edge_leb
        (filter (λ e, relationship e ∈ rels ∧ edge_from e ∈ keys ∧ edge_to e ∈ keys) (edges s)))).

Definition validate_arena_edge_selection (arena_ids : list string) (keys : list key) (limit : Z) : res unit :=
  validate_edge_selection keys [] limit;;
  raise_if (bool_decide (arena_ids = []) || (4096 <? Z.of_nat (length arena_ids)) || has_dup arena_ids)
    (ValueError "invalid scoped Arena edge selection");;
  require_ids arena_ids;; Ok tt.

Definition arena_edge_leb (a b : EdgeRecord) : bool :=
  tuple_leb [from_id a; to_label a; to_id a] [from_id b; to_label b; to_id b].

Definition delegated_arena_edges (arena_ids : list string) (keys : list key) (limit : Z) (s : Store) :
    res (list EdgeRecord) :=
  validate_arena_edge_selection arena_ids keys limit;;
  Ok (take (Z.to_nat limit) (stable_sort arena_edge_leb
        (filter (λ e, relationship e = "CONTAINS_WORK" ∧ from_label e = "Arena" ∧ from_id e ∈ arena_ids
                      ∧ edge_to e ∈ keys) (edges s)))).

Definition PUBLIC_LABELS : list string := "Arena" :: TODO_KINDS ++ ["Artifact"; "EventReceipt"].
Definition SOURCE_NODE_LIMIT : nat := Z.to_nat 10000.
Definition SOURCE_EDGE_LIMIT : nat := Z.to_nat 50000.

Definition monitor_records (s : Store) : list NodeRecord * list EdgeRecord :=
  let ns := take (S SOURCE_NODE_LIMIT)
    (stable_sort node_leb (filter (λ n, nr_label n ∈ PUBLIC_LABELS) (all_nodes s))) in
  let keys := map nr_key ns in
  (ns, take (S SOURCE_EDGE_LIMIT) (stable_sort edge_leb
         (filter (λ e, edge_from e ∈ keys ∧ edge_to e ∈ keys) (edges s)))).

(** ** Session references *)

(** [re.compile(r"sr-[0-9a-f]{64}").fullmatch]. *)
Definition is_ref_id (r : string) : bool :=
  match strip_prefix "sr-" r with Some h => is_hex64 h | None => false end.

(** [work_refs], [links] and [context_bounded]. *)
Definition session_ref_context (ref_id : string) (limit : Z) (s : Store) :
    res (list props * list props * bool) :=
  validate_page_limit limit;;
  raise_if (negb (is_ref_id ref_id)) (ValueError "invalid_session_reference");;
  let work := stable_sort (λ a b, key_leb (edge_from a) (edge_from b))
    (filter (λ e, relationship e = "ATTRIBUTED_TO_SESSION" ∧ edge_to e = ("SessionRef", ref_id)) (edges s)) in
  let links := stable_sort (λ a b, String.leb (nr_id a) (nr_id b))
    (filter (λ n, nr_label n = "SessionLink"
       ∧ (nr_properties n !! "origin_id" = Some (VStr ref_id)
          ∨ nr_properties n !! "target_id" = Some (VStr ref_id))) (all_nodes s)) in
  let n := Z.to_nat limit in
  Ok (map (λ e, edge_properties e ∪ {["key" := VStr (resource_of (edge_from e))]}) (take n work),
      map (λ x, nr_properties x ∪ {["id" := VStr (nr_id x)]}) (take n links),
      (limit <=? Z.of_nat (length work)) || (limit <=? Z.of_nat (length links))).

(** ** Lemmas *)

Lemma descendants_spec arenas s k :
  k ∈ _arena_descendant_keys arenas s ↔
  ∃ r, r ∈ arena_roots arenas (edges s) ∧ rtc (λ a b, b ∈ children_of (edges s) a) r k.
Proof.
  unfold _arena_descendant_keys.
  destruct (search_decides (children_of (edges s)) (λ _, false)
    (map (λ e, (edge_from e, edge_to e)) (edges s))) with
    (roots := reverse (arena_roots arenas (edges s)))
    (fuel := (length (arena_roots arenas (edges s)) + length (edges s))%nat)
    as [[_ (?&?&?&?&?)]|(seen&->&Hs&_)]; [| |done|].
  - intros k'. unfold children_of. rewrite length_map. clear. induction (edges s) as [|e l IH]; [done|].
    cbn [map]. rewrite !filter_cons. case_decide as H1; case_decide as H2; cbn [length]; try lia. by destruct H2, H1.
  - by rewrite length_reverse, length_map.
  - rewrite Hs. unfold step. setoid_rewrite elem_of_reverse. done.
Qed.

Section read_lemmas.
  Context {PY : Pydantic} {PL : PydanticLaws}.
  Implicit Types (s : Store) (n : NodeRecord).

Lemma elem_of_all_nodes s n : store_wf s → n ∈ all_nodes s ↔ nodes s !! nr_key n = Some n.
Proof.
  intros Hs. unfold all_nodes. rewrite list_elem_of_fmap. split.
  - intros ([k n']&->&Hk%elem_of_map_to_list). simpl. by rewrite (nw_key _ _ (sw_nodes s Hs _ _ Hk)).
  - intros Hn. exists (nr_key n, n). by rewrite elem_of_map_to_list.
Qed.

Lemma all_nodes_keys s : store_wf s → NoDup (map nr_key (all_nodes s)).
Proof.
  intros Hs. unfold all_nodes. change (map nr_key _) with (nr_key <$> (map_to_list (nodes s)).*2).
  rewrite <-list_fmap_compose. rewrite (Forall_fmap_ext_1 _ fst); [apply NoDup_fst_map_to_list|].
  apply Forall_forall. intros [k n] Hk%elem_of_map_to_list. by apply (sw_nodes s Hs).
Qed.

Lemma sorted_strict (l : list NodeRecord) :
  NoDup (map nr_key l) → StronglySorted (λ a b, node_leb a b = true) l →
  StronglySorted (λ a b, key_ltb (nr_key a) (nr_key b) = true) l.
Proof.
  intros Hd Hs. induction Hs as [|n l Hs IH Hn]; [constructor|]. simpl in Hd.
  apply NoDup_cons in Hd as [Hni Hd]. constructor; [by apply IH|].
  rewrite Forall_forall in *. intros m Hm. specialize (Hn m Hm). unfold node_leb in Hn.
  apply key_leb_spec in Hn as [Heq|?]; [|done]. exfalso. apply Hni. rewrite Heq.
  by apply list_elem_of_fmap_2.
Qed.

Lemma node_sort_sorted l : StronglySorted (λ a b, node_leb a b = true) (stable_sort node_leb l).
Proof.
  apply stable_sort_sorted; unfold node_leb.
  - intros x y Hf. destruct (key_le_total (nr_key x) (nr_key y)) as [Ht|Ht]; unfold key_le in Ht; congruence.
  - intros x y z H1 H2. by eapply key_le_trans.
Qed.

(** The order of a page: identifiers increase, or decrease. *)
Definition id_before (descending : bool) (a b : NodeRecord) : Prop :=
  (if descending then String.ltb (nr_id b) (nr_id a) else String.ltb (nr_id a) (nr_id b)) = true.

#[export] Instance id_before_trans d : Transitive (id_before d).
Proof. intros a b c. unfold id_before. destruct d; eauto using str_ltb_trans. Qed.

Lemma id_before_irrefl d a : ¬ id_before d a a.
Proof. unfold id_before. destruct d; by rewrite str_ltb_irrefl. Qed.

Lemma StronglySorted_filter {A} (R : A → A → Prop) (P : A → Prop) `{∀ x, Decision (P x)} l :
  StronglySorted R l → StronglySorted R (filter P l).
Proof.
  induction 1 as [|x l Hs IH Hx]; [constructor|]. rewrite filter_cons. case_decide; [|done].
  constructor; [done|]. rewrite Forall_forall in *. intros y [_ ?]%list_elem_of_filter. auto.
Qed.

Lemma StronglySorted_reverse {A} (R : A → A → Prop) l :
  StronglySorted R l → StronglySorted (flip R) (reverse l).
Proof.
  induction 1 as [|x l Hs IH Hx]; [constructor|]. rewrite reverse_cons.
  apply StronglySorted_app. split_and!; [|done|repeat constructor].
  intros a b Ha ->%list_elem_of_singleton. rewrite elem_of_reverse in Ha. rewrite Forall_forall in Hx. by apply Hx.
Qed.

(** The records of one label, sorted. *)
Lemma label_sorted d label s : store_wf s →
  StronglySorted (id_before d) (filter (λ n, nr_label n = label) (sorted_nodes d (all_nodes s))).
Proof.
  intros Hs. unfold sorted_nodes.
  assert (StronglySorted (λ a b, key_ltb (nr_key a) (nr_key b) = true) (stable_sort node_leb (all_nodes s))) as Hst.
  { apply sorted_strict; [|apply node_sort_sorted].
    rewrite stable_sort_perm. by apply all_nodes_keys. }
  assert (∀ l, StronglySorted (λ a b, (if d then key_ltb (nr_key b) (nr_key a)
     else key_ltb (nr_key a) (nr_key b)) = true) l →
    StronglySorted (id_before d) (filter (λ n, nr_label n = label) l)) as Hgen.
  { intros l Hl. induction Hl as [|n l Hl IH Hn]; [constructor|]. rewrite filter_cons.
    case_decide as Hlab; [|done]. constructor; [done|]. rewrite Forall_forall in *.
    intros m [Hm ?]%list_elem_of_filter. specialize (Hn m H). unfold id_before, key_ltb, nr_key in *. simpl in *.
    rewrite Hlab, Hm, !str_ltb_irrefl, String.eqb_refl in Hn. by destruct d. }
  apply Hgen. destruct d; [|done]. by apply StronglySorted_reverse.
Qed.

(** Cutting a strictly sorted list at its [n]-th element. *)
Lemma sorted_cut {A} (R : A → A → Prop) `{!Transitive R} `{∀ x y, Decision (R x y)} (l : list A) (n : nat) x :
  (∀ a, ¬ R a a) → StronglySorted R l → last (take n l) = Some x → filter (R x) l = drop n l.
Proof.
  intros Hirr Hs. revert n. induction Hs as [|y l Hs IH Hy]; intros [|n] Hl; simpl in *; try done.
  destruct (last (take n l)) as [z|] eqn:E.
  - assert (x = z) as ->. { destruct (take n l); simpl in *; congruence. }
    rewrite filter_cons. rewrite decide_False; [by apply IH|].
    assert (z ∈ l) as Hz. { eapply subseteq_take. by eapply last_Some_elem_of. }
    rewrite Forall_forall in Hy. intros Hzy. apply (Hirr z). etrans; [done|by apply Hy].
  - apply last_None in E. rewrite E in Hl. injection Hl as ->.
    rewrite filter_cons. rewrite decide_False by apply Hirr.
    assert (drop n l = l) as ->. { destruct n; [done|]. by destruct l. }
    clear IH Hs E. induction Hy as [|z l Hz _ IH]; [done|]. rewrite filter_cons_True by done. by rewrite IH.
Qed.

(** The records a query selects, before the cursor. *)
Definition selected (label : string) (is_archived : option bool) (d : bool) (s : Store) : list NodeRecord :=
  let records := filter (λ n, nr_label n = label) (sorted_nodes d (all_nodes s)) in
  match is_archived with Some b => filter (λ n, nr_archived n = b) records | None => records end.

Definition after_id_ok (d : bool) (after : option string) (n : NodeRecord) : bool :=
  match after with
  | Some a => if d then String.ltb (nr_id n) a else String.ltb a (nr_id n)
  | None => true
  end.

Lemma filter_true {A} (P : A → Prop) `{∀ x, Decision (P x)} (l : list A) : (∀ x, P x) → filter P l = l.
Proof.
  intros HP. induction l as [|x l IH]; [done|]. rewrite filter_cons_True by done. by rewrite IH.
Qed.

Lemma query_label label arch d after limit s :
  query (Some label) arch d after limit s =
  (match after with Some a => require_id a;; Ok tt | None => Ok tt end;;
   match limit with Some l => validate_page_limit l;; Ok tt | None => Ok tt end;;
   let all := filter (λ n, after_id_ok d after n = true) (selected label arch d s) in
   Ok (match limit with Some l => take (Z.to_nat l) all | None => all end)).
Proof.
  unfold query, selected. destruct after as [a|]; [done|]. cbn [mbind res_bind].
  rewrite (filter_true (λ n, after_id_ok d None n = true)) by done. done.
Qed.

Lemma selected_sorted label arch d s : store_wf s → StronglySorted (id_before d) (selected label arch d s).
Proof.
  intros Hs. unfold selected. destruct arch; [apply StronglySorted_filter|]; by apply label_sorted.
Qed.

Lemma elem_of_sorted_nodes d l n : n ∈ sorted_nodes d l ↔ n ∈ l.
Proof.
  unfold sorted_nodes. destruct d; rewrite ?elem_of_reverse; by rewrite stable_sort_perm.
Qed.

Lemma elem_of_selected label arch d s n : store_wf s →
  n ∈ selected label arch d s ↔
  nodes s !! (label, nr_id n) = Some n ∧ (∀ b, arch = Some b → nr_archived n = b).
Proof.
  intros Hs.
  assert (n ∈ filter (λ n, nr_label n = label) (sorted_nodes d (all_nodes s))
    ↔ nodes s !! (label, nr_id n) = Some n) as Hn.
  { rewrite list_elem_of_filter, elem_of_sorted_nodes, elem_of_all_nodes by done. unfold nr_key. split.
    - by intros [<- ?].
    - intros Hn. pose proof (nw_key _ _ (sw_nodes s Hs _ _ Hn)) as Hk. unfold nr_key in Hk. by simplify_eq. }
  unfold selected. destruct arch as [b|]; [rewrite list_elem_of_filter|]; rewrite Hn; naive_solver.
Qed.

Lemma after_id_before d a n : after_id_ok d (Some (nr_id a)) n = true ↔ id_before d a n.
Proof. unfold id_before, after_id_ok. by destruct d. Qed.

Lemma next_page d label arch after s l n : store_wf s →
  last (take l (filter (λ n, after_id_ok d after n = true) (selected label arch d s))) = Some n →
  filter (λ m, after_id_ok d (Some (nr_id n)) m = true) (selected label arch d s)
  = drop l (filter (λ n, after_id_ok d after n = true) (selected label arch d s)).
Proof.
  intros Hs Hl. set (all := filter (λ n, after_id_ok d after n = true) (selected label arch d s)) in *.
  assert (after_id_ok d after n = true) as Ha.
  { apply last_Some_elem_of in Hl. apply subseteq_take in Hl. by apply list_elem_of_filter in Hl as [? _]. }
  assert (∀ x y, Decision (id_before d x y)) as Hdec by (intros; unfold id_before; apply _).
  rewrite <-(sorted_cut (id_before d) all l n); [|apply id_before_irrefl| |done].
  - unfold all. rewrite list_filter_filter. apply list_filter_iff. intros m.
    rewrite after_id_before. split; [|naive_solver]. intros Hm. split; [done|].
    destruct after as [a|]; [|done]. unfold id_before, after_id_ok in *. destruct d; eauto using str_ltb_trans.
  - apply StronglySorted_filter. by apply selected_sorted.
Qed.

(** On Work kinds, comparing ["kind/id"] strings is comparing pairs: no kind is a
    prefix of another. *)
Lemma compare_app_l a x y : String.compare (a +:+ x) (a +:+ y) = String.compare x y.
Proof. induction a as [|c a IH]; simpl; [done|]. by rewrite ascii_compare_refl. Qed.

Lemma resource_order (k k' : key) :
  k.1 ∈ CANONICAL_WORK_KINDS → k'.1 ∈ CANONICAL_WORK_KINDS →
  String.ltb (resource_of k) (resource_of k') = key_ltb k k'.
Proof.
  destruct k as [l i], k' as [l' i']. unfold resource_of, key_ltb. simpl. intros Hl Hl'.
  destruct (String.eqb_spec l l') as [->|Hne].
  - rewrite str_ltb_irrefl. simpl. unfold String.ltb. rewrite compare_app_l. simpl. done.
  - simpl. rewrite orb_false_r. unfold CANONICAL_WORK_KINDS in *.
    rewrite !elem_of_cons, elem_of_nil in Hl, Hl'.
    repeat (destruct Hl as [->|Hl]; [repeat (destruct Hl' as [->|Hl']; [done|]); done|]). done.
Qed.

Lemma sorted_keys_strict l : StronglySorted (λ a b, key_ltb a b = true) (sorted_keys l).
Proof.
  assert (NoDup (sorted_keys l)) as Hd.
  { unfold sorted_keys. rewrite sort_keys_perm. apply NoDup_remove_dups. }
  pose proof (sort_keys_sorted (remove_dups l)) as Hs. fold (sorted_keys l) in Hs.
  induction Hs as [|k l' Hs IH Hk]; [constructor|]. apply NoDup_cons in Hd as [Hni Hd].
  constructor; [by apply IH|]. rewrite Forall_forall in *. intros k' Hk'. specialize (Hk k' Hk').
  apply key_leb_spec in Hk as [->|?]; done.
Qed.

Lemma elem_of_sorted_keys l k : k ∈ sorted_keys l ↔ k ∈ l.
Proof. unfold sorted_keys. by rewrite sort_keys_perm, elem_of_remove_dups. Qed.

(** Strictly sorted lists with the same members are equal. *)
Lemma strict_sorted_ext (l l' : list key) :
  StronglySorted (λ a b, key_ltb a b = true) l → StronglySorted (λ a b, key_ltb a b = true) l' →
  (∀ k, k ∈ l ↔ k ∈ l') → l = l'.
Proof.
  intros Hs Hs' Hm. apply (StronglySorted_unique key_le).
  - clear -Hs. induction Hs as [|k l Hs IH Hk]; constructor; [done|]. eapply Forall_impl; [exact Hk|].
    intros k' ?. apply key_leb_spec. by right.
  - clear -Hs'. induction Hs' as [|k l Hs IH Hk]; constructor; [done|]. eapply Forall_impl; [exact Hk|].
    intros k' ?. apply key_leb_spec. by right.
  - apply NoDup_Permutation; [| |done].
    + clear -Hs. induction Hs as [|k l Hs IH Hk]; constructor; [|done]. intros Hin.
      rewrite Forall_forall in Hk. specialize (Hk k Hin). simpl in Hk. by rewrite key_ltb_irrefl in Hk.
    + clear -Hs'. induction Hs' as [|k l Hs IH Hk]; constructor; [|done]. intros Hin.
      rewrite Forall_forall in Hk. specialize (Hk k Hin). simpl in Hk. by rewrite key_ltb_irrefl in Hk.
Qed.

Lemma elem_of_related k rel inc after s k' :
  k' ∈ related_keys k rel inc after s ↔
  (∃ e, e ∈ edges s ∧ relationship e = rel ∧ edge_source inc e = k ∧ edge_target inc e = k')
  ∧ k'.1 ∈ CANONICAL_WORK_KINDS ∧ after_cursor after k' = true.
Proof.
  unfold related_keys. rewrite list_elem_of_fmap. setoid_rewrite list_elem_of_filter. naive_solver.
Qed.

(** The next page starts where the last one ended. *)
Lemma related_next k rel inc after s l kn :
  last (take l (sorted_keys (related_keys k rel inc after s))) = Some kn →
  sorted_keys (related_keys k rel inc (Some (resource_of kn)) s)
  = drop l (sorted_keys (related_keys k rel inc after s)).
Proof.
  intros Hl. assert (∀ a b : key, Decision (key_ltb a b = true)) as Hdec by (intros; apply _).
  assert (Transitive (λ a b, key_ltb a b = true)) as Htr by (intros a b c; apply key_ltb_trans).
  pose proof Hl as Hin. apply last_Some_elem_of, subseteq_take in Hin.
  rewrite elem_of_sorted_keys, elem_of_related in Hin. destruct Hin as (_&Hkn&Ha).
  rewrite <-(sorted_cut (λ a b, key_ltb a b = true) (sorted_keys (related_keys k rel inc after s)) l kn);
    [|intros a; by rewrite key_ltb_irrefl|apply sorted_keys_strict|done].
  apply strict_sorted_ext; [apply sorted_keys_strict|apply StronglySorted_filter, sorted_keys_strict|].
  intros k'. rewrite list_elem_of_filter, !elem_of_sorted_keys, !elem_of_related. unfold after_cursor at 1.
  split.
  - intros (He&Hk'&Hlt). rewrite resource_order in Hlt by done. split_and!; try done.
    destruct after as [a|]; [|done]. simpl in *. rewrite <-resource_order in Hlt by done.
    by eapply str_ltb_trans.
  - intros (Hlt&He&Hk'&_). rewrite resource_order by done. done.
Qed.

Lemma omap_nodes s (l : list key) : store_wf s → Forall (λ k, is_Some (nodes s !! k)) l →
  map nr_key (omap (λ k, nodes s !! k) l) = l.
Proof.
  intros Hs Hl. induction Hl as [|k l [n Hn] _ IH]; [done|]. simpl. rewrite Hn. simpl.
  f_equal; [by apply (sw_nodes s Hs)|exact IH].
Qed.

Lemma related_exist k rel inc after s : store_wf s →
  Forall (λ k', is_Some (nodes s !! k')) (sorted_keys (related_keys k rel inc after s)).
Proof.
  intros Hs. apply Forall_forall. intros k'. rewrite elem_of_sorted_keys, elem_of_related.
  intros ((e&He&_&_&<-)&_). pose proof (sw_edges s Hs) as Hw. rewrite Forall_forall in Hw.
  destruct (Hw e He). by destruct inc.
Qed.

End read_lemmas.

(** ** Properties *)

Section properties.
  Context {PY : Pydantic} {PL : PydanticLaws}.

(** A page of [query] is a prefix of the ordered listing of exactly the matching
    records, never longer than its limit (1 to 100), strictly ordered by
    identifier in the requested direction; and the query that continues after
    its last record returns exactly the rest of that listing, so following the
    cursor visits every record once, in either direction and under every
    archive filter. *)
Theorem query_pages label arch d after limit s page :
  store_wf s → query (Some label) arch d after (Some limit) s = Ok page →
  ∃ all, query (Some label) arch d after None s = Ok all
    ∧ page = take (Z.to_nat limit) all ∧ 1 <= limit <= 100
    ∧ StronglySorted (id_before d) all
    ∧ (∀ n, n ∈ all ↔ nodes s !! (label, nr_id n) = Some n
         ∧ (∀ b, arch = Some b → nr_archived n = b) ∧ after_id_ok d after n = true)
    ∧ (∀ n, last page = Some n →
         query (Some label) arch d (Some (nr_id n)) None s = Ok (drop (length page) all)).
Proof.
  intros Hs. rewrite !query_label. intros Hq. minv. cbv zeta in *. minv. subst.
  eexists. split; [match goal with H : match after with _ => _ end = _ |- _ => by rewrite H end|].
  split; [done|]. split; [unfold validate_page_limit, page_limit_ok in *; case_match; bools; [lia|done]|].
  split; [apply StronglySorted_filter; by apply selected_sorted|]. split.
  - intros n. rewrite list_elem_of_filter, elem_of_selected by done. naive_solver.
  - intros n Hn. rewrite query_label. pose proof Hn as Hin. apply last_Some_elem_of, subseteq_take in Hin.
    apply list_elem_of_filter in Hin as [_ Hin]. apply elem_of_selected in Hin as [Hin _]; [|done].
    pose proof (nw_id _ _ (sw_nodes s Hs _ _ Hin)) as Hid. simpl in Hid.
    unfold require_id. rewrite Hid. cbn [mbind res_bind]. cbv zeta. f_equal.
    erewrite next_page by done. rewrite length_take. destruct (decide (Z.to_nat limit <= length
      (filter (λ n, after_id_ok d after n = true) (selected label arch d s)))%nat).
    + f_equal. lia.
    + rewrite !drop_ge by lia. done.
Qed.

(** The keys an Arena confers are exactly those reachable from its direct
    members along child edges; the work-list loop always ends, on cyclic graphs
    too. *)
Theorem arena_descendants_closure arenas s k :
  k ∈ _arena_descendant_keys arenas s ↔
  ∃ r, r ∈ arena_roots arenas (edges s) ∧ rtc (λ a b, b ∈ children_of (edges s) a) r k.
Proof. apply descendants_spec. Qed.

(** A page of related work lists, in strict key order, the records at the other
    end of the subject's edges that come after the cursor, and the page after
    its last record's resource string is exactly the continuation: comparing
    resource strings skips and repeats nothing. *)
Theorem related_pages label i rel inc after limit s page :
  store_wf s → related_work_nodes label i rel inc after limit s = Ok page →
  let all := sorted_keys (related_keys (label, i) rel inc after s) in
  map nr_key page = take (Z.to_nat limit) all
  ∧ StronglySorted (λ a b, key_ltb a b = true) all
  ∧ (∀ k, k ∈ all ↔ k.1 ∈ CANONICAL_WORK_KINDS ∧ after_cursor after k = true
       ∧ ∃ e, e ∈ edges s ∧ relationship e = rel ∧ edge_source inc e = (label, i) ∧ edge_target inc e = k)
  ∧ (∀ n, last page = Some n → ∃ page',
       related_work_nodes label i rel inc (Some (resource_of (nr_key n))) limit s = Ok page'
       ∧ map nr_key page' = take (Z.to_nat limit) (drop (length page) all)).
Proof.
  intros Hs Hp. pose proof Hp as Hp'. unfold related_work_nodes in Hp. minv. cbv zeta in *. subst.
  set (all := sorted_keys (related_keys (label, i) rel inc after s)) in *.
  assert (∀ l, map nr_key (omap (λ k, nodes s !! k) (take l all)) = take l all) as Hk.
  { intros l. apply omap_nodes; [done|]. apply Forall_take. by apply related_exist. }
  split; [apply Hk|]. split; [apply sorted_keys_strict|]. split.
  { intros k. unfold all. rewrite elem_of_sorted_keys, elem_of_related. naive_solver. }
  intros n Hn. set (page := omap _ _) in *. assert (last (take (Z.to_nat limit) all) = Some (nr_key n)) as Hl.
  { rewrite <-Hk. fold page. change (map nr_key page) with (nr_key <$> page). rewrite fmap_last. by rewrite Hn. }
  unfold related_work_nodes. rewrite Hp. cbn [mbind res_bind].
  match goal with H : negb _ = false |- _ => rewrite H end. cbn [raise_if mbind res_bind].
  eexists. split; [done|]. unfold all in Hl. rewrite (related_next _ _ _ _ _ _ _ Hl). fold all.
  rewrite omap_nodes; [|done|apply Forall_take, Forall_drop; by apply related_exist].
  f_equal. assert (length page = length (take (Z.to_nat limit) all)) as -> by (rewrite <-Hk; by rewrite length_map).
  rewrite length_take. destruct (decide (Z.to_nat limit <= length all)%nat); [f_equal; lia|].
  rewrite !drop_ge by lia. done.
Qed.

End properties.

(** ** Witnesses *)

Section witnesses.

#[local] Existing Instance reference_pydantic.
#[local] Existing Instance reference_pydantic_laws.
#[local] Existing Instance epoch_clock.

Definition ex_notes : list call :=
  [call_create_node "Note" "b" ∅; call_create_node "Note" "a" ∅; call_create_node "Note" "c" ∅].

Lemma query_pages_witness : ∃ all,
  query (Some "Note") (Some false) false None None (run_calls ex_notes empty_store) = Ok all
  ∧ map nr_id all = ["a"; "b"; "c"].
Proof.
  destruct (query_pages "Note" (Some false) false None 2 (run_calls ex_notes empty_store)
    [Node "Note" "a" ∅ false; Node "Note" "b" ∅ false]) as (all&Hq&_).
  - apply run_calls_keeps; [done|apply empty_store_wf].
  - by vm_compute.
  - exists all. split; [done|]. vm_compute in Hq. by injection Hq as <-.
Defined.

Definition ex_tasks : list call :=
  let task i := call_create_node "Task" i (to_node_properties
    {| kind := KTask; id := i; title := "t"; description := ""; status := DRAFT; created_at := epoch;
       updated_at := epoch; version := 1; artifact_ids := []; external_link_ids := []; priority := 0;
       workflow_json := None; progress := None; archived := false; progress_record_id := None;
       progress_migration_json := None |}) in
  [task "a"; task "b"; task "c"; call_create_edge "Task" "a" "BLOCKS" "Task" "c" ∅;
   call_create_edge "Task" "a" "BLOCKS" "Task" "b" ∅].

Definition ex_blocked : list NodeRecord :=
  match related_work_nodes "Task" "a" "BLOCKS" false None 1 (run_calls ex_tasks empty_store) with
  | Ok page => page
  | Err _ => []
  end.

Lemma related_pages_witness : map nr_key ex_blocked = [("Task", "b")].
Proof.
  destruct (related_pages "Task" "a" "BLOCKS" false None 1 (run_calls ex_tasks empty_store) ex_blocked)
    as [Hp _].
  - apply run_calls_keeps; [by vm_compute|apply empty_store_wf].
  - by vm_compute.
  - rewrite Hp. by vm_compute.
Defined.

End witnesses.
