(* ===== verification/Repository.v ===== *)
(** * The work-object repository

    [WorkObjectRepository] and [ContentChanges] of
    [src/devgraph/model/repository.py]: typed reads, creation, compare-and-set
    updates, archival and generic status transitions over the storage. *)

From stdpp Require Import base gmap strings list sorting.
From Stdlib Require Import ZArith Ascii String.
From S2P Require Import Prelude Json Datetime Validation WorkflowContract Model Storage StorageWf StorageReads.

Local Open Scope Z_scope.

(** ** Content changes *)

(** [None] is [UNSET]. *)
Record ContentChanges := {
  cc_title : option string;
  cc_description : option string;
  cc_priority : option Z;
  cc_artifact_ids : option (list string);
  cc_external_link_ids : option (list string)
}.

(** [ContentChanges.__post_init__]; the attribute types stand for its type checks. *)
Definition changes_post_init (c : ContentChanges) : res ContentChanges :=
  match c with
  | {| cc_title := None; cc_description := None; cc_priority := None; cc_artifact_ids := None;
       cc_external_link_ids := None |} => Err (ValueError "content changes cannot be empty")
  | _ =>
      raise_if (bool_decide (cc_title c = Some "")) (ValueError "title cannot be empty");;
      match cc_artifact_ids c with Some l => require_ids l;; Ok tt | None => Ok tt end;;
      match cc_external_link_ids c with Some l => require_ids l;; Ok tt | None => Ok tt end;;
      Ok c
  end.

(** A field of the mapping with the type its check demands. *)
Definition typed_field {A} (name : string) (f : value → option A) (d : list (string * value)) : res (option A) :=
  match dict_get name d with
  | None => Ok None
  | Some v => match f v with Some a => Ok (Some a) | None => Err (TypeError name) end
  end.

Definition as_strings (v : value) : option (list string) :=
  match v with VList l => mapM get_str l | _ => None end.

Definition as_int (v : value) : option Z := match v with VInt z => Some z | _ => None end.

Definition CONTENT_FIELDS : list string :=
  ["title"; "description"; "priority"; "artifact_ids"; "external_link_ids"].

Definition as_value_list (v : value) : option (list value) := match v with VList l => Some l | _ => None end.

(** [ContentChanges.from_mapping] with the checks of [__post_init__] in their
    order: list types, string types, the empty title, the priority, identifiers. *)
Definition from_mapping (d : list (string * value)) : res ContentChanges :=
  raise_if (bool_decide (d = []) || negb (forallb (λ kv, str_in kv.1 CONTENT_FIELDS) d))
    (ValueError "invalid content changes");;
  typed_field "artifact_ids" as_value_list d;;
  typed_field "external_link_ids" as_value_list d;;
  t ← typed_field "title" get_str d;
  ds ← typed_field "description" get_str d;
  raise_if (bool_decide (t = Some "")) (ValueError "title cannot be empty");;
  p ← typed_field "priority" as_int d;
  a ← typed_field "artifact_ids" as_strings d;
  match a with Some l => require_ids l;; Ok tt | None => Ok tt end;;
  e ← typed_field "external_link_ids" as_strings d;
  changes_post_init {| cc_title := t; cc_description := ds; cc_priority := p; cc_artifact_ids := a;
                       cc_external_link_ids := e |}.

(** [replace(current, **values)] before the timestamp and version. *)
Definition apply_changes (c : ContentChanges) (w : WorkObject) : WorkObject :=
  set_content (default (title w) (cc_title c)) (default (description w) (cc_description c))
    (default (artifact_ids w) (cc_artifact_ids c)) (default (external_link_ids w) (cc_external_link_ids c))
    (default (priority w) (cc_priority c)) w.

(** Some content other than the priority differs. *)
Definition changes_evidence_basis (w w' : WorkObject) : bool :=
  negb (bool_decide (title w = title w') && bool_decide (description w = description w')
        && bool_decide (artifact_ids w = artifact_ids w')
        && bool_decide (external_link_ids w = external_link_ids w')).

Section repository.
  Context `{Pydantic, Clock}.

(** ** Reads *)

Definition _require_known_kind (k : string) : res unit :=
  raise_if (bool_decide (WORK_OBJECT_TYPES k = None)) (UnknownWorkObjectKindError "unknown work-object kind").

Definition get_by_id (k i : string) (s : Store) : res WorkObject :=
  _require_known_kind k;;
  require_id i;;
  o ← get_node k i s;
  match o with
  | None => Err (MissingWorkObjectError k i)
  | Some n => _from_node n
  end.

Definition query_work (k : string) (include_archived descending : bool) (after_id : option string)
    (limit : Z) (s : Store) : res (list WorkObject) :=
  _require_known_kind k;;
  match after_id with Some a => require_id a;; Ok tt | None => Ok tt end;;
  validate_page_limit limit;;
  ns ← query (Some k) (if include_archived then None else Some false) descending after_id (Some limit) s;
  res_mapM _from_node ns.

(** ** Writes *)

Definition _reject_creation_status_side_doors (w : WorkObject) : res unit :=
  raise_if (archived w || bool_decide (status w = ARCHIVED))
    (InvalidStatusTransitionError "create cannot bypass archive semantics");;
  raise_if (bool_decide (kind w = KProposal) && bool_decide (status w = ACCEPTED))
    (InvalidStatusTransitionError "Proposal acceptance requires Decision provenance").

(** The block under [with self._storage.transaction()] is a definition of its
    own in each operation. *)
Definition create_body (w : WorkObject) : M Store unit :=
  o ← reads (get_node (kind_name (kind w)) (id w));
  guard_raise (bool_decide (is_Some o)) (WorkObjectAlreadyExistsError "existing");;
  M_rethrow is_key_error (λ _, WorkObjectAlreadyExistsError "existing")
    (create_node (kind_name (kind w)) (id w) (to_node_properties w));;
  mret tt.

Definition create (w : WorkObject) : M Store WorkObject :=
  lift (_require_known_kind (kind_name (kind w)));;
  lift (require_id (id w));;
  lift (require_version (version w));;
  lift (require_priority (priority w));;
  lift (_reject_creation_status_side_doors w);;
  transaction (create_body w);;
  mret w.

Definition check_version (k i : string) (expected actual : Z) : M Store unit :=
  guard_raise (negb (actual =? expected)) (WorkObjectVersionConflictError k i expected actual).

Definition reopen_first : exn :=
  InvalidStatusTransitionError "Reopen completed work before changing its evidence basis.".

Definition update_body (w : WorkObject) (expected_version : Z) (current : WorkObject) : M Store WorkObject :=
  guard_raise (archived current) (InvalidStatusTransitionError "cannot update archived");;
  check_version (kind_name (kind w)) (id w) expected_version (version current);;
  guard_raise (negb (bool_decide (status w = status current)))
    (InvalidStatusTransitionError "update cannot change status");;
  guard_raise (bool_decide (progress current = Some "done") && changes_evidence_basis current w) reopen_first;;
  now ← utc_now;
  updated ← lift (replace (λ c, touch now (set_content (title w) (description w) (artifact_ids w)
                             (external_link_ids w) (priority w) c)) current);
  update_node (kind_name (kind w)) (id w) (to_node_properties updated);;
  mret updated.

Definition update (w : WorkObject) (expected_version : Z) : M Store WorkObject :=
  lift (require_id (id w));;
  lift (require_version (version w));;
  lift (require_priority (priority w));;
  lift (require_version expected_version);;
  transaction (
    current ← reads (get_by_id (kind_name (kind w)) (id w));
    update_body w expected_version current).

Definition update_content_body (k i : string) (expected_version : Z) (changes : ContentChanges)
    (current : WorkObject) : M Store WorkObject :=
  guard_raise (archived current) (InvalidStatusTransitionError "cannot update archived");;
  check_version k i expected_version (version current);;
  guard_raise (bool_decide (progress current = Some "done")
               && changes_evidence_basis current (apply_changes changes current)) reopen_first;;
  now ← utc_now;
  updated ← lift (replace (λ c, touch now (apply_changes changes c)) current);
  update_node k i (to_node_properties updated);;
  mret updated.

Definition update_content (k i : string) (expected_version : Z) (changes : ContentChanges) : M Store WorkObject :=
  lift (_require_known_kind k);;
  lift (require_id i);;
  lift (require_version expected_version);;
  lift (match cc_priority changes with Some p => require_priority p;; Ok tt | None => Ok tt end);;
  transaction (
    o ← reads (get_node k i);
    current ← lift (match o with None => Err (MissingWorkObjectError k i) | Some n => _from_node n end);
    update_content_body k i expected_version changes current).

Definition archive_body (k i : string) (current : WorkObject) : M Store WorkObject :=
  guard_raise (archived current) (InvalidStatusTransitionError "already archived");;
  now ← utc_now;
  w ← lift (if str_in k TODO_KINDS then replace (λ c, touch now (set_archived true c)) current
            else with_status ARCHIVED now current);
  archive_node k i (Some (to_node_properties w));;
  mret w.

Definition archive (k i : string) : M Store WorkObject :=
  lift (_require_known_kind k);;
  lift (require_id i);;
  transaction (current ← reads (get_by_id k i); archive_body k i current).

Definition transition_body (k i : string) (new_status : WorkStatus) (current : WorkObject) : M Store WorkObject :=
  guard_raise (archived current
               || negb (bool_decide ((status current, new_status) ∈ GENERIC_STATUS_TRANSITIONS)))
    (InvalidStatusTransitionError "invalid transition");;
  guard_raise (bool_decide (new_status = ACCEPTED) && bool_decide (kind current = KProposal))
    (InvalidStatusTransitionError "Proposal acceptance requires Decision provenance");;
  now ← utc_now;
  w ← lift (with_status new_status now current);
  update_node k i (to_node_properties w);;
  mret w.

Definition transition_status (k i : string) (new_status : WorkStatus) : M Store WorkObject :=
  lift (_require_known_kind k);;
  lift (require_id i);;
  transaction (current ← reads (get_by_id k i); transition_body k i new_status current).

End repository.

(** ** Lemmas *)

Section lemmas.
  Context {PY : Pydantic} {PL : PydanticLaws} {CK : Clock}.
  Implicit Types (s : Store) (w cur : WorkObject).

(** The store holds a work object: its record reads back as the object and its
    creation time is in printed form. *)
Definition holds s w : Prop :=
  ∃ p, nodes s !! work_key w = Some (Node (kind_name (kind w)) (id w) p (archived w))
    ∧ storable w ∧ reads_from p w ∧ schema_ok p w
    ∧ p !! "created_at" = Some (VStr (isoformat (created_at w))).

(** Everything but the record under one key is as before. *)
Definition only_changes (k : key) s s' : Prop :=
  (∀ k', k' ≠ k → nodes s' !! k' = nodes s !! k') ∧ edges s' = edges s
  ∧ applied_constraints s' = applied_constraints s ∧ is_Some (tx s') = is_Some (tx s).

Lemma known_kind_ok k : k ∈ work_kinds → _require_known_kind (kind_name k) = Ok tt.
Proof. intros. unfold _require_known_kind. by rewrite WORK_OBJECT_TYPES_name. Qed.

Lemma holds_get s w : holds s w → get_by_id (kind_name (kind w)) (id w) s = Ok w.
Proof.
  intros (p&Hn&Hw&Hr&Hs&_). unfold get_by_id, _require_known_kind, get_node.
  rewrite WORK_OBJECT_TYPES_name by by apply st_kind. cbn.
  unfold require_id. rewrite (st_id w Hw). cbn [mbind res_bind]. unfold work_key in Hn. rewrite Hn.
  by apply from_node_reads.
Qed.

Lemma get_by_id_inv k i s w : get_by_id k i s = Ok w →
  ∃ n, nodes s !! (k, i) = Some n ∧ _from_node n = Ok w ∧ WORK_OBJECT_TYPES k ≠ None ∧ _ID_PATTERN i = true.
Proof.
  unfold get_by_id, get_node, _require_known_kind. intros Hg. minv. bools.
  match goal with H : require_id i = Ok _ |- _ => apply require_id_Ok in H as [_ ?] end.
  repeat match goal with H : Some _ = _ |- _ => symmetry in H end. subst.
  destruct (nodes s !! (k, i)) as [n|] eqn:En; [|done]. eauto.
Qed.

(** What survives of the optional properties when an object is written back. *)
Definition keeps_optional cur w' : Prop :=
  (workflow_json w' = None → workflow_json cur = None) ∧ (progress w' = None → progress cur = None)
  ∧ (progress_record_id w' = None → progress_record_id cur = None)
  ∧ progress_migration_json w' = progress_migration_json cur.

Lemma merged_opt (o o' : option string) : (o = None → o' = None) →
  (VStr <$> o) ∪ (VStr <$> o') = VStr <$> o.
Proof. destruct o; [by destruct o'|]. intros ->; done. Qed.

Lemma merged_reads ep cur w' : storable w' → reads_from ep cur → schema_ok ep cur →
  kind w' = kind cur → keeps_optional cur w' →
  reads_from (to_node_properties w' ∪ ep) w' ∧ schema_ok (to_node_properties w' ∪ ep) w'.
Proof.
  intros Hw Hr Hs Hk (Hwf&Hp&Hrec&Hm).
  assert (∀ name v, base_properties w' !! name = Some v →
    (to_node_properties w' ∪ ep) !! name = Some v) as Hb.
  { intros. apply lookup_union_Some_l. by apply tnp_base. }
  destruct (st_created w' Hw), (st_updated w' Hw). split.
  - constructor; [by apply Hb..| | | | | | | | | | ].
    + rewrite (Hb "created_at" (VStr (isoformat (created_at w')))) by done. by apply canonical_timestamp_iso.
    + rewrite (Hb "updated_at" (VStr (isoformat (updated_at w')))) by done. by apply canonical_timestamp_iso.
    + by apply Hb.
    + by apply Hb.
    + by apply Hb.
    + by apply Hb.
    + rewrite lookup_union, tnp_workflow, (rf_workflow ep cur Hr). by apply merged_opt.
    + rewrite lookup_union, tnp_progress, (rf_progress ep cur Hr).
      destruct (is_todo (kind w')) eqn:E; [by apply merged_opt|].
      destruct (st_plain w' Hw E) as (Hn&_). rewrite Hn, (Hp Hn). done.
    + rewrite lookup_union, tnp_record, (rf_record ep cur Hr).
      destruct (is_todo (kind w')) eqn:E; [by apply merged_opt|].
      destruct (st_plain w' Hw E) as (_&Hn&_). rewrite Hn, (Hrec Hn). done.
    + rewrite lookup_union, tnp_migration, (rf_migration ep cur Hr), Hm.
      destruct (is_todo (kind w')); by destruct (progress_migration_json cur).
  - unfold schema_ok. rewrite lookup_union, tnp_schema.
    destruct (is_todo (kind w')) eqn:E; [right; split; [by destruct (ep !! _)|done]|].
    destruct Hs as [(->&_)|[_ Ht]]; [|by rewrite <-Hk, E in Ht].
    left. destruct (st_plain w' Hw E) as (?&?&?). done.
Qed.

Lemma status_tnp w : status_is_archived (to_node_properties w) = bool_decide (status w = ARCHIVED).
Proof.
  unfold status_is_archived. rewrite (tnp_base w "status" (VStr (status_value (status w)))) by done.
  by destruct (status w).
Qed.

Lemma status_reads p w : reads_from p w → status_is_archived p = bool_decide (status w = ARCHIVED).
Proof. intros Hr. unfold status_is_archived. rewrite (rf_status p w Hr). by destruct (status w). Qed.

Lemma schema_truthy_tnp w : opt_truthy (to_node_properties w !! "progress_schema") = is_todo (kind w).
Proof. rewrite tnp_schema. by destruct (is_todo (kind w)). Qed.

(** Writing a successor of the held object through [update_node]. *)
Lemma update_node_holds s cur w' : holds s cur → storable w' → kind w' = kind cur → id w' = id cur →
  created_at w' = created_at cur → archived cur = false → version w' = version cur + 1 →
  archived w' = bool_decide (status w' = ARCHIVED) && negb (bool_decide (status cur = ARCHIVED)) →
  keeps_optional cur w' →
  ∃ n, update_node (kind_name (kind cur)) (id cur) (to_node_properties w') s = (Ok n, put_node (work_key cur) n s)
    ∧ holds (put_node (work_key cur) n s) w'.
Proof.
  intros (p&Hn&Hw&Hr&Hs&Hc) Hw' Hk Hi Hca Ha Hv Har Hko. unfold work_key in Hn.
  destruct (merged_reads p cur w' Hw' Hr Hs Hk Hko) as [Hr' Hs'].
  assert (_is_canonical_payload (kind_name (kind cur)) p = true) as Hpay.
  { unfold _is_canonical_payload. rewrite work_kind_canonical by by apply st_kind.
    by rewrite (rf_kind p cur Hr). }
  exists (Node (kind_name (kind cur)) (id cur) (to_node_properties w' ∪ p) (archived w')).
  split; [|exists (to_node_properties w' ∪ p); split_and!; try done].
  - unfold update_node, _require_node, get_node, require_id. rewrite (st_id cur Hw).
    unfold mbind, M_bind, lift, reads. cbn [res_bind mbind of_option]. rewrite Hn. cbn [of_option res_bind].
    cbn [nr_properties nr_archived nr_label nr_id]. rewrite Hpay, Ha. cbn [orb andb].
    assert (status_is_archived p && negb (opt_truthy (p !! "progress_schema")) = false) as ->.
    { destruct Hs as [(_&_&_&Hst)|[-> _]]; [|by rewrite andb_false_r].
      rewrite (status_reads p cur Hr), <-Hst, Ha. done. }
    cbn [guard_raise]. rewrite validate_reads; [|done..]. cbn [malformed rethrow res_bind].
    rewrite schema_truthy_tnp, status_tnp, <-Hk, <-Hi. rewrite validate_tnp; [|done|].
    2: { intros Ht. rewrite Ht. by destruct (st_plain w' Hw' Ht) as (_&_&->). }
    cbn [malformed rethrow res_bind]. unfold prop.
    rewrite !restrict_lookup by (by apply str_in_spec). rewrite Hc, (rf_version p cur Hr).
    rewrite (tnp_base w' "created_at" (VStr (isoformat (created_at w')))) by done.
    rewrite (tnp_base w' "version" (VInt (version w'))) by done. cbn [from_option]. unfold Datatypes.id.
    cbn [get_int]. rewrite Hca, bool_decide_true, Hv, Z.eqb_refl by done. cbn [andb negb raise_if].
    unfold modify, mret, M_ret. cbn [res_bind]. rewrite status_tnp, (status_reads p cur Hr), Har.
    unfold work_key. by rewrite Hk, Hi.
  - simpl. unfold work_key. rewrite Hk, Hi. by rewrite lookup_insert_eq.
  - apply lookup_union_Some_l. by apply tnp_base.
Qed.

(** ** Running a transaction body to its end *)

Definition opened s : Store := if bool_decide (tx s = None) then begin_tx s else s.

Lemma opened_graph s :
  nodes (opened s) = nodes s ∧ edges (opened s) = edges s ∧ ticks (opened s) = ticks s
  ∧ applied_constraints (opened s) = applied_constraints s.
Proof. unfold opened. by case_match. Qed.

Lemma opened_rollback s : is_rollback_only s = false → is_rollback_only (opened s) = false.
Proof. unfold opened. by case_match. Qed.

Lemma holds_nodes s s' w : nodes s' = nodes s → holds s w → holds s' w.
Proof. unfold holds. by intros ->. Qed.

Lemma holds_opened s w : holds s w → holds (opened s) w.
Proof. apply holds_nodes, opened_graph. Qed.

Lemma holds_tick s w : holds s w → holds (tick s) w.
Proof. done. Qed.

(** A body that wrote one record, before or after reading the clock. *)
Lemma transaction_put {A} (body : M Store A) s a k n s2 : is_rollback_only s = false →
  s2 = opened s ∨ s2 = tick (opened s) → body (opened s) = (Ok a, put_node k n s2) →
  ∃ s', transaction body s = (Ok a, s') ∧ only_changes k s s'
    ∧ nodes s' = <[k := n]> (nodes s) ∧ tx s' = tx s.
Proof.
  intros Hr Hs2 Hb. destruct (opened_graph s) as (Hn&He&Ht&Hc). eexists. split.
  { apply transaction_Ok. fold (opened s). eexists. split; [exact Hb|]. split; [|done].
    apply opened_rollback in Hr. by destruct Hs2 as [->| ->]. }
  assert (tx (if bool_decide (tx s = None) then set_tx None (put_node k n s2) else put_node k n s2) = tx s) as Htx.
  { unfold opened in *. case_match; [simpl; by bools|by destruct Hs2 as [->| ->]]. }
  unfold only_changes. rewrite Htx.
  repeat split; destruct (bool_decide (tx s = None)); simpl; destruct Hs2 as [->| ->]; simpl;
    rewrite ?Hn, ?He, ?Ht, ?Hc; try done; intros; by apply lookup_insert_ne.
Qed.

(** A body that raised. *)
Lemma transaction_raise {A} (body : M Store A) s e s1 : body (opened s) = (Err e, s1) →
  ∃ s', transaction body s = (Err e, s') ∧ nodes s' = nodes s ∧ edges s' = edges s ∧ tx s' = tx s.
Proof.
  intros Hb. destruct (transaction body s) as [r s'] eqn:E. exists s'.
  assert (r = Err e) as ->.
  { unfold transaction in E. fold (opened s) in E. rewrite Hb in E. congruence. }
  apply transaction_Err in E. naive_solver.
Qed.

Lemma clock_aware n : datetime_ok (clock n) = true ∧ aware (clock n) = true.
Proof. destruct (clock_ok n) as [? Hu]. split; [done|]. unfold aware. by rewrite Hu. Qed.

(** The tail every write shares: read the clock, rebuild, store. *)
Lemma write_back s cur (g : datetime → res WorkObject) w' : holds s cur → g (clock (ticks s)) = Ok w' →
  storable w' → kind w' = kind cur → id w' = id cur → created_at w' = created_at cur →
  archived cur = false → version w' = version cur + 1 →
  archived w' = bool_decide (status w' = ARCHIVED) && negb (bool_decide (status cur = ARCHIVED)) →
  keeps_optional cur w' →
  ∃ n, (now ← utc_now; updated ← lift (g now);
        update_node (kind_name (kind cur)) (id cur) (to_node_properties updated);; mret updated) s
       = (Ok w', put_node (work_key cur) n (tick s))
    ∧ ∀ s', nodes s' = <[work_key cur := n]> (nodes s) → holds s' w'.
Proof.
  intros Hc Hg Hw' Hk Hi Hca Ha Hv Har Hko.
  destruct (update_node_holds (tick s) cur w') as (n&Hu&Hh); try done.
  exists n. split.
  - unfold mbind, M_bind, utc_now, lift. rewrite Hg. by rewrite Hu.
  - intros s' Hs'. eapply holds_nodes; [|exact Hh]. done.
Qed.

Lemma replace_storable f w : storable (f w) → replace f w = Ok (f w).
Proof. intros. unfold replace. by apply post_init_storable. Qed.

(** [update] on a held object with every precondition met. *)
Lemma update_succeeds s cur w : holds s cur → kind w = kind cur → id w = id cur →
  1 <= version w <= SIGNED_64_MAX → SIGNED_64_MIN <= priority w <= SIGNED_64_MAX →
  Forall (λ x, _ID_PATTERN x = true) (artifact_ids w) →
  Forall (λ x, _ID_PATTERN x = true) (external_link_ids w) →
  archived cur = false → status w = status cur → version cur < SIGNED_64_MAX →
  (progress cur = Some "done" → changes_evidence_basis cur w = false) → is_rollback_only s = false →
  let w' := touch (clock (ticks s)) (set_content (title w) (description w) (artifact_ids w)
              (external_link_ids w) (priority w) cur) in
  ∃ s', update w (version cur) s = (Ok w', s') ∧ holds s' w' ∧ only_changes (work_key cur) s s' ∧ tx s' = tx s.
Proof.
  intros Hc Hk Hi Hvw Hpw Haw Hew Ha Hst Hlt Hdone Hrb w'.
  assert (storable cur) as Hcur by (by destruct Hc as (?&_&?&_)).
  destruct (clock_aware (ticks s)) as [Hck1 Hck2].
  assert (storable w') as Hw'.
  { apply storable_touch; simpl; try done. by apply storable_content. }
  destruct (write_back (opened s) cur (λ now, replace (λ c, touch now (set_content (title w) (description w)
    (artifact_ids w) (external_link_ids w) (priority w) c)) cur) w') as (n&Hrun&Hh); try done.
  { by apply holds_opened. }
  { destruct (opened_graph s) as (_&_&->&_). by rewrite replace_storable. }
  { simpl. rewrite Ha. by destruct (status cur). }
  destruct (transaction_put (current ← reads (get_by_id (kind_name (kind w)) (id w));
    update_body w (version cur) current) s w' (work_key cur) n _ Hrb (or_intror eq_refl)) as (s'&Hs'&Hoc&Hn&Htx).
  { rewrite Hk, Hi. mgo_step; [by apply holds_get, holds_opened|]. unfold update_body. mgo_step; [done|].
    unfold check_version. mgo_step; [by rewrite Z.eqb_refl|]. mgo_step; [by rewrite (bool_decide_true _ Hst)|].
    mgo_step; [case_bool_decide; [by rewrite Hdone|done]|]. by rewrite Hk, Hi. }
  exists s'. split; [|split; [|done]].
  - unfold update. mgo_step; [apply require_id_Ok; split; [done|]; rewrite Hi; by apply st_id|].
    mgo_step; [by apply require_version_Ok|]. mgo_step; [by apply require_priority_Ok|].
    mgo_step; [by apply require_version_Ok; split; [|apply st_version]|]. exact Hs'.
  - apply Hh. by destruct (opened_graph s) as (->&_).
Qed.

(** [create] of a storable object under a free key. *)
Lemma create_succeeds s w : storable w → printable w → nodes s !! work_key w = None →
  archived w = false → status w ≠ ARCHIVED → ¬ (kind w = KProposal ∧ status w = ACCEPTED) →
  is_rollback_only s = false →
  ∃ s', create w s = (Ok w, s') ∧ holds s' w ∧ only_changes (work_key w) s s' ∧ tx s' = tx s.
Proof.
  intros Hw Hp Hk Ha Hst Hprop Hrb. set (n := Node (kind_name (kind w)) (id w) (to_node_properties w) false).
  unfold work_key in Hk. destruct (opened_graph s) as (Hon&_).
  destruct (transaction_put (create_body w) s tt (work_key w) n (opened s) Hrb (or_introl eq_refl)) as (s'&Hs'&Hoc&Hn&Htx).
  { unfold create_body, mbind, M_bind, reads, get_node, require_id. rewrite (st_id w Hw). cbn [mbind res_bind].
    rewrite Hon, Hk. unfold guard_raise. cbn. unfold M_rethrow, create_node, mbind, M_bind, lift, require_id, gets.
    rewrite (st_id w Hw). unfold _is_canonical_payload. rewrite work_kind_canonical by by apply st_kind.
    rewrite (tnp_base w "kind" (VStr (kind_name (kind w)))) by done. cbn [andb bool_decide].
    rewrite bool_decide_true by done. cbn [andb]. rewrite validate_tnp by done. cbn [malformed rethrow].
    rewrite Hon, Hk. unfold guard_raise. cbn. done. }
  exists s'. split.
  - unfold create. mgo_step; [by apply known_kind_ok, st_kind|]. mgo_step; [by apply require_id_Ok; split; [|apply st_id]|].
    mgo_step; [by apply require_version_Ok; split; [|apply st_version]|].
    mgo_step; [by apply require_priority_Ok; split; [|apply st_priority]|].
    mgo_step; [|by eapply M_bind_intro; [exact Hs'|]].
    unfold _reject_creation_status_side_doors. rewrite Ha, (bool_decide_false _ Hst). cbn [orb].
    assert (bool_decide (kind w = KProposal) && bool_decide (status w = ACCEPTED) = false) as ->; [|done].
    apply andb_false_iff. repeat case_bool_decide; naive_solver.
  - split; [|done]. exists (to_node_properties w). rewrite Hn, lookup_insert_eq, Ha.
    split_and!; [done|done|by apply tnp_reads|by apply tnp_schema_ok|by apply tnp_base].
Qed.

(** [transition_status] along the table. *)
Lemma transition_succeeds s cur st : holds s cur → archived cur = false →
  (status cur, st) ∈ GENERIC_STATUS_TRANSITIONS → ¬ (st = ACCEPTED ∧ kind cur = KProposal) →
  version cur < SIGNED_64_MAX → is_rollback_only s = false →
  let w' := touch (clock (ticks s)) (set_archived (archived cur) (set_status st cur)) in
  ∃ s', transition_status (kind_name (kind cur)) (id cur) st s = (Ok w', s')
    ∧ holds s' w' ∧ only_changes (work_key cur) s s' ∧ tx s' = tx s.
Proof.
  intros Hc Ha Hin Hprop Hlt Hrb w'.
  assert (storable cur) as Hcur by (by destruct Hc as (?&_&?&_)).
  destruct (clock_aware (ticks s)) as [Hck1 Hck2].
  assert (st ≠ ARCHIVED) as Hna.
  { intros ->. unfold GENERIC_STATUS_TRANSITIONS in Hin. rewrite !elem_of_cons, elem_of_nil in Hin. naive_solver. }
  assert (storable w') as Hw'.
  { apply storable_touch; simpl; try done. apply storable_status; [done|]. intros _.
    by rewrite Ha, (bool_decide_false _ Hna). }
  destruct (write_back (opened s) cur (λ now, with_status st now cur) w') as (n&Hrun&Hh); try done.
  { by apply holds_opened. }
  { destruct (opened_graph s) as (_&_&->&_). unfold with_status.
    destruct (decide (st = ARCHIVED)); [done|]. by rewrite replace_storable. }
  { simpl. by rewrite Ha, (bool_decide_false _ Hna). }
  destruct (transaction_put (current ← reads (get_by_id (kind_name (kind cur)) (id cur));
    transition_body (kind_name (kind cur)) (id cur) st current)
    s w' (work_key cur) n _ Hrb (or_intror eq_refl)) as (s'&Hs'&Hoc&Hn&Htx).
  { mgo_step; [by apply holds_get, holds_opened|]. unfold transition_body.
    mgo_step; [by rewrite Ha, (bool_decide_true _ Hin)|]. mgo_step; [|exact Hrun].
    apply andb_false_iff. repeat case_bool_decide; naive_solver. }
  exists s'. split; [|split; [|done]].
  - unfold transition_status. mgo_step; [by apply known_kind_ok, st_kind|].
    mgo_step; [by apply require_id_Ok; split; [|apply st_id]|]. exact Hs'.
  - apply Hh. by destruct (opened_graph s) as (->&_).
Qed.

(** [update_content] with every precondition met. *)
Lemma update_content_succeeds s cur c : holds s cur → archived cur = false → version cur < SIGNED_64_MAX →
  storable (apply_changes c cur) → (∀ p, cc_priority c = Some p → SIGNED_64_MIN <= p <= SIGNED_64_MAX) →
  (progress cur = Some "done" → changes_evidence_basis cur (apply_changes c cur) = false) →
  is_rollback_only s = false →
  let w' := touch (clock (ticks s)) (apply_changes c cur) in
  ∃ s', update_content (kind_name (kind cur)) (id cur) (version cur) c s = (Ok w', s')
    ∧ holds s' w' ∧ only_changes (work_key cur) s s' ∧ tx s' = tx s.
Proof.
  intros Hc Ha Hlt Hst Hpr Hdone Hrb w'. pose proof Hc as (p&Hnode&Hcur&Hr&Hs&_).
  destruct (clock_aware (ticks s)) as [Hck1 Hck2].
  assert (storable w') as Hw' by by apply storable_touch.
  destruct (write_back (opened s) cur (λ now, replace (λ c0, touch now (apply_changes c c0)) cur) w')
    as (n&Hrun&Hh); try done.
  { by apply holds_opened. }
  { destruct (opened_graph s) as (_&_&->&_). by rewrite replace_storable. }
  { simpl. rewrite Ha. by destruct (status cur). }
  destruct (transaction_put (
    o ← reads (get_node (kind_name (kind cur)) (id cur));
    current ← lift (match o with None => Err (MissingWorkObjectError (kind_name (kind cur)) (id cur))
                               | Some n => _from_node n end);
    update_content_body (kind_name (kind cur)) (id cur) (version cur) c current)
    s w' (work_key cur) n _ Hrb (or_intror eq_refl)) as (s'&Hs'&Hoc&Hn&Htx).
  { mgo_step. { unfold get_node, require_id. rewrite (st_id cur Hcur). reflexivity. }
    destruct (opened_graph s) as (Hon&_). mgo_step.
    { rewrite Hon. unfold work_key in Hnode. rewrite Hnode. by apply from_node_reads. }
    unfold update_content_body. mgo_step; [done|]. unfold check_version. mgo_step; [by rewrite Z.eqb_refl|].
    mgo_step; [|exact Hrun]. case_bool_decide; [by rewrite Hdone|done]. }
  exists s'. split; [|split; [|done]].
  - unfold update_content. mgo_step; [by apply known_kind_ok, st_kind|].
    mgo_step; [by apply require_id_Ok; split; [|apply st_id]|].
    mgo_step; [by apply require_version_Ok; split; [|apply st_version]|].
    mgo_step; [|exact Hs']. destruct (cc_priority c) as [pv|] eqn:Ep; [|done].
    rewrite (proj2 (require_priority_Ok pv pv)) by auto. done.
  - apply Hh. by destruct (opened_graph s) as (->&_).
Qed.

(** The archived successor of an object. *)
Definition archived_form (now : datetime) (w : WorkObject) : WorkObject :=
  touch now (set_archived true (if is_todo (kind w) then w else set_status ARCHIVED w)).

Lemma archived_form_storable now w : storable w → datetime_ok now = true → aware now = true →
  version w < SIGNED_64_MAX → storable (archived_form now w).
Proof.
  intros Hw ???. unfold archived_form. apply storable_touch; try done.
  - destruct (is_todo (kind w)) eqn:E; [by apply storable_archived|]. by apply storable_status.
  - by destruct (is_todo (kind w)).
Qed.

Lemma archive_node_holds s cur now : holds s cur → printable cur → archived cur = false →
  storable (archived_form now cur) →
  let w' := archived_form now cur in
  let n := Node (kind_name (kind cur)) (id cur) (to_node_properties w') true in
  archive_node (kind_name (kind cur)) (id cur) (Some (to_node_properties w')) s = (Ok n, put_node (work_key cur) n s)
  ∧ ∀ s', nodes s' = <[work_key cur := n]> (nodes s) → holds s' w'.
Proof.
  intros (p&Hnode&Hcur&Hr&Hs&Hc) Hp Ha Hw' w' n. unfold work_key in Hnode.
  assert (kind w' = kind cur ∧ id w' = id cur ∧ created_at w' = created_at cur ∧ archived w' = true
    ∧ version w' = version cur + 1 ∧ progress_migration_json w' = progress_migration_json cur
    ∧ (is_todo (kind cur) = false → status w' = ARCHIVED)) as (Hk&Hi&Hca&Har&Hv&Hm&Hst).
  { unfold w', archived_form. by destruct (is_todo (kind cur)). }
  assert (printable w') as Hp' by (unfold printable; by rewrite Hk, Hm).
  split.
  - unfold archive_node. mgo_step; [by apply require_id_Ok; split; [|apply st_id]|]. mgo_step.
    { unfold _require_node, get_node, require_id. rewrite (st_id cur Hcur). cbn [mbind res_bind]. rewrite Hnode.
      reflexivity. }
    cbn [nr_properties nr_archived nr_label nr_id]. rewrite Ha, andb_false_r. mgo_step; [|done].
    assert (_is_canonical_payload (kind_name (kind cur)) p = true) as ->.
    { unfold _is_canonical_payload. rewrite work_kind_canonical by by apply st_kind.
      by rewrite (rf_kind p cur Hr). }
    cbn [orb]. unfold archive_canonical. rewrite <-Hk, <-Hi. rewrite validate_tnp by (done || by intros).
    cbn [malformed rethrow mbind res_bind]. rewrite (rf_version p cur Hr), Hc.
    rewrite (tnp_base w' "created_at" (VStr (isoformat (created_at w')))) by done.
    rewrite (tnp_base w' "version" (VInt (version w'))) by done.
    rewrite (tnp_base w' "kind" (VStr (kind_name (kind w')))) by done.
    rewrite Hca, Hv, Z.eqb_refl, !bool_decide_true, schema_truthy_tnp, status_tnp by done. cbn [negb orb].
    rewrite Hk. destruct (is_todo (kind cur)) eqn:E; [done|]. by rewrite (Hst eq_refl).
  - intros s' Hs'. exists (to_node_properties w'). rewrite Hs'. unfold work_key. rewrite Hk, Hi, Har, lookup_insert_eq.
    split_and!; [done|done|by apply tnp_reads|by apply tnp_schema_ok|by apply tnp_base].
Qed.

Lemma archive_succeeds s cur : holds s cur → printable cur → archived cur = false →
  version cur < SIGNED_64_MAX → is_rollback_only s = false →
  ∃ s', archive (kind_name (kind cur)) (id cur) s = (Ok (archived_form (clock (ticks s)) cur), s')
    ∧ holds s' (archived_form (clock (ticks s)) cur) ∧ only_changes (work_key cur) s s' ∧ tx s' = tx s.
Proof.
  intros Hc Hp Ha Hlt Hrb. pose proof Hc as (?&_&Hcur&_). set (w' := archived_form (clock (ticks s)) cur).
  destruct (clock_aware (ticks s)) as [Hck1 Hck2].
  assert (storable w') as Hw' by by apply archived_form_storable.
  destruct (archive_node_holds (tick (opened s)) cur (clock (ticks s))) as [Hrun Hh]; try done.
  { by apply holds_opened. }
  destruct (transaction_put (
    current ← reads (get_by_id (kind_name (kind cur)) (id cur)); archive_body (kind_name (kind cur)) (id cur) current)
    s w' (work_key cur) (Node (kind_name (kind cur)) (id cur) (to_node_properties w') true) _ Hrb
    (or_intror eq_refl)) as (s'&Hs'&Hoc&Hn&Htx).
  { mgo_step; [by apply holds_get, holds_opened|]. unfold archive_body. mgo_step; [done|]. mgo_step.
    destruct (opened_graph s) as (_&_&Htk&_). mgo_step.
    { change (str_in _ TODO_KINDS) with (is_todo (kind cur)). rewrite Htk.
      assert ((if is_todo (kind cur) then replace (λ c, touch (clock (ticks s)) (set_archived true c)) cur
        else with_status ARCHIVED (clock (ticks s)) cur) = Ok w') as ->; [|reflexivity].
      unfold w', archived_form in *. unfold with_status. destruct (is_todo (kind cur)); by rewrite replace_storable. }
    eapply M_bind_intro; [exact Hrun|reflexivity]. }
  exists s'. split; [|split; [|done]].
  - unfold archive. mgo_step; [by apply known_kind_ok, st_kind|].
    mgo_step; [by apply require_id_Ok; split; [|apply st_id]|]. exact Hs'.
  - apply Hh. cbn [nodes tick]. by destruct (opened_graph s) as (->&_).
Qed.

(** ** From a successful read to a held object *)

Lemma from_node_schema n w : _from_node n = Ok w → schema_ok (nr_properties n) w.
Proof.
  intros Hf. pose proof Hf as (Hw&Hr&Hk&Ha)%from_node_inv. unfold _from_node in Hf.
  destruct (nr_properties n !! "kind" ≫= get_str) as [pk|]; [|done].
  destruct (WORK_OBJECT_TYPES pk) as [k|]; [|done]. destruct (String.eqb pk (nr_label n)); [|done]. minv.
  apply validate_canonical_inv in Hf as (->&_&Hc). destruct (of_schema _ _ _ (cp_optional _ _ _ _ _ Hc)) as [Hs|Hs];
    rewrite !restrict_lookup in Hs by (by apply str_in_spec).
  - destruct Hs as (Hs&Hp&Hrec). rewrite (rf_progress _ _ Hr) in Hp. rewrite (rf_record _ _ Hr) in Hrec.
    left. destruct (progress w), (progress_record_id w); try done. split_and!; try done.
    destruct (cf_status _ _ _ (cp_content _ _ _ _ _ Hc)) as (st&Hst&Har).
    rewrite restrict_lookup in Hst, Har by (by apply str_in_spec). rewrite (rf_status _ _ Hr) in Hst.
    assert (st = status w) as -> by (destruct st, (status w); naive_solver). rewrite Ha. auto.
  - right. destruct Hs as [Hs Hl]. split; [done|]. unfold is_todo. unfold work_key, nr_key in Hk.
    by injection Hk as -> _.
Qed.

Lemma get_holds k i s w : store_wf s → get_by_id k i s = Ok w → ∃ p,
  nodes s !! work_key w = Some (Node (kind_name (kind w)) (id w) p (archived w))
  ∧ work_key w = (k, i) ∧ storable w ∧ reads_from p w ∧ schema_ok p w.
Proof.
  intros Hs (n&Hn&Hf&_)%get_by_id_inv. pose proof Hf as (Hw&Hr&Hk&Ha)%from_node_inv.
  apply from_node_schema in Hf. pose proof (nw_key _ _ (sw_nodes s Hs _ _ Hn)) as Hkey.
  exists (nr_properties n). rewrite Hk, Hkey, Hn, Ha. split_and!; try done.
  unfold work_key in Hk. injection Hk as -> ->. by destruct n.
Qed.

(** A successful write back shows that the printed creation time was stored. *)
Lemma update_node_created cur w' p s n s' : reads_from p cur → kind w' = kind cur → created_at w' = created_at cur →
  nodes s !! (kind_name (kind cur), id cur) = Some (Node (kind_name (kind cur)) (id cur) p (archived cur)) →
  storable cur →
  update_node (kind_name (kind cur)) (id cur) (to_node_properties w') s = (Ok n, s') →
  p !! "created_at" = Some (VStr (isoformat (created_at cur))).
Proof.
  intros Hr Hk Hca Hn Hcur (old&np&Hold&_&_&_&_&_&Hc&_)%update_node_Ok. rewrite Hn in Hold. injection Hold as <-.
  simpl in Hc. assert (_is_canonical_payload (kind_name (kind cur)) p = true) as Hp.
  { unfold _is_canonical_payload. rewrite work_kind_canonical by by apply st_kind. by rewrite (rf_kind p cur Hr). }
  rewrite Hp in Hc. destruct (Hc eq_refl) as (_&_&c0&Hv0&Hv&Heq&_).
  apply validate_canonical_inv in Hv0 as (->&_), Hv as (->&_).
  rewrite !restrict_lookup in Heq by (by apply str_in_spec). rewrite <-Heq, <-Hca. by apply tnp_base.
Qed.

(** ** Guards that refuse *)

Lemma body_refuses {A} (k : WorkObject → M Store A) s cur e : holds s cur →
  (k cur (opened s)).1 = Err e →
  ∃ s', transaction (current ← reads (get_by_id (kind_name (kind cur)) (id cur)); k current) s = (Err e, s')
    ∧ nodes s' = nodes s ∧ edges s' = edges s ∧ tx s' = tx s.
Proof.
  intros Hc Hk. destruct (k cur (opened s)) as [r s1] eqn:E. simpl in Hk. subst.
  eapply transaction_raise. eapply M_bind_intro; [|exact E]. by apply reads_run, holds_get, holds_opened.
Qed.

End lemmas.

(** ** Properties *)

Section properties.
  Context {PY : Pydantic} {PL : PydanticLaws} {CK : Clock}.

(** Creating a storable work object under a free key succeeds, changes nothing
    else in the graph, and reading it back by kind and identifier returns the
    same object; creating it a second time raises the existence conflict and
    leaves the graph as it was. *)
Theorem create_then_get s w :
  storable w → printable w → nodes s !! work_key w = None → archived w = false → status w ≠ ARCHIVED →
  ¬ (kind w = KProposal ∧ status w = ACCEPTED) → is_rollback_only s = false →
  ∃ s', create w s = (Ok w, s') ∧ get_by_id (kind_name (kind w)) (id w) s' = Ok w
    ∧ only_changes (work_key w) s s'
    ∧ ∃ s'', create w s' = (Err (WorkObjectAlreadyExistsError "existing"), s'')
        ∧ nodes s'' = nodes s' ∧ edges s'' = edges s'.
Proof.
  intros Hw Hp Hk Ha Hst Hprop Hrb.
  destruct (create_succeeds s w) as (s'&Hs'&Hh&Hoc&Htx); try done.
  exists s'. split; [done|]. split; [by apply holds_get|]. split; [done|].
  edestruct (transaction_raise (create_body w) s') as (s''&Hs''&?&?&?).
  { unfold create_body. mgo_step. { unfold get_node, require_id. rewrite (st_id w Hw). reflexivity. }
    destruct Hh as (p&Hn&_). destruct (opened_graph s') as (->&_). unfold work_key in Hn. rewrite Hn.
    reflexivity. }
  exists s''. split; [|done]. unfold create. mgo_step; [by apply known_kind_ok, st_kind|].
  mgo_step; [by apply require_id_Ok; split; [|apply st_id]|].
  mgo_step; [by apply require_version_Ok; split; [|apply st_version]|].
  mgo_step; [by apply require_priority_Ok; split; [|apply st_priority]|].
  mgo_step; [|by apply M_bind_fail].
  unfold _reject_creation_status_side_doors. rewrite Ha, (bool_decide_false _ Hst). cbn [orb].
  assert (bool_decide (kind w = KProposal) && bool_decide (status w = ACCEPTED) = false) as ->; [|done].
  apply andb_false_iff. repeat case_bool_decide; naive_solver.
Qed.

(** C18: Lost updates cannot happen. An update that names the current version
    succeeds, stores exactly the new content with the version advanced by one
    and every other field (status, workflow, progress, creation time) kept, and
    touches no other record; a second writer that still names the old version is
    refused with the two versions in the conflict and changes nothing. *)
Theorem update_compare_and_set s cur w w2 :
  holds s cur → kind w = kind cur → id w = id cur → kind w2 = kind cur → id w2 = id cur →
  storable w → storable w2 → archived cur = false → status w = status cur → version cur < SIGNED_64_MAX →
  (progress cur = Some "done" → changes_evidence_basis cur w = false) → is_rollback_only s = false →
  let w' := touch (clock (ticks s)) (set_content (title w) (description w) (artifact_ids w)
              (external_link_ids w) (priority w) cur) in
  ∃ s', update w (version cur) s = (Ok w', s')
    ∧ get_by_id (kind_name (kind cur)) (id cur) s' = Ok w' ∧ only_changes (work_key cur) s s'
    ∧ ∃ s'', update w2 (version cur) s'
        = (Err (WorkObjectVersionConflictError (kind_name (kind cur)) (id cur) (version cur) (version cur + 1)), s'')
      ∧ nodes s'' = nodes s' ∧ edges s'' = edges s'.
Proof.
  intros Hc Hk Hi Hk2 Hi2 Hw Hw2 Ha Hst Hlt Hdone Hrb w'.
  destruct (update_succeeds s cur w) as (s'&Hs'&Hh&Hoc&Htx); try done; try by destruct Hw.
  exists s'. split; [exact Hs'|]. split; [apply (holds_get s' w' Hh)|]. split; [done|].
  destruct (body_refuses (update_body w2 (version cur)) s' w'
    (WorkObjectVersionConflictError (kind_name (kind cur)) (id cur) (version cur) (version cur + 1)) Hh)
    as (s''&Hs''&?&?&?).
  { unfold update_body. erewrite M_bind_intro; [|by apply guard_run|reflexivity].
    erewrite M_bind_fail; [reflexivity|]. unfold check_version, guard_raise. simpl.
    rewrite (proj2 (Z.eqb_neq _ _)) by lia. by rewrite Hk2, Hi2. }
  exists s''. split; [|done]. unfold update. pose proof Hc as (?&_&Hcur&_).
  mgo_step; [by apply require_id_Ok; split; [|apply st_id]|].
  mgo_step; [by apply require_version_Ok; split; [|apply st_version]|].
  mgo_step; [by apply require_priority_Ok; split; [|apply st_priority]|].
  mgo_step; [by apply require_version_Ok; split; [|apply st_version]|].
  rewrite Hk2, Hi2. exact Hs''.
Qed.

(** Archival is final for the repository: once a held object is archived,
    updating, patching, transitioning and archiving it all raise, whatever the
    arguments, and none of them changes the graph. *)
Theorem archived_is_terminal s w w2 v changes st :
  holds s w → archived w = true → kind w2 = kind w → id w2 = id w →
  (∃ e s', update w2 v s = (Err e, s') ∧ nodes s' = nodes s ∧ edges s' = edges s)
  ∧ (∃ e s', update_content (kind_name (kind w)) (id w) v changes s = (Err e, s')
       ∧ nodes s' = nodes s ∧ edges s' = edges s)
  ∧ (∃ s', transition_status (kind_name (kind w)) (id w) st s
         = (Err (InvalidStatusTransitionError "invalid transition"), s')
       ∧ nodes s' = nodes s ∧ edges s' = edges s)
  ∧ (∃ s', archive (kind_name (kind w)) (id w) s = (Err (InvalidStatusTransitionError "already archived"), s')
       ∧ nodes s' = nodes s ∧ edges s' = edges s).
Proof.
  intros Hh Ha Hk Hi. pose proof Hh as (p&Hn&Hw&Hr&Hsch&_).
  assert (∀ A B (r : res B) (t : B → M Store A),
    (∀ b, ∃ e s', t b s = (Err e, s') ∧ nodes s' = nodes s ∧ edges s' = edges s) →
    ∃ e s', (lift r ≫= t) s = (Err e, s') ∧ nodes s' = nodes s ∧ edges s' = edges s) as Hl.
  { intros A B r t Ht. unfold mbind, M_bind, lift. destruct r; [done|]. eauto. }
  split_and!.
  - unfold update. do 4 (apply Hl; intros _). rewrite Hk, Hi.
    destruct (body_refuses (update_body w2 v) s w (InvalidStatusTransitionError "cannot update archived") Hh)
      as (s'&?&?&?&?); [|by eauto].
    unfold update_body. erewrite M_bind_fail; [reflexivity|]. by rewrite Ha.
  - unfold update_content. do 4 (apply Hl; intros _).
    edestruct (transaction_raise (o ← reads (get_node (kind_name (kind w)) (id w));
      current ← lift (match o with None => Err (MissingWorkObjectError (kind_name (kind w)) (id w))
                                 | Some n => _from_node n end);
      update_content_body (kind_name (kind w)) (id w) v changes current) s) as (s'&?&?&?&?); [|by eauto].
    mgo_step. { unfold get_node, require_id. rewrite (st_id w Hw). reflexivity. } mgo_step.
    { destruct (opened_graph s) as (->&_). unfold work_key in Hn. rewrite Hn. by apply from_node_reads. }
    unfold update_content_body. apply M_bind_fail. by rewrite Ha.
  - unfold transition_status.
    destruct (body_refuses (transition_body (kind_name (kind w)) (id w) st) s w
      (InvalidStatusTransitionError "invalid transition") Hh) as (s'&Hs'&?&?&?).
    { unfold transition_body. erewrite M_bind_fail; [reflexivity|]. by rewrite Ha. }
    exists s'. split; [|done]. mgo_step; [by apply known_kind_ok, st_kind|].
    mgo_step; [by apply require_id_Ok; split; [|apply st_id]|]. exact Hs'.
  - unfold archive.
    destruct (body_refuses (archive_body (kind_name (kind w)) (id w)) s w
      (InvalidStatusTransitionError "already archived") Hh) as (s'&Hs'&?&?&?).
    { unfold archive_body. erewrite M_bind_fail; [reflexivity|]. by rewrite Ha. }
    exists s'. split; [|done]. mgo_step; [by apply known_kind_ok, st_kind|].
    mgo_step; [by apply require_id_Ok; split; [|apply st_id]|]. exact Hs'.
Qed.

(** The generic status machine. A transition that returns moved a live object
    along one of the four table entries, never into acceptance for a Proposal,
    advanced the version by one, kept every other field, and the new object is
    what a read returns; nothing else in the graph changed. *)
Theorem status_transitions_follow_table k i st s w s' :
  store_wf s → is_rollback_only s = false → transition_status k i st s = (Ok w, s') →
  ∃ cur, get_by_id k i s = Ok cur ∧ archived cur = false
    ∧ (status cur, st) ∈ [(DRAFT, REVIEW); (REVIEW, DRAFT); (DRAFT, ACCEPTED); (REVIEW, ACCEPTED)]
    ∧ ¬ (st = ACCEPTED ∧ kind cur = KProposal)
    ∧ w = touch (clock (ticks s)) (set_status st cur)
    ∧ get_by_id k i s' = Ok w ∧ only_changes (k, i) s s'.
Proof.
  intros Hwf Hrb Ht. pose proof Ht as Ht'. unfold transition_status in Ht'. minv.
  match goal with H : transaction _ _ = _ |- _ => apply transaction_Ok in H as (s1&Hb&_&_) end.
  fold (opened s) in Hb. minv. destruct (opened_graph s) as (Hon&_&Htk&_).
  match goal with H : get_by_id k i (opened s) = Ok ?c |- _ => rename c into cur, H into Hget end.
  assert (get_by_id k i s = Ok cur) as Hg.
  { revert Hget. unfold get_by_id, get_node. by rewrite Hon. }
  destruct (get_holds k i s cur Hwf Hg) as (p&Hn&Hkey&Hw&Hr&Hs).
  unfold transition_body in *. minv. unfold work_key in Hkey. injection Hkey as <- <-. bools.
  match goal with H : _ && _ = false |- _ => rename H into Hprop end.
  match goal with H : archived cur = false |- _ => rename H into Harch end.
  assert (¬ (st = ACCEPTED ∧ kind cur = KProposal)) as Hnp.
  { intros [-> Hkp]. by rewrite Hkp in Hprop. }
  assert (st ≠ ARCHIVED) as Hna.
  { intros ->. match goal with H : _ ∈ GENERIC_STATUS_TRANSITIONS |- _ =>
      unfold GENERIC_STATUS_TRANSITIONS in H; rewrite !elem_of_cons, elem_of_nil in H; naive_solver end. }
  match goal with H : utc_now _ = _ |- _ => injection H as <- <- end.
  match goal with H : with_status st _ cur = Ok ?x |- _ => rename H into Hws, x into w0 end.
  assert (version cur + 1 <= SIGNED_64_MAX) as Hv.
  { unfold with_status, replace, post_init, base_post_init in Hws. minv.
    match goal with H : require_version _ = _ |- _ => apply require_version_Ok in H as [_ ?] end. simpl in *. lia. }
  assert (w0 = touch (clock (ticks (opened s))) (set_archived (archived cur) (set_status st cur))) as Hw0.
  { unfold with_status in Hws. destruct (decide (st = ARCHIVED)); [done|].
    rewrite replace_storable in Hws; [by minv|].
    destruct (clock_aware (ticks (opened s))). apply storable_touch; simpl; [|done|done|lia].
    apply storable_status; [done|]. intros _. by rewrite Harch, (bool_decide_false _ Hna). }
  assert (holds s cur) as Hh.
  { exists p. split_and!; try done.
    match goal with H : update_node _ _ _ _ = _ |- _ => eapply (update_node_created cur w0) in H end; try done.
    - by rewrite Hw0.
    - by rewrite Hw0.
    - simpl. by rewrite Hon. }
  destruct (transition_succeeds s cur st) as (s2&Hs2&Hh2&Hoc&_); try done; [lia|].
  rewrite Ht in Hs2. injection Hs2 as -> <-. exists cur. split_and!; try done.
  apply (holds_get s' _ Hh2).
Qed.

(** The version ceiling holds: at the largest signed 64-bit version an update, a
    status transition and an archival raise the numeric bound error instead of
    writing a version outside the canonical range, and the graph is unchanged. *)
Theorem version_ceiling s cur w st :
  holds s cur → archived cur = false → version cur = SIGNED_64_MAX →
  kind w = kind cur → id w = id cur → storable w → status w = status cur →
  (progress cur = Some "done" → changes_evidence_basis cur w = false) →
  (status cur, st) ∈ GENERIC_STATUS_TRANSITIONS → ¬ (st = ACCEPTED ∧ kind cur = KProposal) →
  (∃ s', update w SIGNED_64_MAX s = (Err (NumericBoundError "invalid_version"), s')
     ∧ nodes s' = nodes s ∧ edges s' = edges s)
  ∧ (∃ s', transition_status (kind_name (kind cur)) (id cur) st s
         = (Err (NumericBoundError "invalid_version"), s') ∧ nodes s' = nodes s ∧ edges s' = edges s)
  ∧ (∃ s', archive (kind_name (kind cur)) (id cur) s = (Err (NumericBoundError "invalid_version"), s')
       ∧ nodes s' = nodes s ∧ edges s' = edges s).
Proof.
  intros Hh Ha Hv Hk Hi Hw Hst Hdone Hin Hnp. pose proof Hh as (p&_&Hcur&_).
  assert (∀ now f, id (f cur) = id cur → version (f cur) = SIGNED_64_MAX →
    replace (λ c, touch now (f c)) cur = Err (NumericBoundError "invalid_version")) as Hover.
  { intros now f Hid Hvf. unfold replace, post_init, base_post_init. simpl. unfold require_id.
    rewrite Hid, (st_id cur Hcur), Hvf. done. }
  split_and!.
  - destruct (body_refuses (update_body w SIGNED_64_MAX) s cur (NumericBoundError "invalid_version") Hh)
      as (s'&Hs'&?&?&?).
    { unfold update_body. erewrite M_bind_intro; [|by apply guard_run|reflexivity].
      unfold check_version. erewrite M_bind_intro; [|by apply guard_run; rewrite Hv, Z.eqb_refl|reflexivity].
      erewrite M_bind_intro; [|by apply guard_run; rewrite (bool_decide_true _ Hst)|reflexivity].
      erewrite M_bind_intro; [|by apply guard_run; case_bool_decide; [rewrite Hdone|]|reflexivity].
      erewrite M_bind_intro; [|reflexivity|reflexivity]. erewrite M_bind_fail; [reflexivity|].
      unfold lift. by rewrite Hover. }
    exists s'. split; [|done]. unfold update. mgo_step; [by apply require_id_Ok; split; [|apply st_id]|].
    mgo_step; [by apply require_version_Ok; split; [|apply st_version]|].
    mgo_step; [by apply require_priority_Ok; split; [|apply st_priority]|].
    mgo_step; [by apply require_version_Ok|]. rewrite Hk, Hi. exact Hs'.
  - destruct (body_refuses (transition_body (kind_name (kind cur)) (id cur) st) s cur
      (NumericBoundError "invalid_version") Hh) as (s'&Hs'&?&?&?).
    { unfold transition_body.
      erewrite M_bind_intro; [|by apply guard_run; rewrite Ha, (bool_decide_true _ Hin)|reflexivity].
      erewrite M_bind_intro; [|apply guard_run, andb_false_iff; repeat case_bool_decide; naive_solver|reflexivity].
      erewrite M_bind_intro; [|reflexivity|reflexivity]. erewrite M_bind_fail; [reflexivity|].
      unfold lift, with_status. by rewrite Hover. }
    exists s'. split; [|done]. unfold transition_status. mgo_step; [by apply known_kind_ok, st_kind|].
    mgo_step; [by apply require_id_Ok; split; [|apply st_id]|]. exact Hs'.
  - destruct (body_refuses (archive_body (kind_name (kind cur)) (id cur)) s cur
      (NumericBoundError "invalid_version") Hh) as (s'&Hs'&?&?&?).
    { unfold archive_body. erewrite M_bind_intro; [|by apply guard_run|reflexivity].
      erewrite M_bind_intro; [|reflexivity|reflexivity]. erewrite M_bind_fail; [reflexivity|].
      unfold lift, with_status. destruct (str_in _ _); by rewrite Hover. }
    exists s'. split; [|done]. unfold archive. mgo_step; [by apply known_kind_ok, st_kind|].
    mgo_step; [by apply require_id_Ok; split; [|apply st_id]|]. exact Hs'.
Qed.

End properties.

(** ** The repository keeps the storage well formed *)

Section preservation.
  Context {PY : Pydantic} {PL : PydanticLaws} {CK : Clock}.

Lemma create_work_node_keeps l i w : keeps (create_node l i (to_node_properties w)).
Proof. apply create_node_keeps. intros _. by rewrite (tnp_base w "kind" (VStr (kind_name (kind w)))). Qed.

#[local] Hint Resolve create_work_node_keeps : keeps.

Lemma create_keeps w : keeps (create w).
Proof. unfold create, create_body. keeps_solve. Qed.

Lemma update_keeps w v : keeps (update w v).
Proof. unfold update, update_body, check_version. keeps_solve. Qed.

Lemma update_content_keeps k i v c : keeps (update_content k i v c).
Proof. unfold update_content, update_content_body, check_version. keeps_solve. Qed.

Lemma archive_keeps k i : keeps (archive k i).
Proof. unfold archive, archive_body. keeps_solve. Qed.

Lemma transition_status_keeps k i st : keeps (transition_status k i st).
Proof. unfold transition_status, transition_body. keeps_solve. Qed.

Lemma create_edgeless w : edgeless (create w).
Proof. unfold create, create_body. edgeless_solve. Qed.

Lemma update_edgeless w v : edgeless (update w v).
Proof. unfold update, update_body, check_version. edgeless_solve. Qed.

End preservation.

#[export] Hint Resolve create_edgeless update_edgeless : edgeless.
#[export] Hint Resolve create_work_node_keeps create_keeps update_keeps update_content_keeps archive_keeps transition_status_keeps : keeps.

(** ** Witnesses *)

Section witnesses.

#[local] Existing Instance reference_pydantic.
#[local] Existing Instance reference_pydantic_laws.
#[local] Existing Instance epoch_clock.

(** A draft Task without a workflow, and a store that holds it. *)
Definition ex_task : WorkObject :=
  {| kind := KTask; id := "t1"; title := "t"; description := ""; status := DRAFT; created_at := epoch;
     updated_at := epoch; version := 1; artifact_ids := []; external_link_ids := []; priority := 0;
     workflow_json := None; progress := None; archived := false; progress_record_id := None;
     progress_migration_json := None |}.

Definition holding (w : WorkObject) : Store :=
  put_node (work_key w) (Node (kind_name (kind w)) (id w) (to_node_properties w) (archived w)) empty_store.

Lemma holding_holds w : storable w → printable w → holds (holding w) w.
Proof.
  intros. exists (to_node_properties w). split_and!; [apply lookup_insert_eq|done|by apply tnp_reads
    |by apply tnp_schema_ok|by apply tnp_base].
Qed.

(** A variant of [ex_task] with another version, archive flag or title. *)
Definition ex_variant (v : Z) (a : bool) (t : string) : WorkObject :=
  {| kind := KTask; id := "t1"; title := t; description := ""; status := DRAFT; created_at := epoch;
     updated_at := epoch; version := v; artifact_ids := []; external_link_ids := []; priority := 0;
     workflow_json := None; progress := None; archived := a; progress_record_id := None;
     progress_migration_json := None |}.

Lemma ex_storable v a t : 1 <= v <= SIGNED_64_MAX → storable (ex_variant v a t) ∧ printable (ex_variant v a t).
Proof.
  intros Hv. split; [|done]. constructor; simpl; try done. unfold work_kinds. set_solver.
Qed.

Lemma create_then_get_witness : ∃ s',
  create ex_task empty_store = (Ok ex_task, s') ∧ get_by_id "Task" "t1" s' = Ok ex_task.
Proof.
  destruct (ex_storable 1 false "t") as [Hs Hp]; [done|].
  destruct (create_then_get empty_store ex_task Hs Hp eq_refl eq_refl ltac:(done) ltac:(by intros []) eq_refl)
    as (s'&H1&H2&_).
  exists s'. split; [exact H1|exact H2].
Defined.

Lemma update_compare_and_set_witness : ∃ s',
  update (ex_variant 1 false "u") 1 (holding ex_task) = (Ok (ex_variant 2 false "u"), s')
  ∧ get_by_id "Task" "t1" s' = Ok (ex_variant 2 false "u").
Proof.
  destruct (ex_storable 1 false "t") as [Hs Hp]; [done|]. destruct (ex_storable 1 false "u") as [Hs' Hp']; [done|].
  destruct (update_compare_and_set (holding ex_task) ex_task (ex_variant 1 false "u") (ex_variant 1 false "u")
    (holding_holds _ Hs Hp) eq_refl eq_refl eq_refl eq_refl Hs' Hs' eq_refl eq_refl ltac:(done) ltac:(done) eq_refl)
    as (s'&H1&H2&_).
  exists s'. split; [exact H1|exact H2].
Defined.

Lemma archived_is_terminal_witness : ∃ s',
  archive "Task" "t1" (holding (ex_variant 2 true "t"))
  = (Err (InvalidStatusTransitionError "already archived"), s').
Proof.
  destruct (ex_storable 2 true "t") as [Hs Hp]; [done|].
  destruct (archived_is_terminal (holding (ex_variant 2 true "t")) (ex_variant 2 true "t") ex_task 2
    {| cc_title := Some "x"; cc_description := None; cc_priority := None; cc_artifact_ids := None;
       cc_external_link_ids := None |} REVIEW (holding_holds _ Hs Hp) eq_refl eq_refl eq_refl)
    as (_&_&_&s'&H&_). exists s'. exact H.
Defined.

Definition ex_tasks_one : list call := [call_create_node "Task" "t1" (to_node_properties ex_task)].

Lemma status_transitions_follow_table_witness : ∃ cur,
  get_by_id "Task" "t1" (run_calls ex_tasks_one empty_store) = Ok cur ∧ archived cur = false.
Proof.
  destruct (status_transitions_follow_table "Task" "t1" REVIEW (run_calls ex_tasks_one empty_store)
    (touch epoch (set_status REVIEW ex_task))
    (transition_status "Task" "t1" REVIEW (run_calls ex_tasks_one empty_store)).2) as (cur&H1&H2&_).
  - apply run_calls_keeps; [by vm_compute|apply empty_store_wf].
  - by vm_compute.
  - by vm_compute.
  - exists cur. split; [exact H1|exact H2].
Defined.

Lemma version_ceiling_witness : ∃ s',
  update (ex_variant SIGNED_64_MAX false "u") SIGNED_64_MAX (holding (ex_variant SIGNED_64_MAX false "t"))
  = (Err (NumericBoundError "invalid_version"), s').
Proof.
  destruct (ex_storable SIGNED_64_MAX false "t") as [Hs Hp]; [done|].
  destruct (ex_storable SIGNED_64_MAX false "u") as [Hs' Hp']; [done|].
  destruct (version_ceiling (holding (ex_variant SIGNED_64_MAX false "t")) (ex_variant SIGNED_64_MAX false "t")
    (ex_variant SIGNED_64_MAX false "u") REVIEW (holding_holds _ Hs Hp) eq_refl eq_refl eq_refl eq_refl Hs'
    eq_refl ltac:(done) ltac:(by left) ltac:(by intros [])) as [(s'&H&_) _].
  exists s'. exact H.
Defined.

End witnesses.
