(* ===== verification/ResourcePaths.v ===== *)
(** * Resource paths

    [src/devgraph/resource_paths.py]: a path is a conjunction of typed anchors, a
    tuple of paths a disjunction; [paths_subset] decides attenuation without the
    graph, [intersect_paths] combines two ceilings, and [within_paths] checks the
    current, unambiguous ancestry of a work object. *)

From stdpp Require Import base gmap strings list sorting.
From Stdlib Require Import ZArith Ascii String.
From S2P Require Import Prelude Json Datetime Validation WorkflowContract Model Storage StorageWf StorageReads.

Local Open Scope Z_scope.

Definition ANCHOR_KINDS : list string := ["Arena"; "Initiative"; "Project"].

Record ResourcePath := { path : list string }.

#[export] Instance ResourcePath_eq_dec : EqDecision ResourcePath.
Proof. solve_decision. Defined.

(** [ANCHOR_KINDS.index(kind)] of a well-formed anchor. *)
Definition anchor_rank (resource : string) : option Z :=
  match split_resource resource with
  | Some (k, i) =>
      if _ID_PATTERN i then
        if String.eqb k "Arena" then Some 0
        else if String.eqb k "Initiative" then Some 1
        else if String.eqb k "Project" then Some 2
        else None
      else None
  | None => None
  end.

(** [ranks == sorted(set(ranks))]: strictly increasing. *)
Fixpoint increasing (l : list Z) : bool :=
  match l with
  | x :: (y :: _) as l' => (x <? y) && increasing l'
  | _ => true
  end.

(** The validators of [ResourcePath]: length 1 to 3 and [anchors]. *)
Definition anchors (l : list string) : res ResourcePath :=
  match mapM anchor_rank l with
  | Some ranks =>
      if (1 <=? length l)%nat && (length l <=? 3)%nat && increasing ranks then Ok {| path := l |}
      else Err (ValidationError "ResourcePath")
  | None => Err (ValidationError "ResourcePath")
  end.

Definition contained_by (self parent : ResourcePath) : bool :=
  forallb (λ a, str_in a (path self)) (path parent).

Definition paths_subset (child parent : list ResourcePath) : bool :=
  bool_decide (parent = [])
  || (negb (bool_decide (child = []))
      && forallb (λ selected, existsb (λ ceiling, contained_by selected ceiling) parent) child).

(** [dict(resource.split("/", 1) for resource in p.path)]. *)
Definition anchor_pairs (p : ResourcePath) : list (string * string) := omap (split_once slash) (path p).

(** The anchor of one kind after [anchors.update(...)]. *)
Definition merged_anchor (a b : list (string * string)) (k : string) : option string :=
  match dict_get k (reverse b) with Some i => Some i | None => dict_get k (reverse a) end.

(** Some kind is bound to different identifiers. *)
Definition anchors_clash (a b : list (string * string)) : bool :=
  existsb (λ ki, match dict_get ki.1 (reverse a) with
                 | Some i => negb (String.eqb i ki.2)
                 | None => false
                 end) b.

Definition merge_path (a b : ResourcePath) : list string :=
  omap (λ k, i ← merged_anchor (anchor_pairs a) (anchor_pairs b) k; Some (k +:+ "/" +:+ i)) ANCHOR_KINDS.

Definition path_leb (a b : ResourcePath) : bool := tuple_leb (path a) (path b).

Definition intersect_paths (left right : list ResourcePath) : res (list ResourcePath) :=
  match left, right with
  | [], _ => Ok right
  | _, [] => Ok left
  | _, _ =>
      ps ← res_mapM anchors
        (a ← left; b ← right;
         if anchors_clash (anchor_pairs a) (anchor_pairs b) then [] else [merge_path a b]);
      Ok (stable_sort path_leb (remove_dups ps))
  end.

(** ** The current ancestry *)

Definition parent_kinds (k : string) : list string := default [] (dict_get k PARENTS).

(** The Arena end of the chain: the last anchors, or [None]. *)
Definition arena_end (current : key) (memberships : list EdgeRecord) (s : Store) : res (option (list string)) :=
  match memberships with
  | [] => Ok (Some [])
  | edge :: _ =>
      arena ← get_node "Arena" (from_id edge) s;
      match arena with
      | Some a =>
          if str_in current.1 ["Initiative"; "Task"] && String.eqb (from_label edge) "Arena"
             && bool_decide (edge_to edge = current) && String.eqb (relationship edge) "CONTAINS_WORK"
             && bool_decide (nr_key a = ("Arena", from_id edge))
             && bool_decide (nr_properties a !! "kind" = Some (VStr "Arena"))
          then Ok (Some ["Arena/" +:+ from_id edge]) else Ok None
      | None => Ok None
      end
  end.

(** The loop body of [current_resource_path], run at most [fuel] times; [chain]
    is the reversed list built so far. *)
Fixpoint path_walk (fuel : nat) (current : key) (visited : list key) (chain : list string) (s : Store) :
    res (option (list string)) :=
  match fuel with
  | O => Ok None
  | S fuel' =>
      if decide (current ∈ visited) then Ok None
      else
        item ← work_containment current.1 current.2 s;
        match item with
        | None => Ok None
        | Some it =>
            if bool_decide (nr_key (wc_node it) = current)
               && bool_decide (nr_properties (wc_node it) !! "kind" = Some (VStr current.1))
            then
              let chain := resource_of current :: chain in
              match wc_parents it, wc_memberships it with
              | _ :: _ :: _, _ => Ok None
              | _, _ :: _ :: _ => Ok None
              | [edge], ms =>
                  if negb (bool_decide (ms = [])) || negb (bool_decide (edge_to edge = current))
                     || negb (String.eqb (relationship edge) "HAS_CHILD")
                     || negb (str_in (from_label edge) (parent_kinds current.1))
                  then Ok None
                  else path_walk fuel' (edge_from edge) (current :: visited) chain s
              | [], ms => e ← arena_end current ms s; Ok (e ≫= λ tail, Some (tail ++ chain))
              end
            else Ok None
        end
  end.

Definition current_resource_path (k i : string) (s : Store) : res (option (list string)) :=
  if str_in k TODO_KINDS then path_walk 4 (k, i) [] [] s else Ok None.

(** [any(all(anchor in chain for anchor in p.path) for p in paths)]. *)
Definition admits (paths : list ResourcePath) (chain : list string) : bool :=
  existsb (λ p, forallb (λ a, str_in a chain) (path p)) paths.

Definition within_paths (k i : string) (paths : list ResourcePath) (s : Store) : res bool :=
  match paths with
  | [] => Ok true
  | _ =>
      chain ← current_resource_path k i s;
      Ok (match chain with
          | None => false
          | Some c => admits paths c
          end)
  end.

(** ** Valid paths

    A validated path is the list of the anchors a triple of optional identifiers
    gives; the triple is what the functions above compute with. *)

Definition triple : Type := option string * option string * option string.

Definition anchor_of (k : string) (o : option string) : list string :=
  match o with Some i => [k +:+ "/" +:+ i] | None => [] end.

Definition shape (t : triple) : list string :=
  anchor_of "Arena" t.1.1 ++ anchor_of "Initiative" t.1.2 ++ anchor_of "Project" t.2.

Definition id_valid (o : option string) : Prop := ∀ i, o = Some i → _ID_PATTERN i = true.

Definition triple_valid (t : triple) : Prop :=
  t ≠ (None, None, None) ∧ id_valid t.1.1 ∧ id_valid t.1.2 ∧ id_valid t.2.

Definition path_valid (p : ResourcePath) : Prop := anchors (path p) = Ok p.

Lemma split_resource_inv r k i :
  split_resource r = Some (k, i) → r = k +:+ "/" +:+ i.
Proof.
  unfold split_resource. case_match; [|done]. clear H. revert k.
  induction r as [|c r IH]; intros k Hr; cbn [split_once] in Hr; [done|].
  destruct (Ascii.eqb_spec slash c) as [<-|Hne].
  - by injection Hr as <- <-.
  - destruct (split_once slash r) as [[a b]|] eqn:E; [|done]. simplify_eq.
    simpl. by rewrite (IH a).
Qed.

Lemma anchor_rank_inv r n :
  anchor_rank r = Some n →
  ∃ i, _ID_PATTERN i = true ∧
    ((n = 0 ∧ r = "Arena/" +:+ i) ∨ (n = 1 ∧ r = "Initiative/" +:+ i) ∨ (n = 2 ∧ r = "Project/" +:+ i)).
Proof.
  unfold anchor_rank. destruct (split_resource r) as [[k i]|] eqn:E; [|done].
  apply split_resource_inv in E as ->.
  destruct (_ID_PATTERN i) eqn:Hi; [|done]. intros Hn. exists i. split; [done|].
  repeat match type of Hn with
  | (if String.eqb ?a ?b then _ else _) = _ => destruct (String.eqb_spec a b); [subst; simplify_eq|]
  end; naive_solver.
Qed.

Lemma no_slash i : _ID_PATTERN i = true → count_char slash i = 0%nat.
Proof.
  intros Hi. assert (Hc : str_forall id_char i = true).
  { destruct i as [|c i]; [done|]. unfold _ID_PATTERN in Hi. bools. cbn [str_forall].
    apply andb_true_iff; split; [|done]. unfold id_char. by apply orb_true_iff; left. }
  clear Hi. induction i as [|c i IH]; [done|]. cbn [str_forall count_char] in *. bools.
  rewrite IH by done. destruct (Ascii.eqb_spec slash c) as [<-|]; [discriminate|done].
Qed.

Lemma count_char_app c s t : count_char c (s +:+ t) = (count_char c s + count_char c t)%nat.
Proof. induction s as [|d s IH]; simpl; [done|]. rewrite IH. lia. Qed.

Lemma anchor_rank_of k i n :
  (k = "Arena" ∧ n = 0) ∨ (k = "Initiative" ∧ n = 1) ∨ (k = "Project" ∧ n = 2) →
  _ID_PATTERN i = true → anchor_rank (k +:+ "/" +:+ i) = Some n.
Proof.
  intros Hk Hi. unfold anchor_rank, split_resource.
  rewrite !count_char_app, (no_slash i Hi).
  destruct_or!; destruct_and!; subst; simpl; by rewrite Hi.
Qed.

Lemma anchors_shape t : triple_valid t → anchors (shape t) = Ok {| path := shape t |}.
Proof.
  destruct t as [[[a|] [i|]] [p|]]; unfold triple_valid, id_valid; simpl; intros (Hne & Ha & Hi & Hp);
    unfold anchors, shape; cbn [anchor_of fst snd app mapM];
    rewrite ?(anchor_rank_of "Arena" _ 0), ?(anchor_rank_of "Initiative" _ 1),
      ?(anchor_rank_of "Project" _ 2) by naive_solver; done.
Qed.

Lemma mapM_ranks l ranks :
  mapM anchor_rank l = Some ranks → increasing ranks = true →
  ∃ t, l = shape t ∧ id_valid t.1.1 ∧ id_valid t.1.2 ∧ id_valid t.2.
Proof.
  intros Hl Hr. apply mapM_Some_1 in Hl.
  assert (Hk : ∀ r n, anchor_rank r = Some n → ∃ i, _ID_PATTERN i = true ∧
    ((n = 0 ∧ r = "Arena/" +:+ i) ∨ (n = 1 ∧ r = "Initiative/" +:+ i) ∨ (n = 2 ∧ r = "Project/" +:+ i)))
    by apply anchor_rank_inv.
  destruct Hl as [|r1 n1 l ranks H1 Hl]; [by exists (None, None, None)|].
  apply Hk in H1 as (i1 & V1 & C1).
  destruct Hl as [|r2 n2 l ranks H2 Hl].
  { destruct C1 as [[-> ->]|[[-> ->]|[-> ->]]];
      [exists (Some i1, None, None)|exists (None, Some i1, None)|exists (None, None, Some i1)];
      unfold id_valid; naive_solver. }
  apply Hk in H2 as (i2 & V2 & C2). cbn [increasing] in Hr. bools.
  destruct Hl as [|r3 n3 l ranks H3 Hl].
  { destruct C1 as [[-> ->]|[[-> ->]|[-> ->]]], C2 as [[-> ->]|[[-> ->]|[-> ->]]]; try lia;
      [exists (Some i1, Some i2, None)|exists (Some i1, None, Some i2)|exists (None, Some i1, Some i2)];
      unfold id_valid; naive_solver. }
  apply Hk in H3 as (i3 & V3 & C3). cbn [increasing] in *. bools.
  destruct Hl as [|r4 n4 l ranks H4 Hl].
  { assert (n1 = 0 ∧ n2 = 1 ∧ n3 = 2) as (-> & -> & ->) by lia.
    exists (Some i1, Some i2, Some i3). unfold id_valid. naive_solver. }
  apply Hk in H4 as (i4 & V4 & C4). cbn [increasing] in *. bools. lia.
Qed.

Lemma path_valid_shape p : path_valid p → ∃ t, path p = shape t ∧ triple_valid t.
Proof.
  unfold path_valid, anchors. destruct (mapM _ _) as [ranks|] eqn:E; [|done].
  destruct (_ && _) eqn:B; [|done]. intros _. bools.
  destruct (mapM_ranks _ _ E) as (t & Ht & ?); [done|]. exists t. split; [done|]. split; [|done].
  intros ->. by rewrite Ht in *.
Qed.

(** ** Admission

    A path set constrains by the chains it admits; the empty set constrains
    nothing. *)

Definition allowed (paths : list ResourcePath) (chain : list string) : Prop :=
  paths = [] ∨ admits paths chain = true.

(** A chain names at most one object of a kind. *)
Definition chain_functional (chain : list string) : Prop :=
  ∀ k i j, k ∈ ANCHOR_KINDS → (k +:+ "/" +:+ i) ∈ chain → (k +:+ "/" +:+ j) ∈ chain → i = j.

Lemma admits_spec paths chain :
  admits paths chain = true ↔ ∃ p, p ∈ paths ∧ ∀ a, a ∈ path p → a ∈ chain.
Proof.
  unfold admits. rewrite existsb_exists. split.
  - intros (p & ?%list_elem_of_In & Hf). exists p. split; [done|]. intros a Ha.
    rewrite forallb_forall in Hf. apply str_in_spec, Hf. by apply list_elem_of_In.
  - intros (p & ? & Hf). exists p. split; [by apply list_elem_of_In|].
    apply forallb_forall. intros a ?%list_elem_of_In. by apply str_in_spec, Hf.
Qed.

Lemma contained_by_spec p q :
  contained_by p q = true ↔ ∀ a, a ∈ path q → a ∈ path p.
Proof.
  unfold contained_by. rewrite forallb_forall. split; intros Hf a Ha.
  - apply str_in_spec, Hf. by apply list_elem_of_In.
  - apply list_elem_of_In in Ha. by apply str_in_spec, Hf.
Qed.

Lemma path_valid_nonempty p : path_valid p → ∃ a, a ∈ path p.
Proof.
  unfold path_valid, anchors. destruct (mapM _ _) as [ranks|]; [|done]. destruct (path p) as [|a l]; [done|].
  intros _. exists a. left.
Qed.

(** C39: [paths_subset] decides attenuation exactly: it answers yes if and only if
    every ancestry the child paths admit is admitted by the parent paths, whatever
    the graph looks like later. *)
Theorem paths_subset_exact child parent :
  Forall path_valid parent →
  paths_subset child parent = true ↔ ∀ chain, allowed child chain → allowed parent chain.
Proof.
  intros Hv. unfold paths_subset. rewrite orb_true_iff, andb_true_iff, negb_true_iff,
    bool_decide_eq_true, bool_decide_eq_false, forallb_forall. split.
  - intros [->|[Hne Hall]] chain; [by left|]. intros [?|(p & Hp & Hc)%admits_spec]; [done|]. right.
    apply list_elem_of_In, Hall, existsb_exists in Hp as (q & Hq%list_elem_of_In & Hs).
    apply admits_spec. exists q. split; [done|]. intros a Ha. apply Hc.
    by eapply contained_by_spec.
  - intros Hall. destruct parent as [|q0 parent]; [by left|]. right. split.
    + intros ->. destruct (Hall []) as [?|(q & Hq & Hc)%admits_spec]; [by left|done|].
      rewrite Forall_forall in Hv. apply Hv in Hq. apply path_valid_nonempty in Hq as [a Ha].
      apply Hc in Ha. by apply elem_of_nil in Ha.
    + intros p Hp%list_elem_of_In. destruct (Hall (path p)) as [?|(q & Hq & Hc)%admits_spec];
        [right; apply admits_spec; by exists p|done|].
      apply existsb_exists. exists q. split; [by apply list_elem_of_In|]. by apply contained_by_spec.
Qed.

(** ** Intersection *)

Definition pairs_of (t : triple) : list (string * string) :=
  match t.1.1 with Some i => [("Arena", i)] | None => [] end ++
  match t.1.2 with Some i => [("Initiative", i)] | None => [] end ++
  match t.2 with Some i => [("Project", i)] | None => [] end.

Definition union_of (t u : triple) : triple :=
  (union_with (λ _ y, Some y) t.1.1 u.1.1, union_with (λ _ y, Some y) t.1.2 u.1.2,
   union_with (λ _ y, Some y) t.2 u.2).

Definition agree (o p : option string) : Prop := ∀ i j, o = Some i → p = Some j → i = j.

Definition compatible (t u : triple) : Prop := agree t.1.1 u.1.1 ∧ agree t.1.2 u.1.2 ∧ agree t.2 u.2.

Lemma anchor_pairs_shape t : anchor_pairs {| path := shape t |} = pairs_of t.
Proof. by destruct t as [[[?|] [?|]] [?|]]. Qed.

Lemma anchors_clash_spec t u : anchors_clash (pairs_of t) (pairs_of u) = false ↔ compatible t u.
Proof.
  unfold compatible, agree.
  destruct t as [[[a|] [i|]] [p|]], u as [[[a'|] [i'|]] [p'|]]; cbn;
    rewrite ?orb_false_r, ?orb_false_iff, ?negb_false_iff, ?String.eqb_eq; naive_solver.
Qed.

Lemma merge_path_shape t u : merge_path {| path := shape t |} {| path := shape u |} = shape (union_of t u).
Proof. by destruct t as [[[?|] [?|]] [?|]], u as [[[?|] [?|]] [?|]]. Qed.

Lemma union_of_valid t u : triple_valid t → triple_valid u → triple_valid (union_of t u).
Proof.
  destruct t as [[[?|] [?|]] [?|]], u as [[[?|] [?|]] [?|]]; unfold triple_valid, id_valid; simpl;
    naive_solver.
Qed.

(** What a triple asks of a chain. *)
Definition asks (t : triple) (chain : list string) : Prop :=
  (∀ i, t.1.1 = Some i → ("Arena" +:+ "/" +:+ i) ∈ chain) ∧
  (∀ i, t.1.2 = Some i → ("Initiative" +:+ "/" +:+ i) ∈ chain) ∧
  (∀ i, t.2 = Some i → ("Project" +:+ "/" +:+ i) ∈ chain).

Lemma asks_spec t chain : (∀ a, a ∈ shape t → a ∈ chain) ↔ asks t chain.
Proof.
  assert (Hk : ∀ k o, (∀ a, a ∈ anchor_of k o → a ∈ chain) ↔ ∀ i, o = Some i → (k +:+ "/" +:+ i) ∈ chain).
  { intros k [i|]; cbn [anchor_of]; [setoid_rewrite list_elem_of_singleton|setoid_rewrite elem_of_nil];
      naive_solver. }
  unfold asks. rewrite <- !Hk. unfold shape. split.
  - intros Hs. repeat split; intros a Ha; apply Hs; rewrite !elem_of_app; tauto.
  - intros (H1 & H2 & H3) a. rewrite !elem_of_app. intros [?|[?|?]]; auto.
Qed.

Lemma asks_union t u chain :
  compatible t u → asks (union_of t u) chain ↔ asks t chain ∧ asks u chain.
Proof.
  unfold compatible, agree, asks, union_of. destruct t as [[t1 t2] t3], u as [[u1 u2] u3]; cbn [fst snd].
  assert (Hu : ∀ k (o p : option string), agree o p →
    (∀ i, union_with (λ _ y, Some y) o p = Some i → (k +:+ "/" +:+ i) ∈ chain) ↔
    (∀ i, o = Some i → (k +:+ "/" +:+ i) ∈ chain) ∧ (∀ i, p = Some i → (k +:+ "/" +:+ i) ∈ chain)).
  { intros k [x|] [y|] Hag; unfold union_with; simpl; try naive_solver.
    rewrite (Hag x y) by done. naive_solver. }
  intros (H1 & H2 & H3). rewrite (Hu "Arena"), (Hu "Initiative"), (Hu "Project") by done. tauto.
Qed.

Lemma asks_compatible t u chain :
  chain_functional chain → asks t chain → asks u chain → compatible t u.
Proof.
  intros Hf (T1 & T2 & T3) (U1 & U2 & U3). unfold compatible, agree.
  repeat split; intros i j Hi Hj; eapply Hf; eauto; set_solver.
Qed.

Lemma tuple_leb_total a b : tuple_leb a b = false → tuple_leb b a = true.
Proof.
  revert b. induction a as [|x a IH]; intros [|y b]; simpl; try done.
  rewrite orb_false_iff, andb_false_iff, orb_true_iff, andb_true_iff, String.eqb_neq, String.eqb_eq.
  intros [Hlt Hor]. destruct (str_trichotomy x y) as [?|[->|?]]; [congruence| |by left].
  right. split; [done|]. apply IH. by destruct Hor.
Qed.

Lemma tuple_leb_trans a b c : tuple_leb a b = true → tuple_leb b c = true → tuple_leb a c = true.
Proof.
  revert b c. induction a as [|x a IH]; intros [|y b] [|z c]; simpl; try done.
  rewrite !orb_true_iff, !andb_true_iff, !String.eqb_eq.
  intros [H1|[-> H1]] [H2|[-> H2]]; eauto using str_ltb_trans.
Qed.

Lemma res_mapM_anchors (l : list (list string)) :
  (∀ p, p ∈ l → ∃ t, p = shape t ∧ triple_valid t) →
  res_mapM anchors l = Ok (map (λ p, {| path := p |}) l).
Proof.
  induction l as [|p l IH]; intros Hl; [done|].
  destruct (Hl p) as (t & -> & Ht); [left|]. simpl. rewrite anchors_shape by done. simpl.
  rewrite IH; [done|]. intros q Hq. apply Hl. by right.
Qed.

Definition merges (l r : list ResourcePath) : list (list string) :=
  a ← l; b ← r; if anchors_clash (anchor_pairs a) (anchor_pairs b) then [] else [merge_path a b].

Lemma elem_of_merges l r p :
  p ∈ merges l r ↔ ∃ a b, a ∈ l ∧ b ∈ r ∧ anchors_clash (anchor_pairs a) (anchor_pairs b) = false
                          ∧ p = merge_path a b.
Proof.
  unfold merges. rewrite list_elem_of_bind. split.
  - intros (a & Hp & Ha). apply list_elem_of_bind in Hp as (b & Hp & Hb).
    exists a, b. destruct (anchors_clash _ _); [by apply elem_of_nil in Hp|].
    by apply list_elem_of_singleton in Hp as ->.
  - intros (a & b & Ha & Hb & Hc & ->). exists a. split; [|done]. apply list_elem_of_bind.
    exists b. split; [|done]. rewrite Hc. by left.
Qed.

Lemma path_shape p : path_valid p → ∃ t, p = {| path := shape t |} ∧ triple_valid t.
Proof. intros (t & Hp & ?)%path_valid_shape. exists t. split; [|done]. destruct p. by f_equal. Qed.

(** Combining two constrained ceilings returns and admits exactly the ancestries
    both admit. *)
Lemma intersect_paths_spec l r :
  Forall path_valid l → Forall path_valid r → l ≠ [] → r ≠ [] →
  ∃ ps, intersect_paths l r = Ok ps ∧ Forall path_valid ps
    ∧ StronglySorted (λ a b, path_leb a b = true) ps
    ∧ ∀ chain, chain_functional chain →
        admits ps chain = admits l chain && admits r chain.
Proof.
  intros Hl Hr Hl0 Hr0. rewrite Forall_forall in Hl. rewrite Forall_forall in Hr.
  assert (Hm : ∀ p, p ∈ merges l r → ∃ a b t u, a ∈ l ∧ b ∈ r ∧ a = {| path := shape t |}
     ∧ b = {| path := shape u |} ∧ compatible t u ∧ p = shape (union_of t u) ∧ triple_valid (union_of t u)).
  { intros p (a & b & Ha & Hb & Hc & ->)%elem_of_merges.
    destruct (path_shape a) as (t & -> & Ht); [by apply Hl|].
    destruct (path_shape b) as (u & -> & Hu); [by apply Hr|].
    rewrite !anchor_pairs_shape in Hc. apply anchors_clash_spec in Hc.
    exists {| path := shape t |}, {| path := shape u |}, t, u.
    rewrite merge_path_shape. repeat (split; [done|]). by apply union_of_valid. }
  assert (Hi : intersect_paths l r =
      Ok (stable_sort path_leb (remove_dups (map (λ p, {| path := p |}) (merges l r))))).
  { unfold intersect_paths. destruct l as [|l0 l']; [done|]. destruct r as [|r0 r']; [done|].
    fold (merges (l0 :: l') (r0 :: r')). rewrite res_mapM_anchors; [done|].
    intros p (a & b & t & u & ? & ? & ? & ? & ? & ? & ?)%Hm. eauto. }
  eexists. split; [exact Hi|].
  assert (He : ∀ p, p ∈ stable_sort path_leb (remove_dups (map (λ p, {| path := p |}) (merges l r)))
      ↔ path p ∈ merges l r).
  { intros p. rewrite stable_sort_perm, elem_of_remove_dups. split.
    - intros (q & -> & Hq)%list_elem_of_fmap. done.
    - intros Hp. apply list_elem_of_fmap. exists (path p). by destruct p. }
  split; [|split].
  - apply Forall_forall. intros p (a & b & t & u & _ & _ & _ & _ & _ & Hp & Hv)%He%Hm.
    unfold path_valid. rewrite Hp, anchors_shape by done. destruct p. simpl in *. by subst.
  - apply stable_sort_sorted; unfold path_leb; eauto using tuple_leb_total, tuple_leb_trans.
  - intros chain Hf. apply eq_bool_prop_intro. rewrite !Is_true_true, andb_true_iff, !admits_spec. split.
    + intros (p & (a & b & t & u & Ha & Hb & -> & -> & Hc & Hp & _)%He%Hm & Hp').
      rewrite Hp, asks_spec, asks_union in Hp' by done. destruct Hp' as [Ht Hu].
      split; [exists {| path := shape t |}|exists {| path := shape u |}]; (split; [done|]); by apply asks_spec.
    + intros ((a & Ha & Hta) & (b & Hb & Hub)).
      destruct (path_shape a) as (t & -> & _); [by apply Hl|].
      destruct (path_shape b) as (u & -> & _); [by apply Hr|].
      apply asks_spec in Hta. apply asks_spec in Hub.
      pose proof (asks_compatible t u chain Hf Hta Hub) as Hc.
      exists {| path := shape (union_of t u) |}. split.
      * apply He, elem_of_merges. exists {| path := shape t |}, {| path := shape u |}.
        rewrite !anchor_pairs_shape, merge_path_shape, anchors_clash_spec. done.
      * by apply asks_spec, asks_union.
Qed.

(** ** The ancestry walk *)

(** How far a kind is from the top of the canonical hierarchy. *)
Definition kind_rank (k : string) : nat :=
  if String.eqb k "Task" then 3 else if String.eqb k "Issue" then 2 else if String.eqb k "Project" then 1 else 0.

Lemma parent_kinds_spec k p :
  p ∈ parent_kinds k → (kind_rank p < kind_rank k)%nat ∧ p ∈ TODO_KINDS.
Proof.
  unfold parent_kinds, PARENTS. cbn [dict_get].
  repeat match goal with
  | |- context [String.eqb ?a ?b] => destruct (String.eqb_spec a b) as [->|]; cbn
  end; rewrite ?elem_of_cons, ?elem_of_nil; intros; destruct_or?; subst;
    by (split; [vm_compute; lia|by apply str_in_spec]).
Qed.

(** The bound of four iterations loses nothing: on any graph, cyclic or
    ambiguous ones included, a longer walk returns the same ancestry. *)
Theorem four_steps_suffice n k i s :
  (4 <= n)%nat → k ∈ TODO_KINDS →
  current_resource_path k i s = path_walk n (k, i) [] [] s.
Proof.
  intros Hn Hk. unfold current_resource_path. apply str_in_spec in Hk as ->.
  assert (Hw : ∀ n m current visited chain, (kind_rank current.1 < n)%nat → (kind_rank current.1 < m)%nat →
     path_walk n current visited chain s = path_walk m current visited chain s).
  { clear. induction n as [|n IH]; intros [|m] current visited chain Hn Hm; [lia..|].
    cbn [path_walk]. destruct (decide (current ∈ visited)); [done|].
    destruct (work_containment _ _ _) as [[it|]|e]; [|done..]. cbn [mbind res_bind].
    destruct (_ && _); [|done]. destruct (wc_parents it) as [|edge [|]]; [done| |done].
    destruct (wc_memberships it) as [|? [|]]; [|done|done].
    destruct (_ || _) eqn:B; [done|]. bools. apply str_in_spec, parent_kinds_spec in H0 as [??].
    apply IH; simpl; lia. }
  apply Hw; unfold kind_rank; simpl; repeat case_match; lia.
Qed.

(** The chains the walk returns: keys of distinct kinds. *)
Definition chain_of (c : list string) (ks : list key) : Prop :=
  c = map resource_of ks ∧ NoDup ks.*1 ∧ Forall (λ k, k.1 ∈ "Arena" :: TODO_KINDS) ks.

Lemma chain_of_functional c ks : chain_of c ks → chain_functional c.
Proof.
  intros (-> & Hnd & Hk) k i j HA.
  assert (Hno : ∀ x, x ∈ "Arena" :: TODO_KINDS → str_forall (λ d, negb (Ascii.eqb slash d)) x = true).
  { intros x Hx. repeat (apply elem_of_cons in Hx as [->|Hx]; [done|]). by apply elem_of_nil in Hx. }
  assert (Hs : ∀ x, (k +:+ "/" +:+ x) ∈ map resource_of ks → (k, x) ∈ ks).
  { intros x (y & Hy & Hin)%list_elem_of_fmap. rewrite Forall_forall in Hk.
    rewrite (resource_of_inj_l (k, x) y); [done| |by apply Hno, Hk|done].
    apply Hno. unfold ANCHOR_KINDS, TODO_KINDS in *. set_solver. }
  intros Hi%Hs Hj%Hs. apply list_elem_of_lookup in Hi as [n Hn], Hj as [m Hm].
  assert (n = m) as <-; [|congruence].
  eapply (NoDup_lookup ks.*1 n m k Hnd); by rewrite list_lookup_fmap, ?Hn, ?Hm.
Qed.

Lemma path_walk_chain n current visited ks s c :
  path_walk n current visited (map resource_of ks) s = Ok (Some c) →
  current.1 ∈ TODO_KINDS → NoDup ks.*1 → Forall (λ k, k.1 ∈ "Arena" :: TODO_KINDS) ks →
  Forall (λ k, (kind_rank current.1 < kind_rank k.1)%nat ∧ k.1 ∈ TODO_KINDS) ks →
  ∃ ks', chain_of c ks'.
Proof.
  revert current visited ks. induction n as [|n IH]; intros current visited ks Hw Hc Hnd Hk Hr; [done|].
  cbn [path_walk] in Hw. destruct (decide (current ∈ visited)); [done|].
  destruct (work_containment _ _ _) as [[it|]|e]; [|done..]. cbn [mbind res_bind] in Hw.
  destruct (_ && _); [|done].
  assert (Hnd' : NoDup (current :: ks).*1).
  { rewrite fmap_cons, NoDup_cons. split; [|done]. intros (k & Heq & Hin)%list_elem_of_fmap.
    rewrite Forall_forall in Hr. apply Hr in Hin as [? _]. rewrite Heq in *. lia. }
  assert (Hk' : Forall (λ k, k.1 ∈ "Arena" :: TODO_KINDS) (current :: ks)) by (constructor; [by right|done]).
  destruct (wc_parents it) as [|edge [|]]; [| |done].
  - destruct (wc_memberships it) as [|m [|]]; [| |done].
    + simpl in Hw. injection Hw as <-. by exists (current :: ks).
    + apply res_bind_Ok in Hw as (o & Ho & Hw). unfold arena_end in Ho.
      apply res_bind_Ok in Ho as (a & _ & Ho). destruct a as [a|]; [|by simplify_eq].
      destruct (_ && _); [|by simplify_eq]. injection Ho as <-. injection Hw as <-.
      exists (("Arena", from_id m) :: current :: ks). split; [done|]. split.
      * rewrite fmap_cons, NoDup_cons. split; [|done]. rewrite fmap_cons, elem_of_cons.
        intros [Heq|(k & Heq & Hin)%list_elem_of_fmap].
        { rewrite <- Heq in Hc. by apply str_in_spec in Hc. }
        rewrite Forall_forall in Hr. apply Hr in Hin as [_ Hin]. rewrite <- Heq in Hin.
        by apply str_in_spec in Hin.
      * constructor; [by left|done].
  - destruct (wc_memberships it) as [|m [|]]; [|done|done].
    destruct (_ || _) eqn:B in Hw; [done|]. bools.
    match goal with H : str_in _ _ = true |- _ => apply str_in_spec, parent_kinds_spec in H as [??] end.
    apply (IH _ _ (current :: ks)) in Hw; [done|done|done|done|].
    constructor; [done|]. eapply Forall_impl; [exact Hr|]. intros k [? ?]. simpl in *. split; [lia|done].
Qed.

Lemma current_resource_path_chain k i s c :
  current_resource_path k i s = Ok (Some c) → chain_functional c.
Proof.
  unfold current_resource_path. destruct (str_in k TODO_KINDS) eqn:Hk; [|done]. apply str_in_spec in Hk.
  intros Hw. destruct (path_walk_chain 4 (k, i) [] [] s c Hw) as [ks ?]; [done|constructor..|].
  by eapply chain_of_functional.
Qed.

Lemma within_paths_nonempty k i ps s :
  ps ≠ [] → within_paths k i ps s =
    (chain ← current_resource_path k i s; Ok (match chain with None => false | Some c => admits ps c end)).
Proof. by destruct ps. Qed.

(** A work object is within the intersection of two path ceilings exactly
    when it is within both, for its ancestry in the current graph; an empty
    intersection of constrained ceilings holds nothing. *)
Theorem within_intersection l r k i s :
  Forall path_valid l → Forall path_valid r → l ≠ [] → r ≠ [] →
  is_ok (current_resource_path k i s) = true →
  ∃ ps bl br, intersect_paths l r = Ok ps
    ∧ within_paths k i l s = Ok bl ∧ within_paths k i r s = Ok br
    ∧ (ps ≠ [] → within_paths k i ps s = Ok (bl && br))
    ∧ (ps = [] → bl && br = false).
Proof.
  intros Hl Hr Hl0 Hr0 Hp. destruct (intersect_paths_spec l r Hl Hr Hl0 Hr0) as (ps & Hi & _ & _ & Ha).
  destruct (current_resource_path k i s) as [c|] eqn:E; [|done].
  exists ps, (match c with None => false | Some c => admits l c end),
    (match c with None => false | Some c => admits r c end).
  rewrite !within_paths_nonempty, E by done. cbn [mbind res_bind].
  split; [done|]. split; [done|]. split; [done|]. split.
  - intros Hne. rewrite within_paths_nonempty, E by done. cbn [mbind res_bind]. f_equal.
    destruct c as [c|]; [|done]. by apply Ha, (current_resource_path_chain k i s).
  - intros ->. destruct c as [c|]; [|done]. by rewrite <- Ha by by eapply current_resource_path_chain.
Qed.

(** ** Witnesses *)

(** Arena a contains Initiative i, whose child is Task t. *)
Definition ex_graph : Store :=
  let node k i := ((k, i), Node k i {["kind" := VStr k]} false) in
  {| nodes := list_to_map [node "Arena" "a"; node "Initiative" "i"; node "Task" "t"];
     refs := ∅;
     edges := [Edge "Arena" "a" "CONTAINS_WORK" "Initiative" "i" ∅; Edge "Initiative" "i" "HAS_CHILD" "Task" "t" ∅];
     applied_constraints := ∅; tx := None; next_ref := 0; next_tx := 0; ticks := 0 |}.

Definition ex_paths (l : list string) : list ResourcePath := [{| path := l |}].

Lemma paths_subset_exact_witness :
  paths_subset (ex_paths ["Arena/a"; "Initiative/i"]) (ex_paths ["Arena/a"]) = true
  ∧ allowed (ex_paths ["Arena/a"]) ["Arena/a"; "Initiative/i"; "Task/t"].
Proof.
  assert (Hv : Forall path_valid (ex_paths ["Arena/a"])) by (repeat constructor).
  split; [done|]. apply (proj1 (paths_subset_exact (ex_paths ["Arena/a"; "Initiative/i"]) _ Hv) eq_refl).
  by right.
Defined.

Lemma four_steps_suffice_witness :
  path_walk 9 ("Task", "t") [] [] ex_graph = Ok (Some ["Arena/a"; "Initiative/i"; "Task/t"]).
Proof.
  rewrite <- (four_steps_suffice 9 "Task" "t" ex_graph ltac:(lia) ltac:(by apply str_in_spec)).
  by vm_compute.
Defined.

Lemma within_intersection_witness : ∃ ps,
  intersect_paths (ex_paths ["Arena/a"]) (ex_paths ["Initiative/i"]) = Ok ps
  ∧ (ps ≠ [] → within_paths "Task" "t" ps ex_graph = Ok true).
Proof.
  destruct (within_intersection (ex_paths ["Arena/a"]) (ex_paths ["Initiative/i"]) "Task" "t" ex_graph
    ltac:(repeat constructor) ltac:(repeat constructor) ltac:(done) ltac:(done) ltac:(by vm_compute))
    as (ps & bl & br & Hi & Hl & Hr & Hp & _).
  exists ps. split; [done|]. intros Hne. rewrite (Hp Hne).
  vm_compute in Hl, Hr. by injection Hl as <-; injection Hr as <-.
Defined.
