(* ===== verification/Delegated.v ===== *)
(** * Delegated pages of the in-memory storage

    [src/devgraph/storage/delegated.py] and the scoped pages of
    [storage/memory.py]: a selector is a conjunction of exact resources, Arenas,
    kinds, archival and resource paths, a tuple of selectors a disjunction, and
    the pages list the Work that some selector admits. *)

From stdpp Require Import base gmap strings list sorting.
From Stdlib Require Import ZArith Ascii String.
From S2P Require Import Prelude Json Datetime Validation WorkflowContract StrictJson Model Storage StorageWf Search StorageReads ResourcePaths.

Local Open Scope Z_scope.

(** ** Selectors *)

Definition bad_selector : exn := ValueError "invalid delegated Work selector".

(** One resource of [validate_selectors]. *)
Definition work_selector (resource : string) : res key :=
  match split_resource resource with
  | None => Err bad_selector
  | Some (k, i) =>
      raise_if (negb (str_in k CANONICAL_WORK_KINDS)) bad_selector;;
      require_id i;; Ok (k, i)
  end.

(** The sets as lists without duplicates. *)
Definition validate_selectors (work_ids arena_ids : list string) : res (list key * list string) :=
  exact ← res_mapM work_selector work_ids;
  res_mapM require_id arena_ids;;
  raise_if (has_dup exact || has_dup arena_ids) (ValueError "duplicate delegated selector");;
  Ok (exact, arena_ids).

Record DelegatedWorkSelector := {
  ds_work_ids : list string;
  ds_arena_ids : list string;
  ds_work_kinds : list string;
  ds_include_archived : bool;
  ds_resource_paths : list ResourcePath
}.

(** [DelegatedWorkSelector.__post_init__]. *)
Definition new_selector (d : DelegatedWorkSelector) : res DelegatedWorkSelector :=
  validate_selectors (ds_work_ids d) (ds_arena_ids d);;
  raise_if ((16 <? Z.of_nat (length (ds_resource_paths d))) || has_dup (ds_resource_paths d))
    (ValueError "invalid resource paths");;
  raise_if (bool_decide (ds_work_kinds d = []) || negb (forallb (λ k, str_in k CANONICAL_WORK_KINDS) (ds_work_kinds d))
            || has_dup (ds_work_kinds d)) bad_selector;;
  Ok d.

Definition validate_work_filter (label : string) (selectors : list DelegatedWorkSelector) (work_kinds : list string)
    (after_id : option string) (limit : Z) : res unit :=
  raise_if (negb (str_in label CANONICAL_WORK_KINDS)) (ValueError "invalid delegated Work kind");;
  raise_if (bool_decide (length selectors = 0%nat)) (ValueError "invalid delegated Work selectors");;
  raise_if (bool_decide (work_kinds = []) || negb (forallb (λ k, str_in k CANONICAL_WORK_KINDS) work_kinds)
            || has_dup work_kinds) (ValueError "invalid delegated Work kinds");;
  match after_id with Some a => require_id a;; Ok tt | None => Ok tt end;;
  validate_page_limit limit;; Ok tt.

(** ** The predicate *)

Fixpoint res_existsb {A} (f : A → res bool) (l : list A) : res bool :=
  match l with
  | [] => Ok false
  | x :: l' => b ← f x; if (b : bool) then Ok true else res_existsb f l'
  end.

Fixpoint res_filter {A} (f : A → res bool) (l : list A) : res (list A) :=
  match l with
  | [] => Ok []
  | x :: l' => b ← f x; r ← res_filter f l'; Ok (if (b : bool) then x :: r else r)
  end.

(** One group of [_delegated_selector_predicate] on a stored record. *)
Definition selector_admits (d : DelegatedWorkSelector) (k : key) (n : NodeRecord) (s : Store) : res bool :=
  if str_in k.1 (ds_work_kinds d)
     && (negb (nr_archived n) || ds_include_archived d)
     && (bool_decide (ds_work_ids d = []) || bool_decide (k ∈ omap (split_once slash) (ds_work_ids d)))
     && (bool_decide (ds_arena_ids d = []) || bool_decide (k ∈ _arena_descendant_keys (ds_arena_ids d) s))
  then within_paths k.1 k.2 (ds_resource_paths d) s else Ok false.

Definition _delegated_selector_predicate (selectors : list DelegatedWorkSelector) (k : key) (s : Store) : res bool :=
  match nodes s !! k with
  | None => Ok false
  | Some n => res_existsb (λ d, selector_admits d k n s) selectors
  end.

(** ** Pages *)

Definition delegated_work_page (label : string) (selectors : list DelegatedWorkSelector) (work_kinds : list string)
    (include_archived descending : bool) (after_id : option string) (limit : Z) (s : Store) : res (list NodeRecord) :=
  validate_work_filter label selectors work_kinds after_id limit;;
  records ← res_filter (λ n,
    if String.eqb (nr_label n) label && str_in label work_kinds && (include_archived || negb (nr_archived n)) then
      ok ← _delegated_selector_predicate selectors (nr_key n) s;
      Ok ((ok : bool) && match after_id with
                | None => true
                | Some a => if descending then String.ltb (nr_id n) a else String.ltb a (nr_id n)
                end)
    else Ok false) (all_nodes s);
  Ok (take (Z.to_nat limit) (sorted_nodes descending records)).

Definition delegated_related_work_nodes (label node_id rel : string) (inc : bool) (selectors : list DelegatedWorkSelector)
    (work_kinds : list string) (include_archived : bool) (after : option string) (limit : Z) (s : Store) :
    res (list NodeRecord) :=
  validate_work_filter label selectors work_kinds None limit;;
  raise_if (negb (str_in rel RELATED)) (ValueError "invalid relationship read");;
  raise_if (existsb (λ d, negb (bool_decide (ds_resource_paths d = []))) selectors)
    (ValueError "resource paths require the versioned monitor projection");;
  es ← res_filter (λ e,
    let target := edge_target inc e in
    match nodes s !! target with
    | Some n =>
        if String.eqb (relationship e) rel && bool_decide (edge_source inc e = (label, node_id))
           && str_in target.1 work_kinds && (include_archived || negb (nr_archived n)) then
          ok ← _delegated_selector_predicate selectors target s;
          Ok ((ok : bool) && after_cursor after target)
        else Ok false
    | None => Ok false
    end) (edges s);
  Ok (omap (λ k, nodes s !! k) (take (Z.to_nat limit) (sorted_keys (map (edge_target inc) es)))).

Definition delegated_arena_member_page (arena_id : string) (selectors : list DelegatedWorkSelector)
    (work_kinds : list string) (include_archived : bool) (after : option string) (limit : Z) (s : Store) :
    res (list WorkContainment) :=
  validate_arena_page arena_id after limit;;
  validate_work_filter "Initiative" selectors work_kinds None limit;;
  es ← res_filter (λ e,
    if bool_decide ((from_label e, from_id e, relationship e) = ("Arena", arena_id, "CONTAINS_WORK"))
       && str_in (to_label e) work_kinds then
      visible ← (if include_archived then Ok true
                 else n ← of_option (KeyError (to_id e)) (nodes s !! edge_to e); Ok (negb (nr_archived n)));
      if (visible : bool) then
        ok ← _delegated_selector_predicate selectors (edge_to e) s;
        Ok ((ok : bool) && after_cursor after (edge_to e))
      else Ok false
    else Ok false) (edges s);
  _work_containment (take (Z.to_nat limit) (sorted_keys (map edge_to es))) s.

(** ** Filters that cannot fail half way *)

Lemma res_filter_Ok {A} (f : A → res bool) l r : res_filter f l = Ok r →
  ∀ x, x ∈ r ↔ x ∈ l ∧ f x = Ok true.
Proof.
  revert r. induction l as [|y l IH]; intros r; simpl.
  - intros [= <-] x. set_solver.
  - intros H. apply res_bind_Ok in H as (b & Hb & H). apply res_bind_Ok in H as (r' & Hr & [= <-]).
    specialize (IH r' Hr). intros x. destruct b; rewrite ?elem_of_cons, IH; split.
    + intros [->|[? ?]]; auto.
    + intros [[->|?] ?]; auto.
    + intros [? ?]; auto.
    + intros [[->|?] ?]; [congruence|auto].
Qed.

Lemma res_filter_sublist {A} (f : A → res bool) l r : res_filter f l = Ok r → sublist r l.
Proof.
  revert r. induction l as [|y l IH]; intros r; simpl; [intros [= <-]; constructor|].
  intros H. apply res_bind_Ok in H as (b & _ & H). apply res_bind_Ok in H as (r' & Hr & [= <-]).
  specialize (IH r' Hr). by destruct b; constructor.
Qed.

Lemma res_existsb_true {A} (f : A → res bool) l : res_existsb f l = Ok true → ∃ x, x ∈ l ∧ f x = Ok true.
Proof.
  induction l as [|x l IH]; simpl; [done|]. intros H. apply res_bind_Ok in H as (b & Hb & H).
  destruct b; [exists x; split; [by left|done]|]. destruct (IH H) as (y & ? & ?). exists y. split; [by right|done].
Qed.

Lemma res_existsb_total {A} (f : A → res bool) (g : A → bool) l : (∀ x, x ∈ l → f x = Ok (g x)) →
  res_existsb f l = Ok (existsb g l).
Proof.
  induction l as [|x l IH]; intros Hf; simpl; [done|]. rewrite (Hf x) by left. cbn [mbind res_bind].
  destruct (g x); [done|]. apply IH. intros y Hy. apply Hf. by right.
Qed.
