(* ===== verification/Workflows.v ===== *)
(** * Canonical workflow execution

    [src/devgraph/workflows.py]: the gates between workflow stages, the review
    records that open them and the operations [workflow.assign],
    [workflow.review] and the transitions.  The per-instance caches of
    [Workflows] are reads of the store: an instance serves one operation, and
    every cached read happens before the operation's writes to what was read.
    A payload is the validated request model. *)

From stdpp Require Import base gmap strings list sorting.
From Stdlib Require Import ZArith Ascii String.
From S2P Require Import Prelude Json Sha256 Datetime Validation WorkflowContract Model Storage StorageWf StorageReads Repository.

Local Open Scope Z_scope.

(** [hashlib.sha256(json.dumps(value, ensure_ascii=False).encode()).hexdigest()]. *)
Definition fingerprint (v : value) : string := sha256_hex (utf8_encode (dumps false v)).

(** [record[name]] on parsed JSON. *)
Definition subscript (name : string) (v : value) : res value :=
  match v with
  | VDict d => of_option (KeyError name) (dict_get name d)
  | _ => Err (TypeError "not subscriptable by str")
  end.

Definition versions_leb (a b : key * Z) : bool :=
  key_ltb a.1 b.1 || (bool_decide (a.1 = b.1) && (a.2 <=? b.2)).

(** ** Reading the graph *)

(** [Workflows.edges]: at most 10,000 edges of a kind are considered. *)
Definition edges_of (rel : string) (s : Store) : res (list EdgeRecord) :=
  es ← list_edges (Some rel) (Some 10001) s;
  raise_if (10000 <? Z.of_nat (length es)) (StorageUnavailable "workflow relationship budget exceeded");;
  Ok es.

Definition related (rel : string) (k : key) (incoming : bool) (s : Store) : res (list EdgeRecord) :=
  es ← edges_of rel s;
  Ok (filter (λ e, (if incoming then edge_to e else edge_from e) = k) es).

Section workflows.
  Context `{Pydantic, Clock}.

Definition children (w : WorkObject) (s : Store) : res (list WorkObject) :=
  es ← related "HAS_CHILD" (work_key w) false s;
  res_mapM (λ e, get_by_id (to_label e) (to_id e) s) es.

(** The criteria of one attached key, when it is a Requirement. *)
Definition nested_criteria (s : Store) (k : key) : res (list key) :=
  if String.eqb k.1 "Requirement" then
    requirement ← get_by_id k.1 k.2 s;
    es ← related "HAS_ACCEPTANCE_CRITERION" (work_key requirement) false s;
    Ok (map edge_to es)
  else Ok [].

Definition requirements (w : WorkObject) (s : Store) : res (list key) :=
  rs ← related "HAS_REQUIREMENT" (work_key w) false s;
  cs ← related "HAS_ACCEPTANCE_CRITERION" (work_key w) false s;
  let attached := sorted_keys (map edge_to (rs ++ cs)) in
  nested ← res_mapM (nested_criteria s) attached;
  Ok (sorted_keys (attached ++ mjoin nested)).

(** ** The evidence basis *)

Definition content_value (w : WorkObject) : value :=
  VDict (mk_dict [("title", VStr (title w)); ("description", VStr (description w));
                  ("artifact_ids", strs (artifact_ids w)); ("external_link_ids", strs (external_link_ids w))]).

Definition child_value (c : key * Z) : value := VList [VStr c.1.1; VStr c.1.2; VInt c.2].

Definition requirement_value (s : Store) (k : key) : res value :=
  o ← get_node k.1 k.2 s;
  Ok (VList [VStr k.1; VStr k.2;
             match o with
             | None => VNone
             | Some n => VList [VBool (nr_archived n); dict_of_props (nr_properties n)]
             end]).

Definition PLANNING_PHASES : list string := ["developer_plan"; "ceo_plan"; "baseline"].

Definition basis (w : WorkObject) (phase : string) (s : Store) : res string :=
  cs ← (if str_in phase PLANNING_PHASES then Ok []
        else l ← children w s; Ok (map (λ c, (work_key c, version c)) l));
  ks ← requirements w s;
  rows ← res_mapM (requirement_value s) ks;
  Ok (fingerprint (VList [content_value w; VList (map child_value (stable_sort versions_leb cs)); VList rows])).

(** ** Reviews *)

Definition resource_name (w : WorkObject) : string := resource_of (work_key w).

(** Every hashed evidence node is active and unchanged. *)
Fixpoint evidence_current (items : list (string * value)) (s : Store) : res bool :=
  match items with
  | [] => Ok true
  | (ref, digest) :: items' =>
      ki ← of_option (ValueError "not enough values to unpack") (split_once slash ref);
      o ← get_node ki.1 ki.2 s;
      match o with
      | Some n =>
          if nr_archived n || negb (bool_decide (digest = VStr (fingerprint (dict_of_props (nr_properties n)))))
          then Ok false else evidence_current items' s
      | None => Ok false
      end
  end.

(** The [try] block of [Workflows.review]. *)
Definition review_of_record (w : WorkObject) (phase : string) (n : NodeRecord) (s : Store) :
    res (option WorkflowReview) :=
  text ← of_option (KeyError "description") (nr_properties n !! "description");
  record ← match text with
           | VStr t => of_option (ValueError "invalid JSON") (loads t)
           | _ => Err (TypeError "the JSON object must be str")
           end;
  schema ← subscript "schema" record;
  if negb (bool_decide (schema = VStr "devgraph.workflow-review.v1")) then Ok None else
  subject ← subscript "subject" record;
  if negb (bool_decide (subject = VStr (resource_name w))) then Ok None else
  recorded ← subscript "basis" record;
  current ← basis w phase s;
  if negb (bool_decide (recorded = VStr current)) then Ok None else
  document ← subscript "review" record;
  p ← subscript "phase" document;
  if negb (bool_decide (p = VStr phase)) then Ok None else
  hashes ← subscript "evidence_hashes" record;
  items ← match hashes with VDict d => Ok d | _ => Err (AttributeError "items") end;
  ok ← evidence_current items s;
  if (ok : bool) then r ← WorkflowReview_of document; Ok (Some r) else Ok None.

Definition review (w : WorkObject) (st : WorkflowState) (phase : string) (s : Store) :
    res (option WorkflowReview) :=
  match reviews st !! phase with
  | None => Ok None
  | Some record_id =>
      o ← get_node (RECORD_KINDS phase) record_id s;
      match o with
      | None => Ok None
      | Some n =>
          if nr_archived n then Ok None
          else catch (λ e, is_key_error e || is_value_error e || is_type_error e) None
                 (review_of_record w phase n s)
      end
  end.

(** The technical review covers every layer and none asks for changes. *)
Definition layers_complete (r : WorkflowReview) : bool :=
  forallb (λ l, str_in l (map lv_layer (wr_layers r))) LAYERS
  && forallb (λ x, str_in (lv_layer x) LAYERS) (wr_layers r)
  && forallb (λ x, negb (String.eqb (lv_verdict x) "changes_requested")) (wr_layers r).

Definition _approved (w : WorkObject) (st : WorkflowState) (phase : string) (evidence : bool) (s : Store) :
    res bool :=
  o ← review w st phase s;
  Ok (match o with
      | None => false
      | Some r =>
          if negb (String.eqb (wr_verdict r) "approved") || (evidence && bool_decide (wr_evidence r = []))
          then false
          else if String.eqb phase "technical" then layers_complete r else true
      end).

(** ** Gates *)

Definition gap_ledger : string :=
  "Record satisfied requirements and their evidence, or explained exclusions.".
Definition gap_coverage : string :=
  "Include every attached requirement and acceptance criterion in the review ledger.".
Definition gap_children : string := "Complete child work or record its explicit scope exclusion.".
Definition gap_blockers : string := "Resolve blocking work before completing this item.".
Definition gap_disposition : string := "Record the proposal disposition with valid Decision provenance.".
Definition gap_resume : string := "Record the required input or decision before resuming.".
Definition gap_review (phase : string) : string :=
  "Record current " +:+ str_replace "_" " " phase +:+ " approval and evidence.".

Definition is_done (w : WorkObject) : bool := bool_decide (progress w = Some "done").

(** The ledger is missing, not approved, empty or leaves a requirement unmet. *)
Definition ledger_open (o : option WorkflowReview) : bool :=
  match o with
  | None => true
  | Some r => negb (String.eqb (wr_verdict r) "approved") || bool_decide (wr_requirements r = [])
              || existsb (λ x, String.eqb (rv_outcome x) "unmet") (wr_requirements r)
  end.

Definition ledger_covers (o : option WorkflowReview) (expected : list key) : bool :=
  match o with
  | None => true
  | Some r => forallb (λ k, str_in (resource_of k) (map rv_subject (wr_requirements r))) expected
  end.

Definition exclusions (o : option WorkflowReview) : list string :=
  match o with
  | None => []
  | Some r => map rv_subject (filter (λ x, rv_outcome x = "excluded") (wr_requirements r))
  end.

(** The loop over incoming [BLOCKS] edges stops at the first open blocker. *)
Fixpoint open_blocker (es : list EdgeRecord) (s : Store) : res bool :=
  match es with
  | [] => Ok false
  | e :: es' =>
      blocker ← get_by_id (from_label e) (from_id e) s;
      if is_done blocker then open_blocker es' s else Ok true
  end.

Definition when (b : bool) (gap : string) : list string := if b then [gap] else [].

Definition completion_gaps (w : WorkObject) (st : WorkflowState) (s : Store) : res (list string) :=
  ledger ← review w st "requirements" s;
  expected ← requirements w s;
  cs ← children w s;
  blocks ← related "BLOCKS" (work_key w) true s;
  blocked_by ← open_blocker blocks s;
  Ok (when (ledger_open ledger) gap_ledger
      ++ when (negb (ledger_covers ledger expected)) gap_coverage
      ++ when (existsb (λ c, negb (is_done c) && negb (str_in (resource_name c) (exclusions ledger))) cs)
           gap_children
      ++ when blocked_by gap_blockers).

(** The edges of one disposition relation: each leads to a readable, active Decision. *)
Fixpoint valid_decisions (es : list EdgeRecord) (s : Store) : res bool :=
  match es with
  | [] => Ok true
  | e :: es' =>
      o ← (if String.eqb (to_label e) "Decision" then get_node "Decision" (to_id e) s else Ok None);
      match o with
      | None => Ok false
      | Some n =>
          if nr_archived n then Ok false
          else readable ← catch (λ e, is_value_error e || is_type_error e) false
                            (w ← _from_node n; Ok true);
               if (readable : bool) then valid_decisions es' s else Ok false
      end
  end.

Definition disposition (w : WorkObject) (s : Store) : res (option string) :=
  accepted ← related "ACCEPTED_BY_DECISION" (work_key w) false s;
  ok ← valid_decisions accepted s;
  if negb ok then Ok None else
  rejected ← related "REJECTED_BY_DECISION" (work_key w) false s;
  ok ← valid_decisions rejected s;
  if negb ok then Ok None else
  Ok (match map (λ _, "accepted") accepted ++ map (λ _, "rejected") rejected with
      | [v] => Some v
      | _ => None
      end).

(** The reviews the stage asks for. *)
Definition required_phases (st : WorkflowState) (target : string) : list string :=
  entry_reviews target
  ++ (if String.eqb target "done" then
        if String.eqb (workflow_id st) vibe_ceo then ["developer_plan"; "ceo_plan"; "ceo_delivery"]
        else ["baseline"; "commit"]
      else []).

Fixpoint phase_gaps (w : WorkObject) (st : WorkflowState) (phases : list string) (s : Store) : res (list string) :=
  match phases with
  | [] => Ok []
  | p :: phases' =>
      ok ← _approved w st p true s;
      rest ← phase_gaps w st phases' s;
      Ok (when (negb ok) (gap_review p) ++ rest)
  end.

Definition gaps (w : WorkObject) (st : WorkflowState) (target : string) (s : Store) : res (list string) :=
  if archived w then Ok ["Archived work cannot move."]
  else if String.eqb target blocked then Ok []
  else if String.eqb (stage st) blocked then
    ok ← _approved w st "resolution" true s; Ok (when (negb ok) gap_resume)
  else if bool_decide (returns (workflow_id st) (stage st) = Some target) then Ok []
  else
    missing ← phase_gaps w st (required_phases st target) s;
    completion ← (if str_in target COMPLETION_GATES then completion_gaps w st s else Ok []);
    undisposed ← (if String.eqb target "done" && bool_decide (kind w = KProposal)
                  then d ← disposition w s; Ok (bool_decide (d = None)) else Ok false);
    Ok (fromkeys (missing ++ completion ++ when undisposed gap_disposition)).

(** ** Transitions *)

Record Transition := {
  t_stage : string;
  t_label : string;
  t_column : string;
  unmet_requirements : list string
}.

Definition targets (st : WorkflowState) : res (list string) :=
  if String.eqb (stage st) blocked then
    r ← of_option (KeyError "None") (resume_stage st); Ok [r]
  else
    f ← of_option (KeyError (stage st)) (forward (workflow_id st) (stage st));
    Ok (f :: match returns (workflow_id st) (stage st) with Some b => [b] | None => [] end ++ [blocked]).

Definition transition_row (w : WorkObject) (st : WorkflowState) (s : Store) (t : string) : res Transition :=
  row ← of_option (KeyError t)
          (rows ← stages_of (workflow_id st); head (filter (λ r, r.1.1 = t) rows));
  g ← gaps w st t s;
  Ok {| t_stage := t; t_label := row.1.2; t_column := row.2; unmet_requirements := g |}.

Definition transitions (w : WorkObject) (s : Store) : res (list Transition) :=
  match workflow_json w with
  | None => Ok []
  | Some raw =>
      if negb (truthy raw) then Ok [] else
      st ← decode_state raw;
      if String.eqb (stage st) "done" || archived w then Ok [] else
      ts ← targets st;
      res_mapM (transition_row w st s) ts
  end.

(** ** Writes *)

Definition _save (w : WorkObject) (st : WorkflowState) : M Store WorkObject :=
  p ← lift (stage_progress (workflow_id st) (stage st));
  now ← utc_now;
  updated ← lift (replace (λ c, touch now (set_workflow (Some (encode_state st)) (Some (Progress_value p)) c)) w);
  update_node (kind_name (kind w)) (id w) (to_node_properties updated);;
  mret updated.

(** The reviews that survive a return to [target]. *)
Definition kept_reviews (target : string) (rs : gmap string string) : gmap string string :=
  if str_in target ["planning"; "intake"] then ∅
  else foldr delete rs ["commit"; "technical"; "ceo_delivery"; "handoff"; "requirements"].

Definition move (st : WorkflowState) (target : string) (resume : option string) (reason : string)
    (rs : gmap string string) : WorkflowState :=
  {| workflow_id := workflow_id st; stage := target; resume_stage := resume; blocking_reason := reason;
     reviews := rs |}.

(** The changes [execute] makes to the decoded state. *)
Definition next_state (st : WorkflowState) (target reason : string) : res WorkflowState :=
  if String.eqb target blocked then
    raise_if (is_blank reason) (WorkflowConflict "Explain what input or decision is needed.");;
    Ok (move st target (Some (stage st)) reason (delete "resolution" (reviews st)))
  else if String.eqb (stage st) blocked then Ok (move st target None "" (reviews st))
  else if bool_decide (returns (workflow_id st) (stage st) = Some target) then
    raise_if (is_blank reason) (WorkflowConflict "Record feedback before returning work.");;
    Ok (move st target (resume_stage st) (blocking_reason st) (kept_reviews target (reviews st)))
  else Ok (move st target (resume_stage st) (blocking_reason st) (reviews st)).

(** The stage at which a phase is recorded. *)
Definition required_stage (phase : string) : option (list string) :=
  dict_get phase
    [("developer_plan", ["developer_plan_approval"]); ("ceo_plan", ["ceo_plan_approval"]);
     ("ceo_delivery", ["ceo_delivery_approval"]); ("baseline", ["requirements_normalized"]);
     ("commit", ["implementing_commit"]); ("technical", ["technical_review"; "layer_review"]);
     ("handoff", ["handoff_verification"; "delivery_packet_ready"]); ("resolution", [blocked])].

(** A constructor call with default timestamps: two readings of the clock. *)
Definition construct (k : Kind) (i t d : string) : M Store WorkObject :=
  created ← utc_now;
  updated ← utc_now;
  lift (post_init (set_content t d [] [] 0 (new_work k i t created updated))).

(** One item of evidence: the link is created when it has a URL. *)
Definition record_evidence (e : Evidence) : M Store (string * value) :=
  found ← reads (get_node (ev_kind e) (ev_id e));
  o ← (if truthy (ev_url e) then
         guard_raise (bool_decide (is_Some found)) (WorkObjectAlreadyExistsError "Evidence link already exists.");;
         w ← construct KExternalLink (ev_id e) (ev_title e) "";
         n ← create_node "ExternalLink" (ev_id e)
               (link_properties {| el_work := w; el_role := GENERIC_URL; el_url := ev_url e;
                                   el_external_id := ""; el_summary := "" |});
         mret (Some n)
       else mret found);
  n ← lift (of_option (WorkflowConflict "Evidence must resolve to an active Artifact or ExternalLink.") o);
  guard_raise (nr_archived n) (WorkflowConflict "Evidence must resolve to an active Artifact or ExternalLink.");;
  mret (resource_of (ev_kind e, ev_id e), VStr (fingerprint (dict_of_props (nr_properties n)))).

Definition link_evidence (label record_id : string) (e : Evidence) : M Store unit :=
  create_edge label record_id (if String.eqb (ev_kind e) "Artifact" then "HAS_ARTIFACT" else "HAS_EXTERNAL_LINK")
    (ev_kind e) (ev_id e) ∅;;
  mret tt.

Definition record_kind (phase : string) : Kind :=
  if String.eqb (RECORD_KINDS phase) "Decision" then KDecision
  else if String.eqb (RECORD_KINDS phase) "Handoff" then KHandoff else KReviewPacket.

Definition record_relation (phase : string) : string :=
  if String.eqb (RECORD_KINDS phase) "Decision" then "HAS_WORKFLOW_DECISION"
  else if String.eqb (RECORD_KINDS phase) "Handoff" then "HAS_HANDOFF" else "HAS_REVIEW_PACKET".

Definition record_body (w : WorkObject) (actor_id b : string) (hashes : list (string * value))
    (r : WorkflowReview) : value :=
  VDict (mk_dict
    [("schema", VStr "devgraph.workflow-review.v1"); ("subject", VStr (resource_name w)); ("basis", VStr b);
     ("actor_id", VStr actor_id); ("evidence_hashes", VDict (mk_dict hashes)); ("review", WorkflowReview_dump r)]).

Definition with_review (st : WorkflowState) (phase record_id : string) : WorkflowState :=
  {| workflow_id := workflow_id st; stage := stage st; resume_stage := resume_stage st;
     blocking_reason := blocking_reason st; reviews := <[phase := record_id]> (reviews st) |}.

Definition _record (actor_id : string) (w : WorkObject) (st : WorkflowState) (r : WorkflowReview) :
    M Store WorkObject :=
  guard_raise (match required_stage (wr_phase r) with
               | Some stages => negb (str_in (stage st) stages)
               | None => false
               end) (WorkflowConflict "Record this approval at its own workflow gate.");;
  guard_raise (String.eqb (wr_phase r) "requirements" && bool_decide (wr_requirements r = []))
    (WorkflowConflict "A requirements review needs its complete requirement ledger.");;
  let label := RECORD_KINDS (wr_phase r) in
  existing ← reads (get_node label (wr_record_id r));
  guard_raise (bool_decide (is_Some existing)) (WorkObjectAlreadyExistsError "Review record already exists.");;
  hashes ← M_mapM record_evidence (wr_evidence r);
  b ← reads (basis w (wr_phase r));
  record ← construct (record_kind (wr_phase r)) (wr_record_id r) (str_take 200 (wr_summary r))
             (dumps true (record_body w actor_id b hashes r));
  create record;;
  create_edge (kind_name (kind w)) (id w) (record_relation (wr_phase r)) label (id record) ∅;;
  M_iter (link_evidence label (id record)) (wr_evidence r);;
  _save w (with_review st (wr_phase r) (id record)).

Inductive workflow_operation : Type :=
  | workflow_assign (p : WorkflowAssign)
  | workflow_review (payload : value)
  | workflow_transition (p : WorkflowTransition).

Definition assign (w : WorkObject) (p : WorkflowAssign) : M Store WorkObject :=
  guard_raise (bool_decide (is_Some (workflow_json w)))
    (WorkflowConflict "Workflow is already assigned; moves do not reassign it.");;
  guard_raise (negb (str_in (wa_stage p) ["backlog"; "planning"; "intake"]))
    (WorkflowConflict "Classify into Backlog or Planning, then record the required gates.");;
  guard_raise (bool_decide (progress w = Some "in_progress" ∨ progress w = Some "done")
               && String.eqb (wa_stage p) "backlog")
    (WorkflowConflict "Started work cannot be classified as Not started.");;
  st ← lift (new_state (wa_workflow_id p) (wa_stage p));
  _save w st.

Definition transition (w : WorkObject) (st : WorkflowState) (p : WorkflowTransition) : M Store WorkObject :=
  legal ← reads (transitions w);
  row ← lift (of_option (WorkflowConflict "This transition would bypass the workflow.")
                (last (filter (λ t, t_stage t = wt_stage p) legal)));
  guard_raise (negb (bool_decide (unmet_requirements row = [])))
    (WorkflowConflict (join " " (unmet_requirements row)));;
  st' ← lift (next_state st (wt_stage p) (wt_reason p));
  _save w st'.

(** The state of classified work that is not complete. *)
Definition classified (w : WorkObject) : M Store WorkflowState :=
  raw ← lift (of_option (WorkflowConflict "Classify the workflow before recording reviews or moving work.")
                (workflow_json w));
  st ← lift (decode_state raw);
  guard_raise (String.eqb (stage st) "done") (WorkflowConflict "Completed work requires a new follow-up item.");;
  mret st.

Definition execute (actor_id : string) (w : WorkObject) (op : workflow_operation) : M Store WorkObject :=
  guard_raise (archived w) (WorkflowConflict "Archived work cannot change workflow.");;
  guard_raise (bool_decide (kind w = KTodo))
    (WorkflowConflict "Base Todos use shared progress without a detailed workflow.");;
  match op with
  | workflow_assign p => assign w p
  | workflow_review payload =>
      st ← classified w; r ← lift (WorkflowReview_of payload); _record actor_id w st r
  | workflow_transition p => st ← classified w; transition w st p
  end.

(** ** The detail document *)

Definition opt_value (o : option string) : value := match o with Some x => VStr x | None => VNone end.

Definition scope_id (k : key) : string := "scope-" +:+ fingerprint (VList [VStr k.1; VStr k.2]).

Definition requirement_subject (s : Store) (k : key) : res value :=
  o ← get_node k.1 k.2 s;
  Ok (VDict (mk_dict [("subject", VStr (resource_of k)); ("id", VStr (scope_id k));
        ("title", match o with Some n => default (VStr k.2) (nr_properties n !! "title") | None => VStr k.2 end)])).

Definition child_subject (c : WorkObject) : value :=
  VDict (mk_dict [("subject", VStr (resource_name c)); ("id", VStr (scope_id (work_key c)));
                  ("title", VStr (str_take 240 (title c)))]).

Definition transition_value (t : Transition) : value :=
  VDict (mk_dict [("stage", VStr (t_stage t)); ("label", VStr (t_label t)); ("column", VStr (t_column t));
                  ("unmet_requirements", VList (VStr <$> unmet_requirements t))]).

Definition current_review (w : WorkObject) (st : WorkflowState) (s : Store) (phase : string) : res (string * value) :=
  o ← review w st phase s;
  Ok (phase, match o with Some r => WorkflowReview_dump r | None => VNone end).

Definition detail (w : WorkObject) (s : Store) : res value :=
  st ← match workflow_json w with
       | Some raw => if truthy raw then x ← decode_state raw; Ok (Some x) else Ok None
       | None => Ok None
       end;
  cs ← children w s;
  reqs ← requirements w s;
  let unfinished := filter (λ c, is_done c = false) cs in
  ts ← transitions w s;
  open ← match st with
         | Some x => completion_gaps w x s
         | None => Ok (if bool_decide (kind w = KTodo) then [] else ["Stage not set"])
         end;
  subjects ← res_mapM (requirement_subject s) (take 100 reqs);
  current ← match st with
            | Some x => res_mapM (current_review w x s) (map_to_list (reviews x)).*1
            | None => Ok []
            end;
  Ok (VDict (mk_dict
    [("schema", VStr "devgraph.work-workflow.v1"); ("kind", VStr (kind_name (kind w))); ("id", VStr (id w));
     ("version", VStr (print_int (version w))); ("progress", opt_value (progress w));
     ("archived", VBool (archived w));
     ("workflow", match st with Some x => model_dump x | None => VNone end);
     ("default_workflow", if bool_decide (kind w = KTodo) then VNone
                          else VStr (default_workflow (kind_name (kind w))));
     ("transitions", VList (map transition_value ts));
     ("child_progress", VDict (mk_dict [("done", VInt (Z.of_nat (length (filter (λ c, is_done c = true) cs))));
                                        ("total", VInt (Z.of_nat (length cs)))]));
     ("completion_gaps", VList (VStr <$> open));
     ("requirement_subjects", VList subjects);
     ("requirement_count", VInt (Z.of_nat (length reqs)));
     ("child_subjects", VList (map child_subject (take 100 unfinished)));
     ("unfinished_child_count", VInt (Z.of_nat (length unfinished)));
     ("current_reviews", VDict (mk_dict current))])).

End workflows.

(** ** The state machine *)

(** A fact about every row of a two-level table, checked row by row. *)
Lemma table_forall (table : list (string * list (string * string))) (P : string → string → string → bool) :
  forallb (λ wr, forallb (λ r, P wr.1 r.1 r.2) wr.2) table = true →
  ∀ wid a b, dict_get wid table ≫= dict_get a = Some b → P wid a b = true.
Proof.
  intros Hall wid a b Hg. destruct (dict_get wid table) as [rows|] eqn:Hw; [|done]. simpl in Hg.
  rewrite forallb_forall in Hall. apply dict_get_elem, list_elem_of_In in Hw. apply Hall in Hw.
  rewrite forallb_forall in Hw. apply dict_get_elem, list_elem_of_In in Hg. by apply Hw in Hg.
Qed.

Definition ordinary (t : string) : bool := negb (String.eqb t blocked).

Lemma forward_spec wid a b : forward wid a = Some b →
  known_stage wid b = true ∧ ordinary b = true ∧ known_stage wid a = true ∧ ordinary a = true ∧ a ≠ "done".
Proof.
  intros Hf. pose proof (table_forall FORWARD (λ wid a b, known_stage wid b && ordinary b && known_stage wid a
    && ordinary a && negb (String.eqb a "done")) ltac:(by vm_compute) _ _ _ Hf) as Hp.
  simpl in Hp. bools. done.
Qed.

Lemma returns_spec wid a b : returns wid a = Some b →
  known_stage wid b = true ∧ ordinary b = true ∧ b ≠ "done" ∧ ordinary a = true.
Proof.
  intros Hf. pose proof (table_forall RETURNS (λ wid a b, known_stage wid b && ordinary b
    && negb (String.eqb b "done") && ordinary a) ltac:(by vm_compute) _ _ _ Hf) as Hp.
  simpl in Hp. bools. done.
Qed.

(** One legal move of the state machine, gates aside. *)
Definition legal (st : WorkflowState) (target : string) : Prop :=
  stage st ≠ "done" ∧
  ((stage st = blocked ∧ resume_stage st = Some target)
   ∨ (stage st ≠ blocked ∧ (forward (workflow_id st) (stage st) = Some target
                            ∨ returns (workflow_id st) (stage st) = Some target ∨ target = blocked))).

Lemma targets_legal st ts t : stage st ≠ "done" → targets st = Ok ts → t ∈ ts → legal st t.
Proof.
  intros Hd. unfold targets, legal. destruct (String.eqb_spec (stage st) blocked) as [Hb|Hb]; intros Ht Hin; minv; subst.
  - apply list_elem_of_singleton in Hin as ->. auto.
  - split; [done|]. right. split; [done|].
    apply elem_of_cons in Hin as [->|[Hin|Hin]%elem_of_app]; [auto| |].
    + destruct (returns _ _); [|by apply elem_of_nil in Hin]. apply list_elem_of_singleton in Hin as ->. auto.
    + apply list_elem_of_singleton in Hin as ->. auto.
Qed.

Lemma kept_reviews_subseteq t rs : kept_reviews t rs ⊆ rs.
Proof.
  unfold kept_reviews. destruct (str_in _ _); [apply map_empty_subseteq|]. simpl.
  repeat (etrans; [apply delete_subseteq|]). done.
Qed.

Record state_facts (st : WorkflowState) : Prop := {
  sf_workflow : str_in (workflow_id st) WorkflowId = true;
  sf_reason : str_len (blocking_reason st) <= 4096;
  sf_size : Z.of_nat (size (reviews st)) <= 9;
  sf_stage : known_stage (workflow_id st) (stage st) = true;
  sf_resume r : resume_stage st = Some r →
    known_stage (workflow_id st) r = true ∧ r ≠ "done" ∧ r ≠ blocked;
  sf_blocked : stage st = blocked ↔ is_Some (resume_stage st);
  sf_explained : stage st = blocked → is_blank (blocking_reason st) = false;
  sf_reviews : map_Forall (λ p r, str_in p PHASES = true ∧ _ID_PATTERN r = true) (reviews st)
}.

Lemma state_ok_facts st : state_ok st = true ↔ state_facts st.
Proof.
  unfold state_ok, state_fields_ok, WorkflowState_valid. rewrite !andb_true_iff, !Z.leb_le, negb_true_iff,
    andb_false_iff, eqb_true_iff, forallb_forall. split.
  - intros (((? & ?) & ?) & ((((Hk & Hr) & Hb) & He) & Hf)). constructor; try done.
    + intros r Hs. rewrite Hs in Hr. apply andb_true_iff in Hr as [? Hn]. split; [done|].
      apply negb_true_iff, bool_decide_eq_false in Hn. set_solver.
    + rewrite <- String.eqb_eq, Hb. apply bool_decide_eq_true.
    + intros Hs. destruct He as [He|He]; [|done]. by apply String.eqb_neq in He.
    + apply map_Forall_to_list, Forall_forall. intros [p r] Hx. apply andb_true_iff, (Hf (p, r)).
      by apply list_elem_of_In.
  - intros []. split_and!; try done.
    + destruct (resume_stage st) as [r|] eqn:E; [|done]. destruct (sf_resume0 r eq_refl) as (? & ? & ?).
      apply andb_true_iff; split; [done|]. apply negb_true_iff, bool_decide_eq_false. set_solver.
    + apply eq_bool_prop_intro. rewrite !Is_true_true, String.eqb_eq, bool_decide_eq_true. done.
    + destruct (String.eqb_spec (stage st) blocked); auto.
    + apply map_Forall_to_list in sf_reviews0. rewrite Forall_forall in sf_reviews0.
      intros [p r] Hx%list_elem_of_In%sf_reviews0. by apply andb_true_iff.
Qed.

Lemma blocked_known wid : str_in wid WorkflowId = true → known_stage wid blocked = true.
Proof. rewrite str_in_spec. unfold WorkflowId. rewrite !elem_of_cons, elem_of_nil. by intros [->|[->|[]]]. Qed.

Lemma legal_ordinary st t : state_facts st → legal st t → t ≠ blocked → known_stage (workflow_id st) t = true.
Proof.
  intros Hf [_ [[? Hr]|[? [Hr|[Hr|?]]]]] ?; [|by apply forward_spec in Hr as (?&_)
    |by apply returns_spec in Hr as (?&_)|done].
  by destruct (sf_resume st Hf _ Hr) as (?&_).
Qed.

(** A legal move leads from a valid state to a valid state. *)
Lemma next_state_ok st t reason st' : state_ok st = true → legal st t → str_len reason <= 4096 →
  next_state st t reason = Ok st' → state_ok st' = true.
Proof.
  rewrite !state_ok_facts. intros Hf Hl Hr. unfold next_state.
  assert (Hd : stage st ≠ blocked → resume_stage st = None).
  { intros Hn. destruct (resume_stage st) eqn:E; [|done]. destruct Hn. apply (sf_blocked st Hf). eauto. }
  pose proof (blocked_known _ (sf_workflow st Hf)).
  assert (Hsz : ∀ m, m ⊆ reviews st → Z.of_nat (size m) <= 9).
  { intros m Hm. apply map_subseteq_size in Hm. pose proof (sf_size st Hf). lia. }
  assert (Hrv : ∀ m : gmap string string, m ⊆ reviews st →
    map_Forall (λ p r, str_in p PHASES = true ∧ _ID_PATTERN r = true) m).
  { intros m Hm p r Hp. eapply lookup_weaken in Hp; [|exact Hm]. by apply (sf_reviews st Hf). }
  destruct (String.eqb_spec t blocked) as [->|Ht].
  { intros Hs. minv. subst. destruct Hl as [Hnd Hl].
    assert (stage st ≠ blocked) as Hn.
    { destruct Hl as [[Hb Hr']|[? _]]; [|done]. by destruct (sf_resume st Hf _ Hr') as (_&_&?). }
    constructor; simpl; try done; try apply Hf; [apply Hsz, delete_subseteq| |apply Hrv, delete_subseteq].
    intros r [= <-]. split; [apply Hf|done]. }
  pose proof (legal_ordinary st t Hf Hl Ht) as Hkt.
  destruct (String.eqb_spec (stage st) blocked) as [Hb|Hb].
  { intros [= <-]. constructor; simpl; try done; try apply Hf. }
  specialize (Hd Hb).
  destruct (bool_decide _); intros Hs; minv; subst; constructor; simpl; rewrite ?Hd; try done; try apply Hf;
    [apply Hsz, kept_reviews_subseteq|apply Hrv, kept_reviews_subseteq].
Qed.

(** *** Reachability *)

(** A move of the machine: legal, explained where the code asks for a reason. *)
Inductive moves : WorkflowState → WorkflowState → Prop :=
  | moves_intro st t reason st' :
      legal st t → str_len reason <= 4096 → next_state st t reason = Ok st' → moves st st'.

Lemma rtc_moves_ok st st' : rtc moves st st' → state_ok st = true → state_ok st' = true.
Proof. induction 1 as [|x y z [? t r ? Hl Hr Hn] _ IH]; [done|]. eauto using next_state_ok. Qed.

Lemma rtc_moves_workflow st st' : rtc moves st st' → workflow_id st' = workflow_id st.
Proof.
  induction 1 as [|x y z [? t r ? _ _ Hn] _ IH]; [done|]. rewrite IH. revert Hn. unfold next_state.
  repeat case_match; intros; minv; by subst.
Qed.

(** How many forward steps an ordinary stage is from [done]. *)
Fixpoint steps_to_done (fuel : nat) (wid st : string) : option nat :=
  if String.eqb st "done" then Some 0%nat
  else match fuel with
       | O => None
       | S n => t ← forward wid st; k ← steps_to_done n wid t; Some (S k)
       end.

Lemma all_stages_lead_to_done wid st :
  known_stage wid st = true → st ≠ blocked → is_Some (steps_to_done 9 wid st).
Proof.
  unfold known_stage. destruct (stages_of wid) as [rows|] eqn:Hw; [|done]. intros Hs%str_in_spec Hb.
  apply dict_get_elem in Hw. unfold STAGES in Hw.
  repeat (apply elem_of_cons in Hw as [[= -> ->]|Hw]; [
    unfold stage_ids in Hs; simpl in Hs;
    repeat (apply elem_of_cons in Hs as [->|Hs]; [first [done|by eexists]|]); by apply elem_of_nil in Hs|]).
  by apply elem_of_nil in Hw.
Qed.

Lemma steps_to_done_le n wid st k : steps_to_done n wid st = Some k → (k <= n)%nat.
Proof.
  revert st k. induction n as [|n IH]; intros st k; simpl; case_match; intros Hs; simplify_eq; [lia|lia|].
  destruct (forward wid st) as [t|]; [|done]. simpl in Hs.
  destruct (steps_to_done n wid t) eqn:E; [|done]. injection Hs as <-. apply IH in E. lia.
Qed.

Lemma forward_move st t : stage st ≠ blocked → forward (workflow_id st) (stage st) = Some t →
  moves st (move st t (resume_stage st) (blocking_reason st)
    (if bool_decide (returns (workflow_id st) (stage st) = Some t) then kept_reviews t (reviews st) else reviews st)).
Proof.
  intros Hb Hf. destruct (forward_spec _ _ _ Hf) as (? & Ht & ? & _ & Hd).
  apply negb_true_iff in Ht.
  apply (moves_intro _ t "forward"); [by split; [|right; auto]|done|].
  unfold next_state. rewrite Ht. rewrite (proj2 (String.eqb_neq _ _) Hb).
  by destruct (bool_decide _).
Qed.

Lemma ordinary_completes n st k : stage st ≠ blocked → steps_to_done n (workflow_id st) (stage st) = Some k →
  ∃ st', nsteps moves k st st' ∧ stage st' = "done".
Proof.
  revert st k. induction n as [|n IH]; intros st k Hb; simpl.
  - destruct (String.eqb_spec (stage st) "done"); [|done]. intros [= <-]. exists st. split; [constructor|done].
  - destruct (String.eqb_spec (stage st) "done"); [intros [= <-]; exists st; split; [constructor|done]|].
    destruct (forward _ _) as [t|] eqn:Hf; [|done]. simpl.
    destruct (steps_to_done n (workflow_id st) t) as [k'|] eqn:Hk; [|done]. intros [= <-].
    destruct (forward_spec _ _ _ Hf) as (_ & Ht & _). unfold ordinary in Ht. bools.
    set (st1 := move st t (resume_stage st) (blocking_reason st) (if bool_decide (returns (workflow_id st)
      (stage st) = Some t) then kept_reviews t (reviews st) else reviews st)).
    destruct (IH st1 k') as (st' & Hs & Hd); [done|done|].
    exists st'. split; [|done]. eapply nsteps_l; [by apply forward_move|done].
Qed.

(** C21: the workflow state machine is live and its end is terminal: from every
    valid state (a blocked one included) legal moves lead to [done] in at most
    eleven steps, every state on the way is valid, and [done] has no legal move. *)
Theorem workflows_can_complete st :
  state_ok st = true →
  (∃ n st', (n <= 11)%nat ∧ nsteps moves n st st' ∧ stage st' = "done" ∧ workflow_id st' = workflow_id st)
  ∧ (∀ st', rtc moves st st' → state_ok st' = true)
  ∧ (stage st = "done" → ∀ st', ¬ moves st st').
Proof.
  intros Hok. split; [|split; [by intros; eapply rtc_moves_ok|]].
  2: { intros Hd st' Hm. destruct Hm as [st t r st' [Hnd _] _ _]. by apply Hnd. }
  pose proof (proj1 (state_ok_facts st) Hok) as Hf.
  assert (Hrun : ∀ st, stage st ≠ blocked → known_stage (workflow_id st) (stage st) = true →
    ∃ n st', (n <= 9)%nat ∧ nsteps moves n st st' ∧ stage st' = "done").
  { clear. intros st Hb Hk. destruct (all_stages_lead_to_done _ _ Hk Hb) as [k Hk'].
    destruct (ordinary_completes _ _ _ Hb Hk') as (st' & ? & ?). exists k, st'. split; [|done].
    by eapply steps_to_done_le. }
  assert (Hid : ∀ n st', nsteps moves n st st' → workflow_id st' = workflow_id st).
  { intros n st' Hn. eapply rtc_moves_workflow, rtc_nsteps. eauto. }
  destruct (decide (stage st = blocked)) as [Hb|Hb].
  - destruct (proj1 (sf_blocked st Hf) Hb) as [r Hr]. destruct (sf_resume st Hf r Hr) as (Hkr & Hrd & Hrb).
    assert (Hm : moves st (move st r None "" (reviews st))).
    { apply (moves_intro _ r ""); [|done|].
      - split; [by rewrite Hb|]. by left.
      - unfold next_state. by rewrite (proj2 (String.eqb_neq r blocked) Hrb), (proj2 (String.eqb_eq _ _) Hb). }
    destruct (Hrun (move st r None "" (reviews st))) as (n & st' & ? & Hn & ?); [done|done|].
    assert (Hs : nsteps moves (S n) st st') by by eapply nsteps_l.
    exists (S n), st'. split_and!; [lia|done|done|by eapply Hid].
  - destruct (Hrun st) as (n & st' & ? & Hn & ?); [done|apply Hf|].
    exists n, st'. split_and!; [lia|done|done|by eapply Hid].
Qed.

(** ** Lemmas on the operations *)

Section lemmas.
  Context {PY : Pydantic} {PL : PydanticLaws} {CK : Clock}.
  Implicit Types (s : Store) (w : WorkObject) (st : WorkflowState).

Lemma put_edges k n s : edges (put_node k n s) = edges s.
Proof. done. Qed.

Lemma encode_state_not_new st : encode_state st ≠ "new".
Proof. unfold encode_state. rewrite model_dump_fields. discriminate. Qed.

Lemma encode_state_truthy st : truthy (encode_state st) = true.
Proof. unfold encode_state. by rewrite model_dump_fields. Qed.

Lemma Progress_value_not_new p : Progress_value p ≠ "new".
Proof. by destruct p. Qed.

(** The constructor may fill in the workflow and the progress, nothing else. *)
Lemma post_init_fields w w' : post_init w = Ok w' → w' = set_workflow (workflow_json w') (progress w') w.
Proof.
  unfold post_init. intros Hp. minv. destruct (is_todo (kind w)).
  - unfold todo_post_init in *. minv. by subst.
  - minv. subst. by destruct w'.
Qed.

(** An object with explicit workflow and progress is checked and kept. *)
Lemma post_init_explicit w w' : post_init w = Ok w' →
  workflow_json w ≠ Some "new" → progress w ≠ Some "new" →
  w' = w ∧ (is_todo (kind w) = true → is_ok (validate_progress (progress w) (workflow_json w)) = true).
Proof.
  unfold post_init. intros Hp Hw Hpr. minv. destruct (is_todo (kind w)); [|minv; by subst].
  pose proof (todo_post_init_keeps _ _ H Hw Hpr) as ->. split; [done|]. intros _.
  unfold todo_post_init in H. do 2 (rewrite decide_False in H by done; cbn [mbind res_bind] in H).
  by destruct (validate_progress _ _).
Qed.

(** *** Success of the calls that record evidence *)

Lemma construct_Ok k i t d s w s' : construct k i t d s = (Ok w, s') →
  kind w = k ∧ id w = i ∧ archived w = false ∧ s' = tick (tick s).
Proof.
  unfold construct, utc_now, lift, mbind, M_bind. simpl. intros [= Hp <-].
  apply post_init_fields in Hp as ->. done.
Qed.

Lemma create_Ok w s w' s' : create w s = (Ok w', s') →
  w' = w ∧ nodes s !! work_key w = None ∧ edges s' = edges s
  ∧ ∃ n, nodes s' = <[work_key w := n]> (nodes s) ∧ nr_key n = work_key w ∧ nr_archived n = false.
Proof.
  unfold create. intros Hc. minv. subst.
  match goal with H : transaction _ _ = _ |- _ => apply transaction_graph in H as (s0 & s1 & Hb & [Hn0 He0] & _ & [Hn1 He1]) end.
  unfold create_body in Hb. minv.
  match goal with H : create_node _ _ _ _ = _ |- _ => apply create_node_Ok in H as (Hno & -> & Hk & Ha & _) end.
  rewrite Hn0 in Hno. split_and!; try done.
  - by rewrite He1, put_edges, He0.
  - eexists. split_and!; [by rewrite Hn1; simpl; rewrite Hn0|done|done].
Qed.

(** Recording evidence adds links and touches nothing that exists. *)
Definition extends s s' : Prop :=
  edges s' = edges s ∧ ∀ k, is_Some (nodes s !! k) ∨ k.1 ≠ "ExternalLink" → nodes s' !! k = nodes s !! k.

Lemma extends_trans s1 s2 s3 : extends s1 s2 → extends s2 s3 → extends s1 s3.
Proof.
  intros [E1 N1] [E2 N2]. split; [congruence|]. intros k Hk. rewrite N2; [by apply N1|].
  destruct Hk as [Hk|]; [left|by right]. rewrite N1; auto.
Qed.

Lemma record_evidence_Ok e s h s' : (truthy (ev_url e) = true → ev_kind e = "ExternalLink") →
  record_evidence e s = (Ok h, s') →
  extends s s' ∧ ∃ n, nodes s' !! (ev_kind e, ev_id e) = Some n ∧ nr_archived n = false
    ∧ h = (resource_of (ev_kind e, ev_id e), VStr (fingerprint (dict_of_props (nr_properties n)))).
Proof.
  intros Hlink. unfold record_evidence. intros Hr. apply M_bind_Ok in Hr as (o & s1 & Ho & Hr).
  apply reads_Ok in Ho as [Ho ->]. unfold get_node in Ho. minv. subst. destruct (truthy (ev_url e)).
  - rewrite (Hlink eq_refl) in *. minv. subst. bools.
    match goal with H : construct _ _ _ _ _ = _ |- _ => apply construct_Ok in H as (_ & _ & _ & ->) end.
    match goal with H : create_node _ _ _ _ = _ |- _ => apply create_node_Ok in H as (Hno & -> & _ & _) end.
    simpl in Hno. repeat match goal with H : Some _ = Some _ |- _ => injection H as <- end.
    split.
    + split; [done|]. intros k Hk. simpl. apply lookup_insert_ne. intros <-. rewrite Hno in Hk.
      by destruct Hk as [[]|].
    + eexists. split; [apply lookup_insert_eq|]. done.
  - minv. subst. split; [done|]. by eexists.
Qed.

Definition links_are_external (es : list Evidence) : Prop :=
  Forall (λ e, truthy (ev_url e) = true → ev_kind e = "ExternalLink") es.

Lemma record_all_extends es s hs s' : links_are_external es → M_mapM record_evidence es s = (Ok hs, s') → extends s s'.
Proof.
  intros Hes. revert s hs. induction Hes as [|e es He Hes IH]; intros s hs Hr; cbn [M_mapM] in Hr; minv; [done|].
  match goal with H : record_evidence _ _ = _ |- _ => apply record_evidence_Ok in H as [Hx _]; [|done] end.
  eapply extends_trans; [done|]. eauto.
Qed.

Lemma link_evidence_Ok l i e s u s' : link_evidence l i e s = (Ok u, s') →
  nodes s' = nodes s ∧ (∀ x, x ∈ edges s → x ∈ edges s')
  ∧ ∀ x, x ∈ edges s' → x ∈ edges s ∨ edge_from x = (l, i).
Proof.
  unfold link_evidence. intros Hl. minv. apply create_edge_Ok in Hl as (-> & _ & _ & Hn & He).
  split_and!; [done|..]; intros x; rewrite He; case_decide; try rewrite elem_of_app, list_elem_of_singleton; try tauto.
  intros [?| ->]; auto.
Qed.

Lemma link_all_Ok l i es s u s' : M_iter (link_evidence l i) es s = (Ok u, s') →
  nodes s' = nodes s ∧ (∀ x, x ∈ edges s → x ∈ edges s')
  ∧ ∀ x, x ∈ edges s' → x ∈ edges s ∨ edge_from x = (l, i).
Proof.
  revert s. induction es as [|e es IH]; intros s Hl; cbn [M_iter] in Hl; minv; [auto|].
  match goal with H : link_evidence _ _ _ _ = _ |- _ => apply link_evidence_Ok in H as (H1 & H2 & H3) end.
  match goal with H : M_iter _ _ _ = _ |- _ => apply IH in H as (H4 & H5 & H6) end.
  split_and!; [congruence|auto|]. intros x [?|?]%H6; auto.
Qed.

(** The constructor leaves an explicit workflow and progress as they are, and
    has read the workflow. *)
Lemma post_init_workflow w wf pr w' : workflow_json w = Some wf → progress w = Some pr →
  wf ≠ "new" → pr ≠ "new" → truthy wf = true → post_init w = Ok w' →
  w' = w ∧ (is_todo (kind w) = true → ∃ st, decode_state wf = Ok st).
Proof.
  intros Hw Hp Hwn Hpn Ht Hpi. unfold post_init in Hpi. minv.
  destruct (is_todo (kind w)); [|minv; subst; done].
  unfold todo_post_init in *. rewrite Hw, Hp in *.
  rewrite decide_False in * by congruence. minv. subst.
  rewrite decide_False in * by congruence. minv. subst.
  match goal with H : validate_progress _ _ = Ok _ |- _ => unfold validate_progress in H; rewrite Ht in H end.
  minv. split; [|eauto]. destruct w; unfold set_workflow; simpl in *; congruence.
Qed.

Lemma save_Ok w st s w' s' : _save w st s = (Ok w', s') →
  ∃ pr n, stage_progress (workflow_id st) (stage st) = Ok pr
    ∧ w' = touch (clock (ticks s)) (set_workflow (Some (encode_state st)) (Some (Progress_value pr)) w)
    ∧ (is_todo (kind w) = true → state_ok st = true → decode_state (encode_state st) = Ok st)
    ∧ s' = put_node (work_key w) n (tick s).
Proof.
  unfold _save. intros Hs. minv.
  match goal with H : utc_now _ = (Ok _, _) |- _ => unfold utc_now in H; injection H as <- <- end.
  match goal with H : replace _ _ = Ok _ |- _ => unfold replace in H;
    apply (post_init_workflow _ (encode_state st) (Progress_value r)) in H as [-> Hd]; [|done|done
      |apply encode_state_not_new|apply Progress_value_not_new|apply encode_state_truthy] end.
  match goal with H : update_node _ _ _ _ = (Ok ?n, _) |- _ =>
    apply update_node_Ok in H as (old & np & _ & Hput & _); exists r, n end.
  split_and!; try done. intros Ht Hok. destruct (Hd Ht) as [st0 Hst0]. apply decode_encode; [done|].
  unfold decode_state in Hst0. case_match; [done|]. bools. done.
Qed.

Lemma transition_row_Ok w st s t row : transition_row w st s t = Ok row →
  t_stage row = t ∧ gaps w st t s = Ok (unmet_requirements row).
Proof. unfold transition_row. intros Hr. minv. by subst. Qed.

Lemma transitions_Ok w s rows row : transitions w s = Ok rows → row ∈ rows →
  ∃ raw st ts, workflow_json w = Some raw ∧ decode_state raw = Ok st ∧ stage st ≠ "done"
    ∧ targets st = Ok ts ∧ t_stage row ∈ ts ∧ gaps w st (t_stage row) s = Ok (unmet_requirements row).
Proof.
  unfold transitions. intros Hr Hin.
  assert (Hnil : rows ≠ []) by (intros ->; by apply elem_of_nil in Hin).
  destruct (workflow_json w) as [raw|]; [|congruence]. destruct (negb (truthy raw)); [congruence|].
  apply res_bind_Ok in Hr as (st & Hst & Hr). destruct (_ || _) eqn:B; [congruence|]. bools.
  apply res_bind_Ok in Hr as (ts & Hts & Hr). apply res_mapM_Ok in Hr.
  apply list_elem_of_lookup in Hin as [i Hi]. eapply Forall2_lookup_r in Hr as (t & Ht & Hrow); [|done].
  apply transition_row_Ok in Hrow as [Hs Hg]. rewrite Hs. exists raw, st, ts. split_and!; try done.
  by eapply list_elem_of_lookup_2.
Qed.

Lemma classified_Ok w s st s' : classified w s = (Ok st, s') →
  s' = s ∧ stage st ≠ "done" ∧ ∃ raw, workflow_json w = Some raw ∧ decode_state raw = Ok st.
Proof. unfold classified. intros Hc. minv. subst. bools. eauto. Qed.

Lemma transition_Ok w st p s w' s' : transition w st p s = (Ok w', s') →
  workflow_json w ≫= (λ raw, match decode_state raw with Ok x => Some x | Err _ => None end) = Some st →
  ∃ st', legal st (wt_stage p) ∧ gaps w st (wt_stage p) s = Ok []
    ∧ next_state st (wt_stage p) (wt_reason p) = Ok st' ∧ _save w st' s = (Ok w', s').
Proof.
  unfold transition. intros Ht Hst. minv. bools.
  match goal with H : last _ = Some _ |- _ => apply last_Some_elem_of in H as Hin end.
  apply list_elem_of_filter in Hin as [Hs Hin].
  match goal with H : transitions w s = Ok _ |- _ =>
    destruct (transitions_Ok _ _ _ _ H Hin) as (raw & st0 & ts & Hw & Hd & Hnd & Hts & Hel & Hg) end.
  rewrite Hw in Hst. simpl in Hst. rewrite Hd in Hst. injection Hst as <-. rewrite Hs in *.
  eexists. split_and!; [by eapply targets_legal|congruence|done|done].
Qed.

Lemma WorkflowTransition_reason payload p : WorkflowTransition_of payload = Ok p → str_len (wt_reason p) <= 4096.
Proof.
  unfold WorkflowTransition_of. intros Hp. minv. subst. simpl.
  match goal with H : optional "reason" _ _ _ = Ok _ |- _ => unfold optional, as_str in H end.
  repeat case_match; simplify_eq; [|done]. bools. done.
Qed.

(** *** Execution of a transition *)

(** Success of [workflow.transition], taken apart. *)
Lemma execute_transition_Ok actor w payload p s w' s' :
  is_todo (kind w) = true → WorkflowTransition_of payload = Ok p →
  execute actor w (workflow_transition p) s = (Ok w', s') →
  archived w = false ∧ kind w ≠ KTodo ∧
  ∃ raw st st' pr n, workflow_json w = Some raw ∧ decode_state raw = Ok st
    ∧ legal st (wt_stage p) ∧ gaps w st (wt_stage p) s = Ok []
    ∧ next_state st (wt_stage p) (wt_reason p) = Ok st'
    ∧ decode_state (encode_state st') = Ok st'
    ∧ stage_progress (workflow_id st') (stage st') = Ok pr
    ∧ w' = touch (clock (ticks s)) (set_workflow (Some (encode_state st')) (Some (Progress_value pr)) w)
    ∧ s' = put_node (work_key w) n (tick s).
Proof.
  intros Hk Hp Hx. unfold execute in Hx. minv. bools.
  match goal with H : classified _ _ = _ |- _ => apply classified_Ok in H as (-> & Hnd & raw & Hw & Hd) end.
  match goal with H : transition _ _ _ _ = _ |- _ => apply transition_Ok in H as (st' & Hl & Hg & Hn & Hs);
    [|rewrite Hw; simpl; by rewrite Hd] end.
  apply save_Ok in Hs as (pr & n & Hpr & -> & Hdec & ->).
  split_and!; try done. exists raw, r1, st', pr, n. split_and!; try done. apply Hdec; [done|].
  eapply next_state_ok; [by eapply decode_state_ok|done|by eapply WorkflowTransition_reason|done].
Qed.

End lemmas.

(** ** What an empty list of gaps means *)

Section gates.
  Context {PY : Pydantic} {PL : PydanticLaws} {CK : Clock}.
  Implicit Types (s : Store) (w : WorkObject) (st : WorkflowState).

Lemma fromkeys_nil {A} `{EqDecision A} (l : list A) : fromkeys l = [] → l = [].
Proof. by destruct l. Qed.

Lemma when_nil b g : when b g = [] → b = false.
Proof. by destruct b. Qed.

(** An approval that opens a gate. *)
Definition approval w st phase s : Prop :=
  ∃ r, review w st phase s = Ok (Some r) ∧ wr_verdict r = "approved" ∧ wr_evidence r ≠ []
    ∧ (phase = "technical" → layers_complete r = true).

Lemma approved_true w st phase s : _approved w st phase true s = Ok true → approval w st phase s.
Proof.
  unfold _approved. intros Ha. apply res_bind_Ok in Ha as (o & Ho & Ha). apply (inj Ok) in Ha.
  destruct o as [r|]; [|done]. exists r. cbn [andb] in Ha.
  destruct (_ || _) eqn:B in Ha; [done|]. bools. split_and!; try done.
  intros ->. by rewrite String.eqb_refl in Ha.
Qed.

Lemma phase_gaps_nil w st phases s : phase_gaps w st phases s = Ok [] →
  ∀ phase, phase ∈ phases → approval w st phase s.
Proof.
  induction phases as [|p phases IH]; intros Hg phase Hin; [by apply elem_of_nil in Hin|].
  cbn [phase_gaps] in Hg. minv. match goal with H : _ ++ _ = [] |- _ => apply app_eq_nil in H as [Hw ->] end.
  apply when_nil in Hw. bools. apply elem_of_cons in Hin as [->|Hin]; [|by apply IH].
  apply approved_true. congruence.
Qed.

Lemma open_blocker_false es s : open_blocker es s = Ok false →
  ∀ e, e ∈ es → ∃ b, get_by_id (from_label e) (from_id e) s = Ok b ∧ progress b = Some "done".
Proof.
  induction es as [|e0 es IH]; intros Ho e Hin; [by apply elem_of_nil in Hin|].
  cbn [open_blocker] in Ho. apply res_bind_Ok in Ho as (b & Hb & Ho).
  destruct (is_done b) eqn:Hd; [|done]. apply elem_of_cons in Hin as [->|Hin]; [|by apply IH].
  exists b. split; [done|]. unfold is_done in Hd. by bools.
Qed.

(** The requirements ledger, the children and the blockers of work that may complete. *)
Record completable w st s : Prop := {
  cp_ledger : ∃ r expected, review w st "requirements" s = Ok (Some r) ∧ wr_verdict r = "approved"
    ∧ requirements w s = Ok expected
    ∧ (∀ x, x ∈ wr_requirements r → rv_outcome x ≠ "unmet")
    ∧ (∀ k, k ∈ expected → resource_of k ∈ map rv_subject (wr_requirements r))
    ∧ ∃ cs, children w s = Ok cs ∧ ∀ c, c ∈ cs →
        progress c = Some "done"
        ∨ ∃ x, x ∈ wr_requirements r ∧ rv_subject x = resource_name c ∧ rv_outcome x = "excluded";
  cp_blockers : ∃ es, related "BLOCKS" (work_key w) true s = Ok es ∧
    ∀ e, e ∈ es → ∃ b, get_by_id (from_label e) (from_id e) s = Ok b ∧ progress b = Some "done"
}.

Lemma completion_gaps_nil w st s : completion_gaps w st s = Ok [] → completable w st s.
Proof.
  unfold completion_gaps. intros Hc.
  apply res_bind_Ok in Hc as (o & Ho & Hc). apply res_bind_Ok in Hc as (expected & He & Hc).
  apply res_bind_Ok in Hc as (cs & Hcs & Hc). apply res_bind_Ok in Hc as (es & Hes & Hc).
  apply res_bind_Ok in Hc as (b & Hb & Hc). apply (inj Ok) in Hc.
  apply app_eq_nil in Hc as [H1%when_nil Hc]. apply app_eq_nil in Hc as [H2%when_nil Hc].
  apply app_eq_nil in Hc as [H3%when_nil ->%when_nil].
  destruct o as [r|]; [|done]. unfold ledger_open in H1. bools. simpl in H2.
  constructor; [|exists es; split; [done|by apply open_blocker_false]].
  exists r, expected. split_and!; try done.
  - intros x Hx Hu. match goal with H : existsb _ (wr_requirements r) = false |- _ => rename H into Hex end.
    apply not_true_iff_false in Hex. apply Hex, existsb_exists. exists x.
    split; [by apply list_elem_of_In|by apply String.eqb_eq].
  - intros k Hk. rewrite forallb_forall in H2. apply str_in_spec, H2. by apply list_elem_of_In.
  - exists cs. split; [done|]. intros c Hin. apply not_true_iff_false in H3. rewrite existsb_exists in H3.
    destruct (is_done c) eqn:Hd; [left; unfold is_done in Hd; by bools|]. right.
    destruct (str_in (resource_name c) (exclusions (Some r))) eqn:Hx.
    + apply str_in_spec, list_elem_of_fmap in Hx as (x & Hx & Hin').
      apply list_elem_of_filter in Hin' as [? ?]. by exists x.
    + destruct H3. exists c. split; [by apply list_elem_of_In|]. by rewrite Hd, Hx.
Qed.

Lemma done_not_returned wid a : returns wid a ≠ Some "done".
Proof. intros (_ & _ & ? & _)%returns_spec. done. Qed.

Lemma gaps_done_nil w st s : state_ok st = true → legal st "done" → gaps w st "done" s = Ok [] →
  archived w = false ∧ forward (workflow_id st) (stage st) = Some "done"
  ∧ (∀ phase, phase ∈ required_phases st "done" → approval w st phase s)
  ∧ completable w st s ∧ (kind w = KProposal → ∃ v, disposition w s = Ok (Some v)).
Proof.
  intros Hok%state_ok_facts [Hnd Hl] Hg. unfold gaps in Hg. destruct (archived w); [done|].
  change (String.eqb "done" blocked) with false in Hg.
  assert (stage st ≠ blocked ∧ forward (workflow_id st) (stage st) = Some "done") as [Hb Hf].
  { destruct Hl as [[_ Hr]|[Hb [Hf|[Hr|?]]]]; [|done|by apply done_not_returned in Hr|done].
    by destruct (sf_resume st Hok _ Hr) as (_ & ? & _). }
  rewrite (proj2 (String.eqb_neq _ _) Hb), bool_decide_false in Hg by apply done_not_returned.
  apply res_bind_Ok in Hg as (missing & Hm & Hg). apply res_bind_Ok in Hg as (comp & Hc & Hg).
  apply res_bind_Ok in Hg as (und & Hu & Hg). apply (inj Ok), fromkeys_nil, app_eq_nil in Hg as [-> Hg].
  apply app_eq_nil in Hg as [-> ->%when_nil]. split_and!; try done.
  - by apply phase_gaps_nil.
  - by apply completion_gaps_nil.
  - intros Hk. rewrite String.eqb_refl, bool_decide_true in Hu by done.
    apply res_bind_Ok in Hu as (d & Hd & Hu). apply (inj Ok) in Hu. bools. rewrite Hd.
    destruct d as [v|]; [by exists v|done].
Qed.

(** C20: a workflow transition that succeeds is a legal move of the state machine
    with no unmet requirement, from the state the work object carries; the saved
    object carries the next state, readable back from its document, the progress
    of that state's stage and the next version; no other record changes. *)
Theorem transition_is_legal actor w payload p s w' s' :
  is_todo (kind w) = true → WorkflowTransition_of payload = Ok p →
  execute actor w (workflow_transition p) s = (Ok w', s') →
  archived w = false ∧
  ∃ raw st st' pr n, workflow_json w = Some raw ∧ decode_state raw = Ok st
    ∧ legal st (wt_stage p) ∧ gaps w st (wt_stage p) s = Ok []
    ∧ next_state st (wt_stage p) (wt_reason p) = Ok st'
    ∧ decode_state (encode_state st') = Ok st' ∧ state_ok st' = true
    ∧ stage_progress (workflow_id st') (stage st') = Ok pr
    ∧ w' = touch (clock (ticks s)) (set_workflow (Some (encode_state st')) (Some (Progress_value pr)) w)
    ∧ s' = put_node (work_key w) n (tick s).
Proof.
  intros Hk Hp Hx. destruct (execute_transition_Ok _ _ _ _ _ _ _ Hk Hp Hx)
    as (Ha & _ & raw & st & st' & pr & n & H1 & H2 & H3 & H4 & H5 & H6 & H7 & H8 & H9).
  split; [done|]. exists raw, st, st', pr, n. split_and!; try done. by eapply decode_state_ok.
Qed.

(** C19: work reaches [done] by a workflow transition only from the last stage
    of its workflow, with every required approval current, approved and
    evidenced, the technical review covering all layers, a requirement ledger
    that leaves nothing unmet and covers every attached requirement, every child
    done or explicitly excluded, every blocker done and, for a Proposal, one
    recorded disposition. *)
Theorem done_requires_gates actor w payload p s w' s' :
  is_todo (kind w) = true → WorkflowTransition_of payload = Ok p → wt_stage p = "done" →
  execute actor w (workflow_transition p) s = (Ok w', s') →
  progress w' = Some "done" ∧
  ∃ raw st, workflow_json w = Some raw ∧ decode_state raw = Ok st
    ∧ forward (workflow_id st) (stage st) = Some "done"
    ∧ (∀ phase, phase ∈ required_phases st "done" → approval w st phase s)
    ∧ approval w st "technical" s ∧ approval w st "handoff" s
    ∧ completable w st s
    ∧ (kind w = KProposal → ∃ v, disposition w s = Ok (Some v)).
Proof.
  intros Hk Hp Hst Hx. destruct (execute_transition_Ok _ _ _ _ _ _ _ Hk Hp Hx)
    as (Ha & _ & raw & st & st' & pr & n & H1 & H2 & H3 & H4 & H5 & H6 & H7 & H8 & H9).
  rewrite Hst in *. pose proof (decode_state_ok _ _ H2) as Hok.
  destruct (gaps_done_nil w st s Hok H3 H4) as (_ & Hf & Hph & Hc & Hd).
  assert (Hnx : stage st' = "done").
  { revert H5. unfold next_state. repeat case_match; intros; minv; by subst. }
  split.
  - rewrite H8. simpl. unfold stage_progress in H7. rewrite Hnx in H7. case_match; [|done].
    by injection H7 as <-.
  - exists raw, st. split_and!; try done; apply Hph; unfold required_phases; apply elem_of_app; left;
      vm_compute; [left|right; left].
Qed.

(** What a review record says: a document whose recorded basis is the work's
    present one and whose evidence is active and unchanged. *)
Lemma evidence_current_true items s : evidence_current items s = Ok true →
  ∀ ref digest, (ref, digest) ∈ items →
  ∃ k i n, split_once slash ref = Some (k, i) ∧ nodes s !! (k, i) = Some n ∧ nr_archived n = false
    ∧ digest = VStr (fingerprint (dict_of_props (nr_properties n))).
Proof.
  induction items as [|[ref0 d0] items IH]; intros He ref digest Hin; [by apply elem_of_nil in Hin|].
  cbn [evidence_current] in He. minv. destruct r as [k i]. unfold get_node in H. minv. simpl in *. subst.
  destruct (nodes s !! (k, i)) as [n|] eqn:Hn; [|done]. destruct (_ || _) eqn:B; [done|]. bools.
  apply elem_of_cons in Hin as [[= -> ->]|Hin]; [|by apply IH]. by exists k, i, n.
Qed.

Lemma subscript_Ok name v x : subscript name v = Ok x → ∃ d, v = VDict d ∧ dict_get name d = Some x.
Proof. unfold subscript. destruct v; try done. intros Hs. minv. eauto. Qed.

(** A review counts only while it is current: its record is stored and
    active, was written for this work object and phase, its basis is the
    fingerprint of the work's present content, children and requirements, and
    every piece of evidence it hashed is still active with the same content.  Any
    change to one of them makes the review read as absent. *)
Theorem review_counts_only_if_current w st phase s r :
  review w st phase s = Ok (Some r) →
  ∃ record_id n text d document hashes b,
    reviews st !! phase = Some record_id
    ∧ nodes s !! (RECORD_KINDS phase, record_id) = Some n ∧ nr_archived n = false
    ∧ nr_properties n !! "description" = Some (VStr text) ∧ loads text = Some (VDict d)
    ∧ dict_get "subject" d = Some (VStr (resource_name w))
    ∧ dict_get "basis" d = Some (VStr b) ∧ basis w phase s = Ok b
    ∧ dict_get "review" d = Some document ∧ WorkflowReview_of document = Ok r
    ∧ dict_get "evidence_hashes" d = Some (VDict hashes)
    ∧ ∀ ref digest, (ref, digest) ∈ hashes →
        ∃ k i e, split_once slash ref = Some (k, i) ∧ nodes s !! (k, i) = Some e ∧ nr_archived e = false
          ∧ digest = VStr (fingerprint (dict_of_props (nr_properties e))).
Proof.
  unfold review. intros Hr. destruct (reviews st !! phase) as [rid|]; [|done].
  apply res_bind_Ok in Hr as (o & Ho & Hr). unfold get_node in Ho.
  apply res_bind_Ok in Ho as (? & _ & Ho). apply (inj Ok) in Ho. destruct o as [n|]; [|done].
  destruct (nr_archived n) eqn:Ha; [done|]. unfold catch in Hr.
  destruct (review_of_record w phase n s) as [o|e] eqn:E; [|by case_match]. apply (inj Ok) in Hr as ->.
  unfold review_of_record in E. apply res_bind_Ok in E as (text & Htext & E).
  apply of_option_Ok in Htext. apply res_bind_Ok in E as (rec & Hrec & E).
  destruct text as [| | | |text| |]; try done. apply of_option_Ok in Hrec.
  apply res_bind_Ok in E as (schema & Hsch & E). case_match; [done|].
  apply res_bind_Ok in E as (subject & Hsub & E). case_match; [done|].
  apply res_bind_Ok in E as (recorded & Hrcd & E). apply res_bind_Ok in E as (b & Hb & E). case_match; [done|].
  apply res_bind_Ok in E as (document & Hdoc & E). apply res_bind_Ok in E as (p & Hp & E). case_match; [done|].
  apply res_bind_Ok in E as (hv & Hhv & E). apply res_bind_Ok in E as (hashes & Hh & E).
  apply res_bind_Ok in E as (ok & Hok & E). destruct ok; [|done]. apply res_bind_Ok in E as (r' & Hr' & E).
  injection E as ->. bools. subst.
  apply subscript_Ok in Hsub as (d & -> & Hsub). apply subscript_Ok in Hrcd as (? & [= <-] & Hrcd).
  apply subscript_Ok in Hdoc as (? & [= <-] & Hdoc). apply subscript_Ok in Hhv as (? & [= <-] & Hhv).
  destruct hv; try done. injection Hh as ->.
  exists rid, n, text, d, document, hashes, b. split_and!; try done. by apply evidence_current_true.
Qed.

(** C22: a move the workflow does not offer is refused and writes nothing: work
    that is archived or done, or a target that is neither the next stage, nor
    the return stage, nor the block, nor the stage blocked work resumes. *)
Theorem illegal_moves_refused actor w raw st p s :
  workflow_json w = Some raw → decode_state raw = Ok st →
  archived w = true ∨ ¬ legal st (wt_stage p) →
  ∃ e, execute actor w (workflow_transition p) s = (Err e, s).
Proof.
  intros Hw Hd Hbad. unfold execute.
  destruct (archived w) eqn:Ha; [by eexists|]. destruct Hbad as [?|Hbad]; [done|].
  destruct (bool_decide (kind w = KTodo)); [by eexists|].
  unfold classified. rewrite Hw. unfold mbind, M_bind, lift, guard_raise, mret, M_ret. simpl. rewrite Hd. simpl.
  destruct (String.eqb (stage st) "done"); [by eexists|]. simpl.
  destruct (transition w st p s) as [[w'|e] s'] eqn:Ht.
  - apply transition_Ok in Ht as (st' & Hl & _); [done|]. rewrite Hw. simpl. by rewrite Hd.
  - exists e. f_equal. unfold transition in Ht. apply M_bind_Err in Ht as [Ht|(rows & s1 & Hr & Ht)];
      [unfold reads in Ht; by injection Ht as _ <-|].
    apply reads_Ok in Hr as [Hr ->]. apply M_bind_Err in Ht as [Ht|(row & s1 & Hrow & Ht)];
      [unfold lift in Ht; by injection Ht as _ <-|].
    apply lift_Ok in Hrow as [Hrow ->]. apply of_option_Ok, last_Some_elem_of in Hrow.
    apply list_elem_of_filter in Hrow as [Hs Hin].
    destruct (transitions_Ok _ _ _ _ Hr Hin) as (raw0 & st0 & ts & Hw0 & Hd0 & Hnd & Hts & Hel & _).
    destruct Hbad. rewrite <- Hs. eapply targets_legal; [|replace st with st0; [done|congruence]|done]. congruence.
Qed.

End gates.

Section preservation.
  Context {PY : Pydantic} {PL : PydanticLaws} {CK : Clock}.

Lemma save_keeps w st : keeps (_save w st).
Proof. unfold _save. keeps_solve. Qed.

Lemma construct_keeps k i t d : keeps (construct k i t d).
Proof. unfold construct. keeps_solve. Qed.

#[local] Hint Resolve save_keeps construct_keeps : keeps.

Lemma record_evidence_keeps e : keeps (record_evidence e).
Proof. unfold record_evidence. keeps_solve. by apply create_node_keeps. Qed.

Lemma link_evidence_keeps l i e : keeps (link_evidence l i e).
Proof. unfold link_evidence. keeps_solve. Qed.

#[local] Hint Resolve record_evidence_keeps link_evidence_keeps : keeps.

Lemma record_keeps actor w st r : keeps (_record actor w st r).
Proof. unfold _record. keeps_solve. Qed.

Lemma execute_keeps actor w op : keeps (execute actor w op).
Proof.
  assert (∀ p, keeps (assign w p)) by (intros; unfold assign; keeps_solve).
  assert (∀ st p, keeps (transition w st p)) by (intros; unfold transition; keeps_solve).
  assert (keeps (classified w)) by (unfold classified; keeps_solve).
  pose proof (record_keeps actor). unfold execute. keeps_solve.
Qed.

End preservation.

#[export] Hint Resolve save_keeps construct_keeps record_evidence_keeps link_evidence_keeps record_keeps
  execute_keeps : keeps.

(** ** Witnesses

    A Task goes through its whole workflow, from [backlog] to [done], recording
    each review with a link as evidence. *)

Section witnesses.

#[local] Existing Instance reference_pydantic.
#[local] Existing Instance reference_pydantic_laws.
#[local] Existing Instance epoch_clock.

Definition ex_link (i : string) : value :=
  VDict (mk_dict [("kind", VStr "ExternalLink"); ("id", VStr i); ("title", VStr "CI");
                  ("url", VStr "https://ci.test/1")]).

Definition ex_row (i : string) : value :=
  VDict (mk_dict [("id", VStr "r1"); ("title", VStr "works"); ("outcome", VStr "met");
                  ("evidence_ids", VList [VStr i])]).

Definition ex_layer (l : string) : value := VDict (mk_dict [("layer", VStr l); ("verdict", VStr "approved")]).

Definition ex_review (i phase : string) : workflow_operation :=
  workflow_review (VDict (mk_dict
    [("record_id", VStr i); ("phase", VStr phase); ("verdict", VStr "approved"); ("summary", VStr "ok");
     ("evidence", VList [ex_link (i +:+ "-e")]);
     ("requirements", VList (if String.eqb phase "requirements" then [ex_row (i +:+ "-e")] else []));
     ("layers", VList (if String.eqb phase "technical" then map ex_layer LAYERS else []))])).

Definition ex_payload (t : string) : value := VDict (mk_dict [("stage", VStr t)]).
Definition ex_move (t : string) : WorkflowTransition := {| wt_stage := t; wt_reason := "" |}.
Definition ex_go (t : string) : workflow_operation := workflow_transition (ex_move t).

Definition ex_script : list workflow_operation :=
  [ex_go "intake"; ex_review "r1" "requirements"; ex_go "requirements_normalized"; ex_review "r2" "baseline";
   ex_go "baseline_captured"; ex_go "implementing_commit"; ex_review "r3" "commit";
   ex_go "commit_ready_for_review"; ex_go "layer_review"; ex_review "r4" "technical";
   ex_go "reconciling_ledger"; ex_go "delivery_packet_ready"; ex_review "r5" "handoff"].

Fixpoint run_script (ops : list workflow_operation) (w : WorkObject) : M Store WorkObject :=
  match ops with
  | [] => mret w
  | o :: ops' => w' ← execute "dev" w o; run_script ops' w'
  end.

(** The Task before its last move, and the store that holds it. *)
Definition ex_before : option (WorkObject * Store) :=
  match (w ← lift (post_init (new_work KTask "t1" "t" epoch epoch)); create w;; run_script ex_script w) empty_store with
  | (Ok w, s) => Some (w, s)
  | _ => None
  end.

Lemma ex_done : ∃ w s w' s', ex_before = Some (w, s) ∧ is_todo (kind w) = true
  ∧ execute "dev" w (ex_go "done") s = (Ok w', s').
Proof.
  assert (Hok : match ex_before with
                | Some (w, s) => is_todo (kind w) && is_ok (execute "dev" w (ex_go "done") s).1
                | None => false
                end = true) by (vm_compute; reflexivity).
  destruct ex_before as [[w s]|]; [|done]. apply andb_true_iff in Hok as [Hk Hok].
  destruct (execute "dev" w (ex_go "done") s) as [[w'|e] s'] eqn:E; [|done].
  exists w, s, w', s'. exact (conj eq_refl (conj Hk E)).
Defined.

Lemma done_requires_gates_witness : ∃ w s st, ex_before = Some (w, s) ∧ approval w st "technical" s
  ∧ completable w st s.
Proof.
  destruct ex_done as (w & s & w' & s' & Hb & Hk & Hx). exists w, s.
  destruct (done_requires_gates "dev" w (ex_payload "done") (ex_move "done") s w' s' Hk eq_refl eq_refl Hx)
    as (_ & raw & st & _ & _ & _ & _ & Ht & _ & Hc & _).
  exists st. exact (conj Hb (conj Ht Hc)).
Defined.

Lemma transition_is_legal_witness : ∃ w s st, ex_before = Some (w, s) ∧ legal st "done".
Proof.
  destruct ex_done as (w & s & w' & s' & Hb & Hk & Hx). exists w, s.
  destruct (transition_is_legal "dev" w (ex_payload "done") (ex_move "done") s w' s' Hk eq_refl Hx)
    as (_ & raw & st & st' & pr & n & _ & _ & Hl & _).
  exists st. exact (conj Hb Hl).
Defined.

(** The state of the Task, and its review of the requirements. *)
Definition ex_state : option WorkflowState :=
  wt ← ex_before; raw ← workflow_json wt.1;
  match decode_state raw with Ok st => Some st | Err _ => None end.

Lemma ex_reviewed : ∃ w s st r, ex_before = Some (w, s) ∧ ex_state = Some st
  ∧ review w st "requirements" s = Ok (Some r).
Proof.
  assert (Hok : match ex_before, ex_state with
                | Some (w, s), Some st =>
                    match review w st "requirements" s with Ok (Some _) => true | _ => false end
                | _, _ => false
                end = true) by (vm_compute; reflexivity).
  destruct ex_before as [[w s]|]; [|done]. destruct ex_state as [st|]; [|done].
  destruct (review w st "requirements" s) as [[r|]|] eqn:E; [|done..].
  exists w, s, st, r. exact (conj eq_refl (conj eq_refl E)).
Defined.

Lemma review_counts_only_if_current_witness : ∃ w s b, ex_before = Some (w, s) ∧ basis w "requirements" s = Ok b.
Proof.
  destruct ex_reviewed as (w & s & st & r & Hb & _ & Hr). exists w, s.
  destruct (review_counts_only_if_current w st "requirements" s r Hr)
    as (rid & n & text & d & document & hashes & b & _ & _ & _ & _ & _ & _ & _ & Hbasis & _).
  exists b. exact (conj Hb Hbasis).
Defined.

Definition ex_new : WorkflowState :=
  {| workflow_id := execution; stage := "backlog"; resume_stage := None; blocking_reason := ""; reviews := ∅ |}.

Lemma workflows_can_complete_witness : ∃ n st', nsteps moves n ex_new st' ∧ stage st' = "done".
Proof.
  destruct (workflows_can_complete ex_new ltac:(by vm_compute)) as ((n & st' & _ & Hn & Hd & _) & _).
  exists n, st'. exact (conj Hn Hd).
Defined.

(** Skipping from [backlog] to [done]. *)
Lemma illegal_moves_refused_witness : ∃ w e, execute "dev" w (ex_go "done") empty_store = (Err e, empty_store).
Proof.
  exists (set_workflow (Some (encode_state ex_new)) (Some "not_started") (new_work KTask "t1" "t" epoch epoch)).
  apply (illegal_moves_refused "dev" _ (encode_state ex_new) ex_new (ex_move "done") empty_store);
    [reflexivity|by vm_compute|].
  right. intros [_ [[? _]|[_ [Hf|[Hr|?]]]]]; [done|by vm_compute in Hf|by vm_compute in Hr|done].
Defined.

End witnesses.
