(* ===== verification/Lifecycle.v ===== *)
(** * The Proposal lifecycle

    [ProposalLifecycle] of [src/devgraph/model/lifecycle.py]: proposals are
    accepted with a Decision, and an accepted proposal converts to an Issue that
    carries the same provenance. *)

From stdpp Require Import base gmap strings list sorting.
From Stdlib Require Import ZArith Ascii String.
From S2P Require Import Prelude Json Sha256 Datetime Validation WorkflowContract Model Storage StorageWf StorageReads Repository Workflows.

Local Open Scope Z_scope.

(** [except (KeyError, TypeError, ValueError)]. *)
Definition lookup_or_value_error (e : exn) : bool := is_key_error e || is_type_error e || is_value_error e.

Section lifecycle.
  Context `{Pydantic, Clock}.

(** ** Reads *)

(** [ProposalLifecycle._require_node]. *)
Definition require_lifecycle_node (label node_id : string) (s : Store) : res NodeRecord :=
  o ← get_node label node_id s; of_option (ProposalLifecycleError "missing node") o.

Definition _proposal_from_node (n : NodeRecord) : res WorkObject :=
  rethrow lookup_or_value_error (λ _, ProposalLifecycleError "Proposal has unreadable persisted properties")
    (raise_if (negb (String.eqb (nr_label n) "Proposal")) (ValueError "invalid proposal label");;
     c ← validate_canonical_work_object_properties (nr_label n) (nr_id n) (nr_properties n) (nr_archived n) true;
     work_of_properties KProposal (nr_id n) c (nr_archived n)).

Definition get_proposal (proposal_id : string) (s : Store) : res WorkObject :=
  n ← require_lifecycle_node "Proposal" proposal_id s; _proposal_from_node n.

Definition _validate_decision_node (n : NodeRecord) (expected : option WorkObject) : res unit :=
  rethrow lookup_or_value_error (λ _, ProposalLifecycleError "malformed Decision provenance")
    (raise_if (negb (String.eqb (nr_label n) "Decision") || nr_archived n) (ValueError "invalid Decision provenance");;
     c ← validate_canonical_work_object_properties (nr_label n) (nr_id n) (nr_properties n) (nr_archived n) true;
     match expected with
     | Some d => raise_if (negb (bool_decide (c = to_node_properties d))) (ValueError "conflicting Decision provenance")
     | None => Ok tt
     end).

Definition _acceptance_decision_edges (proposal_id : string) (s : Store) : res (list EdgeRecord) :=
  es ← list_edges (Some "ACCEPTED_BY_DECISION") (Some 10001) s;
  raise_if (10000 <? Z.of_nat (length es)) (StorageUnavailable "Decision provenance validation budget exceeded");;
  Ok (filter (λ e, edge_from e = ("Proposal", proposal_id)) es).

Definition lacks_provenance : exn :=
  ProposalLifecycleError "Accepted Proposal lacks Decision provenance and cannot convert".

Definition _require_acceptance_decision_id (proposal_id : string) (s : Store) : res string :=
  es ← _acceptance_decision_edges proposal_id s;
  match es with
  | [] => Err lacks_provenance
  | [e] =>
      raise_if (negb (String.eqb (to_label e) "Decision")) lacks_provenance;;
      o ← get_node "Decision" (to_id e) s;
      n ← of_option lacks_provenance o;
      _validate_decision_node n None;;
      Ok (to_id e)
  | _ => Err (ProposalLifecycleError "Accepted Proposal has ambiguous Decision provenance and cannot convert")
  end.

(** ** Writes *)

Definition create_proposal (p : WorkObject) : M Store WorkObject :=
  guard_raise (bool_decide (status p = ACCEPTED))
    (ProposalLifecycleError "Decision provenance is required to create accepted Proposal");;
  guard_raise (negb (bool_decide (status p = DRAFT)))
    (ProposalLifecycleError "Proposal must be created in draft status");;
  create_node (kind_name (kind p)) (id p) (to_node_properties p);;
  mret p.

Definition _upsert_decision (d : WorkObject) : M Store unit :=
  existing ← reads (get_node "Decision" (id d));
  match existing with
  | None => create_node (kind_name (kind d)) (id d) (to_node_properties d);; mret tt
  | Some n => lift (_validate_decision_node n (Some d))
  end.

Definition accept_body (proposal_id : string) (d accepted : WorkObject) : M Store unit :=
  _upsert_decision d;;
  update_node "Proposal" proposal_id (to_node_properties accepted);;
  create_edge "Proposal" proposal_id "ACCEPTED_BY_DECISION" "Decision" (id d) {["required" := VBool true]};;
  mret tt.

Definition accept_proposal (proposal_id : string) (decision : option WorkObject) : M Store WorkObject :=
  d ← lift (of_option (ProposalLifecycleError "Decision provenance is required to accept Proposal") decision);
  p ← reads (get_proposal proposal_id);
  guard_raise (archived p) (ProposalLifecycleError "Archived Proposal cannot be accepted");;
  rejected ← reads (related "REJECTED_BY_DECISION" (work_key p) false);
  guard_raise (negb (bool_decide (rejected = [])))
    (ProposalLifecycleError "Rejected Proposal already has Decision provenance");;
  provenance ← reads (_acceptance_decision_edges proposal_id);
  guard_raise (negb (bool_decide (provenance = [])))
    (ProposalLifecycleError "Accepted Proposal already has Decision provenance");;
  now ← utc_now;
  accepted ← lift (with_status ACCEPTED now p);
  transaction (accept_body proposal_id d accepted);;
  mret accepted.

Definition archive_proposal (proposal_id : string) : M Store WorkObject := archive "Proposal" proposal_id.

Definition convert_body (proposal_id decision_id : string) (issue : WorkObject) : M Store unit :=
  create_node (kind_name (kind issue)) (id issue) (to_node_properties issue);;
  create_edge "Proposal" proposal_id "CONVERTED_TO" "Issue" (id issue) {["decision_id" := VStr decision_id]};;
  create_edge "Issue" (id issue) "CONVERSION_DECIDED_BY" "Decision" decision_id
    {["source_proposal_id" := VStr proposal_id]};;
  mret tt.

Definition convert_accepted_proposal_to_issue (proposal_id issue_id : string) : M Store WorkObject :=
  p ← reads (get_proposal proposal_id);
  guard_raise (archived p || negb (bool_decide (status p = ACCEPTED)))
    (ProposalLifecycleError "Only accepted proposals can convert to Issue");;
  decision_id ← reads (_require_acceptance_decision_id proposal_id);
  created ← utc_now;
  updated ← utc_now;
  issue ← lift (post_init (set_content (title p) (description p) (artifact_ids p) (external_link_ids p)
                   (priority p) (new_work KIssue issue_id (title p) created updated)));
  transaction (convert_body proposal_id decision_id issue);;
  mret issue.

(** The example fixtures. *)
Definition example_active_proposal : M Store WorkObject :=
  p ← construct KProposal "example-active-proposal" "Active Proposal" "";
  create_proposal p;;
  mret p.

Definition example_accepted_by_decision_proposal : M Store WorkObject :=
  p ← construct KProposal "example-accepted-proposal" "Accepted Proposal" "";
  d ← construct KDecision "example-decision" "Accept Proposal" "";
  create_proposal p;;
  accept_proposal (id p) (Some d).

Definition example_archived_proposal : M Store WorkObject :=
  p ← construct KProposal "example-archived-proposal" "Archived Proposal" "";
  create_proposal p;;
  archive_proposal (id p).

End lifecycle.

(** ** Lemmas *)

Section lemmas.
  Context {PY : Pydantic} {PL : PydanticLaws} {CK : Clock}.
  Implicit Types (s : Store).

Lemma create_proposal_keeps p : keeps (create_proposal p).
Proof. unfold create_proposal. keeps_solve. Qed.

Lemma accept_proposal_keeps i d : keeps (accept_proposal i d).
Proof. unfold accept_proposal, accept_body, _upsert_decision. keeps_solve. Qed.

Lemma convert_keeps i j : keeps (convert_accepted_proposal_to_issue i j).
Proof. unfold convert_accepted_proposal_to_issue, convert_body. keeps_solve. Qed.

(** The edges of one relation out of a node. *)
Definition edges_out (r : string) (k : key) s : list EdgeRecord :=
  filter (λ e, relationship e = r ∧ edge_from e = k) (edges s).

Lemma filter_edges_out r k s :
  filter (λ e, edge_from e = k) (filter (λ e, relationship e = r) (edges s)) = edges_out r k s.
Proof.
  unfold edges_out. rewrite list_filter_filter. apply list_filter_iff. tauto.
Qed.

Lemma acceptance_edges_Ok pid s es :
  _acceptance_decision_edges pid s = Ok es → es = edges_out "ACCEPTED_BY_DECISION" ("Proposal", pid) s.
Proof.
  unfold _acceptance_decision_edges. intros He. minv. subst. bools.
  match goal with H : list_edges _ _ _ = _ |- _ => apply list_edges_all in H as ->; [|lia] end.
  apply filter_edges_out.
Qed.

Lemma related_out r k s es : related r k false s = Ok es → es = edges_out r k s.
Proof.
  unfold related, edges_of. intros He. minv. subst. bools.
  match goal with H : list_edges _ _ _ = _ |- _ => apply list_edges_all in H as ->; [|lia] end.
  apply filter_edges_out.
Qed.

Lemma work_of_properties_fields k i c a w : work_of_properties k i c a = Ok w →
  kind w = k ∧ id w = i ∧ archived w = a.
Proof.
  unfold work_of_properties. intros Hw. minv.
  match goal with H : post_init _ = _ |- _ => apply post_init_fields in H as -> end. done.
Qed.

Lemma get_proposal_Ok pid s p : get_proposal pid s = Ok p → store_wf s →
  kind p = KProposal ∧ id p = pid ∧ ∃ n, nodes s !! ("Proposal", pid) = Some n ∧ archived p = nr_archived n.
Proof.
  unfold get_proposal, require_lifecycle_node, get_node. intros Hg Hs. minv. subst.
  unfold _proposal_from_node in *. minv. bools.
  match goal with H : work_of_properties _ _ _ _ = _ |- _ => apply work_of_properties_fields in H as (-> & -> & ->) end.
  match goal with H : nodes s !! _ = Some _ |- _ => destruct (sw_nodes s Hs _ _ H) as [Hk _ _] end.
  unfold nr_key in Hk. injection Hk as _ Hid. eauto.
Qed.

Lemma with_status_Ok st now w w' : with_status st now w = Ok w' →
  status w' = st ∧ version w' = version w + 1 ∧ kind w' = kind w ∧ id w' = id w.
Proof. unfold with_status, replace. by intros ->%post_init_fields. Qed.

Lemma upsert_decision_Ok d s u s' : kind d = KDecision → _upsert_decision d s = (Ok u, s') →
  edges s' = edges s ∧ (∃ n, nodes s' !! ("Decision", id d) = Some n ∧ nr_archived n = false)
  ∧ (∀ k, is_Some (nodes s !! k) → nodes s' !! k = nodes s !! k).
Proof.
  intros Hk. unfold _upsert_decision. rewrite Hk. intros Hu.
  apply M_bind_Ok in Hu as (o & s1 & Hr & Hu). apply reads_Ok in Hr as [Hr ->].
  unfold get_node in Hr. minv. subst. destruct (nodes s !! ("Decision", id d)) as [n|] eqn:Hn.
  - minv. unfold _validate_decision_node in *. minv. bools. split; [done|]. split; [by exists n|done].
  - minv. match goal with H : create_node _ _ _ _ = _ |- _ => apply create_node_Ok in H as (_ & -> & _ & Ha & _) end.
    split; [done|]. split; [eexists; split; [apply lookup_insert_eq|done]|].
    intros k Hsome. apply lookup_insert_ne. intros <-. simpl in Hsome. rewrite Hn in Hsome. by destruct Hsome.
Qed.

(** The effect of the transaction of an acceptance. *)
Lemma accept_body_Ok pid d acc s u s' : kind d = KDecision → accept_body pid d acc s = (Ok u, s') →
  let e := Edge "Proposal" pid "ACCEPTED_BY_DECISION" "Decision" (id d) {["required" := VBool true]} in
  edges s' = (if decide (e ∈ edges s) then edges s else edges s ++ [e])
  ∧ ∃ n, nodes s' !! ("Decision", id d) = Some n ∧ nr_archived n = false.
Proof.
  intros Hk Hb e. unfold accept_body in Hb. minv.
  match goal with H : _upsert_decision _ _ = _ |- _ => apply upsert_decision_Ok in H as (He & (n & Hn & Ha) & _); [|done] end.
  match goal with H : update_node _ _ _ _ = _ |- _ => apply update_node_Ok in H as (old & np & _ & -> & _) end.
  match goal with H : create_edge _ _ _ _ _ _ _ = _ |- _ => apply create_edge_Ok in H as (-> & _ & _ & Hns & Hes) end.
  rewrite put_edges, He in Hes. split; [done|]. exists n. rewrite Hns. simpl. split; [|done].
  by rewrite lookup_insert_ne.
Qed.

(** A successful acceptance, taken apart. *)
Lemma accept_Ok pid d s p' s' : kind d = KDecision → store_wf s → accept_proposal pid (Some d) s = (Ok p', s') →
  ∃ p, get_proposal pid s = Ok p ∧ archived p = false ∧ status p' = ACCEPTED ∧ version p' = version p + 1
    ∧ edges_out "REJECTED_BY_DECISION" ("Proposal", pid) s = []
    ∧ edges_out "ACCEPTED_BY_DECISION" ("Proposal", pid) s = []
    ∧ edges s' = edges s ++ [Edge "Proposal" pid "ACCEPTED_BY_DECISION" "Decision" (id d) {["required" := VBool true]}]
    ∧ ∃ n, nodes s' !! ("Decision", id d) = Some n ∧ nr_archived n = false.
Proof.
  intros Hk Hs Ha. unfold accept_proposal in Ha. simpl in Ha. minv. bools. subst.
  match goal with H : get_proposal _ _ = Ok ?x |- _ => rename x into p; destruct (get_proposal_Ok _ _ _ H Hs)
    as (Hpk & Hpi & _); exists p end.
  unfold work_key in *. rewrite Hpk, Hpi in *.
  repeat match goal with
  | H : related _ _ _ _ = Ok _ |- _ => apply related_out in H
  | H : _acceptance_decision_edges _ _ = Ok _ |- _ => apply acceptance_edges_Ok in H
  | H : with_status _ _ _ = Ok _ |- _ => apply with_status_Ok in H as (? & ? & _)
  | H : utc_now _ = _ |- _ => unfold utc_now in H; injection H as <- <-
  | H : transaction _ _ = _ |- _ => apply transaction_graph in H as (s0 & s1 & Hb & [_ He0] & _ & [Hn1 He1])
  end.
  apply accept_body_Ok in Hb as [He Hn]; [|done]. simpl in He0. rewrite He0 in He.
  split_and!; try done.
  - rewrite He1, He. rewrite decide_False; [done|]. intros Hin.
    match goal with H : [] = edges_out "ACCEPTED_BY_DECISION" _ _ |- _ => rename H into Hno end.
    eapply not_elem_of_nil. rewrite Hno. apply list_elem_of_filter. by split; [|exact Hin].
  - by rewrite Hn1.
Qed.

Lemma require_acceptance_Ok pid s did : _require_acceptance_decision_id pid s = Ok did →
  ∃ e n, edges_out "ACCEPTED_BY_DECISION" ("Proposal", pid) s = [e] ∧ edge_to e = ("Decision", did)
    ∧ nodes s !! ("Decision", did) = Some n ∧ nr_archived n = false.
Proof.
  unfold _require_acceptance_decision_id. intros Hr. apply res_bind_Ok in Hr as (es & He & Hr).
  apply acceptance_edges_Ok in He. destruct es as [|e [|]]; try done. unfold get_node in Hr. minv. bools. subst.
  unfold _validate_decision_node in *. minv. bools. rewrite <- He. eexists e, _.
  unfold edge_to. split_and!; try done; congruence.
Qed.

Lemma edges_out_snoc r k s s' e : edges s' = edges s ++ [e] →
  edges_out r k s' = edges_out r k s ++ (if decide (relationship e = r ∧ edge_from e = k) then [e] else []).
Proof. intros He. unfold edges_out. by rewrite He, filter_app. Qed.

End lemmas.

#[export] Hint Resolve create_proposal_keeps accept_proposal_keeps convert_keeps : keeps.

(** ** Properties *)

Section properties.
  Context {PY : Pydantic} {PL : PydanticLaws} {CK : Clock}.
  Implicit Types (s : Store).

(** A proposal is accepted with exactly one Decision: acceptance without a
    Decision writes nothing; a successful acceptance starts from a live proposal
    without any disposition, leaves exactly one acceptance edge, to an active
    Decision record, no rejection edge, and the proposal accepted with the next
    version; every later attempt is refused and writes nothing. *)
Theorem acceptance_has_one_decision pid d s p' s' :
  kind d = KDecision → store_wf s → accept_proposal pid (Some d) s = (Ok p', s') →
  (∃ e, accept_proposal pid None s = (Err e, s))
  ∧ (∃ p, get_proposal pid s = Ok p ∧ archived p = false ∧ version p' = version p + 1)
  ∧ status p' = ACCEPTED
  ∧ edges_out "ACCEPTED_BY_DECISION" ("Proposal", pid) s'
    = [Edge "Proposal" pid "ACCEPTED_BY_DECISION" "Decision" (id d) {["required" := VBool true]}]
  ∧ edges_out "REJECTED_BY_DECISION" ("Proposal", pid) s' = []
  ∧ (∃ n, nodes s' !! ("Decision", id d) = Some n ∧ nr_archived n = false)
  ∧ (∀ d', ∃ e, accept_proposal pid d' s' = (Err e, s')).
Proof.
  intros Hk Hs Hx. destruct (accept_Ok _ _ _ _ _ Hk Hs Hx) as (p & Hg & Ha & Hst & Hv & Hrej & Hacc & He & Hn).
  assert (Hout : edges_out "ACCEPTED_BY_DECISION" ("Proposal", pid) s'
    = [Edge "Proposal" pid "ACCEPTED_BY_DECISION" "Decision" (id d) {["required" := VBool true]}]).
  { rewrite (edges_out_snoc _ _ s s' _ He), Hacc. by rewrite decide_True. }
  split_and!; try done; [by eexists|by exists p|rewrite (edges_out_snoc _ _ s s' _ He), Hrej; by rewrite decide_False by (by intros [? _])|].
  intros d'. destruct d' as [d'|]; [|by eexists]. unfold accept_proposal. simpl.
  unfold mbind, M_bind, lift, reads, guard_raise, raise, mret, M_ret. simpl.
  destruct (get_proposal pid s') as [p1|]; [|by eexists]. destruct (archived p1); [by eexists|].
  destruct (related _ _ _ _) as [rj|]; [|by eexists]. destruct (negb _); [by eexists|].
  destruct (_acceptance_decision_edges pid s') as [es|] eqn:E; [|by eexists].
  apply acceptance_edges_Ok in E as ->. rewrite Hout. by eexists.
Qed.

(** Conversion carries the provenance: a proposal converts to an Issue only
    when it is live, accepted and has exactly one acceptance edge, to an active
    Decision; the Issue is new, takes over the proposal's content, and the two
    edges that tie it to the proposal and to that Decision are written with it. *)
Theorem conversion_has_provenance pid iid s issue s' :
  store_wf s → convert_accepted_proposal_to_issue pid iid s = (Ok issue, s') →
  ∃ p did e n, get_proposal pid s = Ok p ∧ archived p = false ∧ status p = ACCEPTED
    ∧ edges_out "ACCEPTED_BY_DECISION" ("Proposal", pid) s = [e] ∧ edge_to e = ("Decision", did)
    ∧ nodes s !! ("Decision", did) = Some n ∧ nr_archived n = false
    ∧ nodes s !! ("Issue", iid) = None ∧ is_Some (nodes s' !! ("Issue", iid))
    ∧ title issue = title p ∧ description issue = description p ∧ priority issue = priority p
    ∧ artifact_ids issue = artifact_ids p ∧ external_link_ids issue = external_link_ids p
    ∧ edges s' = edges s ++
        [Edge "Proposal" pid "CONVERTED_TO" "Issue" iid {["decision_id" := VStr did]};
         Edge "Issue" iid "CONVERSION_DECIDED_BY" "Decision" did {["source_proposal_id" := VStr pid]}].
Proof.
  intros Hs Hx. unfold convert_accepted_proposal_to_issue in Hx. minv. bools. subst.
  match goal with H : _require_acceptance_decision_id _ _ = Ok ?x |- _ =>
    rename x into did; destruct (require_acceptance_Ok _ _ _ H) as (e & n & Ho & Het & Hn & Ha) end.
  repeat match goal with
  | H : utc_now _ = _ |- _ => unfold utc_now in H; injection H as <- <-
  | H : post_init _ = Ok _ |- _ => apply post_init_fields in H
  | H : transaction _ _ = _ |- _ => apply transaction_graph in H as (s0 & s1 & Hb & [Hn0 He0] & _ & [Hn1 He1])
  end.
  match goal with H : get_proposal _ _ = Ok ?x, H' : ?w = set_workflow _ _ _ |- _ =>
    rename x into p, H' into Hw; rename w into iss end.
  assert (kind iss = KIssue ∧ id iss = iid) as [Hki Hii] by (by rewrite Hw).
  unfold convert_body in Hb. rewrite Hki, Hii in Hb. simpl in Hn0, He0. minv.
  match goal with H : create_node _ _ _ _ = _ |- _ => apply create_node_Ok in H as (Hno & -> & _) end.
  rewrite Hn0 in Hno. change (kind_name KIssue) with "Issue" in *.
  assert (Hnew : ∀ e, e ∈ edges s → edge_from e ≠ ("Issue", iid) ∧ edge_to e ≠ ("Issue", iid)).
  { intros e' He'. pose proof (sw_edges s Hs) as Hall. rewrite Forall_forall in Hall.
    destruct (Hall e' He') as [[x Hf] [y Ht]]. split; intros Heq; rewrite Heq in *; congruence. }
  repeat match goal with H : create_edge _ _ _ _ _ _ _ = _ |- _ => apply create_edge_Ok in H as (-> & _ & _ & ? & ?) end.
  exists p, did, e, n. split_and!; try done; try (by rewrite Hw).
  - rewrite Hn1. repeat match goal with H : nodes _ = nodes _ |- _ => rewrite H; clear H end.
    simpl. rewrite lookup_insert_eq. eauto.
  - rewrite He1. repeat match goal with H : edges _ = (if _ then _ else _) |- _ => revert H end.
    rewrite put_edges, He0. rewrite decide_False by (intros Hin; by destruct (Hnew _ Hin)).
    intros ->. rewrite decide_False; [intros ->; by rewrite <- app_assoc|].
    intros [Hin|Hin]%elem_of_app; [by destruct (Hnew _ Hin)|]. by apply list_elem_of_singleton in Hin.
Qed.

End properties.

(** ** Witnesses *)

Section witnesses.

#[local] Existing Instance reference_pydantic.
#[local] Existing Instance reference_pydantic_laws.
#[local] Existing Instance epoch_clock.

Definition ex_proposal : WorkObject :=
  match post_init (new_work KProposal "p1" "t" epoch epoch) with
  | Ok w => w
  | Err _ => new_work KProposal "p1" "t" epoch epoch
  end.

Definition ex_decision : WorkObject := new_work KDecision "d1" "t" epoch epoch.

(** A store with a draft proposal, and the one after its acceptance. *)
Definition ex_draft : Store := (create_proposal ex_proposal empty_store).2.
Definition ex_accepted : Store := (accept_proposal "p1" (Some ex_decision) ex_draft).2.

Lemma ex_draft_wf : store_wf ex_draft.
Proof. apply create_proposal_keeps, empty_store_wf. Defined.

Lemma ex_accepted_wf : store_wf ex_accepted.
Proof. apply accept_proposal_keeps, ex_draft_wf. Defined.

Lemma acceptance_has_one_decision_witness : ∃ e, accept_proposal "p1" None ex_draft = (Err e, ex_draft).
Proof.
  destruct (accept_proposal "p1" (Some ex_decision) ex_draft) as [[p'|e] s'] eqn:E.
  - destruct (acceptance_has_one_decision "p1" ex_decision ex_draft p' s' eq_refl ex_draft_wf E) as (He & _).
    exact He.
  - exfalso. assert (Hok : is_ok (accept_proposal "p1" (Some ex_decision) ex_draft).1 = true)
      by (vm_compute; reflexivity). rewrite E in Hok. discriminate Hok.
Defined.

Lemma conversion_has_provenance_witness : ∃ issue s' did n,
  convert_accepted_proposal_to_issue "p1" "i1" ex_accepted = (Ok issue, s')
  ∧ nodes ex_accepted !! ("Decision", did) = Some n.
Proof.
  destruct (convert_accepted_proposal_to_issue "p1" "i1" ex_accepted) as [[issue|e] s'] eqn:E.
  - destruct (conversion_has_provenance "p1" "i1" ex_accepted issue s' ex_accepted_wf E)
      as (p & did & e & n & _ & _ & _ & _ & _ & Hn & _).
    exists issue, s', did, n. exact (conj eq_refl Hn).
  - exfalso. assert (Hok : is_ok (convert_accepted_proposal_to_issue "p1" "i1" ex_accepted).1 = true)
      by (vm_compute; reflexivity). rewrite E in Hok. discriminate Hok.
Defined.

End witnesses.
