(* ===== verification/ProgressMutations.v ===== *)
(** * Attested progress changes

    [src/devgraph/progress_mutations.py] and [src/devgraph/progress_contract.py]:
    setting the shared progress of a work object with an attestation record,
    rejecting a proposal, and re-validating a completion attestation. *)

From stdpp Require Import base gmap strings list sorting.
From Stdlib Require Import ZArith Ascii String.
From S2P Require Import Prelude Json Sha256 Datetime Validation WorkflowContract Model Storage StorageWf StorageReads Repository Workflows Lifecycle.

Local Open Scope Z_scope.

(** ** Request contracts *)

Record ProgressSet := {
  ps_progress : string;
  ps_reason : string;
  ps_record_id : string;
  ps_evidence : list Evidence;
  ps_requirements : list RequirementVerdict
}.

(** The review document the after-validator builds. *)
Definition as_review (p : ProgressSet) : WorkflowReview :=
  {| wr_record_id := ps_record_id p; wr_phase := "requirements"; wr_verdict := "approved";
     wr_summary := ps_reason p; wr_evidence := ps_evidence p; wr_requirements := ps_requirements p;
     wr_layers := [] |}.

(** [ProgressSet.model_validate(payload, strict=True)]. *)
Definition ProgressSet_of (v : value) : res ProgressSet :=
  let m := "ProgressSet" in
  d ← as_dict m v;
  forbid_extra m ["progress"; "reason"; "record_id"; "evidence"; "requirements"] d;;
  p ← required m "progress" (as_literal m ["not_started"; "in_progress"; "done"]) d;
  r ← required m "reason" (as_str m 1 8192) d;
  i ← required m "record_id" (as_id m) d;
  es ← optional "evidence" [] (as_list m 50 Evidence_of) d;
  rs ← optional "requirements" [] (as_list m 100 RequirementVerdict_of) d;
  let c := {| ps_progress := p; ps_reason := r; ps_record_id := i; ps_evidence := es; ps_requirements := rs |} in
  check m (negb (is_blank r) && review_unique (as_review c));;
  Ok c.

Definition ProgressSet_dump (p : ProgressSet) : value :=
  VDict (mk_dict
    [("progress", VStr (ps_progress p)); ("reason", VStr (ps_reason p)); ("record_id", VStr (ps_record_id p));
     ("evidence", VList (Evidence_dump <$> ps_evidence p));
     ("requirements", VList (RequirementVerdict_dump <$> ps_requirements p))]).

Record ProposalReject := {
  pr_decision_id : string;
  pr_reason : string
}.

Definition ProposalReject_of (v : value) : res ProposalReject :=
  let m := "ProposalReject" in
  d ← as_dict m v;
  forbid_extra m ["decision_id"; "reason"] d;;
  i ← required m "decision_id" (as_id m) d;
  r ← required m "reason" (as_str m 1 8192) d;
  check m (negb (is_blank r));;
  Ok {| pr_decision_id := i; pr_reason := r |}.

Section progress.
  Context `{Pydantic, Clock}.

(** ** Setting progress *)

(** [decode_state(work.workflow_json) if work.workflow_json else None]. *)
Definition current_state (w : WorkObject) : res (option WorkflowState) :=
  match workflow_json w with
  | Some raw => if truthy raw then st ← decode_state raw; Ok (Some st) else Ok None
  | None => Ok None
  end.

Definition is_rejected (w : WorkObject) (s : Store) : res bool :=
  if bool_decide (kind w = KProposal) then d ← disposition w s; Ok (bool_decide (d = Some "rejected"))
  else Ok false.

(** The workflow document after the change; raises what the gates refuse. *)
Definition progress_workflow (w : WorkObject) (st : option WorkflowState) (rejected : bool) (target : Progress)
    (evidence : list Evidence) (s : Store) : res (option string) :=
  if rejected && bool_decide (target = DONE) then
    raise_if (bool_decide (evidence = []))
      (WorkflowConflict "Record evidence that the proposal disposition was handed off.");;
    Ok (match st with
        | Some x => Some (encode_state (move x "done" None "" (reviews x)))
        | None => workflow_json w
        end)
  else match st with
  | Some x =>
      mapped ← stage_progress (workflow_id x) (stage x);
      xj ← (if bool_decide (progress w = Some "done") && bool_decide (target = IN_PROGRESS) then
              y ← new_state (workflow_id x) (if String.eqb (workflow_id x) vibe_ceo then "planning" else "intake");
              Ok (y, Some (encode_state y))
            else
              raise_if (negb (bool_decide (target = mapped)))
                (WorkflowConflict "Use a legal workflow transition to change this subtype's progress.");;
              Ok (x, workflow_json w));
      (if bool_decide (target = DONE) then
         g ← gaps w xj.1 "done" s;
         raise_if (negb (bool_decide (g = []))) (WorkflowConflict (join " " g))
       else Ok tt);;
      Ok xj.2
  | None =>
      raise_if (bool_decide (target = DONE) && negb (bool_decide (kind w = KTodo)))
        (WorkflowConflict "Complete this subtype's applicable workflow and approval gates first.");;
      Ok (workflow_json w)
  end.

(** The ledger of a base Todo covers its requirements and leaves none unmet. *)
Definition todo_ledger_ok (expected : list key) (rows : list RequirementVerdict) : bool :=
  forallb (λ k, str_in (resource_of k) (map rv_subject rows)) expected
  && forallb (λ r, negb (String.eqb (rv_outcome r) "unmet")) rows.

Definition completion_check (w : WorkObject) (c : ProgressSet) (s : Store) : res unit :=
  expected ← requirements w s;
  raise_if (bool_decide (kind w = KTodo) && negb (todo_ledger_ok expected (ps_requirements c)))
    (WorkflowConflict "Satisfy every attached requirement with evidence or a reasoned exclusion.");;
  blocks ← related "BLOCKS" (work_key w) true s;
  blocked_by ← open_blocker blocks s;
  raise_if blocked_by (WorkflowConflict "Resolve blocking work before completion.").

Definition progress_body (w : WorkObject) (c : ProgressSet) (target : Progress) (actor_id b : string)
    (hashes : list (string * value)) : value :=
  VDict (mk_dict
    [("schema", VStr "devgraph.progress-record.v1"); ("subject", VStr (resource_name w));
     ("expected_version", VInt (version w)); ("basis", VStr b); ("actor_id", VStr actor_id);
     ("from_progress", opt_value (progress w)); ("to_progress", VStr (Progress_value target));
     ("evidence_hashes", VDict (mk_dict hashes)); ("attestation", ProgressSet_dump c)]).

(** [replace(work, progress=..., workflow_json=..., progress_record_id=...)]. *)
Definition with_progress (now : datetime) (target : Progress) (wf : option string) (record_id : string)
    (w : WorkObject) : WorkObject :=
  touch now (set_record (Some record_id) (set_workflow wf (Some (Progress_value target)) w)).

(** The checks before anything is written; the result is the new workflow document. *)
Definition progress_checks (w : WorkObject) (c : ProgressSet) (target : Progress) (s : Store) : res (option string) :=
  st ← current_state w;
  raise_if (archived w) (WorkflowConflict "Restore the item before changing progress.");;
  raise_if (bool_decide (progress w = Some (Progress_value target)))
    (WorkflowConflict "Progress is already set to that value.");;
  raise_if (bool_decide (target = NOT_STARTED) && bool_decide (is_Some (progress w)))
    (WorkflowConflict "Rework remains In progress; it cannot return to Not started.");;
  rejected ← is_rejected w s;
  wf ← progress_workflow w st rejected target (ps_evidence c) s;
  (if bool_decide (target = DONE) then completion_check w c s else Ok tt);;
  Ok wf.

Definition set_progress (w : WorkObject) (payload : value) (actor_id : string) : M Store WorkObject :=
  c ← lift (ProgressSet_of payload);
  target ← lift (Progress_of (ps_progress c));
  wf ← reads (progress_checks w c target);
  existing ← reads (get_node "ReviewPacket" (ps_record_id c));
  guard_raise (bool_decide (is_Some existing)) (WorkObjectAlreadyExistsError "Progress record already exists.");;
  hashes ← M_mapM record_evidence (ps_evidence c);
  b ← reads (basis w "requirements");
  record ← construct KReviewPacket (ps_record_id c) (str_take 200 (ps_reason c))
             (dumps true (progress_body w c target actor_id b hashes));
  create record;;
  create_edge (kind_name (kind w)) (id w) "HAS_REVIEW_PACKET" "ReviewPacket" (id record) ∅;;
  M_iter (link_evidence "ReviewPacket" (id record)) (ps_evidence c);;
  now ← utc_now;
  updated ← lift (replace (with_progress now target wf (id record)) w);
  update_node (kind_name (kind w)) (id w) (to_node_properties updated);;
  mret updated.

(** ** Rejecting a proposal *)

Definition has_disposition (w : WorkObject) (s : Store) : res bool :=
  accepted ← related "ACCEPTED_BY_DECISION" (work_key w) false s;
  if negb (bool_decide (accepted = [])) then Ok true else
  rejected ← related "REJECTED_BY_DECISION" (work_key w) false s;
  Ok (negb (bool_decide (rejected = []))).

Definition reject_proposal (w : WorkObject) (p : ProposalReject) : M Store WorkObject :=
  guard_raise (negb (bool_decide (kind w = KProposal)) || archived w)
    (WorkflowConflict "Only an active Proposal can be rejected.");;
  disposed ← reads (has_disposition w);
  guard_raise disposed (WorkflowConflict "The proposal already has a recorded disposition.");;
  d ← construct KDecision (pr_decision_id p) (str_take 200 (pr_reason p)) (pr_reason p);
  create d;;
  create_edge "Proposal" (id w) "REJECTED_BY_DECISION" "Decision" (id d) ∅;;
  update w (version w).

(** ** Validating a completion attestation *)

(** [set(value)]: the keys of a dictionary, the members of a list. *)
Definition set_of_value (v : value) : res (list value) :=
  match v with
  | VDict d => Ok (VStr <$> d.*1)
  | VList l => if existsb (λ x, match x with VList _ | VDict _ => true | _ => false end) l
               then Err (TypeError "unhashable") else Ok l
  | VStr t => Ok (map (λ c, VStr (String c "")) (list_ascii_of_string t))
  | _ => Err (TypeError "not iterable")
  end.

Definition same_members (a b : list value) : bool :=
  forallb (λ x, bool_decide (x ∈ b)) a && forallb (λ x, bool_decide (x ∈ a)) b.

Definition stale : exn := ValueError "".

(** The [try] block of [completion_record_gaps]; success is an empty list of gaps. *)
Definition attestation_ok (w : WorkObject) (s : Store) : res unit :=
  rid ← of_option InvalidWorkObjectId (progress_record_id w);
  o ← get_node "ReviewPacket" rid s;
  n ← of_option stale o;
  raise_if (nr_archived n) stale;;
  text ← of_option (KeyError "description") (nr_properties n !! "description");
  record ← match text with
           | VStr t => of_option (ValueError "invalid JSON") (loads t)
           | _ => Err (TypeError "the JSON object must be str")
           end;
  attestation ← subscript "attestation" record;
  c ← ProgressSet_of attestation;
  let evidence_keys := map (λ e, VStr (resource_of (ev_kind e, ev_id e))) (ps_evidence c) in
  schema ← subscript "schema" record;
  raise_if (negb (bool_decide (schema = VStr "devgraph.progress-record.v1"))) stale;;
  subject ← subscript "subject" record;
  raise_if (negb (bool_decide (subject = VStr (resource_name w)))) stale;;
  recorded ← subscript "basis" record;
  current ← basis w "requirements" s;
  raise_if (negb (bool_decide (recorded = VStr current))) stale;;
  to_progress ← subscript "to_progress" record;
  raise_if (negb (bool_decide (to_progress = VStr "done")) || negb (String.eqb (ps_progress c) "done")) stale;;
  actor ← subscript "actor_id" record;
  raise_if (negb (value_truthy actor)) stale;;
  hashes ← subscript "evidence_hashes" record;
  keys ← set_of_value hashes;
  raise_if (negb (same_members keys evidence_keys)) stale;;
  items ← match hashes with VDict d => Ok d | _ => Err (AttributeError "items") end;
  ok ← evidence_current items s;
  raise_if (negb ok) stale;;
  rejected ← is_rejected w s;
  raise_if (bool_decide (kind w = KProposal) && (negb rejected || bool_decide (ps_evidence c = []))) stale;;
  expected ← requirements w s;
  raise_if (bool_decide (kind w = KTodo) && negb (todo_ledger_ok expected (ps_requirements c))) stale;;
  blocks ← related "BLOCKS" (work_key w) true s;
  blocked_by ← open_blocker blocks s;
  raise_if blocked_by stale.

Definition completion_record_gaps (w : WorkObject) (s : Store) : res (list string) :=
  catch lookup_or_value_error
    ["Completion attestation is missing, stale, or has unsatisfied requirements."]
    (attestation_ok w s;; Ok []).

End progress.

Section preservation.
  Context {PY : Pydantic} {PL : PydanticLaws} {CK : Clock}.

Lemma set_progress_keeps w v a : keeps (set_progress w v a).
Proof. unfold set_progress. keeps_solve. Qed.

Lemma reject_proposal_keeps w p : keeps (reject_proposal w p).
Proof. unfold reject_proposal. keeps_solve. Qed.

End preservation.

#[export] Hint Resolve set_progress_keeps reject_proposal_keeps : keeps.

(** ** Lemmas *)

Section lemmas.
  Context {PY : Pydantic} {PL : PydanticLaws} {CK : Clock}.
  Implicit Types (s : Store) (w : WorkObject).

Lemma Evidence_of_link v e : Evidence_of v = Ok e → truthy (ev_url e) = true → ev_kind e = "ExternalLink".
Proof.
  unfold Evidence_of. intros He Ht. minv. subst. simpl in *.
  match goal with H : check _ _ = Ok _ |- _ => apply check_Ok in H; unfold safe_link in H; simpl in H;
    rewrite Ht in H end. bools. done.
Qed.

Lemma as_list_Forall {A} m max (f : value → res A) v l (P : A → Prop) :
  as_list m max f v = Ok l → (∀ x a, f x = Ok a → P a) → Forall P l.
Proof.
  unfold as_list. intros Hl Hf. destruct v; try done. case_match; [|done].
  apply res_mapM_Ok in Hl. clear H. induction Hl as [|x a xs l Hx _ IH]; constructor; [by eapply Hf|done].
Qed.

Lemma optional_Forall {A} name d m max (f : value → res A) l (P : A → Prop) :
  optional name [] (as_list m max f) d = Ok l → (∀ x a, f x = Ok a → P a) → Forall P l.
Proof.
  unfold optional. intros Hl Hf. destruct (dict_get name d); [by eapply as_list_Forall|].
  injection Hl as <-. constructor.
Qed.

Lemma ProgressSet_of_links v c : ProgressSet_of v = Ok c → links_are_external (ps_evidence c).
Proof.
  unfold ProgressSet_of. intros Hc. minv. subst. simpl.
  match goal with H : optional "evidence" _ _ _ = _ |- _ => eapply optional_Forall; [exact H|] end.
  intros; by eapply Evidence_of_link.
Qed.

Lemma decode_new_fails : ∃ e, decode_state "new" = Err e.
Proof. unfold decode_state. simpl. rewrite pydantic_bare_word. by eexists. Qed.

Lemma current_state_not_new w st : current_state w = Ok st → workflow_json w ≠ Some "new".
Proof.
  unfold current_state. intros Hs Heq. rewrite Heq in Hs. simpl in Hs. destruct decode_new_fails as [e He]. by rewrite He in Hs.
Qed.

Lemma progress_workflow_not_new w st rejected target es s wf :
  progress_workflow w st rejected target es s = Ok wf → workflow_json w ≠ Some "new" → wf ≠ Some "new".
Proof.
  unfold progress_workflow. intros Hp Hn. destruct (_ && _) in Hp.
  { minv. subst. destruct st; [by intros [=]|done]. }
  destruct st as [x|]; [|minv; by subst]. apply res_bind_Ok in Hp as (mapped & _ & Hp).
  apply res_bind_Ok in Hp as (xj & Hxj & Hp). minv. subst.
  destruct (_ && _) in Hxj; minv; subst; simpl; [by intros [=]|done].
Qed.

(** A successful change of progress, taken apart. *)
Lemma set_progress_Ok w payload actor s w' s' :
  is_todo (kind w) = true → set_progress w payload actor s = (Ok w', s') →
  ∃ c target wf now, ProgressSet_of payload = Ok c ∧ Progress_of (ps_progress c) = Ok target
    ∧ progress_checks w c target s = Ok wf
    ∧ w' = with_progress now target wf (ps_record_id c) w
    ∧ is_ok (validate_progress (Some (Progress_value target)) wf) = true
    ∧ nodes s !! ("ReviewPacket", ps_record_id c) = None
    ∧ (∃ n, nodes s' !! ("ReviewPacket", ps_record_id c) = Some n ∧ nr_archived n = false)
    ∧ Edge (kind_name (kind w)) (id w) "HAS_REVIEW_PACKET" "ReviewPacket" (ps_record_id c) ∅ ∈ edges s'.
Proof.
  intros Hk Hx. unfold set_progress in Hx. minv. bools. subst.
  match goal with H : ProgressSet_of _ = Ok ?x, H' : Progress_of _ = Ok ?y, H'' : progress_checks _ _ _ _ = Ok ?z |- _ =>
    rename x into c, y into target, z into wf; pose proof (ProgressSet_of_links _ _ H) as Hlinks; rename H'' into Hpc end.
  match goal with H : get_node _ _ _ = Ok ?o, H' : ¬ is_Some ?o |- _ =>
    unfold get_node in H; minv; subst; apply eq_None_not_Some in H' end.
  match goal with H : M_mapM _ _ _ = _ |- _ => apply record_all_extends in H as [He1 Hn1]; [|done] end.
  match goal with H : construct _ _ _ _ _ = (Ok ?x, _) |- _ => apply construct_Ok in H as (Hck & Hci & _ & ->); rename x into rec end.
  match goal with H : create _ _ = _ |- _ => apply create_Ok in H as (-> & Hno & He2 & n & Hn2 & _ & Ha) end.
  match goal with H : create_edge _ _ _ _ _ _ _ = _ |- _ => apply create_edge_Ok in H as (-> & _ & _ & Hn3 & He3) end.
  match goal with H : M_iter _ _ _ = _ |- _ => apply link_all_Ok in H as (Hn4 & Hin4 & _) end.
  match goal with H : utc_now _ = _ |- _ => unfold utc_now in H; injection H as <- <- end.
  match goal with H : update_node _ _ _ _ = _ |- _ => apply update_node_Ok in H as (old & np & _ & -> & _) end.
  unfold work_key in *. rewrite Hck, Hci in *.
  assert (Hwn : workflow_json w ≠ Some "new").
  { unfold progress_checks in Hpc. apply res_bind_Ok in Hpc as (st & Hst & _). by eapply current_state_not_new. }
  assert (Hwf : wf ≠ Some "new").
  { unfold progress_checks in Hpc. minv. subst. by eapply progress_workflow_not_new. }
  match goal with H : replace _ _ = Ok _ |- _ => unfold replace in H; apply post_init_explicit in H as [-> Hv];
    [|done|by destruct target] end.
  exists c, target, wf. eexists. split_and!; try done.
  - by apply Hv.
  - exists n. split; [|done]. simpl. rewrite lookup_insert_ne.
    { rewrite Hn4, Hn3, Hn2. apply lookup_insert_eq. }
    intros [= Heq _]. by destruct (kind w).
  - rewrite put_edges. simpl. apply Hin4. rewrite He3. case_decide; [done|]. apply elem_of_app. right. by left.
Qed.

End lemmas.

(** ** Properties *)

Section properties.
  Context {PY : Pydantic} {PL : PydanticLaws} {CK : Clock}.
  Implicit Types (s : Store) (w : WorkObject).

(** What the checks let through. *)
Lemma progress_checks_Ok w c target s wf : progress_checks w c target s = Ok wf →
  archived w = false ∧ progress w ≠ Some (Progress_value target) ∧ (target = NOT_STARTED → progress w = None)
  ∧ ∃ st rejected, current_state w = Ok st ∧ is_rejected w s = Ok rejected
      ∧ progress_workflow w st rejected target (ps_evidence c) s = Ok wf
      ∧ (target = DONE → completion_check w c s = Ok tt).
Proof.
  unfold progress_checks. intros Hp. apply res_bind_Ok in Hp as (st & Hst & Hp).
  apply res_bind_Ok in Hp as (? & Ha%raise_if_Ok & Hp). apply res_bind_Ok in Hp as (? & Hne%raise_if_Ok & Hp).
  apply res_bind_Ok in Hp as (? & Hns%raise_if_Ok & Hp). apply res_bind_Ok in Hp as (rejected & Hrej & Hp).
  apply res_bind_Ok in Hp as (wf' & Hwf & Hp). apply res_bind_Ok in Hp as ([] & Hc & Hp). injection Hp as ->.
  bools. split_and!; try done.
  - intros ->. rewrite bool_decide_true in Hns by done. simpl in Hns. bools. by apply eq_None_not_Some in Hns.
  - exists st, rejected. split_and!; try done. intros ->. by rewrite bool_decide_true in Hc by done.
Qed.

(** Changing progress leaves an attestation and a consistent object: a live
    object moves to a different progress, never back to [not_started] once
    classified, takes the next version and the identifier of a new, active
    ReviewPacket linked to it; a workflow it carries has a stage of that progress. *)
Theorem progress_change_attested w payload actor s w' s' :
  is_todo (kind w) = true → set_progress w payload actor s = (Ok w', s') →
  ∃ c target, ProgressSet_of payload = Ok c ∧ Progress_of (ps_progress c) = Ok target
    ∧ archived w = false ∧ progress w ≠ Some (Progress_value target)
    ∧ (target = NOT_STARTED → progress w = None)
    ∧ progress w' = Some (Progress_value target) ∧ version w' = version w + 1
    ∧ progress_record_id w' = Some (ps_record_id c)
    ∧ (∀ raw, workflow_json w' = Some raw → truthy raw = true →
        ∃ st, decode_state raw = Ok st ∧ stage_progress (workflow_id st) (stage st) = Ok target)
    ∧ nodes s !! ("ReviewPacket", ps_record_id c) = None
    ∧ (∃ n, nodes s' !! ("ReviewPacket", ps_record_id c) = Some n ∧ nr_archived n = false)
    ∧ Edge (kind_name (kind w)) (id w) "HAS_REVIEW_PACKET" "ReviewPacket" (ps_record_id c) ∅ ∈ edges s'.
Proof.
  intros Hk Hx. destruct (set_progress_Ok _ _ _ _ _ _ Hk Hx)
    as (c & target & wf & now & Hc & Ht & Hpc & -> & Hv & Hno & Hn & He).
  destruct (progress_checks_Ok _ _ _ _ _ Hpc) as (Ha & Hne & Hns & _).
  exists c, target. split_and!; try done. simpl. intros raw -> Htr.
  unfold validate_progress in Hv. rewrite Htr in Hv. replace (Progress_of (Progress_value target)) with (Ok target) in Hv
    by (by destruct target). cbn [mbind res_bind] in Hv.
  destruct (decode_state raw) as [st|] eqn:Hd; [|done]. cbn [mbind res_bind] in Hv.
  destruct (stage_progress _ _) as [p|] eqn:Hp; [|done]. cbn [mbind res_bind] in Hv.
  destruct (bool_decide (target = p)) eqn:B; [|done]. bools. subst. by exists st.
Qed.

(** C36: progress [done] is earned: every blocker is done; a base Todo's
    attestation covers each attached requirement and leaves none unmet; work of a
    subtype has either passed every gate of its workflow or is a rejected
    proposal whose handoff is evidenced. *)
Theorem progress_done_earned w payload actor s w' s' :
  is_todo (kind w) = true → set_progress w payload actor s = (Ok w', s') → progress w' = Some "done" →
  (∃ es, related "BLOCKS" (work_key w) true s = Ok es ∧
     ∀ e, e ∈ es → ∃ b, get_by_id (from_label e) (from_id e) s = Ok b ∧ progress b = Some "done")
  ∧ ∃ c expected, ProgressSet_of payload = Ok c ∧ requirements w s = Ok expected
    ∧ if decide (kind w = KTodo)
      then (∀ k, k ∈ expected → resource_of k ∈ map rv_subject (ps_requirements c))
           ∧ (∀ r, r ∈ ps_requirements c → rv_outcome r ≠ "unmet")
           ∧ (∀ st, current_state w = Ok (Some st) → gaps w st "done" s = Ok [])
      else (kind w = KProposal ∧ disposition w s = Ok (Some "rejected") ∧ ps_evidence c ≠ [])
           ∨ ∃ st, current_state w = Ok (Some st) ∧ gaps w st "done" s = Ok [].
Proof.
  intros Hk Hx Hd. destruct (set_progress_Ok _ _ _ _ _ _ Hk Hx)
    as (c & target & wf & now & Hc & Ht & Hpc & -> & _).
  simpl in Hd. assert (target = DONE) as -> by (by destruct target).
  destruct (progress_checks_Ok _ _ _ _ _ Hpc) as (_ & _ & _ & st & rejected & Hst & Hrej & Hwf & Hcc).
  specialize (Hcc eq_refl). unfold completion_check in Hcc.
  apply res_bind_Ok in Hcc as (expected & Hreq & Hcc). apply res_bind_Ok in Hcc as (? & Hl%raise_if_Ok & Hcc).
  apply res_bind_Ok in Hcc as (es & Hes & Hcc). apply res_bind_Ok in Hcc as (b & Hb & ->%raise_if_Ok).
  split; [exists es; split; [done|by apply open_blocker_false]|].
  exists c, expected. split; [done|]. split; [done|].
  assert (Hgate : rejected = false → ∀ y, st = Some y → gaps w y "done" s = Ok []).
  { intros -> y ->. unfold progress_workflow in Hwf. simpl in Hwf. rewrite andb_false_r in Hwf. minv.
    subst. simpl in *. bools. congruence. }
  case_decide as Hkt.
  - rewrite bool_decide_true in Hl by done. simpl in Hl. apply negb_false_iff in Hl. unfold todo_ledger_ok in Hl.
    bools. rewrite !forallb_forall in *. split_and!.
    + intros k Hin. apply str_in_spec. apply (H k). by apply list_elem_of_In.
    + intros r Hin Hu. apply list_elem_of_In, H0 in Hin. by rewrite Hu in Hin.
    + intros y Hx'. rewrite Hst in Hx'. injection Hx' as ->. apply Hgate; [|done].
      unfold is_rejected in Hrej. rewrite Hkt in Hrej. simpl in Hrej. by injection Hrej as <-.
  - destruct rejected.
    + left. unfold is_rejected in Hrej. case_match; [|done]. bools. minv. bools. subst.
      unfold progress_workflow in Hwf. simpl in Hwf. minv. bools. done.
    + right. destruct st as [y|]; [exists y; auto|]. unfold progress_workflow in Hwf. simpl in Hwf. minv. bools. done.
Qed.

(** A proposal has one disposition: rejection refuses a proposal that is
    archived or already accepted or rejected; a success leaves exactly one
    rejection edge, to the new Decision, no acceptance edge, and the proposal at
    its next version. *)
Theorem rejection_is_exclusive w p s w' s' :
  reject_proposal w p s = (Ok w', s') →
  kind w = KProposal ∧ archived w = false
  ∧ edges_out "ACCEPTED_BY_DECISION" (work_key w) s = [] ∧ edges_out "REJECTED_BY_DECISION" (work_key w) s = []
  ∧ edges_out "ACCEPTED_BY_DECISION" (work_key w) s' = []
  ∧ edges_out "REJECTED_BY_DECISION" (work_key w) s'
    = [Edge "Proposal" (id w) "REJECTED_BY_DECISION" "Decision" (pr_decision_id p) ∅]
  ∧ nodes s !! ("Decision", pr_decision_id p) = None.
Proof.
  unfold reject_proposal. intros Hx. minv. bools. subst.
  match goal with H : has_disposition _ _ = _ |- _ => rename H into Hd end.
  unfold has_disposition in Hd. apply res_bind_Ok in Hd as (acc & Hacc%related_out & Hd).
  destruct (negb _) eqn:Ha in Hd; [done|]. apply res_bind_Ok in Hd as (rej & Hrej%related_out & Hd).
  apply (inj Ok) in Hd. bools. rewrite Ha in Hacc. rewrite Hd in Hrej.
  match goal with H : construct _ _ _ _ _ = (Ok ?d, _) |- _ => apply construct_Ok in H as (Hdk & Hdi & _ & ->); rename d into dec end.
  match goal with H : create _ _ = _ |- _ => apply create_Ok in H as (-> & Hno & He2 & _) end.
  match goal with H : create_edge _ _ _ _ _ _ _ = _ |- _ => apply create_edge_Ok in H as (-> & _ & _ & _ & He3) end.
  match goal with H : update _ _ ?t = _ |- _ => pose proof (update_edgeless w (version w) t) as Hu; rewrite H in Hu end.
  unfold work_key in *. rewrite Hdk, Hdi in *. simpl in Hu, He2, Hno. rewrite He2 in He3.
  rewrite decide_False in He3; last first.
  { intros Hin. eapply not_elem_of_nil. rewrite Hrej. apply list_elem_of_filter. split; [|exact Hin].
    by match goal with H : kind w = KProposal |- _ => rewrite H end. }
  rewrite He3 in Hu. match goal with H : kind w = KProposal |- _ => rewrite H in * end.
  split_and!; try done.
  - rewrite (edges_out_snoc _ _ s s' _ Hu), <- Hacc. by rewrite decide_False by (by intros [? _]).
  - rewrite (edges_out_snoc _ _ s s' _ Hu), <- Hrej. by rewrite decide_True.
Qed.

End properties.

(** ** Witnesses *)

Section witnesses.

#[local] Existing Instance reference_pydantic.
#[local] Existing Instance reference_pydantic_laws.
#[local] Existing Instance epoch_clock.

Definition ex_todo : WorkObject :=
  match post_init (new_work KTodo "t1" "t" epoch epoch) with Ok w => w | Err _ => new_work KTodo "t1" "t" epoch epoch end.

Definition ex_todo_store : Store := (create ex_todo empty_store).2.

Definition ex_done_payload : value :=
  VDict (mk_dict [("progress", VStr "done"); ("reason", VStr "shipped"); ("record_id", VStr "r1")]).

Lemma ex_completed : ∃ w' s', set_progress ex_todo ex_done_payload "dev" ex_todo_store = (Ok w', s')
  ∧ progress w' = Some "done".
Proof.
  assert (Hok : match (set_progress ex_todo ex_done_payload "dev" ex_todo_store).1 with
                | Ok w' => bool_decide (progress w' = Some "done")
                | Err _ => false
                end = true) by (vm_compute; reflexivity).
  destruct (set_progress ex_todo ex_done_payload "dev" ex_todo_store) as [[w'|e] s'] eqn:E; [|discriminate Hok].
  exists w', s'. exact (conj eq_refl (proj1 (bool_decide_eq_true _) Hok)).
Defined.

Lemma progress_change_attested_witness : ∃ w' s' c, 
  set_progress ex_todo ex_done_payload "dev" ex_todo_store = (Ok w', s') ∧ ProgressSet_of ex_done_payload = Ok c.
Proof.
  destruct ex_completed as (w' & s' & Hx & _).
  destruct (progress_change_attested ex_todo ex_done_payload "dev" ex_todo_store w' s' eq_refl Hx)
    as (c & target & Hc & _).
  exists w', s', c. exact (conj Hx Hc).
Defined.

Lemma progress_done_earned_witness : ∃ es, related "BLOCKS" ("Todo", "t1") true ex_todo_store = Ok es.
Proof.
  destruct ex_completed as (w' & s' & Hx & Hd).
  destruct (progress_done_earned ex_todo ex_done_payload "dev" ex_todo_store w' s' eq_refl Hx Hd)
    as ((es & Hes & _) & _).
  exists es. exact Hes.
Defined.

Definition ex_reject : ProposalReject := {| pr_decision_id := "d1"; pr_reason := "out of scope" |}.

Lemma rejection_is_exclusive_witness : ∃ w' s',
  reject_proposal ex_proposal ex_reject ex_draft = (Ok w', s')
  ∧ edges_out "ACCEPTED_BY_DECISION" ("Proposal", "p1") s' = [].
Proof.
  destruct (reject_proposal ex_proposal ex_reject ex_draft) as [[w'|e] s'] eqn:E.
  - destruct (rejection_is_exclusive ex_proposal ex_reject ex_draft w' s' E) as (_ & _ & _ & _ & Ha & _).
    exists w', s'. exact (conj eq_refl Ha).
  - exfalso. assert (Hok : is_ok (reject_proposal ex_proposal ex_reject ex_draft).1 = true)
      by (vm_compute; reflexivity). rewrite E in Hok. discriminate Hok.
Defined.

End witnesses.
