(* ===== verification/Arenas.v ===== *)
(** * Arenas: records, membership and mutations

    [src/devgraph/arenas.py] with the records of [src/devgraph/arena_contract.py].
    An Arena contains root Work (Initiatives and Tasks without a parent) through
    [CONTAINS_WORK]; other Work inherits the Arena of its root.  A request is the
    validated content of an [ArenaRequest]. *)

From stdpp Require Import base gmap strings list sorting.
From Stdlib Require Import ZArith Ascii String.
From S2P Require Import Prelude Json Sha256 Datetime Validation WorkflowContract Model Storage StorageWf StorageReads Repository ResourcePaths Workflows Lifecycle.

Local Open Scope Z_scope.

(** ** Records *)

Definition MAX_SAFE_INTEGER : Z := 9007199254740991.

Record Arena := {
  a_id : string;
  a_title : string;
  a_description : string;
  a_version : Z;
  a_archived : bool;
  a_created_at : string;
  a_updated_at : string
}.

#[export] Instance Arena_eq_dec : EqDecision Arena.
Proof. solve_decision. Defined.

Record ArenaReference := {
  ref_id : string;
  ref_version : Z
}.

(** [Arena.timestamp]: an aware ISO timestamp. *)
Definition timestamp_ok (t : string) : bool :=
  match fromisoformat t with Some d => aware d | None => false end.

(** The field constraints and validators of [Arena]. *)
Definition arena_ok (a : Arena) : bool :=
  _ID_PATTERN (a_id a) && (1 <=? str_len (a_title a)) && (str_len (a_title a) <=? 4096)
  && (str_len (a_description a) <=? 32768) && (1 <=? a_version a) && (a_version a <=? MAX_SAFE_INTEGER)
  && timestamp_ok (a_created_at a) && timestamp_ok (a_updated_at a).

(** [Arena(...)] on typed fields. *)
Definition new_arena (a : Arena) : res Arena :=
  if arena_ok a then Ok a else Err (ValidationError "Arena").

Definition ARENA_PROPERTIES : list string :=
  ["schema_version"; "kind"; "title"; "description"; "version"; "created_at"; "updated_at"].

(** [arena.model_dump(exclude={"id", "archived"})]. *)
Definition arena_properties (a : Arena) : props :=
  <["schema_version" := VInt 1]> (<["kind" := VStr "Arena"]> (<["title" := VStr (a_title a)]>
    (<["description" := VStr (a_description a)]> (<["version" := VInt (a_version a)]>
      (<["created_at" := VStr (a_created_at a)]> {["updated_at" := VStr (a_updated_at a)]}))))).

Definition str_field (name : string) (p : props) : res string :=
  of_option (ValidationError "Arena") (p !! name ≫= get_str).

(** [Arena.model_validate({**properties, "id": id, "archived": archived}, strict=True)]
    for properties without these two names. *)
Definition Arena_of (i : string) (p : props) (is_archived : bool) : res Arena :=
  raise_if (negb (bool_decide (map_Forall (λ name _, name ∈ ARENA_PROPERTIES) p))) (ValidationError "Arena");;
  raise_if (negb (bool_decide (p !! "schema_version" = Some (VInt 1)))) (ValidationError "Arena");;
  raise_if (negb (bool_decide (p !! "kind" = Some (VStr "Arena")))) (ValidationError "Arena");;
  t ← str_field "title" p;
  d ← str_field "description" p;
  v ← match p !! "version" with Some (VInt z) => Ok z | _ => Err (ValidationError "Arena") end;
  c ← str_field "created_at" p;
  u ← str_field "updated_at" p;
  new_arena {| a_id := i; a_title := t; a_description := d; a_version := v; a_archived := is_archived;
               a_created_at := c; a_updated_at := u |}.

Definition DIRECT_KINDS : list string := ["Initiative"; "Task"].

Record ArenaMembership := {
  m_arena : option Arena;
  m_root_kind : string;
  m_root_id : string;
  m_inherited : bool
}.

(** [ArenaMembership(...)]: [root_kind] is a [Literal] of five kinds. *)
Definition new_membership (m : ArenaMembership) : res ArenaMembership :=
  if str_in (m_root_kind m) ["Proposal"; "Initiative"; "Project"; "Issue"; "Task"] && _ID_PATTERN (m_root_id m)
  then Ok m else Err (ValidationError "ArenaMembership").

(** The parent and the direct Arena of each captured key. *)
Abbreviation placements := (gmap key (option key * option string)).

Section arenas.
  Context `{Pydantic, Clock}.

(** ** [ArenaRepository] *)

(** [ArenaRepository._from_node]. *)
Definition arena_from_node (n : NodeRecord) : res Arena :=
  rethrow (λ e, is_value_error e || is_type_error e) (λ _, StorageUnavailable "malformed Arena record")
    (raise_if (negb (String.eqb (nr_label n) "Arena") || bool_decide (is_Some (nr_properties n !! "id"))
               || bool_decide (is_Some (nr_properties n !! "archived"))) (ValueError "invalid Arena record");;
     Arena_of (nr_id n) (nr_properties n) (nr_archived n)).

Definition get_arena (arena_id : string) (s : Store) : res Arena :=
  require_id arena_id;;
  o ← get_node "Arena" arena_id s;
  n ← of_option (MissingWorkObjectError "Arena" arena_id) o;
  arena_from_node n.

Definition current (ref : ArenaReference) (s : Store) : res Arena :=
  a ← get_arena (ref_id ref) s;
  raise_if (negb (a_version a =? ref_version ref))
    (WorkObjectVersionConflictError "Arena" (a_id a) (ref_version ref) (a_version a));;
  Ok a.

Definition list_arenas (include_archived : bool) (after_id : option string) (limit : Z) (s : Store) :
    res (list Arena) :=
  validate_page_limit limit;;
  match after_id with Some a => require_id a;; Ok tt | None => Ok tt end;;
  ns ← query (Some "Arena") (if include_archived then None else Some false) false after_id (Some limit) s;
  res_mapM arena_from_node ns.

Definition _containment (k i : string) (s : Store) : res WorkContainment :=
  o ← work_containment k i s;
  it ← of_option (MissingWorkObjectError k i) o;
  _from_node (wc_node it);;
  Ok it.

Definition _direct_id (it : WorkContainment) : res (option string) :=
  let incoming := wc_memberships it in
  raise_if ((1 <? Z.of_nat (length incoming)) || existsb (λ e, negb (String.eqb (from_label e) "Arena")) incoming)
    (ArenaConflict "invalid direct Arena membership");;
  raise_if (negb (bool_decide (incoming = [])) && negb (str_in (nr_label (wc_node it)) DIRECT_KINDS))
    (ArenaConflict "ineligible direct Arena member");;
  Ok (from_id <$> head incoming).

Definition direct (k i : string) (s : Store) : res (option Arena) :=
  it ← _containment k i s;
  o ← _direct_id it;
  match o with Some a => x ← get_arena a s; Ok (Some x) | None => Ok None end.

(** The [while True] loop of [membership]; [None] when [fuel] iterations do not
    end it. *)
Fixpoint membership_walk (fuel : nat) (original current : key) (visited : list key) (s : Store) :
    option (res ArenaMembership) :=
  match fuel with
  | O => None
  | S fuel' =>
      if decide (current ∈ visited) then Some (Err (ArenaConflict "cyclic Work parentage")) else
      match _containment current.1 current.2 s with
      | Err e => Some (Err e)
      | Ok it =>
          match wc_parents it, _direct_id it with
          | _ :: _ :: _, _ => Some (Err (ArenaConflict "multiple Work parents"))
          | _, Err e => Some (Err e)
          | [], Ok o =>
              Some (arena ← match o with Some a => x ← get_arena a s; Ok (Some x) | None => Ok None end;
                    new_membership
                      {| m_arena := arena; m_root_kind := current.1; m_root_id := current.2;
                         m_inherited := bool_decide (is_Some o) && negb (bool_decide (current = original)) |})
          | [edge], Ok o =>
              if bool_decide (is_Some o) || negb (str_in (from_label edge) (parent_kinds current.1))
              then Some (Err (ArenaConflict "invalid Arena membership or Work parentage"))
              else membership_walk fuel' original (edge_from edge) (current :: visited) s
          end
      end
  end.

(** Four iterations end the loop ([membership_ends] below). *)
Definition membership (k i : string) (s : Store) : res ArenaMembership :=
  raise_if (negb (str_in k TODO_KINDS)) (ValueError "invalid Work kind");;
  default (Err (ArenaConflict "")) (membership_walk 4 (k, i) (k, i) [] s).

(** ** Batched placement *)

(** [frontier[offset:offset + 100] for offset in range(0, len(frontier), 100)]. *)
Fixpoint batches (fuel : nat) (l : list key) : list (list key) :=
  match fuel, l with
  | S fuel', _ :: _ => take 100 l :: batches fuel' (drop 100 l)
  | _, _ => []
  end.

(** One item of a batch. *)
Definition capture (st : placements * gset key) (it : WorkContainment) : res (placements * gset key) :=
  let '(captured, pending) := st in
  _from_node (wc_node it);;
  let k := nr_key (wc_node it) in
  arena_id ← _direct_id it;
  match wc_parents it with
  | _ :: _ :: _ => Err (ArenaConflict "multiple Work parents")
  | [] => Ok (<[k := (None, arena_id)]> captured, pending)
  | [edge] =>
      raise_if (bool_decide (is_Some arena_id) || negb (str_in (from_label edge) (parent_kinds k.1)))
        (ArenaConflict "invalid Arena membership or Work parentage");;
      let parent := edge_from edge in
      Ok (<[k := (Some parent, arena_id)]> captured,
          if decide (is_Some (captured !! parent)) then pending else {[parent]} ∪ pending)
  end.

Fixpoint res_foldM {A B} (f : B → A → res B) (b : B) (l : list A) : res B :=
  match l with
  | [] => Ok b
  | x :: l' => b' ← f b x; res_foldM f b' l'
  end.

Definition capture_batch (s : Store) (st : placements * gset key) (batch : list key) : res (placements * gset key) :=
  its ← work_containment_batch batch s;
  res_foldM capture st its.

(** The [while pending] loop. *)
Fixpoint capture_rounds (fuel : nat) (captured : placements) (pending : gset key) (s : Store) :
    option (res placements) :=
  if decide (pending = ∅) then Some (Ok captured) else
  match fuel with
  | O => None
  | S fuel' =>
      let frontier := sort_keys (elements pending) in
      match res_foldM (capture_batch s) (captured, ∅) (batches (length frontier) frontier) with
      | Err e => Some (Err e)
      | Ok (captured', found) =>
          let pending' := found ∖ dom captured' in
          if (40000 <? Z.of_nat (size captured') + Z.of_nat (size pending'))
          then Some (Err (StorageUnavailable "Arena placement capacity exceeded"))
          else capture_rounds fuel' captured' pending' s
      end
  end.

(** The inner [while current not in resolved] loop: the trail walked and the Arena
    at its end. *)
Fixpoint trail_walk (fuel : nat) (captured : placements) (resolved : gmap key (option string)) (k : key) :
    option (res (list key * option string)) :=
  match resolved !! k with
  | Some a => Some (Ok ([], a))
  | None =>
      match fuel with
      | O => None
      | S fuel' =>
          match captured !! k with
          | None => Some (Err (KeyError "captured"))
          | Some (None, a) => Some (Ok ([k], a))
          | Some (Some parent, _) =>
              r ← trail_walk fuel' captured resolved parent;
              Some (ta ← r; Ok (k :: ta.1, ta.2))
          end
      end
  end.

Fixpoint resolve_all (captured : placements) (resolved : gmap key (option string)) (keys : list key) :
    option (res (gmap key (option string))) :=
  match keys with
  | [] => Some (Ok resolved)
  | k :: keys' =>
      r ← trail_walk 4 captured resolved k;
      match r with
      | Err e => Some (Err e)
      | Ok (trail, a) => resolve_all captured (foldl (λ m x, <[x := a]> m) resolved trail) keys'
      end
  end.

(** The rounds and the trails take at most four iterations each
    ([membership_ids_ends] below). *)
Definition membership_ids (keys : list key) (s : Store) : res (gmap key (option string)) :=
  raise_if ((10000 <? Z.of_nat (length keys)) || has_dup keys)
    (StorageUnavailable "Arena placement capacity exceeded");;
  captured ← default (Err (KeyError "rounds")) (capture_rounds 4 ∅ (list_to_set keys) s);
  resolved ← default (Err (KeyError "trails")) (resolve_all captured ∅ keys);
  Ok (filter (λ kv, kv.1 ∈ keys) resolved).

Definition members (arena_id : string) (after : option string) (limit : Z) (s : Store) : res (list WorkObject) :=
  validate_arena_page arena_id after limit;;
  get_arena arena_id s;;
  its ← arena_member_page arena_id after limit s;
  res_mapM (λ it,
    o ← (if bool_decide (wc_parents it = []) then _direct_id it else Ok None);
    raise_if (negb (bool_decide (wc_parents it = [])) || negb (bool_decide (o = Some arena_id)))
      (ArenaConflict "invalid direct Arena member");;
    _from_node (wc_node it)) its.

(** ** Writes *)

(** The named changes of [bump]. *)
Record arena_changes := {
  ch_title : option string;
  ch_description : option string;
  ch_archived : bool
}.

Definition no_changes : arena_changes := {| ch_title := None; ch_description := None; ch_archived := false |}.

Definition bump (a : Arena) (c : arena_changes) : M Store Arena :=
  now ← utc_now;
  updated ← lift (new_arena
    {| a_id := a_id a; a_title := default (a_title a) (ch_title c);
       a_description := default (a_description a) (ch_description c); a_version := a_version a + 1;
       a_archived := ch_archived c || a_archived a; a_created_at := a_created_at a;
       a_updated_at := isoformat now |});
  (if a_archived updated && negb (a_archived a)
   then archive_node "Arena" (a_id a) (Some (arena_properties updated))
   else update_node "Arena" (a_id a) (arena_properties updated));;
  mret updated.

Definition remove_for_parent (child : WorkObject) (previous : option ArenaReference) : M Store unit :=
  d ← reads (direct (kind_name (kind child)) (id child));
  guard_raise (negb (bool_decide (a_id <$> d = ref_id <$> previous)))
    (ArenaConflict "Arena parent-change precondition failed");;
  match d, previous with
  | Some _, Some ref =>
      reads (membership (kind_name (kind child)) (id child));;
      a ← reads (current ref);
      delete_edge "Arena" (a_id a) "CONTAINS_WORK" (kind_name (kind child)) (id child);;
      bump a no_changes;;
      mret tt
  | _, _ => mret tt
  end.

(** ** [ArenaMutations] *)

Inductive arena_request : Type :=
  | arena_create (i t d : string)
  | arena_patch (i : string) (expected : Z) (t d : option string)
  | arena_archive (i : string) (expected : Z)
  | arena_member_set (k i : string) (expected : Z) (previous target : option ArenaReference).

Inductive arena_result : Type :=
  | arena_changed (a : Arena)
  | member_changed (w : WorkObject).

Definition create_arena (i t d : string) : M Store Arena :=
  now ← utc_now;
  a ← lift (new_arena {| a_id := i; a_title := t; a_description := d; a_version := 1; a_archived := false;
                         a_created_at := isoformat now; a_updated_at := isoformat now |});
  M_rethrow is_key_error (λ _, WorkObjectAlreadyExistsError "Arena already exists")
    (create_node "Arena" (a_id a) (arena_properties a));;
  mret a.

Definition change_arena (i : string) (expected : Z) (c : arena_changes) : M Store Arena :=
  a ← reads (current {| ref_id := i; ref_version := expected |});
  guard_raise (a_archived a) (ArenaConflict "archived Arena cannot be changed");;
  bump a c.

(** [touched]: the Arenas of the two references, by identifier. *)
Definition touched_arenas (previous target : option ArenaReference) (s : Store) : res (list Arena) :=
  p ← match previous with Some ref => a ← current ref s; Ok [a] | None => Ok [] end;
  t ← match target with Some ref => a ← current ref s; Ok [a] | None => Ok [] end;
  Ok (match p, t with
      | [a], [b] => if String.eqb (a_id a) (a_id b) then [b] else [a; b]
      | _, _ => p ++ t
      end).

Definition _member (k i : string) (expected : Z) (previous target : option ArenaReference) : M Store WorkObject :=
  member ← reads (get_by_id k i);
  guard_raise (negb (version member =? expected))
    (WorkObjectVersionConflictError (kind_name (kind member)) (id member) expected (version member));;
  guard_raise (archived member) (ArenaConflict "archived Work cannot change membership");;
  m ← reads (membership (kind_name (kind member)) (id member));
  guard_raise (negb (bool_decide ((m_root_kind m, m_root_id m) = work_key member)))
    (ArenaConflict "direct Arena member must be parentless");;
  guard_raise (negb (bool_decide (a_id <$> m_arena m = ref_id <$> previous)))
    (ArenaConflict "Arena membership precondition failed");;
  touched ← reads (touched_arenas previous target);
  guard_raise (match target with
               | Some ref => existsb (λ a, String.eqb (a_id a) (ref_id ref) && a_archived a) touched
               | None => false
               end) (ArenaConflict "cannot assign to an archived Arena");;
  match previous with
  | Some ref => delete_edge "Arena" (ref_id ref) "CONTAINS_WORK" (kind_name (kind member)) (id member)
  | None => mret tt
  end;;
  match target with
  | Some ref => create_edge "Arena" (ref_id ref) "CONTAINS_WORK" (kind_name (kind member)) (id member) ∅;; mret tt
  | None => mret tt
  end;;
  M_iter (λ a, bump a no_changes;; mret tt) touched;;
  update member (version member).

Definition arena_execute_body (r : arena_request) : M Store arena_result :=
  match r with
  | arena_create i t d => a ← create_arena i t d; mret (arena_changed a)
  | arena_patch i v t d =>
      a ← change_arena i v {| ch_title := t; ch_description := d; ch_archived := false |}; mret (arena_changed a)
  | arena_archive i v =>
      a ← change_arena i v {| ch_title := None; ch_description := None; ch_archived := true |}; mret (arena_changed a)
  | arena_member_set k i v p t => w ← _member k i v p t; mret (member_changed w)
  end.

Definition arena_execute (r : arena_request) : M Store arena_result :=
  work_mutation_transaction (arena_execute_body r).

End arenas.

(** ** The membership walk *)

Section walk.
  Context {PY : Pydantic} {CK : Clock}.
  Implicit Types (s : Store).

Lemma kind_rank_bound k : (kind_rank k < 4)%nat.
Proof. unfold kind_rank. repeat case_match; lia. Qed.

Lemma membership_walk_fuel n m original current visited s :
  (kind_rank current.1 < n)%nat → (kind_rank current.1 < m)%nat →
  membership_walk n original current visited s = membership_walk m original current visited s
  ∧ membership_walk n original current visited s ≠ None.
Proof.
  revert m current visited. induction n as [|n IH]; intros [|m] current visited Hn Hm; [lia..|].
  cbn [membership_walk]. destruct (decide (current ∈ visited)); [done|].
  destruct (_containment _ _ _) as [it|]; [|done].
  destruct (wc_parents it) as [|e [|]]; destruct (_direct_id it) as [o|]; try done.
  destruct (_ || _) eqn:B; [done|]. bools. apply str_in_spec, parent_kinds_spec in H0 as [Hlt _].
  apply IH; simpl; lia.
Qed.

(** The placement of a work object: the Arena of the root of its parent chain. *)
Inductive placed s : key → option string → Prop :=
  | placed_root k it a :
      _containment k.1 k.2 s = Ok it → wc_parents it = [] → _direct_id it = Ok a → placed s k a
  | placed_child k it e a :
      _containment k.1 k.2 s = Ok it → wc_parents it = [e] → _direct_id it = Ok None →
      str_in (from_label e) (parent_kinds k.1) = true → placed s (edge_from e) a → placed s k a.

Lemma placed_functional s k a b : placed s k a → placed s k b → a = b.
Proof.
  intros Ha. revert b. induction Ha as [k it a Hc Hp Hd|k it e a Hc Hp Hd He _ IH];
    intros b Hb; inversion Hb; simplify_eq; try congruence. apply IH. congruence.
Qed.

Lemma new_arena_Ok a a' : new_arena a = Ok a' → a' = a ∧ arena_ok a = true.
Proof. unfold new_arena. case_match; naive_solver. Qed.

Lemma Arena_of_id i p b a : Arena_of i p b = Ok a → a_id a = i ∧ a_archived a = b ∧ arena_ok a = true.
Proof.
  unfold Arena_of. intros Ha. minv.
  match goal with H : new_arena _ = _ |- _ => apply new_arena_Ok in H as [-> ?] end. done.
Qed.

Lemma get_arena_id i s a : store_wf s → get_arena i s = Ok a → a_id a = i.
Proof.
  unfold get_arena, get_node. intros Hs Hg. minv. unfold arena_from_node in *. minv.
  match goal with H : Arena_of _ _ _ = _ |- _ => apply Arena_of_id in H as (-> & _ & _) end.
  subst.
  match goal with H : nodes s !! _ = Some _ |- _ => destruct (sw_nodes s Hs _ _ H) as [Hk _ _] end.
  unfold nr_key in Hk. by injection Hk.
Qed.

Lemma membership_walk_placed n original current visited s m :
  store_wf s → membership_walk n original current visited s = Some (Ok m) →
  placed s current (a_id <$> m_arena m).
Proof.
  intros Hs. revert current visited. induction n as [|n IH]; intros current visited Hw; [done|].
  cbn [membership_walk] in Hw. destruct (decide _); [done|].
  destruct (_containment _ _ _) as [it|] eqn:Hc; [|done].
  destruct (wc_parents it) as [|e [|]] eqn:Hp; destruct (_direct_id it) as [o|] eqn:Hd; try done.
  - injection Hw as Hw. apply res_bind_Ok in Hw as (ar & Har & Hw). unfold new_membership in Hw.
    case_match; [|done]. injection Hw as <-. simpl. eapply placed_root; [done|done|].
    destruct o as [a|]; [|by injection Har as <-].
    apply res_bind_Ok in Har as (x & Hx & Har). injection Har as <-. simpl.
    by rewrite (get_arena_id _ _ _ Hs Hx).
  - destruct (_ || _) eqn:B; [done|]. bools. destruct o; [by destruct H; eauto|].
    eapply placed_child; eauto.
Qed.

End walk.

(** ** Batched placement computes the placement *)

Section batched.
  Context {PY : Pydantic} {CK : Clock}.
  Implicit Types (s : Store) (c : placements) (k p : key).

(** What is captured of a key is what the single read sees. *)
Definition entry_ok s k (pa : option key * option string) : Prop :=
  ∃ it, _containment k.1 k.2 s = Ok it ∧ _direct_id it = Ok pa.2
    ∧ match pa.1 with
      | None => wc_parents it = []
      | Some p => ∃ e, wc_parents it = [e] ∧ p = edge_from e ∧ pa.2 = None
                       ∧ str_in (from_label e) (parent_kinds k.1) = true
      end.

(** Entries are right, every captured parent is captured, found or still pending
    ([P]), and what was found has rank below [r]. *)
Record capturing s (P : gset key) (r : nat) c (f : gset key) : Prop := {
  cp_entries : map_Forall (entry_ok s) c;
  cp_parents k p a : c !! k = Some (Some p, a) → p ∈ dom c ∨ p ∈ f ∨ p ∈ P;
  cp_rank p : p ∈ f → (kind_rank p.1 < r)%nat
}.

Lemma capture_step s P r c f k n c' f' :
  store_wf s → nodes s !! k = Some n → validate_containment_subject k = Ok tt → (kind_rank k.1 <= r)%nat →
  capturing s P r c f →
  capture (c, f) (Containment n (incoming "HAS_CHILD" k s) (incoming "CONTAINS_WORK" k s)) = Ok (c', f') →
  capturing s P r c' f' ∧ dom c' = {[k]} ∪ dom c ∧ f ⊆ f'.
Proof.
  intros Hs Hn Hv Hr [He Hp Hf] Hc. set (it := Containment _ _ _) in Hc.
  assert (Hk : nr_key n = k) by (by destruct (sw_nodes s Hs _ _ Hn)).
  unfold capture in Hc. cbn [wc_node it] in Hc. rewrite Hk in Hc.
  apply res_bind_Ok in Hc as (w & Hw & Hc). apply res_bind_Ok in Hc as (o & Ho & Hc).
  assert (Hit : _containment k.1 k.2 s = Ok it).
  { unfold _containment, work_containment. rewrite <- surjective_pairing, Hv. simpl. rewrite Hn. simpl.
    unfold _work_containment. simpl. rewrite Hn. simpl. by rewrite Hw. }
  destruct (wc_parents it) as [|e [|]] eqn:Hpar; [| |done].
  - injection Hc as <- <-. split; [|split; [by rewrite dom_insert_L|done]]. constructor; [| |done].
    + apply map_Forall_insert_2; [|done]. by exists it.
    + intros k' p a. rewrite lookup_insert_Some. intros [[_ [=]]|[_ H%Hp]]. rewrite dom_insert_L. set_solver.
  - apply res_bind_Ok in Hc as (? & B%raise_if_Ok & Hc). bools. injection Hc as <- <-.
    assert (o = None) as -> by (destruct o; [exfalso; eauto|done]).
    pose proof H0 as Hlab. apply str_in_spec, parent_kinds_spec in H0 as [Hlt _].
    split; [|split; [by rewrite dom_insert_L|case_decide; set_solver]]. constructor.
    + apply map_Forall_insert_2; [|done]. exists it. split_and!; try done. by exists e.
    + intros k' p a. rewrite lookup_insert_Some, dom_insert_L. intros [[_ [= <- _]]|[_ H'%Hp]].
      * case_decide as Hd; [left; apply elem_of_union_r; by apply elem_of_dom|set_solver].
      * case_decide; set_solver.
    + intros p Hin. case_decide; [by apply Hf|]. apply elem_of_union in Hin as [->%elem_of_singleton|]; [simpl; lia|auto].
Qed.

Lemma capture_all s P r ks ns c f c' f' :
  store_wf s → Forall (λ k, validate_containment_subject k = Ok tt ∧ (kind_rank k.1 <= r)%nat) ks →
  Forall2 (λ k it, ∃ n, nodes s !! k = Some n
    ∧ it = Containment n (incoming "HAS_CHILD" k s) (incoming "CONTAINS_WORK" k s)) ks ns →
  capturing s P r c f → res_foldM capture (c, f) ns = Ok (c', f') →
  capturing s P r c' f' ∧ dom c' = list_to_set ks ∪ dom c ∧ f ⊆ f'.
Proof.
  intros Hs Hks Hns. revert c f Hks. induction Hns as [|k it ks ns (n & Hn & ->) Hns IH]; intros c f Hks Hc Hf.
  - injection Hf as <- <-. split; [done|]. split; [set_solver|done].
  - apply Forall_cons in Hks as [[Hv Hr] Hks]. cbn [res_foldM] in Hf. apply res_bind_Ok in Hf as ([c1 f1] & Hc1 & Hf).
    destruct (capture_step s P r c f k n c1 f1 Hs Hn Hv Hr Hc Hc1) as (Hc1' & Hd1 & Hf1).
    destruct (IH c1 f1 Hks Hc1' Hf) as (Hc' & Hd' & Hf').
    split; [done|]. split; [rewrite Hd', Hd1; set_solver|set_solver].
Qed.

Lemma containment_keys_Ok ks u : validate_containment_keys ks = Ok u →
  Forall (λ k, validate_containment_subject k = Ok tt) ks.
Proof.
  unfold validate_containment_keys. intros Hv. minv.
  match goal with H : res_mapM _ _ = Ok ?l |- _ => apply res_mapM_Ok in H; rename H into Hl end.
  clear -Hl. induction Hl as [|k [] ks us Hk _ IH]; by constructor.
Qed.

Lemma capture_batch_Ok s P r c f b c' f' :
  store_wf s → Forall (λ k, (kind_rank k.1 <= r)%nat) b → capturing s P r c f →
  capture_batch s (c, f) b = Ok (c', f') →
  capturing s P r c' f' ∧ dom c' = list_to_set b ∪ dom c ∧ f ⊆ f'.
Proof.
  intros Hs Hr Hc Hb. unfold capture_batch in Hb. apply res_bind_Ok in Hb as (its & Hits & Hb).
  unfold work_containment_batch in Hits. apply res_bind_Ok in Hits as (u & Hv%containment_keys_Ok & Hits).
  unfold _work_containment in Hits. apply res_mapM_Ok in Hits.
  destruct (capture_all s P r (sort_keys b) its c f c' f') as (H1 & H2 & H3); try done.
  - rewrite sort_keys_perm. rewrite Forall_forall in Hv. rewrite Forall_forall in Hr.
    apply Forall_forall. auto.
  - eapply Forall2_impl; [exact Hits|]. intros k it Hk. simpl in Hk.
    destruct (nodes s !! k) as [n|]; [|done]. injection Hk as <-. eauto.
  - split; [done|]. split; [|done]. rewrite H2. f_equal. apply leibniz_equiv. by rewrite sort_keys_perm.
Qed.

Lemma capture_batches_Ok s P r bs c f c' f' :
  store_wf s → Forall (Forall (λ k, (kind_rank k.1 <= r)%nat)) bs → capturing s P r c f →
  res_foldM (capture_batch s) (c, f) bs = Ok (c', f') →
  capturing s P r c' f' ∧ dom c' = list_to_set (mjoin bs) ∪ dom c.
Proof.
  intros Hs Hbs. revert c f. induction Hbs as [|b bs Hb Hbs IH]; intros c f Hc Hf; cbn [res_foldM] in Hf.
  - injection Hf as <- <-. split; [done|]. set_solver.
  - apply res_bind_Ok in Hf as ([c1 f1] & Hc1 & Hf).
    destruct (capture_batch_Ok s P r c f b c1 f1 Hs Hb Hc Hc1) as (Hc1' & Hd1 & _).
    destruct (IH c1 f1 Hc1' Hf) as (Hc' & Hd'). split; [done|]. rewrite Hd', Hd1. cbn [mjoin list_join].
    rewrite list_to_set_app_L. set_solver.
Qed.

Lemma batches_join n l : (length l <= n)%nat → mjoin (batches n l) = l.
Proof.
  revert l. induction n as [|n IH]; intros [|x l] Hl; simpl in Hl; try done; [lia|].
  cbn [batches mjoin list_join]. rewrite IH; [apply take_drop|]. rewrite length_drop. simpl. lia.
Qed.

(** A closed and right capture. *)
Definition captured_ok s c : Prop :=
  map_Forall (entry_ok s) c ∧ ∀ k p a, c !! k = Some (Some p, a) → p ∈ dom c.

Lemma capture_rounds_Ok n s c P :
  store_wf s → (∀ k, k ∈ P → (kind_rank k.1 < n)%nat) → map_Forall (entry_ok s) c →
  (∀ k p a, c !! k = Some (Some p, a) → p ∈ dom c ∨ p ∈ P) →
  ∃ r, capture_rounds n c P s = Some r ∧ ∀ c', r = Ok c' → captured_ok s c' ∧ P ∪ dom c ⊆ dom c'.
Proof.
  intros Hs. revert c P. induction n as [|n IH]; intros c P Hr He Hp; cbn [capture_rounds].
  - assert (P = ∅) as -> by (apply leibniz_equiv; intros k; split; [intros Hk%Hr; lia|set_solver]).
    rewrite decide_True by done. eexists. split; [done|]. intros c' [= <-].
    split; [split; [done|]|set_solver]. intros k p a Hk. destruct (Hp k p a Hk); [done|set_solver].
  - destruct (decide (P = ∅)) as [->|Hne].
    { eexists. split; [done|]. intros c' [= <-]. split; [split; [done|]|set_solver].
      intros k p a Hk. destruct (Hp k p a Hk); [done|set_solver]. }
    set (frontier := sort_keys (elements P)).
    destruct (res_foldM _ _ _) as [[c1 f1]|e] eqn:Hf; [|by eexists].
    assert (Hfr : ∀ k, k ∈ frontier ↔ k ∈ P).
    { intros k. unfold frontier. rewrite sort_keys_perm. apply elem_of_elements. }
    destruct (capture_batches_Ok s P n (batches (length frontier) frontier) c ∅ c1 f1) as [[He1 Hp1 Hr1] Hd1]; try done.
    { apply Forall_forall. intros b Hb. apply Forall_forall. intros k Hk.
      assert (k ∈ frontier) as Hk'. { rewrite <- (batches_join (length frontier) frontier) by done.
        apply list_elem_of_join. eauto. }
      apply Hfr, Hr in Hk'. lia. }
    { constructor; [done| |set_solver]. intros k p a Hk. destruct (Hp k p a Hk); auto. }
    rewrite batches_join in Hd1 by done.
    assert (HP : P ⊆ dom c1). { intros k Hk. rewrite Hd1. apply elem_of_union_l, elem_of_list_to_set. by apply Hfr. }
    case_match; [by eexists|].
    destruct (IH c1 (f1 ∖ dom c1)) as (r & Hrun & Hok); [|done| |].
    + intros k Hk. apply Hr1. set_solver.
    + intros k p a Hk. destruct (decide (p ∈ dom c1)); [auto|]. destruct (Hp1 k p a Hk) as [?|[?|?]]; set_solver.
    + exists r. split; [done|]. intros c' Hc'. destruct (Hok c' Hc') as [? Hsub]. split; [done|].
      assert (dom c ⊆ dom c1) by (rewrite Hd1; set_solver). set_solver.
Qed.

Definition resolved_ok s (m : gmap key (option string)) : Prop := map_Forall (placed s) m.

Lemma trail_walk_Ok n s c m k :
  captured_ok s c → resolved_ok s m → k ∈ dom c → (kind_rank k.1 < n)%nat →
  ∃ trail a, trail_walk n c m k = Some (Ok (trail, a)) ∧ placed s k a
    ∧ Forall (λ x, placed s x a) trail ∧ (k ∈ trail ∨ k ∈ dom m).
Proof.
  intros [He Hp] Hm. revert k. induction n as [|n IH]; intros k Hk Hr; [lia|]. cbn [trail_walk].
  destruct (m !! k) as [a|] eqn:Hmk.
  { exists [], a. split_and!; [done|by apply Hm|constructor|]. right. by apply elem_of_dom. }
  apply elem_of_dom in Hk as [[o a] Hck]. rewrite Hck. pose proof (He _ _ Hck) as (it & Hit & Hd & Hpar). simpl in *.
  destruct o as [p|].
  - destruct Hpar as (e & Hpe & -> & -> & Hlab).
    pose proof Hlab as [Hlt _]%str_in_spec%parent_kinds_spec.
    destruct (IH (edge_from e)) as (trail & b & Ht & Hb & Hall & _); [by eapply Hp|simpl; lia|].
    rewrite Ht. simpl. exists (k :: trail), b. assert (placed s k b) by by eapply placed_child.
    split_and!; [done|done|by constructor|]. left. by left.
  - exists [k], a. assert (placed s k a) by by eapply placed_root.
    split_and!; [done|done|by repeat constructor|]. left. by left.
Qed.

Lemma resolve_trail s m trail (a : option string) : resolved_ok s m → Forall (λ x, placed s x a) trail →
  resolved_ok s (foldl (λ m x, <[x := a]> m) m trail)
  ∧ dom (foldl (λ m x, <[x := a]> m) m trail) = list_to_set trail ∪ dom m.
Proof.
  intros Hm Ht. revert m Hm. induction Ht as [|x trail Hx _ IH]; intros m Hm; simpl; [split; [done|set_solver]|].
  destruct (IH (<[x := a]> m)) as [? ->]; [by apply map_Forall_insert_2|].
  split; [done|]. rewrite dom_insert_L. set_solver.
Qed.

Lemma resolve_all_Ok s c m keys : captured_ok s c → resolved_ok s m → (∀ k, k ∈ keys → k ∈ dom c) →
  ∃ m', resolve_all c m keys = Some (Ok m') ∧ resolved_ok s m' ∧ (∀ k, k ∈ keys → k ∈ dom m') ∧ dom m ⊆ dom m'.
Proof.
  intros Hc. revert m. induction keys as [|k keys IH]; intros m Hm Hk; cbn [resolve_all].
  { exists m. split_and!; try done. intros k Hin. by apply elem_of_nil in Hin. }
  destruct (trail_walk_Ok 4 s c m k Hc Hm) as (trail & a & Ht & _ & Hall & Hin); [apply Hk; left|apply kind_rank_bound|].
  rewrite Ht. simpl. destruct (resolve_trail s m trail a Hm Hall) as [Hm1 Hd1].
  destruct (IH _ Hm1) as (m' & Hm' & Hok & Hkeys & Hsub); [intros; apply Hk; by right|].
  exists m'. split_and!; try done; [|rewrite Hd1 in Hsub; set_solver].
  intros k' [->|Hk']%elem_of_cons; [|by apply Hkeys]. apply Hsub. rewrite Hd1. set_solver.
Qed.

(** The loops of the batched routine end, whatever it is asked. *)
Lemma membership_ids_ends keys s : store_wf s →
  ∃ r, capture_rounds 4 ∅ (list_to_set keys) s = Some r
    ∧ ∀ c, r = Ok c → ∃ m, resolve_all c ∅ keys = Some (Ok m) ∧ resolved_ok s m ∧ ∀ k, k ∈ keys → k ∈ dom m.
Proof.
  intros Hs. destruct (capture_rounds_Ok 4 s ∅ (list_to_set keys) Hs) as (r & Hr & Hok);
    [intros; apply kind_rank_bound|done|done|].
  exists r. split; [done|]. intros c ->. destruct (Hok c eq_refl) as [Hc Hsub].
  destruct (resolve_all_Ok s c ∅ keys Hc) as (m' & Hm' & Hok' & Hkeys & _); [done| |by exists m'].
  intros k' Hk'. apply Hsub. set_solver.
Qed.

Lemma membership_ids_Ok keys s m : store_wf s → membership_ids keys s = Ok m →
  ∀ k, k ∈ keys → ∃ a, m !! k = Some a ∧ placed s k a.
Proof.
  intros Hs Hm k Hk. unfold membership_ids in Hm. apply res_bind_Ok in Hm as (? & _ & Hm).
  destruct (membership_ids_ends keys s Hs) as (r & Hr & Hok). rewrite Hr in Hm. simpl in Hm.
  apply res_bind_Ok in Hm as (c & -> & Hm). destruct (Hok c eq_refl) as (m' & Hm' & Hok' & Hkeys).
  rewrite Hm' in Hm. simpl in Hm. injection Hm as <-.
  pose proof (Hkeys k Hk) as [a Ha]%elem_of_dom. exists a. split; [|by apply Hok'].
  by apply map_lookup_filter_Some.
Qed.

End batched.

(** ** Effects of the mutations *)

Section effects.
  Context {PY : Pydantic} {PL : PydanticLaws} {CK : Clock}.
  Implicit Types (s : Store).

Lemma bump_keeps a c : keeps (bump a c).
Proof. unfold bump. keeps_solve. Qed.

Lemma bump_edgeless a c : edgeless (bump a c).
Proof. unfold bump. edgeless_solve. Qed.

#[local] Hint Resolve bump_keeps : keeps.
#[local] Hint Resolve bump_edgeless : edgeless.

Lemma remove_for_parent_keeps w r : keeps (remove_for_parent w r).
Proof. unfold remove_for_parent. keeps_solve. Qed.

Lemma arena_execute_keeps r : keeps (arena_execute r).
Proof.
  unfold arena_execute, arena_execute_body, create_arena, change_arena, _member. keeps_solve.
  by apply create_node_keeps.
Qed.

(** The direct memberships of a work object. *)
Definition members_of (k : key) s : list EdgeRecord :=
  filter (λ e, edge_to e = k ∧ relationship e = "CONTAINS_WORK") (edges s).

Lemma root_rank n original current visited s m :
  membership_walk n original current visited s = Some (Ok m) → (kind_rank (m_root_kind m) <= kind_rank current.1)%nat.
Proof.
  revert current visited. induction n as [|n IH]; intros current visited Hw; [done|].
  cbn [membership_walk] in Hw. destruct (decide _); [done|].
  destruct (_containment _ _ _) as [it|]; [|done].
  destruct (wc_parents it) as [|e [|]]; destruct (_direct_id it) as [o|]; try done.
  - injection Hw as Hw. apply res_bind_Ok in Hw as (ar & _ & Hw). unfold new_membership in Hw.
    case_match; [|done]. by injection Hw as <-.
  - destruct (_ || _) eqn:B; [done|]. bools. apply str_in_spec, parent_kinds_spec in H0 as [Hlt _].
    apply IH in Hw. simpl in *. lia.
Qed.

Lemma containment_Ok k i s it : _containment k i s = Ok it →
  ∃ n, nodes s !! (k, i) = Some n
    ∧ it = Containment n (incoming "HAS_CHILD" (k, i) s) (incoming "CONTAINS_WORK" (k, i) s).
Proof.
  unfold _containment, work_containment, _work_containment. intros Hc.
  apply res_bind_Ok in Hc as (o' & Ho' & Hc). apply res_bind_Ok in Ho' as (? & _ & Ho'). simpl in Ho'.
  destruct (nodes s !! (k, i)) as [n|] eqn:Hn; [|by injection Ho' as <-]. exists n. simpl in Ho'. injection Ho' as <-.
  simpl in Hc. apply res_bind_Ok in Hc as (? & _ & Hc). by injection Hc as <-.
Qed.

(** The direct Arena found is the only membership edge. *)
Lemma direct_id_members n ps k o s : _direct_id (Containment n ps (incoming "CONTAINS_WORK" k s)) = Ok o →
  match o with
  | None => members_of k s = []
  | Some a => ∃ e, members_of k s = [e] ∧ edge_from e = ("Arena", a)
  end.
Proof.
  unfold _direct_id. simpl. unfold incoming. intros Hd.
  apply res_bind_Ok in Hd as (? & B%raise_if_Ok & Hd). apply res_bind_Ok in Hd as (? & _ & Hd).
  injection Hd as <-. unfold members_of. destruct (filter _ (edges s)) as [|e [|e' l]]; simpl in *; bools; [done| |lia].
  exists e. split; [done|]. unfold edge_from. by f_equal.
Qed.

(** A work object that is its own root has no parent, and its memberships are
    exactly the Arena found. *)
Lemma own_root k i s m : store_wf s → membership k i s = Ok m → (m_root_kind m, m_root_id m) = (k, i) →
  incoming "HAS_CHILD" (k, i) s = []
  ∧ match a_id <$> m_arena m with
    | None => members_of (k, i) s = []
    | Some a => ∃ e, members_of (k, i) s = [e] ∧ edge_from e = ("Arena", a)
    end.
Proof.
  intros Hs Hm [= Hk _]. unfold membership in Hm. apply res_bind_Ok in Hm as (? & _ & Hm).
  destruct (membership_walk 4 _ _ _ _) as [r|] eqn:Hw; [|done]. simpl in Hm. subst r.
  pose proof (membership_walk_placed _ _ _ _ _ _ Hs Hw) as Hpl.
  assert (∃ n, membership_walk (S n) (k, i) (k, i) [] s = Some (Ok m)) as [n3 Hw'] by (by exists 3%nat).
  clear Hw. rename Hw' into Hw. cbn [membership_walk] in Hw. rewrite decide_False in Hw by apply not_elem_of_nil.
  destruct (_containment _ _ _) as [it|] eqn:Hc; [|done].
  destruct (wc_parents it) as [|e [|]] eqn:Hp; destruct (_direct_id it) as [o|] eqn:Hd; try done; last first.
  { exfalso. destruct (_ || _) eqn:B in Hw; [done|]. bools. apply str_in_spec, parent_kinds_spec in H0 as [Hlt _].
    apply root_rank in Hw. rewrite Hk in Hw. simpl in *. lia. }
  assert (o = a_id <$> m_arena m) as <-.
  { eapply placed_functional; [|exact Hpl]. by eapply placed_root. }
  apply containment_Ok in Hc as (n & _ & ->). simpl in Hp. split; [done|]. by apply direct_id_members in Hd.
Qed.

Lemma current_Ok ref s a : current ref s = Ok a → get_arena (ref_id ref) s = Ok a ∧ a_version a = ref_version ref.
Proof. unfold current. intros Hc. minv. bools. by subst. Qed.

Lemma get_by_id_key k i s w : store_wf s → get_by_id k i s = Ok w → kind_name (kind w) = k ∧ id w = i.
Proof. intros Hs Hg. destruct (get_holds k i s w Hs Hg) as (p & _ & Hk & _). by injection Hk. Qed.

Lemma members_of_delete k a s : 
  filter (λ e, edge_to e = k ∧ relationship e = "CONTAINS_WORK")
    (filter (λ e, edge_is "Arena" a "CONTAINS_WORK" k.1 k.2 e = false) (edges s))
  = filter (λ e, edge_from e ≠ ("Arena", a)) (members_of k s).
Proof.
  unfold members_of. rewrite !list_filter_filter. apply list_filter_iff. intros e. unfold edge_is.
  rewrite bool_decide_eq_false. unfold edge_from, edge_to. destruct k; simpl. naive_solver congruence.
Qed.

Lemma member_Ok k i v previous target s w s' : store_wf s → _member k i v previous target s = (Ok w, s') →
  ∃ cur m touched,
    get_by_id k i s = Ok cur ∧ version cur = v ∧ archived cur = false
    ∧ membership k i s = Ok m ∧ (m_root_kind m, m_root_id m) = (k, i)
    ∧ a_id <$> m_arena m = ref_id <$> previous ∧ touched_arenas previous target s = Ok touched
    ∧ (∀ ref, target = Some ref → ∀ a, a ∈ touched → a_id a = ref_id ref → a_archived a = false)
    ∧ let es := match previous with
                | Some ref => filter (λ e, edge_is "Arena" (ref_id ref) "CONTAINS_WORK" k i e = false) (edges s)
                | None => edges s
                end in
      edges s' = match target with
                 | Some ref =>
                     let e := Edge "Arena" (ref_id ref) "CONTAINS_WORK" k i ∅ in
                     if decide (e ∈ es) then es else es ++ [e]
                 | None => es
                 end.
Proof.
  intros Hs Hx. unfold _member in Hx. apply M_bind_Ok in Hx as (cur & s1 & Hg & Hx). apply reads_Ok in Hg as [Hg ->].
  destruct (get_by_id_key k i s cur Hs Hg) as [Hk Hi]. unfold work_key in Hx. rewrite Hk, Hi in Hx.
  apply M_bind_Ok in Hx as (? & s1 & [Hv ->]%guard_raise_Ok & Hx).
  apply M_bind_Ok in Hx as (? & s1 & [Ha ->]%guard_raise_Ok & Hx).
  apply M_bind_Ok in Hx as (m & s1 & [Hm ->]%reads_Ok & Hx).
  apply M_bind_Ok in Hx as (? & s1 & [Hroot ->]%guard_raise_Ok & Hx).
  apply M_bind_Ok in Hx as (? & s1 & [Hprev ->]%guard_raise_Ok & Hx).
  apply M_bind_Ok in Hx as (touched & s1 & [Ht ->]%reads_Ok & Hx).
  apply M_bind_Ok in Hx as (? & s1 & [Hlive ->]%guard_raise_Ok & Hx).
  apply M_bind_Ok in Hx as (u1 & s1 & Hdel & Hx). apply M_bind_Ok in Hx as (u2 & s2 & Hadd & Hx).
  apply M_bind_Ok in Hx as (u3 & s3 & Hbump & Hx). bools.
  apply edgeless_Ok in Hbump; [|edgeless_solve]. apply edgeless_Ok in Hx; [|edgeless_solve].
  exists cur, m, touched. split_and!; try done.
  - intros ref -> a Hin Hid. apply not_true_iff_false in Hlive. destruct (a_archived a) eqn:E; [|done].
    destruct Hlive. apply existsb_exists. exists a. split; [by apply list_elem_of_In|]. by rewrite Hid, String.eqb_refl.
  - cbv zeta. rewrite Hx, Hbump.
    assert (He1 : edges s1 = match previous with
      | Some ref => filter (λ e, edge_is "Arena" (ref_id ref) "CONTAINS_WORK" k i e = false) (edges s)
      | None => edges s end).
    { destruct previous as [ref|]; [by apply delete_edge_Ok in Hdel as [_ ->]|]. by apply M_ret_Ok in Hdel as [_ ->]. }
    destruct target as [ref|]; [|apply M_ret_Ok in Hadd as [_ ->]; done].
    apply M_bind_Ok in Hadd as (e & s4 & Hadd & Hret). apply M_ret_Ok in Hret as [_ ->].
    apply create_edge_Ok in Hadd as (-> & _ & _ & _ & Hadd). by rewrite Hadd, He1.
Qed.

Lemma arena_not_canonical p : _is_canonical_payload "Arena" p = false.
Proof. done. Qed.

Lemma update_arena_Ok i p s n s' : update_node "Arena" i p s = (Ok n, s') →
  ∃ old, nodes s !! ("Arena", i) = Some old
    ∧ n = Node (nr_label old) (nr_id old) (p ∪ nr_properties old) (nr_archived old) ∧ s' = put_node ("Arena", i) n s.
Proof.
  unfold update_node. intros Hu. minv. rewrite !arena_not_canonical in *. simpl in *. minv. subst.
  match goal with H : _require_node _ _ _ = Ok ?o |- _ => apply require_node_Ok in H; exists o end.
  rewrite orb_false_r. done.
Qed.

Lemma archive_arena_Ok i p s n s' : archive_node "Arena" i (Some p) s = (Ok n, s') →
  ∃ old, nodes s !! ("Arena", i) = Some old
    ∧ n = Node (nr_label old) (nr_id old) (p ∪ nr_properties old) true ∧ s' = put_node ("Arena", i) n s.
Proof.
  unfold archive_node. intros Hu. minv. rewrite !arena_not_canonical in *. simpl in *. minv. subst.
  match goal with H : _require_node _ _ _ = Ok ?o |- _ => apply require_node_Ok in H; exists o end. done.
Qed.

Lemma arena_properties_names a : dom (arena_properties a) = list_to_set ARENA_PROPERTIES.
Proof. unfold arena_properties. rewrite !dom_insert_L, dom_singleton_L. unfold ARENA_PROPERTIES. set_solver. Qed.

Lemma Arena_of_properties a : arena_ok a = true → Arena_of (a_id a) (arena_properties a) (a_archived a) = Ok a.
Proof.
  intros Ha. unfold Arena_of. rewrite (bool_decide_true (map_Forall _ _)); last first.
  { intros name v Hn. apply elem_of_dom_2 in Hn. rewrite arena_properties_names in Hn. set_solver. }
  unfold str_field, arena_properties. simplify_map_eq. simpl. unfold new_arena.
  destruct a; simpl in *. by rewrite Ha.
Qed.

(** A node that reads as an Arena, with its properties replaced by those of a
    valid Arena. *)
Lemma arena_overwrite n a a' : arena_from_node n = Ok a → arena_ok a' = true → a_id a' = a_id a →
  arena_from_node (Node (nr_label n) (nr_id n) (arena_properties a' ∪ nr_properties n) (a_archived a')) = Ok a'.
Proof.
  unfold arena_from_node. intros Hn Ha Hid. apply rethrow_Ok in Hn. apply res_bind_Ok in Hn as (? & B%raise_if_Ok & Hn).
  bools. assert (arena_properties a' ∪ nr_properties n = arena_properties a') as Hu.
  { unfold Arena_of in Hn. apply res_bind_Ok in Hn as (? & Hall%raise_if_Ok & _). bools.
    apply map_eq. intros name. destruct (nr_properties n !! name) as [v|] eqn:E.
    - apply Hall in E as Hin. assert (is_Some (arena_properties a' !! name)) as [v' Hv'].
      { apply elem_of_dom. rewrite arena_properties_names. set_solver. }
      by rewrite (lookup_union_Some_l _ _ _ v' Hv'), Hv'.
    - rewrite lookup_union, E. by destruct (arena_properties a' !! name). }
  apply Arena_of_id in Hn as (Hi & _). cbn [nr_label nr_id nr_properties nr_archived]. rewrite Hu.
  apply rethrow_Ok. rewrite (bool_decide_false (is_Some (arena_properties a' !! "id"))) by
    (rewrite <- elem_of_dom, arena_properties_names; unfold ARENA_PROPERTIES; set_solver).
  rewrite (bool_decide_false (is_Some (arena_properties a' !! "archived"))) by
    (rewrite <- elem_of_dom, arena_properties_names; unfold ARENA_PROPERTIES; set_solver).
  match goal with H : nr_label n = _ |- _ => rewrite H end. simpl. rewrite <- Hi, <- Hid. by apply Arena_of_properties.
Qed.

Lemma get_arena_Ok i s a : get_arena i s = Ok a ↔
  _ID_PATTERN i = true ∧ ∃ n, nodes s !! ("Arena", i) = Some n ∧ arena_from_node n = Ok a.
Proof.
  unfold get_arena, get_node, require_id. destruct (_ID_PATTERN i); [|naive_solver]. simpl.
  destruct (nodes s !! ("Arena", i)); simpl; naive_solver.
Qed.

Lemma bump_Ok i s a c a' s' : store_wf s → get_arena i s = Ok a → bump a c s = (Ok a', s') →
  get_arena i s' = Ok a' ∧ a_version a' = a_version a + 1 ∧ a_version a' <= MAX_SAFE_INTEGER
  ∧ a_id a' = i ∧ a_title a' = default (a_title a) (ch_title c)
  ∧ a_description a' = default (a_description a) (ch_description c)
  ∧ a_archived a' = ch_archived c || a_archived a.
Proof.
  intros Hs Hg Hb. pose proof (get_arena_id _ _ _ Hs Hg) as Hid. apply get_arena_Ok in Hg as (Hi & n & Hn & Hf).
  unfold bump in Hb. minv. subst.
  match goal with H : new_arena _ = Ok ?x |- _ => apply new_arena_Ok in H as [Hx Hok]; rename x into up end.
  match goal with H : utc_now _ = _ |- _ => unfold utc_now in H; injection H as <- <- end.
  assert (Hup : a_id up = a_id a ∧ a_version up = a_version a + 1 ∧ a_archived up = ch_archived c || a_archived a
    ∧ a_title up = default (a_title a) (ch_title c) ∧ a_description up = default (a_description a) (ch_description c))
    by (by rewrite Hx).
  rewrite <- Hx in Hok. destruct Hup as (Hu1 & Hu2 & Hu3 & Hu4 & Hu5).
  assert (Hver : a_version up <= MAX_SAFE_INTEGER) by (unfold arena_ok in Hok; by bools).
  assert (Ha : nr_archived n = a_archived a).
  { unfold arena_from_node in Hf. apply rethrow_Ok in Hf. apply res_bind_Ok in Hf as (? & _ & Hf).
    by apply Arena_of_id in Hf as (_ & -> & _). }
  pose proof (arena_overwrite n a up Hf Hok Hu1) as How.
  split_and!; try done. apply get_arena_Ok. split; [done|].
  match goal with H : (if _ then _ else _) _ = (Ok ?x, ?t) |- _ => exists x; rename H into Hw, x into n', t into s2 end.
  assert (n' = Node (nr_label n) (nr_id n) (arena_properties up ∪ nr_properties n) (a_archived up)
    ∧ nodes s2 !! ("Arena", a_id a) = Some n') as [-> Hget]; [|done].
  destruct (a_archived up && negb (a_archived a)) eqn:Hc.
  - apply archive_arena_Ok in Hw as (old & Hold & -> & ->). simpl in Hold. rewrite Hn in Hold. injection Hold as <-.
    bools. match goal with H : a_archived up = true |- _ => rewrite H end. split; [done|]. apply lookup_insert_eq.
  - apply update_arena_Ok in Hw as (old & Hold & -> & ->). simpl in Hold. rewrite Hn in Hold. injection Hold as <-.
    split; [|apply lookup_insert_eq]. f_equal. rewrite Ha, Hu3. rewrite Hu3 in Hc.
    by destruct (ch_archived c), (a_archived a).
Qed.

End effects.

#[export] Hint Resolve bump_keeps remove_for_parent_keeps arena_execute_keeps : keeps.
#[export] Hint Resolve bump_edgeless : edgeless.

(** ** Properties *)

Section properties.
  Context {PY : Pydantic} {PL : PydanticLaws} {CK : Clock}.
  Implicit Types (s : Store).

(** The search for a work object's Arena ends on every graph, cyclic and
    ambiguous ones included: four iterations of its loop reach a result, and more
    iterations reach the same one. *)
Theorem membership_ends n original k i s :
  (4 <= n)%nat →
  membership_walk n original (k, i) [] s = membership_walk 4 original (k, i) [] s
  ∧ membership_walk 4 original (k, i) [] s ≠ None.
Proof.
  intros Hn. pose proof (kind_rank_bound k). split; apply (membership_walk_fuel _ 4); simpl; lia.
Qed.

(** The batched placement of many work objects agrees with the walk for each
    of them: its loops end within four iterations, without an answer missing when
    they end without error; and where it and the walk both return, the Arena found
    for a key is the Arena of its membership. *)
Theorem batched_membership_agrees keys s :
  store_wf s →
  (∃ r, capture_rounds 4 ∅ (list_to_set keys) s = Some r
     ∧ ∀ c, r = Ok c → ∃ m, resolve_all c ∅ keys = Some (Ok m) ∧ ∀ k, k ∈ keys → k ∈ dom m)
  ∧ ∀ m k i mem, membership_ids keys s = Ok m → (k, i) ∈ keys → membership k i s = Ok mem →
      m !! (k, i) = Some (a_id <$> m_arena mem).
Proof.
  intros Hs. split.
  { destruct (membership_ids_ends keys s Hs) as (r & Hr & Hok). exists r. split; [done|].
    intros c Hc. destruct (Hok c Hc) as (m & ? & _ & ?). eauto. }
  intros m k i mem Hm Hin Hmem. destruct (membership_ids_Ok keys s m Hs Hm _ Hin) as (a & Ha & Hpl).
  unfold membership in Hmem. apply res_bind_Ok in Hmem as (? & _ & Hmem).
  destruct (membership_walk_fuel 4 4 (k, i) (k, i) [] s) as [_ Hne]; [apply kind_rank_bound..|].
  destruct (membership_walk 4 (k, i) (k, i) [] s) as [r|] eqn:Hw; [|done]. simpl in Hmem. subst r.
  apply membership_walk_placed in Hw; [|done]. rewrite Ha. f_equal. by eapply placed_functional.
Qed.

Lemma member_set_facts k i v previous target s w s' :
  store_wf s →
  arena_execute (arena_member_set k i v previous target) s = (Ok (member_changed w), s') →
  members_of (k, i) s' = match target with
                         | Some ref => [Edge "Arena" (ref_id ref) "CONTAINS_WORK" k i ∅]
                         | None => []
                         end
  ∧ (∀ k', k' ≠ (k, i) → members_of k' s' = members_of k' s)
  ∧ incoming "HAS_CHILD" (k, i) s' = []
  ∧ (∃ cur, get_by_id k i s = Ok cur ∧ version cur = v ∧ archived cur = false)
  ∧ (∀ ref, target = Some ref →
       ∃ a, get_arena (ref_id ref) s = Ok a ∧ a_version a = ref_version ref ∧ a_archived a = false).
Proof.
  intros Hs Hx. unfold arena_execute, work_mutation_transaction in Hx.
  apply transaction_graph in Hx as (s0 & s1 & Hb & [Hn0 He0] & [_ Hs0] & [Hn1 He1]). specialize (Hs0 Hs).
  cbn [arena_execute_body] in Hb. minv.
  match goal with H : _member _ _ _ _ _ _ = _ |- _ => apply member_Ok in H; [|done];
    destruct H as (cur & m & touched & Hg & Hv & Ha & Hm & Hroot & Hprev & Htouch & Hlive & He) end.
  destruct (own_root k i s0 m Hs0 Hm Hroot) as [Hpar Hmem]. rewrite Hprev in Hmem.
  cbv zeta in He. rewrite <- He1 in He. rewrite He0 in He.
  assert (Hout : ∀ k', members_of k' s0 = members_of k' s) by (intros; unfold members_of; by rewrite He0).
  rewrite Hout in Hmem.
  set (es := match previous with Some _ => _ | None => _ end) in He.
  assert (Hes : filter (λ e, edge_to e = (k, i) ∧ relationship e = "CONTAINS_WORK") es = []).
  { unfold es. destruct previous as [ref|]; simpl in Hmem; [|done].
    rewrite (members_of_delete (k, i)). destruct Hmem as (e & -> & Hfrom).
    rewrite filter_cons, decide_False by (by intros []). apply filter_nil. }
  assert (Hoth : ∀ (P : EdgeRecord → Prop) `{!∀ x, Decision (P x)},
    (∀ e, P e → ¬ (edge_to e = (k, i) ∧ relationship e = "CONTAINS_WORK")) → filter P (edges s') = filter P (edges s)).
  { intros P HP Hne. assert (filter P es = filter P (edges s)) as Hd.
    { unfold es. destruct previous as [ref|]; [|done]. rewrite list_filter_filter. apply list_filter_iff. intros e.
      split; [tauto|]. intros HPe. split; [done|]. apply bool_decide_eq_false. intros [= H1 H2 H3 H4 H5].
      apply (Hne e HPe). unfold edge_to. by rewrite H3, H4, H5. }
    rewrite He. destruct target as [ref|]; [|done]. case_decide; [done|]. rewrite filter_app, Hd.
    rewrite filter_cons, decide_False, filter_nil by (intros HPe; by apply (Hne _ HPe)). apply app_nil_r. }
  split_and!.
  - unfold members_of. rewrite He. destruct target as [ref|]; [|done].
    rewrite decide_False; [rewrite filter_app, Hes; by rewrite filter_cons, decide_True, filter_nil|].
    intros Hin. eapply not_elem_of_nil. rewrite <- Hes. apply list_elem_of_filter. by split; [|exact Hin].
  - intros k' Hk'. unfold members_of. apply Hoth. intros e [<- _] [? _]. congruence.
  - unfold incoming in *. rewrite Hoth; [by rewrite <- He0|]. intros e [_ Hr] [_ Hr']. congruence.
  - exists cur. split_and!; [|done|done]. rewrite <- Hg. unfold get_by_id, get_node. by rewrite Hn0.
  - intros ref ->. unfold touched_arenas in Htouch. apply res_bind_Ok in Htouch as (p & _ & Htouch).
    apply res_bind_Ok in Htouch as (t & Ht & Htouch). apply res_bind_Ok in Ht as (a & [Ha' Hv']%current_Ok & Ht).
    injection Ht as <-. injection Htouch as <-. exists a.
    assert (a_id a = ref_id ref) as Hid by (by eapply get_arena_id).
    split_and!; [rewrite <- Ha'; unfold get_arena, get_node; by rewrite Hn0|done|].
    apply (Hlive ref eq_refl a); [|done]. destruct p as [|x [|y p]];
      [by left|destruct (String.eqb _ _); [by left|right; by left]|apply elem_of_app; right; by left].
Qed.

(** Setting a direct Arena membership is exact: the member is live, parentless
    and at the expected version, its membership was the one named as previous, the
    target Arena is live and at its expected version; afterwards the member's only
    membership is the target (or none), it is still parentless, and no other work
    object's membership changed. *)
Theorem member_set_exact k i v previous target s w s' :
  store_wf s →
  arena_execute (arena_member_set k i v previous target) s = (Ok (member_changed w), s') →
  members_of (k, i) s' = match target with
                         | Some ref => [Edge "Arena" (ref_id ref) "CONTAINS_WORK" k i ∅]
                         | None => []
                         end
  ∧ (∀ k', k' ≠ (k, i) → members_of k' s' = members_of k' s)
  ∧ incoming "HAS_CHILD" (k, i) s' = []
  ∧ (∃ cur, get_by_id k i s = Ok cur ∧ version cur = v ∧ archived cur = false)
  ∧ (∀ ref, target = Some ref →
       ∃ a, get_arena (ref_id ref) s = Ok a ∧ a_version a = ref_version ref ∧ a_archived a = false).
Proof. apply member_set_facts. Qed.

(** Arena records are written with compare-and-set and read back: creating
    starts at version 1 under a free identifier; a patch or an archival succeeds
    only for a live Arena at the expected version and leaves it at the next one,
    within the bound on safe integers, changing only the named fields; and the
    Arena returned is the Arena the storage then returns. *)
Theorem arena_read_back r s a s' :
  store_wf s → arena_execute r s = (Ok (arena_changed a), s') →
  get_arena (a_id a) s' = Ok a ∧ a_version a <= MAX_SAFE_INTEGER
  ∧ match r with
    | arena_create i t d => nodes s !! ("Arena", i) = None ∧ a_id a = i ∧ a_title a = t ∧ a_description a = d
        ∧ a_version a = 1 ∧ a_archived a = false
    | arena_patch i v t d => ∃ old, get_arena i s = Ok old ∧ a_version old = v ∧ a_archived old = false
        ∧ a_id a = i ∧ a_version a = v + 1 ∧ a_archived a = false
        ∧ a_title a = default (a_title old) t ∧ a_description a = default (a_description old) d
    | arena_archive i v => ∃ old, get_arena i s = Ok old ∧ a_version old = v ∧ a_archived old = false
        ∧ a_id a = i ∧ a_version a = v + 1 ∧ a_archived a = true
        ∧ a_title a = a_title old ∧ a_description a = a_description old
    | arena_member_set _ _ _ _ _ => False
    end.
Proof.
  intros Hs Hx. unfold arena_execute, work_mutation_transaction in Hx.
  apply transaction_graph in Hx as (s0 & s1 & Hb & [Hn0 He0] & [_ Hs0] & [Hn1 He1]). specialize (Hs0 Hs).
  assert (Hread : ∀ i b, get_arena i s1 = Ok b → get_arena i s' = Ok b).
  { intros i b. rewrite !get_arena_Ok, Hn1. done. }
  assert (Hread0 : ∀ i b, get_arena i s0 = Ok b → get_arena i s = Ok b).
  { intros i b. rewrite !get_arena_Ok, Hn0. done. }
  assert (Hchange : ∀ i v c a, change_arena i v c s0 = (Ok a, s1) →
    get_arena (a_id a) s' = Ok a ∧ a_version a <= MAX_SAFE_INTEGER ∧
    ∃ old, get_arena i s = Ok old ∧ a_version old = v ∧ a_archived old = false
        ∧ a_id a = i ∧ a_version a = v + 1 ∧ a_archived a = ch_archived c
        ∧ a_title a = default (a_title old) (ch_title c) ∧ a_description a = default (a_description old) (ch_description c)).
  { intros i v c a0 Hc. unfold change_arena in Hc. apply M_bind_Ok in Hc as (old & s2 & [Hcur ->]%reads_Ok & Hc).
    apply current_Ok in Hcur as [Hg Hv]. simpl in Hg, Hv.
    apply M_bind_Ok in Hc as (? & s2 & [Ha ->]%guard_raise_Ok & Hc).
    destruct (bump_Ok i s0 old c a0 s1 Hs0 Hg Hc) as (H1 & H2 & H3 & H4 & H5 & H6 & H7).
    rewrite Ha, orb_false_r in H7. rewrite H4. split; [by apply Hread|]. split; [done|].
    exists old. split_and!; auto; congruence. }
  destruct r as [i t d|i v t d|i v|k i v p t]; cbn [arena_execute_body] in Hb.
  - apply M_bind_Ok in Hb as (b & s2 & Hb & Hret). apply M_ret_Ok in Hret as [[= ->] ->].
    unfold create_arena in Hb. minv. subst.
    match goal with H : new_arena _ = _ |- _ => apply new_arena_Ok in H as [-> Hok] end.
    match goal with H : utc_now _ = _ |- _ => unfold utc_now in H; injection H as <- <- end.
    match goal with H : create_node _ _ _ _ = (Ok ?x, _) |- _ => apply create_node_Ok in H as (Hno & -> & Hkey & Har & Hid & Hp);
      rename x into n end.
    simpl in *. rewrite Hn0 in Hno. unfold nr_key in Hkey. injection Hkey as Hl Hi.
    split_and!; try done.
    apply Hread, get_arena_Ok. split; [done|]. exists n. split; [apply lookup_insert_eq|].
    unfold arena_from_node. rewrite Hp, Hl, Hi, Har. apply rethrow_Ok. simpl.
    apply (Arena_of_properties _ Hok).
  - apply M_bind_Ok in Hb as (b & s2 & Hb & Hret). apply M_ret_Ok in Hret as [[= ->] ->].
    destruct (Hchange _ _ _ _ Hb) as (H1 & H2 & old & H3). split; [done|]. split; [done|]. by exists old.
  - apply M_bind_Ok in Hb as (b & s2 & Hb & Hret). apply M_ret_Ok in Hret as [[= ->] ->].
    destruct (Hchange _ _ _ _ Hb) as (H1 & H2 & old & H3). split; [done|]. split; [done|]. by exists old.
  - apply M_bind_Ok in Hb as (b & s2 & Hb & Hret). by apply M_ret_Ok in Hret as [? _].
Qed.

End properties.

(** ** Witnesses *)

Section witnesses.

#[local] Existing Instance reference_pydantic.
#[local] Existing Instance reference_pydantic_laws.
#[local] Existing Instance epoch_clock.

Definition ex_work (k : Kind) (i : string) : WorkObject :=
  match post_init (new_work k i "t" epoch epoch) with Ok w => w | Err _ => new_work k i "t" epoch epoch end.

(** Arena a contains Initiative i, whose child is Task t; Task u stands alone. *)
Definition ex_arena_program : M Store unit :=
  arena_execute (arena_create "a" "Arena" "");;
  create (ex_work KInitiative "i");;
  create (ex_work KTask "t");;
  create (ex_work KTask "u");;
  create_edge "Initiative" "i" "HAS_CHILD" "Task" "t" ∅;;
  create_edge "Arena" "a" "CONTAINS_WORK" "Initiative" "i" ∅;;
  mret tt.

Definition ex_arena_store : Store := (ex_arena_program empty_store).2.

Lemma ex_arena_store_wf : store_wf ex_arena_store.
Proof.
  assert (Hk : keeps ex_arena_program). { unfold ex_arena_program; keeps_solve;
    first [apply arena_execute_keeps | apply create_edge_keeps]. }
  apply Hk, empty_store_wf.
Defined.

Lemma membership_ends_witness :
  membership_walk 100 ("Task", "t") ("Task", "t") [] ex_arena_store ≠ None.
Proof.
  destruct (membership_ends 100 ("Task", "t") "Task" "t" ex_arena_store ltac:(lia)) as [Heq Hne].
  rewrite Heq. exact Hne.
Defined.

Definition ex_keys : list key := [("Task", "t"); ("Initiative", "i"); ("Task", "u")].

Lemma batched_membership_agrees_witness : ∃ m mem,
  membership_ids ex_keys ex_arena_store = Ok m ∧ membership "Task" "t" ex_arena_store = Ok mem
  ∧ m !! ("Task", "t") = Some (a_id <$> m_arena mem).
Proof.
  assert (Hok : is_ok (membership_ids ex_keys ex_arena_store)
                && is_ok (membership "Task" "t" ex_arena_store) = true) by (vm_compute; reflexivity).
  destruct (membership_ids ex_keys ex_arena_store) as [m|] eqn:E1; [|discriminate Hok].
  destruct (membership "Task" "t" ex_arena_store) as [mem|] eqn:E2; [|discriminate Hok].
  exists m, mem. split; [reflexivity|]. split; [reflexivity|].
  exact (proj2 (batched_membership_agrees ex_keys ex_arena_store ex_arena_store_wf) m "Task" "t" mem E1
    (list_elem_of_here _ _) E2).
Defined.

Definition ex_ref : ArenaReference := {| ref_id := "a"; ref_version := 1 |}.

Lemma member_set_exact_witness : ∃ w s',
  arena_execute (arena_member_set "Task" "u" 1 None (Some ex_ref)) ex_arena_store = (Ok (member_changed w), s')
  ∧ members_of ("Task", "u") s' = [Edge "Arena" "a" "CONTAINS_WORK" "Task" "u" ∅].
Proof.
  destruct (arena_execute (arena_member_set "Task" "u" 1 None (Some ex_ref)) ex_arena_store) as [[[a|w]|e] s'] eqn:E.
  - exfalso. assert (Hno : match (arena_execute (arena_member_set "Task" "u" 1 None (Some ex_ref)) ex_arena_store).1 with
                           | Ok (arena_changed _) => true | _ => false end = false) by (vm_compute; reflexivity).
    rewrite E in Hno. discriminate Hno.
  - exists w, s'. split; [reflexivity|].
    exact (proj1 (member_set_exact "Task" "u" 1 None (Some ex_ref) ex_arena_store w s' ex_arena_store_wf E)).
  - exfalso. assert (Hok : is_ok (arena_execute (arena_member_set "Task" "u" 1 None (Some ex_ref)) ex_arena_store).1 = true)
      by (vm_compute; reflexivity). rewrite E in Hok. discriminate Hok.
Defined.

Lemma arena_read_back_witness : ∃ a s',
  arena_execute (arena_archive "a" 1) ex_arena_store = (Ok (arena_changed a), s') ∧ get_arena (a_id a) s' = Ok a.
Proof.
  destruct (arena_execute (arena_archive "a" 1) ex_arena_store) as [[[a|w]|e] s'] eqn:E.
  - exists a, s'. split; [reflexivity|].
    exact (proj1 (arena_read_back (arena_archive "a" 1) ex_arena_store a s' ex_arena_store_wf E)).
  - exfalso. assert (Hno : match (arena_execute (arena_archive "a" 1) ex_arena_store).1 with
                           | Ok (member_changed _) => true | _ => false end = false) by (vm_compute; reflexivity).
    rewrite E in Hno. discriminate Hno.
  - exfalso. assert (Hok : is_ok (arena_execute (arena_archive "a" 1) ex_arena_store).1 = true)
      by (vm_compute; reflexivity). rewrite E in Hok. discriminate Hok.
Defined.

(** A base Todo passes the kind check of [membership], whose result type then
    refuses its root kind. *)
Lemma todo_membership_raises :
  membership "Todo" "t" (create (ex_work KTodo "t") empty_store).2 = Err (ValidationError "ArenaMembership").
Proof. vm_compute. reflexivity. Qed.

End witnesses.
