(* ===== verification/Sessions.v ===== *)
(** * Sessions: references, links, attribution and disposition

    [src/devgraph/observability/session_ref.py] (identities, references and
    links), [session_contract.py] (the [session.attach] payload),
    [session_registry.py] (the writes) and [session_work_state.py] (the
    disposition of a session).  A reference is stored under the digest of its
    identity, a link under the digest of its source event. *)

From stdpp Require Import base gmap strings list sorting.
From Stdlib Require Import ZArith Ascii String.
From S2P Require Import Prelude Json Sha256 Datetime Validation WorkflowContract Model Storage StorageWf StorageReads Repository.

Local Open Scope Z_scope.

(** ** UTC times *)

(** One day later or earlier; [None] outside the years 1 to 9999. *)
Definition next_day (y m d : Z) : option (Z * Z * Z) :=
  if d <? days_in_month y m then Some (y, m, d + 1)
  else if m <? 12 then Some (y, m + 1, 1)
  else if y <? 9999 then Some (y + 1, 1, 1) else None.

Definition previous_day (y m d : Z) : option (Z * Z * Z) :=
  if 1 <? d then Some (y, m, d - 1)
  else if 1 <? m then Some (y, m - 1, days_in_month y (m - 1))
  else if 1 <? y then Some (y - 1, 12, 31) else None.

(** [value.astimezone(timezone.utc)] of an aware time. *)
Definition astimezone_utc (d : datetime) : res datetime :=
  let t := hour d * 3600 + minute d * 60 + second d - default 0 (utcoffset d) in
  let day' := if t <? 0 then previous_day (year d) (month d) (day d)
              else if 86400 <=? t then next_day (year d) (month d) (day d)
              else Some (year d, month d, day d) in
  match day' with
  | Some (y, m, dd) =>
      let u := t mod 86400 in
      Ok (Datetime y m dd (u / 3600) (u / 60 mod 60) (u mod 60) (microsecond d) (Some 0))
  | None => Err (OverflowError "date value out of range")
  end.

(** ** Identifiers *)

Definition APPLICATION_TYPES : list (string * string) :=
  [("hermes", "HermesSessionRef"); ("codex", "CodexSessionRef"); ("claude-code", "ClaudeSessionRef");
   ("grok", "GrokSessionRef")].

(** [[A-Za-z0-9][A-Za-z0-9._~-]{0,255}]. *)
Definition _OPAQUE (s : string) : bool :=
  match s with
  | EmptyString => false
  | String c s' => is_alnum c && str_forall (λ c, is_alnum c || has_char c "._~-") s' && (str_len s <=? 256)
  end.

(** [[a-z][a-z0-9-]{0,63}]. *)
Definition _APPLICATION (s : string) : bool :=
  match s with
  | EmptyString => false
  | String c s' => is_lower c && str_forall (λ c, is_lower c || is_digit c || Ascii.eqb c "-") s' && (str_len s <=? 64)
  end.

(** [[A-Za-z0-9][A-Za-z0-9._~:/-]{0,511}]. *)
Definition _AUTHORITY_ID (s : string) : bool :=
  match s with
  | EmptyString => false
  | String c s' => is_alnum c && str_forall (λ c, is_alnum c || has_char c "._~:/-") s' && (str_len s <=? 512)
  end.

Definition opaque (s : string) : res string :=
  if _OPAQUE s then Ok s else Err (ValueError "invalid_session_identifier").

Definition timestamp (d : datetime) : res string :=
  raise_if (negb (aware d)) (ValueError "session_timestamp_requires_timezone");;
  u ← astimezone_utc d;
  Ok (isoformat u).

Definition digest_id (prefix : string) (v : value) : string := prefix +:+ sha256_hex (dumps true v).

(** ** Identities *)

Record SessionIdentity := {
  application : string;
  source_instance_id : string;
  external_session_id : string
}.

#[export] Instance SessionIdentity_eq_dec : EqDecision SessionIdentity.
Proof. solve_decision. Defined.

(** [SessionIdentity(...)] with [__post_init__]. *)
Definition new_identity (a src ext : string) : res SessionIdentity :=
  raise_if (negb (_APPLICATION a)) (ValueError "invalid_session_application");;
  opaque src;;
  opaque ext;;
  Ok {| application := a; source_instance_id := src; external_session_id := ext |}.

Definition identity_fields (i : SessionIdentity) : list (string * value) :=
  [("application", VStr (application i)); ("source_instance_id", VStr (source_instance_id i));
   ("external_session_id", VStr (external_session_id i))].

Definition identity_id (i : SessionIdentity) : string := digest_id "sr-" (VDict (identity_fields i)).

Definition ref_type (i : SessionIdentity) : string :=
  default "SessionRef" (dict_get (application i) APPLICATION_TYPES).

(** ** References *)

Record SessionRef := {
  identity : SessionIdentity;
  actor_id : string;
  session_id : string;
  correlation_id : string;
  ref_created_at : datetime
}.

#[export] Instance SessionRef_eq_dec : EqDecision SessionRef.
Proof. solve_decision. Defined.

(** [SessionRef(...)] with [__post_init__]; the identity is already checked. *)
Definition new_ref (i : SessionIdentity) (actor session correlation : string) (created : datetime) : res SessionRef :=
  raise_if (negb (_AUTHORITY_ID actor && _AUTHORITY_ID session && _AUTHORITY_ID correlation))
    (ValueError "invalid_session_authority_identifier");;
  timestamp created;;
  Ok {| identity := i; actor_id := actor; session_id := session; correlation_id := correlation;
        ref_created_at := created |}.

Definition sref_id (r : SessionRef) : string := identity_id (identity r).

Definition ref_properties (r : SessionRef) : res props :=
  t ← timestamp (ref_created_at r);
  Ok (list_to_map ([("kind", VStr "SessionRef"); ("schema_version", VInt 1)] ++ identity_fields (identity r)
    ++ [("ref_type", VStr (ref_type (identity r))); ("actor_id", VStr (actor_id r));
        ("session_id", VStr (session_id r)); ("correlation_id", VStr (correlation_id r)); ("created_at", VStr t)])).

Definition REF_FIELDS : list string :=
  ["schema_version"; "application"; "source_instance_id"; "external_session_id"; "ref_type"; "actor_id";
   "session_id"; "correlation_id"; "created_at"].

(** A [str] property, with the class raised for another type. *)
Definition text_of (e : exn) (name : string) (p : props) : res string :=
  match p !! name with Some (VStr t) => Ok t | _ => Err e end.

(** [SessionRef.from_node_properties]. *)
Definition SessionRef_of (ref_id : string) (properties : props) : res SessionRef :=
  raise_if (negb (bool_decide (default (VStr "SessionRef") (properties !! "kind") = VStr "SessionRef")))
    (ValueError "session_identity_conflict");;
  let p := delete "kind" properties in
  raise_if (negb (bool_decide (dom p = list_to_set (C := gset string) REF_FIELDS))) (ValueError "invalid_session_ref_shape");;
  v ← match p !! "schema_version" with Some (VInt z) => Ok z | _ => Err (ValueError "invalid_session_ref_shape") end;
  raise_if (negb (v =? 1)) (ValueError "unsupported_session_ref_version");;
  a ← text_of (ValueError "invalid_session_application") "application" p;
  raise_if (negb (_APPLICATION a)) (ValueError "invalid_session_application");;
  src ← text_of (ValueError "invalid_session_identifier") "source_instance_id" p;
  ext ← text_of (ValueError "invalid_session_identifier") "external_session_id" p;
  i ← new_identity a src ext;
  raise_if (negb (String.eqb ref_id (identity_id i)) || negb (bool_decide (p !! "ref_type" = Some (VStr (ref_type i)))))
    (ValueError "session_identity_conflict");;
  t ← text_of (TypeError "fromisoformat: argument must be str") "created_at" p;
  created ← of_option (ValueError "Invalid isoformat string") (fromisoformat t);
  actor ← text_of (ValueError "invalid_session_authority_identifier") "actor_id" p;
  session ← text_of (ValueError "invalid_session_authority_identifier") "session_id" p;
  correlation ← text_of (ValueError "invalid_session_authority_identifier") "correlation_id" p;
  new_ref i actor session correlation created.

(** ** Links *)

Record SessionLink := {
  l_source_instance_id : string;
  l_event_id : string;
  l_attempt_id : string;
  l_relation : string;
  l_origin : SessionIdentity;
  l_target : SessionIdentity;
  l_observed_at : datetime;
  l_basis : string
}.

Definition RELATIONS : list string := ["delegated_to"; "forked_from"; "uses_runtime"].

(** [SessionLink.__post_init__]. *)
Definition new_link (l : SessionLink) : res SessionLink :=
  opaque (l_source_instance_id l);;
  opaque (l_event_id l);;
  opaque (l_attempt_id l);;
  raise_if (negb (str_in (l_relation l) RELATIONS)) (ValueError "invalid_session_relation");;
  raise_if (negb (str_in (l_basis l) ["declared"; "source_observed"])) (ValueError "invalid_session_link_basis");;
  raise_if (bool_decide (l_origin l = l_target l)) (ValueError "self_session_link");;
  timestamp (l_observed_at l);;
  Ok l.

Definition link_id (l : SessionLink) : string :=
  digest_id "sl-" (VList [VStr (l_source_instance_id l); VStr (l_event_id l)]).

Definition slink_properties (l : SessionLink) : res props :=
  t ← timestamp (l_observed_at l);
  Ok (list_to_map [("kind", VStr "SessionLink"); ("schema_version", VInt 1);
    ("source_instance_id", VStr (l_source_instance_id l)); ("event_id", VStr (l_event_id l));
    ("attempt_id", VStr (l_attempt_id l)); ("relation", VStr (l_relation l));
    ("origin_id", VStr (identity_id (l_origin l))); ("target_id", VStr (identity_id (l_target l)));
    ("observed_at", VStr t); ("basis", VStr (l_basis l))]).

Definition work_ref (v : string) : res key :=
  match split_all slash v with
  | [k; i] =>
      raise_if (negb (str_in k WORK_KINDS)) (ValueError "invalid_session_work_ref");;
      require_id i;; Ok (k, i)
  | _ => Err (ValueError "invalid_session_work_ref")
  end.

(** ** The [session.attach] payload *)

(** [t] with [d] for a digit, matched at the head of [s]. *)
Fixpoint match_template (t s : string) : option string :=
  match t, s with
  | EmptyString, _ => Some s
  | String c t', String x s' =>
      if (if Ascii.eqb c "d" then is_digit x else Ascii.eqb c x) then match_template t' s' else None
  | _, _ => None
  end.

(** [UTC.fullmatch]. *)
Definition utc_pattern (s : string) : bool :=
  match match_template "dddd-dd-ddTdd:dd:dd" s with
  | Some rest =>
      let tail := match expect "." rest with
                  | Some f => let '(ds, r) := span is_digit f in
                              if (1 <=? str_len ds) && (str_len ds <=? 6) then r else "x"
                  | None => rest
                  end in
      String.eqb tail "Z" || String.eqb tail "+00:00"
  | None => false
  end.

(** [value.replace("Z", "+00:00")]. *)
Fixpoint replace_zulu (s : string) : string :=
  match s with
  | EmptyString => ""
  | String c s' => (if Ascii.eqb c "Z" then "+00:00" else String c "") +:+ replace_zulu s'
  end.

Definition observed_time (v : string) : res datetime :=
  raise_if (negb (utc_pattern v)) (ValueError "invalid_session_observation_time");;
  d ← of_option (ValueError "Invalid isoformat string") (fromisoformat (replace_zulu v));
  raise_if (negb (bool_decide (utcoffset d = Some 0))) (ValueError "invalid_session_observation_time");;
  Ok d.

Definition NativeIdentity_of (v : value) : res SessionIdentity :=
  d ← as_dict "NativeIdentity" v;
  forbid_extra "NativeIdentity" ["application"; "source_instance_id"; "external_session_id"] d;;
  a ← required "NativeIdentity" "application" (as_text "NativeIdentity") d;
  src ← required "NativeIdentity" "source_instance_id" (as_text "NativeIdentity") d;
  ext ← required "NativeIdentity" "external_session_id" (as_text "NativeIdentity") d;
  rethrow is_value_error (λ _, ValidationError "NativeIdentity") (new_identity a src ext).

(** The validated witness as the link [LinkWitness.link] builds from it. *)
Definition LinkWitness_of (v : value) : res SessionLink :=
  d ← as_dict "LinkWitness" v;
  forbid_extra "LinkWitness" ["source_instance_id"; "event_id"; "attempt_id"; "relation"; "origin"; "target";
                              "observed_at"; "basis"] d;;
  src ← required "LinkWitness" "source_instance_id" (as_text "LinkWitness") d;
  ev ← required "LinkWitness" "event_id" (as_text "LinkWitness") d;
  att ← required "LinkWitness" "attempt_id" (as_text "LinkWitness") d;
  rel ← required "LinkWitness" "relation" (as_literal "LinkWitness" RELATIONS) d;
  origin ← required "LinkWitness" "origin" NativeIdentity_of d;
  target ← required "LinkWitness" "target" NativeIdentity_of d;
  obs ← required "LinkWitness" "observed_at" (as_text "LinkWitness") d;
  b ← required "LinkWitness" "basis" (as_literal "LinkWitness" ["declared"; "source_observed"]) d;
  rethrow is_value_error (λ _, ValidationError "LinkWitness")
    (t ← observed_time obs;
     new_link {| l_source_instance_id := src; l_event_id := ev; l_attempt_id := att; l_relation := rel;
                 l_origin := origin; l_target := target; l_observed_at := t; l_basis := b |}).

Record SessionAttach := {
  at_session : SessionIdentity;
  at_observed_at : string;
  at_basis : string;
  at_link : option SessionLink
}.

Definition SessionAttach_of (v : value) : res SessionAttach :=
  d ← as_dict "SessionAttach" v;
  forbid_extra "SessionAttach" ["session"; "observed_at"; "basis"; "link"] d;;
  sess ← required "SessionAttach" "session" NativeIdentity_of d;
  obs ← required "SessionAttach" "observed_at" (as_text "SessionAttach") d;
  rethrow is_value_error (λ _, ValidationError "SessionAttach") (observed_time obs);;
  b ← required "SessionAttach" "basis" (as_literal "SessionAttach" ["inspected"; "declared_scope"; "source_observed"]) d;
  l ← optional "link" None
        (λ v, match v with VNone => Ok None | _ => x ← LinkWitness_of v; Ok (Some x) end) d;
  check "SessionAttach" (match l with
                         | Some x => bool_decide (sess = l_origin x) || bool_decide (sess = l_target x)
                         | None => true
                         end);;
  Ok {| at_session := sess; at_observed_at := obs; at_basis := b; at_link := l |}.

Definition SessionStateSet_of (v : value) : res string :=
  d ← as_dict "SessionStateSet" v;
  forbid_extra "SessionStateSet" ["state"] d;;
  required "SessionStateSet" "state" (as_literal "SessionStateSet" ["open"; "done"]) d.

(** [SessionAttach.resources], before sorting. *)
Definition attach_resources (a : SessionAttach) : gset string :=
  let identities := at_session a :: match at_link a with Some l => [l_origin l; l_target l] | None => [] end in
  list_to_set (match at_link a with Some l => ["SessionLink/" +:+ link_id l] | None => [] end
               ++ map (λ i, "SessionRef/" +:+ identity_id i) identities).

(** ** The registry *)

Section registry.
  Context `{Pydantic, Clock}.

(** [SessionRef(identity, actor_id, session_id, correlation_id)], created now. *)
Definition ref_now (i : SessionIdentity) (actor session correlation : string) : M Store SessionRef :=
  now ← utc_now; lift (new_ref i actor session correlation now).

Definition _put (r : SessionRef) : M Store SessionRef :=
  o ← reads (get_node "SessionRef" (sref_id r));
  match o with
  | Some n => lift (SessionRef_of (nr_id n) (nr_properties n))
  | None => p ← lift (ref_properties r); create_node "SessionRef" (sref_id r) p;; mret r
  end.

Definition put (r : SessionRef) : M Store SessionRef := transaction (_put r).

Definition link_body (origin target : SessionRef) (l : SessionLink) : M Store unit :=
  previous ← reads (get_node "SessionLink" (link_id l));
  match previous with
  | Some n =>
      p ← lift (slink_properties l);
      guard_raise (negb (bool_decide (nr_properties n ∪ {["kind" := VStr "SessionLink"]} = p)))
        (ValueError "session_event_conflict")
  | None =>
      _put origin;;
      _put target;;
      p ← lift (slink_properties l);
      create_node "SessionLink" (link_id l) p;;
      create_edge "SessionLink" (link_id l) "SESSION_LINK_ORIGIN" "SessionRef" (sref_id origin) ∅;;
      create_edge "SessionLink" (link_id l) "SESSION_LINK_TARGET" "SessionRef" (sref_id target) ∅;;
      mret tt
  end.

Definition link (origin target : SessionRef) (l : SessionLink) : M Store unit :=
  guard_raise (negb (bool_decide (l_origin l = identity origin)) || negb (bool_decide (l_target l = identity target)))
    (ValueError "session_link_endpoint_conflict");;
  transaction (link_body origin target l).

Definition BASES : list string := ["explicit"; "inspected"; "declared_scope"; "source_observed"].

Definition attach_properties (basis : string) (expected_version : Z) (observed_at : option string) : props :=
  <["basis" := VStr basis]> (<["work_version" := VInt expected_version]>
    match observed_at with Some t => {["observed_at" := VStr t]} | None => ∅ end).

Definition attach_body (r : SessionRef) (k : key) (expected_version : Z) (p : props) : M Store unit :=
  o ← reads (get_node k.1 k.2);
  n ← lift (of_option (KeyError "missing_session_work_subject") o);
  guard_raise (negb (bool_decide (nr_properties n !! "version" = Some (VInt expected_version))))
    (ValueError "session_work_version_conflict");;
  _put r;;
  c ← reads (session_ref_context (sref_id r) 100);
  let '(work_refs, _, bounded) := c in
  if existsb (λ b : props, bool_decide (b !! "key" = Some (VStr (resource_of k)))) work_refs then mret tt
  else
    guard_raise bounded (ValueError "session_attribution_capacity");;
    create_edge k.1 k.2 "ATTRIBUTED_TO_SESSION" "SessionRef" (sref_id r) p;;
    mret tt.

Definition attach (r : SessionRef) (work : string) (expected_version : Z) (basis : string)
    (observed_at : option string) : M Store unit :=
  k ← lift (work_ref work);
  lift (require_version expected_version);;
  guard_raise (negb (str_in basis BASES)) (ValueError "invalid_session_attribution_basis");;
  match observed_at with Some t => lift (observed_time t);; mret tt | None => mret tt end;;
  transaction (attach_body r k expected_version (attach_properties basis expected_version observed_at)).

(** ** Disposition *)

Record SessionWorkState := {
  sw_id : string;
  sw_state : value;
  sw_version : Z;
  sw_updated_at : value;
  sw_updated_by : value;
  sw_correlation_id : value
}.

Definition STATE_FIELDS : list string := ["state"; "version"; "updated_at"; "updated_by"; "correlation_id"].

Definition unhashable (v : value) : bool := match v with VList _ | VDict _ => true | _ => false end.

Definition read_state (ref_id : string) (s : Store) : res SessionWorkState :=
  o ← get_node "SessionWorkState" ref_id s;
  match o with
  | None => Ok {| sw_id := ref_id; sw_state := VStr "unreviewed"; sw_version := 1; sw_updated_at := VNone;
                  sw_updated_by := VNone; sw_correlation_id := VNone |}
  | Some n =>
      let p := delete "kind" (nr_properties n) in
      raise_if (negb (bool_decide (dom p ⊆ list_to_set (C := gset string) STATE_FIELDS)))
        (TypeError "unexpected keyword argument");;
      let field name v := default v (p !! name) in
      v ← validate_version (field "version" (VInt 1));
      raise_if (unhashable (field "state" (VStr "unreviewed"))) (TypeError "unhashable type");;
      raise_if (negb (bool_decide (field "state" (VStr "unreviewed") ∈ [VStr "open"; VStr "done"])))
        (ValueError "invalid_session_work_state");;
      raise_if (negb (value_truthy (field "updated_at" VNone)) || negb (value_truthy (field "updated_by" VNone))
                || negb (value_truthy (field "correlation_id" VNone)))
        (ValueError "invalid_session_work_state");;
      Ok {| sw_id := ref_id; sw_state := field "state" (VStr "unreviewed"); sw_version := v;
            sw_updated_at := field "updated_at" VNone; sw_updated_by := field "updated_by" VNone;
            sw_correlation_id := field "correlation_id" VNone |}
  end.

Definition state_properties (w : SessionWorkState) : props :=
  list_to_map [("state", sw_state w); ("version", VInt (sw_version w)); ("updated_at", sw_updated_at w);
               ("updated_by", sw_updated_by w); ("correlation_id", sw_correlation_id w)].

Definition set_state (ref_id : string) (expected_version : Z) (state actor session correlation : string) :
    M Store SessionWorkState :=
  o ← reads (get_node "SessionRef" ref_id);
  n ← lift (of_option (MissingWorkObjectError "SessionRef" ref_id) o);
  r ← lift (SessionRef_of (nr_id n) (nr_properties n));
  ref_now (identity r) actor session correlation;;
  current ← reads (read_state ref_id);
  guard_raise (negb (sw_version current =? expected_version))
    (WorkObjectVersionConflictError "SessionRef" ref_id expected_version (sw_version current));;
  guard_raise (negb (str_in state ["open"; "done"])) (ValueError "invalid_session_work_state");;
  guard_raise (bool_decide (sw_state current = VStr state))
    (InvalidStatusTransitionError "Session work state is unchanged.");;
  lift (require_version (sw_version current + 1));;
  now ← utc_now;
  let w := {| sw_id := ref_id; sw_state := VStr state; sw_version := sw_version current + 1;
              sw_updated_at := VStr (isoformat now); sw_updated_by := VStr actor;
              sw_correlation_id := VStr correlation |} in
  existing ← reads (get_node "SessionWorkState" ref_id);
  (match existing with
   | None => create_node "SessionWorkState" ref_id (state_properties w)
   | Some _ => update_node "SessionWorkState" ref_id (state_properties w)
   end);;
  mret w.

End registry.

(** ** Lemmas *)

Lemma last_char_hex c s : is_lower_hex c = true → str_forall is_lower_hex s = true → is_lower_hex (last_char c s) = true.
Proof. revert c. induction s as [|d s IH]; intros c Hc; simpl; [done|]. intros [Hd Hs]%andb_prop. by apply IH. Qed.

Lemma hex_id_edge c : is_lower_hex c = true → id_edge c = true.
Proof.
  unfold is_lower_hex, id_edge, is_lower, is_digit, in_range.
  rewrite !orb_true_iff, !andb_true_iff, !N.leb_le. lia.
Qed.

(** The identifiers derived from digests are canonical identifiers. *)
Lemma digest_id_valid a v : _ID_PATTERN (digest_id (String "s" (String a "-")) v) = id_char a.
Proof.
  unfold digest_id. pose proof (sha256_hex_digest (dumps true v)) as Hd. unfold is_digest in Hd.
  destruct (sha256_hex (dumps true v)) as [|c h]; [done|]. apply andb_prop in Hd as [Hl Hh].
  cbn [str_forall] in Hh. apply andb_prop in Hh as [Hc Hh].
  assert (Hcat : String "s" (String a "-") +:+ String c h = String "s" (String a (String "-" (String c h)))) by reflexivity.
  rewrite Hcat. unfold _ID_PATTERN. cbn [last_char str_forall].
  rewrite (hex_id_edge (last_char c h)) by by apply last_char_hex.
  assert (id_char c = true) as -> by (unfold id_char; by rewrite hex_id_edge).
  assert (str_forall id_char h = true) as ->.
  { revert Hh. apply str_forall_mono. intros x Hx. unfold id_char. by rewrite hex_id_edge. }
  assert (str_len (String "s" (String a (String "-" (String c h)))) <=? 256 = true) as ->.
  { apply Nat.eqb_eq in Hl. apply Z.leb_le. unfold str_len. change (String.length (String "s" (String a (String "-" ?x))))
      with (3 + String.length x)%nat. rewrite Hl. lia. }
  by rewrite !andb_true_r.
Qed.

Lemma identity_id_valid i : _ID_PATTERN (identity_id i) = true.
Proof. apply digest_id_valid. Qed.

Lemma link_id_valid l : _ID_PATTERN (link_id l) = true.
Proof. apply digest_id_valid. Qed.

Lemma identity_ref_id i : is_ref_id (identity_id i) = true.
Proof.
  unfold is_ref_id, identity_id, digest_id. pose proof (sha256_hex_digest (dumps true (VDict (identity_fields i)))) as Hd.
  set (h := sha256_hex _) in *. change (strip_prefix "sr-" ("sr-" +:+ h)) with (Some h). simpl.
  unfold is_digest in Hd. apply andb_prop in Hd as [Hl Hh]. unfold is_hex64. rewrite Hh, andb_true_r.
  apply Nat.eqb_eq in Hl. unfold str_len. rewrite Hl. done.
Qed.

(** A time in UTC is its own conversion. *)
Lemma astimezone_utc_id d : datetime_ok d = true → utcoffset d = Some 0 → astimezone_utc d = Ok d.
Proof.
  intros Hok Ho. apply datetime_ok_spec in Hok. unfold astimezone_utc. rewrite Ho. cbn [default].
  destruct d as [y mo da h mi se us o]. cbn in *. subst o.
  set (t := h * 3600 + mi * 60 + se - 0). assert (0 <= t < 86400) by (unfold t; lia).
  destruct (Z.ltb_spec t 0); [lia|]. destruct (Z.leb_spec 86400 t); [lia|].
  rewrite (Z.mod_small t) by lia. assert (t = se + (mi + h * 60) * 60) as Ht by (unfold t; lia).
  assert (t / 60 = mi + h * 60) as Hm by (rewrite Ht, Z.div_add, Z.div_small; lia).
  assert (t / 3600 = h) as -> by (change 3600 with (60 * 60); rewrite <- Z.div_div, Hm, Z.div_add, Z.div_small; lia).
  assert (t mod 60 = se) as -> by (rewrite Ht, Z.mod_add, Z.mod_small; lia).
  assert ((t / 60) mod 60 = mi) as -> by (rewrite Hm, Z.mod_add, Z.mod_small; lia). done.
Qed.

Lemma timestamp_utc d : datetime_ok d = true → utcoffset d = Some 0 → timestamp d = Ok (isoformat d).
Proof. intros Hok Ho. unfold timestamp, aware. rewrite Ho. simpl. by rewrite astimezone_utc_id. Qed.

(** A reference built by the constructors, created at a UTC time. *)
Record ref_wf (r : SessionRef) : Prop := {
  rw_application : _APPLICATION (application (identity r)) = true;
  rw_source : _OPAQUE (source_instance_id (identity r)) = true;
  rw_session : _OPAQUE (external_session_id (identity r)) = true;
  rw_authority : _AUTHORITY_ID (actor_id r) && _AUTHORITY_ID (session_id r) && _AUTHORITY_ID (correlation_id r) = true;
  rw_created : datetime_ok (ref_created_at r) = true ∧ utcoffset (ref_created_at r) = Some 0
}.

Lemma new_identity_Ok a src ext i : new_identity a src ext = Ok i ↔
  i = {| application := a; source_instance_id := src; external_session_id := ext |}
  ∧ _APPLICATION a = true ∧ _OPAQUE src = true ∧ _OPAQUE ext = true.
Proof.
  unfold new_identity, opaque. destruct (_APPLICATION a), (_OPAQUE src), (_OPAQUE ext); simpl;
    (split; [by intros [= <-]|by intros (-> & ? & ? & ?)]).
Qed.

Lemma new_ref_Ok i a se c d r : new_ref i a se c d = Ok r →
  r = {| identity := i; actor_id := a; session_id := se; correlation_id := c; ref_created_at := d |}
  ∧ _AUTHORITY_ID a && _AUTHORITY_ID se && _AUTHORITY_ID c = true.
Proof. unfold new_ref. intros E. minv. apply negb_false_iff in E. done. Qed.

Lemma SessionRef_of_id i p r : SessionRef_of i p = Ok r → sref_id r = i.
Proof.
  unfold SessionRef_of. cbv zeta. intros Hr. minv. bools.
  match goal with H : new_ref _ _ _ _ _ = Ok _ |- _ => apply new_ref_Ok in H as [-> _] end.
  by subst.
Qed.

(** Stored and read back, a reference is the same. *)
Lemma SessionRef_round_trip r : ref_wf r →
  ∃ p, ref_properties r = Ok p ∧ SessionRef_of (sref_id r) p = Ok r.
Proof.
  intros []. destruct rw_created0 as [Hok Ho]. unfold ref_properties. rewrite timestamp_utc by done.
  eexists. split; [reflexivity|]. set (l := [("kind", _); _] ++ _). set (p := list_to_map l).
  assert (Hl : ∀ name, name ≠ "kind" → delete "kind" p !! name = dict_get name l).
  { intros name Hn. unfold p. rewrite lookup_delete_ne by done. apply lookup_list_to_map. }
  assert (Hk : p !! "kind" = Some (VStr "SessionRef")) by (unfold p; by rewrite lookup_list_to_map).
  assert (Hd : dom (delete "kind" p) = list_to_set REF_FIELDS).
  { unfold p. rewrite dom_delete_L, dom_list_to_map_L. unfold l. cbn [fmap list_fmap app identity_fields fst list_to_set].
    unfold REF_FIELDS. cbn [list_to_set]. set_solver. }
  unfold SessionRef_of, text_of. rewrite Hk. cbv zeta. rewrite bool_decide_true by done. cbn [negb raise_if mbind res_bind].
  rewrite bool_decide_true by done. cbn [negb raise_if mbind res_bind]. rewrite !Hl by done.
  unfold l. cbn [dict_get String.eqb Ascii.eqb Bool.eqb app identity_fields mbind res_bind Z.eqb Pos.eqb negb raise_if].
  rewrite rw_application0. cbn [negb raise_if mbind res_bind].
  rewrite (proj2 (new_identity_Ok _ _ _ _)) by (split_and!; [reflexivity|done..]). cbn [mbind res_bind].
  assert ({| application := application (identity r); source_instance_id := source_instance_id (identity r);
             external_session_id := external_session_id (identity r) |} = identity r) as -> by by destruct (identity r).
  unfold sref_id. rewrite String.eqb_refl, bool_decide_true by done. cbn [negb orb raise_if mbind res_bind].
  rewrite fromisoformat_isoformat by done. cbn [of_option mbind res_bind].
  unfold new_ref. rewrite rw_authority0, timestamp_utc by done. by destruct r.
Qed.

Section lemmas.
  Context {PY : Pydantic} {CK : Clock}.
  Implicit Types (s : Store).

(** A transaction whose body writes nothing. *)
Lemma transaction_idle {A} (m : M Store A) s a : m (opened s) = (Ok a, opened s) → is_rollback_only s = false →
  ∃ s', transaction m s = (Ok a, s') ∧ same_graph s s'.
Proof.
  intros Hm Hr. eexists. split.
  - apply transaction_Ok. fold (opened s). eexists. split; [exact Hm|]. split; [by apply opened_rollback|reflexivity].
  - pose proof (opened_graph s) as (Hn & He & _). unfold same_graph. by case_match; simpl; rewrite Hn, He.
Qed.

Lemma transaction_not_poisoned {A} (m : M Store A) s a s' : transaction m s = (Ok a, s') → is_rollback_only s' = false.
Proof. intros (s1 & _ & Hr & ->)%transaction_Ok. by case_match. Qed.

Lemma put_Ok r s r' s' : _put r s = (Ok r', s') →
  (∃ n, nodes s !! ("SessionRef", sref_id r) = Some n ∧ SessionRef_of (nr_id n) (nr_properties n) = Ok r' ∧ s' = s)
  ∨ (nodes s !! ("SessionRef", sref_id r) = None ∧ r' = r
     ∧ ∃ p, ref_properties r = Ok p ∧ s' = put_node ("SessionRef", sref_id r) (Node "SessionRef" (sref_id r) p false) s).
Proof.
  unfold _put, get_node. intros Hp. minv. destruct (nodes s !! _) as [n|] eqn:Hn; subst.
  - left. minv. eauto.
  - right. minv. match goal with H : create_node _ _ _ _ = _ |- _ =>
      apply create_node_Ok in H as (_ & -> & Hk & Ha & _ & Hprops) end.
    split_and!; [done..|]. eexists. split; [done|]. cbn in Hprops. f_equal.
    match goal with n : NodeRecord |- _ => destruct n end. simpl in *. injection Hk as -> ->. congruence.
Qed.

(** Importing again the identity of an imported session reads the first import. *)
Lemma put_again r1 r2 r s s1 s2 : ref_wf r1 → identity r2 = identity r1 → _put r1 s = (Ok r, s1) →
  nodes s2 = nodes s1 → _put r2 s2 = (Ok r, s2).
Proof.
  intros Hwf Hid Hp Hn. assert (sref_id r2 = sref_id r1) as Heq by (unfold sref_id; by rewrite Hid).
  assert (Hread : ∀ n, nodes s2 !! ("SessionRef", sref_id r1) = Some n → SessionRef_of (nr_id n) (nr_properties n) = Ok r →
            _put r2 s2 = (Ok r, s2)).
  { intros n Hs2 Hr. unfold _put. rewrite Heq. eapply M_bind_intro; [eapply reads_run|].
    - unfold get_node. by rewrite (proj2 (require_id_Ok _ _)) by (split; [done|apply identity_id_valid]).
    - rewrite Hs2. simpl. by apply lift_run. }
  apply put_Ok in Hp as [(n & Hn1 & Hr & ->)|(_ & -> & p & Hr & ->)].
  - apply (Hread n); congruence.
  - destruct (SessionRef_round_trip r1 Hwf) as (p' & Hp' & Hof). eapply Hread; [rewrite Hn; apply lookup_insert_eq|].
    simpl. congruence.
Qed.

Lemma put_nodes r s r' s' k : _put r s = (Ok r', s') → is_Some (nodes s !! k) → nodes s' !! k = nodes s !! k.
Proof.
  intros [(n & _ & _ & ->)|(Hn & _ & p & _ & ->)]%put_Ok [x Hx]; [done|]. simpl.
  rewrite lookup_insert_ne; [done|]. intros <-. congruence.
Qed.

Lemma put_there r s r' s' : _put r s = (Ok r', s') → is_Some (nodes s' !! ("SessionRef", sref_id r)).
Proof.
  intros [(n & ? & _ & ->)|(_ & _ & p & _ & ->)]%put_Ok; [by eexists|]. simpl. by rewrite lookup_insert_eq.
Qed.

Lemma put_edgeless r : edgeless (_put r).
Proof. unfold _put. edgeless_solve. Qed.

Lemma put_keeps `{!PydanticLaws} r : keeps (_put r).
Proof. unfold _put. keeps_solve. by apply create_node_keeps. Qed.

Lemma session_link_keeps `{!PydanticLaws} o t l : keeps (link o t l).
Proof. unfold link, link_body. keeps_solve; first [apply put_keeps | by apply create_node_keeps]. Qed.

Lemma attach_keeps `{!PydanticLaws} r w v b o : keeps (attach r w v b o).
Proof. unfold attach, attach_body. keeps_solve. apply put_keeps. Qed.

Lemma set_state_keeps `{!PydanticLaws} i v st a se c : keeps (set_state i v st a se c).
Proof. unfold set_state, ref_now. keeps_solve. by apply create_node_keeps. Qed.

Lemma resource_of_inj_r a b : str_forall (λ d, negb (Ascii.eqb slash d)) a.2 = true →
  str_forall (λ d, negb (Ascii.eqb slash d)) b.2 = true → resource_of a = resource_of b → a = b.
Proof.
  assert (Hno : ∀ x t, str_forall (λ d, negb (Ascii.eqb slash d)) (x +:+ String slash t) = true → False).
  { intros x t. rewrite str_forall_app. cbn [str_forall]. rewrite Ascii.eqb_refl. simpl. by rewrite andb_false_r. }
  destruct a as [a1 a2], b as [b1 b2]. unfold resource_of. simpl. intros Ha Hb. revert b1.
  change "/" with (String slash ""). induction a1 as [|c a1 IH]; intros [|c' b1] Heq.
  - simpl in Heq. by injection Heq as ->.
  - exfalso. cbn [String.append] in Heq. injection Heq as _ Heq. rewrite Heq in Ha. exact (Hno b1 b2 Ha).
  - exfalso. cbn [String.append] in Heq. injection Heq as _ Heq. rewrite <- Heq in Hb. exact (Hno a1 a2 Hb).
  - cbn [String.append] in Heq. injection Heq as -> Heq. apply IH in Heq. congruence.
Qed.

End lemmas.

#[export] Hint Resolve put_keeps session_link_keeps attach_keeps set_state_keeps : keeps.

(** ** Disposition records *)

Section disposition.
  Context {PY : Pydantic} {CK : Clock}.
  Implicit Types (s : Store).

Lemma state_properties_dom w : dom (state_properties w) = (list_to_set STATE_FIELDS : gset string).
Proof. unfold state_properties. rewrite dom_list_to_map_L. unfold STATE_FIELDS. set_solver. Qed.

Lemma state_overwrite w (ep : props) : dom (delete "kind" ep) ⊆ (list_to_set STATE_FIELDS : gset string) →
  delete "kind" (state_properties w ∪ ep) = state_properties w.
Proof.
  intros Hd. apply map_eq. intros name. destruct (decide (name = "kind")) as [->|Hne].
  - rewrite lookup_delete_eq. symmetry. apply not_elem_of_dom. rewrite state_properties_dom. unfold STATE_FIELDS. set_solver.
  - rewrite lookup_delete_ne by done. destruct (state_properties w !! name) eqn:Hn.
    + by apply lookup_union_Some_l.
    + rewrite lookup_union_r by done. apply not_elem_of_dom in Hn. rewrite state_properties_dom in Hn.
      destruct (ep !! name) as [v|] eqn:He; [|done]. exfalso. apply Hn, Hd, elem_of_dom. exists v.
      by rewrite lookup_delete_ne.
Qed.

(** What [read_state] reads from a record [set_state] writes. *)
Lemma read_state_written w n s : nodes s !! ("SessionWorkState", sw_id w) = Some n →
  delete "kind" (nr_properties n) = state_properties w → _ID_PATTERN (sw_id w) = true →
  1 <= sw_version w <= SIGNED_64_MAX → sw_state w ∈ [VStr "open"; VStr "done"] →
  value_truthy (sw_updated_at w) && value_truthy (sw_updated_by w) && value_truthy (sw_correlation_id w) = true →
  read_state (sw_id w) s = Ok w.
Proof.
  intros Hn Hp Hid Hv Hst Ht. unfold read_state, get_node.
  rewrite (proj2 (require_id_Ok _ _)) by done. cbn [mbind res_bind]. rewrite Hn. cbv zeta. rewrite Hp.
  rewrite (bool_decide_true (dom _ ⊆ _)) by by rewrite state_properties_dom. cbn [negb raise_if mbind res_bind].
  assert (Hl : ∀ name, state_properties w !! name = dict_get name
    [("state", sw_state w); ("version", VInt (sw_version w)); ("updated_at", sw_updated_at w);
     ("updated_by", sw_updated_by w); ("correlation_id", sw_correlation_id w)]) by (intros; apply lookup_list_to_map).
  rewrite !Hl. simpl. rewrite (proj2 (require_version_Ok _ _)) by done. simpl.
  assert (unhashable (sw_state w) = false) as -> by (apply elem_of_cons in Hst as [->|[->|[]%not_elem_of_nil]%elem_of_cons]; done).
  rewrite bool_decide_true by done. apply andb_prop in Ht as [[-> ->]%andb_prop ->]. by destruct w.
Qed.

Lemma read_state_fields i s w n : read_state i s = Ok w → nodes s !! ("SessionWorkState", i) = Some n →
  dom (delete "kind" (nr_properties n)) ⊆ (list_to_set STATE_FIELDS : gset string).
Proof. unfold read_state, get_node. intros Hr Hn. minv. subst. rewrite Hn in *. minv. by bools. Qed.

Lemma authority_truthy a : _AUTHORITY_ID a = true → truthy a = true.
Proof. by destruct a. Qed.

(** The record a successful write of a disposition leaves. *)
Lemma write_state_Ok i w cur o n s s' : read_state i s = Ok cur → nodes s !! ("SessionWorkState", i) = o →
  match o with
  | None => create_node "SessionWorkState" i (state_properties w)
  | Some _ => update_node "SessionWorkState" i (state_properties w)
  end s = (Ok n, s') →
  nodes s' = <[("SessionWorkState", i) := n]> (nodes s) ∧ edges s' = edges s
  ∧ delete "kind" (nr_properties n) = state_properties w.
Proof.
  intros Hcur Ho Hw. destruct o as [old|].
  - apply update_node_Ok in Hw as (old' & np & Hold & -> & _ & _ & -> & _ & _ & Hnp).
    rewrite Hnp by done. simplify_eq. split_and!; [done..|]. apply state_overwrite. by eapply read_state_fields.
  - apply create_node_Ok in Hw as (_ & -> & _ & _ & _ & Hp). cbn in Hp. split_and!; [done..|]. rewrite Hp.
    apply delete_id. unfold state_properties. by rewrite lookup_list_to_map.
Qed.

(** What a successful [set_state] requires and leaves. *)
Lemma set_state_Ok i v st a se c s w s' : set_state i v st a se c s = (Ok w, s') →
  ∃ cur n t, read_state i s = Ok cur ∧ sw_version cur = v ∧ 1 <= v + 1 <= SIGNED_64_MAX ∧ sw_state cur ≠ VStr st
    ∧ w = {| sw_id := i; sw_state := VStr st; sw_version := v + 1; sw_updated_at := VStr (isoformat t);
             sw_updated_by := VStr a; sw_correlation_id := VStr c |}
    ∧ str_in st ["open"; "done"] = true ∧ truthy a && truthy c = true
    ∧ _ID_PATTERN i = true ∧ nodes s' = <[("SessionWorkState", i) := n]> (nodes s) ∧ edges s' = edges s
    ∧ delete "kind" (nr_properties n) = state_properties w.
Proof.
  unfold set_state, ref_now, get_node. intros Hx. minv. bools. subst.
  repeat match goal with H : utc_now _ = _ |- _ => injection H as <- <- end.
  match goal with H : require_id _ = Ok _ |- _ => apply require_id_Ok in H as [_ Hid] end.
  match goal with H : require_version _ = Ok _ |- _ => apply require_version_Ok in H as [_ Hv] end.
  match goal with H : new_ref _ _ _ _ _ = Ok _ |- _ => apply new_ref_Ok in H as [_ Ha] end.
  match goal with H : read_state _ _ = Ok ?x |- _ => rename x into cur, H into Hcur end.
  match goal with H : match _ with Some _ => update_node _ _ _ | None => _ end _ = (Ok ?x, _) |- _ =>
    eapply (write_state_Ok _ _ cur) in H as (Hn & He & Hp); [|done|done]; exists cur, x end.
  eexists. split_and!; try done; [lia|lia|].
  apply andb_prop in Ha as [[Ha _]%andb_prop Hc]. by rewrite !authority_truthy.
Qed.

End disposition.

(** ** Links and attributions *)

Section links.
  Context {PY : Pydantic} {CK : Clock}.
  Implicit Types (s : Store).

Lemma link_properties_kind l p : slink_properties l = Ok p → p ∪ {["kind" := VStr "SessionLink"]} = p.
Proof.
  unfold slink_properties. intros Hp. minv. subst. apply map_eq. intros name.
  destruct (decide (name = "kind")) as [->|Hne].
  - erewrite lookup_union_Some_l; [|by rewrite lookup_list_to_map]. by rewrite lookup_list_to_map.
  - rewrite lookup_union. rewrite (lookup_singleton_ne "kind") by done. by rewrite right_id_L by apply _.
Qed.

Lemma link_body_Ok o t l s s' : link_body o t l s = (Ok tt, s') →
  ∃ p n, slink_properties l = Ok p ∧ nodes s' !! ("SessionLink", link_id l) = Some n
    ∧ nr_properties n ∪ {["kind" := VStr "SessionLink"]} = p
    ∧ (nodes s !! ("SessionLink", link_id l) = None →
        Edge "SessionLink" (link_id l) "SESSION_LINK_ORIGIN" "SessionRef" (sref_id o) ∅ ∈ edges s'
        ∧ Edge "SessionLink" (link_id l) "SESSION_LINK_TARGET" "SessionRef" (sref_id t) ∅ ∈ edges s').
Proof.
  unfold link_body, get_node. intros Hb. minv. subst. destruct (nodes s !! _) as [n|] eqn:Hn; minv.
  { bools. eexists _, n. done. }
  repeat match goal with H : create_edge _ _ _ _ _ _ _ = _ |- _ => apply create_edge_Ok in H as (-> & _ & _ & ? & ?) end.
  match goal with H : create_node _ _ _ _ = _ |- _ => apply create_node_Ok in H as (_ & -> & _ & _ & _ & Hp) end.
  change (_is_canonical_payload "SessionLink" _) with false in Hp. cbv iota in Hp.
  match goal with H : slink_properties l = Ok ?q |- _ => exists q; pose proof (link_properties_kind _ _ H) end.
  match type of Hp with nr_properties ?n = _ => exists n end. split; [done|]. split.
  { repeat match goal with H : nodes _ = nodes _ |- _ => rewrite H; clear H end. apply lookup_insert_eq. }
  split; [by rewrite Hp|]. intros _.
  repeat match goal with H : edges _ = (if _ then _ else _) |- _ => rewrite H; clear H end.
  split; repeat case_decide; set_solver.
Qed.

(** Linking an event again compares the stored link with the new one. *)
Lemma link_again o t l n p s : nodes s !! ("SessionLink", link_id l) = Some n → slink_properties l = Ok p →
  l_origin l = identity o → l_target l = identity t → is_rollback_only s = false →
  ∃ s2, link o t l s = (if decide (p = nr_properties n ∪ {["kind" := VStr "SessionLink"]}) then Ok tt
                         else Err (ValueError "session_event_conflict"), s2) ∧ same_graph s s2.
Proof.
  intros Hn Hp Ho Ht Hr. unfold link. rewrite !bool_decide_true by done. simpl. rewrite M_bind_ret_l.
  pose proof (opened_graph s) as (Hno & _).
  assert (Hrun : link_body o t l (opened s) = (if decide (p = nr_properties n ∪ {["kind" := VStr "SessionLink"]}) then Ok tt
                         else Err (ValueError "session_event_conflict"), opened s)).
  { unfold link_body. eapply M_bind_intro; [eapply reads_run|].
    { unfold get_node. rewrite (proj2 (require_id_Ok _ _)) by (split; [done|apply link_id_valid]). by rewrite Hno, Hn. }
    simpl. eapply M_bind_intro; [by eapply lift_run|]. simpl.
    destruct (decide (p = _)) as [Heq|Hne].
    - by rewrite bool_decide_true by done.
    - by rewrite bool_decide_false by (intros Heq; by apply Hne). }
  destruct (decide (p = _)).
  - by apply transaction_idle.
  - destruct (transaction_raise _ _ _ _ Hrun) as (s2 & ? & ? & ? & _). eexists. split; [done|]. by split.
Qed.

(** The attributions of a work object to a session. *)
Definition attributions (k : key) (i : string) s : list EdgeRecord :=
  filter (λ e, relationship e = "ATTRIBUTED_TO_SESSION" ∧ edge_to e = ("SessionRef", i) ∧ edge_from e = k) (edges s).

(** One attribution for each work object and session, and none whose properties
    hide the work object's key from [session_ref_context]. *)
Record attribution_wf s : Prop := {
  aw_key e : e ∈ edges s → relationship e = "ATTRIBUTED_TO_SESSION" → edge_properties e !! "key" = None;
  aw_once k i : (length (attributions k i s) <= 1)%nat
}.

(** The bounded listing finds an attribution exactly when there is one. *)
Lemma context_finds i k s bs ls b : store_wf s → attribution_wf s → _ID_PATTERN k.2 = true →
  session_ref_context i 100 s = Ok (bs, ls, b) →
  (existsb (λ p : props, bool_decide (p !! "key" = Some (VStr (resource_of k)))) bs = true → attributions k i s ≠ [])
  ∧ (existsb (λ p : props, bool_decide (p !! "key" = Some (VStr (resource_of k)))) bs = false → b = false →
     attributions k i s = []).
Proof.
  intros Hs Ha Hk. unfold session_ref_context. set (work := stable_sort _ _). set (links := stable_sort _ _).
  intros Hc. apply res_bind_Ok in Hc as (? & _ & Hc). apply res_bind_Ok in Hc as (? & _ & Hc). cbv zeta in Hc.
  apply (inj Ok) in Hc. injection Hc as <- _ Hb.
  assert (Hwork : ∀ e, e ∈ work ↔ (relationship e = "ATTRIBUTED_TO_SESSION" ∧ edge_to e = ("SessionRef", i)) ∧ e ∈ edges s).
  { intros e. unfold work. rewrite stable_sort_perm. by rewrite list_elem_of_filter. }
  split.
  - intros (p & (e & -> & He)%list_elem_of_In%list_elem_of_fmap & Hp%bool_decide_eq_true)%existsb_exists.
    apply elem_of_take in He as (j & Hj%list_elem_of_lookup_2 & _). apply Hwork in Hj as [[Hrel Hto] Hin].
    rewrite lookup_union_r, lookup_singleton_eq in Hp by by apply (aw_key _ Ha). injection Hp as Hp.
    intros Hnil. apply (proj1 (elem_of_nil e)). rewrite <- Hnil. apply list_elem_of_filter. split_and!; try done.
    apply resource_of_inj_r; [| |done]; apply id_char_not_slash; [|done].
    pose proof (sw_edges _ Hs) as Hw. rewrite Forall_forall in Hw. apply Hw in Hin as [[n Hn] _].
    by apply (sw_nodes _ Hs) in Hn as [].
  - intros Hex Hb0. rewrite Hb0 in Hb. apply orb_false_iff in Hb as [Hlen _]. apply Z.leb_gt in Hlen.
    destruct (attributions k i s) as [|e l] eqn:Hat; [done|]. exfalso.
    assert (He : e ∈ attributions k i s) by (rewrite Hat; left).
    apply list_elem_of_filter in He as [(Hrel & Hto & Hfrom) Hin].
    apply (Bool.diff_false_true). rewrite <- Hex. apply existsb_exists.
    exists (edge_properties e ∪ {["key" := VStr (resource_of (edge_from e))]}). split.
    + apply list_elem_of_In, list_elem_of_fmap. exists e. split; [done|]. rewrite take_ge by lia. by apply Hwork.
    + apply bool_decide_eq_true. rewrite lookup_union_r by by apply (aw_key _ Ha). rewrite lookup_singleton_eq. by rewrite Hfrom.
Qed.

Lemma attributions_edges k i s s' : edges s' = edges s → attributions k i s' = attributions k i s.
Proof. intros He. unfold attributions. by rewrite He. Qed.

Lemma attribution_wf_edges s s' : edges s' = edges s → attribution_wf s → attribution_wf s'.
Proof. intros He []. split; [by rewrite He|]. intros k i. by rewrite (attributions_edges k i s s'). Qed.

Lemma attribution_wf_new s s' fl fi i p : edges s' = edges s ++ [Edge fl fi "ATTRIBUTED_TO_SESSION" "SessionRef" i p] →
  attribution_wf s → p !! "key" = None → attributions (fl, fi) i s = [] → attribution_wf s'.
Proof.
  intros He [Hkey Honce] Hp Hnil. split.
  - intros e. rewrite He. intros [Hin| ->%list_elem_of_singleton]%elem_of_app; [by apply Hkey|done].
  - intros k' i'. unfold attributions. rewrite He, filter_app, length_app. fold (attributions k' i' s).
    destruct (decide (k' = (fl, fi) ∧ i' = i)) as [[-> ->]|Hne].
    + rewrite Hnil. apply (length_filter (λ e, relationship e = _ ∧ edge_to e = _ ∧ edge_from e = _)).
    + rewrite filter_cons_False by (simpl; intros (_ & [=] & <-); naive_solver). simpl. specialize (Honce k' i'). lia.
Qed.

Lemma attach_body_Ok `{!PydanticLaws} r k v p s s' : store_wf s → attribution_wf s → _ID_PATTERN k.2 = true →
  p !! "key" = None → attach_body r k v p s = (Ok tt, s') →
  (∃ n, nodes s !! k = Some n ∧ nr_properties n !! "version" = Some (VInt v))
  ∧ ((attributions k (sref_id r) s ≠ [] ∧ edges s' = edges s)
     ∨ (attributions k (sref_id r) s = []
        ∧ edges s' = edges s ++ [Edge k.1 k.2 "ATTRIBUTED_TO_SESSION" "SessionRef" (sref_id r) p])).
Proof.
  intros Hs Ha Hk Hp Hb. unfold attach_body, get_node in Hb. minv. bools. subst.
  split; [destruct k; eauto|].
  match goal with H : _put r s = (Ok _, ?x) |- _ => rename x into s2; rename H into Hput end.
  pose proof (edgeless_Ok _ _ _ _ (put_edgeless r) Hput) as He2.
  assert (Hs2 : store_wf s2) by (pose proof (put_keeps r s Hs) as [Hp2 _]; by rewrite Hput in Hp2).
  match goal with H : session_ref_context _ _ _ = Ok ?x |- _ => destruct x as [[bs ls] bd]; rename H into Hctx end.
  destruct (context_finds _ k _ _ _ _ Hs2 (attribution_wf_edges _ _ He2 Ha) Hk Hctx) as [Hyes Hno].
  rewrite (attributions_edges k (sref_id r) s s2) in * by done. rewrite <- He2.
  destruct (existsb _ bs) eqn:Hex; minv; [left; by split; [apply Hyes|]|]. right.
  split; [by apply Hno|].
  match goal with H : create_edge _ _ _ _ _ _ _ = _ |- _ => apply create_edge_Ok in H as (-> & _ & _ & _ & ->) end.
  case_decide as Hin; [|done]. exfalso. apply (proj1 (elem_of_nil (Edge k.1 k.2 "ATTRIBUTED_TO_SESSION" "SessionRef" (sref_id r) p))).
  rewrite <- (Hno eq_refl ltac:(done)). apply list_elem_of_filter. rewrite <- He2. split_and!; try done. by destruct k.
Qed.

End links.

(** ** Properties *)

Section properties.
  Context {PY : Pydantic} {PL : PydanticLaws} {CK : Clock}.
  Implicit Types (s : Store).

(** The disposition of a session changes by compare-and-set: a change succeeds
    only at the expected version and to the other of [open] and [done], the version
    goes up by one within its 64-bit bound, what is read afterwards is what was
    written, and no other record or edge changes. *)
Theorem session_state_compare_and_set i v st a se c s w s' :
  set_state i v st a se c s = (Ok w, s') →
  (∃ cur, read_state i s = Ok cur ∧ sw_version cur = v ∧ sw_state cur ≠ VStr st)
  ∧ sw_version w = v + 1 ∧ v + 1 <= SIGNED_64_MAX ∧ sw_state w = VStr st ∧ st ∈ ["open"; "done"]
  ∧ sw_updated_by w = VStr a ∧ read_state i s' = Ok w
  ∧ (∀ k, k ≠ ("SessionWorkState", i) → nodes s' !! k = nodes s !! k) ∧ edges s' = edges s.
Proof.
  intros (cur & n & t & Hcur & Hv & Hb & Hst & -> & Hin & Ht & Hid & Hn & He & Hp)%set_state_Ok.
  apply str_in_spec in Hin. split; [eauto|]. split_and!; try done; [lia|..].
  - eapply (read_state_written {| sw_id := i |}); [by rewrite Hn, lookup_insert_eq|done|done|done|simpl..].
    + apply elem_of_cons in Hin as [->|[->|[]%not_elem_of_nil]%elem_of_cons]; set_solver.
    + exact Ht.
  - intros k Hk. rewrite Hn. by apply lookup_insert_ne.
Qed.

(** The first import of a session is the one that stays: importing a new
    session stores exactly the given reference; whatever the import returned,
    importing the same identity again, with any other authority and time, returns
    that same reference and changes nothing. *)
Theorem session_first_import_kept r1 r s s1 :
  store_wf s → ref_wf r1 → put r1 s = (Ok r, s1) →
  sref_id r = sref_id r1 ∧ (nodes s !! ("SessionRef", sref_id r1) = None → r = r1)
  ∧ (∃ n, nodes s1 !! ("SessionRef", sref_id r1) = Some n ∧ SessionRef_of (nr_id n) (nr_properties n) = Ok r)
  ∧ ∀ r2, identity r2 = identity r1 → ∃ s2, put r2 s1 = (Ok r, s2) ∧ same_graph s1 s2.
Proof.
  intros Hs Hwf Hp. unfold put in Hp. pose proof (transaction_not_poisoned _ _ _ _ Hp) as Hr.
  apply transaction_graph in Hp as (s0 & s0' & Hp & [Hn0 _] & [_ Hs0] & [Hn1 He1]). specialize (Hs0 Hs).
  assert (Hagain : ∀ r2 s2, identity r2 = identity r1 → nodes s2 = nodes s1 → _put r2 s2 = (Ok r, s2)).
  { intros r2 s2 Hid Hn. eapply put_again; [done|done|exact Hp|congruence]. }
  pose proof (Hagain r1 s1 eq_refl eq_refl) as Hread. apply put_Ok in Hread as [(n & Hn & Hof & _)|(Hno & _)]; last first.
  { exfalso. apply put_there in Hp. rewrite Hn1, Hno in *. by destruct Hp. }
  assert (nr_id n = sref_id r1) as Hnid.
  { apply put_Ok in Hp as [(n' & Hn' & _ & ->)|(_ & _ & p & _ & ->)].
    - rewrite Hn1, Hn' in Hn. injection Hn as ->. apply (sw_nodes _ Hs0) in Hn' as []. by injection nw_key.
    - rewrite Hn1 in Hn. simpl in Hn. rewrite lookup_insert_eq in Hn. by injection Hn as <-. }
  split_and!.
  - apply SessionRef_of_id in Hof. congruence.
  - intros Hno. apply put_Ok in Hp as [(n' & Hn' & _)|(_ & -> & _)]; [congruence|done].
  - eauto.
  - intros r2 Hid. apply transaction_idle; [|done]. apply Hagain; [done|]. apply opened_graph.
Qed.

(** A source event is bound once: after linking, the link record under the
    event's identifier is the link's, with edges to both sessions when it is new;
    linking the same event again with the same content changes nothing, and with
    any other content is refused and changes nothing. *)
Theorem session_event_bound_once o t l s s1 :
  link o t l s = (Ok tt, s1) →
  ∃ p n, slink_properties l = Ok p ∧ nodes s1 !! ("SessionLink", link_id l) = Some n
    ∧ nr_properties n ∪ {["kind" := VStr "SessionLink"]} = p
    ∧ (nodes s !! ("SessionLink", link_id l) = None →
        Edge "SessionLink" (link_id l) "SESSION_LINK_ORIGIN" "SessionRef" (sref_id o) ∅ ∈ edges s1
        ∧ Edge "SessionLink" (link_id l) "SESSION_LINK_TARGET" "SessionRef" (sref_id t) ∅ ∈ edges s1)
    ∧ ∀ o' t' l' p', link_id l' = link_id l → l_origin l' = identity o' → l_target l' = identity t' →
        slink_properties l' = Ok p' →
        ∃ s2, link o' t' l' s1 = (if decide (p' = p) then Ok tt else Err (ValueError "session_event_conflict"), s2)
          ∧ same_graph s1 s2.
Proof.
  intros Hl. unfold link in Hl. apply M_bind_Ok in Hl as (u & s' & Hg & Hl). minv.
  pose proof (transaction_not_poisoned _ _ _ _ Hl) as Hr.
  apply transaction_graph in Hl as (s0 & s0' & Hb & [Hn0 He0] & _ & [Hn1 He1]).
  apply link_body_Ok in Hb as (p & n & Hp & Hn & Heq & Hnew). rewrite <- Hn1 in Hn. rewrite Hn0, <- He1 in Hnew.
  exists p, n. split_and!; [done..|]. intros o' t' l' p' Hid Ho Ht Hp'. rewrite <- Hid in Hn.
  destruct (link_again o' t' l' n p' s1) as (s2 & Hrun & Hsame); [done..|]. exists s2. rewrite Hrun. subst p. done.
Qed.

(** A work object is attributed to a session at most once: attaching at the
    work object's current version leaves exactly one attribution; the first one
    stays, with its basis and observation, and the invariant that keeps the bounded
    listing faithful is preserved. *)
Theorem session_attribution_unique r w v b o s s1 :
  store_wf s → attribution_wf s → attach r w v b o s = (Ok tt, s1) →
  ∃ k e, work_ref w = Ok k ∧ attributions k (sref_id r) s1 = [e]
    ∧ (attributions k (sref_id r) s = [] → edge_properties e = attach_properties b v o)
    ∧ (∀ e0, attributions k (sref_id r) s = [e0] → e = e0)
    ∧ (∃ n, nodes s !! k = Some n ∧ nr_properties n !! "version" = Some (VInt v))
    ∧ attribution_wf s1.
Proof.
  intros Hs Ha Hx. unfold attach in Hx. apply M_bind_Ok in Hx as (k & ? & [Hw ->]%lift_Ok & Hx). minv.
  match goal with H : match o with _ => _ end s = (_, ?x) |- _ => assert (x = s) as -> by (by destruct o; minv); clear H end.
  match goal with H : transaction _ _ = _ |- _ => rename H into Hrun end.
  apply transaction_graph in Hrun as (s0 & s0' & Hb & [Hn0 He0] & [_ Hs0] & [_ He1]).
  assert (Hid : _ID_PATTERN k.2 = true).
  { unfold work_ref in Hw. repeat case_match; try done. minv. subst k.
    match goal with H : require_id _ = Ok _ |- _ => by apply require_id_Ok in H as [_ ?] end. }
  assert (Hkey : attach_properties b v o !! "key" = None) by (unfold attach_properties; destruct o; by simplify_map_eq).
  apply attach_body_Ok in Hb as [Hver Hb]; [|by apply Hs0|by apply (attribution_wf_edges s)|done|done].
  rewrite Hn0 in Hver. rewrite (attributions_edges _ _ s s0), He0 in Hb by done. exists k.
  destruct Hb as [[Hne He]|[Hnil He]]; rewrite <- He1 in He.
  - pose proof (aw_once _ Ha k (sref_id r)) as Hl. rewrite (attributions_edges _ _ s s1) by done.
    destruct (attributions k (sref_id r) s) as [|e [|]] eqn:Hat; [done| |simpl in Hl; lia].
    exists e. split_and!; try done; [by intros e0 [= <-]|by apply (attribution_wf_edges s)].
  - exists (Edge k.1 k.2 "ATTRIBUTED_TO_SESSION" "SessionRef" (sref_id r) (attach_properties b v o)).
    split; [done|]. split; [|split_and!; [done|by rewrite Hnil|done|]].
    + unfold attributions. rewrite He, filter_app. fold (attributions k (sref_id r) s). rewrite Hnil, app_nil_l.
      rewrite filter_cons_True, filter_nil; [done|]. split_and!; try done. by destruct k.
    + by eapply attribution_wf_new; [| | |destruct k].
Qed.

End properties.

(** ** Witnesses *)

Section witnesses.

#[local] Existing Instance reference_pydantic.
#[local] Existing Instance reference_pydantic_laws.
#[local] Existing Instance epoch_clock.

Definition ex_identity (e : string) : SessionIdentity :=
  {| application := "codex"; source_instance_id := "host-1"; external_session_id := e |}.

Definition ex_session (e : string) : SessionRef :=
  {| identity := ex_identity e; actor_id := "actor/a"; session_id := "s1"; correlation_id := "c1"; ref_created_at := epoch |}.

Definition ex_session_link (attempt : string) : SessionLink :=
  {| l_source_instance_id := "host-1"; l_event_id := "e1"; l_attempt_id := attempt; l_relation := "delegated_to";
     l_origin := ex_identity "x"; l_target := ex_identity "y"; l_observed_at := epoch; l_basis := "declared" |}.

Lemma ex_session_wf e : _OPAQUE e = true → ref_wf (ex_session e).
Proof. intros He. by constructor. Defined.

(** A Task and the imported session x. *)
Definition ex_session_program : M Store unit := create ex_task;; put (ex_session "x");; mret tt.

Definition ex_session_store : Store := (ex_session_program empty_store).2.

Lemma ex_session_store_wf : store_wf ex_session_store.
Proof.
  assert (Hk : keeps ex_session_program).
  { apply keeps_bind; [apply create_keeps|intros _]. apply keeps_bind; [apply transaction_keeps, put_keeps|intros _].
    by apply keeps_same. }
  apply Hk, empty_store_wf.
Defined.

Lemma session_state_compare_and_set_witness : ∃ w s',
  set_state (sref_id (ex_session "x")) 1 "open" "a" "s" "c" ex_session_store = (Ok w, s')
  ∧ read_state (sref_id (ex_session "x")) s' = Ok w.
Proof.
  assert (Hok : is_ok (set_state (sref_id (ex_session "x")) 1 "open" "a" "s" "c" ex_session_store).1 = true)
    by (vm_compute; reflexivity).
  destruct (set_state (sref_id (ex_session "x")) 1 "open" "a" "s" "c" ex_session_store) as [[w|] s'] eqn:E;
    [|discriminate Hok]. exists w, s'. split; [reflexivity|].
  exact (proj1 (proj2 (proj2 (proj2 (proj2 (proj2 (proj2 (session_state_compare_and_set _ _ _ _ _ _ _ _ _ E)))))))).
Defined.

Lemma session_first_import_kept_witness : ∃ r s1,
  put (ex_session "y") ex_session_store = (Ok r, s1) ∧ sref_id r = sref_id (ex_session "y").
Proof.
  assert (Hok : is_ok (put (ex_session "y") ex_session_store).1 = true) by (vm_compute; reflexivity).
  destruct (put (ex_session "y") ex_session_store) as [[r|] s1] eqn:E; [|discriminate Hok].
  exists r, s1. split; [reflexivity|].
  exact (proj1 (session_first_import_kept _ _ _ _ ex_session_store_wf (ex_session_wf "y" eq_refl) E)).
Defined.

Lemma session_event_bound_once_witness : ∃ s1 p,
  link (ex_session "x") (ex_session "y") (ex_session_link "a1") ex_session_store = (Ok tt, s1)
  ∧ slink_properties (ex_session_link "a1") = Ok p.
Proof.
  assert (Hok : is_ok (link (ex_session "x") (ex_session "y") (ex_session_link "a1") ex_session_store).1 = true)
    by (vm_compute; reflexivity).
  destruct (link (ex_session "x") (ex_session "y") (ex_session_link "a1") ex_session_store) as [[[]|] s1] eqn:E;
    [|discriminate Hok]. destruct (session_event_bound_once _ _ _ _ _ E) as (p & n & Hp & _).
  exists s1, p. exact (conj eq_refl Hp).
Defined.

Lemma ex_attribution_wf : attribution_wf ex_session_store.
Proof.
  assert (He : edges ex_session_store = []) by (vm_compute; reflexivity). split.
  - intros e. rewrite He. by intros []%not_elem_of_nil.
  - intros k i. unfold attributions. rewrite He. simpl. lia.
Defined.

Lemma session_attribution_unique_witness : ∃ s1 k e,
  attach (ex_session "x") "Task/t1" 1 "inspected" (Some "2024-01-01T00:00:00Z") ex_session_store = (Ok tt, s1)
  ∧ attributions k (sref_id (ex_session "x")) s1 = [e].
Proof.
  assert (Hok : is_ok (attach (ex_session "x") "Task/t1" 1 "inspected" (Some "2024-01-01T00:00:00Z") ex_session_store).1 = true)
    by (vm_compute; reflexivity).
  destruct (attach (ex_session "x") "Task/t1" 1 "inspected" (Some "2024-01-01T00:00:00Z") ex_session_store)
    as [[[]|] s1] eqn:E; [|discriminate Hok].
  destruct (session_attribution_unique _ _ _ _ _ _ _ ex_session_store_wf ex_attribution_wf E) as (k & e & _ & He & _).
  exists s1, k, e. exact (conj eq_refl He).
Defined.

End witnesses.
