(* ===== verification/Frames.v ===== *)
(** * Which relationships an operation leaves alone

    [leaves rs m]: running [m], successful or not, changes no edge of the
    relationships [rs].  [leaves_solve] follows a program's structure; the
    operations of the components are in the hint database [leaves]. *)

From stdpp Require Import base gmap strings list sorting.
From Stdlib Require Import ZArith Ascii String.
From S2P Require Import Prelude Json Sha256 Datetime Validation WorkflowContract Model Storage StorageWf StorageReads Repository ResourcePaths Workflows Lifecycle ProgressMutations Arenas Sessions.

(** The relationships that place Work: the hierarchy, its dependencies and
    blockers, and the direct Arena memberships. *)
Definition STRUCTURE : list string := ["HAS_CHILD"; "DEPENDS_ON"; "BLOCKS"; "CONTAINS_WORK"].

Definition rel_edges (r : string) (s : Store) : list EdgeRecord := filter (λ e, relationship e = r) (edges s).

Definition leaves {A} (rs : list string) (m : M Store A) : Prop :=
  ∀ r s, str_in r rs = true → rel_edges r (m s).2 = rel_edges r s.

Section leaves.
  Context {PY : Pydantic} {CK : Clock}.
  Context (rs : list string).

Lemma leaves_edgeless {A} (m : M Store A) : edgeless m → leaves rs m.
Proof. intros Hm r s _. unfold rel_edges. by rewrite Hm. Qed.

Lemma leaves_bind {A B} (m : M Store A) (k : A → M Store B) :
  leaves rs m → (∀ a, leaves rs (k a)) → leaves rs (m ≫= k).
Proof.
  intros Hm Hk r s Hr. unfold mbind, M_bind. specialize (Hm r s Hr).
  destruct (m s) as [[a|e] s1]; simpl in *; [by rewrite Hk|done].
Qed.

Lemma leaves_transaction {A} (m : M Store A) : leaves rs m → leaves rs (transaction m).
Proof.
  intros Hm r s Hr. unfold transaction. set (s0 := if bool_decide (tx s = None) then begin_tx s else s).
  assert (rel_edges r s0 = rel_edges r s) as H0 by (unfold s0; by case_match).
  specialize (Hm r s0 Hr). unfold rel_edges in *.
  destruct (m s0) as [[a|e] s1]; simpl in *; repeat case_match; simpl; congruence.
Qed.

Lemma leaves_rethrow {A} p f (m : M Store A) : leaves rs m → leaves rs (M_rethrow p f m).
Proof. intros Hm r s Hr. unfold M_rethrow. specialize (Hm r s Hr). by destruct (m s) as [[?|e] ?]. Qed.

Lemma leaves_iter {A} (f : A → M Store unit) l : (∀ x, leaves rs (f x)) → leaves rs (M_iter f l).
Proof.
  intros Hf. induction l as [|x l IH]; [by apply leaves_edgeless, edgeless_same|]. simpl.
  by apply leaves_bind; [done|intros _].
Qed.

Lemma leaves_mapM {A B} (f : A → M Store B) l : (∀ x, leaves rs (f x)) → leaves rs (M_mapM f l).
Proof.
  intros Hf. induction l as [|x l IH]; [by apply leaves_edgeless, edgeless_same|]. simpl.
  apply leaves_bind; [done|intros y]. apply leaves_bind; [done|intros ys]. by apply leaves_edgeless, edgeless_same.
Qed.

Lemma leaves_create_edge fl fi rel tl ti p : str_in rel rs = false → leaves rs (create_edge fl fi rel tl ti p).
Proof.
  intros Hrel. unfold create_edge. assert (Hsame : ∀ B (m : M Store B), (∀ s, (m s).2 = s) → leaves rs m).
  { intros B m Hm. by apply leaves_edgeless, edgeless_same. }
  repeat (apply leaves_bind; [first [by apply Hsame | apply leaves_edgeless, edgeless_guard | idtac]|intros ?]); [|by apply Hsame].
  intros r s Hr. assert (rel ≠ r) by congruence. unfold rel_edges, modify. simpl. case_decide; [done|]. simpl.
  rewrite filter_app, filter_cons_False by done. by rewrite filter_nil, app_nil_r.
Qed.

Lemma leaves_delete_edge fl fi rel tl ti : str_in rel rs = false → leaves rs (delete_edge fl fi rel tl ti).
Proof.
  intros Hrel r s Hr. assert (rel ≠ r) by congruence. unfold delete_edge, modify, rel_edges. simpl.
  rewrite list_filter_filter. apply list_filter_iff. intros e. split; [tauto|]. intros He. split; [done|].
  unfold edge_is. apply bool_decide_eq_false. intros [=]. congruence.
Qed.

End leaves.

Create HintDb leaves.

Ltac leaves_step :=
  match goal with
  | |- leaves _ (mbind _ _) => apply leaves_bind; [|intros ?]
  | |- leaves _ (reads _) => by apply leaves_edgeless, edgeless_same
  | |- leaves _ (lift _) => by apply leaves_edgeless, edgeless_same
  | |- leaves _ (gets _) => by apply leaves_edgeless, edgeless_same
  | |- leaves _ (mret _) => by apply leaves_edgeless, edgeless_same
  | |- leaves _ (raise _) => by apply leaves_edgeless, edgeless_same
  | |- leaves _ (guard_raise _ _) => apply leaves_edgeless, edgeless_guard
  | |- leaves _ utc_now => apply leaves_edgeless, edgeless_clock
  | |- leaves _ (create_node _ _ _) => apply leaves_edgeless, create_node_edgeless
  | |- leaves _ (update_node _ _ _) => apply leaves_edgeless, update_node_edgeless
  | |- leaves _ (archive_node _ _ _) => apply leaves_edgeless, archive_node_edgeless
  | |- leaves _ (restore_node _ _ _) => apply leaves_edgeless, restore_node_edgeless
  | |- leaves _ (create_edge _ _ _ _ _ _) => apply leaves_create_edge
  | |- leaves _ (delete_edge _ _ _ _ _) => apply leaves_delete_edge
  | |- leaves _ (create _) => apply leaves_edgeless, create_edgeless
  | |- leaves _ (update _ _) => apply leaves_edgeless, update_edgeless
  | |- leaves _ (M_rethrow _ _ _) => apply leaves_rethrow
  | |- leaves _ (M_mapM _ _) => apply leaves_mapM; intros ?
  | |- leaves _ (M_iter _ _) => apply leaves_iter; intros ?
  | |- leaves _ (transaction _) => apply leaves_transaction
  | |- leaves _ (work_mutation_transaction _) => apply leaves_transaction
  | |- leaves _ (match ?x with _ => _ end) => destruct x
  | |- leaves _ _ => solve [auto with leaves]
  end.

Ltac leaves_solve := repeat leaves_step; repeat case_match; try reflexivity.

(** ** The components *)

Section components.
  Context {PY : Pydantic} {CK : Clock}.

Lemma update_content_leaves k i v c : leaves STRUCTURE (update_content k i v c).
Proof. unfold update_content, update_content_body, check_version. leaves_solve. Qed.

Lemma archive_leaves k i : leaves STRUCTURE (archive k i).
Proof. unfold archive, archive_body. leaves_solve. Qed.

Lemma transition_status_leaves k i st : leaves STRUCTURE (transition_status k i st).
Proof. unfold transition_status, transition_body. leaves_solve. Qed.

Lemma save_leaves w st : leaves STRUCTURE (_save w st).
Proof. unfold _save. leaves_solve. Qed.

Lemma construct_leaves k i t d : leaves STRUCTURE (construct k i t d).
Proof. unfold construct. leaves_solve. Qed.

#[local] Hint Resolve save_leaves construct_leaves : leaves.

Lemma record_relation_structure p : str_in (record_relation p) STRUCTURE = false.
Proof. unfold record_relation. by repeat case_match. Qed.

Lemma record_leaves actor w st r : leaves STRUCTURE (_record actor w st r).
Proof.
  unfold _record, record_evidence, link_evidence. leaves_solve; apply record_relation_structure.
Qed.

Lemma execute_leaves actor w op : leaves STRUCTURE (execute actor w op).
Proof.
  pose proof (record_leaves actor) as Hrec. unfold execute, assign, classified, transition. leaves_solve.
Qed.

Lemma set_progress_leaves w v a : leaves STRUCTURE (set_progress w v a).
Proof. unfold set_progress, record_evidence, link_evidence. leaves_solve. Qed.

Lemma reject_proposal_leaves w p : leaves STRUCTURE (reject_proposal w p).
Proof. unfold reject_proposal. leaves_solve. Qed.

Lemma accept_proposal_leaves i d : leaves STRUCTURE (accept_proposal i d).
Proof. unfold accept_proposal, accept_body, _upsert_decision. leaves_solve. Qed.

Lemma convert_leaves i j : leaves STRUCTURE (convert_accepted_proposal_to_issue i j).
Proof. unfold convert_accepted_proposal_to_issue, convert_body. leaves_solve. Qed.

Lemma put_leaves r : leaves STRUCTURE (_put r).
Proof. apply leaves_edgeless, put_edgeless. Qed.

#[local] Hint Resolve put_leaves : leaves.

Lemma session_link_leaves o t l : leaves STRUCTURE (link o t l).
Proof. unfold link, link_body. leaves_solve. Qed.

Lemma attach_leaves r w v b o : leaves STRUCTURE (attach r w v b o).
Proof. unfold attach, attach_body. leaves_solve. Qed.

Lemma set_state_leaves i v st a se c : leaves STRUCTURE (set_state i v st a se c).
Proof. unfold set_state, ref_now. leaves_solve. Qed.

(** Arena requests change memberships and nothing else of the structure. *)
Lemma arena_execute_leaves r : leaves ["HAS_CHILD"; "DEPENDS_ON"; "BLOCKS"] (arena_execute r).
Proof.
  unfold arena_execute, arena_execute_body, create_arena, change_arena, _member, bump. leaves_solve.
Qed.

Lemma remove_for_parent_leaves w r : leaves ["HAS_CHILD"; "DEPENDS_ON"; "BLOCKS"] (remove_for_parent w r).
Proof. unfold remove_for_parent, bump. leaves_solve. Qed.

End components.

#[export] Hint Resolve update_content_leaves archive_leaves transition_status_leaves execute_leaves set_progress_leaves
  reject_proposal_leaves accept_proposal_leaves convert_leaves put_leaves session_link_leaves attach_leaves
  set_state_leaves arena_execute_leaves remove_for_parent_leaves construct_leaves : leaves.
