(* ===== verification/NamedWork.v ===== *)
(** * Named mutations of Work

    [src/devgraph/named_work.py]: the one entry point through which admitted
    requests change Work.  A request is the validated content of a
    [WorkRequest]; [named_execute] dispatches it, inside one serialized
    transaction, to the repository, the workflow engine, progress, the proposal
    lifecycle, sessions, or the parent and relationship changes written here. *)

From stdpp Require Import base gmap strings list sorting relations.
From Stdlib Require Import ZArith Ascii String.
From S2P Require Import Prelude Json Sha256 Datetime Validation WorkflowContract Model Storage StorageWf Search StorageReads Repository ResourcePaths Workflows Lifecycle ProgressMutations Arenas Sessions Frames.

Local Open Scope Z_scope.

(** ** Requests *)

Record WorkReference := {
  wref_kind : string;
  wref_id : string;
  wref_version : Z
}.

Definition wref_key (r : WorkReference) : key := (wref_kind r, wref_id r).

(** The [create] payload. *)
Record create_fields := {
  cf_id : string;
  cf_title : string;
  cf_description : string;
  cf_priority : Z;
  cf_artifact_ids : list string;
  cf_external_link_ids : list string
}.

(** [dependency.*] and [blocker.*]. *)
Inductive edge_relation : Type := dependency | blocker.

Definition relation_name (r : edge_relation) : string :=
  match r with dependency => "DEPENDS_ON" | blocker => "BLOCKS" end.

(** The operations on an active work object. *)
Inductive named_operation : Type :=
  | op_session_attach (payload : value)
  | op_progress_set (payload : value)
  | op_proposal_reject (p : ProposalReject)
  | op_workflow (o : workflow_operation)
  | op_patch (payload : list (string * value))
  | op_status (s : WorkStatus)
  | op_accept (decision_id decision_title : string)
  | op_convert (issue_id decision_id : string)
  | op_parent_set (previous_parent parent : option WorkReference) (previous_arena : option ArenaReference)
  | op_edge (r : edge_relation) (add : bool) (target : WorkReference).

(** The operations on an existing work object. *)
Inductive subject_operation : Type :=
  | op_archive
  | op_restore
  | op_active (o : named_operation).

Inductive named_request : Type :=
  | req_session_state (id : string) (expected_version : Z) (state : string)
  | req_create (k : Kind) (c : create_fields)
  | req_named (k id : string) (expected_version : Z) (o : subject_operation).

Inductive named_result : Type :=
  | work_done (w : WorkObject)
  | state_done (w : SessionWorkState).

(** The verified caller: actor, session and correlation. *)
Record caller := {
  by_actor : string;
  by_session : string;
  by_correlation : string
}.

Section named.
  Context `{Pydantic, Clock}.

(** ** Checks *)

Definition _current (k i : string) (v : Z) (s : Store) : res WorkObject :=
  w ← get_by_id k i s;
  raise_if (negb (version w =? v)) (WorkObjectVersionConflictError k i v (version w));;
  Ok w.

Definition _reference (r : WorkReference) (s : Store) : res WorkObject :=
  _current (wref_kind r) (wref_id r) (wref_version r) s.

Definition _active (w : WorkObject) : res unit :=
  raise_if (archived w) (InvalidStatusTransitionError "archived Work cannot be changed").

Definition _reopen_before_scope_change (w : WorkObject) : res unit :=
  raise_if (bool_decide (progress w = Some "done"))
    (WorkRelationshipConflict "Reopen completed work before changing its scope.").

Definition _bump (w : WorkObject) : M Store WorkObject := update w (version w).

Definition _bounded_edges (rel : string) (s : Store) : res (list EdgeRecord) :=
  es ← list_edges (Some rel) (Some 10001) s;
  raise_if (10000 <? Z.of_nat (length es)) (StorageUnavailable "relationship validation budget exceeded");;
  Ok es.

(** ** Parents *)

(** The body of [for reference in (prior, payload["parent"])], on one reference. *)
Definition touch_parent (touched : list WorkObject) (r : option WorkReference) (s : Store) : res (list WorkObject) :=
  match r with
  | None => Ok touched
  | Some ref =>
      p ← _reference ref s;
      _active p;;
      _reopen_before_scope_change p;;
      let same w := bool_decide (work_key w = work_key p) in
      raise_if (existsb (λ w, same w && negb (version w =? wref_version ref)) touched)
        (WorkRelationshipConflict "conflicting parent versions");;
      Ok (if existsb same touched then map (λ w, if same w then p else w) touched else touched ++ [p])
  end.

Definition _set_parent (child : WorkObject) (prior parent : option WorkReference)
    (previous_arena : option ArenaReference) : M Store WorkObject :=
  lift (_reopen_before_scope_change child);;
  all_parents ← reads (_bounded_edges "HAS_CHILD");
  let parents := filter (λ e, edge_to e = work_key child) all_parents in
  guard_raise (negb (bool_decide (list_to_set (C := gset key) (map edge_from parents)
                                  = match prior with Some r => {[wref_key r]} | None => ∅ end)))
    (WorkRelationshipConflict "parent precondition failed");;
  touched1 ← reads (touch_parent [] prior);
  touched ← reads (touch_parent touched1 parent);
  remove_for_parent child previous_arena;;
  M_iter (λ e, delete_edge (from_label e) (from_id e) "HAS_CHILD" (kind_name (kind child)) (id child)) parents;;
  match parent with
  | Some r => create_edge (wref_kind r) (wref_id r) "HAS_CHILD" (kind_name (kind child)) (id child)
                {["ordered" := VBool true]};; mret tt
  | None => mret tt
  end;;
  M_iter (λ p, _bump p;; mret tt) touched;;
  _bump child.

(** ** Dependencies and blockers *)

(** [adjacency.get(node, ())]: the targets of the edges from a node, as a set. *)
Definition adjacency (es : list EdgeRecord) (k : key) : list key :=
  remove_dups (map edge_to (filter (λ e, edge_from e = k) es)).

(** The depth-first search from the target: whether the source is reached.  One
    pop for the root and one for each edge are enough ([would_cycle_spec]). *)
Definition would_cycle (es : list EdgeRecord) (source target : key) : bool :=
  match search (adjacency es) (λ k, bool_decide (k = source)) (1 + length es) [target] ∅ with
  | Found => true
  | _ => false
  end.

Definition _edge_change (subject : WorkObject) (r : edge_relation) (add : bool) (target_ref : WorkReference) :
    M Store WorkObject :=
  target ← reads (_reference target_ref);
  lift (_active target);;
  lift (_reopen_before_scope_change subject);;
  lift (_reopen_before_scope_change target);;
  (if add then
     es ← reads (_bounded_edges (relation_name r));
     guard_raise (would_cycle es (work_key subject) (work_key target))
       (WorkRelationshipConflict "relationship would create a cycle");;
     create_edge (kind_name (kind subject)) (id subject) (relation_name r) (kind_name (kind target)) (id target) ∅;;
     mret tt
   else
     delete_edge (kind_name (kind subject)) (id subject) (relation_name r) (kind_name (kind target)) (id target));;
  _bump target;;
  _bump subject.

(** ** Sessions *)

Definition session_attach (c : caller) (subject : WorkObject) (payload : value) : M Store WorkObject :=
  contract ← lift (SessionAttach_of payload);
  let reference i := ref_now i (by_actor c) (by_session c) (by_correlation c) in
  r ← reference (at_session contract);
  M_rethrow is_value_error (λ _, WorkRelationshipConflict "Session attribution conflicts with stored provenance.")
    (match at_link contract with
     | Some l => o ← reference (l_origin l); t ← reference (l_target l); link o t l
     | None => mret tt
     end;;
     attach r (resource_of (work_key subject)) (version subject) (at_basis contract) (Some (at_observed_at contract)));;
  _bump subject.

(** ** Dispatch *)

(** The class [_KINDS[request.kind]] called with the payload's fields. *)
Definition construct_named (k : Kind) (c : create_fields) : M Store WorkObject :=
  created ← utc_now;
  updated ← utc_now;
  lift (post_init (set_content (cf_title c) (cf_description c) (cf_artifact_ids c) (cf_external_link_ids c)
                     (cf_priority c) (new_work k (cf_id c) (cf_title c) created updated))).

Definition named_create (k : Kind) (c : create_fields) : M Store WorkObject :=
  w ← construct_named k c; create w.

Definition named_restore (subject : WorkObject) : M Store WorkObject :=
  guard_raise (negb (archived subject)) (InvalidStatusTransitionError "Item is not archived.");;
  now ← utc_now;
  restored ← lift (replace (λ w, touch now (set_archived false w)) subject);
  restore_node (kind_name (kind subject)) (id subject) (to_node_properties restored);;
  mret restored.

Definition named_accept (subject : WorkObject) (decision_id decision_title : string) : M Store WorkObject :=
  existing ← reads (get_node "Decision" decision_id);
  guard_raise (bool_decide (is_Some existing)) (WorkObjectAlreadyExistsError "Decision already exists");;
  d ← construct KDecision decision_id decision_title "";
  accept_proposal (id subject) (Some d).

Definition named_convert (subject : WorkObject) (issue_id decision_id : string) : M Store WorkObject :=
  es ← reads (_bounded_edges "ACCEPTED_BY_DECISION");
  let decisions := filter (λ e, edge_from e = work_key subject) es in
  guard_raise (negb (bool_decide (map edge_to decisions = [("Decision", decision_id)])))
    (WorkRelationshipConflict "conversion Decision precondition failed");;
  existing ← reads (get_node "Issue" issue_id);
  guard_raise (bool_decide (is_Some existing)) (WorkObjectAlreadyExistsError "Issue already exists");;
  issue ← convert_accepted_proposal_to_issue (id subject) issue_id;
  _bump subject;;
  mret issue.

(** The operations past [self._active(subject)]. *)
Definition named_active (c : caller) (subject : WorkObject) (o : named_operation) : M Store WorkObject :=
  lift (_active subject);;
  match o with
  | op_session_attach payload => session_attach c subject payload
  | op_progress_set payload => set_progress subject payload (by_actor c)
  | op_proposal_reject p => reject_proposal subject p
  | op_workflow op => execute (by_actor c) subject op
  | op_patch payload =>
      changes ← lift (from_mapping payload);
      update_content (kind_name (kind subject)) (id subject) (version subject) changes
  | op_status st => transition_status (kind_name (kind subject)) (id subject) st
  | op_accept di dt => named_accept subject di dt
  | op_convert ii di => named_convert subject ii di
  | op_parent_set p q a => _set_parent subject p q a
  | op_edge r add t => _edge_change subject r add t
  end.

Definition named_body (c : caller) (r : named_request) : M Store named_result :=
  match r with
  | req_session_state i v st =>
      w ← set_state i v st (by_actor c) (by_session c) (by_correlation c); mret (state_done w)
  | req_create k f => w ← named_create k f; mret (work_done w)
  | req_named k i v o =>
      subject ← reads (_current k i v);
      w ← match o with
          | op_archive => archive (kind_name (kind subject)) (id subject)
          | op_restore => named_restore subject
          | op_active a => named_active c subject a
          end;
      mret (work_done w)
  end.

Definition named_execute (c : caller) (r : named_request) : M Store named_result :=
  work_mutation_transaction (named_body c r).

End named.

(** ** Every request keeps the storage well formed *)

Section effects.
  Context {PY : Pydantic} {PL : PydanticLaws} {CK : Clock}.
  Implicit Types (s : Store).

Lemma bump_work_keeps w : keeps (_bump w).
Proof. unfold _bump. keeps_solve. Qed.

#[local] Hint Resolve bump_work_keeps : keeps.

Lemma set_parent_keeps w p q a : keeps (_set_parent w p q a).
Proof. unfold _set_parent. keeps_solve. Qed.

Lemma edge_change_keeps w r b t : keeps (_edge_change w r b t).
Proof. unfold _edge_change. keeps_solve. Qed.

Lemma session_attach_keeps c w v : keeps (session_attach c w v).
Proof. unfold session_attach, ref_now. keeps_solve. Qed.

#[local] Hint Resolve set_parent_keeps edge_change_keeps session_attach_keeps : keeps.

Lemma named_active_keeps c w o : keeps (named_active c w o).
Proof. unfold named_active, named_accept, named_convert. keeps_solve. Qed.

#[local] Hint Resolve named_active_keeps : keeps.

Lemma named_execute_keeps c r : keeps (named_execute c r).
Proof. unfold named_execute, named_body, named_create, construct_named, named_restore. keeps_solve. Qed.

(** ** Requests that leave the structure of Work alone *)

Definition structural (r : named_request) : bool :=
  match r with
  | req_named _ _ _ (op_active (op_parent_set _ _ _)) | req_named _ _ _ (op_active (op_edge _ _ _)) => true
  | _ => false
  end.

Lemma bump_work_edgeless w : edgeless (_bump w).
Proof. apply update_edgeless. Qed.

Lemma named_body_leaves c r : structural r = false → leaves STRUCTURE (named_body c r).
Proof.
  intros Hr. unfold named_body, named_create, construct_named, named_restore, named_active, session_attach, ref_now,
    named_accept, named_convert, _bump.
  destruct r as [| |k i v [| |o]]; [| | | |destruct o; try discriminate Hr]; leaves_solve.
Qed.

(** ** Cycles *)

(** One step along a relationship. *)
Definition rel_step (es : list EdgeRecord) (a b : key) : Prop := ∃ e, e ∈ es ∧ edge_from e = a ∧ edge_to e = b.

Lemma remove_dups_length {A} `{EqDecision A} (l : list A) : (length (remove_dups l) <= length l)%nat.
Proof. induction l as [|x l IH]; simpl; [done|]. case_decide; simpl; lia. Qed.

Lemma elem_of_adjacency es a b : b ∈ adjacency es a ↔ rel_step es a b.
Proof.
  unfold adjacency, rel_step. rewrite elem_of_remove_dups, list_elem_of_fmap. setoid_rewrite list_elem_of_filter. naive_solver.
Qed.

(** The search decides whether the source can be reached from the target. *)
Lemma would_cycle_spec es source target : would_cycle es source target = true ↔ rtc (rel_step es) target source.
Proof.
  unfold would_cycle.
  assert (Hrel : ∀ a b, rtc (step (adjacency es)) a b ↔ rtc (rel_step es) a b).
  { intros a b. split; apply rtc_subrel; intros x y; unfold step; by rewrite elem_of_adjacency. }
  destruct (search_decides (adjacency es) (λ k, bool_decide (k = source)) (map (λ e, (edge_from e, edge_to e)) es))
    with (roots := [target]) (fuel := (1 + length es)%nat)
    as [[-> (r & k & ->%list_elem_of_singleton & Hp & Hg)]|(seen & -> & Hs & Hg)].
  - intros k. unfold adjacency. etrans; [apply remove_dups_length|]. rewrite length_map.
    clear. induction es as [|e l IH]; [done|]. cbn [map]. rewrite !filter_cons. cbn [fst].
    destruct (decide (edge_from e = k)); cbn [length]; lia.
  - simpl. by rewrite length_map.
  - apply bool_decide_eq_true in Hg as ->. split; [|done]. intros _. by apply Hrel.
  - split; [done|]. intros Hp. apply Hrel in Hp.
    assert (source ∈ seen) as Hin by (apply Hs; exists target; split; [by left|done]).
    apply Hg in Hin. by rewrite bool_decide_eq_false in Hin.
Qed.

Definition acyclic (es : list EdgeRecord) : Prop := ∀ k, ¬ tc (rel_step es) k k.

Lemma acyclic_subset es es' : es' ⊆ es → acyclic es → acyclic es'.
Proof.
  intros Hsub Ha k Hk. apply (Ha k). assert (Hone : ∀ a b, rel_step es' a b → rel_step es a b).
  { intros a b (e & He & ?). exists e. split; [by apply Hsub|done]. }
  assert (Hall : ∀ x y, tc (rel_step es') x y → tc (rel_step es) x y); [|by apply Hall].
  intros x y Hxy. induction Hxy as [x y Hs|x y z Hs _ IH]; [by apply tc_once, Hone|]. eapply tc_l; [by apply Hone|done].
Qed.

(** An edge to a node that cannot reach its source closes no cycle. *)
Lemma acyclic_add es e : acyclic es → ¬ rtc (rel_step es) (edge_to e) (edge_from e) → acyclic (es ++ [e]).
Proof.
  intros Ha Hne.
  assert (Hsplit : ∀ x y, tc (rel_step (es ++ [e])) x y →
    tc (rel_step es) x y ∨ (rtc (rel_step es) x (edge_from e) ∧ rtc (rel_step es) (edge_to e) y)).
  { assert (Hone : ∀ x y, rel_step (es ++ [e]) x y → rel_step es x y ∨ (x = edge_from e ∧ y = edge_to e)).
    { intros x y (d & [Hd| ->%list_elem_of_singleton]%elem_of_app & <- & <-); [left; by exists d|by right]. }
    intros x y Hxy. induction Hxy as [x y Hs|x y z Hs Hyz IH]; apply Hone in Hs.
    - destruct Hs as [?|[-> ->]]; [left; by apply tc_once|right; by split].
    - destruct Hs as [Hs|[-> ->]], IH as [IH|[IH1 IH2]].
      + left. by eapply tc_l.
      + right. split; [by eapply rtc_l|done].
      + right. split; [done|]. by apply tc_rtc.
      + by destruct Hne. }
  intros k [Hk|[H1 H2]]%Hsplit; [by apply (Ha k)|]. apply Hne. by trans k.
Qed.

Lemma bounded_edges_Ok rel s es : _bounded_edges rel s = Ok es → es = rel_edges rel s.
Proof.
  unfold _bounded_edges. intros Hb. minv. bools. subst. apply list_edges_all with (limit := 10001); [done|]. lia.
Qed.

Lemma reference_Ok r s w : store_wf s → _reference r s = Ok w →
  work_key w = wref_key r ∧ version w = wref_version r ∧ get_by_id (wref_kind r) (wref_id r) s = Ok w.
Proof.
  unfold _reference, _current. intros Hs Hr. minv. bools. subst.
  destruct (get_by_id_key _ _ _ _ Hs Hr) as [Hk Hi]. unfold work_key, wref_key. by rewrite Hk, Hi.
Qed.

Lemma bump_work_Ok w s w' s' : _bump w s = (Ok w', s') → edges s' = edges s.
Proof. apply edgeless_Ok, bump_work_edgeless. Qed.

Definition scope_open (w : WorkObject) : Prop := progress w ≠ Some "done".

Lemma reopen_Ok w u : _reopen_before_scope_change w = Ok u → scope_open w.
Proof. unfold _reopen_before_scope_change. intros Hr. minv. by bools. Qed.

Lemma active_Ok w u : _active w = Ok u → archived w = false.
Proof. unfold _active. intros Hr. by minv. Qed.

(** What adding or removing a dependency or blocker requires and does. *)
Lemma edge_change_Ok w r add t s w' s' : _edge_change w r add t s = (Ok w', s') →
  ∃ tgt, _reference t s = Ok tgt ∧ archived tgt = false ∧ scope_open tgt ∧ scope_open w
    ∧ let e := Edge (kind_name (kind w)) (id w) (relation_name r) (kind_name (kind tgt)) (id tgt) ∅ in
      if add
      then ¬ rtc (rel_step (rel_edges (relation_name r) s)) (work_key tgt) (work_key w)
           ∧ edges s' = (if decide (e ∈ edges s) then edges s else edges s ++ [e])
      else edges s' = filter (λ e, edge_is (kind_name (kind w)) (id w) (relation_name r)
                                     (kind_name (kind tgt)) (id tgt) e = false) (edges s).
Proof.
  intros Hx. unfold _edge_change in Hx. apply M_bind_Ok in Hx as (tgt & s0 & [Ht ->]%reads_Ok & Hx).
  apply M_bind_Ok in Hx as (? & s0 & [Ha%active_Ok ->]%lift_Ok & Hx).
  apply M_bind_Ok in Hx as (? & s0 & [Ho1%reopen_Ok ->]%lift_Ok & Hx).
  apply M_bind_Ok in Hx as (? & s0 & [Ho2%reopen_Ok ->]%lift_Ok & Hx).
  apply M_bind_Ok in Hx as (? & s1 & Hw & Hx). apply M_bind_Ok in Hx as (? & s2 & He2%bump_work_Ok & He3%bump_work_Ok).
  exists tgt. do 4 (split; [done|]). cbv zeta. rewrite He3, He2. destruct add.
  - apply M_bind_Ok in Hw as (es & s0 & [->%bounded_edges_Ok ->]%reads_Ok & Hw).
    apply M_bind_Ok in Hw as (? & s0 & [Hc ->]%guard_raise_Ok & Hw). minv.
    apply create_edge_Ok in Hw as (-> & _ & _ & _ & He). split; [|done].
    intros Hp%would_cycle_spec. congruence.
  - by apply delete_edge_Ok in Hw as [_ ?].
Qed.

Lemma iter_delete_Ok rel tl ti l s u s' :
  M_iter (λ e, delete_edge (from_label e) (from_id e) rel tl ti) l s = (Ok u, s') →
  ∀ x, x ∈ edges s' ↔ x ∈ edges s ∧ ¬ (relationship x = rel ∧ edge_to x = (tl, ti) ∧ edge_from x ∈ map edge_from l).
Proof.
  revert s. induction l as [|e l IH]; simpl; intros s Hx x.
  { apply M_ret_Ok in Hx as [_ ->]. set_solver. }
  apply M_bind_Ok in Hx as (? & s1 & [_ He]%delete_edge_Ok & Hx). rewrite (IH _ Hx), He, list_elem_of_filter.
  unfold edge_is. rewrite bool_decide_eq_false. unfold edge_from, edge_to. rewrite elem_of_cons.
  split; [intros [[H1 H2] H3]; split; [done|]|intros [H1 H2]; split; [split; [|done]|]].
  - intros (Hr & [= Ht1 Ht2] & [[= Hf1 Hf2]|Hin]); [apply H1; congruence|]. apply H3. by rewrite Ht1, Ht2.
  - intros [=]. apply H2. split; [done|]. split; [congruence|]. left. congruence.
  - intros (? & ? & ?). apply H2. auto.
Qed.

(** Giving a child a parent takes it out of its direct Arena. *)
Lemma remove_for_parent_Ok w prev s u s' : store_wf s → remove_for_parent w prev s = (Ok u, s') →
  ∀ y, y ∈ edges s' ↔ y ∈ edges s ∧ ¬ (relationship y = "CONTAINS_WORK" ∧ edge_to y = work_key w).
Proof.
  intros Hs Hx. unfold remove_for_parent in Hx. apply M_bind_Ok in Hx as (d & s0 & [Hd ->]%reads_Ok & Hx).
  apply M_bind_Ok in Hx as (? & s0 & [Hg ->]%guard_raise_Ok & Hx). bools.
  unfold direct in Hd. apply res_bind_Ok in Hd as (it & Hit & Hd). apply res_bind_Ok in Hd as (o & Ho & Hd).
  apply containment_Ok in Hit as (n & _ & ->). apply direct_id_members in Ho. fold (work_key w) in Ho.
  assert (Hin : ∀ x, x ∈ members_of (work_key w) s ↔ (edge_to x = work_key w ∧ relationship x = "CONTAINS_WORK") ∧ x ∈ edges s).
  { intros y. unfold members_of. by rewrite list_elem_of_filter. }
  destruct o as [a|].
  - apply res_bind_Ok in Hd as (ar & Har & [= <-]). destruct prev as [ref|]; [|done]. simpl in Hg. injection Hg as Hg.
    apply get_arena_id in Har; [|done].
    apply M_bind_Ok in Hx as (? & s0 & [_ ->]%reads_Ok & Hx). apply M_bind_Ok in Hx as (ar' & s0 & [Hc ->]%reads_Ok & Hx).
    apply current_Ok in Hc as [Hc _]. apply get_arena_id in Hc; [|done].
    apply M_bind_Ok in Hx as (? & s1 & [_ He]%delete_edge_Ok & Hx). apply M_bind_Ok in Hx as (? & s2 & Hb & Hx).
    apply M_ret_Ok in Hx as [_ ->]. apply edgeless_Ok in Hb; [|apply bump_edgeless].
    destruct Ho as (e & Hme & Hef). intros y. rewrite Hb, He, list_elem_of_filter. unfold edge_is.
    rewrite bool_decide_eq_false. split; intros [H1 H2]; [split; [done|]|split; [|done]].
    + intros [Hr Ht]. assert (y = e) as ->. { apply list_elem_of_singleton. rewrite <- Hme. by apply Hin. }
      apply H1. injection Hef as -> ->. rewrite Hr. injection Ht as -> ->. congruence.
    + intros [=]. apply H2. split; [done|]. unfold edge_to, work_key. congruence.
  - injection Hd as <-. assert (s' = s) as -> by (destruct prev; by apply M_ret_Ok in Hx as [_ ->]).
    intros y. split; [|by intros [? _]]. intros Hx'. split; [done|]. intros [Hr Ht].
    apply (proj1 (elem_of_nil y)). rewrite <- Ho. by apply Hin.
Qed.

Lemma touch_parent_Ok l r s l' : touch_parent l (Some r) s = Ok l' →
  ∃ p, _reference r s = Ok p ∧ archived p = false ∧ scope_open p.
Proof.
  unfold touch_parent. intros Ht. apply res_bind_Ok in Ht as (p & Hp & Ht).
  apply res_bind_Ok in Ht as (? & Ha%active_Ok & Ht). apply res_bind_Ok in Ht as (? & Ho%reopen_Ok & _). eauto.
Qed.

Lemma elem_of_rel_edges r s e : e ∈ rel_edges r s ↔ relationship e = r ∧ e ∈ edges s.
Proof. unfold rel_edges. by rewrite list_elem_of_filter. Qed.

(** The new parent edge. *)
Definition parent_edge (r : WorkReference) (child : key) : EdgeRecord :=
  Edge (wref_kind r) (wref_id r) "HAS_CHILD" child.1 child.2 {["ordered" := VBool true]}.

(** What a parent change requires and does. *)
Lemma set_parent_Ok child prior parent pa s w s' : store_wf s → _set_parent child prior parent pa s = (Ok w, s') →
  scope_open child
  ∧ (∀ k, (∃ e, e ∈ rel_edges "HAS_CHILD" s ∧ edge_to e = work_key child ∧ edge_from e = k) ↔ wref_key <$> prior = Some k)
  ∧ (∀ r, prior = Some r ∨ parent = Some r → ∃ p, _reference r s = Ok p ∧ archived p = false ∧ scope_open p)
  ∧ ∀ y, y ∈ edges s' ↔
      (y ∈ edges s ∧ ¬ (edge_to y = work_key child ∧ (relationship y = "HAS_CHILD" ∨ relationship y = "CONTAINS_WORK")))
      ∨ ∃ r, parent = Some r ∧ y = parent_edge r (work_key child).
Proof.
  intros Hs Hx. unfold _set_parent in Hx. apply M_bind_Ok in Hx as (? & s0 & [Ho%reopen_Ok ->]%lift_Ok & Hx).
  apply M_bind_Ok in Hx as (es & s0 & [->%bounded_edges_Ok ->]%reads_Ok & Hx). cbv zeta in Hx.
  set (parents := filter (λ e, edge_to e = work_key child) (rel_edges "HAS_CHILD" s)) in Hx.
  apply M_bind_Ok in Hx as (? & s0 & [Hpre ->]%guard_raise_Ok & Hx). bools.
  apply M_bind_Ok in Hx as (t1 & s0 & [Ht1 ->]%reads_Ok & Hx). apply M_bind_Ok in Hx as (t2 & s0 & [Ht2 ->]%reads_Ok & Hx).
  apply M_bind_Ok in Hx as (? & s1 & Hrem & Hx). pose proof (remove_for_parent_Ok _ _ _ _ _ Hs Hrem) as He1.
  apply M_bind_Ok in Hx as (? & s2 & Hdel & Hx). pose proof (iter_delete_Ok _ _ _ _ _ _ _ Hdel) as He2.
  apply M_bind_Ok in Hx as (? & s3 & Hadd & Hx). apply M_bind_Ok in Hx as (? & s4 & Hbump & Hx%bump_work_Ok).
  apply edgeless_Ok in Hbump; [|apply edgeless_iter; intros p; apply edgeless_bind; [apply bump_work_edgeless|
    intros ?; by apply edgeless_same]].
  assert (Hpar : ∀ k, k ∈ map edge_from parents ↔ ∃ e, e ∈ rel_edges "HAS_CHILD" s ∧ edge_to e = work_key child ∧ edge_from e = k).
  { intros k. rewrite list_elem_of_fmap. split.
    - intros (e & -> & [Hto Hin]%list_elem_of_filter). eauto.
    - intros (e & Hin & Hto & <-). exists e. split; [done|]. by apply list_elem_of_filter. }
  split; [done|]. split; [|split].
  - intros k. rewrite <- Hpar, <- (elem_of_list_to_set (C := gset key)), Hpre. destruct prior; simpl; set_solver.
  - intros r [->| ->]; by eapply touch_parent_Ok.
  - assert (Hes : ∀ y, y ∈ edges s2 ↔ y ∈ edges s ∧ ¬ (edge_to y = work_key child ∧ (relationship y = "HAS_CHILD" ∨ relationship y = "CONTAINS_WORK"))).
    { intros y. rewrite He2, He1, Hpar. fold (work_key child). setoid_rewrite elem_of_rel_edges.
      split; intros [Hy Hc]; [destruct Hy as [Hy Hp]|].
      - split; [done|]. intros [Hto [Hr|Hr]]; [apply Hc|by apply Hp]. split_and!; [done..|]. by exists y.
      - split; [split; [done|]|]; intros [Hr Ht]; apply Hc; [auto|]. destruct Ht. auto. }
    intros y. rewrite Hx, Hbump. destruct parent as [r|]; last first.
    { apply M_ret_Ok in Hadd as [_ ->]. rewrite Hes. split; [by left|]. intros [?|(r & [=] & _)]; done. }
    apply M_bind_Ok in Hadd as (e & s5 & Hadd & Hret). apply M_ret_Ok in Hret as [_ ->].
    apply create_edge_Ok in Hadd as (-> & _ & _ & _ & ->). fold (parent_edge r (work_key child)).
    transitivity (y ∈ edges s2 ∨ y = parent_edge r (work_key child)).
    + case_decide; [split; [by left|intros [?| ->]; done]|]. by rewrite elem_of_app, list_elem_of_singleton.
    + rewrite Hes. naive_solver.
Qed.

End effects.

#[export] Hint Resolve named_execute_keeps : keeps.

(** ** Properties *)

Section properties.
  Context {PY : Pydantic} {PL : PydanticLaws} {CK : Clock}.
  Implicit Types (s : Store).

Lemma named_graph c r s x s' : store_wf s → named_execute c r s = (Ok x, s') →
  ∃ s0 s1, named_body c r s0 = (Ok x, s1) ∧ same_graph s s0 ∧ store_wf s0 ∧ same_graph s1 s'.
Proof.
  unfold named_execute, work_mutation_transaction. intros Hs (s0 & s1 & Hb & H0 & [_ Hs0] & H1)%transaction_graph.
  exists s0, s1. auto.
Qed.

Lemma get_by_id_nodes k i s s' : nodes s' = nodes s → get_by_id k i s' = get_by_id k i s.
Proof. intros Hn. unfold get_by_id, get_node. by rewrite Hn. Qed.

(** Setting the parent of a work object is exact: it requires the child and
    both parents at their expected versions, open in scope and active, and the
    named previous parent to be the actual one; afterwards the child's only
    parent is the new one, or it has none, it has no direct Arena, and every
    other edge is as it was. *)
Theorem parent_set_exact c k i v prior parent pa s w s' :
  store_wf s → named_execute c (req_named k i v (op_active (op_parent_set prior parent pa))) s = (Ok (work_done w), s') →
  (∃ child, get_by_id k i s = Ok child ∧ version child = v ∧ archived child = false ∧ scope_open child)
  ∧ (∀ q, (∃ e, e ∈ rel_edges "HAS_CHILD" s ∧ edge_to e = (k, i) ∧ edge_from e = q) ↔ wref_key <$> prior = Some q)
  ∧ (∀ r, prior = Some r ∨ parent = Some r →
       ∃ p, get_by_id (wref_kind r) (wref_id r) s = Ok p ∧ version p = wref_version r ∧ archived p = false ∧ scope_open p)
  ∧ (∀ e, e ∈ edges s' → edge_to e = (k, i) →
       (relationship e = "HAS_CHILD" → ∃ r, parent = Some r ∧ e = parent_edge r (k, i))
       ∧ relationship e ≠ "CONTAINS_WORK")
  ∧ (∀ r, parent = Some r → parent_edge r (k, i) ∈ edges s')
  ∧ (∀ e, edge_to e ≠ (k, i) ∨ (relationship e ≠ "HAS_CHILD" ∧ relationship e ≠ "CONTAINS_WORK") →
       e ∈ edges s' ↔ e ∈ edges s).
Proof.
  intros Hs Hx. apply named_graph in Hx as (s0 & s1 & Hb & [Hn0 He0] & Hs0 & [Hn1 He1]); [|done].
  cbn [named_body] in Hb. apply M_bind_Ok in Hb as (child & s2 & [Hc ->]%reads_Ok & Hb).
  apply (reference_Ok {| wref_kind := k; wref_id := i; wref_version := v |}) in Hc as (Hkey & Hv & Hg); [|done].
  cbn in Hkey, Hv, Hg. apply M_bind_Ok in Hb as (w' & s2 & Hb & Hret). apply M_ret_Ok in Hret as [[= ->] ->].
  cbn [named_active] in Hb. apply M_bind_Ok in Hb as (? & s3 & [Ha%active_Ok ->]%lift_Ok & Hb).
  apply set_parent_Ok in Hb as (Ho & Hprior & Hrefs & Hes); [|done]. rewrite Hkey in Hprior, Hes.
  rewrite (get_by_id_nodes _ _ _ _ Hn0) in Hg. unfold rel_edges in Hprior. rewrite He0 in Hprior, Hes.
  setoid_rewrite He1. change (wref_key _) with (k, i) in *. split_and!.
  - exists child. done.
  - done.
  - intros r Hr. destruct (Hrefs r Hr) as (p & Hp & ? & ?). apply reference_Ok in Hp as (_ & ? & Hp); [|done].
    rewrite (get_by_id_nodes _ _ _ _ Hn0) in Hp. eauto.
  - intros e He Hto. apply Hes in He as [[_ Hno]|(r & -> & ->)]; [naive_solver|]. split; [eauto|done].
  - intros r ->. apply Hes. eauto.
  - intros e He. rewrite Hes. split; [|naive_solver]. intros [[? _]|(r & -> & ->)]; [done|]. exfalso.
    destruct He as [Hto|[Hr _]]; [by apply Hto|by apply Hr].
Qed.

(** A request whose expected version is not the work object's version is
    refused with the version conflict, whatever it asks; on archived Work every
    request but archival and restoration is refused; nothing changes. *)
Theorem stale_or_archived_refused c k i v s w :
  get_by_id k i s = Ok w →
  (version w ≠ v → ∀ o, ∃ s', named_execute c (req_named k i v o) s
     = (Err (WorkObjectVersionConflictError k i v (version w)), s') ∧ same_graph s s')
  ∧ (version w = v → archived w = true → ∀ o, ∃ s', named_execute c (req_named k i v (op_active o)) s
     = (Err (InvalidStatusTransitionError "archived Work cannot be changed"), s') ∧ same_graph s s').
Proof.
  intros Hg.
  assert (Hgo : get_by_id k i (opened s) = Ok w) by (rewrite (get_by_id_nodes _ _ s); [done|apply opened_graph]).
  assert (Hrun : ∀ o e, named_body c (req_named k i v o) (opened s) = (Err e, opened s) →
    ∃ s', named_execute c (req_named k i v o) s = (Err e, s') ∧ same_graph s s').
  { intros o e Hb. destruct (transaction_raise _ _ _ _ Hb) as (s' & ? & ? & ? & _). exists s'. by split. }
  split.
  - intros Hv o. apply Hrun. cbn [named_body]. apply M_bind_fail. unfold reads, _current. rewrite Hgo. simpl.
    by rewrite (proj2 (Z.eqb_neq _ _)).
  - intros Hv Ha o. apply Hrun. cbn [named_body]. eapply M_bind_intro.
    { eapply reads_run. unfold _current. rewrite Hgo. simpl. by rewrite (proj2 (Z.eqb_eq _ _)). }
    apply M_bind_fail. unfold named_active. apply M_bind_fail. unfold lift, _active. by rewrite Ha.
Qed.

End properties.

(** ** Witnesses *)

Section witnesses.

#[local] Existing Instance reference_pydantic.
#[local] Existing Instance reference_pydantic_laws.
#[local] Existing Instance epoch_clock.

Definition ex_caller : caller := {| by_actor := "a"; by_session := "s"; by_correlation := "c" |}.

Definition ex_fields (i : string) : create_fields :=
  {| cf_id := i; cf_title := "t"; cf_description := ""; cf_priority := 0; cf_artifact_ids := []; cf_external_link_ids := [] |}.

Definition ex_wref (k i : string) (v : Z) : WorkReference := {| wref_kind := k; wref_id := i; wref_version := v |}.

(** An Issue j and the Tasks t and u. *)
Definition ex_named_program : M Store unit :=
  named_execute ex_caller (req_create KIssue (ex_fields "j"));;
  named_execute ex_caller (req_create KTask (ex_fields "t"));;
  named_execute ex_caller (req_create KTask (ex_fields "u"));;
  mret tt.

Definition ex_named_store : Store := (ex_named_program empty_store).2.

Lemma ex_named_store_wf : store_wf ex_named_store.
Proof.
  assert (Hk : keeps ex_named_program).
  { do 3 (apply keeps_bind; [apply named_execute_keeps|intros _]). by apply keeps_same. }
  apply Hk, empty_store_wf.
Defined.

Definition ex_parent_set : named_request :=
  req_named "Task" "t" 1 (op_active (op_parent_set None (Some (ex_wref "Issue" "j" 1)) None)).

Lemma parent_set_exact_witness : ∃ w s',
  named_execute ex_caller ex_parent_set ex_named_store = (Ok (work_done w), s')
  ∧ parent_edge (ex_wref "Issue" "j" 1) ("Task", "t") ∈ edges s'.
Proof.
  assert (Hok : match (named_execute ex_caller ex_parent_set ex_named_store).1 with Ok (work_done _) => true | _ => false end
                = true) by (vm_compute; reflexivity).
  destruct (named_execute ex_caller ex_parent_set ex_named_store) as [[[w|]|] s'] eqn:E; [|discriminate Hok..].
  exists w, s'. split; [reflexivity|].
  destruct (parent_set_exact _ _ _ _ _ _ _ _ _ _ ex_named_store_wf E) as (_ & _ & _ & _ & Hnew & _).
  exact (Hnew _ eq_refl).
Defined.

Lemma stale_or_archived_refused_witness : ∃ w s',
  get_by_id "Task" "t" ex_named_store = Ok w
  ∧ named_execute ex_caller (req_named "Task" "t" 7 op_archive) ex_named_store
    = (Err (WorkObjectVersionConflictError "Task" "t" 7 (version w)), s').
Proof.
  assert (Hok : match get_by_id "Task" "t" ex_named_store with Ok w => version w =? 1 | _ => false end = true)
    by (vm_compute; reflexivity).
  destruct (get_by_id "Task" "t" ex_named_store) as [w|] eqn:E; [|discriminate Hok].
  destruct (proj1 (stale_or_archived_refused ex_caller "Task" "t" 7 ex_named_store w E)) with (o := op_archive)
    as (s' & Hrun & _); [intros Hv; rewrite Hv in Hok; discriminate Hok|].
  exists w, s'. exact (conj eq_refl Hrun).
Defined.

End witnesses.
