(* ===== verification/WorkGraph.v ===== *)
(** * The graph that admitted requests build

    The two entry points that change Work, [NamedWorkMutations.execute] and
    [ArenaMutations.execute], as a transition system over one storage.  The
    requests are those the request contracts admit: [WorkRequest.from_json]
    ([src/devgraph/work_requests.py]) restricts parent kinds and
    [ArenaRequest.from_json] ([src/devgraph/arena_requests.py]) the kinds of
    direct members.  Every reachable storage is well formed, its dependencies and
    blockers are acyclic, its hierarchy follows the parent kinds with one parent
    each, and direct members of Arenas are roots; so the Arena of a work object
    can always be determined. *)

From stdpp Require Import base gmap strings list sorting relations.
From Stdlib Require Import ZArith Ascii String.
From S2P Require Import Prelude Json Sha256 Datetime Validation WorkflowContract Model Storage StorageWf Search StorageReads Repository ResourcePaths Workflows Lifecycle ProgressMutations Arenas Sessions Frames NamedWork.

Local Open Scope Z_scope.

(** ** Admitted requests *)

Inductive request : Type :=
  | work_request (c : caller) (r : named_request)
  | arena_request_of (r : arena_request).

(** The parent kinds [WorkRequest.from_json] admits for [parent.set]. *)
Definition parent_kinds_admitted (k : string) (refs : list (option WorkReference)) : bool :=
  bool_decide (is_Some (dict_get k PARENTS))
  && forallb (λ o, match o with Some r => str_in (wref_kind r) (parent_kinds k) | None => true end) refs.

Definition request_ok (q : request) : bool :=
  match q with
  | work_request _ (req_named k _ _ (op_active (op_parent_set prior parent _))) => parent_kinds_admitted k [prior; parent]
  | work_request _ _ => true
  | arena_request_of (arena_member_set k _ _ _ _) => str_in k ["Initiative"; "Task"]
  | arena_request_of _ => true
  end.

Section graph.
  Context {PY : Pydantic} {CK : Clock}.

(** One request, accepted or refused. *)
Definition handle (q : request) (s : Store) : Store :=
  match q with
  | work_request c r => (named_execute c r s).2
  | arena_request_of r => (arena_execute r s).2
  end.

Inductive reachable : Store → Prop :=
  | reach_empty : reachable empty_store
  | reach_handle s q : reachable s → request_ok q = true → reachable (handle q s).

(** ** The invariant *)

Record graph_wf (s : Store) : Prop := {
  gw_dependencies : acyclic (rel_edges "DEPENDS_ON" s);
  gw_blockers : acyclic (rel_edges "BLOCKS" s);
  gw_parent_kind e : e ∈ rel_edges "HAS_CHILD" s → str_in (from_label e) (parent_kinds (to_label e)) = true;
  gw_one_parent e e' : e ∈ rel_edges "HAS_CHILD" s → e' ∈ rel_edges "HAS_CHILD" s → edge_to e = edge_to e' → e = e';
  gw_member e : e ∈ rel_edges "CONTAINS_WORK" s → from_label e = "Arena" ∧ str_in (to_label e) DIRECT_KINDS = true;
  gw_one_arena e e' : e ∈ rel_edges "CONTAINS_WORK" s → e' ∈ rel_edges "CONTAINS_WORK" s → edge_to e = edge_to e' → e = e';
  gw_root e e' : e ∈ rel_edges "HAS_CHILD" s → e' ∈ rel_edges "CONTAINS_WORK" s → edge_to e ≠ edge_to e'
}.

Lemma graph_wf_subset s s' : (∀ r, str_in r STRUCTURE = true → rel_edges r s' ⊆ rel_edges r s) → graph_wf s → graph_wf s'.
Proof.
  intros Hsub []. pose proof (Hsub "HAS_CHILD" eq_refl) as H1. pose proof (Hsub "CONTAINS_WORK" eq_refl) as H2.
  constructor.
  - by eapply acyclic_subset; [apply (Hsub "DEPENDS_ON")|].
  - by eapply acyclic_subset; [apply (Hsub "BLOCKS")|].
  - intros e He. by apply gw_parent_kind0, H1.
  - intros e e' He He'. by apply gw_one_parent0; apply H1.
  - intros e He. by apply gw_member0, H2.
  - intros e e' He He'. by apply gw_one_arena0; apply H2.
  - intros e e' He He'. apply gw_root0; [by apply H1|by apply H2].
Qed.

Lemma graph_wf_same s s' : (∀ r, str_in r STRUCTURE = true → rel_edges r s' = rel_edges r s) → graph_wf s → graph_wf s'.
Proof. intros Hsame. apply graph_wf_subset. intros r Hr. by rewrite Hsame. Qed.

Lemma graph_wf_edges s s' : edges s' = edges s → graph_wf s → graph_wf s'.
Proof. intros He. apply graph_wf_same. intros r _. unfold rel_edges. by rewrite He. Qed.

Lemma empty_graph_wf : graph_wf empty_store.
Proof.
  constructor; try (intros e He; by apply not_elem_of_nil in He); try (intros e e' He; by apply not_elem_of_nil in He).
  - intros k Hk. by inversion Hk as [? ? (e & He & _)|? ? ? (e & He & _)]; apply not_elem_of_nil in He.
  - intros k Hk. by inversion Hk as [? ? (e & He & _)|? ? ? (e & He & _)]; apply not_elem_of_nil in He.
Qed.

End graph.

(** ** Preservation *)

Section preservation.
  Context {PY : Pydantic} {PL : PydanticLaws} {CK : Clock}.

Lemma rel_edges_snoc r s s' e : edges s' = edges s ++ [e] →
  rel_edges r s' = if decide (relationship e = r) then rel_edges r s ++ [e] else rel_edges r s.
Proof.
  intros He. unfold rel_edges. rewrite He, filter_app, filter_cons. case_decide; by rewrite filter_nil, ?app_nil_r.
Qed.

(** A dependency or blocker to Work that does not reach back. *)
Lemma graph_wf_relation s s' r e : graph_wf s → relationship e = relation_name r → edges s' = edges s ++ [e] →
  ¬ rtc (rel_step (rel_edges (relation_name r) s)) (edge_to e) (edge_from e) → graph_wf s'.
Proof.
  intros [] Hr He Hno. pose proof (λ x, rel_edges_snoc x s s' e He) as Hx. rewrite Hr in Hx.
  assert (Hc : rel_edges "HAS_CHILD" s' = rel_edges "HAS_CHILD" s) by (rewrite Hx; by destruct r).
  assert (Hm : rel_edges "CONTAINS_WORK" s' = rel_edges "CONTAINS_WORK" s) by (rewrite Hx; by destruct r).
  constructor; rewrite ?Hc, ?Hm; try done; rewrite Hx; case_decide as Heq; try done; destruct r; try done; by apply acyclic_add.
Qed.

Lemma graph_wf_edge_change w r add t s w' s' : store_wf s → graph_wf s → _edge_change w r add t s = (Ok w', s') → graph_wf s'.
Proof.
  intros Hs Hg (tgt & _ & _ & _ & _ & He)%edge_change_Ok. cbv zeta in He. destruct add.
  - destruct He as [Hno He]. case_decide; [by apply (graph_wf_edges s)|].
    by eapply (graph_wf_relation s s' r); [| |exact He|].
  - apply (graph_wf_subset s); [|done]. intros x Hx e. rewrite !elem_of_rel_edges, He, list_elem_of_filter. tauto.
Qed.

(** A parent change between admitted kinds. *)
Lemma graph_wf_parent w prior parent pa s w' s' : store_wf s → graph_wf s →
  parent_kinds_admitted (kind_name (kind w)) [prior; parent] = true → _set_parent w prior parent pa s = (Ok w', s') →
  graph_wf s'.
Proof.
  intros Hs [] Hk (_ & _ & _ & Hes)%set_parent_Ok; [|done].
  assert (Hold : ∀ r e, e ∈ rel_edges r s' → r ≠ "HAS_CHILD" → e ∈ rel_edges r s ∧ (r = "CONTAINS_WORK" → edge_to e ≠ work_key w)).
  { intros r e [Hr [[He Hno]|(q & _ & ->)]%Hes]%elem_of_rel_edges Hne; [|by destruct Hne].
    rewrite elem_of_rel_edges. split; [done|]. intros ->. intros Hto. apply Hno. auto. }
  assert (Hpar : ∀ e, e ∈ rel_edges "HAS_CHILD" s' →
    (e ∈ rel_edges "HAS_CHILD" s ∧ edge_to e ≠ work_key w) ∨ ∃ q, parent = Some q ∧ e = parent_edge q (work_key w)).
  { intros e [Hr [[He Hno]|?]%Hes]%elem_of_rel_edges; [left|by right]. rewrite elem_of_rel_edges.
    split; [done|]. intros Hto. apply Hno. auto. }
  constructor.
  - eapply acyclic_subset; [|exact gw_dependencies0]. intros e He. by apply (Hold _ _ He).
  - eapply acyclic_subset; [|exact gw_blockers0]. intros e He. by apply (Hold _ _ He).
  - intros e [[He _]|(q & -> & ->)]%Hpar; [auto|]. unfold parent_kinds_admitted in Hk. simpl in Hk.
    apply andb_prop in Hk as [_ Hk]. destruct prior; apply andb_prop in Hk as [? Hk]; bools; done.
  - intros e e' [[He Hc]|(q & Hq & ->)]%Hpar [[He' Hc']|(q' & Hq' & ->)]%Hpar Hto; [auto|by destruct Hc|by destruct Hc'|].
    congruence.
  - intros e He. apply gw_member0. by apply (Hold _ _ He).
  - intros e e' He He'. apply gw_one_arena0; [by apply (Hold _ _ He)|by apply (Hold _ _ He')].
  - intros e e' He [He' Hc]%Hold; [|done]. apply Hpar in He as [[He _]|(q & _ & ->)]; [auto|].
    intros Hto. by apply Hc.
Qed.

Lemma elem_of_members e s : e ∈ rel_edges "CONTAINS_WORK" s ↔ e ∈ members_of (edge_to e) s.
Proof. rewrite elem_of_rel_edges. unfold members_of. rewrite list_elem_of_filter. tauto. Qed.

Lemma incoming_nil r k s : incoming r k s = [] → ∀ e, e ∈ rel_edges r s → edge_to e ≠ k.
Proof.
  unfold incoming. intros Hn e [Hr He]%elem_of_rel_edges Hto. assert (e ∈ filter (λ e, edge_to e = k ∧ relationship e = r) (edges s)) as Hin.
  { by apply list_elem_of_filter. }
  destruct (filter _ (edges s)); [by apply not_elem_of_nil in Hin|done].
Qed.

(** A direct membership between an Arena and Work that may be in one. *)
Lemma graph_wf_member k i v previous target s w s' : store_wf s → graph_wf s → str_in k ["Initiative"; "Task"] = true →
  arena_execute (arena_member_set k i v previous target) s = (Ok (member_changed w), s') → graph_wf s'.
Proof.
  intros Hs [] Hk Hx. pose proof (arena_execute_leaves (arena_member_set k i v previous target)) as Hleft.
  assert (Hsame : ∀ r, str_in r ["HAS_CHILD"; "DEPENDS_ON"; "BLOCKS"] = true → rel_edges r s' = rel_edges r s).
  { intros r Hr. specialize (Hleft r s Hr). by rewrite Hx in Hleft. }
  apply member_set_facts in Hx as (Hmem & Hoth & Hpar & _); [|done].
  assert (Hin : ∀ e, e ∈ rel_edges "CONTAINS_WORK" s' →
    (edge_to e ≠ (k, i) ∧ e ∈ rel_edges "CONTAINS_WORK" s)
    ∨ (edge_to e = (k, i) ∧ ∃ ref, target = Some ref ∧ e = Edge "Arena" (ref_id ref) "CONTAINS_WORK" k i ∅)).
  { intros e He%elem_of_members. destruct (decide (edge_to e = (k, i))) as [Hto|Hto].
    - right. split; [done|]. rewrite Hto, Hmem in He. destruct target as [ref|]; [|by apply not_elem_of_nil in He].
      apply list_elem_of_singleton in He as ->. eauto.
    - left. split; [done|]. apply elem_of_members. by rewrite <- Hoth. }
  constructor; rewrite ?(Hsame "DEPENDS_ON"), ?(Hsame "BLOCKS"), ?(Hsame "HAS_CHILD") by done; try done.
  - intros e [[_ He]|(_ & ref & _ & ->)]%Hin; [auto|]. done.
  - intros e e' [[Hn He]|(Ht & ref & Hr & ->)]%Hin [[Hn' He']|(Ht' & ref' & Hr' & ->)]%Hin Hto; [auto|congruence|congruence|].
    congruence.
  - intros e e' He [[_ He']|(Ht & _)]%Hin; [auto|]. rewrite Ht. by eapply incoming_nil; [|rewrite Hsame].
Qed.

(** Requests on Arena records change no edge. *)
Lemma arena_record_edges r s a s' : arena_execute r s = (Ok (arena_changed a), s') → edges s' = edges s.
Proof.
  destruct r as [i t d|i v t d|i v|k i v p t]; intros Hx.
  1-3: eapply edgeless_Ok; [|exact Hx]; apply edgeless_transaction; unfold arena_execute_body, create_arena, change_arena, bump;
    edgeless_solve.
  apply transaction_graph in Hx as (s0 & s1 & Hb & _). cbn in Hb. by apply M_bind_Ok in Hb as (w & s2 & _ & [[=] _]%M_ret_Ok).
Qed.

Lemma arena_result_kind r s w s' : arena_execute r s = (Ok (member_changed w), s') →
  match r with arena_member_set _ _ _ _ _ => True | _ => False end.
Proof.
  intros (s0 & s1 & Hb & _)%transaction_graph. destruct r; cbn in Hb; [..|done];
    by apply M_bind_Ok in Hb as (a & s2 & _ & [[=] _]%M_ret_Ok).
Qed.

Lemma handle_wf q s : request_ok q = true → store_wf s ∧ graph_wf s → store_wf (handle q s) ∧ graph_wf (handle q s).
Proof.
  intros Hq [Hs Hg]. split.
  { destruct q; [by apply named_execute_keeps|by apply arena_execute_keeps]. }
  destruct q as [c r|r]; simpl.
  - destruct (named_execute c r s) as [[x|e] s'] eqn:Hx; simpl; last first.
    { apply (graph_wf_edges s); [|done]. by apply transaction_Err in Hx as (_ & _ & He & _). }
    destruct (structural r) eqn:Hr; last first.
    { apply (graph_wf_same s); [|done]. intros rel Hrel. pose proof (leaves_transaction _ _ (named_body_leaves c r Hr)) as Hl.
      specialize (Hl rel s Hrel). by rewrite <- Hl; unfold named_execute, work_mutation_transaction in Hx; rewrite Hx. }
    apply named_graph in Hx as (s0 & s1 & Hb & [_ He0] & Hs0 & [_ He1]); [|done].
    apply (graph_wf_edges s1); [done|]. apply (graph_wf_edges s s0 He0) in Hg.
    destruct r as [| |k i v [| |o]]; try discriminate Hr. cbn [named_body] in Hb.
    apply M_bind_Ok in Hb as (w & s2 & [Hc ->]%reads_Ok & Hb). apply M_bind_Ok in Hb as (w' & s2 & Hb & [_ ->]%M_ret_Ok).
    unfold named_active in Hb. apply M_bind_Ok in Hb as (? & s3 & [_ ->]%lift_Ok & Hb).
    destruct o; try discriminate Hr; [|by eapply graph_wf_edge_change].
    eapply graph_wf_parent; [done|done| |exact Hb].
    apply (reference_Ok {| wref_kind := k; wref_id := i; wref_version := v |}) in Hc as ([= -> _] & _); [|done]. done.
  - destruct (arena_execute r s) as [[x|e] s'] eqn:Hx; simpl; last first.
    { apply (graph_wf_edges s); [|done]. by apply transaction_Err in Hx as (_ & _ & He & _). }
    destruct x as [a|w]; last first.
    + destruct r as [| | |k i v p t]; try (by apply arena_result_kind in Hx). by eapply graph_wf_member.
    + apply (graph_wf_edges s); [|done]. by eapply arena_record_edges.
Qed.

Lemma reachable_wf s : reachable s → store_wf s ∧ graph_wf s.
Proof.
  induction 1 as [|s q _ IH Hq]; [split; [apply empty_store_wf|apply empty_graph_wf]|]. by apply handle_wf.
Qed.

End preservation.

(** ** The abstract placement of Work

    What the requests promise about placement: a parent and a direct Arena for
    each work object. *)

Record placement := {
  parent_of : key → option key;
  arena_of : key → option string
}.

Definition update_at {A} (f : key → A) (k : key) (a : A) : key → A := λ k', if decide (k' = k) then a else f k'.

(** An accepted request changes the placement of its subject; a refused one, and
    every other accepted one, changes nothing. *)
Definition placement_spec (q : request) (accepted : bool) (p : placement) : placement :=
  if accepted then
    match q with
    | work_request _ (req_named k i _ (op_active (op_parent_set _ parent _))) =>
        {| parent_of := update_at (parent_of p) (k, i) (wref_key <$> parent); arena_of := update_at (arena_of p) (k, i) None |}
    | arena_request_of (arena_member_set k i _ _ target) =>
        {| parent_of := parent_of p; arena_of := update_at (arena_of p) (k, i) (ref_id <$> target) |}
    | _ => p
    end
  else p.

(** The placement stored in the edges. *)
Definition placement_in (s : Store) : placement :=
  {| parent_of := λ k, edge_from <$> head (filter (λ e, edge_to e = k) (rel_edges "HAS_CHILD" s));
     arena_of := λ k, from_id <$> head (filter (λ e, edge_to e = k) (rel_edges "CONTAINS_WORK" s)) |}.

Definition same_placement (p q : placement) : Prop :=
  ∀ k, parent_of p k = parent_of q k ∧ arena_of p k = arena_of q k.

#[export] Instance same_placement_equiv : Equivalence same_placement.
Proof.
  split; [by intros p k|intros p q H k; by destruct (H k)|].
  intros p q r H1 H2 k. destruct (H1 k) as [-> ->]. by destruct (H2 k) as [-> ->].
Qed.

#[export] Instance placement_spec_proper q b : Proper (same_placement ==> same_placement) (placement_spec q b).
Proof.
  intros p p' Hp k. unfold placement_spec, update_at. destruct b; [|by apply Hp].
  repeat case_match; simpl; repeat case_decide; split; try done; by apply Hp.
Qed.

Section refinement.
  Context {PY : Pydantic} {PL : PydanticLaws} {CK : Clock}.

Definition is_accepted (q : request) (s : Store) : bool :=
  match q with
  | work_request c r => is_ok (named_execute c r s).1
  | arena_request_of r => is_ok (arena_execute r s).1
  end.

(** With at most one edge to each key, the first one is the one. *)
Lemma head_unique {A} (f : EdgeRecord → A) (es : list EdgeRecord) k a :
  (∀ e e', e ∈ es → e' ∈ es → edge_to e = edge_to e' → e = e') →
  f <$> head (filter (λ e, edge_to e = k) es) = Some a ↔ ∃ e, e ∈ es ∧ edge_to e = k ∧ f e = a.
Proof.
  intros Huniq. assert (Hin : ∀ e, e ∈ filter (λ e, edge_to e = k) es ↔ edge_to e = k ∧ e ∈ es) by (intros; by rewrite list_elem_of_filter).
  destruct (filter _ es) as [|x l]; simpl; split.
  - done.
  - intros (e & He & Hto & _). exfalso. apply (proj1 (elem_of_nil e)). by apply Hin.
  - intros [= <-]. exists x. destruct (proj1 (Hin x)) as [? ?]; [by left|]. done.
  - intros (e & He & Hto & <-). f_equal. f_equal. destruct (proj1 (Hin x)) as [Hx1 Hx2]; [by left|].
    apply Huniq; [done..|congruence].
Qed.

Lemma parent_of_spec s k p : graph_wf s →
  parent_of (placement_in s) k = Some p ↔ ∃ e, e ∈ rel_edges "HAS_CHILD" s ∧ edge_to e = k ∧ edge_from e = p.
Proof. intros Hg. apply head_unique, Hg. Qed.

Lemma arena_of_spec s k a : graph_wf s →
  arena_of (placement_in s) k = Some a ↔ ∃ e, e ∈ rel_edges "CONTAINS_WORK" s ∧ edge_to e = k ∧ from_id e = a.
Proof. intros Hg. apply head_unique, Hg. Qed.

Lemma same_placement_rel s s' : rel_edges "HAS_CHILD" s' = rel_edges "HAS_CHILD" s →
  rel_edges "CONTAINS_WORK" s' = rel_edges "CONTAINS_WORK" s → same_placement (placement_in s') (placement_in s).
Proof. intros H1 H2 k. simpl. by rewrite H1, H2. Qed.

Lemma same_placement_edges s s' : edges s' = edges s → same_placement (placement_in s') (placement_in s).
Proof. intros He. apply same_placement_rel; unfold rel_edges; by rewrite He. Qed.

Lemma edge_change_leaves w r b t : leaves ["HAS_CHILD"; "CONTAINS_WORK"] (_edge_change w r b t).
Proof. unfold _edge_change, _bump. destruct r; leaves_solve. Qed.

(** Only a parent change can change the placement among the named requests. *)
Lemma named_leaves_placement c r s : match r with req_named _ _ _ (op_active (op_parent_set _ _ _)) => False | _ => True end →
  same_placement (placement_in (named_execute c r s).2) (placement_in s).
Proof.
  intros Hr. assert (leaves ["HAS_CHILD"; "CONTAINS_WORK"] (named_execute c r)) as Hl.
  { destruct (structural r) eqn:Hs.
    - destruct r as [| |k i v [| |[]]]; try done. unfold named_execute, named_body, named_active. leaves_step.
      pose proof edge_change_leaves. leaves_solve.
    - intros x s0 Hx. apply leaves_transaction with (rs := STRUCTURE); [by apply named_body_leaves|].
      apply str_in_spec. apply str_in_spec in Hx. unfold STRUCTURE. set_solver. }
  apply same_placement_rel; by apply Hl.
Qed.

Lemma parent_change_placement c k i v prior parent pa s x s' : store_wf s → graph_wf s → graph_wf s' →
  named_execute c (req_named k i v (op_active (op_parent_set prior parent pa))) s = (Ok x, s') →
  same_placement (placement_in s') (placement_spec (work_request c (req_named k i v (op_active (op_parent_set prior parent pa)))) true (placement_in s)).
Proof.
  intros Hs Hg Hg' Hx. apply named_graph in Hx as (s0 & s1 & Hb & [_ He0] & Hs0 & [_ He1]); [|done].
  cbn [named_body] in Hb. apply M_bind_Ok in Hb as (w & s2 & [Hc ->]%reads_Ok & Hb).
  apply M_bind_Ok in Hb as (w' & s2 & Hb & [_ ->]%M_ret_Ok).
  unfold named_active in Hb. apply M_bind_Ok in Hb as (? & s3 & [_ ->]%lift_Ok & Hb).
  apply (reference_Ok {| wref_kind := k; wref_id := i; wref_version := v |}) in Hc as (Hkey & _); [|done].
  apply set_parent_Ok in Hb as (_ & _ & _ & Hes); [|done]. rewrite Hkey in Hes. change (wref_key _) with (k, i) in Hes at 1.
  rewrite <- He1, He0 in Hes. clear He0 He1 Hs0. change (wref_key _) with (k, i) in Hes.
  intros q. split; apply option_eq; intros p; cbn [placement_spec parent_of arena_of]; unfold update_at; case_decide as Hq.
  - rewrite parent_of_spec by done. subst q. split.
    + intros (e & [Hr [[_ Hno]|(r & -> & ->)]%Hes]%elem_of_rel_edges & Hto & <-); [destruct Hno; auto|done].
    + intros (r & -> & ->)%fmap_Some. exists (parent_edge r (k, i)). rewrite elem_of_rel_edges, Hes. eauto 8.
  - change (edge_from <$> _) with (parent_of (placement_in s) q). rewrite !parent_of_spec by done. split.
    + intros (e & [Hr [[He _]|(r & -> & ->)]%Hes]%elem_of_rel_edges & Hto & <-); [|by destruct Hq].
      exists e. by rewrite elem_of_rel_edges.
    + intros (e & [Hr He]%elem_of_rel_edges & Hto & <-). exists e. rewrite elem_of_rel_edges, Hes.
      split_and!; try done. left. split; [done|]. intros [? _]. congruence.
  - rewrite arena_of_spec by done. split; [|done].
    intros (e & [Hr [[_ Hno]|(r & -> & ->)]%Hes]%elem_of_rel_edges & Hto & <-); [|done]. destruct Hno. subst q. auto.
  - change (from_id <$> _) with (arena_of (placement_in s) q). rewrite !arena_of_spec by done. split.
    + intros (e & [Hr [[He _]|(r & -> & ->)]%Hes]%elem_of_rel_edges & Hto & <-); [|done].
      exists e. by rewrite elem_of_rel_edges.
    + intros (e & [Hr He]%elem_of_rel_edges & Hto & <-). exists e. rewrite elem_of_rel_edges, Hes.
      split_and!; try done. left. split; [done|]. intros [? _]. congruence.
Qed.

Lemma member_change_placement k i v previous target s w s' : store_wf s → graph_wf s → graph_wf s' →
  arena_execute (arena_member_set k i v previous target) s = (Ok (member_changed w), s') →
  same_placement (placement_in s')
    (placement_spec (arena_request_of (arena_member_set k i v previous target)) true (placement_in s)).
Proof.
  intros Hs Hg Hg' Hx. pose proof (arena_execute_leaves (arena_member_set k i v previous target) "HAS_CHILD" s eq_refl) as Hleft.
  rewrite Hx in Hleft. simpl in Hleft. apply member_set_facts in Hx as (Hmem & Hoth & _); [|done].
  intros q. cbn [placement_spec parent_of arena_of]. split; [simpl; by rewrite Hleft|].
  assert (Hhead : ∀ s0, arena_of (placement_in s0) q = from_id <$> head (members_of q s0)).
  { intros s0. simpl. unfold rel_edges, members_of. by rewrite list_filter_filter. }
  unfold update_at. case_decide as Hq.
  - subst q. rewrite Hhead, Hmem. by destruct target.
  - change (from_id <$> _) with (arena_of (placement_in s) q). by rewrite !Hhead, Hoth.
Qed.

(** Each request, accepted or refused, does to the placement what it promises. *)
Lemma handle_refines q s : store_wf s → graph_wf s → graph_wf (handle q s) →
  same_placement (placement_in (handle q s)) (placement_spec q (is_accepted q s) (placement_in s)).
Proof.
  intros Hs Hg Hg'. destruct q as [c r|r]; simpl in *.
  - destruct (named_execute c r s) as [[x|e] s'] eqn:Hx; simpl in *; last first.
    { apply same_placement_edges. by apply transaction_Err in Hx as (_ & _ & He & _). }
    destruct r as [| |k i v [| |[]]]; try (match goal with H : named_execute c ?q s = _ |- _ =>
      pose proof (named_leaves_placement c q s I) as Hl; by rewrite Hx in Hl end).
    by eapply parent_change_placement.
  - destruct (arena_execute r s) as [[[a|w]|e] s'] eqn:Hx; simpl in *.
    + pose proof (same_placement_edges _ _ (arena_record_edges _ _ _ _ Hx)) as Hp.
      destruct r; try done. exfalso. apply transaction_graph in Hx as (s0 & s1 & Hb & _). cbn in Hb.
      by apply M_bind_Ok in Hb as (w & s2 & _ & [[=] _]%M_ret_Ok).
    + pose proof (arena_result_kind _ _ _ _ Hx) as Hk. destruct r; try done. by eapply member_change_placement.
    + apply same_placement_edges. by apply transaction_Err in Hx as (_ & _ & He & _).
Qed.

End refinement.

(** ** Membership in a well-formed graph *)

Section membership.
  Context {PY : Pydantic} {PL : PydanticLaws} {CK : Clock}.

Lemma incoming_unique r k s : (∀ e e', e ∈ rel_edges r s → e' ∈ rel_edges r s → edge_to e = edge_to e' → e = e') →
  NoDup (edges s) → (length (incoming r k s) <= 1)%nat.
Proof.
  intros Hu Hnd. unfold incoming. assert (Hin : ∀ e, e ∈ filter (λ e, edge_to e = k ∧ relationship e = r) (edges s) →
    edge_to e = k ∧ e ∈ rel_edges r s).
  { intros e [[? ?] ?]%list_elem_of_filter. by rewrite elem_of_rel_edges. }
  apply (NoDup_filter (λ e, edge_to e = k ∧ relationship e = r)) in Hnd.
  destruct (filter _ (edges s)) as [|a [|b l]]; simpl; [lia..|]. exfalso.
  destruct (Hin a) as [Ha1 Ha2]; [by left|]. destruct (Hin b) as [Hb1 Hb2]; [by right; left|].
  apply NoDup_cons in Hnd as [Hno _]. apply Hno. rewrite (Hu a b) by congruence. by left.
Qed.

Lemma direct_id_Ok k n ps s : store_wf s → graph_wf s → nodes s !! k = Some n →
  is_ok (_direct_id (Containment n ps (incoming "CONTAINS_WORK" k s))) = true.
Proof.
  intros Hs Hg Hn. pose proof (incoming_unique "CONTAINS_WORK" k s (gw_one_arena _ Hg) (sw_nodup _ Hs)) as Hlen.
  assert (Hin : ∀ e, e ∈ incoming "CONTAINS_WORK" k s → from_label e = "Arena" ∧ str_in k.1 DIRECT_KINDS = true).
  { intros e (j & Hj%list_elem_of_lookup_2 & _)%elem_of_take. apply list_elem_of_filter in Hj as [[<- Hr] He].
    apply (gw_member _ Hg). by apply elem_of_rel_edges. }
  apply (sw_nodes _ Hs) in Hn as [Hkey _ _]. unfold nr_key in Hkey.
  unfold _direct_id. cbn [wc_memberships wc_node].
  destruct (incoming "CONTAINS_WORK" k s) as [|e [|]]; [done| |simpl in Hlen; lia].
  destruct (Hin e) as [Ha Hk]; [by left|]. subst k. simpl in *. by rewrite Ha, Hk.
Qed.

(** Where a search for the Arena can fail: reading a record, or a result that is
    not a membership. *)
Definition reading_fails s (e : exn) : Prop :=
  (∃ k, _containment k.1 k.2 s = Err e) ∨ (∃ a, get_arena a s = Err e) ∨ (∃ m, new_membership m = Err e).

Lemma walk_conflict_free n original current visited s e : store_wf s → graph_wf s →
  (∀ v, v ∈ visited → (kind_rank current.1 < kind_rank v.1)%nat) →
  membership_walk n original current visited s = Some (Err e) → reading_fails s e.
Proof.
  intros Hs Hg. revert current visited. induction n as [|n IH]; intros current visited Hrank; [done|].
  cbn [membership_walk]. rewrite decide_False; last first. { intros Hin%Hrank. lia. }
  destruct (_containment current.1 current.2 s) as [it|e'] eqn:Hc; last first.
  { intros [= <-]. left. by exists current. }
  apply containment_Ok in Hc as (nd & Hn & ->). cbn [wc_parents].
  pose proof (incoming_unique "HAS_CHILD" (current.1, current.2) s (gw_one_parent _ Hg) (sw_nodup _ Hs)) as Hlen.
  pose proof (direct_id_Ok _ nd (incoming "HAS_CHILD" (current.1, current.2) s) s Hs Hg Hn) as Hd.
  destruct (_direct_id _) as [o|] eqn:Ho; [|done].
  destruct (incoming "HAS_CHILD" (current.1, current.2) s) as [|p [|]] eqn:Hin; [| |simpl in Hlen; lia].
  { intros [= Hm]. right. apply res_bind_Err in Hm as [Hm|(ar & _ & Hm)]; [left|right; by eexists].
    destruct o as [a|]; [|done]. apply res_bind_Err in Hm as [Hm|(x & _ & Hm)]; [by exists a|done]. }
  assert (Hp : p ∈ rel_edges "HAS_CHILD" s ∧ edge_to p = (current.1, current.2)).
  { assert (p ∈ incoming "HAS_CHILD" (current.1, current.2) s) as (j & Hj%list_elem_of_lookup_2 & _)%elem_of_take
      by (rewrite Hin; left). apply list_elem_of_filter in Hj as [[? ?] ?]. by rewrite elem_of_rel_edges. }
  destruct Hp as [Hp Hto]. pose proof (gw_parent_kind _ Hg p Hp) as Hkind. injection Hto as Hto1 Hto2. rewrite Hto1 in Hkind.
  assert (o = None) as ->.
  { apply direct_id_members in Ho. destruct o as [a|]; [|done]. exfalso. destruct Ho as (m & Hm & _).
    assert (m ∈ members_of (current.1, current.2) s) as Hmem by (rewrite Hm; left).
    apply list_elem_of_filter in Hmem as [[Hmt Hmr] Hme]. apply (gw_root _ Hg p m); [done|by apply elem_of_rel_edges|].
    rewrite Hmt. unfold edge_to. congruence. }
  rewrite Hkind. simpl. apply IH. intros v. pose proof (proj1 (str_in_spec _ _) Hkind) as [Hlt _]%parent_kinds_spec.
  intros [->|Hv%Hrank]%elem_of_cons; simpl; lia.
Qed.

End membership.

(** ** Properties *)

Section properties.
  Context {PY : Pydantic} {PL : PydanticLaws} {CK : Clock}.

(** C3: the storage refines the placement the requests promise: in every reachable
    storage, whatever admitted request is handled, accepted or refused, the parents
    and direct Arenas stored afterwards are those of the abstract placement
    changed by the request. *)
Theorem placement_refined s q :
  reachable s → request_ok q = true →
  same_placement (placement_in (handle q s)) (placement_spec q (is_accepted q s) (placement_in s)).
Proof.
  intros [Hs Hg]%reachable_wf Hq. apply handle_refines; [done|done|]. by apply handle_wf.
Qed.

(** C37: in every reachable storage the Arena of a work object is determined: the
    search for it never reports ambiguous, cyclic or invalid placement; it can
    only fail on the kind asked for, or because a record cannot be read. *)
Theorem membership_conflict_free s k i e :
  reachable s → str_in k TODO_KINDS = true → membership k i s = Err e → reading_fails s e.
Proof.
  intros [Hs Hg]%reachable_wf Hk. unfold membership. rewrite Hk. cbn [negb raise_if mbind res_bind].
  destruct (membership_walk_fuel 4 4 (k, i) (k, i) [] s) as [_ Hne]; [apply kind_rank_bound..|].
  destruct (membership_walk 4 (k, i) (k, i) [] s) as [r|] eqn:Hw; [|done]. simpl. intros ->.
  eapply walk_conflict_free; [done|done| |exact Hw]. intros v Hv. by apply not_elem_of_nil in Hv.
Qed.

End properties.

(** ** Witnesses *)

Section witnesses.

#[local] Existing Instance reference_pydantic.
#[local] Existing Instance reference_pydantic_laws.
#[local] Existing Instance epoch_clock.

(** Issue j with the child Task t, which depends on Task u; u is in Arena a. *)
Definition ex_requests : list request :=
  [work_request ex_caller (req_create KIssue (ex_fields "j"));
   work_request ex_caller (req_create KTask (ex_fields "t"));
   work_request ex_caller (req_create KTask (ex_fields "u"));
   work_request ex_caller ex_parent_set;
   work_request ex_caller (req_named "Task" "t" 2 (op_active (op_edge dependency true (ex_wref "Task" "u" 1))));
   arena_request_of (arena_create "a" "Arena" "");
   arena_request_of (arena_member_set "Task" "u" 2 None (Some {| ref_id := "a"; ref_version := 1 |}))].

Definition ex_graph : Store := foldl (λ s q, handle q s) empty_store ex_requests.

Lemma ex_graph_reachable : reachable ex_graph.
Proof.
  unfold ex_graph, ex_requests. cbn [foldl]. do 7 (apply reach_handle; [|reflexivity]). apply reach_empty.
Defined.

(** Task t goes back to having no parent. *)
Definition ex_detach : request :=
  work_request ex_caller
    (req_named "Task" "t" 3 (op_active (op_parent_set (Some (ex_wref "Issue" "j" 2)) None None))).

Lemma placement_refined_witness :
  is_accepted ex_detach ex_graph = true
  ∧ same_placement (placement_in (handle ex_detach ex_graph))
      (placement_spec ex_detach (is_accepted ex_detach ex_graph) (placement_in ex_graph)).
Proof.
  assert (Hok : is_accepted ex_detach ex_graph = true) by (vm_compute; reflexivity).
  exact (conj Hok (placement_refined ex_graph ex_detach ex_graph_reachable eq_refl)).
Defined.

Lemma membership_conflict_free_witness :
  membership "Task" "x" ex_graph = Err (MissingWorkObjectError "Task" "x")
  ∧ reading_fails ex_graph (MissingWorkObjectError "Task" "x").
Proof.
  assert (Hm : membership "Task" "x" ex_graph = Err (MissingWorkObjectError "Task" "x")) by (vm_compute; reflexivity).
  exact (conj Hm (membership_conflict_free ex_graph "Task" "x" _ ex_graph_reachable eq_refl Hm)).
Defined.

End witnesses.
