(* ===== verification/Footprint.v ===== *)
(** * What a request may touch

    [within R m s]: running [m] on [s], successful or not, changes no record
    outside the keys [R] and no edge with both ends outside them.  [footprint]
    gives the keys of a mutation from its content alone, and every mutation of
    [named_work.py] and [arenas.py] stays within its footprint. *)

From stdpp Require Import base gmap strings list sorting.
From Stdlib Require Import ZArith Ascii String.
From S2P Require Import Prelude Json Sha256 Datetime Validation WorkflowContract Model Storage StorageWf StorageReads Repository ResourcePaths Workflows Lifecycle ProgressMutations Arenas Sessions Frames NamedWork.

Local Open Scope Z_scope.

(** ** Steps within a set of keys *)

Record within_step (R : list key) (s s' : Store) : Prop := {
  ws_nodes k : k ∉ R → nodes s' !! k = nodes s !! k;
  ws_edges e : edge_from e ∉ R → edge_to e ∉ R → e ∈ edges s' ↔ e ∈ edges s
}.

#[export] Instance within_step_preorder R : PreOrder (within_step R).
Proof.
  split; [by constructor|]. intros s1 s2 s3 [N1 E1] [N2 E2]. constructor.
  - intros k Hk. by rewrite N2, N1.
  - intros e Hf Ht. by rewrite E2, E1.
Qed.

Definition within {A} (R : list key) (m : M Store A) (s : Store) : Prop := within_step R s (m s).2.

Section within.
  Context {PY : Pydantic} {CK : Clock}.
  Context (R : list key).
  Implicit Types (s : Store).

Lemma within_bind {A B} (m : M Store A) (k : A → M Store B) s :
  within R m s → (∀ a s', m s = (Ok a, s') → within R (k a) s') → within R (m ≫= k) s.
Proof.
  unfold within, mbind, M_bind. intros Hm Hk. destruct (m s) as [[a|e] s'] eqn:E; [|done].
  simpl in Hm. transitivity s'; [done|]. by apply Hk.
Qed.

Lemma within_reads {A B} (f : Store → res A) (k : A → M Store B) s :
  (∀ a, f s = Ok a → within R (k a) s) → within R (reads f ≫= k) s.
Proof. intros Hk. apply within_bind; [done|]. intros a s' H. minv. by apply Hk. Qed.

Lemma within_lift {A B} (r : res A) (k : A → M Store B) s :
  (∀ a, r = Ok a → within R (k a) s) → within R (lift r ≫= k) s.
Proof. intros Hk. apply within_bind; [done|]. intros a s' H. minv. by apply Hk. Qed.

Lemma within_guard {B} b e (k : unit → M Store B) s :
  (b = false → within R (k tt) s) → within R (guard_raise b e ≫= k) s.
Proof. intros Hk. apply within_bind; [by destruct b|]. intros [] s' H. minv. by apply Hk. Qed.

Lemma within_same {A} (m : M Store A) s : (∀ s, (m s).2 = s) → within R m s.
Proof. intros Hm. unfold within. by rewrite Hm. Qed.

Lemma within_clock s : within R utc_now s.
Proof. by constructor. Qed.

Lemma within_rethrow {A} p f (m : M Store A) s : within R m s → within R (M_rethrow p f m) s.
Proof. unfold within, M_rethrow. by destruct (m s) as [[?|?] ?]. Qed.

Lemma within_transaction {A} (m : M Store A) s :
  (∀ s0, s0 = s ∨ s0 = begin_tx s → within R m s0) → within R (transaction m) s.
Proof.
  intros Hm. unfold within, transaction. set (s0 := if bool_decide (tx s = None) then begin_tx s else s).
  assert (s0 = s ∨ s0 = begin_tx s) as H0 by (unfold s0; case_match; auto).
  assert (nodes s0 = nodes s ∧ edges s0 = edges s) as (Hn & He) by by destruct H0 as [-> | ->].
  destruct (Hm s0 H0) as [N E]. destruct (m s0) as [[a|e] s1]; simpl in *; repeat case_match; simpl;
    constructor; simpl; intros; rewrite ?N, ?E, ?Hn, ?He; done.
Qed.

Lemma within_iter {A} (f : A → M Store unit) l s :
  (∀ x s, x ∈ l → within R (f x) s) → within R (M_iter f l) s.
Proof.
  revert s. induction l as [|x l IH]; intros s Hf; [done|]. simpl. apply within_bind; [apply Hf; by left|].
  intros _ s' _. apply IH. intros y s2 Hy. apply Hf. by right.
Qed.

Lemma within_mapM {A B} (f : A → M Store B) l s :
  (∀ x s, x ∈ l → within R (f x) s) → within R (M_mapM f l) s.
Proof.
  revert s. induction l as [|x l IH]; intros s Hf; [done|]. simpl. apply within_bind; [apply Hf; by left|].
  intros y s' _. apply within_bind; [|by intros]. apply IH. intros z s2 Hz. apply Hf. by right.
Qed.

Lemma within_put k n s : k ∈ R → within_step R s (put_node k n s).
Proof. intros Hk. constructor; simpl; [|done]. intros k' Hk'. rewrite lookup_insert_ne; [done|]. by intros ->. Qed.

Lemma create_node_within l i p s : (l, i) ∈ R → within R (create_node l i p) s.
Proof.
  intros Hk. unfold create_node. apply within_lift; intros _ _. apply within_lift; intros np _.
  apply within_bind; [done|]. intros o s' Ho. minv. apply within_guard; intros _.
  apply within_bind; [|by intros]. by apply within_put.
Qed.

Lemma update_node_within l i p s : (l, i) ∈ R → within R (update_node l i p) s.
Proof.
  intros Hk. unfold update_node. apply within_lift; intros _ _. apply within_reads; intros n _.
  apply within_guard; intros _. apply within_lift; intros np _. apply within_bind; [|by intros]. by apply within_put.
Qed.

Lemma archive_node_within l i p s : (l, i) ∈ R → within R (archive_node l i p) s.
Proof.
  intros Hk. unfold archive_node. apply within_lift; intros _ _. apply within_reads; intros n _. case_match.
  - by destruct p.
  - apply within_lift; intros np _. apply within_bind; [|by intros]. by apply within_put.
Qed.

Lemma restore_node_within l i p s : (l, i) ∈ R → within R (restore_node l i p) s.
Proof.
  intros Hk. unfold restore_node. apply within_reads; intros n _. apply within_lift; intros c _.
  apply within_guard; intros _. apply within_lift; intros nv _. apply within_guard; intros _.
  apply within_lift; intros cr _. apply within_guard; intros _. apply within_bind; [|by intros]. by apply within_put.
Qed.

Lemma create_edge_within fl fi rel tl ti p s : (fl, fi) ∈ R ∨ (tl, ti) ∈ R → within R (create_edge fl fi rel tl ti p) s.
Proof.
  intros Hk. unfold create_edge. apply within_lift; intros _ _. apply within_lift; intros _ _.
  apply within_bind; [done|]. intros o s1 H1. minv. apply within_guard; intros _.
  apply within_bind; [done|]. intros o' s1 H1. minv. apply within_guard; intros _.
  apply within_bind; [|by intros]. unfold within, modify. simpl. case_decide; [done|]. constructor; [done|].
  intros e Hf Ht. simpl. rewrite elem_of_app, list_elem_of_singleton. split; [|auto]. intros [?|He]; [done|].
  rewrite He in Hf, Ht. simpl in Hf, Ht. naive_solver.
Qed.

Lemma delete_edge_within fl fi rel tl ti s : (fl, fi) ∈ R ∨ (tl, ti) ∈ R → within R (delete_edge fl fi rel tl ti) s.
Proof.
  intros Hk. unfold delete_edge, within, modify. constructor; [done|]. intros e Hf Ht. simpl.
  rewrite list_elem_of_filter. split; [by intros []|]. intros He. split; [|done]. unfold edge_is.
  apply bool_decide_eq_false. intros [= <- <- _ <- <-]. naive_solver.
Qed.

End within.

Create HintDb within.

Ltac within_step :=
  match goal with
  | |- within _ (mbind _ (reads _)) _ => apply within_reads; intros ? ?
  | |- within _ (mbind _ (lift _)) _ => apply within_lift; intros ? ?
  | |- within _ (mbind _ (guard_raise _ _)) _ => apply within_guard; intros ?
  | |- within _ (mbind _ utc_now) _ => apply within_bind; [apply within_clock|intros ? ? _]
  | |- within _ (mbind _ (construct _ _ _ _)) _ =>
      apply within_bind; [solve [auto with within]|let Hk := fresh "Hk" in let Hi := fresh "Hi" in
        intros ? ? (Hk & Hi & _ & _)%construct_Ok; rewrite ?Hi]
  | |- within _ (mbind _ _) _ => apply within_bind; [|intros ? ? ?]
  | |- within _ (transaction _) _ => apply within_transaction; intros ? ?
  | |- within _ (work_mutation_transaction _) _ => apply within_transaction; intros ? ?
  | |- within _ (M_rethrow _ _ _) _ => apply within_rethrow
  | |- within _ (M_mapM _ _) _ => apply within_mapM; intros ? ? ?
  | |- within _ (M_iter _ _) _ => apply within_iter; intros ? ? ?
  | |- within _ (create_node _ _ _) _ => apply create_node_within
  | |- within _ (update_node _ _ _) _ => apply update_node_within
  | |- within _ (archive_node _ _ _) _ => apply archive_node_within
  | |- within _ (restore_node _ _ _) _ => apply restore_node_within
  | |- within _ (create_edge _ _ _ _ _ _) _ => apply create_edge_within
  | |- within _ (delete_edge _ _ _ _ _) _ => apply delete_edge_within
  | |- within _ (mret _) _ => by apply within_same
  | |- within _ (raise _) _ => by apply within_same
  | |- within _ (lift _) _ => by apply within_same
  | |- within _ (reads _) _ => by apply within_same
  | |- within _ (guard_raise ?b _) _ => destruct b; by apply within_same
  | |- within _ utc_now _ => apply within_clock
  | |- within _ (match ?x with _ => _ end) _ => destruct x eqn:?
  | |- within _ _ _ => solve [eauto with within]
  end.

Ltac within_solve := repeat within_step; eauto.

Lemma work_key_eq (R : list key) w k i : kind w = k → id w = i → (kind_name k, i) ∈ R → work_key w ∈ R.
Proof. by intros <- <-. Qed.

#[export] Hint Extern 5 (work_key _ ∈ _) => eapply work_key_eq; [eassumption|eassumption|assumption] : within.

(** ** The operations *)

Section operations.
  Context {PY : Pydantic} {CK : Clock}.
  Context (R : list key).
  Implicit Types (s : Store) (w : WorkObject).

Lemma create_within w s : work_key w ∈ R → within R (create w) s.
Proof. intros Hw. unfold create, create_body. within_solve. Qed.

Lemma update_within w v s : work_key w ∈ R → within R (update w v) s.
Proof. intros Hw. unfold update, update_body, check_version. within_solve. Qed.

Lemma update_content_within k i v c s : (k, i) ∈ R → within R (update_content k i v c) s.
Proof. intros Hw. unfold update_content, update_content_body, check_version. within_solve. Qed.

Lemma archive_within k i s : (k, i) ∈ R → within R (archive k i) s.
Proof. intros Hw. unfold archive, archive_body. within_solve. Qed.

Lemma transition_status_within k i st s : (k, i) ∈ R → within R (transition_status k i st) s.
Proof. intros Hw. unfold transition_status, transition_body. within_solve. Qed.

Lemma construct_within k i t d s : within R (construct k i t d) s.
Proof. unfold construct. within_solve. Qed.

Lemma save_within w st s : work_key w ∈ R → within R (_save w st) s.
Proof. intros Hw. unfold _save. within_solve. Qed.

#[local] Hint Resolve create_within update_within construct_within save_within : within.

(** The links among the evidence that are created. *)
Definition new_links (es : list Evidence) : list key :=
  map (λ e, ("ExternalLink", ev_id e)) (filter (λ e, truthy (ev_url e) = true) es).

Lemma record_evidence_within es e s : new_links es ⊆ R → e ∈ es → within R (record_evidence e) s.
Proof.
  intros HR He. unfold record_evidence. within_solve. apply HR, list_elem_of_fmap. exists e.
  by rewrite list_elem_of_filter.
Qed.

Lemma record_kind_name p : kind_name (record_kind p) = RECORD_KINDS p.
Proof. unfold record_kind, RECORD_KINDS. by repeat case_match. Qed.

Lemma record_within actor w st r s :
  work_key w ∈ R → (RECORD_KINDS (wr_phase r), wr_record_id r) ∈ R → new_links (wr_evidence r) ⊆ R →
  within R (_record actor w st r) s.
Proof.
  intros Hw Hr He. pose proof (λ e s, record_evidence_within _ e s He) as Hev.
  assert ((kind_name (record_kind (wr_phase r)), wr_record_id r) ∈ R) as Hr' by by rewrite record_kind_name.
  unfold _record, link_evidence. within_solve.
Qed.

#[local] Hint Resolve record_within : within.

(** The keys a workflow operation touches beside its subject. *)
Definition workflow_keys (op : workflow_operation) : list key :=
  match op with
  | workflow_review v =>
      match WorkflowReview_of v with
      | Ok r => (RECORD_KINDS (wr_phase r), wr_record_id r) :: new_links (wr_evidence r)
      | Err _ => []
      end
  | _ => []
  end.

Lemma execute_within actor w op s : work_key w ∈ R → workflow_keys op ⊆ R → within R (execute actor w op) s.
Proof.
  intros Hw Hk. unfold execute, assign, transition, classified.
  within_solve. simpl in Hk. match goal with H : WorkflowReview_of _ = _ |- _ => rewrite H in Hk end.
  apply record_within; set_solver.
Qed.

Definition progress_keys (v : value) : list key :=
  match ProgressSet_of v with
  | Ok p => ("ReviewPacket", ps_record_id p) :: new_links (ps_evidence p)
  | Err _ => []
  end.

Lemma set_progress_within w v a s : work_key w ∈ R → progress_keys v ⊆ R → within R (set_progress w v a) s.
Proof.
  intros Hw Hk. unfold set_progress. apply within_lift; intros c Hc. unfold progress_keys in Hk. rewrite Hc in Hk.
  assert ((kind_name KReviewPacket, ps_record_id c) ∈ R) as Hr by (apply Hk; by left).
  assert (new_links (ps_evidence c) ⊆ R) as He by set_solver.
  pose proof (λ e s, record_evidence_within _ e s He) as Hev.
  unfold link_evidence. within_solve.
Qed.

Lemma reject_within w p s : work_key w ∈ R → ("Decision", pr_decision_id p) ∈ R → within R (reject_proposal w p) s.
Proof. intros Hw Hd. assert ((kind_name KDecision, pr_decision_id p) ∈ R) by done. unfold reject_proposal. within_solve. Qed.

Lemma accept_within i d s : ("Proposal", i) ∈ R → work_key d ∈ R → within R (accept_proposal i (Some d)) s.
Proof.
  intros Hi Hd. unfold accept_proposal, accept_body, _upsert_decision. apply within_lift. intros x [= <-]. within_solve.
Qed.

Lemma convert_within i j s : ("Proposal", i) ∈ R → ("Issue", j) ∈ R → within R (convert_accepted_proposal_to_issue i j) s.
Proof.
  intros Hi Hj. unfold convert_accepted_proposal_to_issue, convert_body. repeat within_step; eauto.
  all: match goal with H : post_init _ = Ok _ |- _ => apply post_init_fields in H as -> end; simpl; auto.
Qed.

Lemma put_within r s : ("SessionRef", sref_id r) ∈ R → within R (_put r) s.
Proof. intros Hr. unfold _put. within_solve. Qed.

#[local] Hint Resolve put_within : within.

Lemma session_link_within o t l s :
  ("SessionRef", sref_id o) ∈ R → ("SessionRef", sref_id t) ∈ R → ("SessionLink", link_id l) ∈ R → within R (link o t l) s.
Proof. intros Ho Ht Hl. unfold link, link_body. within_solve. Qed.

Lemma attach_within r k v b o s : ("SessionRef", sref_id r) ∈ R → within R (attach r k v b o) s.
Proof. intros Hr. unfold attach, attach_body. within_solve. Qed.

Lemma set_state_within i v st a se c s : ("SessionWorkState", i) ∈ R → within R (set_state i v st a se c) s.
Proof. intros Hi. unfold set_state, ref_now. within_solve. Qed.

Lemma bump_within a c s : ("Arena", a_id a) ∈ R → within R (bump a c) s.
Proof. intros Ha. unfold bump. within_solve. Qed.

End operations.

#[export] Hint Resolve create_within update_within update_content_within archive_within transition_status_within
  construct_within save_within execute_within set_progress_within reject_within put_within session_link_within
  attach_within set_state_within bump_within : within.

(** ** Requests *)

Section requests.
  Context {PY : Pydantic} {PL : PydanticLaws} {CK : Clock}.
  Implicit Types (s : Store) (w : WorkObject).

Definition attach_keys (v : value) : list key :=
  match SessionAttach_of v with
  | Ok a =>
      map (λ i, ("SessionRef", identity_id i))
        (at_session a :: match at_link a with Some l => [l_origin l; l_target l] | None => [] end)
      ++ match at_link a with Some l => [("SessionLink", link_id l)] | None => [] end
  | Err _ => []
  end.

Definition reference_keys (rs : list (option WorkReference)) : list key :=
  omap (λ o, wref_key <$> o) rs.

Definition arena_keys (rs : list (option ArenaReference)) : list key :=
  omap (λ o, (λ r, ("Arena", ref_id r)) <$> o) rs.

(** The keys of an operation on the work object [i], beside it. *)
Definition active_keys (i : string) (o : named_operation) : list key :=
  match o with
  | op_session_attach v => attach_keys v
  | op_progress_set v => progress_keys v
  | op_proposal_reject p => [("Decision", pr_decision_id p)]
  | op_workflow op => workflow_keys op
  | op_accept di _ => [("Proposal", i); ("Decision", di)]
  | op_convert ii _ => [("Proposal", i); ("Issue", ii)]
  | op_parent_set p q a => reference_keys [p; q] ++ arena_keys [a]
  | op_edge _ _ t => [wref_key t]
  | op_patch _ | op_status _ => []
  end.

Definition footprint (q : named_request) : list key :=
  match q with
  | req_session_state i _ _ => [("SessionWorkState", i)]
  | req_create k c => [(kind_name k, cf_id c)]
  | req_named k i _ o => (k, i) :: match o with op_active a => active_keys i a | _ => [] end
  end.

Definition arena_footprint (q : arena_request) : list key :=
  match q with
  | arena_create i _ _ | arena_patch i _ _ _ | arena_archive i _ => [("Arena", i)]
  | arena_member_set k i _ p t => (k, i) :: arena_keys [p; t]
  end.

Lemma ref_now_Ok i a se c s r s' : ref_now i a se c s = (Ok r, s') → identity r = i.
Proof.
  unfold ref_now. intros H. minv. match goal with H : new_ref _ _ _ _ _ = _ |- _ => by apply new_ref_Ok in H as [-> _] end.
Qed.

Lemma ref_now_within R i a se c s : within R (ref_now i a se c) s.
Proof. unfold ref_now. within_solve. Qed.

Hint Resolve ref_now_within : within.

Lemma session_attach_within R c w v s : work_key w ∈ R → attach_keys v ⊆ R → within R (session_attach c w v) s.
Proof.
  intros Hw Hk. unfold session_attach. apply within_lift; intros a Ha. unfold attach_keys in Hk. rewrite Ha in Hk.
  assert (∀ i, i ∈ at_session a :: match at_link a with Some l => [l_origin l; l_target l] | None => [] end →
    ("SessionRef", identity_id i) ∈ R) as Hi.
  { intros i Hi. apply Hk, elem_of_app. left. apply list_elem_of_fmap. eauto. }
  apply within_bind; [auto with within|]. intros r s1 Hr%ref_now_Ok.
  assert (("SessionRef", sref_id r) ∈ R) as HrR by (unfold sref_id; rewrite Hr; apply Hi; by left).
  apply within_bind; [|intros _ ? _; unfold _bump; auto with within].
  apply within_rethrow. apply within_bind; [|intros _ ? _; auto with within].
  destruct (at_link a) as [l|]; [|by apply within_same].
  apply within_bind; [auto with within|]. intros o s2 Ho%ref_now_Ok.
  apply within_bind; [auto with within|]. intros t s3 Ht%ref_now_Ok.
  apply session_link_within; unfold sref_id; [rewrite Ho; apply Hi; set_solver|rewrite Ht; apply Hi; set_solver|].
  apply Hk. set_solver.
Qed.

(** What is read at the start names the key asked for. *)
Lemma current_work_key k i v s w : store_wf s → _current k i v s = Ok w → work_key w = (k, i).
Proof. intros Hs H. unfold _current in H. minv. subst. unfold work_key. by destruct (get_by_id_key k i s w Hs H) as [-> ->]. Qed.

Lemma touch_parent_keys s l r l' : store_wf s → touch_parent l r s = Ok l' →
  ∀ p, p ∈ l' → p ∈ l ∨ (∃ ref, r = Some ref ∧ work_key p = wref_key ref).
Proof.
  intros Hs H p Hp. unfold touch_parent in H. destruct r as [ref|]; [|injection H as <-; by left].
  apply res_bind_Ok in H as (q & Hq & H). minv. subst. apply current_work_key in Hq; [|done].
  case_match; [|apply elem_of_app in Hp as [?|Hp]; [by left|apply list_elem_of_singleton in Hp as ->; eauto]].
  apply list_elem_of_fmap in Hp as (x & -> & Hx). case_match; [eauto|by left].
Qed.

Lemma remove_for_parent_within R w o s :
  store_wf s → work_key w ∈ R → arena_keys [o] ⊆ R → within R (remove_for_parent w o) s.
Proof.
  intros Hs Hw Ho. unfold remove_for_parent. within_solve.
  match goal with H : current _ _ = Ok _ |- _ => apply current_Ok in H as [H _]; apply get_arena_id in H; [|done] end.
  simplify_eq. apply bump_within. match goal with H : a_id _ = ref_id _ |- _ => rewrite H end. apply Ho. by left.
Qed.

Lemma set_parent_within R w p q a s :
  store_wf s → work_key w ∈ R → reference_keys [p; q] ⊆ R → arena_keys [a] ⊆ R → within R (_set_parent w p q a) s.
Proof.
  intros Hs Hw Hp Ha. unfold _set_parent, _bump. within_solve; [by apply remove_for_parent_within|].
  match goal with
  | H1 : touch_parent [] _ _ = Ok _, H2 : touch_parent _ q _ = Ok _, Hx : ?x ∈ _ |- within _ (update ?x _) _ =>
      rename H1 into Ht1; rename H2 into Ht2; rename Hx into Hin
  end.
  apply update_within. apply Hp. unfold reference_keys.
  apply (touch_parent_keys s _ _ _ Hs Ht2) in Hin as [Hin|(r & -> & ->)]; [|simpl; case_match; set_solver].
  apply (touch_parent_keys s _ _ _ Hs Ht1) in Hin as [[]%not_elem_of_nil|(r & -> & ->)]. set_solver.
Qed.

Lemma edge_change_within R w r b t s :
  store_wf s → work_key w ∈ R → wref_key t ∈ R → within R (_edge_change w r b t) s.
Proof.
  intros Hs Hw Ht. unfold _edge_change, _bump. apply within_reads. intros x Hx.
  apply (current_work_key _ _ _ _ _ Hs) in Hx. assert (work_key x ∈ R) by (by rewrite Hx). within_solve.
Qed.

Lemma named_active_within R c w o s :
  store_wf s → work_key w ∈ R → active_keys (id w) o ⊆ R → within R (named_active c w o) s.
Proof.
  intros Hs Hw Ho. unfold named_active. apply within_lift; intros _ _. destruct o; cbn [active_keys] in Ho.
  - by apply session_attach_within.
  - by apply set_progress_within.
  - apply reject_within; [done|]. apply Ho. by left.
  - by apply execute_within.
  - within_solve.
  - within_solve.
  - assert ((kind_name KDecision, decision_id) ∈ R) by (apply Ho; right; by left).
    assert (("Proposal", id w) ∈ R) by (apply Ho; by left).
    unfold named_accept. within_solve. apply accept_within; [done|]. eauto with within.
  - assert (("Proposal", id w) ∈ R) by (apply Ho; by left). assert (("Issue", issue_id) ∈ R) by (apply Ho; right; by left).
    unfold named_convert, _bump. within_solve. by apply convert_within.
  - apply set_parent_within; [done|done|set_solver..].
  - apply edge_change_within; [done|done|]. apply Ho. by left.
Qed.

(** Every mutation stays within its footprint. *)
Lemma named_execute_within c q s : store_wf s → within (footprint q) (named_execute c q) s.
Proof.
  intros Hs. unfold named_execute. apply within_transaction. intros s0 H0.
  assert (store_wf s0) as Hs0 by (destruct H0 as [-> | ->]; [done|by destruct Hs]). clear H0.
  unfold named_body. destruct q as [i v st|k f|k i v o]; cbn [footprint].
  - within_solve. apply set_state_within. by left.
  - apply within_bind; [|by intros]. unfold named_create. apply within_bind; [unfold construct_named; within_solve|].
    intros w s1 Hw. apply create_within. unfold construct_named in Hw. minv.
    match goal with H : post_init _ = Ok _ |- _ => apply post_init_fields in H as -> end. by left.
  - apply within_reads. intros w Hw. pose proof (current_work_key _ _ _ _ _ Hs0 Hw) as Hk.
    apply within_bind; [|by intros].
    assert (work_key w ∈ (k, i) :: match o with op_active a => active_keys i a | _ => [] end) as Hin by (rewrite Hk; by left).
    destruct o as [| |a].
    + by apply archive_within.
    + unfold named_restore. within_solve.
    + apply named_active_within; [done|done|]. injection Hk as _ ->. set_solver.
Qed.

Lemma touched_arenas_from p t s l x : touched_arenas p t s = Ok l → x ∈ l →
  ∃ ref, (p = Some ref ∨ t = Some ref) ∧ current ref s = Ok x.
Proof.
  unfold touched_arenas. intros H Hx. apply res_bind_Ok in H as (lp & Hp & H). apply res_bind_Ok in H as (lt & Ht & H).
  injection H as <-. assert (x ∈ lp ++ lt) as [Hin|Hin]%elem_of_app.
  { revert Hx. repeat case_match; subst; set_solver. }
  - destruct p as [ref|]; minv; subst; [|by apply not_elem_of_nil in Hin].
    apply list_elem_of_singleton in Hin as ->. eauto.
  - destruct t as [ref|]; minv; subst; [|by apply not_elem_of_nil in Hin].
    apply list_elem_of_singleton in Hin as ->. eauto.
Qed.

Lemma arena_execute_within q s : store_wf s → within (arena_footprint q) (arena_execute q) s.
Proof.
  intros Hs. unfold arena_execute. apply within_transaction. intros s0 H0.
  assert (store_wf s0) as Hs0 by (destruct H0 as [-> | ->]; [done|by destruct Hs]). clear H0.
  assert (∀ ref a, current ref s0 = Ok a → a_id a = ref_id ref) as Hcur.
  { intros ref a [Ha _]%current_Ok. by apply get_arena_id in Ha. }
  unfold arena_execute_body. destruct q as [i t d|i v t d|i v|k i v p t]; cbn [arena_footprint].
  - unfold create_arena. repeat within_step.
    match goal with H : new_arena _ = Ok _ |- _ => apply new_arena_Ok in H as [-> _] end. by left.
  - unfold change_arena. repeat within_step. apply bump_within. erewrite Hcur by done. by left.
  - unfold change_arena. repeat within_step. apply bump_within. erewrite Hcur by done. by left.
  - apply within_bind; [|by intros]. unfold _member. apply within_reads. intros w Hw.
    assert (work_key w = (k, i)) as Hk by (unfold work_key; by destruct (get_by_id_key k i s0 w Hs0 Hw) as [-> ->]).
    assert (work_key w ∈ (k, i) :: arena_keys [p; t]) as Hin by (rewrite Hk; by left).
    repeat within_step; eauto. apply bump_within. right.
    match goal with H : touched_arenas _ _ _ = _, Hx : _ ∈ _ |- _ => destruct (touched_arenas_from _ _ _ _ _ H Hx) as (ref & Hr & Hc) end.
    rewrite (Hcur _ _ Hc). unfold arena_keys. apply list_elem_of_omap. exists (Some ref).
    split; [destruct Hr as [-> | ->]; set_solver|done].
Qed.

End requests.
