(* ===== verification/Requests.v ===== *)
(** * Request contracts

    [src/devgraph/work_requests.py] and [src/devgraph/arena_requests.py], with the
    request models of [src/devgraph/api/schemas.py] they use: the closed, versioned
    requests whose canonical bytes are signed.  [WorkRequest_from_json] and
    [ArenaRequest_from_json] turn raw bytes into a request with its canonical
    bytes and its resource inventory; [work_request_of] and [arena_request_of_bytes]
    are the requests that the mutation entry points then execute. *)

From stdpp Require Import base gmap strings list sorting relations.
From Stdlib Require Import ZArith Ascii String.
From S2P Require Import Prelude Json Sha256 Datetime Validation WorkflowContract StrictJson Model Storage StorageWf Search StorageReads Repository ResourcePaths Workflows Lifecycle ProgressMutations Arenas Sessions Frames NamedWork WorkGraph Footprint.

Local Open Scope Z_scope.

(** ** Field validators of the request models *)

Section fields.
  Context (m : string).

(** [str] with [min_length=1]. *)
Definition as_nonempty (v : value) : res string :=
  s ← as_text m v; check m (truthy s);; Ok s.

(** A field whose validator is [validate_version], [validate_priority] or an
    inclusive range. *)
Definition as_version (v : value) : res Z :=
  match validate_version v with Ok z => Ok z | Err _ => invalid m end.

Definition as_priority (v : value) : res Z :=
  match validate_priority v with Ok z => Ok z | Err _ => invalid m end.

Definition as_range (lo hi : Z) (v : value) : res Z :=
  match v with VInt z => if (lo <=? z) && (z <=? hi) then Ok z else invalid m | _ => invalid m end.

(** [list[str]] through [validate_reference_identifiers]. *)
Definition as_ids (v : value) : res (list string) :=
  match validate_work_object_id_collection v with Ok l => Ok l | Err _ => invalid m end.

(** [T | None]. *)
Definition nullable {A} (f : value → res A) (v : value) : res (option A) :=
  match v with VNone => Ok None | _ => x ← f v; Ok (Some x) end.

End fields.

Definition null_dump {A} (g : A → value) (o : option A) : value :=
  match o with Some x => g x | None => VNone end.

(** ** The payload models *)

Definition CreateWorkObjectRequest_of (v : value) : res create_fields :=
  let m := "CreateWorkObjectRequest" in
  d ← as_dict m v;
  forbid_extra m ["id"; "title"; "description"; "priority"; "artifact_ids"; "external_link_ids"] d;;
  i ← required m "id" (as_id m) d;
  t ← required m "title" (as_nonempty m) d;
  ds ← optional "description" "" (as_text m) d;
  p ← optional "priority" 0 (as_priority m) d;
  a ← optional "artifact_ids" [] (as_ids m) d;
  e ← optional "external_link_ids" [] (as_ids m) d;
  Ok {| cf_id := i; cf_title := t; cf_description := ds; cf_priority := p; cf_artifact_ids := a;
        cf_external_link_ids := e |}.

Definition create_dump (c : create_fields) : value :=
  VDict (mk_dict [("id", VStr (cf_id c)); ("title", VStr (cf_title c)); ("description", VStr (cf_description c));
                  ("priority", VInt (cf_priority c)); ("artifact_ids", VList (VStr <$> cf_artifact_ids c));
                  ("external_link_ids", VList (VStr <$> cf_external_link_ids c))]).

(** The fields that are set, as given: their validators change nothing, and an
    unset field stays out of the dump. *)
Definition UpdateWorkObjectRequest_of (v : value) : res (list (string * value)) :=
  let m := "UpdateWorkObjectRequest" in
  d ← as_dict m v;
  check m (negb (existsb (λ kv, bool_decide (kv.2 = VNone)) d));;
  forbid_extra m ["title"; "description"; "priority"; "artifact_ids"; "external_link_ids"] d;;
  optional "title" "" (as_nonempty m) d;;
  optional "description" "" (as_text m) d;;
  optional "priority" 0 (as_priority m) d;;
  optional "artifact_ids" [] (as_ids m) d;;
  optional "external_link_ids" [] (as_ids m) d;;
  check m (negb (bool_decide (d = [])));;
  Ok d.

Definition StatusTransitionRequest_of (v : value) : res string :=
  let m := "StatusTransitionRequest" in
  d ← as_dict m v;
  forbid_extra m ["status"] d;;
  required m "status" (as_literal m ["draft"; "review"; "accepted"; "archived"]) d.

Definition AcceptProposalRequest_of (v : value) : res (string * string) :=
  let m := "AcceptProposalRequest" in
  d ← as_dict m v;
  forbid_extra m ["decision_id"; "decision_title"] d;;
  i ← required m "decision_id" (as_id m) d;
  t ← required m "decision_title" (as_nonempty m) d;
  Ok (i, t).

(** [_Conversion]: the issue and the Decision it follows from. *)
Definition Conversion_of (v : value) : res (string * string) :=
  let m := "_Conversion" in
  d ← as_dict m v;
  forbid_extra m ["issue_id"; "decision_id"] d;;
  i ← required m "issue_id" (as_id m) d;
  j ← required m "decision_id" (as_id m) d;
  Ok (i, j).

Definition WorkReference_of (v : value) : res WorkReference :=
  let m := "WorkReference" in
  d ← as_dict m v;
  forbid_extra m ["kind"; "id"; "expected_version"] d;;
  k ← required m "kind" (as_literal m WORK_KINDS) d;
  i ← required m "id" (as_id m) d;
  z ← required m "expected_version" (as_version m) d;
  Ok {| wref_kind := k; wref_id := i; wref_version := z |}.

Definition WorkReference_dump (r : WorkReference) : value :=
  VDict (mk_dict [("kind", VStr (wref_kind r)); ("id", VStr (wref_id r)); ("expected_version", VInt (wref_version r))]).

Definition ArenaReference_of (v : value) : res ArenaReference :=
  let m := "ArenaReference" in
  d ← as_dict m v;
  forbid_extra m ["kind"; "id"; "expected_version"] d;;
  required m "kind" (as_literal m ["Arena"]) d;;
  i ← required m "id" (as_id m) d;
  z ← required m "expected_version" (as_range m 1 MAX_SAFE_INTEGER) d;
  Ok {| ref_id := i; ref_version := z |}.

Definition ArenaReference_dump (r : ArenaReference) : value :=
  VDict (mk_dict [("kind", VStr "Arena"); ("id", VStr (ref_id r)); ("expected_version", VInt (ref_version r))]).

(** [_ParentChange]; [previous_arena] may be unset, which its dump keeps. *)
Record ParentChange := {
  pc_previous_parent : option WorkReference;
  pc_parent : option WorkReference;
  pc_previous_arena : option (option ArenaReference)
}.

Definition ParentChange_of (v : value) : res ParentChange :=
  let m := "_ParentChange" in
  d ← as_dict m v;
  forbid_extra m ["previous_parent"; "parent"; "previous_arena"] d;;
  p ← required m "previous_parent" (nullable WorkReference_of) d;
  q ← required m "parent" (nullable WorkReference_of) d;
  a ← optional "previous_arena" None (λ v, x ← nullable ArenaReference_of v; Ok (Some x)) d;
  Ok {| pc_previous_parent := p; pc_parent := q; pc_previous_arena := a |}.

Definition ParentChange_dump (c : ParentChange) : value :=
  VDict (mk_dict ([("previous_parent", null_dump WorkReference_dump (pc_previous_parent c));
                   ("parent", null_dump WorkReference_dump (pc_parent c))]
                  ++ match pc_previous_arena c with
                     | Some a => [("previous_arena", null_dump ArenaReference_dump a)]
                     | None => []
                     end)).

(** [_EdgeChange]. *)
Definition EdgeChange_of (v : value) : res WorkReference :=
  let m := "_EdgeChange" in
  d ← as_dict m v;
  forbid_extra m ["target"] d;;
  required m "target" WorkReference_of d.

(** A model without fields: [_Strict] and [ArenaModel]. *)
Definition Strict_of (m : string) (v : value) : res unit :=
  d ← as_dict m v; forbid_extra m [] d.

Definition WorkflowAssign_dump (a : WorkflowAssign) : value :=
  VDict (mk_dict [("workflow_id", VStr (wa_workflow_id a)); ("stage", VStr (wa_stage a)); ("reason", VStr (wa_reason a))]).

Definition WorkflowTransition_dump (t : WorkflowTransition) : value :=
  VDict (mk_dict [("stage", VStr (wt_stage t)); ("reason", VStr (wt_reason t))]).

Definition ProposalReject_dump (p : ProposalReject) : value :=
  VDict (mk_dict [("decision_id", VStr (pr_decision_id p)); ("reason", VStr (pr_reason p))]).

(** [SessionAttach] has one default, the link; every other field of it and of
    its nested models is required and dumped as given. *)
Definition SessionAttach_dump (v : value) : value :=
  match v with
  | VDict d => VDict (match dict_get "link" d with Some _ => d | None => dict_insert "link" VNone d end)
  | _ => v
  end.

(** ** Operations *)

Definition WORK_REQUEST_SCHEMA : string := "devgraph.work-request.v1".
Definition WORK_REQUEST_SCHEMA_V2 : string := "devgraph.work-request.v2".

Inductive WorkOperation : Type :=
  | create_op | patch_op | status_op | archive_op | accept_op | convert_op | parent_set_op
  | dependency_add_op | dependency_remove_op | blocker_add_op | blocker_remove_op
  | workflow_assign_op | workflow_review_op | workflow_transition_op
  | progress_set_op | restore_op | proposal_reject_op | session_attach_op | session_state_op.

#[export] Instance WorkOperation_eq_dec : EqDecision WorkOperation.
Proof. solve_decision. Defined.

Definition operation_name (o : WorkOperation) : string :=
  match o with
  | create_op => "create" | patch_op => "patch" | status_op => "status" | archive_op => "archive"
  | accept_op => "accept" | convert_op => "convert" | parent_set_op => "parent.set"
  | dependency_add_op => "dependency.add" | dependency_remove_op => "dependency.remove"
  | blocker_add_op => "blocker.add" | blocker_remove_op => "blocker.remove"
  | workflow_assign_op => "workflow.assign" | workflow_review_op => "workflow.review"
  | workflow_transition_op => "workflow.transition" | progress_set_op => "progress.set"
  | restore_op => "restore" | proposal_reject_op => "proposal.reject"
  | session_attach_op => "session.attach" | session_state_op => "session.state"
  end.

Definition WORK_OPERATIONS : list WorkOperation :=
  [create_op; patch_op; status_op; archive_op; accept_op; convert_op; parent_set_op; dependency_add_op;
   dependency_remove_op; blocker_add_op; blocker_remove_op; workflow_assign_op; workflow_review_op;
   workflow_transition_op].

Definition ALL_WORK_OPERATIONS : list WorkOperation :=
  WORK_OPERATIONS ++ [progress_set_op; restore_op; proposal_reject_op; session_attach_op; session_state_op].

Definition as_operation (m : string) (v : value) : res WorkOperation :=
  match v with
  | VStr s => match find (λ o, String.eqb (operation_name o) s) ALL_WORK_OPERATIONS with
              | Some o => Ok o
              | None => invalid m
              end
  | _ => invalid m
  end.

(** ** Payloads: [_PAYLOAD_TYPES[operation].model_validate(payload, strict=True)] *)

Inductive work_payload : Type :=
  | p_state (state : string)
  | p_attach (contract : SessionAttach) (dump : value)
  | p_progress (p : ProgressSet)
  | p_reject (p : ProposalReject)
  | p_none
  | p_create (c : create_fields)
  | p_patch (d : list (string * value))
  | p_status (status : string)
  | p_accept (decision_id decision_title : string)
  | p_convert (issue_id decision_id : string)
  | p_parent (c : ParentChange)
  | p_edge (target : WorkReference)
  | p_assign (a : WorkflowAssign)
  | p_review (r : WorkflowReview)
  | p_transition (t : WorkflowTransition).

Definition payload_of (o : WorkOperation) (v : value) : res work_payload :=
  match o with
  | session_state_op => s ← SessionStateSet_of v; Ok (p_state s)
  | session_attach_op => a ← SessionAttach_of v; Ok (p_attach a (SessionAttach_dump v))
  | progress_set_op => p ← ProgressSet_of v; Ok (p_progress p)
  | proposal_reject_op => p ← ProposalReject_of v; Ok (p_reject p)
  | restore_op | archive_op => Strict_of "_Strict" v;; Ok p_none
  | create_op => c ← CreateWorkObjectRequest_of v; Ok (p_create c)
  | patch_op => d ← UpdateWorkObjectRequest_of v; Ok (p_patch d)
  | status_op => s ← StatusTransitionRequest_of v; Ok (p_status s)
  | accept_op => x ← AcceptProposalRequest_of v; Ok (p_accept x.1 x.2)
  | convert_op => x ← Conversion_of v; Ok (p_convert x.1 x.2)
  | parent_set_op => c ← ParentChange_of v; Ok (p_parent c)
  | dependency_add_op | dependency_remove_op | blocker_add_op | blocker_remove_op =>
      t ← EdgeChange_of v; Ok (p_edge t)
  | workflow_assign_op => a ← WorkflowAssign_of v; Ok (p_assign a)
  | workflow_review_op => r ← WorkflowReview_of v; Ok (p_review r)
  | workflow_transition_op => t ← WorkflowTransition_of v; Ok (p_transition t)
  end.

(** [payload_model.model_dump(mode="json", exclude_unset=...)]. *)
Definition payload_dump (p : work_payload) : value :=
  match p with
  | p_state s => VDict [("state", VStr s)]
  | p_attach _ v => v
  | p_progress p => ProgressSet_dump p
  | p_reject p => ProposalReject_dump p
  | p_none => VDict []
  | p_create c => create_dump c
  | p_patch d => VDict d
  | p_status s => VDict [("status", VStr s)]
  | p_accept i t => VDict (mk_dict [("decision_id", VStr i); ("decision_title", VStr t)])
  | p_convert i j => VDict (mk_dict [("issue_id", VStr i); ("decision_id", VStr j)])
  | p_parent c => ParentChange_dump c
  | p_edge t => VDict [("target", WorkReference_dump t)]
  | p_assign a => WorkflowAssign_dump a
  | p_review r => WorkflowReview_dump r
  | p_transition t => WorkflowTransition_dump t
  end.

(** ** The envelope *)

Record Envelope := {
  env_schema : string;
  env_operation : WorkOperation;
  env_kind : string;
  env_id : string;
  env_expected_version : option Z;
  env_payload : list (string * value)
}.

Definition as_integer (m : string) (v : value) : res Z :=
  match v with VInt z => Ok z | _ => invalid m end.

Definition ENVELOPE_FIELDS : list string := ["schema"; "operation"; "kind"; "id"; "expected_version"; "payload"].

Definition Envelope_of (d : list (string * value)) : res Envelope :=
  let m := "_Envelope" in
  forbid_extra m ENVELOPE_FIELDS d;;
  s ← required m "schema" (as_literal m [WORK_REQUEST_SCHEMA; WORK_REQUEST_SCHEMA_V2]) d;
  o ← required m "operation" (as_operation m) d;
  k ← required m "kind" (as_literal m ["Todo"; "Proposal"; "Initiative"; "Project"; "Issue"; "Task"; "SessionRef"]) d;
  i ← required m "id" (as_text m) d;
  z ← required m "expected_version" (nullable (as_integer m)) d;
  p ← required m "payload" (as_dict m) d;
  Ok {| env_schema := s; env_operation := o; env_kind := k; env_id := i; env_expected_version := z; env_payload := p |}.

(** [envelope.model_dump(mode="json", by_alias=True)] with the payload dumped. *)
Definition materialized (e : Envelope) (payload : value) : list (string * value) :=
  mk_dict [("schema", VStr (env_schema e)); ("operation", VStr (operation_name (env_operation e)));
           ("kind", VStr (env_kind e)); ("id", VStr (env_id e));
           ("expected_version", null_dump VInt (env_expected_version e)); ("payload", payload)].

(** [re.compile(r"sr-[0-9a-f]{64}").fullmatch]. *)
Definition REF_ID (s : string) : bool :=
  match strip_prefix "sr-" s with
  | Some h => str_forall (λ c, is_digit c || in_range 97 102 c) h && (str_len h =? 64)
  | None => false
  end.

(** ** The checks of [WorkRequest.from_json] *)

Definition invalid_request : exn := ValueError "invalid request".

Definition expected_value (o : option Z) : value := match o with Some z => VInt z | None => VNone end.

(** The checks between the envelope and the payload. *)
Definition envelope_checks (e : Envelope) : res unit :=
  let legacy := String.eqb (env_schema e) WORK_REQUEST_SCHEMA in
  let is_session := String.eqb (env_kind e) "SessionRef" in
  let is_todo := String.eqb (env_kind e) "Todo" in
  let o := env_operation e in
  raise_if (negb (Bool.eqb is_session (bool_decide (o = session_state_op)))) invalid_request;;
  raise_if (is_session && negb (REF_ID (env_id e))) invalid_request;;
  raise_if (legacy && (is_todo || negb (bool_decide (o ∈ WORK_OPERATIONS)))) invalid_request;;
  raise_if (negb legacy && bool_decide (o = status_op)) invalid_request;;
  raise_if (is_todo && negb (bool_decide (o ∈ [create_op; patch_op; archive_op; restore_op; progress_set_op])))
    invalid_request;;
  require_id (env_id e);;
  if decide (o = create_op) then raise_if (bool_decide (is_Some (env_expected_version e))) invalid_request
  else validate_version (expected_value (env_expected_version e));; Ok tt.

Definition resource (k i : string) : string := resource_of (k, i).

Definition evidence_resources (es : list Evidence) : list string :=
  map (λ e, resource "ExternalLink" (ev_id e)) (filter (λ e, truthy (ev_url e) = true) es).

Definition reference_resources (r : option WorkReference) : list string :=
  match r with Some r => [resource (wref_kind r) (wref_id r)] | None => [] end.

Definition is_blocker (o : WorkOperation) : bool :=
  bool_decide (o = blocker_add_op) || bool_decide (o = blocker_remove_op).

(** The checks on the payload, and the resources beside the subject.  The code
    selects them by operation; a payload is of the class of its operation. *)
Definition payload_resources (e : Envelope) (p : work_payload) : res (list string) :=
  let k := env_kind e in
  match p with
  | p_create c => raise_if (negb (String.eqb (cf_id c) (env_id e))) invalid_request;; Ok []
  | p_accept di _ => raise_if (negb (String.eqb k "Proposal")) invalid_request;; Ok [resource "Decision" di]
  | p_convert ii di =>
      raise_if (negb (String.eqb k "Proposal")) invalid_request;; Ok [resource "Issue" ii; resource "Decision" di]
  | p_parent c =>
      kinds ← of_option invalid_request (dict_get k PARENTS);
      raise_if (bool_decide (pc_previous_parent c = None) && bool_decide (pc_parent c = None)
                && bool_decide (default None (pc_previous_arena c) = None)) invalid_request;;
      raise_if (negb (forallb (λ o, match o with Some r => str_in (wref_kind r) kinds | None => true end)
                        [pc_previous_parent c; pc_parent c])) invalid_request;;
      match default None (pc_previous_arena c) with
      | Some a =>
          raise_if (negb (String.eqb k "Task") || bool_decide (pc_parent c = None)) invalid_request;;
          Ok (reference_resources (pc_previous_parent c) ++ reference_resources (pc_parent c)
              ++ [resource "Arena" (ref_id a)])
      | None => Ok (reference_resources (pc_previous_parent c) ++ reference_resources (pc_parent c))
      end
  | p_edge t =>
      raise_if (String.eqb (resource (wref_kind t) (wref_id t)) (resource k (env_id e))) invalid_request;;
      raise_if (is_blocker (env_operation e) && (negb (String.eqb k "Task") || negb (String.eqb (wref_kind t) "Task")))
        invalid_request;;
      Ok [resource (wref_kind t) (wref_id t)]
  | p_review r =>
      Ok (resource (RECORD_KINDS (wr_phase r)) (wr_record_id r) :: evidence_resources (wr_evidence r))
  | p_attach a _ => Ok (elements (attach_resources a))
  | p_progress p => Ok (resource "ReviewPacket" (ps_record_id p) :: evidence_resources (ps_evidence p))
  | p_reject p =>
      raise_if (negb (String.eqb k "Proposal")) invalid_request;; Ok [resource "Decision" (pr_decision_id p)]
  | p_state _ | p_none | p_patch _ | p_status _ | p_assign _ | p_transition _ => Ok []
  end.

(** [tuple(sorted(resources))] of the set. *)
Definition sorted_set (l : list string) : list string := sort_strings (elements (list_to_set l : gset string)).

Record WorkRequest := {
  canonical : string;
  operation : WorkOperation;
  rq_kind : string;
  rq_id : string;
  rq_expected_version : option Z;
  resources : list string
}.

(** The exceptions [from_json] turns into its own. *)
Definition is_request_error (e : exn) : bool :=
  is_value_error e || is_type_error e || is_key_error e
  || match e with SecSIssueCreateDenied _ => true | _ => false end.

Definition WorkRequest_from_json (raw : string) : res WorkRequest :=
  rethrow is_request_error (λ _, InvalidWorkRequest "invalid_work_request")
    (d ← _strict_json_object 131072 "invalid_work_request" raw;
     e ← Envelope_of d;
     envelope_checks e;;
     p ← payload_of (env_operation e) (VDict (env_payload e));
     rs ← payload_resources e p;
     let canonical := _canonical_json (VDict (materialized e (payload_dump p))) in
     raise_if (65536 <? str_len canonical) invalid_request;;
     Ok {| canonical := canonical; operation := env_operation e; rq_kind := env_kind e; rq_id := env_id e;
           rq_expected_version := env_expected_version e;
           resources := sorted_set (resource (env_kind e) (env_id e) :: rs) |}).

(** ** Derived properties *)

(** [json.loads(self.canonical)[name]]. *)
Definition canonical_field (name : string) (canonical : string) : res value :=
  text ← of_option (ValueError "invalid utf-8") (utf8_decode canonical);
  v ← of_option (ValueError "invalid JSON") (loads text);
  match v with
  | VDict d => of_option (KeyError name) (dict_get name d)
  | _ => Err (TypeError "indices must be integers")
  end.

Definition version_of (r : WorkRequest) : res Z :=
  v ← canonical_field "schema" (canonical r);
  Ok (if bool_decide (v = VStr WORK_REQUEST_SCHEMA_V2) then 2 else 1).

Definition authority_operation (r : WorkRequest) : res string :=
  v ← version_of r;
  Ok ("devgraph.work." +:+ operation_name (operation r) +:+ ".v" +:+ print_int v).

Definition nul : ascii := ascii_of_N 0.

(** [domain + self.canonical], the bytes that are hashed. *)
Definition signing_bytes (r : WorkRequest) : res string :=
  v ← version_of r;
  Ok (("devgraph.work-request.v" +:+ print_int v +:+ String nul "") +:+ canonical r).

Definition digest (r : WorkRequest) : res string := b ← signing_bytes r; Ok (sha256_hex b).

Definition payload (r : WorkRequest) : res value := canonical_field "payload" (canonical r).

(** ** What the entry point executes *)

(** The dispatch of [NamedWorkMutations._execute] on the operation, the
    envelope's fields and the payload's. *)
Definition named_of (o : WorkOperation) (k i : string) (ev : option Z) (p : work_payload) : res named_request :=
  let z := default 0 ev in
  let active a := Ok (req_named k i z (op_active a)) in
  match p with
  | p_state st => Ok (req_session_state i z st)
  | p_create c => kd ← of_option (KeyError k) (WORK_OBJECT_TYPES k); Ok (req_create kd c)
  | p_none => Ok (req_named k i z (if decide (o = archive_op) then op_archive else op_restore))
  | p_attach _ v => active (op_session_attach v)
  | p_progress p => active (op_progress_set (ProgressSet_dump p))
  | p_reject p => active (op_proposal_reject p)
  | p_assign a => active (op_workflow (workflow_assign a))
  | p_review r => active (op_workflow (workflow_review (WorkflowReview_dump r)))
  | p_transition t => active (op_workflow (workflow_transition t))
  | p_patch d => active (op_patch d)
  | p_status s => st ← WorkStatus_of s; active (op_status st)
  | p_accept di dt => active (op_accept di dt)
  | p_convert ii di => active (op_convert ii di)
  | p_parent c => active (op_parent_set (pc_previous_parent c) (pc_parent c) (default None (pc_previous_arena c)))
  | p_edge t =>
      active (op_edge (if is_blocker o then blocker else dependency)
                (bool_decide (o = dependency_add_op) || bool_decide (o = blocker_add_op)) t)
  end.

(** [request.payload], read through its contract, and dispatched. *)
Definition work_request_of (r : WorkRequest) : res named_request :=
  v ← payload r;
  p ← payload_of (operation r) v;
  named_of (operation r) (rq_kind r) (rq_id r) (rq_expected_version r) p.

Section execute.
  Context `{Pydantic, Clock}.

(** [NamedWorkMutations.execute]: the canonical bytes are read again before the
    serialized transaction. *)
Definition execute_work (c : caller) (r : WorkRequest) : M Store named_result :=
  r' ← lift (WorkRequest_from_json (canonical r));
  q ← lift (work_request_of r');
  named_execute c q.

End execute.

(** ** Arena requests *)

Definition ARENA_REQUEST_SCHEMA : string := "devgraph.arena-request.v1".

Inductive ArenaOperation : Type := arena_create_op | arena_patch_op | arena_archive_op | arena_member_op.

#[export] Instance ArenaOperation_eq_dec : EqDecision ArenaOperation.
Proof. solve_decision. Defined.

Definition arena_operation_name (o : ArenaOperation) : string :=
  match o with
  | arena_create_op => "create" | arena_patch_op => "patch" | arena_archive_op => "archive"
  | arena_member_op => "member.set"
  end.

Definition ARENA_OPERATIONS : list ArenaOperation := [arena_create_op; arena_patch_op; arena_archive_op; arena_member_op].

Definition as_arena_operation (m : string) (v : value) : res ArenaOperation :=
  match v with
  | VStr s => match find (λ o, String.eqb (arena_operation_name o) s) ARENA_OPERATIONS with
              | Some o => Ok o
              | None => invalid m
              end
  | _ => invalid m
  end.

Record ArenaEnvelope := {
  ae_operation : ArenaOperation;
  ae_kind : string;
  ae_id : string;
  ae_expected_version : option Z;
  ae_payload : list (string * value)
}.

Definition ArenaEnvelope_of (d : list (string * value)) : res ArenaEnvelope :=
  let m := "_Envelope" in
  forbid_extra m ENVELOPE_FIELDS d;;
  required m "schema" (as_literal m [ARENA_REQUEST_SCHEMA]) d;;
  o ← required m "operation" (as_arena_operation m) d;
  k ← required m "kind" (as_literal m ["Arena"; "Initiative"; "Task"]) d;
  i ← required m "id" (as_id m) d;
  z ← required m "expected_version" (nullable (as_range m 1 MAX_SAFE_INTEGER)) d;
  p ← required m "payload" (as_dict m) d;
  Ok {| ae_operation := o; ae_kind := k; ae_id := i; ae_expected_version := z; ae_payload := p |}.

Definition arena_materialized (e : ArenaEnvelope) (payload : value) : list (string * value) :=
  mk_dict [("schema", VStr ARENA_REQUEST_SCHEMA); ("operation", VStr (arena_operation_name (ae_operation e)));
           ("kind", VStr (ae_kind e)); ("id", VStr (ae_id e));
           ("expected_version", null_dump VInt (ae_expected_version e)); ("payload", payload)].

Inductive arena_payload : Type :=
  | ap_create (i t d : string)
  | ap_patch (t d : option string)
  | ap_archive
  | ap_member (previous target : option ArenaReference).

Definition ArenaCreate_of (v : value) : res arena_payload :=
  let m := "_Create" in
  d ← as_dict m v;
  forbid_extra m ["id"; "title"; "description"] d;;
  i ← required m "id" (as_id m) d;
  t ← required m "title" (as_str m 1 4096) d;
  ds ← optional "description" "" (as_str m 0 32768) d;
  Ok (ap_create i t ds).

(** [_Patch]: an unset field is [None]; a null is refused before validation. *)
Definition ArenaPatch_of (v : value) : res arena_payload :=
  let m := "_Patch" in
  d ← as_dict m v;
  check m (negb (bool_decide (d = [])) && negb (existsb (λ kv, bool_decide (kv.2 = VNone)) d));;
  forbid_extra m ["title"; "description"] d;;
  t ← optional "title" None (λ v, x ← as_str m 1 4096 v; Ok (Some x)) d;
  ds ← optional "description" None (λ v, x ← as_str m 0 32768 v; Ok (Some x)) d;
  Ok (ap_patch t ds).

Definition Membership_of (v : value) : res arena_payload :=
  let m := "_Membership" in
  d ← as_dict m v;
  forbid_extra m ["previous_arena"; "arena"] d;;
  p ← required m "previous_arena" (nullable ArenaReference_of) d;
  t ← required m "arena" (nullable ArenaReference_of) d;
  Ok (ap_member p t).

Definition arena_payload_of (o : ArenaOperation) (v : value) : res arena_payload :=
  match o with
  | arena_create_op => ArenaCreate_of v
  | arena_patch_op => ArenaPatch_of v
  | arena_archive_op => Strict_of "ArenaModel" v;; Ok ap_archive
  | arena_member_op => Membership_of v
  end.

Definition set_field (k : string) (o : option string) : list (string * value) :=
  match o with Some s => [(k, VStr s)] | None => [] end.

Definition arena_payload_dump (p : arena_payload) : value :=
  match p with
  | ap_create i t d => VDict (mk_dict [("id", VStr i); ("title", VStr t); ("description", VStr d)])
  | ap_patch t d => VDict (mk_dict (set_field "title" t ++ set_field "description" d))
  | ap_archive => VDict []
  | ap_member p t =>
      VDict (mk_dict [("previous_arena", null_dump ArenaReference_dump p); ("arena", null_dump ArenaReference_dump t)])
  end.

Definition arena_resources (o : option ArenaReference) : list string :=
  match o with Some r => [resource "Arena" (ref_id r)] | None => [] end.

Definition arena_payload_resources (e : ArenaEnvelope) (p : arena_payload) : res (list string) :=
  match p with
  | ap_create i _ _ => raise_if (negb (String.eqb i (ae_id e))) invalid_request;; Ok []
  | ap_member p t =>
      raise_if (bool_decide (p = None) && bool_decide (t = None)) invalid_request;;
      Ok (arena_resources p ++ arena_resources t)
  | ap_patch _ _ | ap_archive => Ok []
  end.

Record ArenaRequest := {
  ar_canonical : string;
  ar_operation : ArenaOperation;
  ar_kind : string;
  ar_id : string;
  ar_expected_version : option Z;
  ar_resources : list string
}.

Definition arena_envelope_checks (e : ArenaEnvelope) : res unit :=
  raise_if (negb (Bool.eqb (bool_decide (ae_operation e = arena_create_op))
                    (bool_decide (ae_expected_version e = None)))) invalid_request;;
  raise_if (negb (Bool.eqb (bool_decide (ae_operation e = arena_member_op))
                    (negb (String.eqb (ae_kind e) "Arena")))) invalid_request.

Definition ArenaRequest_from_json (raw : string) : res ArenaRequest :=
  rethrow is_request_error (λ _, InvalidArenaRequest "invalid_arena_request")
    (d ← _strict_json_object 131072 "invalid_arena_request" raw;
     e ← ArenaEnvelope_of d;
     arena_envelope_checks e;;
     p ← arena_payload_of (ae_operation e) (VDict (ae_payload e));
     rs ← arena_payload_resources e p;
     let canonical := _canonical_json (VDict (arena_materialized e (arena_payload_dump p))) in
     raise_if (65536 <? str_len canonical) invalid_request;;
     Ok {| ar_canonical := canonical; ar_operation := ae_operation e; ar_kind := ae_kind e; ar_id := ae_id e;
           ar_expected_version := ae_expected_version e;
           ar_resources := sorted_set (resource (ae_kind e) (ae_id e) :: rs) |}).

Definition arena_authority_operation (r : ArenaRequest) : string :=
  "devgraph.arena." +:+ arena_operation_name (ar_operation r) +:+ ".v1".

Definition arena_signing_bytes (r : ArenaRequest) : string :=
  ("devgraph.arena-request.v1" +:+ String nul "") +:+ ar_canonical r.

Definition arena_digest (r : ArenaRequest) : string := sha256_hex (arena_signing_bytes r).

(** The dispatch of [ArenaMutations._execute]. *)
Definition arena_named_of (k i : string) (ev : option Z) (p : arena_payload) : arena_request :=
  let z := default 0 ev in
  match p with
  | ap_create i t d => arena_create i t d
  | ap_patch t d => arena_patch i z t d
  | ap_archive => arena_archive i z
  | ap_member p t => arena_member_set k i z p t
  end.

Definition arena_request_read (r : ArenaRequest) : res arena_request :=
  v ← canonical_field "payload" (ar_canonical r);
  p ← arena_payload_of (ar_operation r) v;
  Ok (arena_named_of (ar_kind r) (ar_id r) (ar_expected_version r) p).

Section execute_arena.
  Context `{Pydantic, Clock}.

Definition execute_arena (r : ArenaRequest) : M Store arena_result :=
  r' ← lift (ArenaRequest_from_json (ar_canonical r));
  q ← lift (arena_request_read r');
  arena_execute q.

End execute_arena.

(** ** Faithful fields and payloads *)

#[export] Hint Extern 1 (safe_integer _ = true) => first [reflexivity | assumption] : wire.

Section faithful_fields.
  Context (n : nat) (m : string).

Lemma nonempty_faithful : faithful n (as_nonempty m) VStr.
Proof.
  intros v x _ H. unfold as_nonempty in *. minv. destruct v; try discriminate H. injection H as ->. subst.
  split; [|auto with wire]. simpl. by revalidate_step.
Qed.

Lemma version_faithful : faithful n (as_version m) VInt.
Proof.
  intros v x Hv H. unfold as_version in *. destruct v; try discriminate H.
  assert (z = x) as ->. { revert H. simpl. unfold require_version, invalid. destruct (version_ok z), (priority_ok z); congruence. }
  split; [done|]. auto with wire.
Qed.

Lemma priority_faithful : faithful n (as_priority m) VInt.
Proof.
  intros v x Hv H. unfold as_priority in *. destruct v; try discriminate H.
  assert (z = x) as ->. { revert H. simpl. unfold require_priority, invalid. destruct (version_ok z), (priority_ok z); congruence. }
  split; [done|]. auto with wire.
Qed.

Lemma range_faithful lo hi : faithful n (as_range m lo hi) VInt.
Proof.
  intros v x Hv H. unfold as_range, invalid in *. destruct v; try discriminate H.
  assert (z = x) as -> by (case_match; congruence). auto.
Qed.

Lemma integer_faithful : faithful n (as_integer m) VInt.
Proof. intros v x Hv H. destruct v; try discriminate H. injection H as ->. auto. Qed.

Lemma ids_faithful : faithful (S n) (as_ids m) (λ l, VList (VStr <$> l)).
Proof.
  intros v l _. unfold as_ids. destruct (validate_work_object_id_collection v) as [l'|] eqn:E; [|discriminate].
  intros [= ->]. destruct v as [| | | | |l0|]; try discriminate E. simpl in E.
  enough (res_mapM validate_work_object_id (VStr <$> l) = Ok l) as H.
  { split; [by simpl; rewrite H|]. apply wire_list, Forall_fmap, Forall_true. intros s. apply wire_str. }
  revert l E. induction l0 as [|v l0 IH]; intros l E; simpl in E; minv; subst; [done|].
  destruct v; try discriminate E. assert (s = r) as -> by (simpl in E; unfold require_id in E; case_match; congruence).
  rewrite fmap_cons. cbn [res_mapM]. rewrite E. cbn [mbind res_bind]. by rewrite (IH r0).
Qed.

Lemma nullable_faithful {A} (f : value → res A) g :
  faithful n f g → (∀ x, g x ≠ VNone) → faithful n (nullable f) (null_dump g).
Proof.
  intros Hf Hg v o Hv H. unfold nullable in H. destruct (decide (v = VNone)) as [->|Hne].
  { injection H as <-. auto with wire. }
  assert ((x ← f v; Ok (Some x)) = Ok o) as H' by (by destruct v). minv. subst.
  destruct (Hf v r Hv H') as [H1 H2]. split; [|done]. simpl. unfold nullable. specialize (Hg r).
  destruct (g r); [done|by rewrite H1..].
Qed.

Lemma operation_faithful : faithful n (as_operation m) (λ o, VStr (operation_name o)).
Proof. intros v o _ _. split; [by destruct o|auto with wire]. Qed.

Lemma arena_operation_faithful : faithful n (as_arena_operation m) (λ o, VStr (arena_operation_name o)).
Proof. intros v o _ _. split; [by destruct o|auto with wire]. Qed.

End faithful_fields.

#[export] Hint Resolve nonempty_faithful version_faithful priority_faithful range_faithful integer_faithful
  ids_faithful operation_faithful arena_operation_faithful : wire.

Lemma create_faithful n : faithful (S (S n)) CreateWorkObjectRequest_of create_dump.
Proof. faithful_solve CreateWorkObjectRequest_of create_dump. Qed.

Lemma WorkReference_faithful n : faithful (S n) WorkReference_of WorkReference_dump.
Proof. faithful_solve WorkReference_of WorkReference_dump. Qed.

Lemma ArenaReference_faithful n : faithful (S n) ArenaReference_of ArenaReference_dump.
Proof. faithful_solve ArenaReference_of ArenaReference_dump. Qed.

Lemma WorkflowAssign_faithful n : faithful (S n) WorkflowAssign_of WorkflowAssign_dump.
Proof. faithful_solve WorkflowAssign_of WorkflowAssign_dump. Qed.

Lemma WorkflowTransition_faithful n : faithful (S n) WorkflowTransition_of WorkflowTransition_dump.
Proof. faithful_solve WorkflowTransition_of WorkflowTransition_dump. Qed.

Lemma ProposalReject_faithful n : faithful (S n) ProposalReject_of ProposalReject_dump.
Proof. faithful_solve ProposalReject_of ProposalReject_dump. Qed.

Lemma ProgressSet_faithful n : faithful (S (S (S (S n)))) ProgressSet_of ProgressSet_dump.
Proof. faithful_solve ProgressSet_of ProgressSet_dump. Qed.

Lemma work_null_faithful n : faithful (S n) (nullable WorkReference_of) (null_dump WorkReference_dump).
Proof. by apply nullable_faithful; [apply WorkReference_faithful|]. Qed.

Lemma arena_null_faithful n : faithful (S n) (nullable ArenaReference_of) (null_dump ArenaReference_dump).
Proof. by apply nullable_faithful; [apply ArenaReference_faithful|]. Qed.

Lemma int_null_faithful n f : faithful n f VInt → faithful n (nullable f) (null_dump VInt).
Proof. intros. by apply nullable_faithful. Qed.

#[export] Hint Resolve WorkReference_faithful work_null_faithful arena_null_faithful int_null_faithful : wire.

Lemma ParentChange_faithful n : faithful (S (S n)) ParentChange_of ParentChange_dump.
Proof.
  intros v x Hv H. unfold ParentChange_of in H. minv.
  match goal with H : optional _ _ _ _ = Ok ?a |- _ => rename H into Ha; rename a into ar end.
  fields_back. subst. unfold ParentChange_dump, ParentChange_of. cbn [pc_previous_parent pc_parent pc_previous_arena].
  unfold optional in Ha. destruct (dict_get "previous_arena" d) as [va|] eqn:Ea; minv; subst.
  - eapply wire_field in Ea; [|exact Hv]. edestruct arena_null_faithful as [Hb Hw]; [exact Ea|eassumption|].
    split; [|wire_fields]. do 4 revalidate_step. eapply res_bind_run; [|reflexivity].
    by eapply (res_bind_run _ (λ x, Ok (Some x))); [exact Hb|].
  - split; [by repeat revalidate_step|wire_fields].
Qed.

Lemma forallb_dict_insert {V} (p : string * V → bool) k v d :
  p (k, v) = true → dict_get k d = None → forallb p (dict_insert k v d) = forallb p d.
Proof.
  intros Hp. induction d as [|[l w] d IH]; simpl; [by rewrite Hp|]. destruct (String.eqb k l) eqn:E; [done|].
  intros Hk. destruct (String.ltb k l); simpl; [by rewrite Hp|]. by rewrite IH.
Qed.

Lemma SessionAttach_dump_of v : SessionAttach_of (SessionAttach_dump v) = SessionAttach_of v.
Proof.
  destruct v as [| | | | | |d]; try done. simpl. destruct (dict_get "link" d) as [l|] eqn:E; [done|].
  unfold SessionAttach_of. simpl as_dict. cbn [mbind res_bind]. unfold forbid_extra, required, optional.
  rewrite forallb_dict_insert by done. rewrite !dict_get_insert, E. done.
Qed.

Lemma SessionAttach_dump_idem v : SessionAttach_dump (SessionAttach_dump v) = SessionAttach_dump v.
Proof.
  destruct v as [| | | | | |d]; try done. simpl. destruct (dict_get "link" d) as [l|] eqn:E; [by rewrite E|].
  by rewrite dict_get_insert.
Qed.

Lemma SessionAttach_dump_wire n v : wire (S n) v → wire (S n) (SessionAttach_dump v).
Proof.
  destruct v as [| | | | | |d]; try done. simpl. case_match; [done|]. rewrite !wire_dict_iff. intros [Hs Hd].
  split; [by apply dict_insert_sorted|]. apply Forall_dict_insert; [apply wire_none|done].
Qed.

(** Models of one field, dumped without [mk_dict]. *)
Lemma single_wire n k v : wire n v → wire (S n) (VDict [(k, v)]).
Proof. intros Hv. change [(k, v)] with (mk_dict [(k, v)]). apply wire_dict. by apply Forall_singleton. Qed.

Lemma edge_faithful n : faithful (S (S n)) EdgeChange_of (λ t, VDict [("target", WorkReference_dump t)]).
Proof. intros v x Hv H. unfold EdgeChange_of in H. minv. fields_back. split; [done|by apply single_wire]. Qed.

Lemma status_faithful n : faithful (S n) StatusTransitionRequest_of (λ s, VDict [("status", VStr s)]).
Proof. intros v x Hv H. unfold StatusTransitionRequest_of in H. minv. fields_back. split; [done|by apply single_wire]. Qed.

Lemma state_faithful n : faithful (S n) SessionStateSet_of (λ s, VDict [("state", VStr s)]).
Proof. intros v x Hv H. unfold SessionStateSet_of in H. minv. fields_back. split; [done|by apply single_wire]. Qed.

Lemma Strict_faithful n m : faithful n (Strict_of m) (λ _, VDict []).
Proof. intros v [] Hv H. split; [done|]. constructor; [by split; [constructor|]|done|by destruct n]. Qed.

Lemma accept_faithful n : faithful (S n) AcceptProposalRequest_of
  (λ x, VDict (mk_dict [("decision_id", VStr x.1); ("decision_title", VStr x.2)])).
Proof. faithful_solve AcceptProposalRequest_of (@fst). Qed.

Lemma convert_faithful n : faithful (S n) Conversion_of
  (λ x, VDict (mk_dict [("issue_id", VStr x.1); ("decision_id", VStr x.2)])).
Proof. faithful_solve Conversion_of (@fst). Qed.

Lemma Update_dump_of v d : UpdateWorkObjectRequest_of v = Ok d → v = VDict d.
Proof. intros H. destruct v; try discriminate H. unfold UpdateWorkObjectRequest_of in H. simpl as_dict in H. minv. congruence. Qed.

Ltac by_model L :=
  edestruct L as [?Hb ?Hw]; [eassumption|eassumption|]; split; [by eapply res_bind_run; [eassumption|]|done].

(** The dump of every payload validates to the payload, within the reader's limits. *)
Lemma payload_faithful n o : faithful (S (S (S (S n)))) (payload_of o) payload_dump.
Proof.
  intros v p Hv H. destruct o; simpl in H; minv; subst; cbn [payload_dump payload_of].
  - by_model create_faithful.
  - apply Update_dump_of in H as Hd. subst. by rewrite H.
  - by_model status_faithful.
  - split; [done|]. by apply (proj2 (Strict_faithful _ "_Strict" _ tt Hv H)).
  - by_model accept_faithful.
  - by_model convert_faithful.
  - by_model ParentChange_faithful.
  - by_model edge_faithful.
  - by_model edge_faithful.
  - by_model edge_faithful.
  - by_model edge_faithful.
  - by_model WorkflowAssign_faithful.
  - by_model WorkflowReview_faithful.
  - by_model WorkflowTransition_faithful.
  - by_model ProgressSet_faithful.
  - split; [done|]. by apply (proj2 (Strict_faithful _ "_Strict" _ tt Hv H)).
  - by_model ProposalReject_faithful.
  - rewrite SessionAttach_dump_of, H, SessionAttach_dump_idem. split; [done|by apply SessionAttach_dump_wire].
  - by_model state_faithful.
Qed.

Lemma payload_dump_dict o d p : payload_of o (VDict d) = Ok p → ∃ pd, payload_dump p = VDict pd.
Proof. intros H. destruct o; simpl in H; minv; subst; cbn [payload_dump SessionAttach_dump]; eauto. Qed.

(** ** The canonical bytes are a fixed point of the contract *)

Definition with_payload (e : Envelope) (pd : list (string * value)) : Envelope :=
  {| env_schema := env_schema e; env_operation := env_operation e; env_kind := env_kind e; env_id := env_id e;
     env_expected_version := env_expected_version e; env_payload := pd |}.

Lemma Envelope_faithful n d e pd :
  wire (S n) (VDict d) → Envelope_of d = Ok e → wire n (VDict pd) →
  Envelope_of (materialized e (VDict pd)) = Ok (with_payload e pd) ∧ wire (S n) (VDict (materialized e (VDict pd)))
  ∧ wire n (VDict (env_payload e)).
Proof.
  intros Hd H Hp. unfold Envelope_of in H. minv.
  match goal with H : required _ "payload" _ _ = Ok ?a |- _ => rename H into Hq; rename a into q end.
  assert (wire n (VDict q)) as Hw.
  { unfold required in Hq. destruct (dict_get "payload" d) as [v|] eqn:E; [|discriminate Hq].
    eapply wire_field in E; [|done]. destruct v; try discriminate Hq. by injection Hq as ->. }
  clear Hq. fields_back. subst. split; [|split; [|done]].
  - unfold Envelope_of. repeat revalidate_step. reflexivity.
  - unfold materialized. cbn [env_schema env_operation env_kind env_id env_expected_version]. wire_fields.
Qed.

(** What an accepted request went through. *)
Record request_facts (r : WorkRequest) (e : Envelope) (p : work_payload) (pd : list (string * value)) (rs : list string) : Prop := {
  rf_checks : envelope_checks e = Ok tt;
  rf_dump : payload_dump p = VDict pd;
  rf_payload : payload_of (env_operation e) (VDict pd) = Ok p;
  rf_resources : payload_resources e p = Ok rs;
  rf_wire : wire _MAX_JSON_DEPTH (VDict (materialized e (VDict pd)));
  rf_envelope : Envelope_of (materialized e (VDict pd)) = Ok (with_payload e pd);
  rf_size : str_len (canonical r) <= 65536;
  rf_request : r = {| canonical := _canonical_json (VDict (materialized e (VDict pd))); operation := env_operation e;
                      rq_kind := env_kind e; rq_id := env_id e; rq_expected_version := env_expected_version e;
                      resources := sorted_set (resource (env_kind e) (env_id e) :: rs) |}
}.

Lemma from_json_facts raw r : WorkRequest_from_json raw = Ok r → ∃ e p pd rs, request_facts r e p pd rs.
Proof.
  unfold WorkRequest_from_json. intros H%rethrow_Ok.
  apply res_bind_Ok in H as (d & Hd & H). apply res_bind_Ok in H as (e & He & H).
  apply res_bind_Ok in H as ([] & Hc & H). apply res_bind_Ok in H as (p & Hp & H).
  apply res_bind_Ok in H as (rs & Hr & H). cbv zeta in H. apply res_bind_Ok in H as ([] & Hs & H).
  apply raise_if_Ok, Z.ltb_ge in Hs. injection H as <-.
  destruct (payload_dump_dict _ _ _ Hp) as [pd Hpd].
  apply strict_json_object_Ok in Hd as [_ Hd].
  assert (wire 15 (VDict (env_payload e))) as Hw.
  { by destruct (Envelope_faithful 15 d e [] Hd He) as (_ & _ & ?); [by apply (wire_dict_iff 14); split; constructor|]. }
  destruct (payload_faithful 11 (env_operation e) _ p Hw Hp) as [Hp' Hw']. rewrite Hpd in Hp', Hw', Hs |- *.
  destruct (Envelope_faithful 15 d e pd Hd He Hw') as (Hb & Hm & _).
  exists e, p, pd, rs. by constructor.
Qed.

Lemma work_request_fixed raw r : WorkRequest_from_json raw = Ok r → WorkRequest_from_json (canonical r) = Ok r.
Proof.
  intros (e & p & pd & rs & [Hc Hd Hp Hr Hw He Hs ->])%from_json_facts. cbn [canonical] in *.
  unfold WorkRequest_from_json. rewrite strict_json_canonical by (done || lia).
  cbn [mbind res_bind]. rewrite He. cbn [mbind res_bind]. change (envelope_checks (with_payload e pd)) with (envelope_checks e).
  rewrite Hc. cbn [mbind res_bind with_payload env_operation env_payload]. rewrite Hp. cbn [mbind res_bind].
  change (payload_resources (with_payload e pd) p) with (payload_resources e p). rewrite Hr. cbn [mbind res_bind].
  change (materialized (with_payload e pd)) with (materialized e). rewrite Hd. apply Z.ltb_ge in Hs. by rewrite Hs.
Qed.

Lemma set_fields_get k t d :
  dict_get k (mk_dict (set_field "title" t ++ set_field "description" d))
  = if String.eqb k "title" then VStr <$> t else if String.eqb k "description" then VStr <$> d else None.
Proof.
  destruct t as [t|], d as [d|]; cbn;
    try (change (String.ltb "description" "title") with true; cbn);
    (destruct (String.eqb_spec k "title") as [->|]; [done|]);
    by destruct (String.eqb k "description").
Qed.

Lemma ArenaPatch_faithful n : faithful (S n) ArenaPatch_of arena_payload_dump.
Proof.
  intros v x Hv H. unfold ArenaPatch_of in H.
  apply res_bind_Ok in H as (d & Hd & H). destruct v; try discriminate Hd. injection Hd as ->.
  apply res_bind_Ok in H as ([] & Hc & H). apply res_bind_Ok in H as ([] & Hf & H).
  apply res_bind_Ok in H as (t & Ht & H). apply res_bind_Ok in H as (ds & Hds & H). injection H as <-.
  assert (∀ name lo hi o, optional name None (λ v, x ← as_str "_Patch" lo hi v; Ok (Some x)) d = Ok o →
    (dict_get name d = None ↔ o = None) ∧
    ∀ s, o = Some s → as_str "_Patch" lo hi (VStr s) = Ok s) as Hopt.
  { intros name lo hi o Ho. unfold optional in Ho. destruct (dict_get name d) as [v|] eqn:E; minv; subst; [|done].
    split; [done|]. intros s [= <-]. eapply (str_faithful 0); [|eassumption]. destruct v; try discriminate. apply wire_str. }
  destruct (Hopt _ _ _ _ Ht) as [Ht1 Ht2]. destruct (Hopt _ _ _ _ Hds) as [Hd1 Hd2].
  assert (t ≠ None ∨ ds ≠ None) as Hne.
  { apply check_Ok, andb_true_iff in Hc as [Hc _]. apply negb_true_iff, bool_decide_eq_false in Hc.
    destruct d as [|[k w] d]; [done|]. apply check_Ok in Hf. simpl in Hf. apply andb_true_iff in Hf as [Hk _].
    rewrite <-Ht1, <-Hd1. simpl.
    destruct (String.eqb_spec "title" k) as [<-|]; [by left|].
    destruct (String.eqb_spec "description" k) as [<-|]; [by right|]. exfalso.
    apply str_in_spec in Hk. set_solver. }
  split.
  - unfold ArenaPatch_of, arena_payload_dump. eapply res_bind_run; [reflexivity|].
    eapply res_bind_run. { destruct t, ds; try reflexivity. by destruct Hne. }
    eapply res_bind_run. { by destruct t, ds. }
    unfold optional. rewrite !set_fields_get. simpl String.eqb. cbv iota.
    destruct t as [t|], ds as [ds|]; cbn -[as_str]; by rewrite ?(Ht2 _ eq_refl), ?(Hd2 _ eq_refl).
  - apply wire_dict. destruct t, ds; simpl; repeat constructor; apply wire_str.
Qed.

Lemma arena_payload_faithful n o : faithful (S (S n)) (arena_payload_of o) arena_payload_dump.
Proof.
  intros v x Hv H. destruct o; cbn [arena_payload_of] in *.
  - unfold ArenaCreate_of in H. minv. fields_back. subst. split; [|cbn [arena_payload_dump]; wire_fields].
    unfold ArenaCreate_of, arena_payload_dump. by repeat revalidate_step.
  - by eapply ArenaPatch_faithful.
  - minv. subst. split; [done|]. by apply (proj2 (Strict_faithful _ "ArenaModel" _ tt Hv H)).
  - unfold Membership_of in H. minv. fields_back. subst. split; [|cbn [arena_payload_dump]; wire_fields].
    unfold Membership_of, arena_payload_dump. by repeat revalidate_step.
Qed.

Lemma arena_dump_dict p : ∃ pd, arena_payload_dump p = VDict pd.
Proof. destruct p; simpl; eauto. Qed.

Definition with_arena_payload (e : ArenaEnvelope) (pd : list (string * value)) : ArenaEnvelope :=
  {| ae_operation := ae_operation e; ae_kind := ae_kind e; ae_id := ae_id e;
     ae_expected_version := ae_expected_version e; ae_payload := pd |}.

Lemma ArenaEnvelope_faithful n d e pd :
  wire (S n) (VDict d) → ArenaEnvelope_of d = Ok e → wire n (VDict pd) →
  ArenaEnvelope_of (arena_materialized e (VDict pd)) = Ok (with_arena_payload e pd)
  ∧ wire (S n) (VDict (arena_materialized e (VDict pd))) ∧ wire n (VDict (ae_payload e))
  ∧ str_in (ae_kind e) ["Arena"; "Initiative"; "Task"] = true.
Proof.
  intros Hd H Hp. unfold ArenaEnvelope_of in H. minv.
  match goal with H : required _ "payload" _ _ = Ok ?a |- _ => rename H into Hq; rename a into q end.
  assert (wire n (VDict q)) as Hw.
  { unfold required in Hq. destruct (dict_get "payload" d) as [v|] eqn:E; [|discriminate Hq].
    eapply wire_field in E; [|done]. destruct v; try discriminate Hq. by injection Hq as ->. }
  clear Hq. fields_back. subst. split; [|split; [|split; [done|]]].
  - unfold ArenaEnvelope_of. repeat revalidate_step. reflexivity.
  - unfold arena_materialized. cbn [ae_operation ae_kind ae_id ae_expected_version]. wire_fields.
  - cbn [ae_kind]. match goal with H : as_literal _ ["Arena"; _; _] (VStr ?k) = _ |- _ => revert H; simpl as_literal end.
    by case_match.
Qed.

Record arena_facts (r : ArenaRequest) (e : ArenaEnvelope) (p : arena_payload) (pd : list (string * value)) (rs : list string) : Prop := {
  af_checks : arena_envelope_checks e = Ok tt;
  af_dump : arena_payload_dump p = VDict pd;
  af_payload : arena_payload_of (ae_operation e) (VDict pd) = Ok p;
  af_resources : arena_payload_resources e p = Ok rs;
  af_wire : wire _MAX_JSON_DEPTH (VDict (arena_materialized e (VDict pd)));
  af_envelope : ArenaEnvelope_of (arena_materialized e (VDict pd)) = Ok (with_arena_payload e pd);
  af_kind : str_in (ae_kind e) ["Arena"; "Initiative"; "Task"] = true;
  af_size : str_len (ar_canonical r) <= 65536;
  af_request : r = {| ar_canonical := _canonical_json (VDict (arena_materialized e (VDict pd))); ar_operation := ae_operation e;
                      ar_kind := ae_kind e; ar_id := ae_id e; ar_expected_version := ae_expected_version e;
                      ar_resources := sorted_set (resource (ae_kind e) (ae_id e) :: rs) |}
}.

Lemma arena_from_json_facts raw r : ArenaRequest_from_json raw = Ok r → ∃ e p pd rs, arena_facts r e p pd rs.
Proof.
  unfold ArenaRequest_from_json. intros H%rethrow_Ok.
  apply res_bind_Ok in H as (d & Hd & H). apply res_bind_Ok in H as (e & He & H).
  apply res_bind_Ok in H as ([] & Hc & H). apply res_bind_Ok in H as (p & Hp & H).
  apply res_bind_Ok in H as (rs & Hr & H). cbv zeta in H. apply res_bind_Ok in H as ([] & Hs & H).
  apply raise_if_Ok, Z.ltb_ge in Hs. injection H as <-.
  destruct (arena_dump_dict p) as [pd Hpd]. apply strict_json_object_Ok in Hd as [_ Hd].
  destruct (ArenaEnvelope_faithful 15 d e [] Hd He) as (_ & _ & Hw & Hk).
  { by apply (wire_dict_iff 14); split; constructor. }
  destruct (arena_payload_faithful 13 (ae_operation e) _ p Hw Hp) as [Hp' Hw']. rewrite Hpd in Hp', Hw', Hs |- *.
  destruct (ArenaEnvelope_faithful 15 d e pd Hd He Hw') as (Hb & Hm & _).
  exists e, p, pd, rs. by constructor.
Qed.

Lemma arena_request_fixed raw r : ArenaRequest_from_json raw = Ok r → ArenaRequest_from_json (ar_canonical r) = Ok r.
Proof.
  intros (e & p & pd & rs & [Hc Hd Hp Hr Hw He _ Hs ->])%arena_from_json_facts. cbn [ar_canonical] in *.
  unfold ArenaRequest_from_json. rewrite strict_json_canonical by (done || lia).
  cbn [mbind res_bind]. rewrite He. cbn [mbind res_bind].
  change (arena_envelope_checks (with_arena_payload e pd)) with (arena_envelope_checks e).
  rewrite Hc. cbn [mbind res_bind with_arena_payload ae_operation ae_payload]. rewrite Hp. cbn [mbind res_bind].
  change (arena_payload_resources (with_arena_payload e pd) p) with (arena_payload_resources e p).
  rewrite Hr. cbn [mbind res_bind].
  change (arena_materialized (with_arena_payload e pd)) with (arena_materialized e). rewrite Hd. apply Z.ltb_ge in Hs.
  by rewrite Hs.
Qed.

(** ** Derived properties of accepted requests *)

Lemma canonical_field_of n name d : wire n (VDict d) →
  canonical_field name (_canonical_json (VDict d)) = of_option (KeyError name) (dict_get name d).
Proof.
  intros [Hc _ _]. unfold canonical_field, _canonical_json. rewrite utf8_roundtrip. cbn [of_option mbind res_bind].
  rewrite loads_dumps by done. done.
Qed.

Lemma version_of_facts r e p pd rs : request_facts r e p pd rs →
  version_of r = Ok (if String.eqb (env_schema e) WORK_REQUEST_SCHEMA_V2 then 2 else 1).
Proof.
  intros [_ _ _ _ Hw _ _ ->]. unfold version_of. cbn [canonical]. rewrite (canonical_field_of _ _ _ Hw).
  change (dict_get "schema" (materialized e (VDict pd))) with (Some (VStr (env_schema e))). cbn [of_option mbind res_bind].
  case_bool_decide as E; [injection E as ->; done|].
  destruct (String.eqb_spec (env_schema e) WORK_REQUEST_SCHEMA_V2); [congruence|done].
Qed.

(** The request an accepted request executes, from its own fields. *)
Lemma work_request_of_facts r e p pd rs : request_facts r e p pd rs →
  work_request_of r = named_of (env_operation e) (env_kind e) (env_id e) (env_expected_version e) p.
Proof.
  intros [_ _ Hp _ Hw _ _ ->]. unfold work_request_of, payload. cbn [canonical operation rq_kind rq_id rq_expected_version].
  rewrite (canonical_field_of _ _ _ Hw).
  change (dict_get "payload" (materialized e (VDict pd))) with (Some (VDict pd)). cbn [of_option mbind res_bind].
  by rewrite Hp.
Qed.

Lemma arena_request_read_facts r e p pd rs : arena_facts r e p pd rs →
  arena_request_read r = Ok (arena_named_of (ae_kind e) (ae_id e) (ae_expected_version e) p).
Proof.
  intros [_ _ Hp _ Hw _ _ _ ->]. unfold arena_request_read. cbn [ar_canonical ar_operation ar_kind ar_id ar_expected_version].
  rewrite (canonical_field_of _ _ _ Hw).
  change (dict_get "payload" (arena_materialized e (VDict pd))) with (Some (VDict pd)). cbn [of_option mbind res_bind].
  by rewrite Hp.
Qed.

Lemma envelope_kind d e : Envelope_of d = Ok e →
  str_in (env_kind e) ["Todo"; "Proposal"; "Initiative"; "Project"; "Issue"; "Task"; "SessionRef"] = true
  ∧ str_in (env_schema e) [WORK_REQUEST_SCHEMA; WORK_REQUEST_SCHEMA_V2] = true.
Proof.
  intros H. unfold Envelope_of in H. minv. subst. cbn [env_kind env_schema].
  assert (∀ name l x, required "_Envelope" name (as_literal "_Envelope" l) d = Ok x → str_in x l = true) as Hl.
  { intros name l x Hx. unfold required in Hx. destruct (dict_get name d) as [[]|]; try discriminate Hx.
    simpl in Hx. unfold invalid in Hx. case_match; congruence. }
  split; by eapply Hl.
Qed.

(** A membership is the payload of [member.set] only, whose kind is not [Arena]. *)
Lemma arena_payload_kind e v p : arena_envelope_checks e = Ok tt → arena_payload_of (ae_operation e) v = Ok p →
  match p with ap_member _ _ => ae_kind e ≠ "Arena" | _ => ae_kind e = "Arena" end.
Proof.
  intros Hc Hp. unfold arena_envelope_checks in Hc. apply res_bind_Ok in Hc as ([] & _ & Hc).
  apply raise_if_Ok, negb_false_iff, eqb_prop in Hc.
  assert (match p with ap_member _ _ => ae_operation e = arena_member_op | _ => ae_operation e ≠ arena_member_op end) as Ho.
  { destruct (ae_operation e); simpl in Hp.
    - unfold ArenaCreate_of in Hp. minv. by subst.
    - unfold ArenaPatch_of in Hp. minv. by subst.
    - minv. by subst.
    - unfold Membership_of in Hp. minv. by subst. }
  destruct p; [rewrite bool_decide_false in Hc by done..|rewrite bool_decide_true in Hc by done]; symmetry in Hc;
    first [by apply negb_false_iff, String.eqb_eq in Hc|by apply negb_true_iff, String.eqb_neq in Hc].
Qed.

(** The requests that the graph invariant asks for are the ones admitted. *)
Lemma work_request_admitted c raw r :
  WorkRequest_from_json raw = Ok r → ∃ q, work_request_of r = Ok q ∧ request_ok (work_request c q) = true.
Proof.
  intros (e & p & pd & rs & Hf)%from_json_facts. rewrite (work_request_of_facts _ _ _ _ _ Hf).
  destruct Hf as [Hc _ Hp Hr _ He _ _]. apply envelope_kind in He as [Hk _]. cbn [with_payload env_kind] in Hk.
  destruct p; cbn [named_of]; eauto.
  - case_decide; eauto.
  - assert (∃ kd, WORK_OBJECT_TYPES (env_kind e) = Some kd) as [kd ->]; [|eauto].
    assert (env_operation e = create_op) as Ho.
    { destruct (env_operation e); simpl in Hp; minv; try discriminate; done. }
    unfold envelope_checks in Hc. rewrite Ho in Hc. apply res_bind_Ok in Hc as ([] & Hc & _).
    apply raise_if_Ok, negb_false_iff, eqb_prop in Hc.
    apply str_in_spec in Hk. repeat (apply elem_of_cons in Hk as [Hk|Hk]; [rewrite Hk in *; try discriminate Hc; vm_compute; eauto|]).
    by apply not_elem_of_nil in Hk.
  - assert (∃ st, WorkStatus_of status = Ok st) as [st ->]; [|simpl; eauto].
    assert (StatusTransitionRequest_of (VDict pd) = Ok status) as Hs.
    { destruct (env_operation e); simpl in Hp; minv; simplify_eq. done. }
    unfold StatusTransitionRequest_of in Hs. minv. unfold required in *.
    match goal with H : match ?x with _ => _ end = Ok status |- _ => destruct x as [[]|]; try discriminate H; revert H end.
    simpl as_literal. case_match eqn:E; [|done]. intros [= ->]. apply str_in_spec in E.
    repeat (apply elem_of_cons in E as [->|E]; [vm_compute; eauto|]). by apply not_elem_of_nil in E.
  - eexists. split; [done|]. unfold payload_resources in Hr. cbn [request_ok]. apply res_bind_Ok in Hr as (kinds & Hkinds & Hr). apply of_option_Ok in Hkinds.
    apply res_bind_Ok in Hr as ([] & _ & Hr). apply res_bind_Ok in Hr as ([] & Hall & _).
    apply raise_if_Ok, negb_false_iff in Hall. unfold parent_kinds_admitted, parent_kinds. rewrite Hkinds.
    rewrite bool_decide_true by done. exact Hall.
Qed.

Lemma arena_request_admitted raw r :
  ArenaRequest_from_json raw = Ok r → ∃ q, arena_request_read r = Ok q ∧ request_ok (arena_request_of q) = true.
Proof.
  intros (e & p & pd & rs & Hf)%arena_from_json_facts. eexists. split; [by eapply arena_request_read_facts|].
  destruct Hf as [Hc _ Hp _ _ _ Hk _ _]. destruct p; try done. cbn [arena_named_of request_ok].
  apply arena_payload_kind in Hp; [|done]. simpl in Hk. apply str_in_spec in Hk. apply str_in_spec.
  by apply elem_of_cons in Hk as [?|?].
Qed.

(** ** The entry points on raw bytes *)

(** What a caller sends: the bytes of a Work request or of an Arena request. *)
Inductive message : Type :=
  | work_bytes (c : caller) (raw : string)
  | arena_bytes (raw : string).

Section bytes.
  Context {PY : Pydantic} {CK : Clock}.

(** The storage after a message, accepted or refused. *)
Definition receive (s : Store) (m : message) : Store :=
  match m with
  | work_bytes c raw =>
      match WorkRequest_from_json raw with Ok r => (execute_work c r s).2 | Err _ => s end
  | arena_bytes raw =>
      match ArenaRequest_from_json raw with Ok r => (execute_arena r s).2 | Err _ => s end
  end.

Lemma execute_work_run c raw r : WorkRequest_from_json raw = Ok r →
  ∃ q, work_request_of r = Ok q ∧ request_ok (work_request c q) = true ∧ ∀ s, execute_work c r s = named_execute c q s.
Proof.
  intros Hr. destruct (work_request_admitted c raw r Hr) as (q & Hq & Hok). exists q. split; [done|]. split; [done|].
  intros s. unfold execute_work. rewrite (work_request_fixed raw r Hr). unfold mbind, M_bind, lift. by rewrite Hq.
Qed.

Lemma execute_arena_run raw r : ArenaRequest_from_json raw = Ok r →
  ∃ q, arena_request_read r = Ok q ∧ request_ok (arena_request_of q) = true ∧ ∀ s, execute_arena r s = arena_execute q s.
Proof.
  intros Hr. destruct (arena_request_admitted raw r Hr) as (q & Hq & Hok). exists q. split; [done|]. split; [done|].
  intros s. unfold execute_arena. rewrite (arena_request_fixed raw r Hr). unfold mbind, M_bind, lift. by rewrite Hq.
Qed.

Lemma receive_reachable s m : reachable s → reachable (receive s m).
Proof.
  intros Hs. destruct m as [c raw|raw]; simpl.
  - destruct (WorkRequest_from_json raw) as [r|] eqn:Hr; [|done].
    destruct (execute_work_run c raw r Hr) as (q & _ & Hok & ->). exact (reach_handle s (work_request c q) Hs Hok).
  - destruct (ArenaRequest_from_json raw) as [r|] eqn:Hr; [|done].
    destruct (execute_arena_run raw r Hr) as (q & _ & Hok & ->). exact (reach_handle s (arena_request_of q) Hs Hok).
Qed.

Lemma received_reachable (ms : list message) : reachable (foldl receive empty_store ms).
Proof.
  assert (reachable empty_store) as H by constructor. revert H. generalize empty_store.
  induction ms as [|m ms IH]; intros s Hs; [done|]. simpl. by apply IH, receive_reachable.
Qed.

End bytes.

(** ** The inventory names what a request touches *)

(** A key named by the resources; the disposition of a session, a record of its
    own with the session's identifier, goes by the session's name. *)
Definition named_in (rs : list string) (k : key) : Prop :=
  resource_of k ∈ rs ∨ (k.1 = "SessionWorkState" ∧ resource "SessionRef" k.2 ∈ rs).

Lemma sorted_set_elem x l : x ∈ sorted_set l ↔ x ∈ l.
Proof.
  unfold sorted_set, sort_strings. rewrite merge_sort_Permutation. by rewrite elem_of_elements, elem_of_list_to_set.
Qed.

Lemma resource_elem rs k : resource_of k ∈ rs → named_in rs k.
Proof. by left. Qed.

Lemma named_in_sorted l rs k : k ∈ l → map resource_of l ⊆ rs → named_in (sorted_set rs) k.
Proof. intros Hk Hl. apply resource_elem, sorted_set_elem, Hl, list_elem_of_fmap. eauto. Qed.

Lemma new_links_resources es : map resource_of (new_links es) = evidence_resources es.
Proof. unfold new_links, evidence_resources. rewrite map_map. done. Qed.

Lemma attach_keys_resources v a : SessionAttach_of v = Ok a → map resource_of (attach_keys v) ⊆ elements (attach_resources a).
Proof.
  intros Ha. unfold attach_keys, attach_resources. rewrite Ha. intros x Hx. apply elem_of_elements, elem_of_list_to_set.
  apply list_elem_of_fmap in Hx as (k & -> & Hk). apply elem_of_app in Hk as [Hk|Hk].
  - apply list_elem_of_fmap in Hk as (i & -> & Hi). apply elem_of_app. right. apply list_elem_of_fmap. by exists i.
  - destruct (at_link a); [|by apply not_elem_of_nil in Hk]. apply list_elem_of_singleton in Hk as ->.
    apply elem_of_app. left. by left.
Qed.

(** The operation of a payload's class. *)
Lemma payload_class o v p : payload_of o v = Ok p →
  match p with
  | p_state _ => o = session_state_op
  | p_create _ => o = create_op
  | p_attach a d => ∃ v', SessionAttach_of v' = Ok a ∧ d = SessionAttach_dump v'
  | p_progress p => ∃ v', ProgressSet_of v' = Ok p ∧ v' = v
  | p_review r => ∃ v', WorkflowReview_of v' = Ok r ∧ v' = v
  | _ => True
  end.
Proof. destruct o; simpl; intros H; minv; subst; eauto. Qed.

Lemma footprint_named r e p pd rs q : request_facts r e p pd rs → work_request_of r = Ok q →
  ∀ k, k ∈ footprint q → named_in (resources r) k.
Proof.
  intros Hf Hq. rewrite (work_request_of_facts _ _ _ _ _ Hf) in Hq. destruct Hf as [Hc Hd Hp Hr _ _ _ ->].
  cbn [resources]. apply payload_class in Hp as Hcl. intros k Hk.
  assert (k = (env_kind e, env_id e) → named_in (sorted_set (resource (env_kind e) (env_id e) :: rs)) k) as Hself.
  { intros ->. apply resource_elem, sorted_set_elem. by left. }
  assert (∀ l, k ∈ l → map resource_of l ⊆ rs → named_in (sorted_set (resource (env_kind e) (env_id e) :: rs)) k) as Hin.
  { intros l Hl Hsub. eapply named_in_sorted; [done|]. set_solver. }
  destruct p; cbn [named_of] in Hq; unfold payload_resources in Hr; minv; subst; cbn [footprint active_keys] in Hk;
    try (apply elem_of_cons in Hk as [Hk|Hk]; [by apply Hself|]).
  all: try by (try case_decide; apply not_elem_of_nil in Hk).
  - apply list_elem_of_singleton in Hk as ->. right. split; [done|]. apply sorted_set_elem. cbn [snd].
    replace (env_kind e) with "SessionRef"; [by left|]. symmetry.
    unfold envelope_checks in Hc. rewrite Hcl in Hc. apply res_bind_Ok in Hc as ([] & Hc & _).
    apply raise_if_Ok, negb_false_iff, eqb_prop in Hc. by apply String.eqb_eq.
  - destruct Hcl as (v' & Hv & ->). apply (Hin _ Hk), attach_keys_resources. by rewrite SessionAttach_dump_of.
  - destruct Hcl as (v' & Hv & ->). cbn [payload_dump] in Hd. rewrite <-Hd in Hv. unfold progress_keys in Hk. rewrite Hv in Hk.
    apply (Hin _ Hk). cbn [map]. rewrite new_links_resources. done.
  - by apply (Hin _ Hk).
  - match goal with H : WORK_OBJECT_TYPES _ = Some _ |- _ => apply WORK_OBJECT_TYPES_Some in H as [H _] end.
    apply list_elem_of_singleton in Hk as ->. apply Hself. bools. congruence.
  - bools. apply elem_of_cons in Hk as [->|Hk]; [apply Hself; congruence|]. by apply (Hin _ Hk).
  - bools. apply elem_of_cons in Hk as [->|Hk]; [apply Hself; congruence|]. apply (Hin _ Hk). set_solver.
  - apply (Hin _ Hk). unfold reference_keys, arena_keys. 
    destruct (default None (pc_previous_arena c)); minv; subst; destruct (pc_previous_parent c), (pc_parent c); done.
  - by apply (Hin _ Hk).
  - destruct Hcl as (v' & Hv & ->). cbn [payload_dump] in Hd. rewrite <-Hd in Hv. cbn [workflow_keys] in Hk. rewrite Hv in Hk.
    apply (Hin _ Hk). cbn [map]. rewrite new_links_resources. done.
Qed.

Lemma arena_footprint_named r e p pd rs q : arena_facts r e p pd rs → arena_request_read r = Ok q →
  ∀ k, k ∈ arena_footprint q → named_in (ar_resources r) k.
Proof.
  intros Hf Hq. rewrite (arena_request_read_facts _ _ _ _ _ Hf) in Hq. injection Hq as <-.
  destruct Hf as [Hc _ Hp Hr _ _ _ _ ->]. cbn [ar_resources]. intros k Hk. apply arena_payload_kind in Hp; [|done].
  assert (k = (ae_kind e, ae_id e) → named_in (sorted_set (resource (ae_kind e) (ae_id e) :: rs)) k) as Hself.
  { intros ->. apply resource_elem, sorted_set_elem. by left. }
  destruct p; cbn [arena_named_of arena_footprint] in Hk; unfold arena_payload_resources in Hr; minv; subst; bools.
  1-3: apply list_elem_of_singleton in Hk as ->; apply Hself; congruence.
  apply elem_of_cons in Hk as [Hk|Hk]; [by apply Hself|]. eapply named_in_sorted; [exact Hk|].
  unfold arena_keys. destruct previous, target; set_solver.
Qed.

Section inventory.
  Context {PY : Pydantic} {PL : PydanticLaws} {CK : Clock}.

(** The resources a receiver authorizes before it executes a message. *)
Definition inventory (m : message) : list string :=
  match m with
  | work_bytes _ raw => match WorkRequest_from_json raw with Ok r => resources r | Err _ => [] end
  | arena_bytes raw => match ArenaRequest_from_json raw with Ok r => ar_resources r | Err _ => [] end
  end.

Lemma receive_within m s : store_wf s → ∃ R, within_step R s (receive s m) ∧ ∀ k, k ∈ R → named_in (inventory m) k.
Proof.
  intros Hs. destruct m as [c raw|raw]; simpl.
  - destruct (WorkRequest_from_json raw) as [r|] eqn:Hr; [|by exists []; split; [|intros k []%not_elem_of_nil]].
    destruct (execute_work_run c raw r Hr) as (q & Hq & _ & ->). exists (footprint q).
    split; [by apply named_execute_within|]. apply from_json_facts in Hr as (e & p & pd & rs & Hf).
    by eapply footprint_named.
  - destruct (ArenaRequest_from_json raw) as [r|] eqn:Hr; [|by exists []; split; [|intros k []%not_elem_of_nil]].
    destruct (execute_arena_run raw r Hr) as (q & Hq & _ & ->). exists (arena_footprint q).
    split; [by apply arena_execute_within|]. apply arena_from_json_facts in Hr as (e & p & pd & rs & Hf).
    by eapply arena_footprint_named.
Qed.

End inventory.

(** ** Properties *)

Section properties.
  Context {PY : Pydantic} {PL : PydanticLaws} {CK : Clock}.

(** C1: whatever bytes are received, in whatever order and from whatever callers,
    the storage they build from an empty one is well formed, and so is its graph
    of Work: dependencies and blockers have no cycle, each child has one parent of
    an admitted kind, and a direct member of an Arena is an Initiative or a Task in
    one Arena and without a parent. *)
Theorem received_bytes_keep_graph (ms : list message) :
  let s := foldl receive empty_store ms in store_wf s ∧ graph_wf s.
Proof. apply reachable_wf, received_reachable. Qed.

(** C2: the resource inventory of a message is complete: a record that receiving
    the message changes is named in it, and so is an end of every edge it adds or
    removes. *)
Theorem inventory_complete m s :
  store_wf s →
  (∀ k, nodes (receive s m) !! k ≠ nodes s !! k → named_in (inventory m) k)
  ∧ (∀ e, ¬ (e ∈ edges (receive s m) ↔ e ∈ edges s) → named_in (inventory m) (edge_from e) ∨ named_in (inventory m) (edge_to e)).
Proof.
  intros Hs. destruct (receive_within m s Hs) as (R & [HN HE] & HR). split.
  - intros k Hk. apply HR. destruct (decide (k ∈ R)) as [|Hn]; [done|]. by apply HN in Hn.
  - intros e He. destruct (decide (edge_from e ∈ R)) as [Hf|Hf]; [left; by apply HR|].
    destruct (decide (edge_to e ∈ R)) as [Ht|Ht]; [right; by apply HR|]. by destruct He; apply HE.
Qed.

(** C23: the canonical bytes of an accepted request are accepted again and give the
    same request: its operation, subject, precondition, resources and bytes. *)
Theorem canonical_bytes_fixed raw r raw' a :
  WorkRequest_from_json raw = Ok r → ArenaRequest_from_json raw' = Ok a →
  WorkRequest_from_json (canonical r) = Ok r ∧ ArenaRequest_from_json (ar_canonical a) = Ok a.
Proof. intros Hr Ha. split; [by eapply work_request_fixed|by eapply arena_request_fixed]. Qed.

(** The bytes that are signed identify the request: two accepted Work requests
    with the same signing bytes are the same request, and no Arena request has
    the signing bytes of a Work request. *)
Theorem signing_bytes_identify raw r raw' r' a :
  WorkRequest_from_json raw = Ok r → WorkRequest_from_json raw' = Ok r' →
  ∃ b b', signing_bytes r = Ok b ∧ signing_bytes r' = Ok b' ∧ (b = b' → r = r') ∧ b ≠ arena_signing_bytes a.
Proof.
  intros Hr Hr'. pose proof (from_json_facts _ _ Hr) as (e & p & pd & rs & Hf).
  pose proof (from_json_facts _ _ Hr') as (e' & p' & pd' & rs' & Hf').
  unfold signing_bytes. rewrite (version_of_facts _ _ _ _ _ Hf), (version_of_facts _ _ _ _ _ Hf'). cbn [mbind res_bind].
  eexists _, _. split; [done|]. split; [done|]. split.
  - intros Hb. enough (canonical r = canonical r') as Hc.
    { apply work_request_fixed in Hr, Hr'. congruence. }
    destruct (String.eqb (env_schema e) _), (String.eqb (env_schema e') _); simpl in Hb; congruence.
  - by destruct (String.eqb (env_schema e) _).
Qed.

End properties.

(** ** Witnesses *)

(** A request as a client writes it: fields in any order, defaults left out. *)
Definition ex_bytes (schema op k i : string) (ev payload : value) : string :=
  dumps true (VDict [("payload", payload); ("schema", VStr schema); ("operation", VStr op); ("kind", VStr k);
                     ("id", VStr i); ("expected_version", ev)]).

Definition ex_create_bytes (k i : string) : string :=
  ex_bytes WORK_REQUEST_SCHEMA_V2 "create" k i VNone (VDict [("id", VStr i); ("title", VStr "a title")]).

Definition ex_parent_bytes : string :=
  ex_bytes WORK_REQUEST_SCHEMA "parent.set" "Task" "t" (VInt 1)
    (VDict [("previous_parent", VNone); ("parent", VDict [("kind", VStr "Initiative"); ("id", VStr "i"); ("expected_version", VInt 1)])]).

Definition ex_arena_bytes : string :=
  ex_bytes ARENA_REQUEST_SCHEMA "create" "Arena" "a" VNone (VDict [("id", VStr "a"); ("title", VStr "an arena")]).

Definition ex_messages : list message :=
  [work_bytes ex_caller (ex_create_bytes "Task" "t"); work_bytes ex_caller (ex_create_bytes "Initiative" "i");
   arena_bytes ex_arena_bytes; work_bytes ex_caller ex_parent_bytes; work_bytes ex_caller "not a request"].

#[local] Existing Instance reference_pydantic.
#[local] Existing Instance reference_pydantic_laws.
#[local] Existing Instance epoch_clock.

Definition ex_received : Store := foldl receive empty_store ex_messages.

Lemma received_bytes_keep_graph_witness :
  map (λ e, (edge_from e, relationship e, edge_to e)) (edges ex_received) = [(("Initiative", "i"), "HAS_CHILD", ("Task", "t"))]
  ∧ size (nodes ex_received) = 3%nat ∧ store_wf ex_received ∧ graph_wf ex_received.
Proof.
  split; [vm_compute; reflexivity|]. split; [vm_compute; reflexivity|]. exact (received_bytes_keep_graph ex_messages).
Defined.

Lemma ex_received_wf : store_wf ex_received.
Proof. exact (proj1 (reachable_wf _ (received_reachable ex_messages))). Qed.

Definition ex_patch_bytes : message :=
  work_bytes ex_caller (ex_bytes WORK_REQUEST_SCHEMA "patch" "Task" "t" (VInt 2) (VDict [("priority", VInt 3)])).

Lemma inventory_complete_witness :
  inventory ex_patch_bytes = ["Task/t"]
  ∧ (bool_decide (nodes (receive ex_received ex_patch_bytes) !! ("Task", "t") = nodes ex_received !! ("Task", "t")) = false)
  ∧ named_in (inventory ex_patch_bytes) ("Task", "t").
Proof.
  assert (Hi : inventory ex_patch_bytes = ["Task/t"]) by (vm_compute; reflexivity).
  assert (Hn : bool_decide (nodes (receive ex_received ex_patch_bytes) !! ("Task", "t") = nodes ex_received !! ("Task", "t")) = false)
    by (vm_compute; reflexivity).
  refine (conj Hi (conj Hn _)).
  exact (proj1 (inventory_complete ex_patch_bytes ex_received ex_received_wf) ("Task", "t") (proj1 (bool_decide_eq_false _) Hn)).
Defined.

(** The request in [ex_parent_bytes], and the Arena request. *)
Definition ex_request : WorkRequest :=
  match WorkRequest_from_json ex_parent_bytes with
  | Ok r => r
  | Err _ => {| canonical := ""; operation := patch_op; rq_kind := ""; rq_id := ""; rq_expected_version := None; resources := [] |}
  end.

Definition ex_arena_request : ArenaRequest :=
  match ArenaRequest_from_json ex_arena_bytes with
  | Ok r => r
  | Err _ => {| ar_canonical := ""; ar_operation := arena_patch_op; ar_kind := ""; ar_id := ""; ar_expected_version := None; ar_resources := [] |}
  end.

Lemma canonical_bytes_fixed_witness :
  resources ex_request = ["Initiative/i"; "Task/t"]
  ∧ WorkRequest_from_json (canonical ex_request) = Ok ex_request
  ∧ ArenaRequest_from_json (ar_canonical ex_arena_request) = Ok ex_arena_request.
Proof.
  assert (Hr : resources ex_request = ["Initiative/i"; "Task/t"]) by (vm_compute; reflexivity).
  assert (H1 : WorkRequest_from_json ex_parent_bytes = Ok ex_request) by (vm_compute; reflexivity).
  assert (H2 : ArenaRequest_from_json ex_arena_bytes = Ok ex_arena_request) by (vm_compute; reflexivity).
  exact (conj Hr (canonical_bytes_fixed _ _ _ _ H1 H2)).
Defined.

Lemma signing_bytes_identify_witness :
  ∃ b b', signing_bytes ex_request = Ok b ∧ signing_bytes ex_request = Ok b'
  ∧ (b = b' → ex_request = ex_request) ∧ b ≠ arena_signing_bytes ex_arena_request.
Proof.
  assert (H1 : WorkRequest_from_json ex_parent_bytes = Ok ex_request) by (vm_compute; reflexivity).
  exact (signing_bytes_identify _ _ _ _ ex_arena_request H1 H1).
Defined.
