(* ===== verification/Relationships.v ===== *)
(** * Typed relationships and effective priority

    [src/devgraph/relationships.py] ([RelationshipGraph]) and
    [src/devgraph/services/priority.py] ([EffectivePriorityService]).  Reading a
    record here builds a fresh object from its stored fields: the archive flag and
    the progress record are not carried over, and the progress is recomputed from
    the workflow document. *)

From stdpp Require Import base gmap strings list sorting relations.
From Stdlib Require Import ZArith Ascii String.
From S2P Require Import Prelude Json Sha256 Datetime Validation WorkflowContract Model Storage StorageWf Search StorageReads Repository ResourcePaths Workflows Arenas Sessions Frames NamedWork WorkGraph.

Local Open Scope Z_scope.

(** ** Rules *)

Definition _PARENT_RULES (k : Kind) : list Kind :=
  match k with
  | KProject => [KInitiative]
  | KIssue => [KInitiative; KProject]
  | KTask => [KInitiative; KProject; KIssue]
  | _ => []
  end.

(** The classes that can be read; base Todos, Blockers and Milestones cannot. *)
Definition _WORK_TYPES (label : string) : option Kind :=
  if str_in label ["Initiative"; "Project"; "Issue"; "Task"; "Proposal"; "Requirement"; "AcceptanceCriterion";
                   "Handoff"; "ReviewPacket"; "Decision"]
  then WORK_OBJECT_TYPES label else None.

(** ** Reading records *)

(** [str(value)] of a scalar; the text of a list or dict is left out (it raises
    here), as no canonical record holds one in these fields. *)
Definition py_str (v : value) : res string :=
  match v with
  | VStr s => Ok s
  | VNone => Ok "None"
  | VBool b => Ok (if b then "True" else "False")
  | VInt z => Ok (print_int z)
  | VFloat l => Ok l
  | VList _ | VDict _ => Err (TypeError "text of a container")
  end.

(** [int(value)] of an integer or truth value; conversions from text and floats
    are left out in the same way. *)
Definition py_int (v : value) : res Z :=
  match v with
  | VInt z => Ok z
  | VBool b => Ok (Z.b2z b)
  | _ => Err (TypeError "int()")
  end.

(** [tuple(str(value) for value in values)]. *)
Definition py_strs (v : value) : res (list string) :=
  match v with VList l => res_mapM py_str l | _ => Err (TypeError "not iterable") end.

Section graph.
  Context `{Pydantic, Clock}.

Definition read_time (name : string) (p : props) : res datetime :=
  v ← of_option (KeyError name) (p !! name);
  t ← py_str v;
  of_option (ValueError "Invalid isoformat string") (fromisoformat t).

Definition _work_object_from_node (n : NodeRecord) : res WorkObject :=
  k ← of_option (KeyError (nr_label n)) (_WORK_TYPES (nr_label n));
  let p := nr_properties n in
  t ← py_str (default (VStr "") (p !! "title"));
  d ← py_str (default (VStr "") (p !! "description"));
  created ← read_time "created_at" p;
  updated ← read_time "updated_at" p;
  v ← py_int (default (VInt 1) (p !! "version"));
  artifacts ← py_strs (default (VList []) (p !! "artifact_ids"));
  links ← py_strs (default (VList []) (p !! "external_link_ids"));
  pr ← py_int (default (VInt 0) (p !! "priority"));
  wf ← match p !! "workflow_json" with
       | Some (VStr w) => Ok (Some w)
       | None | Some VNone => Ok None
       | Some _ => Err (ValueError "invalid_workflow_state")
       end;
  let base := new_work k (nr_id n) t created updated in
  obj ← post_init {| kind := k; id := nr_id n; title := t; description := d; status := status base;
                     created_at := created; updated_at := updated; version := v; artifact_ids := artifacts;
                     external_link_ids := links; priority := pr; workflow_json := wf; progress := progress base;
                     archived := false; progress_record_id := None; progress_migration_json := None |};
  match p !! "status" with
  | None | Some VNone => Ok obj
  | Some (VStr s) => st ← WorkStatus_of s; replace (set_status st) obj
  | Some _ => Err (ValueError "is not a valid WorkStatus")
  end.

(** [_task_from_node], [_todo_from_node] and the other typed readers. *)
Definition typed_from_node (accepts : Kind → bool) (n : NodeRecord) : res WorkObject :=
  w ← _work_object_from_node n;
  raise_if (negb (accepts (kind w))) (TypeError "unexpected node");;
  Ok w.

Definition is_kind (k k' : Kind) : bool := bool_decide (k' = k).

Definition _edges_from (w : WorkObject) (rel : string) (s : Store) : list EdgeRecord :=
  filter (λ e, edge_from e = work_key w) (rel_edges rel s).

Definition _edges_to (w : WorkObject) (rel : string) (s : Store) : list EdgeRecord :=
  filter (λ e, edge_to e = work_key w) (rel_edges rel s).

Definition rg_require_node (k : key) (s : Store) : res NodeRecord :=
  o ← get_node k.1 k.2 s; of_option (KeyError "missing node") o.

(** The objects at the far end of edges, read as one of the accepted kinds. *)
Definition read_targets (accepts : Kind → bool) (es : list EdgeRecord) (s : Store) : res (list WorkObject) :=
  res_mapM (λ e, n ← rg_require_node (edge_to e) s; typed_from_node accepts n) es.

Definition read_sources (accepts : Kind → bool) (es : list EdgeRecord) (s : Store) : res (list WorkObject) :=
  res_mapM (λ e, n ← rg_require_node (edge_from e) s; typed_from_node accepts n) es.

(** ** Pages *)

Definition directions (relationship : string) : option (string * bool) :=
  dict_get relationship
    [("children", ("HAS_CHILD", false)); ("parent", ("HAS_CHILD", true)); ("dependencies", ("DEPENDS_ON", false));
     ("dependents", ("DEPENDS_ON", true)); ("blockers", ("BLOCKS", true)); ("blocked", ("BLOCKS", false))].

Definition check_cursor (after : option string) : res unit :=
  match after with
  | None => Ok tt
  | Some r =>
      match split_all slash r with
      | [k; i] => raise_if (negb (str_in k CANONICAL_WORK_KINDS)) (ValueError "invalid relationship cursor");;
                  require_id i;; Ok tt
      | _ => Err (ValueError "invalid relationship cursor")
      end
  end.

Definition work_page (w : WorkObject) (relationship : string) (after : option string) (limit : Z) (s : Store) :
    res (list WorkObject) :=
  d ← of_option (ValueError "invalid Work relationship") (directions relationship);
  raise_if (str_in relationship ["blockers"; "blocked"] && negb (bool_decide (kind w = KTask)))
    (ValueError "invalid Work relationship");;
  validate_page_limit limit;;
  require_id (id w);;
  check_cursor after;;
  ns ← related_work_nodes (kind_name (kind w)) (id w) d.1 d.2 after limit s;
  res_mapM (typed_from_node is_todo) ns.

(** ** Writes *)

Definition add_work_object (w : WorkObject) : M Store WorkObject :=
  create_node (kind_name (kind w)) (id w) (to_node_properties w);; mret w.

(** An edge between two objects of accepted kinds. *)
Definition add_typed (rel : string) (source target : WorkObject) (p : props) : M Store EdgeRecord :=
  create_edge (kind_name (kind source)) (id source) rel (kind_name (kind target)) (id target) p.

Definition add_parent (child parent : WorkObject) : M Store EdgeRecord :=
  guard_raise (negb (bool_decide (kind parent ∈ _PARENT_RULES (kind child)))) (ValueError "invalid parentage");;
  add_typed "HAS_CHILD" parent child {["ordered" := VBool true]}.

Definition add_blocker (blocking blocked_task : WorkObject) : M Store EdgeRecord :=
  guard_raise (negb (is_kind KTask (kind blocking) && is_kind KTask (kind blocked_task)))
    (ValueError "BLOCKS relationships must connect Task to Task");;
  add_typed "BLOCKS" blocking blocked_task ∅.

Definition add_dependency (dependency_of dependent : WorkObject) : M Store EdgeRecord :=
  add_typed "DEPENDS_ON" dependent dependency_of ∅.

(** [add_requirement], [add_handoff], [add_review_packet]: from Todo-derived work
    to one kind. *)
Definition add_from_todo (rel : string) (k : Kind) (w target : WorkObject) : M Store EdgeRecord :=
  guard_raise (negb (is_todo (kind w))) (ValueError "relationships must start from Todo-derived work");;
  guard_raise (negb (is_kind k (kind target))) (ValueError "relationships must target the kind");;
  add_typed rel w target ∅.

Definition add_requirement : WorkObject → WorkObject → M Store EdgeRecord := add_from_todo "HAS_REQUIREMENT" KRequirement.

Definition add_handoff : WorkObject → WorkObject → M Store EdgeRecord := add_from_todo "HAS_HANDOFF" KHandoff.

Definition add_review_packet : WorkObject → WorkObject → M Store EdgeRecord :=
  add_from_todo "HAS_REVIEW_PACKET" KReviewPacket.

Definition add_acceptance_criterion (source target : WorkObject) : M Store EdgeRecord :=
  guard_raise (negb (is_todo (kind source) || is_kind KRequirement (kind source)))
    (ValueError "HAS_ACCEPTANCE_CRITERION relationships must start from Todo-derived work or Requirement");;
  guard_raise (negb (is_kind KAcceptanceCriterion (kind target)))
    (ValueError "HAS_ACCEPTANCE_CRITERION relationships must target AcceptanceCriterion");;
  add_typed "HAS_ACCEPTANCE_CRITERION" source target ∅.

(** ** Reads along one relationship *)

Definition rg_parent_of (child : WorkObject) (s : Store) : res (option WorkObject) :=
  match _edges_to child "HAS_CHILD" s with
  | [] => Ok None
  | e :: _ => n ← rg_require_node (edge_from e) s; w ← typed_from_node is_todo n; Ok (Some w)
  end.

(** The [while current is not None] loop; [None] when [fuel] iterations do not
    end it. *)
Fixpoint ancestor_walk (fuel : nat) (child : WorkObject) (s : Store) : option (res (list WorkObject)) :=
  match fuel with
  | O => None
  | S fuel' =>
      match rg_parent_of child s with
      | Err e => Some (Err e)
      | Ok None => Some (Ok [])
      | Ok (Some p) => r ← ancestor_walk fuel' p s; Some (l ← r; Ok (p :: l))
      end
  end.

Definition require_kind (k : Kind) (w : WorkObject) : res unit :=
  raise_if (negb (is_kind k (kind w))) (ValueError "wrong kind").

Definition rg_children_of (parent : WorkObject) (s : Store) : res (list WorkObject) := work_page parent "children" None 50 s.

Definition blockers_for (w : WorkObject) (s : Store) : res (list WorkObject) :=
  require_kind KTask w;; work_page w "blockers" None 50 s.

Definition blocked_by (w : WorkObject) (s : Store) : res (list WorkObject) :=
  require_kind KTask w;; read_targets (is_kind KTask) (_edges_from w "BLOCKS" s) s.

Definition dependencies_of (w : WorkObject) (s : Store) : res (list WorkObject) :=
  read_targets is_todo (_edges_from w "DEPENDS_ON" s) s.

Definition dependents_of (w : WorkObject) (s : Store) : res (list WorkObject) :=
  read_sources is_todo (_edges_to w "DEPENDS_ON" s) s.

Definition requirements_for (w : WorkObject) (s : Store) : res (list WorkObject) :=
  read_targets (is_kind KRequirement) (_edges_from w "HAS_REQUIREMENT" s) s.

Definition work_objects_for_requirement (r : WorkObject) (s : Store) : res (list WorkObject) :=
  require_kind KRequirement r;; read_sources is_todo (_edges_to r "HAS_REQUIREMENT" s) s.

Definition acceptance_criteria_for (w : WorkObject) (s : Store) : res (list WorkObject) :=
  read_targets (is_kind KAcceptanceCriterion) (_edges_from w "HAS_ACCEPTANCE_CRITERION" s) s.

Definition objects_for_acceptance_criterion (c : WorkObject) (s : Store) : res (list WorkObject) :=
  require_kind KAcceptanceCriterion c;;
  read_sources (λ k, is_todo k || is_kind KRequirement k) (_edges_to c "HAS_ACCEPTANCE_CRITERION" s) s.

Definition handoffs_for (w : WorkObject) (s : Store) : res (list WorkObject) :=
  read_targets (is_kind KHandoff) (_edges_from w "HAS_HANDOFF" s) s.

Definition work_objects_for_handoff (h : WorkObject) (s : Store) : res (list WorkObject) :=
  require_kind KHandoff h;; read_sources is_todo (_edges_to h "HAS_HANDOFF" s) s.

Definition review_packets_for (w : WorkObject) (s : Store) : res (list WorkObject) :=
  read_targets (is_kind KReviewPacket) (_edges_from w "HAS_REVIEW_PACKET" s) s.

Definition work_objects_for_review_packet (r : WorkObject) (s : Store) : res (list WorkObject) :=
  require_kind KReviewPacket r;; read_sources is_todo (_edges_to r "HAS_REVIEW_PACKET" s) s.

(** The Decision at the end of the first edge. *)
Definition first_decision (es : list EdgeRecord) (s : Store) : res (option WorkObject) :=
  match es with
  | [] => Ok None
  | e :: _ => n ← rg_require_node (edge_to e) s; w ← typed_from_node (is_kind KDecision) n; Ok (Some w)
  end.

Definition acceptance_decision_for (p : WorkObject) (s : Store) : res (option WorkObject) :=
  require_kind KProposal p;; first_decision (_edges_from p "ACCEPTED_BY_DECISION" s) s.

Definition conversion_decision_for (i : WorkObject) (s : Store) : res (option WorkObject) :=
  require_kind KIssue i;; first_decision (_edges_from i "CONVERSION_DECIDED_BY" s) s.

(** ** Effective priority *)

(** One blocked task of the loop, after the running maximum and the visited set. *)
Definition priority_step (visit : WorkObject → gset string → option (res (Z * gset string)))
    (acc : option (res (Z * gset string))) (b : WorkObject) : option (res (Z * gset string)) :=
  match acc with
  | Some (Ok (p, v)) =>
      match visit b v with
      | Some (Ok (q, v')) => Some (Ok (Z.max p q, v'))
      | r => r
      end
  | r => r
  end.

(** [_effective_priority]: the priority and the tasks visited so far; [None] when
    the recursion is deeper than [fuel]. *)
Fixpoint _effective_priority (fuel : nat) (task : WorkObject) (visited : gset string) (s : Store) :
    option (res (Z * gset string)) :=
  if decide (id task ∈ visited) then Some (Ok (priority task, visited)) else
  match fuel with
  | O => None
  | S fuel' =>
      match blocked_by task s with
      | Err e => Some (Err e)
      | Ok l => foldl (priority_step (λ b v, _effective_priority fuel' b v s))
                  (Some (Ok (priority task, {[id task]} ∪ visited))) l
      end
  end.

(** As deep as there are nodes, and one more for the task asked for. *)
Definition effective_priority (w : WorkObject) (s : Store) : res Z :=
  if is_kind KTask (kind w) then
    match _effective_priority (S (size (nodes s))) w ∅ s with
    | Some r => pv ← r; Ok pv.1
    | None => Err (KeyError "recursion")
    end
  else Ok (priority w).

End graph.

(** ** Lemmas *)

Section lemmas.
  Context {PY : Pydantic} {CK : Clock}.
  Implicit Types (s : Store).

Lemma work_type_name label k : _WORK_TYPES label = Some k → kind_name k = label.
Proof.
  unfold _WORK_TYPES. destruct (str_in label _) eqn:E; [|done]. apply str_in_spec in E.
  repeat (apply elem_of_cons in E as [->|E]; [by intros [= <-]|]). by apply not_elem_of_nil in E.
Qed.

Lemma post_init_key w w' : post_init w = Ok w' → kind w' = kind w ∧ id w' = id w ∧ priority w' = priority w.
Proof.
  intros Hp. by rewrite (post_init_fields _ _ Hp).
Qed.

Lemma work_object_key n w : _work_object_from_node n = Ok w → work_key w = nr_key n.
Proof.
  unfold _work_object_from_node. cbv zeta. intros Hn. minv.
  match goal with H : _WORK_TYPES _ = Some _ |- _ => apply work_type_name in H end.
  match goal with H : post_init _ = Ok ?o |- _ => apply post_init_key in H as (Hk & Hi & _); rename o into x end. simpl in *.
  assert (Hout : kind w = kind x ∧ id w = id x).
  { match goal with H : match _ with Some _ => _ | None => _ end = Ok w |- _ => rename H into Hst end.
    destruct (nr_properties n !! "status") as [[]|]; try discriminate Hst; try by injection Hst as ->.
    apply res_bind_Ok in Hst as (st & _ & (Hk2 & Hi2 & _)%post_init_key). simpl in *. by rewrite Hk2, Hi2. }
  destruct Hout as [Hk3 Hi3]. unfold work_key, nr_key. congruence.
Qed.

Lemma typed_key accepts n w : typed_from_node accepts n = Ok w → work_key w = nr_key n ∧ accepts (kind w) = true.
Proof.
  unfold typed_from_node. intros Ht. minv. subst.
  match goal with H : negb _ = false |- _ => apply negb_false_iff in H end. by split; [apply work_object_key|].
Qed.

Lemma rg_require_node_Ok k s n : store_wf s → rg_require_node k s = Ok n → nodes s !! k = Some n ∧ nr_key n = k.
Proof.
  unfold rg_require_node, get_node. destruct k as [l i]. simpl. intros Hs Hr. minv. subst. split; [done|].
  match goal with H : nodes s !! _ = Some _ |- _ => by apply (sw_nodes _ Hs) in H as [] end.
Qed.

(** The Task stored under an identifier. *)
Definition task_at s (i : string) : res WorkObject :=
  n ← rg_require_node ("Task", i) s; typed_from_node (is_kind KTask) n.

Definition blocks s (i j : string) : Prop :=
  ∃ e, e ∈ rel_edges "BLOCKS" s ∧ edge_from e = ("Task", i) ∧ edge_to e = ("Task", j).

Lemma task_key w : kind w = KTask → work_key w = ("Task", id w).
Proof. unfold work_key. by intros ->. Qed.

Lemma Forall2_in {A B} (P : A → B → Prop) l k : Forall2 P l k →
  (∀ y, y ∈ k → ∃ x, x ∈ l ∧ P x y) ∧ (∀ x, x ∈ l → ∃ y, y ∈ k ∧ P x y).
Proof.
  induction 1 as [|x y l k Hxy _ [IH1 IH2]]; [split; intros ? []%not_elem_of_nil|]. split.
  - intros y' [->|Hy]%elem_of_cons; [exists x; by split; [left|]|]. destruct (IH1 _ Hy) as (x' & ? & ?). exists x'. by split; [right|].
  - intros x' [->|Hx]%elem_of_cons; [exists y; by split; [left|]|]. destruct (IH2 _ Hx) as (y' & ? & ?). exists y'. by split; [right|].
Qed.

(** [blocked_by] reads exactly the blocked Tasks. *)
Lemma blocked_by_Ok t l s : store_wf s → blocked_by t s = Ok l →
  (∀ b, b ∈ l → task_at s (id b) = Ok b ∧ blocks s (id t) (id b))
  ∧ (∀ j, blocks s (id t) j → ∃ b, b ∈ l ∧ id b = j).
Proof.
  unfold blocked_by, read_targets, require_kind. intros Hs Hb. minv. bools. unfold is_kind in *. bools.
  match goal with H : res_mapM _ _ = Ok _ |- _ => apply res_mapM_Ok in H; rename H into Hl end.
  assert (Hone : ∀ e b, (n ← rg_require_node (edge_to e) s; typed_from_node (is_kind KTask) n) = Ok b →
    edge_to e = ("Task", id b) ∧ task_at s (id b) = Ok b).
  { intros e b Hr. pose proof Hr as Hr'. apply res_bind_Ok in Hr as (n & Hn & Ht).
    apply rg_require_node_Ok in Hn as [_ Hk]; [|done]. apply typed_key in Ht as [Hkey Hkind].
    unfold is_kind in Hkind. bools. rewrite (task_key b) in Hkey by done. rewrite Hk in Hkey. split; [done|].
    unfold task_at. by rewrite Hkey. }
  assert (Hkey : work_key t = ("Task", id t)) by by apply task_key. split.
  - intros b Hin. destruct (proj1 (Forall2_in _ _ _ Hl) b Hin) as (e & He & Hr). apply Hone in Hr as [Hto Ht].
    split; [done|]. apply list_elem_of_filter in He as [Hfrom He]. exists e. rewrite Hfrom. done.
  - intros j (e & He & Hfrom & Hto). destruct (proj2 (Forall2_in _ _ _ Hl) e) as (b & Hin & Hr).
    { apply list_elem_of_filter. by rewrite Hfrom. }
    exists b. split; [done|]. apply Hone in Hr as [Hto' _]. rewrite Hto in Hto'. by injection Hto'.
Qed.

(** What a visit of a Task establishes: the tasks it newly visits are reachable,
    have their blocked tasks visited and no higher priority, and the priority
    returned is one of theirs. *)
Record visited_ok s (roots : string → Prop) (p : Z) (v v' : gset string) : Prop := {
  vo_mono : v ⊆ v';
  vo_new i : i ∈ v' → i ∉ v → (∃ r, roots r ∧ rtc (blocks s) r i) ∧ (∀ j, blocks s i j → j ∈ v')
                                ∧ (∃ u, task_at s i = Ok u ∧ priority u <= p)
}.

Definition attained s (roots : string → Prop) (p : Z) : Prop :=
  ∃ r i u, roots r ∧ rtc (blocks s) r i ∧ task_at s i = Ok u ∧ priority u = p.

Lemma fold_stuck visit l r : (∀ p, r ≠ Some (Ok p)) → foldl (priority_step visit) r l = r.
Proof. intros Hr. induction l as [|b l IH]; [done|]. simpl. destruct r as [[[p v]|]|]; [by destruct (Hr (p, v))|done|done]. Qed.

(** The loop over the blocked tasks, given what each visit establishes. *)
Lemma priority_loop s visit l p0 v0 p1 v1 :
  (∀ b v p v', b ∈ l → visit b v = Some (Ok (p, v')) →
     visited_ok s (λ r, r = id b) p v v' ∧ id b ∈ v' ∧ attained s (λ r, r = id b) p) →
  foldl (priority_step visit) (Some (Ok (p0, v0))) l = Some (Ok (p1, v1)) →
  visited_ok s (λ r, ∃ b, b ∈ l ∧ r = id b) p1 v0 v1 ∧ (∀ b, b ∈ l → id b ∈ v1) ∧ p0 <= p1
  ∧ (p1 = p0 ∨ attained s (λ r, ∃ b, b ∈ l ∧ r = id b) p1).
Proof.
  revert p0 v0. induction l as [|b l IH]; intros p0 v0 Hvisit Hf.
  { injection Hf as <- <-. split; [split; [done|by intros]|]. split; [by intros ? []%not_elem_of_nil|]. split; [done|by left]. }
  cbn [foldl priority_step] in Hf. destruct (visit b v0) as [[[q v]|e]|] eqn:Hv; [|by rewrite fold_stuck in Hf..].
  destruct (Hvisit b v0 q v) as ([Hm1 Hn1] & Hin & Hatt); [by left|done|].
  destruct (IH (Z.max p0 q) v) as ([Hm2 Hn2] & Hall & Hle & Hmax); [intros; apply Hvisit; [by right|done]|done|].
  split_and!.
  - split; [by trans v|]. intros i Hi Hi0. destruct (decide (i ∈ v)) as [Hiv|Hiv].
    + destruct (Hn1 i Hiv Hi0) as ((r & -> & Hr) & Hsucc & (u & Hu & Hp)). split_and!.
      * exists (id b). split; [exists b; by split; [left|]|done].
      * intros j Hj. by apply Hm2, Hsucc.
      * exists u. split; [done|]. lia.
    + destruct (Hn2 i Hi Hiv) as ((r & (b' & Hb' & ->) & Hr) & Hsucc & Hu). split_and!; [|done|done].
      exists (id b'). split; [exists b'; by split; [right|]|done].
  - intros b' [->|Hb']%elem_of_cons; [by apply Hm2|by apply Hall].
  - lia.
  - assert (Hsub : ∀ P Q z, (∀ r, P r → Q r) → attained s P z → attained s Q z).
    { intros P Q z HPQ (r & i & u & ? & ?). exists r, i, u. auto. }
    destruct Hmax as [->|Hmax]; [|right; eapply Hsub; [|exact Hmax]; intros r (b' & ? & ->); exists b'; by split; [right|]].
    destruct (Z.max_spec p0 q) as [[_ ->]|[_ ->]]; [right|by left].
    eapply Hsub; [|exact Hatt]. intros r ->. exists b. by split; [left|].
Qed.

Lemma effective_priority_visit s fuel task v p v' : store_wf s → task_at s (id task) = Ok task →
  _effective_priority fuel task v s = Some (Ok (p, v')) →
  visited_ok s (λ r, r = id task) p v v' ∧ id task ∈ v' ∧ attained s (λ r, r = id task) p.
Proof.
  intros Hs. revert task v p v'. induction fuel as [|fuel IH]; intros task v p v' Ht Hrun; cbn [_effective_priority] in Hrun;
    (case_decide as Hin; [injection Hrun as <- <-; split; [split; [done|by intros]|]; split; [done|];
                          exists (id task), (id task), task; done|]).
  - done.
  - destruct (blocked_by task s) as [l|] eqn:Hb; [|done]. apply blocked_by_Ok in Hb as [Hl Hsucc]; [|done].
    apply (priority_loop s) in Hrun as ([Hm Hn] & Hall & Hle & Hmax).
    2: { intros b w q w' Hbl Hq. apply IH in Hq; [done|]. by apply Hl. }
    assert (Hlift : ∀ r i, (∃ b, b ∈ l ∧ r = id b) → rtc (blocks s) r i → rtc (blocks s) (id task) i).
    { intros r i (b & Hbl & ->) Hr. eapply rtc_l; [|done]. by apply Hl. }
    split_and!.
    + split; [set_solver|]. intros i Hi Hi0. destruct (decide (i = id task)) as [->|Hne].
      * split_and!; [by exists (id task)| |by exists task]. intros j (b & Hbl & <-)%Hsucc. by apply Hall.
      * destruct (Hn i Hi) as ((r & Hr & Hp) & ? & ?); [set_solver|]. split_and!; [|done|done]. exists (id task). eauto.
    + set_solver.
    + destruct Hmax as [->|(r & i & u & Hr & Hp & Hu)]; [by exists (id task), (id task), task|].
      exists (id task), i, u. eauto.
Qed.

(** ** Termination: the nodes whose identifier is not visited yet *)

Definition unvisited (v : gset string) s : nat := size (filter (λ kn : key * NodeRecord, kn.1.2 ∉ v) (nodes s)).

Lemma unvisited_bound v s : (unvisited v s <= size (nodes s))%nat.
Proof. apply map_subseteq_size, map_filter_subseteq. Qed.

Lemma unvisited_less v v' i n s : nodes s !! ("Task", i) = Some n → i ∉ v → i ∈ v' → v ⊆ v' → (unvisited v' s < unvisited v s)%nat.
Proof.
  intros Hn Hi Hi' Hv. apply map_subset_size. split.
  - apply map_subseteq_spec. intros k x. rewrite !map_lookup_filter_Some. set_solver.
  - intros Hsub. rewrite map_subseteq_spec in Hsub. specialize (Hsub ("Task", i) n).
    rewrite !map_lookup_filter_Some in Hsub. destruct Hsub as [_ Hno]; [done|]. by apply Hno.
Qed.

Lemma priority_loop_total s visit l p0 v0 :
  (∀ b v, b ∈ l → v0 ⊆ v → visit b v ≠ None) →
  (∀ b v p v', b ∈ l → visit b v = Some (Ok (p, v')) → v ⊆ v') →
  foldl (priority_step visit) (Some (Ok (p0, v0))) l ≠ None.
Proof.
  intros Htot Hmono. assert (Hgen : ∀ p v, v0 ⊆ v → foldl (priority_step visit) (Some (Ok (p, v))) l ≠ None); [|by apply Hgen].
  revert Htot Hmono. induction l as [|b l IH]; intros Htot Hmono p v Hv; [done|]. cbn [foldl priority_step].
  destruct (visit b v) as [[[q v']|e]|] eqn:Hb.
  - apply IH; [intros; apply Htot; [by right|done]|intros; eapply Hmono; [by right|done]|].
    trans v; [done|]. eapply Hmono; [by left|done].
  - by rewrite fold_stuck.
  - exfalso. eapply Htot; [by left|done|done].
Qed.

Lemma effective_priority_total s fuel task v : store_wf s → task_at s (id task) = Ok task → (unvisited v s <= fuel)%nat →
  _effective_priority fuel task v s ≠ None.
Proof.
  intros Hs. revert task v. induction fuel as [|fuel IH]; intros task v Ht Hf; cbn [_effective_priority]; (case_decide as Hin; [done|]).
  all: assert (∃ n, nodes s !! ("Task", id task) = Some n) as [n Hn]
    by (unfold task_at in Ht; apply res_bind_Ok in Ht as (n & Hn & _); apply rg_require_node_Ok in Hn as [? _]; [by exists n|done]).
  all: pose proof (unvisited_less v ({[id task]} ∪ v) (id task) n s Hn Hin) as Hless.
  - specialize (Hless ltac:(set_solver) ltac:(set_solver)). lia.
  - destruct (blocked_by task s) as [l|] eqn:Hb; [|done]. apply blocked_by_Ok in Hb as [Hl _]; [|done].
    apply priority_loop_total; [exact s|..].
    + intros b w Hbl Hw. apply IH; [by apply Hl|].
      pose proof (unvisited_less v w (id task) n s Hn Hin). specialize (H ltac:(set_solver) ltac:(set_solver)). lia.
    + intros b w q w' Hbl Hq. apply effective_priority_visit in Hq as ([? _] & _); [done|done|]. by apply Hl.
Qed.

End lemmas.

(** ** Properties *)

Section properties.
  Context {PY : Pydantic} {PL : PydanticLaws} {CK : Clock}.

(** C38: the effective priority of a Task is the highest priority among the Tasks
    it blocks, directly or through others, and its own: the recursion ends on
    every graph, cyclic ones included, and although it shares one visited set
    between branches and gives a revisited Task its base priority, the result is
    attained by a reachable Task and bounds them all. *)
Theorem effective_priority_exact t s :
  store_wf s → task_at s (id t) = Ok t →
  _effective_priority (S (size (nodes s))) t ∅ s ≠ None
  ∧ ∀ p, effective_priority t s = Ok p →
      (∃ i u, rtc (blocks s) (id t) i ∧ task_at s i = Ok u ∧ priority u = p)
      ∧ ∀ i u, rtc (blocks s) (id t) i → task_at s i = Ok u → priority u <= p.
Proof.
  intros Hs Ht. assert (Htot : _effective_priority (S (size (nodes s))) t ∅ s ≠ None).
  { apply effective_priority_total; [done|done|]. pose proof (unvisited_bound ∅ s). lia. }
  split; [done|]. intros p Hp. unfold effective_priority in Hp.
  assert (kind t = KTask) as Hk.
  { unfold task_at in Ht. apply res_bind_Ok in Ht as (n & _ & [_ Hk]%typed_key). unfold is_kind in Hk. by bools. }
  unfold is_kind in Hp. rewrite bool_decide_true in Hp by done.
  destruct (_effective_priority _ t ∅ s) as [[[q v]|e]|] eqn:Hrun; [|done|done]. injection Hp as ->.
  apply effective_priority_visit in Hrun as ([_ Hn] & Hin & (r & i & u & -> & ?)); [|done|done].
  split; [by exists i, u|]. intros j w Hr Hw.
  assert (j ∈ v) as Hj.
  { assert (Hclosed : ∀ x y, rtc (blocks s) x y → x ∈ v → y ∈ v); [|by eapply Hclosed].
    intros x y Hx. induction Hx as [x|x y z Hxy _ IH]; [done|]. intros Hxv. apply IH.
    destruct (Hn x Hxv) as (_ & Hsucc & _); [set_solver|]. by apply Hsucc. }
  destruct (Hn j Hj) as (_ & _ & (u' & Hu' & Hle)); [set_solver|]. rewrite Hw in Hu'. by injection Hu' as <-.
Qed.

Lemma parent_rank child p s : store_wf s → graph_wf s → rg_parent_of child s = Ok (Some p) →
  (kind_rank (kind_name (kind p)) < kind_rank (kind_name (kind child)))%nat
  ∧ ∃ e, e ∈ rel_edges "HAS_CHILD" s ∧ edge_from e = work_key p ∧ edge_to e = work_key child.
Proof.
  unfold rg_parent_of. intros Hs Hg Hp. destruct (_edges_to child "HAS_CHILD" s) as [|e es] eqn:He; [done|].
  assert (e ∈ _edges_to child "HAS_CHILD" s) as Hin by (rewrite He; left).
  apply list_elem_of_filter in Hin as [Hto Hin]. apply res_bind_Ok in Hp as (n & Hn & Hp).
  apply res_bind_Ok in Hp as (w & [Hw _]%typed_key & [= ->]). apply rg_require_node_Ok in Hn as [_ Hn]; [|done].
  rewrite Hn in Hw. split; [|by exists e]. pose proof (gw_parent_kind _ Hg e Hin) as Hk.
  apply str_in_spec, parent_kinds_spec in Hk as [Hk _]. unfold work_key, edge_from, edge_to in *. congruence.
Qed.

(** Consecutive ancestors, from the child up. *)
Fixpoint ancestry (child : WorkObject) (l : list WorkObject) s : Prop :=
  match l with
  | [] => _edges_to child "HAS_CHILD" s = []
  | p :: l' => (∃ e, e ∈ rel_edges "HAS_CHILD" s ∧ edge_from e = work_key p ∧ edge_to e = work_key child) ∧ ancestry p l' s
  end.

Lemma ancestor_walk_ends n child s : store_wf s → graph_wf s → (kind_rank (kind_name (kind child)) < n)%nat →
  ∃ r, ancestor_walk n child s = Some r
    ∧ ∀ l, r = Ok l → (length l <= kind_rank (kind_name (kind child)))%nat ∧ ancestry child l s.
Proof.
  intros Hs Hg. revert child. induction n as [|n IH]; intros child Hr; [lia|]. cbn [ancestor_walk].
  destruct (rg_parent_of child s) as [[p|]|e] eqn:Hp; [| |by eexists].
  - pose proof (parent_rank _ _ _ Hs Hg Hp) as [Hlt He]. destruct (IH p) as (r & -> & Hok); [lia|]. eexists. split; [done|].
    intros l Hl. apply res_bind_Ok in Hl as (l' & -> & [= <-]). destruct (Hok l' eq_refl). split; [simpl; lia|done].
  - eexists. split; [done|]. intros l [= <-]. split; [simpl; lia|]. unfold rg_parent_of in Hp.
    simpl. destruct (_edges_to child "HAS_CHILD" s); [done|]. exfalso.
    apply res_bind_Ok in Hp as (? & _ & Hp). by apply res_bind_Ok in Hp as (? & _ & [=]).
Qed.

(** The ancestors of a work object end: on every storage that admitted
    requests build, the loop up the parents stops within four iterations with at
    most three ancestors, each the stored parent of the one before, up to a root. *)
Theorem ancestors_end child s :
  reachable s →
  ∃ r, ancestor_walk 4 child s = Some r ∧ ∀ l, r = Ok l → (length l <= 3)%nat ∧ ancestry child l s.
Proof.
  intros [Hs Hg]%reachable_wf. pose proof (kind_rank_bound (kind_name (kind child))) as Hb.
  destruct (ancestor_walk_ends 4 child s Hs Hg Hb) as (r & Hr & Hok). exists r. split; [done|].
  intros l Hl. destruct (Hok l Hl). split; [lia|done].
Qed.

End properties.

(** ** Witnesses *)

Section witnesses.

#[local] Existing Instance reference_pydantic.
#[local] Existing Instance reference_pydantic_laws.
#[local] Existing Instance epoch_clock.

(** Two Tasks of priorities 3 and 8 that block each other. *)
Definition ex_blocking (i : string) (p : Z) : M Store named_result :=
  named_execute ex_caller (req_create KTask
    {| cf_id := i; cf_title := "t"; cf_description := ""; cf_priority := p; cf_artifact_ids := []; cf_external_link_ids := [] |}).

Definition ex_priority_program : M Store unit :=
  ex_blocking "t" 3;; ex_blocking "u" 8;;
  create_edge "Task" "t" "BLOCKS" "Task" "u" ∅;; create_edge "Task" "u" "BLOCKS" "Task" "t" ∅;; mret tt.

Definition ex_priority_store : Store := (ex_priority_program empty_store).2.

Lemma ex_priority_store_wf : store_wf ex_priority_store.
Proof.
  assert (Hk : keeps ex_priority_program).
  { apply keeps_bind; [apply named_execute_keeps|intros _]. apply keeps_bind; [apply named_execute_keeps|intros _].
    apply keeps_bind; [apply create_edge_keeps|intros _]. apply keeps_bind; [apply create_edge_keeps|intros _].
    by apply keeps_same. }
  apply Hk, empty_store_wf.
Defined.

Lemma effective_priority_exact_witness : ∃ t,
  task_at ex_priority_store "t" = Ok t ∧ effective_priority t ex_priority_store = Ok 8
  ∧ ∀ i u, rtc (blocks ex_priority_store) (id t) i → task_at ex_priority_store i = Ok u → priority u <= 8.
Proof.
  assert (Hok : match task_at ex_priority_store "t" with
                | Ok t => bool_decide (id t = "t") && bool_decide (effective_priority t ex_priority_store = Ok 8)
                | Err _ => false end = true) by (vm_compute; reflexivity).
  destruct (task_at ex_priority_store "t") as [t|] eqn:E; [|discriminate Hok].
  apply andb_prop in Hok as [Hid%bool_decide_eq_true Hp%bool_decide_eq_true].
  exists t. split; [reflexivity|]. split; [exact Hp|].
  rewrite <- Hid in E at 1.
  exact (proj2 (proj2 (effective_priority_exact t ex_priority_store ex_priority_store_wf E) 8 Hp)).
Defined.

Lemma ancestors_end_witness : ∃ t r, get_by_id "Task" "t" ex_graph = Ok t ∧ ancestor_walk 4 t ex_graph = Some r.
Proof.
  assert (Hok : is_ok (get_by_id "Task" "t" ex_graph) = true) by (vm_compute; reflexivity).
  destruct (get_by_id "Task" "t" ex_graph) as [t|] eqn:E; [|discriminate Hok].
  destruct (ancestors_end t ex_graph ex_graph_reachable) as (r & Hr & _).
  exists t, r. exact (conj eq_refl Hr).
Defined.

End witnesses.
