(* ===== verification/Outbox.v ===== *)
(** * Event receipts and the outbox

    [src/devgraph/events/model.py], [events/outbox.py] and [events/dispatcher.py]:
    every admitted mutation runs in one storage transaction with the receipt that
    claims its retry identity, and a later call with the same identity returns
    the first receipt without mutating again.  The mutation is a program argument
    ([mutation(self._storage)]), the identifier that [receipt_id_factory] returns
    (a random one by default) an argument of the call. *)

From stdpp Require Import base gmap strings list sorting.
From Stdlib Require Import ZArith Ascii String.
From S2P Require Import Prelude Json Sha256 Datetime Validation WorkflowContract StrictJson Model Storage StorageWf StorageReads Repository ResourcePaths Workflows Lifecycle ProgressMutations Arenas Sessions Frames NamedWork WorkGraph Footprint Requests Relationships Redaction.

Local Open Scope Z_scope.

(** ** Receipts *)

Inductive OutboxStatus : Type := PENDING | DISPATCHED_DRY_RUN | RETRY_SCHEDULED | FAILED.

#[export] Instance OutboxStatus_eq_dec : EqDecision OutboxStatus.
Proof. solve_decision. Defined.

Definition outbox_value (s : OutboxStatus) : string :=
  match s with
  | PENDING => "pending" | DISPATCHED_DRY_RUN => "dispatched_dry_run" | RETRY_SCHEDULED => "retry_scheduled"
  | FAILED => "failed"
  end.

Definition OutboxStatus_of (s : string) : res OutboxStatus :=
  of_option (ValueError "not a valid OutboxStatus")
    (find (λ x, String.eqb (outbox_value x) s) [PENDING; DISPATCHED_DRY_RUN; RETRY_SCHEDULED; FAILED]).

Record EventReceipt := {
  er_id : string;
  er_operation : string;
  er_subject_label : string;
  er_subject_id : string;
  er_actor_id : string;
  er_session_id : string;
  er_correlation_id : string;
  er_key_digest : option string;
  er_claim_digest : option string;
  er_request_digest : option string;
  er_key_digest_sha256 : option string;
  er_status : OutboxStatus;
  er_attempt_count : Z;
  er_next_attempt_at : option datetime;
  er_created_at : option datetime;
  er_updated_at : option datetime;
  er_summary : list (string * value);
  er_last_error : string
}.

Definition _EXACT_ISSUE_CREATE_OPERATION : string := "devgraph.issue.create.v1".

Definition exact_digest (o : option string) : bool := match o with Some d => is_hex64 d | None => false end.

(** [EventReceipt.__post_init__]. *)
Definition new_receipt (r : EventReceipt) : res EventReceipt :=
  raise_if (Bool.eqb (bool_decide (er_claim_digest r = None)) (bool_decide (er_key_digest r = None)))
    (ValueError "receipt requires exactly one idempotency digest");;
  raise_if (String.eqb (er_operation r) _EXACT_ISSUE_CREATE_OPERATION
            && negb (exact_digest (er_request_digest r) && exact_digest (er_key_digest_sha256 r)))
    (ValueError "exact Issue-create receipt requires exact digests");;
  Ok r.

Definition time_value (o : option datetime) : value := match o with Some d => VStr (isoformat d) | None => VNone end.

(** [self.created_at.isoformat()]. *)
Definition required_time (o : option datetime) : res value :=
  match o with Some d => Ok (VStr (isoformat d)) | None => Err (AttributeError "isoformat") end.

Definition receipt_properties (r : EventReceipt) : res props :=
  created ← required_time (er_created_at r);
  updated ← required_time (er_updated_at r);
  let p : props := list_to_map
    [("operation", VStr (er_operation r)); ("subject_label", VStr (er_subject_label r));
     ("subject_id", VStr (er_subject_id r)); ("actor_id", VStr (er_actor_id r));
     ("session_id", VStr (er_session_id r)); ("correlation_id", VStr (er_correlation_id r));
     ("status", VStr (outbox_value (er_status r))); ("attempt_count", VInt (er_attempt_count r));
     ("next_attempt_at", time_value (er_next_attempt_at r)); ("created_at", created); ("updated_at", updated);
     ("redacted_summary", VDict (er_summary r)); ("last_error_summary", VStr (er_last_error r))] in
  Ok (opt_prop "idempotency_key_digest_sha256" (er_key_digest_sha256 r)
       (opt_prop "request_digest_sha256" (er_request_digest r)
         (opt_prop "idempotency_key_digest" (er_key_digest r)
           (opt_prop "idempotency_claim_digest" (er_claim_digest r) p)))).

(** [str(properties[name])]. *)
Definition text_field (name : string) (p : props) : res string :=
  v ← of_option (KeyError name) (p !! name); py_str v.

(** [None if properties.get(name) is None else str(properties[name])]. *)
Definition optional_text (name : string) (p : props) : res (option string) :=
  match p !! name with
  | None | Some VNone => Ok None
  | Some v => t ← py_str v; Ok (Some t)
  end.

Definition _datetime_from_storage (v : value) : res (option datetime) :=
  match v with
  | VNone => Ok None
  | _ => t ← py_str v; d ← of_option (ValueError "Invalid isoformat string") (fromisoformat t); Ok (Some d)
  end.

(** [dict(value)]; a sequence of pairs is left out. *)
Definition py_dict (v : value) : res (list (string * value)) :=
  match v with VDict d => Ok d | VList [] => Ok [] | _ => Err (TypeError "dict()") end.

Definition EventReceipt_of (receipt_id : string) (p : props) : res EventReceipt :=
  op ← text_field "operation" p;
  sl ← text_field "subject_label" p;
  si ← text_field "subject_id" p;
  actor ← text_field "actor_id" p;
  session ← text_field "session_id" p;
  correlation ← text_field "correlation_id" p;
  claim ← optional_text "idempotency_claim_digest" p;
  key ← optional_text "idempotency_key_digest" p;
  request ← optional_text "request_digest_sha256" p;
  key256 ← optional_text "idempotency_key_digest_sha256" p;
  st ← (t ← text_field "status" p; OutboxStatus_of t);
  n ← (v ← of_option (KeyError "attempt_count") (p !! "attempt_count"); py_int v);
  next ← _datetime_from_storage (default VNone (p !! "next_attempt_at"));
  created ← (v ← of_option (KeyError "created_at") (p !! "created_at"); _datetime_from_storage v);
  updated ← (v ← of_option (KeyError "updated_at") (p !! "updated_at"); _datetime_from_storage v);
  summary ← py_dict (default (VDict []) (p !! "redacted_summary"));
  err ← py_str (default (VStr "") (p !! "last_error_summary"));
  new_receipt {| er_id := receipt_id; er_operation := op; er_subject_label := sl; er_subject_id := si;
    er_actor_id := actor; er_session_id := session; er_correlation_id := correlation; er_key_digest := key;
    er_claim_digest := claim; er_request_digest := request; er_key_digest_sha256 := key256; er_status := st;
    er_attempt_count := n; er_next_attempt_at := next; er_created_at := created; er_updated_at := updated;
    er_summary := summary; er_last_error := err |}.

(** ** Retry identities *)

Record Principal := {
  pn_issuer : string;
  pn_audience : string;
  pn_actor_id : string;
  pn_session_id : string;
  pn_correlation_id : string
}.

(** [[A-Za-z0-9][A-Za-z0-9._:@/-]{0,255}]. *)
Definition _AUTHORITY_IDENTIFIER (s : string) : bool :=
  match s with
  | EmptyString => false
  | String c s' => is_alnum c && str_forall (λ c, is_alnum c || has_char c "._:@/-") s' && (str_len s <=? 256)
  end.

(** [[A-Za-z0-9._~-]{16,128}]. *)
Definition _EXACT_IDEMPOTENCY_KEY (s : string) : bool :=
  str_forall (λ c, is_alnum c || has_char c "._~-") s && (16 <=? str_len s) && (str_len s <=? 128).

(** Unicode category Cc. *)
Definition is_control (c : ascii) : bool := (code c <=? 31)%N || in_range 127 159 c.

Definition _is_safe_audience (s : string) : bool :=
  negb (is_blank s) && (0 <? str_len (utf8_encode s)) && (str_len (utf8_encode s) <=? 256)
  && negb (str_exists is_control s).

Definition byte_of (z : Z) : ascii := ascii_of_N (Z.to_N z).

(** [n.to_bytes(4, "big")]. *)
Definition to_bytes4 (n : Z) : res string :=
  raise_if (2 ^ 32 <=? n) (OverflowError "int too big to convert");;
  Ok (String (byte_of (n / 2 ^ 24)) (String (byte_of (n / 2 ^ 16 mod 256)) (String (byte_of (n / 2 ^ 8 mod 256))
       (String (byte_of (n mod 256)) "")))).

Definition encode_field (v : string) : res string :=
  l ← to_bytes4 (str_len (utf8_encode v)); Ok (l +:+ utf8_encode v).

Definition IDEMPOTENCY_CLAIM_DOMAIN : string := "devgraph.idempotency.claim.v1" +:+ String nul "".

Definition canonical_idempotency_claim_bytes (p : Principal) (idempotency_key : string) : res string :=
  raise_if (negb (_AUTHORITY_IDENTIFIER (pn_issuer p)) || negb (_AUTHORITY_IDENTIFIER (pn_actor_id p))
            || negb (_is_safe_audience (pn_audience p))) (ValueError "invalid idempotency claim authority");;
  fs ← res_mapM encode_field [pn_issuer p; pn_audience p; pn_actor_id p; idempotency_key];
  Ok (IDEMPOTENCY_CLAIM_DOMAIN +:+ join "" fs).

Definition digest_idempotency_claim (p : Principal) (idempotency_key : string) : res string :=
  b ← canonical_idempotency_claim_bytes p idempotency_key; Ok (sha256_hex b).

Definition scope_conflict : exn :=
  IdempotencyScopeConflict "idempotency key digest already exists for a different operation or subject".

Definition _require_matching_scope (r : EventReceipt) (op sl si : string) (request_digest : option string) : res unit :=
  raise_if (negb (bool_decide ((er_operation r, er_subject_label r, er_subject_id r) = (op, sl, si)))
            || (bool_decide (is_Some request_digest) && negb (bool_decide (er_request_digest r = request_digest))))
    scope_conflict.

(** ** Recording a mutation *)

(** What the outbox runs in: a storage, and beside it the state that its callers'
    callbacks write. *)
Class Stored (T L : Type) := {
  at_store {A} : M Store A → M T A;
  beside_store {A} : M L A → M T A;
  in_transaction {A} : M T A → M T A
}.

(** A storage alone: of a callback only what it raises is seen. *)
#[export] Instance store_alone {L} `{Inhabited L} : Stored Store L :=
  {| at_store A m := m; beside_store A m := λ s, ((m inhabitant).1, s); in_transaction A m := transaction m |}.

(** The arguments of one recorded mutation: the mutation is given the storage,
    [on_result] is not. *)
Section outbox.
  Context `{Pydantic, Clock}.
  Context {L A : Type}.

Record recording := {
  rc_principal : Principal;
  rc_operation : string;
  rc_subject_label : string;
  rc_subject_id : string;
  rc_key : string;
  rc_summary : list (string * value);
  rc_mutation : M Store A;
  rc_request_digest : option string;
  rc_key_digest : option string;
  rc_on_result : option (EventReceipt → bool → M L unit);
  rc_receipt_id : string
}.

Section run.
  Context {T : Type} `{!Stored T L}.

Definition _find_receipt (name digest : string) (s : Store) : res (option EventReceipt) :=
  n ← find_event_receipt_by_digest name digest s;
  match n with
  | None => Ok None
  | Some n => r ← EventReceipt_of (nr_id n) (nr_properties n); Ok (Some r)
  end.

Definition notify (c : recording) (r : EventReceipt) (duplicate : bool) : M T unit :=
  match rc_on_result c with Some f => beside_store (f r duplicate) | None => mret tt end.

(** The answer to a call whose identity was claimed before. *)
Definition duplicate_of (c : recording) (r : EventReceipt) : M T (option A * EventReceipt) :=
  lift (_require_matching_scope r (rc_operation c) (rc_subject_label c) (rc_subject_id c) (rc_request_digest c));;
  notify c r true;;
  mret (None, r).

(** [EventReceipt.new]. *)
Definition first_receipt (c : recording) (claim_digest : string) (now : datetime) : res EventReceipt :=
  new_receipt {| er_id := rc_receipt_id c; er_operation := rc_operation c; er_subject_label := rc_subject_label c;
    er_subject_id := rc_subject_id c; er_actor_id := pn_actor_id (rc_principal c);
    er_session_id := pn_session_id (rc_principal c); er_correlation_id := pn_correlation_id (rc_principal c);
    er_key_digest := None; er_claim_digest := Some claim_digest; er_request_digest := rc_request_digest c;
    er_key_digest_sha256 := rc_key_digest c; er_status := PENDING; er_attempt_count := 0;
    er_next_attempt_at := None; er_created_at := Some now; er_updated_at := Some now;
    er_summary := redact_event (rc_summary c); er_last_error := "" |}.

Definition recorded_body (c : recording) (claim_digest : string) : M T (option A * EventReceipt) :=
  existing ← at_store (reads (_find_receipt "idempotency_claim_digest" claim_digest));
  match existing with
  | Some r => duplicate_of c r
  | None =>
      legacy ← at_store (reads (_find_receipt "idempotency_key_digest" (sha256_hex (utf8_encode (rc_key c)))));
      guard_raise (bool_decide (is_Some legacy))
        (IdempotencyScopeConflict "legacy idempotency claim requires a new key");;
      now ← at_store utc_now;
      receipt ← lift (first_receipt c claim_digest now);
      p ← lift (receipt_properties receipt);
      claim ← at_store (claim_event_receipt (er_id receipt) claim_digest p);
      let '(created, node) := claim in
      if negb created then
        r ← lift (EventReceipt_of (nr_id node) (nr_properties node));
        duplicate_of c r
      else
        result ← at_store (rc_mutation c);
        at_store (link_new_event_receipt (rc_subject_label c) (rc_subject_id c) (er_id receipt));;
        notify c receipt false;;
        mret (Some result, receipt)
  end.

Definition _record_mutation_with_receipt (c : recording) : M T (option A * EventReceipt) :=
  claim_digest ← lift (digest_idempotency_claim (rc_principal c) (rc_key c));
  in_transaction (recorded_body c claim_digest).

Definition invalid_key : exn := IdempotencyScopeConflict "invalid idempotency key".

Definition digest_mismatch : exn := IdempotencyScopeConflict "idempotency key digest mismatch".

(** [record_secs_issue_create_v1_with_receipt], which fixes the operation and the
    label of the subject. *)
Definition issue_scope (c : recording) : recording :=
  {| rc_principal := rc_principal c; rc_operation := _EXACT_ISSUE_CREATE_OPERATION; rc_subject_label := "Issue";
     rc_subject_id := rc_subject_id c; rc_key := rc_key c; rc_summary := rc_summary c; rc_mutation := rc_mutation c;
     rc_request_digest := rc_request_digest c; rc_key_digest := rc_key_digest c; rc_on_result := rc_on_result c;
     rc_receipt_id := rc_receipt_id c |}.

Definition issue_checks (c : recording) : res unit :=
  raise_if (negb (_EXACT_IDEMPOTENCY_KEY (rc_key c) && exact_digest (rc_request_digest c)
                  && exact_digest (rc_key_digest c))) invalid_key;;
  raise_if (negb (bool_decide (rc_key_digest c = Some (sha256_hex (rc_key c))))) digest_mismatch.

Definition record_secs_issue_create (c : recording) : M T (option A * EventReceipt) :=
  lift (issue_checks c);;
  _record_mutation_with_receipt (issue_scope c).

Definition WORK_OPERATIONS_V2 : list WorkOperation :=
  filter (λ o, o ≠ status_op) WORK_OPERATIONS
  ++ [progress_set_op; restore_op; proposal_reject_op; session_attach_op; session_state_op].

Definition work_operation_named (version : string) (ops : list WorkOperation) (op : string) : bool :=
  existsb (λ o, String.eqb op ("devgraph.work." +:+ operation_name o +:+ "." +:+ version)) ops.

Definition valid_named (op label : string) : bool :=
  (work_operation_named "v1" WORK_OPERATIONS op && str_in label ["Proposal"; "Initiative"; "Project"; "Issue"; "Task"])
  || (work_operation_named "v2" WORK_OPERATIONS_V2 op && negb (String.eqb op "devgraph.work.session.state.v2")
      && str_in label ["Todo"; "Proposal"; "Initiative"; "Project"; "Issue"; "Task"])
  || (String.eqb op "devgraph.work.session.state.v2" && String.eqb label "SessionRef")
  || (existsb (λ o, String.eqb op ("devgraph.arena." +:+ arena_operation_name o +:+ ".v1")) ARENA_OPERATIONS
      && (if String.eqb op "devgraph.arena.member.set.v1" then str_in label ["Initiative"; "Task"]
          else String.eqb label "Arena")).

Definition named_checks (c : recording) : res unit :=
  raise_if (negb (valid_named (rc_operation c) (rc_subject_label c)))
    (IdempotencyScopeConflict "invalid named Work operation");;
  raise_if (negb (_EXACT_IDEMPOTENCY_KEY (rc_key c))) invalid_key;;
  raise_if (negb (exact_digest (rc_request_digest c))) (IdempotencyScopeConflict "invalid request digest");;
  raise_if (negb (bool_decide (rc_key_digest c = Some (sha256_hex (rc_key c))))) digest_mismatch.

Definition record_named_work (c : recording) : M T (option A * EventReceipt) :=
  lift (named_checks c);;
  _record_mutation_with_receipt c.

(** [record_mutation_with_receipt], which passes no digests and no callback. *)
Definition generic_scope (c : recording) : recording :=
  {| rc_principal := rc_principal c; rc_operation := rc_operation c; rc_subject_label := rc_subject_label c;
     rc_subject_id := rc_subject_id c; rc_key := rc_key c; rc_summary := rc_summary c; rc_mutation := rc_mutation c;
     rc_request_digest := None; rc_key_digest := None; rc_on_result := None; rc_receipt_id := rc_receipt_id c |}.

Definition record_mutation (c : recording) : M T (option A * EventReceipt) :=
  _record_mutation_with_receipt (generic_scope c).

End run.

End outbox.
Arguments recording : clear implicits.

(** ** Receipts are read back as written *)

Lemma lookup_opt_prop name o m k :
  opt_prop name o m !! k = if String.eqb k name then match o with Some x => Some (VStr x) | None => m !! k end else m !! k.
Proof.
  unfold opt_prop. destruct (String.eqb_spec k name) as [->|Hne], o; try done.
  - by rewrite lookup_insert_eq.
  - by rewrite lookup_insert_ne by done.
Qed.

Definition time_ok (o : option datetime) : Prop := match o with Some d => datetime_ok d = true | None => True end.

Lemma time_read_back o : time_ok o → _datetime_from_storage (time_value o) = Ok o.
Proof. destruct o as [d|]; [|done]. intros Hd. cbn [time_value _datetime_from_storage py_str mbind res_bind]. by rewrite fromisoformat_isoformat. Qed.

Lemma text_field_Some k p s : p !! k = Some (VStr s) → text_field k p = Ok s.
Proof. unfold text_field. by intros ->. Qed.

Lemma optional_text_fmap k p o : p !! k = VStr <$> o → optional_text k p = Ok o.
Proof. unfold optional_text. intros ->. by destruct o. Qed.

Lemma OutboxStatus_of_value s : OutboxStatus_of (outbox_value s) = Ok s.
Proof. by destruct s. Qed.

(** The fields every receipt stores. *)
Definition stored_fields (r : EventReceipt) (created updated : datetime) : list (string * value) :=
  [("operation", VStr (er_operation r)); ("subject_label", VStr (er_subject_label r));
   ("subject_id", VStr (er_subject_id r)); ("actor_id", VStr (er_actor_id r));
   ("session_id", VStr (er_session_id r)); ("correlation_id", VStr (er_correlation_id r));
   ("status", VStr (outbox_value (er_status r))); ("attempt_count", VInt (er_attempt_count r));
   ("next_attempt_at", time_value (er_next_attempt_at r)); ("created_at", VStr (isoformat created));
   ("updated_at", VStr (isoformat updated)); ("redacted_summary", VDict (er_summary r));
   ("last_error_summary", VStr (er_last_error r))].

(** The digests, stored when they are known. *)
Definition stored_digests (r : EventReceipt) : list (string * option string) :=
  [("idempotency_claim_digest", er_claim_digest r); ("idempotency_key_digest", er_key_digest r);
   ("request_digest_sha256", er_request_digest r); ("idempotency_key_digest_sha256", er_key_digest_sha256 r)].

Lemma stored_disjoint r created updated k v :
  dict_get k (stored_fields r created updated) = Some v → dict_get k (stored_digests r) = None.
Proof.
  intros Hk. destruct (dict_get k (stored_digests r)) eqn:E; [|done]. exfalso.
  revert E Hk. cbn [stored_digests stored_fields dict_get].
  repeat (case_match; [match goal with H : String.eqb k _ = true |- _ => apply String.eqb_eq in H as -> end; done|]). done.
Qed.

Lemma receipt_properties_lookup r p : receipt_properties r = Ok p → ∃ created updated,
  er_created_at r = Some created ∧ er_updated_at r = Some updated
  ∧ ∀ k, p !! k = match dict_get k (stored_digests r) with
                  | Some o => VStr <$> o
                  | None => dict_get k (stored_fields r created updated)
                  end.
Proof.
  unfold receipt_properties. destruct (er_created_at r) as [created|]; [|done].
  destruct (er_updated_at r) as [updated|]; [|done]. cbn [required_time mbind res_bind]. intros Hp%(inj Ok).
  exists created, updated. split; [done|]. split; [done|]. intros k. rewrite <-Hp. clear Hp.
  rewrite !lookup_opt_prop, lookup_list_to_map. cbn [stored_digests dict_get].
  repeat (match goal with |- context [String.eqb k ?x] => destruct (String.eqb_spec k x) as [->|] end; [by case_match|]).
  reflexivity.
Qed.

Lemma receipt_read r q created updated :
  (∀ k v, dict_get k (stored_fields r created updated) = Some v → q !! k = Some v) →
  (∀ k o, dict_get k (stored_digests r) = Some o → optional_text k q = Ok o) →
  er_created_at r = Some created → er_updated_at r = Some updated → new_receipt r = Ok r →
  time_ok (er_next_attempt_at r) → datetime_ok created = true → datetime_ok updated = true →
  EventReceipt_of (er_id r) q = Ok r.
Proof.
  intros HF HD Ec Eu Hn H1 H2 H3. unfold EventReceipt_of.
  do 6 (eapply res_bind_run; [apply text_field_Some, HF; reflexivity|]).
  do 4 (eapply res_bind_run; [apply HD; reflexivity|]).
  eapply res_bind_run.
  { eapply res_bind_run; [apply text_field_Some, HF; reflexivity|]. apply OutboxStatus_of_value. }
  eapply res_bind_run; [erewrite HF by reflexivity; reflexivity|].
  eapply res_bind_run; [erewrite HF by reflexivity; by apply time_read_back|].
  eapply res_bind_run; [erewrite HF by reflexivity; exact (time_read_back (Some created) H2)|].
  eapply res_bind_run; [erewrite HF by reflexivity; exact (time_read_back (Some updated) H3)|].
  eapply res_bind_run; [erewrite HF by reflexivity; reflexivity|].
  eapply res_bind_run; [erewrite HF by reflexivity; reflexivity|].
  rewrite <-Ec, <-Eu. by destruct r.
Qed.

Lemma receipt_read_back r p : receipt_properties r = Ok p → new_receipt r = Ok r →
  time_ok (er_next_attempt_at r) → time_ok (er_created_at r) → time_ok (er_updated_at r) →
  EventReceipt_of (er_id r) p = Ok r.
Proof.
  intros (created & updated & Ec & Eu & HP)%receipt_properties_lookup Hn H1 H2 H3. rewrite Ec in H2. rewrite Eu in H3.
  apply (receipt_read r p created updated); try done.
  - intros k v Hk. by rewrite HP, (stored_disjoint _ _ _ _ _ Hk).
  - intros k o Hk. apply optional_text_fmap. by rewrite HP, Hk.
Qed.

(** ** Retry identities are encoded without ambiguity *)

Lemma byte_of_inj a b : 0 <= a < 256 → 0 <= b < 256 → byte_of a = byte_of b → a = b.
Proof.
  intros Ha Hb H. apply (f_equal N_of_ascii) in H. unfold byte_of in H.
  rewrite !N_ascii_embedding in H by lia. lia.
Qed.

Lemma to_bytes4_inj a b x y s t : 0 <= a → 0 <= b → to_bytes4 a = Ok x → to_bytes4 b = Ok y → x +:+ s = y +:+ t → a = b ∧ s = t.
Proof.
  unfold to_bytes4. intros Ha Hb Hx Hy Heq. minv. bools. subst. simpl in Heq. injection Heq as E1 E2 E3 E4 Hs. split; [|done].
  change (Z.pow_pos 2 24) with (2 ^ 24) in *.
  apply byte_of_inj in E1; [|split; [apply Z.div_pos; lia|apply Z.div_lt_upper_bound; lia]..].
  apply byte_of_inj in E2; [|apply Z.mod_pos_bound; lia..]. apply byte_of_inj in E3; [|apply Z.mod_pos_bound; lia..].
  apply byte_of_inj in E4; [|apply Z.mod_pos_bound; lia..]. 
  revert E1 E2 E3 E4. clear. intros. Z.to_euclidean_division_equations. lia.
Qed.

Lemma str_app_inj_len u v s t : String.length u = String.length v → u +:+ s = v +:+ t → u = v ∧ s = t.
Proof.
  revert v. induction u as [|c u IH]; intros [|d v] Hl; simpl in *; try done. intros [= <- H].
  apply IH in H as [-> ->]; [done|lia].
Qed.

Lemma encode_field_inj v w x y s t : encode_field v = Ok x → encode_field w = Ok y → x +:+ s = y +:+ t → v = w ∧ s = t.
Proof.
  unfold encode_field. intros Hx Hy Heq. minv. subst. rewrite !str_app_assoc in Heq.
  assert (∀ u, 0 <= str_len u) as Hlen by (intros u; unfold str_len; lia).
  eapply to_bytes4_inj in Heq as [Hl Heq]; [|apply Hlen|apply Hlen|eassumption..].
  apply str_app_inj_len in Heq as [Hu ->]; [|unfold str_len in Hl; lia]. by apply utf8_encode_inj in Hu.
Qed.

Lemma join_empty x l : join "" (x :: l) = x +:+ join "" l.
Proof. destruct l; simpl; by rewrite ?str_app_nil_r. Qed.

Lemma encode_fields_inj vs ws xs ys : length vs = length ws →
  res_mapM encode_field vs = Ok xs → res_mapM encode_field ws = Ok ys → join "" xs = join "" ys → vs = ws.
Proof.
  revert ws xs ys. induction vs as [|v vs IH]; intros [|w ws] xs ys Hl Hx Hy Hj; try done.
  simpl in Hx, Hy. apply res_bind_Ok in Hx as (x & Hx & Hx'). apply res_bind_Ok in Hx' as (xs' & Hxs & [= <-]).
  apply res_bind_Ok in Hy as (y & Hy & Hy'). apply res_bind_Ok in Hy' as (ys' & Hys & [= <-]).
  rewrite !join_empty in Hj. destruct (encode_field_inj _ _ _ _ _ _ Hx Hy Hj) as [-> Hj'].
  f_equal. eapply IH; [simpl in Hl; lia|eassumption..].
Qed.

(** ** The record that holds a retry identity *)

Section claims.
  Context {PY : Pydantic} {PL : PydanticLaws} {CK : Clock}.
  Implicit Types (s : Store) (n : NodeRecord).

Definition holds_claim (d : string) (n : NodeRecord) : Prop :=
  nr_label n = "EventReceipt" ∧ nr_properties n !! "idempotency_claim_digest" = Some (VStr d).

(** [n] is stored and is the only receipt that holds the digest [d]. *)
Record sole_receipt (d : string) (n : NodeRecord) (s : Store) : Prop := {
  sole_stored : nodes s !! ("EventReceipt", nr_id n) = Some n;
  sole_holds : holds_claim d n;
  sole_only k m : nodes s !! k = Some m → holds_claim d m → m = n
}.

Lemma receipts_with_elem d m s : m ∈ receipts_with "idempotency_claim_digest" d s ↔
  holds_claim d m ∧ ∃ k, nodes s !! k = Some m.
Proof.
  unfold receipts_with, holds_claim. rewrite list_elem_of_filter, list_elem_of_fmap. split.
  - intros [[? ?] ([k m']&->&Hk%elem_of_map_to_list)]. eauto.
  - intros [[? ?] [k Hk]]. split; [done|]. exists (k, m). by rewrite elem_of_map_to_list.
Qed.

Lemma sole_receipts_with d n s : store_wf s → sole_receipt d n s →
  receipts_with "idempotency_claim_digest" d s = [n].
Proof.
  intros Hs [Hn Hd Ho].
  assert (∀ m, m ∈ receipts_with "idempotency_claim_digest" d s ↔ m = n) as Hel.
  { intros m. rewrite receipts_with_elem. split; [intros [? [k ?]]; eauto|]. intros ->. eauto. }
  assert (NoDup (receipts_with "idempotency_claim_digest" d s)) as Hnd.
  { apply NoDup_filter. apply (NoDup_fmap_1 nr_key). by apply all_nodes_keys. }
  destruct (receipts_with _ d s) as [|a [|b l]].
  - exfalso. by eapply not_elem_of_nil, Hel.
  - f_equal. apply Hel. by left.
  - apply NoDup_cons in Hnd as [Hnd _]. exfalso. apply Hnd.
    rewrite (proj1 (Hel a)) by left. rewrite <-(proj1 (Hel b)) by (right; left). left.
Qed.

Lemma sole_fresh d n s s' : receipts_with "idempotency_claim_digest" d s = [] → holds_claim d n →
  nodes s' = <[("EventReceipt", nr_id n) := n]> (nodes s) → sole_receipt d n s'.
Proof.
  intros Hr Hd Hs'. constructor; [by rewrite Hs', lookup_insert_eq|done|].
  intros k m Hm Hdm. rewrite Hs' in Hm. apply lookup_insert_Some in Hm as [[_ ?]|[_ Hm]]; [done|].
  assert (m ∈ receipts_with "idempotency_claim_digest" d s) as Hin by (apply receipts_with_elem; eauto).
  rewrite Hr in Hin. by apply not_elem_of_nil in Hin.
Qed.

Lemma sole_nodes d n s s' : nodes s' = nodes s → sole_receipt d n s → sole_receipt d n s'.
Proof. intros He []. constructor; by rewrite ?He. Qed.

(** A program that keeps the storage well formed and every held identity held. *)
Definition steady {A} (m : M Store A) : Prop :=
  keeps m ∧ ∀ s, store_wf s → ∀ d n, sole_receipt d n s → sole_receipt d n (m s).2.

(** A program that also leaves the records of receipts alone. *)
Definition spares_receipts {A} (m : M Store A) : Prop :=
  keeps m ∧ ∀ s, store_wf s → ∀ i, nodes (m s).2 !! ("EventReceipt", i) = nodes s !! ("EventReceipt", i).

Lemma steady_spares {A} (m : M Store A) : spares_receipts m → steady m.
Proof.
  intros [Hk Hm]. split; [done|]. intros s Hs d n [Hn Hd Ho]. constructor; [by rewrite Hm|done|].
  intros k m' Hm' Hd'. apply (Ho k m'); [|done]. destruct (Hk s Hs) as [Hs' _].
  pose proof (sw_nodes _ Hs' k m' Hm') as Hkey. apply nw_key in Hkey. destruct Hd' as [Hl _].
  unfold nr_key in Hkey. rewrite <-Hkey, Hl in Hm' |- *. by rewrite <-Hm.
Qed.

Lemma steady_nodes {A} (m : M Store A) : keeps m → (∀ s, nodes (m s).2 = nodes s) → steady m.
Proof. intros Hk Hm. split; [done|]. intros s _ d n. apply sole_nodes, Hm. Qed.

Lemma steady_bind {A B} (m : M Store A) (k : A → M Store B) :
  steady m → (∀ a, steady (k a)) → steady (m ≫= k).
Proof.
  intros [Hk Hm] Hc. split; [apply keeps_bind; [done|]; intros a; apply Hc|]. intros s Hs d n Hn.
  specialize (Hk s Hs) as [Hs1 _]. specialize (Hm s Hs d n Hn). unfold mbind, M_bind.
  destruct (m s) as [[a|e] s1]; [|done]. by apply (Hc a).
Qed.

Lemma steady_transaction {A} (m : M Store A) : steady m → steady (transaction m).
Proof.
  intros [Hk Hm]. split; [by apply transaction_keeps|]. intros s Hs d n Hn.
  set (s0 := if bool_decide (tx s = None) then begin_tx s else s).
  assert (sole_receipt d n (m s0).2) as Hm0.
  { apply Hm; unfold s0; case_bool_decide; try done; [destruct Hs; by constructor|by apply (sole_nodes _ _ s)]. }
  destruct (transaction m s) as [[a|e] s'] eqn:E.
  - apply transaction_Ok in E as (s1 & E & _ & ->). unfold s0 in Hm0. rewrite E in Hm0.
    simpl. by case_match; apply (sole_nodes _ _ s1).
  - apply transaction_Err in E as [Hn' _]. by apply (sole_nodes _ _ s).
Qed.

Lemma steady_claim i d p : steady (claim_event_receipt i d p).
Proof.
  split; [apply claim_event_receipt_keeps|]. intros s Hs d' n Hn.
  destruct (claim_event_receipt i d p s) as [[[[] m]|e] s'] eqn:E; simpl.
  - pose proof E as (->&Hp&Hr&Hk&->)%claim_fresh_Ok.
    destruct (note_claim_nodes (Node "EventReceipt" i p false) p
      (put_node ("EventReceipt", i) (Node "EventReceipt" i p false) s)) as [Hnodes _].
    apply (sole_nodes _ _ _ _ Hnodes). destruct Hn as [Hn Hd Ho]. constructor; [|done|]; simpl.
    + rewrite lookup_insert_ne; [done|]. intros [= ->]. congruence.
    + intros k m [[<- <-]|[_ Hm]]%lookup_insert_Some Hm'; [|by eapply Ho].
      exfalso. destruct Hm' as [_ Hm']. simpl in Hm'.
      assert (d = d') as -> by congruence.
      assert (n ∈ receipts_with "idempotency_claim_digest" d' s) as Hin by (apply receipts_with_elem; eauto).
      rewrite Hr in Hin. by apply not_elem_of_nil in Hin.
  - revert E. unfold claim_event_receipt. intros E. minv. subst.
    destruct (receipts_with _ _ _) as [|? []]; minv; by subst.
  - assert (nodes s' = nodes s) as He; [|by apply (sole_nodes _ _ s)]. revert E.
    unfold claim_event_receipt, create_node, mbind, M_bind, guard_raise, gets, lift, modify, raise, mret, M_ret. simpl.
    intros E. repeat (case_match; simplify_eq/=); done.
Qed.

End claims.

(** ** Recorded calls and sequences of them *)

Section retries.
  Context {PY : Pydantic} {PL : PydanticLaws} {CK : Clock} {L : Type} `{!Inhabited L} {A : Type}.
  Implicit Types (s : Store) (c : recording L A).

(** One call of an entry point of [EventOutbox]. *)
Inductive entry : Type :=
  | generic_entry (c : recording L A)
  | issue_entry (c : recording L A)
  | named_entry (c : recording L A).

Definition entry_run (e : entry) : M Store (option A * EventReceipt) :=
  match e with
  | generic_entry c => record_mutation c
  | issue_entry c => record_secs_issue_create c
  | named_entry c => record_named_work c
  end.

Definition entry_checks (e : entry) : res unit :=
  match e with generic_entry _ => Ok tt | issue_entry c => issue_checks c | named_entry c => named_checks c end.

(** What the entry point records. *)
Definition entry_scope (e : entry) : recording L A :=
  match e with generic_entry c => generic_scope c | issue_entry c => issue_scope c | named_entry c => c end.

Lemma entry_run_checked e : entry_run e = (lift (entry_checks e);; _record_mutation_with_receipt (entry_scope e)).
Proof. by destruct e. Qed.

(** A callback of a storage alone changes nothing. *)
Definition notified c (r : EventReceipt) (duplicate : bool) : res unit :=
  match rc_on_result c with Some f => (f r duplicate inhabitant).1 | None => Ok tt end.

Lemma notify_alone c r d s : notify c r d s = (notified c r d, s).
Proof. unfold notify, notified. by destruct (rc_on_result c). Qed.

Lemma notify_alone_Ok c r d s x s' : notify c r d s = (Ok x, s') → s' = s.
Proof. rewrite notify_alone. by intros [= _ <-]. Qed.

(** The answer to a held identity changes nothing and has no result. *)
Lemma duplicate_of_Ok c r s x s' : duplicate_of c r s = (Ok x, s') → s' = s ∧ x = (None, r).
Proof.
  unfold duplicate_of. intros (?&?&[_ ->]%lift_Ok&H)%M_bind_Ok. apply M_bind_Ok in H as (?&?&->%notify_alone_Ok&H).
  by apply M_ret_Ok in H as [-> ->].
Qed.

Definition run_entries (es : list entry) (s : Store) : Store := foldl (λ s e, (entry_run e s).2) s es.

Lemma record_body_steady c d : spares_receipts (rc_mutation c) → steady (recorded_body c d).
Proof.
  intros Hm. unfold recorded_body, duplicate_of. cbn [at_store store_alone].
  assert (∀ r d, steady (notify c r d)) as Hnote.
  { intros r d'. apply steady_nodes; [apply keeps_same|]; intros s; by rewrite notify_alone. }
  assert (∀ B (f : Store → res B), steady (reads f)) as Hreads by (intros; apply steady_nodes; [apply keeps_id|done]).
  assert (∀ B (r : res B), steady (lift r)) as Hlift by (intros; apply steady_nodes; [by apply keeps_same|done]).
  assert (∀ B (b : B), steady (mret b)) as Hret by (intros; apply steady_nodes; [by apply keeps_same|done]).
  assert (∀ b e, steady (guard_raise b e)) as Hguard.
  { intros b e. apply steady_nodes; [apply keeps_guard|]. by destruct b. }
  assert (∀ sl si ri, steady (link_new_event_receipt sl si ri)) as Hlink.
  { intros. apply steady_nodes; [apply link_new_event_receipt_keeps|]. intros s.
    destruct (link_new_event_receipt sl si ri s) as [[e|e] s'] eqn:E.
    - apply link_Ok in E as (?&?&?&?&?&?&?&?&->&?&s1&Hc&->). apply create_edge_Ok in Hc as (_&_&_&Hn&_).
      unfold drop_claim. by case_match.
    - revert E. unfold link_new_event_receipt, or_rollback, create_edge, mbind, M_bind, guard_raise, gets, lift, modify, raise, mret, M_ret.
      simpl. intros E. unfold mark_rollback in E. repeat (case_match; simplify_eq/=); done. }
  assert (steady (rc_mutation c)) by (by apply steady_spares).
  assert (steady utc_now) by (apply steady_nodes; [apply keeps_clock|done]).
  repeat first [apply steady_claim|done|solve [eauto]|apply steady_bind; [|intros ?]|case_match].
Qed.

Lemma entry_run_steady e : spares_receipts (rc_mutation (entry_scope e)) → steady (entry_run e).
Proof.
  intros Hm. rewrite entry_run_checked.
  assert (∀ B (r : res B), steady (lift r)) as Hlift by (intros; apply steady_nodes; [by apply keeps_same|done]).
  repeat (apply steady_bind; [done|intros ?]). by apply steady_transaction, record_body_steady.
Qed.

Lemma run_entries_steady es s d n : Forall (λ e, spares_receipts (rc_mutation (entry_scope e))) es →
  store_wf s → sole_receipt d n s → store_wf (run_entries es s) ∧ sole_receipt d n (run_entries es s).
Proof.
  intros Hes. revert s. induction Hes as [|e es He _ IH]; intros s Hs Hn; [done|].
  destruct (entry_run_steady e He) as [Hk Hst]. apply IH; [by apply Hk|by apply Hst].
Qed.

Lemma sha256_hex64 x : is_hex64 (sha256_hex x) = true.
Proof.
  pose proof (sha256_hex_digest x) as Hd. unfold is_digest in Hd. apply andb_prop in Hd as [Hl Hh].
  unfold is_hex64, str_len. apply Nat.eqb_eq in Hl. by rewrite Hl, Hh.
Qed.

Lemma find_receipt_sole d n s : store_wf s → is_hex64 d = true → sole_receipt d n s →
  _find_receipt "idempotency_claim_digest" d s = r ← EventReceipt_of (nr_id n) (nr_properties n); Ok (Some r).
Proof.
  intros Hs Hd Hn. unfold _find_receipt, find_event_receipt_by_digest, validate_receipt_lookup.
  by rewrite Hd, (sole_receipts_with d n s).
Qed.

Lemma digest_hex p k d : digest_idempotency_claim p k = Ok d → is_hex64 d = true.
Proof. unfold digest_idempotency_claim. intros H. minv. subst. apply sha256_hex64. Qed.

(** What a first recording did. *)
Lemma record_first_Ok c s a r s1 : _record_mutation_with_receipt c s = (Ok (Some a, r), s1) →
  ∃ d now p s0 s0', digest_idempotency_claim (rc_principal c) (rc_key c) = Ok d
    ∧ datetime_ok now = true ∧ first_receipt c d now = Ok r ∧ receipt_properties r = Ok p
    ∧ receipts_with "idempotency_claim_digest" d s = [] ∧ nodes s !! ("EventReceipt", rc_receipt_id c) = None
    ∧ (store_wf s → store_wf s0)
    ∧ nodes s0 = <[("EventReceipt", rc_receipt_id c) := Node "EventReceipt" (rc_receipt_id c) p false]> (nodes s)
    ∧ edges s0 = edges s ∧ rc_mutation c s0 = (Ok a, s0') ∧ nodes s1 = nodes s0'
    ∧ edges s1 = edges s0' ++ [Edge (rc_subject_label c) (rc_subject_id c) "EMITTED_EVENT" "EventReceipt" (rc_receipt_id c) ∅].
Proof.
  unfold _record_mutation_with_receipt. intros H.
  apply M_bind_Ok in H as (d & s' & [Hd ->]%lift_Ok & H). cbn [in_transaction store_alone] in H.
  apply transaction_graph in H as (b0 & b1 & H & [Hbn Hbe] & [_ Hwf] & [Hn1 He1]).
  unfold recorded_body in H. cbn [at_store store_alone] in H. apply M_bind_Ok in H as (ex & s2 & [_ ->]%reads_Ok & H).
  destruct ex as [r0|]; [by apply duplicate_of_Ok in H as [_ ?]|].
  apply M_bind_Ok in H as (lg & s2 & [_ ->]%reads_Ok & H).
  apply M_bind_Ok in H as (u & s2 & [_ ->]%guard_raise_Ok & H).
  apply M_bind_Ok in H as (now & s2 & Hnow & H). unfold utc_now in Hnow. injection Hnow as <- <-.
  apply M_bind_Ok in H as (r1 & s3 & [Hr ->]%lift_Ok & H).
  apply M_bind_Ok in H as (p & s4 & [Hp ->]%lift_Ok & H).
  apply M_bind_Ok in H as ([created n] & s5 & Hclaim & H).
  destruct created; cbn [negb] in H.
  2: { apply M_bind_Ok in H as (r2 & s6 & Hr2 & H). by apply duplicate_of_Ok in H as [_ ?]. }
  apply M_bind_Ok in H as (a1 & s6 & Hmut & H).
  apply M_bind_Ok in H as (e & s7 & Hlink & H).
  apply M_bind_Ok in H as (u' & s8 & ->%notify_alone_Ok & H). apply M_ret_Ok in H as [[= <- <-] <-].
  assert (e = Edge (rc_subject_label c) (rc_subject_id c) "EMITTED_EVENT" "EventReceipt" (er_id r) ∅) as ->.
  { by apply link_Ok in Hlink as (?&?&_&_&_&_&_&_&->&_). }
  apply link_requires_fresh_claim in Hlink as (_ & _ & Hle & Hln & _).
  assert (er_id r = rc_receipt_id c) as Hid by (unfold first_receipt, new_receipt in Hr; by minv; subst).
  assert (store_wf s → store_wf s5) as Hs5.
  { intros Hs. destruct (keeps_clock b0 (Hwf Hs)) as [Ht _].
    destruct (claim_event_receipt_keeps (er_id r) d p _ Ht) as [Hk _]. simpl in Hk. by rewrite Hclaim in Hk. }
  eexists d, _, p, s5, s6. rewrite Hid in *.
  apply claim_fresh_Ok in Hclaim as (-> & Hpd & Hrw & Hk & ->). simpl in Hk. rewrite Hbn in Hk.
  match goal with |- context [note_claim ?n ?p ?x] => destruct (note_claim_nodes n p x) as [Hnn Hne] end.
  split_and!; try done; try by apply clock_ok.
  all: try congruence.
  - unfold receipts_with in *. simpl in Hrw. by rewrite Hbn in Hrw.
  - rewrite Hnn. simpl. by rewrite Hbn.
  - by rewrite Hne.
Qed.

(** An answer without a result changed nothing. *)
Lemma record_duplicate_Ok c s r s1 : _record_mutation_with_receipt c s = (Ok (None, r), s1) → same_graph s s1.
Proof.
  unfold _record_mutation_with_receipt. intros H. apply M_bind_Ok in H as (d & s' & [Hd ->]%lift_Ok & H). cbn [in_transaction store_alone] in H.
  apply transaction_graph in H as (b0 & b1 & H & [Hbn Hbe] & _ & [Hn1 He1]).
  assert (nodes b1 = nodes b0 ∧ edges b1 = edges b0) as [Hn He]; [|split; congruence].
  unfold recorded_body in H. cbn [at_store store_alone] in H. apply M_bind_Ok in H as (ex & s2 & [_ ->]%reads_Ok & H).
  destruct ex as [r0|]; [by apply duplicate_of_Ok in H as [-> _]|].
  apply M_bind_Ok in H as (lg & s2 & [_ ->]%reads_Ok & H). apply M_bind_Ok in H as (u & s2 & [_ ->]%guard_raise_Ok & H).
  apply M_bind_Ok in H as (now & s2 & Hnow & H). unfold utc_now in Hnow. injection Hnow as <- <-.
  apply M_bind_Ok in H as (r1 & s3 & [_ ->]%lift_Ok & H). apply M_bind_Ok in H as (p & s4 & [_ ->]%lift_Ok & H).
  apply M_bind_Ok in H as ([created n] & s5 & Hclaim & H). destruct created; cbn [negb] in H; [by minv|].
  apply M_bind_Ok in H as (r2 & s6 & [_ ->]%lift_Ok & H). apply duplicate_of_Ok in H as [-> _].
  unfold claim_event_receipt in Hclaim. minv. destruct (receipts_with _ _ _) as [|? []]; minv; by subst.
Qed.

(** The receipt that [EventOutbox] hands out for a held identity. *)
Definition retry_answer (c : recording L A) (r : EventReceipt) : res (option A * EventReceipt) :=
  _require_matching_scope r (rc_operation c) (rc_subject_label c) (rc_subject_id c) (rc_request_digest c);;
  notified c r true;; Ok (None, r).

Lemma record_held c d n r s : store_wf s → tx s = None →
  digest_idempotency_claim (rc_principal c) (rc_key c) = Ok d →
  sole_receipt d n s → EventReceipt_of (nr_id n) (nr_properties n) = Ok r →
  ∃ s', _record_mutation_with_receipt c s = (retry_answer c r, s') ∧ same_graph s s'.
Proof.
  intros Hs Ht Hd Hn Hr. destruct (_record_mutation_with_receipt c s) as [x s'] eqn:E. exists s'.
  assert (recorded_body c d (begin_tx s) = (retry_answer c r, begin_tx s)) as Hbody.
  { unfold recorded_body. cbn [at_store store_alone]. unfold mbind, M_bind, reads. rewrite (find_receipt_sole d n); [|by destruct Hs; constructor
      |by eapply digest_hex|by apply (sole_nodes _ _ s)]. rewrite Hr. cbn [mbind res_bind].
    unfold duplicate_of, retry_answer, mbind, M_bind, lift.
    destruct (_require_matching_scope r _ _ _ _); [|done]. cbn [res_bind]. rewrite notify_alone. by destruct (notified c r true). }
  revert E. unfold _record_mutation_with_receipt. cbn [in_transaction store_alone]. unfold mbind, M_bind, lift, transaction.
  rewrite Hd, Ht, bool_decide_true, Hbody by done. unfold same_graph.
  by destruct (retry_answer c r); intros [= <- <-].
Qed.

Lemma entry_run_tx e s : tx s = None → tx (entry_run e s).2 = None.
Proof.
  intros Ht. rewrite entry_run_checked. unfold _record_mutation_with_receipt. cbn [in_transaction store_alone]. unfold mbind, M_bind, lift.
  destruct (entry_checks e); [|done]. destruct (digest_idempotency_claim _ _); [|done].
  destruct (transaction _ s) as [[x|x] s'] eqn:E; simpl.
  - apply transaction_Ok in E as (s1 & _ & _ & ->). by rewrite bool_decide_true.
  - apply transaction_Err in E as (_&_&_&_&->). done.
Qed.

Lemma run_entries_tx es s : tx s = None → tx (run_entries es s) = None.
Proof. revert s. induction es as [|e es IH]; intros s Ht; [done|]. by apply IH, entry_run_tx. Qed.

(** Two calls with the same retry identity. *)
Definition retries (c c' : recording L A) : Prop :=
  pn_issuer (rc_principal c') = pn_issuer (rc_principal c)
  ∧ pn_audience (rc_principal c') = pn_audience (rc_principal c)
  ∧ pn_actor_id (rc_principal c') = pn_actor_id (rc_principal c) ∧ rc_key c' = rc_key c.

Lemma retries_digest c c' : retries c c' →
  digest_idempotency_claim (rc_principal c') (rc_key c') = digest_idempotency_claim (rc_principal c) (rc_key c).
Proof.
  intros (Hi & Ha & Hc & Hk). unfold digest_idempotency_claim, canonical_idempotency_claim_bytes.
  by rewrite Hi, Ha, Hc, Hk.
Qed.

(** A first recording leaves its receipt as the holder of the identity. *)
Lemma record_first_held c s a r s1 : store_wf s → spares_receipts (rc_mutation c) →
  _record_mutation_with_receipt c s = (Ok (Some a, r), s1) →
  ∃ d n, digest_idempotency_claim (rc_principal c) (rc_key c) = Ok d
    ∧ sole_receipt d n s1 ∧ EventReceipt_of (nr_id n) (nr_properties n) = Ok r.
Proof.
  intros Hs Hm H. apply record_first_Ok in H as (d&now&p&s0&s0'&Hd&Hnow&Hr&Hp&Hrw&Hk&Hwf&Hn&_&Hmut&Hn1&_).
  exists d, (Node "EventReceipt" (rc_receipt_id c) p false). split; [done|].
  unfold first_receipt in Hr.
  assert (new_receipt r = Ok r ∧ er_id r = rc_receipt_id c ∧ er_next_attempt_at r = None
    ∧ er_created_at r = Some now ∧ er_updated_at r = Some now ∧ er_claim_digest r = Some d) as (Hnr&Hid&Hna&Hc&Hu&Hcd).
  { pose proof Hr as Hr'. unfold new_receipt in Hr' at 1. minv. by subst r. }
  split.
  - apply steady_spares in Hm as [_ Hm]. specialize (Hm s0 (Hwf Hs)). rewrite Hmut in Hm.
    apply (sole_nodes _ _ s0'); [done|]. apply Hm. eapply sole_fresh; [exact Hrw| |exact Hn].
    split; [done|]. simpl. unfold receipt_properties in Hp. rewrite Hcd in Hp. minv. subst p.
    by rewrite !lookup_opt_prop.
  - simpl. rewrite <-Hid. apply receipt_read_back; rewrite ?Hna, ?Hc, ?Hu; done.
Qed.

End retries.

(** Mutations of Work stay clear of the receipts. *)
Lemma named_spares {PY : Pydantic} {PL : PydanticLaws} {CK : Clock} c q :
  (∀ i, ("EventReceipt", i) ∉ footprint q) → spares_receipts (named_execute c q).
Proof.
  intros Hq. split; [apply named_execute_keeps|]. intros s Hs i.
  by apply (ws_nodes _ _ _ (named_execute_within c q s Hs)), Hq.
Qed.

(** ** Properties of recording *)

(** The bytes that identify a retry are unambiguous: two principals and keys with
    the same canonical claim bytes have the same issuer, the same audience, the
    same actor and the same idempotency key, so no choice of the texts can make
    one caller's key stand for another's. *)
Theorem claim_bytes_unambiguous p q k l x :
  canonical_idempotency_claim_bytes p k = Ok x → canonical_idempotency_claim_bytes q l = Ok x →
  pn_issuer p = pn_issuer q ∧ pn_audience p = pn_audience q ∧ pn_actor_id p = pn_actor_id q ∧ k = l.
Proof.
  unfold canonical_idempotency_claim_bytes. intros H1 H2.
  apply res_bind_Ok in H1 as (_ & _ & H1). apply res_bind_Ok in H1 as (xs & H1 & E1%(inj Ok)).
  apply res_bind_Ok in H2 as (_ & _ & H2). apply res_bind_Ok in H2 as (ys & H2 & E2%(inj Ok)).
  rewrite <-E2 in E1. apply str_app_inj_len in E1 as [_ E1]; [|done].
  unshelve epose proof (encode_fields_inj _ _ _ _ _ H1 H2 E1) as Heq; [done|].
  by injection Heq as -> -> -> ->.
Qed.

(** A recorded call is all or nothing.  When it raises - in its checks, in the
    mutation, in the link or in the callback - no record and no edge has changed.
    When it answers without a result, the identity was held and nothing changed
    either.  When it answers with a result, the mutation ran exactly once, on the
    graph with exactly the new receipt added, and the final graph is what the
    mutation made of it with exactly one new edge, from the subject to the
    receipt. *)
Theorem recording_atomic {PY : Pydantic} {CK : Clock} {A} (e : entry (L := unit) (A := A)) s x s1 :
  entry_run e s = (x, s1) →
  let c := entry_scope e in
  match x with
  | Err _ | Ok (None, _) => same_graph s s1
  | Ok (Some a, r) => ∃ p s0 s0', receipt_properties r = Ok p
      ∧ nodes s !! ("EventReceipt", rc_receipt_id c) = None
      ∧ nodes s0 = <[("EventReceipt", rc_receipt_id c) := Node "EventReceipt" (rc_receipt_id c) p false]> (nodes s)
      ∧ edges s0 = edges s
      ∧ rc_mutation c s0 = (Ok a, s0')
      ∧ nodes s1 = nodes s0'
      ∧ edges s1 = edges s0'
          ++ [Edge (rc_subject_label c) (rc_subject_id c) "EMITTED_EVENT" "EventReceipt" (rc_receipt_id c) ∅]
  end.
Proof.
  rewrite entry_run_checked. intros H c. destruct x as [[[a|] r]|err].
  - apply M_bind_Ok in H as (u & s2 & [_ ->]%lift_Ok & H).
    apply record_first_Ok in H as (?&?&p&s0&s0'&_&_&_&?&_&?&_&?&?&?&?&?). by exists p, s0, s0'.
  - apply M_bind_Ok in H as (u & s2 & [_ ->]%lift_Ok & H). by eapply record_duplicate_Ok.
  - revert H. unfold _record_mutation_with_receipt. cbn [in_transaction store_alone]. unfold mbind, M_bind, lift.
    destruct (entry_checks e); [|by intros [= _ <-]]. destruct (digest_idempotency_claim _ _); [|by intros [= _ <-]].
    by intros (?&?&?&?&?)%transaction_Err.
Qed.

(** C24: A retry identity takes effect once.  After a first successful call, whatever
    recorded calls come in between - of any kind, accepted or refused, by anyone -
    a call with the same issuer, audience, actor and key that passes its entry
    point's checks never runs its mutation: it returns the first receipt, equal
    in every field to the one first handed out, or is refused with a scope
    conflict when its operation, its subject or its request digest differ; in
    both cases no record and no edge changes. *)
Theorem retry_exactly_once {PY : Pydantic} {PL : PydanticLaws} {CK : Clock} {A}
    (e e' : entry (L := unit) (A := A)) (es : list entry) s a r s1 :
  store_wf s → tx s = None →
  Forall (λ e, spares_receipts (rc_mutation (entry_scope e))) (e :: es) →
  entry_run e s = (Ok (Some a, r), s1) →
  retries (entry_scope e) (entry_scope e') → entry_checks e' = Ok tt →
  ∃ s3, entry_run e' (run_entries es s1) = (retry_answer (entry_scope e') r, s3)
    ∧ same_graph (run_entries es s1) s3.
Proof.
  intros Hs Ht [Hm Hes]%Forall_cons H Hr Hc'. pose proof (entry_run_tx e s Ht) as Ht1.
  destruct (entry_run_steady e Hm) as [Hk _]. destruct (Hk s Hs) as [Hs1 _]. rewrite H in Ht1, Hs1.
  rewrite entry_run_checked in H |- *. apply M_bind_Ok in H as (u & s2 & [_ ->]%lift_Ok & H).
  apply record_first_held in H as (d & n & Hd & Hn & Hof); [|done..].
  destruct (run_entries_steady es s1 d n Hes Hs1 Hn) as [Hs2 Hn2]. rewrite Hc'.
  by eapply record_held; [|apply run_entries_tx| rewrite (retries_digest _ _ Hr)|..].
Qed.

(** ** Witnesses *)

Section witnesses.

#[local] Existing Instance reference_pydantic.
#[local] Existing Instance reference_pydantic_laws.
#[local] Existing Instance epoch_clock.

Definition ex_principal : Principal :=
  {| pn_issuer := "secs"; pn_audience := "devgraph"; pn_actor_id := "a"; pn_session_id := "s"; pn_correlation_id := "c" |}.

Definition ex_recording (i receipt : string) : recording unit named_result :=
  {| rc_principal := ex_principal; rc_operation := "devgraph.work.create.v1"; rc_subject_label := "Task";
     rc_subject_id := i; rc_key := "retry-key-0000000" +:+ i; rc_summary := [("token", VStr "x")];
     rc_mutation := named_execute ex_caller (req_create KTask (ex_fields i));
     rc_request_digest := Some (sha256_hex i); rc_key_digest := Some (sha256_hex ("retry-key-0000000" +:+ i));
     rc_on_result := None; rc_receipt_id := receipt |}.

Lemma ex_recording_spares i r : spares_receipts (rc_mutation (ex_recording i r)).
Proof. apply named_spares. intros j Hj. by apply list_elem_of_singleton in Hj. Qed.

Definition ex_entry (i r : string) : entry (L := unit) (A := named_result) := named_entry (ex_recording i r).

Definition effective (x : res (option named_result * EventReceipt)) : bool :=
  match x with Ok (Some _, _) => true | _ => false end.

Lemma claim_bytes_unambiguous_witness : ∃ x,
  canonical_idempotency_claim_bytes ex_principal "k" = Ok x
  ∧ (pn_issuer ex_principal = "secs" ∧ pn_audience ex_principal = "devgraph" ∧ pn_actor_id ex_principal = "a" ∧ "k" = "k").
Proof.
  eexists. split; [vm_compute; reflexivity|].
  apply (claim_bytes_unambiguous ex_principal
    {| pn_issuer := "secs"; pn_audience := "devgraph"; pn_actor_id := "a"; pn_session_id := "other"; pn_correlation_id := "" |}
    "k" "k" _ eq_refl). vm_compute. reflexivity.
Defined.

Lemma recording_atomic_witness : ∃ a r s1 p s0 s0',
  entry_run (ex_entry "t" "r1") empty_store = (Ok (Some a, r), s1) ∧ receipt_properties r = Ok p
  ∧ rc_mutation (ex_recording "t" "r1") s0 = (Ok a, s0') ∧ edges s0 = []
  ∧ edges s1 = edges s0' ++ [Edge "Task" "t" "EMITTED_EVENT" "EventReceipt" "r1" ∅].
Proof.
  assert (effective (entry_run (ex_entry "t" "r1") empty_store).1 = true) as Hx by (vm_compute; reflexivity).
  destruct (entry_run (ex_entry "t" "r1") empty_store) as [x s1] eqn:E. cbn [fst] in Hx.
  pose proof (recording_atomic _ _ _ _ E) as H. destruct x as [[[a|] r]|]; try discriminate Hx. cbv zeta in H.
  destruct H as (p & s0 & s0' & Hp & _ & _ & He & Hm & _ & He'). exists a, r, s1, p, s0, s0'.
  split; [reflexivity|]. split; [exact Hp|]. split; [exact Hm|]. split; [exact He|exact He'].
Defined.

Lemma retry_exactly_once_witness : ∃ a r s1 s3,
  entry_run (ex_entry "t" "r1") empty_store = (Ok (Some a, r), s1)
  ∧ entry_run (ex_entry "t" "r9") (run_entries [ex_entry "u" "r2"] s1) = (Ok (None, r), s3)
  ∧ same_graph (run_entries [ex_entry "u" "r2"] s1) s3.
Proof.
  assert (effective (entry_run (ex_entry "t" "r1") empty_store).1 = true) as Hx by (vm_compute; reflexivity).
  destruct (entry_run (ex_entry "t" "r1") empty_store) as [x s1] eqn:E. cbn [fst] in Hx.
  destruct x as [[[a|] r]|]; try discriminate Hx.
  destruct (retry_exactly_once (ex_entry "t" "r1") (ex_entry "t" "r9") [ex_entry "u" "r2"] empty_store a r s1)
    as (s3 & H3 & Hg); [apply empty_store_wf|reflexivity| |exact E|repeat split|vm_compute; reflexivity|].
  { constructor; [apply ex_recording_spares|]. constructor; [apply ex_recording_spares|constructor]. }
  exists a, r, s1, s3. split; [reflexivity|]. split; [|exact Hg]. rewrite H3. f_equal.
  unfold retry_answer. assert (_require_matching_scope r "devgraph.work.create.v1" "Task" "t" (Some (sha256_hex "t")) = Ok tt)
    as Hr; [|cbn [entry_scope ex_entry rc_operation rc_subject_label rc_subject_id rc_request_digest ex_recording];
      rewrite Hr; reflexivity].
  rewrite entry_run_checked in E. apply M_bind_Ok in E as (u & s2 & _ & E).
  apply record_first_Ok in E as (d & now & _ & _ & _ & _ & _ & Hr & _).
  unfold first_receipt, new_receipt in Hr. minv. subst r. vm_compute. reflexivity.
Defined.

End witnesses.
