(* ===== verification/Dispatcher.v ===== *)
(** * The dry-run dispatcher of the outbox

    [src/devgraph/events/dispatcher.py]: one pass attempts every receipt that is
    pending or scheduled and due, records the outcome, and schedules failed
    attempts with a doubling delay until the retry budget is spent.
    [fail_receipt] is a function argument.  The arithmetic of [datetime] that the
    delays need is here too: days as ordinals, instants, comparison, and adding
    seconds. *)

From stdpp Require Import base gmap strings list sorting.
From Stdlib Require Import ZArith Ascii String.
From S2P Require Import Prelude Json Sha256 Datetime Validation WorkflowContract Model Redaction Storage StorageWf StorageReads Repository Relationships Sessions Footprint Outbox.

Local Open Scope Z_scope.

(** ** Times *)

Definition days_before_year (y : Z) : Z := (y - 1) * 365 + (y - 1) / 4 - (y - 1) / 100 + (y - 1) / 400.

Definition days_before_month (y m : Z) : Z :=
  foldr Z.add 0 (map (λ i, if i <? m then days_in_month y i else 0) [1; 2; 3; 4; 5; 6; 7; 8; 9; 10; 11]).

(** [date.toordinal]. *)
Definition toordinal (y m d : Z) : Z := days_before_year y + days_before_month y m + d.

(** Microseconds since the first day, in UTC for an aware time. *)
Definition instant (d : datetime) : Z :=
  (toordinal (year d) (month d) (day d) * 86400 + hour d * 3600 + minute d * 60 + second d - default 0 (utcoffset d))
  * 1000000 + microsecond d.

(** [a > b]. *)
Definition datetime_gt (a b : datetime) : res bool :=
  raise_if (xorb (aware a) (aware b)) (TypeError "can't compare offset-naive and offset-aware datetimes");;
  Ok (instant b <? instant a).

Fixpoint repeat_day (step : Z → Z → Z → option (Z * Z * Z)) (n : nat) (x : Z * Z * Z) : option (Z * Z * Z) :=
  match n with
  | O => Some x
  | S n' => y ← step x.1.1 x.1.2 x.2; repeat_day step n' y
  end.

(** The date so many days later; no date is further than 3,652,059 days from
    another. *)
Definition add_days (n : Z) (x : Z * Z * Z) : option (Z * Z * Z) :=
  if 3652059 <? Z.abs n then None
  else if 0 <=? n then repeat_day next_day (Z.to_nat n) x else repeat_day previous_day (Z.to_nat (- n)) x.

(** [d + timedelta(seconds=n)]. *)
Definition add_seconds (d : datetime) (n : Z) : res datetime :=
  let t := hour d * 3600 + minute d * 60 + second d + n in
  match add_days (t / 86400) (year d, month d, day d) with
  | None => Err (OverflowError "date value out of range")
  | Some (y, m, dd) =>
      let u := t mod 86400 in
      Ok (Datetime y m dd (u / 3600) (u / 60 mod 60) (u mod 60) (microsecond d) (utcoffset d))
  end.

(** ** Dispatching *)

Record Dispatcher := {
  dp_fail_receipt : EventReceipt → bool;
  dp_initial_backoff_seconds : Z;
  dp_max_attempts : Z
}.

Definition live (r : EventReceipt) : bool :=
  match er_status r with PENDING | RETRY_SCHEDULED => true | _ => false end.

(** The two tests of [_eligible_receipts]. *)
Definition eligible (now : datetime) (r : EventReceipt) : res bool :=
  if negb (live r) then Ok false else
  match er_next_attempt_at r with
  | None => Ok true
  | Some t => late ← datetime_gt t now; Ok (negb late)
  end.

Fixpoint collect_eligible (now : datetime) (ns : list NodeRecord) : res (list EventReceipt) :=
  match ns with
  | [] => Ok []
  | n :: ns' =>
      r ← EventReceipt_of (nr_id n) (nr_properties n);
      b ← eligible now r;
      rs ← collect_eligible now ns';
      Ok (if (b : bool) then r :: rs else rs)
  end.

Definition _eligible_receipts (now : datetime) (s : Store) : res (list EventReceipt) :=
  ns ← query (Some "EventReceipt") (Some false) false None None s;
  collect_eligible now ns.

(** [timedelta(seconds=initial * 2 ** (attempt_count - 1))]; the fractional delay of
    a stored count below zero is left out (it raises here). *)
Definition _backoff_delay (d : Dispatcher) (attempt_count : Z) : res Z :=
  raise_if (attempt_count <? 1) (TypeError "fractional delay");;
  Ok (dp_initial_backoff_seconds d * 2 ^ (attempt_count - 1)).

(** [dataclasses.replace] with the five fields that a dispatch changes. *)
Definition settle (r : EventReceipt) (st : OutboxStatus) (count : Z) (next : option datetime) (now : datetime)
    (err : string) : res EventReceipt :=
  new_receipt {| er_id := er_id r; er_operation := er_operation r; er_subject_label := er_subject_label r;
    er_subject_id := er_subject_id r; er_actor_id := er_actor_id r; er_session_id := er_session_id r;
    er_correlation_id := er_correlation_id r; er_key_digest := er_key_digest r; er_claim_digest := er_claim_digest r;
    er_request_digest := er_request_digest r; er_key_digest_sha256 := er_key_digest_sha256 r; er_status := st;
    er_attempt_count := count; er_next_attempt_at := next; er_created_at := er_created_at r;
    er_updated_at := Some now; er_summary := er_summary r; er_last_error := err |}.

(** The receipt after one attempt. *)
Definition attempted (d : Dispatcher) (now : datetime) (r : EventReceipt) : res EventReceipt :=
  let attempt_count := er_attempt_count r + 1 in
  if dp_fail_receipt d r then
    if dp_max_attempts d <=? attempt_count then
      settle r FAILED attempt_count None now (redact_text "dry-run dispatch failed; retry budget exhausted")
    else
      delay ← _backoff_delay d attempt_count;
      next ← add_seconds now delay;
      settle r RETRY_SCHEDULED attempt_count (Some next) now (redact_text "dry-run dispatch failed; retry scheduled")
  else settle r DISPATCHED_DRY_RUN attempt_count None now "".

Section dispatch.
  Context `{Pydantic, Clock}.

Definition _dispatch_one (d : Dispatcher) (now : datetime) (r : EventReceipt) : M Store EventReceipt :=
  updated ← lift (attempted d now r);
  p ← lift (receipt_properties updated);
  update_node "EventReceipt" (er_id r) p;;
  mret updated.

Definition dispatch_due (d : Dispatcher) (now : datetime) : M Store (list EventReceipt) :=
  transaction (
    rs ← reads (_eligible_receipts now);
    M_mapM (_dispatch_one d now) rs).

End dispatch.

(** ** Adding seconds moves the instant by them *)

Definition date_ok (y m d : Z) : Prop := 1 <= y <= 9999 ∧ 1 <= m <= 12 ∧ 1 <= d <= days_in_month y m.

Lemma month_cases m : 1 <= m <= 12 →
  m = 1 ∨ m = 2 ∨ m = 3 ∨ m = 4 ∨ m = 5 ∨ m = 6 ∨ m = 7 ∨ m = 8 ∨ m = 9 ∨ m = 10 ∨ m = 11 ∨ m = 12.
Proof. lia. Qed.

Lemma days_in_month_pos y m : 1 <= days_in_month y m.
Proof. unfold days_in_month. repeat case_match; lia. Qed.

Lemma days_before_month_succ y m : 1 <= m < 12 → days_before_month y (m + 1) = days_before_month y m + days_in_month y m.
Proof.
  intros Hm. destruct (month_cases m) as [->|[->|[->|[->|[->|[->|[->|[->|[->|[->|[->| ->]]]]]]]]]]]; try lia;
    unfold days_before_month; cbn [map foldr];
    repeat (match goal with |- context [?a <? ?b] => let v := eval vm_compute in (a <? b) in change (a <? b) with v end);
    cbv iota; lia.
Qed.

Lemma year_days y : 1 <= y →
  days_before_year (y + 1) = days_before_year y + days_before_month y 12 + days_in_month y 12.
Proof.
  intros Hy. rewrite <-Z.add_assoc. replace (days_before_month y 12 + days_in_month y 12) with (365 + Z.b2z (is_leap y)).
  2: { cbn. unfold is_leap, days_in_month. cbn. fold (is_leap y). by destruct (is_leap y). }
  unfold days_before_year, is_leap. replace (y + 1 - 1) with y by lia.
  destruct (Z.eqb_spec (y mod 4) 0), (Z.eqb_spec (y mod 100) 0), (Z.eqb_spec (y mod 400) 0); cbn [andb negb orb Z.b2z];
    Z.to_euclidean_division_equations; lia.
Qed.

Lemma next_day_ordinal y m d y' m' d' : date_ok y m d → next_day y m d = Some (y', m', d') →
  date_ok y' m' d' ∧ toordinal y' m' d' = toordinal y m d + 1.
Proof.
  intros (Hy & Hm & Hd). unfold next_day, date_ok, toordinal.
  destruct (Z.ltb_spec d (days_in_month y m)); [intros [= <- <- <-]; split; lia|].
  destruct (Z.ltb_spec m 12).
  - intros [= <- <- <-]. pose proof (days_in_month_pos y (m + 1)). rewrite days_before_month_succ by lia. split; lia.
  - destruct (Z.ltb_spec y 9999); [|done]. intros [= <- <- <-].
    assert (m = 12) as -> by lia. pose proof (days_in_month_pos (y + 1) 1). rewrite (year_days y) by lia.
    change (days_before_month (y + 1) 1) with 0. split; lia.
Qed.

Lemma repeat_next_day n y m d y' m' d' : date_ok y m d →
  repeat_day next_day n (y, m, d) = Some (y', m', d') →
  date_ok y' m' d' ∧ toordinal y' m' d' = toordinal y m d + Z.of_nat n.
Proof.
  revert y m d. induction n as [|n IH]; intros y m d Hok; cbn [repeat_day].
  - intros [= <- <- <-]. split; [done|lia].
  - cbn [fst snd]. destruct (next_day y m d) as [[[y1 m1] d1]|] eqn:E; [|done]. cbn [mbind option_bind].
    intros H. apply next_day_ordinal in E as [Hok1 E]; [|done]. apply IH in H as [? H]; [|done]. split; [done|lia].
Qed.

Lemma add_seconds_instant d n d' : datetime_ok d = true → 0 <= n → add_seconds d n = Ok d' →
  datetime_ok d' = true ∧ utcoffset d' = utcoffset d ∧ instant d' = instant d + n * 1000000.
Proof.
  intros Hd%datetime_ok_spec Hn. unfold add_seconds, add_days. set (t := hour d * 3600 + minute d * 60 + second d + n).
  assert (0 <= t) by (unfold t; lia). pose proof (Z.div_pos t 86400 ltac:(lia) ltac:(lia)).
  destruct (3652059 <? _); [done|]. destruct (Z.leb_spec 0 (t / 86400)); [|lia].
  destruct (repeat_day _ _ _) as [[[y m] dd]|] eqn:E; [|done]. intros [= <-].
  apply repeat_next_day in E as [(Hy&Hm&Hdd) E]; [|unfold date_ok; lia]. rewrite Z2Nat.id in E by lia.
  pose proof (Z.mod_pos_bound t 86400 ltac:(lia)). pose proof (Z.div_mod t 86400 ltac:(lia)).
  split; [|split; [done|]].
  - apply datetime_ok_spec. cbn [year month day hour minute second microsecond utcoffset].
    split_and!; try lia; try (by apply Hd); Z.to_euclidean_division_equations; lia.
  - unfold instant. cbn [year month day hour minute second microsecond utcoffset]. rewrite E.
    unfold t in *. clear E. Z.to_euclidean_division_equations. lia.
Qed.

(** ** One attempt *)

Lemma datetime_from_storage_ok v o : _datetime_from_storage v = Ok o → time_ok o.
Proof.
  assert (∀ t x, fromisoformat t = Some x → datetime_ok x = true) as Hf.
  { intros t x Hx. unfold fromisoformat in Hx.
    repeat match type of Hx with (_ ≫= _) = Some _ => apply bind_Some in Hx as (? & _ & Hx) end. by case_match; simplify_eq. }
  destruct v; cbn [_datetime_from_storage]; intros H; [by injection H as <-|minv; subst; by eapply Hf..].
Qed.

(** What reading a receipt tells of the stored properties. *)
Lemma EventReceipt_of_Ok i p r : EventReceipt_of i p = Ok r →
  er_id r = i ∧ new_receipt r = Ok r ∧ time_ok (er_created_at r) ∧ time_ok (er_next_attempt_at r)
  ∧ ∀ k o, dict_get k (stored_digests r) = Some o → optional_text k p = Ok o.
Proof.
  unfold EventReceipt_of. intros H.
  do 17 (apply res_bind_Ok in H as (? & ? & H)).
  assert (∀ a b, new_receipt a = Ok b → b = a ∧ new_receipt b = Ok b) as Hnew.
  { intros a b Hab. pose proof Hab as Hab'. unfold new_receipt in Hab'. minv. by subst. }
  apply Hnew in H as [-> Hn]. split; [done|]. split; [done|].
  split; [minv; by eapply datetime_from_storage_ok|]. split; [by eapply datetime_from_storage_ok|].
  intros k o. cbn [stored_digests dict_get er_claim_digest er_key_digest er_request_digest er_key_digest_sha256].
  repeat (case_match; [match goal with H : String.eqb k _ = true |- _ => apply String.eqb_eq in H as -> end; by intros [= <-]|]).
  done.
Qed.

Lemma settle_Ok r st n next now err r' : settle r st n next now err = Ok r' →
  new_receipt r' = Ok r' ∧ er_id r' = er_id r ∧ er_status r' = st ∧ er_attempt_count r' = n
  ∧ er_next_attempt_at r' = next ∧ er_created_at r' = er_created_at r ∧ er_updated_at r' = Some now
  ∧ stored_digests r' = stored_digests r.
Proof. unfold settle. intros H. pose proof H as H'. unfold new_receipt in H' at 1. minv. by subst r'. Qed.

(** The state machine of an attempt: what becomes of the status, the count and
    the next time. *)
Lemma attempted_Ok d now r r' : attempted d now r = Ok r' →
  new_receipt r' = Ok r' ∧ er_id r' = er_id r ∧ er_attempt_count r' = er_attempt_count r + 1
  ∧ er_created_at r' = er_created_at r ∧ er_updated_at r' = Some now ∧ stored_digests r' = stored_digests r
  ∧ (if dp_fail_receipt d r then
       if dp_max_attempts d <=? er_attempt_count r' then er_status r' = FAILED ∧ er_next_attempt_at r' = None
       else er_status r' = RETRY_SCHEDULED ∧ 1 <= er_attempt_count r'
         ∧ ∃ t, er_next_attempt_at r' = Some t
           ∧ add_seconds now (dp_initial_backoff_seconds d * 2 ^ (er_attempt_count r' - 1)) = Ok t
     else er_status r' = DISPATCHED_DRY_RUN ∧ er_next_attempt_at r' = None).
Proof.
  unfold attempted, _backoff_delay. intros H. destruct (dp_fail_receipt d r) eqn:Ef.
  - destruct (_ <=? _) eqn:El.
    + apply settle_Ok in H as (?&?&?&Hc&?&?&?&?). rewrite Hc, El. done.
    + minv. bools. match goal with H : settle _ _ _ _ _ _ = Ok _ |- _ => apply settle_Ok in H as (?&?&?&Hc&?&?&?&?) end.
      subst. rewrite Hc. destruct (Z.leb_spec (dp_max_attempts d) (er_attempt_count r + 1)); [lia|].
      split_and!; try done. eauto.
  - apply settle_Ok in H as (?&?&?&?&?&?&?&?). done.
Qed.

Lemma attempted_time d now r r' : attempted d now r = Ok r' → datetime_ok now = true →
  0 <= dp_initial_backoff_seconds d → time_ok (er_next_attempt_at r').
Proof.
  intros (_&_&_&_&_&_&H)%attempted_Ok Hnow Hb.
  destruct (dp_fail_receipt d r); [destruct (_ <=? _)|]; [by destruct H as [_ ->]| |by destruct H as [_ ->]].
  destruct H as (_ & H1 & t & -> & Ht). eapply add_seconds_instant in Ht; [apply Ht|done|].
  apply Z.mul_nonneg_nonneg; [done|]. apply Z.pow_nonneg. lia.
Qed.

(** ** One pass *)

Section pass.
  Context {PY : Pydantic} {PL : PydanticLaws} {CK : Clock}.
  Context (d : Dispatcher) (now : datetime).
  Context (Hnow : datetime_ok now = true) (Hdelay : 0 <= dp_initial_backoff_seconds d).
  Implicit Types (s : Store) (r : EventReceipt).

Definition receipt_key (r : EventReceipt) : key := ("EventReceipt", er_id r).

(** The storage holds the receipt [r], active and readable. *)
Definition stored_as (s : Store) (r : EventReceipt) : Prop :=
  ∃ n, nodes s !! receipt_key r = Some n ∧ nr_archived n = false ∧ EventReceipt_of (er_id r) (nr_properties n) = Ok r.

Lemma dispatch_one_Ok r s r' s' : stored_as s r → _dispatch_one d now r s = (Ok r', s') →
  attempted d now r = Ok r' ∧ stored_as s' r' ∧ edges s' = edges s
  ∧ ∀ k, k ≠ receipt_key r → nodes s' !! k = nodes s !! k.
Proof.
  intros (n & Hn & Ha & Hr) H. unfold _dispatch_one in H.
  apply M_bind_Ok in H as (u & s1 & [Hu ->]%lift_Ok & H). apply M_bind_Ok in H as (p & s1 & [Hp ->]%lift_Ok & H).
  apply M_bind_Ok in H as (n' & s1 & Hw & [-> ->]%M_ret_Ok).
  apply update_node_Ok in Hw as (old & np & Hold & -> & _ & _ & Hnp & Harch & _ & Hpp).
  change (nodes s !! ("EventReceipt", er_id r)) with (nodes s !! receipt_key r) in Hold. rewrite Hn in Hold.
  injection Hold as <-. change (_is_canonical_payload "EventReceipt" (nr_properties n) || _is_canonical_payload "EventReceipt" p)
    with false in Harch, Hpp. rewrite Ha in Harch. specialize (Hpp eq_refl). subst np. simpl in Harch.
  pose proof Hu as (Hnew & Hid & _ & Hc & Hup & Hdig & _)%attempted_Ok.
  split; [done|]. split; [|split; [done|]].
  - exists n'. unfold receipt_key. rewrite Hid. simpl. rewrite lookup_insert_eq. split; [done|]. split; [done|].
    pose proof Hr as (_ & _ & Htc & _ & Hod)%EventReceipt_of_Ok.
    apply receipt_properties_lookup in Hp as (created & updated & Ec & Eu & HP).
    rewrite <-Hid, Hnp. apply (receipt_read u _ created updated); try done.
    + intros k v Hk. apply lookup_union_Some_l. by rewrite HP, (stored_disjoint _ _ _ _ _ Hk).
    + intros k o Hk. unfold optional_text. rewrite lookup_union, HP, Hk.
      destruct o as [x|]; simpl; [by destruct (_ !! k)|].
      rewrite Hdig in Hk. apply Hod in Hk. unfold optional_text in Hk. by destruct (nr_properties n !! k).
    + by eapply attempted_time.
    + rewrite Hc in Ec. by rewrite Ec in Htc.
    + rewrite Hup in Eu. by injection Eu as <-.
  - intros k Hk. simpl. by rewrite lookup_insert_ne.
Qed.

Lemma dispatch_all_Ok rs s rs' s' : NoDup (map er_id rs) → Forall (stored_as s) rs →
  M_mapM (_dispatch_one d now) rs s = (Ok rs', s') →
  res_mapM (attempted d now) rs = Ok rs' ∧ edges s' = edges s ∧ Forall (stored_as s') rs'
  ∧ map er_id rs' = map er_id rs
  ∧ ∀ k, k ∉ map receipt_key rs → nodes s' !! k = nodes s !! k.
Proof.
  revert s rs'. induction rs as [|r rs IH]; intros s rs' Hnd Hst H; simpl in H.
  - apply M_ret_Ok in H as [-> ->]. done.
  - apply M_bind_Ok in H as (r1 & s1 & H1 & H). apply M_bind_Ok in H as (rs1 & s2 & H2 & [-> ->]%M_ret_Ok).
    apply Forall_cons in Hst as [Hr Hst]. apply NoDup_cons in Hnd as [Hni Hnd].
    apply dispatch_one_Ok in H1 as (Hat & Hr1 & He1 & Hn1); [|done].
    assert (er_id r1 = er_id r) as Hid by (by apply attempted_Ok in Hat as (_&?&_)).
    assert (∀ r2, er_id r2 ∈ map er_id rs → receipt_key r2 ≠ receipt_key r) as Hfresh.
    { intros r2 Hr2 [= Heq]. apply Hni. by rewrite <-Heq. }
    apply IH in H2 as (Hats & He2 & Hst2 & Hids & Hn2); [|done|].
    2: { rewrite Forall_forall in *. intros r2 Hr2. destruct (Hst r2 Hr2) as (n & Hn & ? & ?).
      exists n. rewrite Hn1; [done|]. apply Hfresh. apply list_elem_of_In, in_map, list_elem_of_In, Hr2. }
    assert (∀ k, k ∉ receipt_key r :: map receipt_key rs → nodes s2 !! k = nodes s !! k) as Hkeep.
    { intros k [Hk Hks]%not_elem_of_cons. rewrite Hn2, Hn1; done. }
    split; [simpl; rewrite Hat; cbn [mbind res_bind]; by rewrite Hats|].
    split; [congruence|]. split; [constructor; [|done]|split; [simpl; by rewrite Hid, Hids|done]].
    destruct Hr1 as (n & Hn & ?). exists n. split; [|done]. rewrite Hn2; [done|]. unfold receipt_key. rewrite Hid.
    intros Hin. apply list_elem_of_In, in_map_iff in Hin as (r2 & [= Heq] & Hin).
    apply Hni. rewrite <-Heq. by apply list_elem_of_In, in_map.
Qed.

Lemma receipts_query s : query (Some "EventReceipt") (Some false) false None None s
  = Ok (selected "EventReceipt" (Some false) false s).
Proof. rewrite query_label. cbn [mbind res_bind]. cbv zeta. by rewrite filter_true. Qed.

Lemma collect_eligible_Ok ns rs : collect_eligible now ns = Ok rs →
  sublist (map er_id rs) (map nr_id ns)
  ∧ ∀ r, r ∈ rs ↔ ∃ n, n ∈ ns ∧ EventReceipt_of (nr_id n) (nr_properties n) = Ok r ∧ eligible now r = Ok true.
Proof.
  revert rs. induction ns as [|n ns IH]; intros rs; simpl.
  - intros [= <-]. split; [done|]. intros r. split; [by intros ?%not_elem_of_nil|]. by intros (?&?%not_elem_of_nil&_).
  - intros H. apply res_bind_Ok in H as (r & Hr & H). apply res_bind_Ok in H as (b & Hb & H).
    apply res_bind_Ok in H as (rs' & Hrs & [= <-]). apply IH in Hrs as [Hsub Hel].
    assert (er_id r = nr_id n) as Hid by (by apply EventReceipt_of_Ok in Hr as [? _]).
    split; [destruct b; simpl; [rewrite Hid|]; by constructor|]. intros x. setoid_rewrite elem_of_cons. split.
    + destruct b; [rewrite elem_of_cons; intros [->|Hx]; [by exists n; eauto|]|intros Hx];
        apply Hel in Hx as (m & ? & ?); eauto.
    + intros (m & [->|Hm] & Hx & He); [|destruct b; rewrite ?elem_of_cons; [right|]; apply Hel; eauto].
      rewrite Hr in Hx. injection Hx as ->. rewrite Hb in He. injection He as ->. apply elem_of_cons. by left.
Qed.

Lemma eligible_receipts_Ok s rs : store_wf s → _eligible_receipts now s = Ok rs →
  NoDup (map er_id rs) ∧ ∀ r, r ∈ rs ↔ stored_as s r ∧ eligible now r = Ok true.
Proof.
  intros Hs H. unfold _eligible_receipts in H. rewrite receipts_query in H. cbn [mbind res_bind] in H.
  apply collect_eligible_Ok in H as [Hsub Hel]. split.
  - eapply sublist_NoDup; [|exact Hsub]. pose proof (selected_sorted "EventReceipt" (Some false) false s Hs) as Hso.
    clear -Hso. induction Hso as [|n l Hl IH Hn]; simpl; constructor; [|done].
    intros (m & Heq & Hm)%list_elem_of_In%in_map_iff. rewrite Forall_forall in Hn. apply list_elem_of_In in Hm.
    specialize (Hn m Hm). unfold id_before in Hn. rewrite Heq in Hn. by rewrite str_ltb_irrefl in Hn.
  - intros r. rewrite Hel. setoid_rewrite elem_of_selected; [|done]. unfold stored_as, receipt_key. split.
    + intros (n & [Hn Ha] & Hr & He). pose proof Hr as [-> _]%EventReceipt_of_Ok. split; [|done]. exists n. eauto.
    + intros [(n & Hn & Ha & Hr) He]. pose proof (nw_key _ _ (sw_nodes s Hs _ _ Hn)) as [= _ Hk].
      exists n. rewrite Hk. split_and!; try done. by intros b [= <-].
Qed.

End pass.

(** ** Properties *)

Section properties.
  Context {PY : Pydantic} {PL : PydanticLaws} {CK : Clock}.
  Implicit Types (s : Store) (r : EventReceipt).

Lemma dispatch_due_keeps d now : keeps (dispatch_due d now).
Proof. unfold dispatch_due, _dispatch_one. keeps_solve. Qed.

Definition usable (d : Dispatcher) (now : datetime) : Prop :=
  datetime_ok now = true ∧ 0 <= dp_initial_backoff_seconds d.

Lemma dispatch_due_spec d now s x s' : store_wf s → usable d now → dispatch_due d now s = (x, s') →
  edges s' = edges s
  ∧ match x with
    | Err _ => nodes s' = nodes s
    | Ok rs' => ∃ rs, NoDup (map er_id rs) ∧ (∀ r, r ∈ rs ↔ stored_as s r ∧ eligible now r = Ok true)
        ∧ res_mapM (attempted d now) rs = Ok rs' ∧ Forall (stored_as s') rs'
        ∧ ∀ k, k ∉ map receipt_key rs → nodes s' !! k = nodes s !! k
    end.
Proof.
  intros Hs [Hnow Hd] H. destruct x as [rs'|e].
  - apply transaction_graph in H as (s0 & s1 & H & [Hn0 He0] & [_ Hwf] & [Hn1 He1]).
    apply M_bind_Ok in H as (rs & s2 & [Hrs ->]%reads_Ok & H).
    apply eligible_receipts_Ok in Hrs as [Hnd Hel]; [|by apply Hwf].
    assert (∀ r, stored_as s0 r ↔ stored_as s r) as Hst0 by (intros r; unfold stored_as; by rewrite Hn0).
    assert (∀ r, stored_as s1 r ↔ stored_as s' r) as Hst1 by (intros r; unfold stored_as; by rewrite Hn1).
    apply dispatch_all_Ok in H as (Hat & He & Hst & _ & Hk); [|done..|]; cycle 1.
    { apply Forall_forall. intros r Hr. by apply Hel. }
    split; [congruence|]. exists rs. split; [done|]. split; [by setoid_rewrite <-Hst0|]. split; [done|]. split.
    + eapply Forall_impl; [exact Hst|]. intros r. by rewrite Hst1.
    + intros k Hk'. rewrite Hn1, <-Hn0. by apply Hk.
  - by apply transaction_Err in H as (? & _ & ? & _).
Qed.

Lemma stored_as_inj s r r' : stored_as s r → stored_as s r' → er_id r = er_id r' → r = r'.
Proof. intros (n & Hn & _ & Hr) (n' & Hn' & _ & Hr') Hid. unfold receipt_key in *. rewrite Hid in *. congruence. Qed.

Lemma res_mapM_elem {A B} (f : A → res B) l l' y : res_mapM f l = Ok l' → y ∈ l' → ∃ x, x ∈ l ∧ f x = Ok y.
Proof.
  revert l'. induction l as [|x l IH]; intros l' H; simpl in H.
  - minv. subst. by intros ?%not_elem_of_nil.
  - apply res_bind_Ok in H as (z & Hz & H). apply res_bind_Ok in H as (zs & Hzs & [= <-]).
    intros [->|Hy]%elem_of_cons; [exists x; split; [by left|done]|].
    apply (IH _ Hzs) in Hy as (x' & ? & ?). exists x'. split; [by right|done].
Qed.

(** Key by key, a pass either leaves a record alone or records an attempt on it. *)
Lemma dispatch_due_record d now s k : store_wf s → usable d now →
  nodes (dispatch_due d now s).2 !! k = nodes s !! k
  ∨ ∃ r r', k = receipt_key r ∧ stored_as s r ∧ eligible now r = Ok true ∧ attempted d now r = Ok r'
      ∧ stored_as (dispatch_due d now s).2 r'.
Proof.
  intros Hs Hu. destruct (dispatch_due d now s) as [x s'] eqn:H. apply dispatch_due_spec in H as [_ H]; [|done..].
  simpl. destruct x as [rs'|e]; [|left; by rewrite H]. destruct H as (rs & Hnd & Hel & Hat & Hst & Hk).
  destruct (decide (k ∈ map receipt_key rs)) as [Hin|Hni]; [right|left; by apply Hk].
  apply list_elem_of_In, in_map_iff in Hin as (r & <- & Hr%list_elem_of_In).
  assert (∃ r', r' ∈ rs' ∧ attempted d now r = Ok r') as (r' & Hr' & Hrr').
  { clear -Hat Hr. revert rs' Hat. induction rs as [|x rs IH]; intros rs' H; [by apply not_elem_of_nil in Hr|].
    simpl in H. apply res_bind_Ok in H as (z & Hz & H). apply res_bind_Ok in H as (zs & Hzs & [= <-]).
    apply elem_of_cons in Hr as [->|Hr]; [exists z; split; [by left|done]|].
    destruct (IH Hr zs Hzs) as (r' & ? & ?). exists r'. split; [by right|done]. }
  exists r, r'. apply Hel in Hr as [? ?]. rewrite Forall_forall in Hst. split_and!; eauto.
Qed.

(** C27: One pass attempts exactly the receipts that are stored, active, pending or
    scheduled, and due: the result lists their outcomes, each outcome is stored
    and read back as reported, and every other record and every edge is as
    before; a pass that raises changes nothing. *)
Theorem dispatch_exact d now s x s' : store_wf s → usable d now → dispatch_due d now s = (x, s') →
  edges s' = edges s
  ∧ match x with
    | Err _ => nodes s' = nodes s
    | Ok rs' => ∃ rs, NoDup (map er_id rs) ∧ (∀ r, r ∈ rs ↔ stored_as s r ∧ eligible now r = Ok true)
        ∧ res_mapM (attempted d now) rs = Ok rs' ∧ Forall (stored_as s') rs'
        ∧ ∀ k, k ∉ map receipt_key rs → nodes s' !! k = nodes s !! k
    end.
Proof. apply dispatch_due_spec. Qed.

Definition run_passes (ps : list (Dispatcher * datetime)) (s : Store) : Store :=
  foldl (λ s p, (dispatch_due p.1 p.2 s).2) s ps.

(** Receipts within the retry budget. *)
Definition within_budget (m : Z) (s : Store) : Prop :=
  ∀ r, stored_as s r → er_attempt_count r <= m ∧ (live r = true → er_attempt_count r < m).

Lemma dispatch_due_budget d now s : store_wf s → usable d now → within_budget (dp_max_attempts d) s →
  within_budget (dp_max_attempts d) (dispatch_due d now s).2.
Proof.
  intros Hs Hu Hb r Hr. destruct (dispatch_due_record d now s (receipt_key r) Hs Hu) as [Hk|(r0&r1&Hk&Hr0&He&Hat&Hr1)].
  - apply Hb. destruct Hr as (n & Hn & ?). exists n. by rewrite <-Hk.
  - pose proof Hat as (_&Hid&Hc&_&_&_&Hst)%attempted_Ok. injection Hk as Hk.
    assert (r = r1) as -> by (eapply stored_as_inj; [done..|]; congruence).
    assert (live r0 = true) as Hl by (unfold eligible in He; by destruct (live r0)).
    destruct (Hb r0 Hr0) as [_ Hb0]. specialize (Hb0 Hl). split; [lia|]. intros Hl1. unfold live in Hl1.
    destruct (dp_fail_receipt d r0); [|by destruct Hst as [Hs1 _]; rewrite Hs1 in Hl1].
    destruct (Z.leb_spec (dp_max_attempts d) (er_attempt_count r1)); [|lia]. destruct Hst as [Hs1 _].
    by rewrite Hs1 in Hl1.
Qed.

(** The retry budget holds over any sequence of passes at any times and with any
    failures: no receipt is attempted more than [max_attempts] times, a receipt
    still to be tried has attempts left, and one that was delivered or gave up
    is never touched again. *)
Theorem attempts_bounded m ps s : store_wf s → within_budget m s →
  Forall (λ p, usable p.1 p.2 ∧ dp_max_attempts p.1 = m) ps →
  within_budget m (run_passes ps s)
  ∧ ∀ r, stored_as s r → live r = false → nodes (run_passes ps s) !! receipt_key r = nodes s !! receipt_key r.
Proof.
  intros Hs Hb Hps. revert s Hs Hb. induction Hps as [|[d now] ps [Hu <-] _ IH]; intros s Hs Hb; [done|].
  destruct (dispatch_due_keeps d now s Hs) as [Hs1 _]. simpl in *.
  pose proof (dispatch_due_budget d now s Hs Hu Hb) as Hb1. destruct (IH _ Hs1 Hb1) as [Hb2 Hfix].
  split; [done|]. intros r Hr Hl.
  assert (nodes (dispatch_due d now s).2 !! receipt_key r = nodes s !! receipt_key r) as Hk.
  { destruct (dispatch_due_record d now s (receipt_key r) Hs Hu) as [Hk|(r0&r1&[= Hk]&Hr0&He&_)]; [done|].
    assert (r = r0) as -> by (by eapply stored_as_inj). unfold eligible in He. by rewrite Hl in He. }
  rewrite Hfix; [done| |done]. destruct Hr as (n & Hn & ?). exists n. by rewrite Hk.
Qed.

(** A failed attempt waits: after the n-th failure of a receipt at [now], no pass
    earlier than [initial_backoff_seconds * 2 ^ (n - 1)] seconds later touches
    its record, whatever the dispatcher of that pass. *)
Theorem retries_wait d d' now now' s rs s1 r :
  store_wf s → usable d now → usable d' now' → aware now' = aware now →
  dispatch_due d now s = (Ok rs, s1) → r ∈ rs → er_status r = RETRY_SCHEDULED →
  instant now' < instant now + dp_initial_backoff_seconds d * 2 ^ (er_attempt_count r - 1) * 1000000 →
  nodes (dispatch_due d' now' s1).2 !! receipt_key r = nodes s1 !! receipt_key r.
Proof.
  intros Hs Hu Hu' Haw H Hr Hst Hlt. pose proof (dispatch_due_keeps d now s Hs) as [Hs1 _]. rewrite H in Hs1. simpl in Hs1.
  apply dispatch_due_spec in H as (_ & rs0 & _ & _ & Hat & Hstored & _); [|done..].
  rewrite Forall_forall in Hstored. specialize (Hstored r Hr).
  destruct (res_mapM_elem _ _ _ _ Hat Hr) as (r0 & _ & (_&_&_&_&_&_&Hsm)%attempted_Ok).
  destruct (dispatch_due_record d' now' s1 (receipt_key r) Hs1 Hu') as [Hk|(r1&r2&[= Hk]&Hr1&He&_)]; [done|]. exfalso.
  assert (r = r1) as <- by (by eapply stored_as_inj). destruct Hu as [Hnow Hd].
  destruct (dp_fail_receipt d r0); [destruct (_ <=? _)|]; destruct Hsm as [Hs' Hsm]; try congruence.
  destruct Hsm as (Hc & t & Ht & Hadd). apply add_seconds_instant in Hadd as (_ & Hoff & Hin); [|done|].
  2: { apply Z.mul_nonneg_nonneg; [done|]. apply Z.pow_nonneg. lia. }
  unfold eligible in He. rewrite Ht in He. unfold live in He. rewrite Hst in He. cbn [negb] in He.
  unfold datetime_gt in He. assert (aware t = aware now') as Ha by (rewrite Haw; unfold aware; by rewrite Hoff).
  rewrite Ha, xorb_nilpotent in He. cbn [raise_if mbind res_bind] in He.
  destruct (Z.ltb_spec (instant now') (instant t)); [done|lia].
Qed.

End properties.

(** ** Witnesses *)

Section witnesses.

#[local] Existing Instance reference_pydantic.
#[local] Existing Instance reference_pydantic_laws.
#[local] Existing Instance epoch_clock.

Definition ex_outbox : Store := run_entries [ex_entry "t" "r1"; ex_entry "u" "r2"] empty_store.

Definition ex_dispatcher : Dispatcher :=
  {| dp_fail_receipt := λ r, String.eqb (er_id r) "r1"; dp_initial_backoff_seconds := 60; dp_max_attempts := 2 |}.

Definition at_minute (m : Z) : datetime := Datetime 2024 1 1 0 m 0 0 (Some 0).

Lemma ex_usable m : datetime_ok (at_minute m) = true → usable ex_dispatcher (at_minute m).
Proof. by split. Qed.

Definition budget_check (m : Z) (s : Store) : bool :=
  forallb (λ n, match EventReceipt_of (nr_id n) (nr_properties n) with
                | Ok r => (er_attempt_count r <=? m) && implb (live r) (er_attempt_count r <? m)
                | Err _ => true
                end) (all_nodes s).

Lemma budget_check_sound m s : store_wf s → budget_check m s = true → within_budget m s.
Proof.
  intros Hs Hc r (n & Hn & _ & Hr). unfold budget_check in Hc. rewrite forallb_forall in Hc.
  pose proof (nw_key _ _ (sw_nodes s Hs _ _ Hn)) as Hk. specialize (Hc n). rewrite <-list_elem_of_In, elem_of_all_nodes in Hc by done.
  rewrite Hk in Hc. specialize (Hc Hn). injection Hk as _ Hk. rewrite Hk, Hr in Hc. bools. split; [done|].
  intros Hl. rewrite Hl in *. simpl in *. lia.
Qed.

Lemma ex_outbox_wf : store_wf ex_outbox.
Proof.
  unfold ex_outbox, run_entries. cbn [foldl].
  assert (∀ i r, keeps (entry_run (ex_entry i r))) as Hk by (intros i r; apply entry_run_steady, ex_recording_spares).
  exact (proj1 (Hk _ _ _ (proj1 (Hk _ _ _ empty_store_wf)))).
Qed.

(** The statuses that a pass reports, by receipt. *)
Definition reported (x : res (list EventReceipt)) : list (string * OutboxStatus * Z) :=
  match x with Ok rs => map (λ r, (er_id r, er_status r, er_attempt_count r)) rs | Err _ => [] end.

Lemma dispatch_exact_witness : ∃ rs s1,
  dispatch_due ex_dispatcher (at_minute 0) ex_outbox = (Ok rs, s1)
  ∧ reported (Ok rs) = [("r1", RETRY_SCHEDULED, 1); ("r2", DISPATCHED_DRY_RUN, 1)]
  ∧ Forall (stored_as s1) rs.
Proof.
  assert (reported (dispatch_due ex_dispatcher (at_minute 0) ex_outbox).1
    = [("r1", RETRY_SCHEDULED, 1); ("r2", DISPATCHED_DRY_RUN, 1)]) as Hx by (vm_compute; reflexivity).
  destruct (dispatch_due ex_dispatcher (at_minute 0) ex_outbox) as [x s1] eqn:E. cbn [fst] in Hx.
  pose proof (dispatch_exact _ _ _ _ _ ex_outbox_wf (ex_usable 0 eq_refl) E) as [_ H].
  destruct x as [rs|]; [|discriminate Hx]. destruct H as (_ & _ & _ & _ & H & _). exists rs, s1.
  split; [reflexivity|]. split; [exact Hx|exact H].
Defined.

Lemma attempts_bounded_witness :
  within_budget 2 (run_passes [(ex_dispatcher, at_minute 0); (ex_dispatcher, at_minute 1); (ex_dispatcher, at_minute 2)] ex_outbox)
  ∧ reported (dispatch_due ex_dispatcher (at_minute 1) (run_passes [(ex_dispatcher, at_minute 0)] ex_outbox)).1
    = [("r1", FAILED, 2)].
Proof.
  split; [|vm_compute; reflexivity].
  apply (attempts_bounded 2 [(ex_dispatcher, at_minute 0); (ex_dispatcher, at_minute 1); (ex_dispatcher, at_minute 2)] ex_outbox).
  - apply ex_outbox_wf.
  - apply budget_check_sound; [apply ex_outbox_wf|vm_compute; reflexivity].
  - repeat (constructor; [split; [by apply ex_usable|reflexivity]|]). constructor.
Defined.

Lemma retries_wait_witness : ∃ rs s1 r,
  dispatch_due ex_dispatcher (at_minute 5) ex_outbox = (Ok rs, s1) ∧ r ∈ rs
  ∧ nodes (dispatch_due ex_dispatcher (at_minute 5) s1).2 !! receipt_key r = nodes s1 !! receipt_key r.
Proof.
  assert (reported (dispatch_due ex_dispatcher (at_minute 5) ex_outbox).1
    = [("r1", RETRY_SCHEDULED, 1); ("r2", DISPATCHED_DRY_RUN, 1)]) as Hx by (vm_compute; reflexivity).
  destruct (dispatch_due ex_dispatcher (at_minute 5) ex_outbox) as [x s1] eqn:E. cbn [fst] in Hx.
  destruct x as [[|r rs]|]; [discriminate Hx| |discriminate Hx]. injection Hx as Hid Hst Hc _.
  exists (r :: rs), s1, r. split; [reflexivity|]. split; [left|].
  apply (retries_wait ex_dispatcher ex_dispatcher (at_minute 5) (at_minute 5) ex_outbox (r :: rs) s1 r); try assumption.
  - apply ex_outbox_wf.
  - by apply ex_usable.
  - by apply ex_usable.
  - reflexivity.
  - left.
  - rewrite Hc. vm_compute. reflexivity.
Defined.

End witnesses.
