(* ===== verification/Grants.v ===== *)
(** * Grants and their attenuation

    The vocabulary and the decisions of authorization that need no storage:
    [src/devgraph/auth/scopes.py], [auth/grant_validity.py],
    [auth/delegated_contract.py] (read grants, credential profiles and manifests)
    and [auth/access_policy.py] (write grants and access drafts).  A grant is a
    ceiling; each contract has a subset test that a narrowed grant must pass, and
    the theorems say that what passes admits nothing its ceiling does not.

    Fields that the source reads with [getattr] and a default ([resource_paths],
    [arena_ids], [all_arenas]) are fields of one record or constructor here. *)

From stdpp Require Import base gmap strings list sorting.
From Stdlib Require Import ZArith Ascii String DecimalString.
From Stdlib Require DecimalFacts.
From S2P Require Import Prelude Json Sha256 Datetime Validation WorkflowContract StrictJson Model Storage StorageWf StorageReads ResourcePaths Delegated Requests Redaction Outbox Dispatcher.

Local Open Scope Z_scope.

(** ** Scopes and categories *)

Definition REQUIRED_SCOPE_BY_CATEGORY : list (string * string) :=
  [("read", "devgraph.read"); ("write", "devgraph.write"); ("admin", "devgraph.admin");
   ("export.internal", "devgraph.export.internal"); ("export.redacted", "devgraph.export.redacted");
   ("tool.use", "devgraph.tool.use"); ("skill.use", "devgraph.skill.use")].

Definition ALL_SCOPES : list string := REQUIRED_SCOPE_BY_CATEGORY.*2.

Definition ALL_CATEGORIES : list string := REQUIRED_SCOPE_BY_CATEGORY.*1.

(** ** Validity *)

Definition MAX_SAFE : Z := 9007199254740991.

Definition invalid_validity : exn := ValueError "invalid grant validity".

Definition _seconds (v : value) : res Z :=
  match v with
  | VInt z => raise_if (negb ((0 <=? z) && (z <=? MAX_SAFE))) invalid_validity;; Ok z
  | _ => Err invalid_validity
  end.

Record GrantValidity := { gv_not_before : Z; gv_not_after : option Z }.

#[export] Instance GrantValidity_eq_dec : EqDecision GrantValidity.
Proof. solve_decision. Defined.

(** [GrantValidity.__post_init__]. *)
Definition new_validity (not_before : value) (not_after : option value) : res GrantValidity :=
  a ← _seconds not_before;
  match not_after with
  | None => Ok {| gv_not_before := a; gv_not_after := None |}
  | Some v =>
      b ← _seconds v;
      raise_if (b <=? a) (ValueError "invalid grant interval");;
      Ok {| gv_not_before := a; gv_not_after := Some b |}
  end.

Definition dated (not_before not_after : value) : res GrantValidity :=
  _seconds not_after;; new_validity not_before (Some not_after).

Definition until_revoked (not_before : value) : res GrantValidity := new_validity not_before None.

(** The reader with [_unique_pairs]. *)
Definition unique_hooks : json_hooks :=
  {| object_pairs := object_from_pairs []; parse_int := Some; parse_float := Some; parse_constant := Some |}.

Definition VALIDITY_SCHEMA : string := "castalia.grant-validity.v1".

(** [value["not_before"]], present by the test on the keys. *)
Definition validity_field (k : string) (d : list (string * value)) : value := default VNone (dict_get k d).

Definition parse_validity (raw : string) : res GrantValidity :=
  raise_if (1024 <? str_len raw) invalid_validity;;
  text ← of_option invalid_validity (utf8_decode raw);
  v ← of_option invalid_validity (loads_with unique_hooks text);
  match v with
  | VDict d =>
      raise_if (negb (bool_decide (dict_get "schema" d = Some (VStr VALIDITY_SCHEMA))))
        (ValueError "unsupported grant validity");;
      if bool_decide (dict_get "mode" d = Some (VStr "dated"))
         && bool_decide (list_to_set (d.*1) =@{gset string} {["schema"; "mode"; "not_before"; "not_after"]}) then
        dated (validity_field "not_before" d) (validity_field "not_after" d)
      else if bool_decide (dict_get "mode" d = Some (VStr "until_revoked"))
              && bool_decide (list_to_set (d.*1) =@{gset string} {["schema"; "mode"; "not_before"]}) then
        until_revoked (validity_field "not_before" d)
      else Err invalid_validity
  | _ => Err (ValueError "unsupported grant validity")
  end.

Definition validity_to_json (g : GrantValidity) : string :=
  let d := match gv_not_after g with
           | None => [("mode", VStr "until_revoked"); ("not_before", VInt (gv_not_before g)); ("schema", VStr VALIDITY_SCHEMA)]
           | Some b => [("mode", VStr "dated"); ("not_after", VInt b); ("not_before", VInt (gv_not_before g));
                        ("schema", VStr VALIDITY_SCHEMA)]
           end in
  utf8_encode (dumps true (VDict d)).

Definition contains (g : GrantValidity) (now : Z) : res bool :=
  _seconds (VInt now);;
  Ok ((gv_not_before g <=? now) && match gv_not_after g with None => true | Some b => now <? b end).

Definition validity_contained_by (g parent : GrantValidity) : bool :=
  (gv_not_before parent <=? gv_not_before g)
  && match gv_not_after parent, gv_not_after g with
     | None, _ => true
     | Some p, Some b => b <=? p
     | Some _, None => false
     end.

Definition credential_deadline (g : GrantValidity) (now lifetime : Z) : res Z :=
  active ← contains g now;
  raise_if (negb active || negb ((1 <=? lifetime) && (lifetime <=? 3600)))
    (ValueError "grant inactive or invalid credential lifetime");;
  let deadline := now + lifetime in
  _seconds (VInt (match gv_not_after g with Some b => Z.min deadline b | None => deadline end)).

(** *** Validity documents are read back as written *)

Definition validity_ok (g : GrantValidity) : Prop :=
  0 <= gv_not_before g <= MAX_SAFE
  ∧ match gv_not_after g with None => True | Some b => gv_not_before g < b <= MAX_SAFE end.

Lemma seconds_Ok v z : _seconds v = Ok z ↔ v = VInt z ∧ 0 <= z <= MAX_SAFE.
Proof.
  destruct v; simpl; split; try done; try (by intros [? _]).
  - intros H. minv. subst. bools. split; [done|lia].
  - intros [[= ->] H]. unfold raise_if. destruct (Z.leb_spec 0 z); [|lia]. destruct (Z.leb_spec z MAX_SAFE); [|lia]. done.
Qed.

Lemma new_validity_ok a o g : new_validity a o = Ok g → validity_ok g.
Proof.
  unfold new_validity, validity_ok. intros H. apply res_bind_Ok in H as (x & [_ Hx]%seconds_Ok & H).
  destruct o as [v|]; [|by injection H as <-].
  apply res_bind_Ok in H as (y & [_ Hy]%seconds_Ok & H). minv. subst. bools. simpl. lia.
Qed.

Lemma new_validity_of g : validity_ok g → new_validity (VInt (gv_not_before g)) (VInt <$> gv_not_after g) = Ok g.
Proof.
  destruct g as [a o]; intros [Ha Hb]; cbn [gv_not_before gv_not_after] in *. unfold new_validity.
  rewrite (proj2 (seconds_Ok (VInt a) a)) by done. cbn [mbind res_bind]. destruct o as [b|]; [|done]. cbn [fmap option_fmap option_map].
  rewrite (proj2 (seconds_Ok (VInt b) b)) by (split; [done|lia]). cbn [mbind res_bind].
  unfold raise_if. by destruct (Z.leb_spec b a); [lia|].
Qed.

Lemma little_digits k p : Zpos p < 2 ^ Z.of_nat k → (Decimal.nb_digits (Pos.to_little_uint p) <= k)%nat.
Proof.
  assert (∀ d, (Decimal.nb_digits (Decimal.Little.double d) <= S (Decimal.nb_digits d))%nat
             ∧ (Decimal.nb_digits (Decimal.Little.succ_double d) <= S (Decimal.nb_digits d))%nat) as Hd.
  { induction d; simpl; lia. }
  revert p. induction k as [|k IH]; intros p Hp; [simpl in Hp; lia|].
  rewrite Nat2Z.inj_succ, Z.pow_succ_r in Hp by lia.
  destruct p as [p|p|]; simpl; [| |lia];
    [destruct (Hd (Pos.to_little_uint p)) as [_ H]|destruct (Hd (Pos.to_little_uint p)) as [H _]];
    specialize (IH p ltac:(lia)); lia.
Qed.

Lemma print_int_length z : 0 <= z <= MAX_SAFE → (String.length (print_int z) <= 53)%nat.
Proof.
  assert (∀ d, String.length (NilEmpty.string_of_uint d) = Decimal.nb_digits d) as Hl by (by induction d; simpl; [|f_equal..]).
  intros Hz. unfold print_int, NilZero.string_of_int. destruct z as [|p|p]; [simpl; lia| |lia].
  unfold Z.to_int, Pos.to_uint. assert (Zpos p < 2 ^ Z.of_nat 53) as Hp by (change (2 ^ Z.of_nat 53) with (MAX_SAFE + 1); lia).
  apply little_digits in Hp. rewrite <-DecimalFacts.nb_digits_rev in Hp.
  unfold NilZero.string_of_uint. destruct (Decimal.rev _); simpl; [lia|..]; simpl in Hp; rewrite Hl; lia.
Qed.

Lemma utf8_encode_length s : (String.length (utf8_encode s) <= 2 * String.length s)%nat.
Proof.
  induction s as [|c s IH]; [done|]. cbn [utf8_encode]. destruct (_ <? _)%N; cbn [String.length]; lia.
Qed.

Definition validity_fields (g : GrantValidity) : list (string * value) :=
  match gv_not_after g with
  | None => [("mode", VStr "until_revoked"); ("not_before", VInt (gv_not_before g)); ("schema", VStr VALIDITY_SCHEMA)]
  | Some b => [("mode", VStr "dated"); ("not_after", VInt b); ("not_before", VInt (gv_not_before g));
               ("schema", VStr VALIDITY_SCHEMA)]
  end.

(** The length of a printed dictionary with literal keys. *)
Ltac dict_length :=
  rewrite mk_dict_id by repeat constructor; cbn [map join fst snd]; rewrite !str_length_app;
  repeat match goal with |- context [String.length (quote ?b ?s)] =>
    let v := eval vm_compute in (String.length (quote b s)) in change (String.length (quote b s)) with v end;
  cbn [String.length]; lia.

Lemma validity_json_length g : validity_ok g → str_len (validity_to_json g) <= 1024.
Proof.
  intros [Ha Hb]. unfold str_len, validity_to_json. fold (validity_fields g).
  pose proof (utf8_encode_length (dumps true (VDict (validity_fields g)))).
  enough (String.length (dumps true (VDict (validity_fields g))) <= 300)%nat by lia.
  pose proof (print_int_length _ Ha). destruct g as [a [b|]]; cbn [gv_not_before gv_not_after] in *.
  - assert (String.length (print_int b) <= 53)%nat as Hb' by (apply print_int_length; lia).
    unfold validity_fields; cbn [dumps map fst snd gv_not_before gv_not_after]. dict_length.
  - unfold validity_fields; cbn [dumps map fst snd gv_not_before gv_not_after]. dict_length.
Qed.

Lemma parse_validity_json g : validity_ok g → parse_validity (validity_to_json g) = Ok g.
Proof.
  intros Hg. unfold parse_validity. pose proof (validity_json_length g Hg) as Hlen.
  unfold raise_if at 1. destruct (Z.ltb_spec 1024 (str_len (validity_to_json g))); [lia|].
  cbn [mbind res_bind]. unfold validity_to_json. fold (validity_fields g). rewrite utf8_roundtrip. cbn [of_option mbind res_bind].
  assert (dict_sorted (validity_fields g)) as Hd by (unfold validity_fields; case_match; repeat constructor).
  rewrite loads_with_dumps.
  - cbn [of_option mbind res_bind]. pose proof (new_validity_of g Hg) as Hn.
    destruct g as [a [b|]]; unfold validity_fields; cbn [gv_not_before gv_not_after] in *.
    + unfold dated, validity_field. cbn [dict_get String.eqb].
      rewrite !bool_decide_true by (done || (vm_compute; reflexivity)). cbn -[_seconds new_validity].
      destruct Hg as [Ha Hb]. simpl in Ha, Hb. rewrite (proj2 (seconds_Ok (VInt b) b)) by (split; [done|lia]). done.
    + unfold until_revoked, validity_field. cbn [dict_get]. cbn -[_seconds new_validity]. done.
  - intros d Hd'. by apply (object_from_pairs_sorted []).
  - split; [|by apply all_ints_any]. unfold validity_fields in *. case_match; repeat (constructor; try done).
Qed.

Lemma parse_validity_ok raw g : parse_validity raw = Ok g → validity_ok g.
Proof.
  unfold parse_validity. intros H. minv. destruct r1; try done. minv.
  repeat case_match; [|..]; try done.
  - unfold dated in *. minv. by eapply new_validity_ok.
  - by eapply new_validity_ok.
Qed.

Lemma contains_true g now : contains g now = Ok true ↔
  0 <= now <= MAX_SAFE ∧ gv_not_before g <= now ∧ match gv_not_after g with None => True | Some b => now < b end.
Proof.
  destruct g as [a o]. unfold contains. cbn [gv_not_before gv_not_after]. split.
  - intros H. apply res_bind_Ok in H as (z & [[= <-] Hz]%seconds_Ok & [= H]). destruct o; bools; split; try done; lia.
  - intros (Hn & Ha & Hb). rewrite (proj2 (seconds_Ok (VInt now) now)) by done. cbn [mbind res_bind]. f_equal.
    apply andb_true_iff. split; [by apply Z.leb_le|]. destruct o; [by apply Z.ltb_lt|done].
Qed.

Lemma validity_contained_contains g p now : validity_contained_by g p = true → contains g now = Ok true → contains p now = Ok true.
Proof.
  rewrite !contains_true. unfold validity_contained_by. intros Hc (Hn & Ha & Hb). bools. split; [done|]. split; [lia|].
  destruct g as [ga [gb|]], p as [pa [pb|]]; simpl in *; bools; try done; lia.
Qed.

Lemma validity_contained_refl g : validity_contained_by g g = true.
Proof. unfold validity_contained_by. rewrite Z.leb_refl. destruct (gv_not_after g); [by rewrite Z.leb_refl|done]. Qed.

Lemma validity_contained_trans a b c :
  validity_contained_by a b = true → validity_contained_by b c = true → validity_contained_by a c = true.
Proof.
  destruct a as [a0 [a1|]], b as [b0 [b1|]], c as [c0 [c1|]]; unfold validity_contained_by; simpl; intros H1 H2; bools;
    try done; rewrite ?andb_true_iff, ?Z.leb_le; lia.
Qed.

(** ** Read grants *)

Definition DELEGATED_SCOPE_ORDER : list string :=
  ["devgraph.graph.read"; "devgraph.work.read"; "devgraph.arena.read"; "devgraph.observation.read";
   "devgraph.material.read"; "devgraph.document.read"; "devgraph.query.read"].

Definition WORK_OPERATION_ORDER : list string := ["list"; "get"; "relationships"; "children"; "blockers"].

Definition RELATIONSHIP_TYPE_ORDER : list string :=
  ["children"; "parent"; "dependencies"; "dependents"; "blockers"; "blocked"].

(** The storage edge and whether it is followed backwards. *)
Definition WORK_RELATIONSHIPS : list (string * (string * bool)) :=
  [("children", ("HAS_CHILD", false)); ("parent", ("HAS_CHILD", true)); ("dependencies", ("DEPENDS_ON", false));
   ("dependents", ("DEPENDS_ON", true)); ("blockers", ("BLOCKS", true)); ("blocked", ("BLOCKS", false))].

Definition WORK_KIND_ORDER : list string := ["Proposal"; "Initiative"; "Project"; "Issue"; "Task"].

Fixpoint rank_in (order : list string) (x : string) : nat :=
  match order with
  | [] => 0
  | y :: o => if String.eqb x y then 0 else S (rank_in o x)
  end.

Definition no_dups (l : list string) : bool := bool_decide (NoDup l).

Definition _ordered_unique (v : list string) (order : list string) (field_name : string) : res (list string) :=
  raise_if (bool_decide (v = [])) (ValueError (field_name +:+ " must be a non-empty array"));;
  raise_if (negb (no_dups v)) (ValueError (field_name +:+ " contains duplicates"));;
  raise_if (existsb (λ x, negb (str_in x order)) v) (ValueError (field_name +:+ " contains an unknown value"));;
  Ok (stable_sort (λ a b, (rank_in order a <=? rank_in order b)%nat) v).

Definition _selector (v : list string) (field_name : string) : res (list string) :=
  raise_if (bool_decide (v = [])) (ValueError (field_name +:+ " must be a non-empty array when supplied"));;
  raise_if (existsb (λ x, negb (truthy x)) v) (ValueError (field_name +:+ " must contain identifiers"));;
  raise_if (negb (no_dups v)) (ValueError (field_name +:+ " contains duplicates"));;
  Ok (stable_sort String.leb v).

(** pydantic reports the [ValueError] of a validator as its [ValidationError]. *)
Definition as_model {A} (model : string) (r : res A) : res A := rethrow is_value_error (λ _, ValidationError model) r.

Record WorkReadGrant := {
  wg_operations : list string;
  wg_relationship_types : list string;
  wg_work_kinds : list string;
  wg_work_ids : list string;
  wg_arena_ids : list string;
  wg_include_archived : bool;
  wg_resource_paths : list ResourcePath
}.

#[export] Instance WorkReadGrant_eq_dec : EqDecision WorkReadGrant.
Proof. solve_decision. Defined.

(** [WorkReadGrant.normalize]; an absent selector is the empty default, a supplied
    one is not empty. *)
Definition new_work_grant (kinds_order operations relationship_types work_kinds : list string)
    (work_ids arena_ids : option (list string)) (include_archived : bool) : res WorkReadGrant :=
  as_model "WorkReadGrant" (
  ops ← _ordered_unique operations WORK_OPERATION_ORDER "operations";
  rels ← _ordered_unique relationship_types RELATIONSHIP_TYPE_ORDER "relationship_types";
  kinds ← _ordered_unique work_kinds kinds_order "work_kinds";
  ws ← match work_ids with Some l => _selector l "work_ids" | None => Ok [] end;
  ars ← match arena_ids with Some l => _selector l "arena_ids" | None => Ok [] end;
  Ok {| wg_operations := ops; wg_relationship_types := rels; wg_work_kinds := kinds; wg_work_ids := ws;
        wg_arena_ids := ars; wg_include_archived := include_archived; wg_resource_paths := [] |}).

Inductive ReadGrant : Type :=
  | work_grant (g : WorkReadGrant)
  | arena_grant (arena_ids : list string)
  | all_arenas_grant
  | simple_grant (scope : string).

Definition grant_scope (g : ReadGrant) : string :=
  match g with
  | work_grant _ => "devgraph.work.read"
  | arena_grant _ | all_arenas_grant => "devgraph.arena.read"
  | simple_grant s => s
  end.

Definition issubset (a b : list string) : bool := forallb (λ x, str_in x b) a.

Definition _selector_subset (granted requested : list string) : bool :=
  bool_decide (requested = []) || (negb (bool_decide (granted = [])) && issubset granted requested).

Definition work_grant_subset (g r : WorkReadGrant) : bool :=
  issubset (wg_operations g) (wg_operations r)
  && issubset (wg_relationship_types g) (wg_relationship_types r)
  && issubset (wg_work_kinds g) (wg_work_kinds r)
  && (negb (wg_include_archived g) || wg_include_archived r)
  && _selector_subset (wg_work_ids g) (wg_work_ids r)
  && _selector_subset (wg_arena_ids g) (wg_arena_ids r)
  && paths_subset (wg_resource_paths g) (wg_resource_paths r).

Definition _grant_is_subset (granted requested : ReadGrant) : bool :=
  if negb (String.eqb (grant_scope granted) (grant_scope requested)) then false else
  match granted, requested with
  | work_grant g, work_grant r => work_grant_subset g r
  | all_arenas_grant, all_arenas_grant => true
  | all_arenas_grant, _ => false
  | arena_grant _, all_arenas_grant => true
  | arena_grant a, arena_grant b => issubset a b
  | simple_grant _, simple_grant _ => true
  | _, _ => false
  end.

Definition _is_unrestricted_query_prerequisite (g : WorkReadGrant) : bool :=
  wg_include_archived g
  && bool_decide (wg_operations g = WORK_OPERATION_ORDER)
  && bool_decide (wg_relationship_types g = RELATIONSHIP_TYPE_ORDER)
  && bool_decide (wg_work_kinds g = WORK_KIND_ORDER)
  && bool_decide (wg_work_ids g = []) && bool_decide (wg_arena_ids g = []) && bool_decide (wg_resource_paths g = []).

(** [model_dump(mode="json", by_alias=True, exclude_defaults=True)] of a grant. *)
Definition strings (l : list string) : value := VList (map VStr l).

Definition unless_empty {A} (name : string) (l : list A) (v : value) : list (string * value) :=
  match l with [] => [] | _ => [(name, v)] end.

Definition path_dump (p : ResourcePath) : value :=
  VDict (mk_dict [("path", strings (path p)); ("schema", VStr "devgraph.resource-path.v1")]).

Definition read_grant_dump (g : ReadGrant) : value :=
  match g with
  | work_grant g => VDict (mk_dict (
      [("scope", VStr "devgraph.work.read"); ("operations", strings (wg_operations g));
       ("relationship_types", strings (wg_relationship_types g)); ("work_kinds", strings (wg_work_kinds g));
       ("include_archived", VBool (wg_include_archived g))]
      ++ unless_empty "work_ids" (wg_work_ids g) (strings (wg_work_ids g))
      ++ unless_empty "arena_ids" (wg_arena_ids g) (strings (wg_arena_ids g))
      ++ unless_empty "schema" (wg_resource_paths g) (VStr "devgraph.path-read-grant.v1")
      ++ unless_empty "resource_paths" (wg_resource_paths g) (VList (map path_dump (wg_resource_paths g)))))
  | arena_grant l => VDict (mk_dict [("scope", VStr "devgraph.arena.read"); ("arena_ids", strings l)])
  | all_arenas_grant => VDict (mk_dict [("scope", VStr "devgraph.arena.read"); ("all_arenas", VBool true)])
  | simple_grant s => VDict (mk_dict [("scope", VStr s)])
  end.

(** [len({canonical_json(x) for x in xs}) == len(xs)]. *)
Definition distinct_json (vs : list value) : bool := no_dups (map _canonical_json vs).

Definition _validate_grants (scopes : list string) (grants : list ReadGrant) : res unit :=
  raise_if (negb (issubset scopes (map grant_scope grants) && issubset (map grant_scope grants) scopes))
    (ValueError "scope and grant sets differ");;
  raise_if (negb (distinct_json (map read_grant_dump grants))) (ValueError "duplicate canonical grant").

(** ** URLs: [urllib.parse.urlsplit]

    The check of a bracketed host (an IP literal) depends on the version of
    Python and is a parameter. *)

Class UrlHosts : Type := { bracketed_netloc_ok : string → bool }.

Record SplitResult := { u_scheme : string; u_netloc : string; u_path : string; u_query : string; u_fragment : string }.

Fixpoint remove_unsafe (s : string) : string :=
  match s with
  | EmptyString => ""
  | String c s' => if (code c =? 9)%N || (code c =? 10)%N || (code c =? 13)%N then remove_unsafe s' else String c (remove_unsafe s')
  end.

Fixpoint lstrip_control (s : string) : string :=
  match s with
  | String c s' => if (code c <=? 32)%N then lstrip_control s' else s
  | EmptyString => ""
  end.

Definition scheme_char (c : ascii) : bool := is_alnum c || has_char c "+-.".

Fixpoint map_string (f : ascii → ascii) (s : string) : string :=
  match s with EmptyString => "" | String c s' => String (f c) (map_string f s') end.

(** [url.split(sep, 1)] when [sep] occurs, else the whole text and nothing. *)
Definition cut (c : ascii) (s : string) : string * string := default (s, "") (split_once c s).

Definition split_scheme (url : string) : string * string :=
  match split_once ":" url with
  | Some (String c a, b) =>
      if is_alpha c && str_forall scheme_char (String c a) then (map_string lower (String c a), b) else ("", url)
  | _ => ("", url)
  end.

Definition split_netloc (url : string) : string * string :=
  match strip_prefix "//" url with
  | Some rest => span (λ c, negb (has_char c "/?#")) rest
  | None => ("", url)
  end.

Section contracts.
  Context `{UrlHosts}.

Definition urlsplit (url : string) : res SplitResult :=
  let '(scheme, rest) := split_scheme (remove_unsafe (lstrip_control url)) in
  let '(netloc, rest) := split_netloc rest in
  let opening := has_char "[" netloc in
  let closing := has_char "]" netloc in
  raise_if (xorb opening closing) (ValueError "Invalid IPv6 URL");;
  raise_if (opening && closing && negb (bracketed_netloc_ok netloc)) (ValueError "invalid bracketed host");;
  let '(rest, fragment) := cut "#" rest in
  let '(p, query) := cut "?" rest in
  Ok {| u_scheme := scheme; u_netloc := netloc; u_path := p; u_query := query; u_fragment := fragment |}.

(** [netloc.rpartition("@")]: the user information, when there is any. *)
Fixpoint userinfo (netloc : string) : option string :=
  match netloc with
  | EmptyString => None
  | String c rest =>
      match userinfo rest with
      | Some i => Some (String c i)
      | None => if Ascii.eqb c "@" then Some "" else None
      end
  end.

(** [url.username] or [url.password] is not empty. *)
Definition has_credentials (u : SplitResult) : bool :=
  match userinfo (u_netloc u) with
  | None => false
  | Some i => let '(name, password) := cut ":" i in truthy name || truthy password
  end.

(** [allowed_origins]: HTTPS origins without user information. *)
Definition https_origin (origin : string) : res unit :=
  u ← urlsplit origin;
  raise_if (negb (String.eqb (u_scheme u) "https") || negb (truthy (u_netloc u))
            || negb (str_in (u_path u) [""; "/"]) || truthy (u_query u) || truthy (u_fragment u)
            || bool_decide (is_Some (userinfo (u_netloc u))))
    (ValueError "allowed_origins must contain HTTPS origins").

(** [receiver]: an HTTPS origin without a trailing slash. *)
Definition https_receiver (receiver : string) : res unit :=
  u ← urlsplit receiver;
  raise_if (negb (String.eqb (u_scheme u) "https") || negb (truthy (u_netloc u)) || truthy (u_path u)
            || truthy (u_query u) || truthy (u_fragment u) || has_credentials u)
    (ValueError "receiver must be an HTTPS origin without a trailing slash").

(** ** Credential profiles and manifests *)

Record CredentialRequestProfile := {
  cp_issuer : string;
  cp_requested_scopes : list string;
  cp_requested_grants : list ReadGrant;
  cp_reason : string
}.

Record CredentialManifest := {
  cm_credential_id : string;
  cm_request_id : string;
  cm_version : Z;
  cm_subject_public_key : string;
  cm_granted_scopes : list string;
  cm_allowed_origins : list string;
  cm_read_grants : list ReadGrant;
  cm_issued_at : datetime;
  cm_not_before : datetime;
  cm_expires_at : datetime;
  cm_replaces_credential_id : option string;
  cm_issuer_key_id : string
}.

Definition field_length (model s : string) (hi : Z) : res unit :=
  raise_if (negb ((1 <=? str_len s) && (str_len s <=? hi))) (ValidationError model).

Definition new_profile (p : CredentialRequestProfile) : res CredentialRequestProfile :=
  as_model "CredentialRequestProfile" (
  field_length "CredentialRequestProfile" (cp_issuer p) 256;;
  field_length "CredentialRequestProfile" (cp_reason p) 1024;;
  scopes ← _ordered_unique (cp_requested_scopes p) DELEGATED_SCOPE_ORDER "requested_scopes";
  _validate_grants scopes (cp_requested_grants p);;
  Ok {| cp_issuer := cp_issuer p; cp_requested_scopes := scopes; cp_requested_grants := cp_requested_grants p;
        cp_reason := cp_reason p |}).

Definition new_manifest (m : CredentialManifest) : res CredentialManifest :=
  as_model "CredentialManifest" (
  field_length "CredentialManifest" (cm_credential_id m) 256;;
  field_length "CredentialManifest" (cm_request_id m) 256;;
  raise_if (cm_version m <? 1) (ValidationError "CredentialManifest");;
  field_length "CredentialManifest" (cm_subject_public_key m) 4096;;
  field_length "CredentialManifest" (cm_issuer_key_id m) 256;;
  scopes ← _ordered_unique (cm_granted_scopes m) DELEGATED_SCOPE_ORDER "granted_scopes";
  origins ← _selector (cm_allowed_origins m) "allowed_origins";
  res_mapM https_origin origins;;
  _validate_grants scopes (cm_read_grants m);;
  raise_if (negb (aware (cm_issued_at m)) || negb (aware (cm_not_before m)) || negb (aware (cm_expires_at m)))
    (ValueError "manifest timestamps must include an offset");;
  raise_if (negb ((instant (cm_issued_at m) <=? instant (cm_not_before m))
                  && (instant (cm_not_before m) <? instant (cm_expires_at m))))
    (ValueError "invalid credential validity interval");;
  raise_if (str_in "devgraph.query.read" scopes
            && negb (existsb (λ g, match g with work_grant w => _is_unrestricted_query_prerequisite w | _ => false end)
                       (cm_read_grants m)))
    (ValueError "query scope requires an unrestricted complete Work grant");;
  Ok {| cm_credential_id := cm_credential_id m; cm_request_id := cm_request_id m; cm_version := cm_version m;
        cm_subject_public_key := cm_subject_public_key m; cm_granted_scopes := scopes; cm_allowed_origins := origins;
        cm_read_grants := cm_read_grants m; cm_issued_at := cm_issued_at m; cm_not_before := cm_not_before m;
        cm_expires_at := cm_expires_at m; cm_replaces_credential_id := cm_replaces_credential_id m;
        cm_issuer_key_id := cm_issuer_key_id m |}).

(** Audience and resource are literals of both models. *)
Definition validate_manifest_subset (p : CredentialRequestProfile) (m : CredentialManifest) : res unit :=
  raise_if (negb (String.eqb (cm_issuer_key_id m) (cp_issuer p))) (ValueError "issuer_mismatch");;
  raise_if (negb (issubset (cm_granted_scopes m) (cp_requested_scopes p))) (ValueError "grant_amplification");;
  raise_if (existsb (λ g, negb (existsb (_grant_is_subset g) (cp_requested_grants p))) (cm_read_grants m))
    (ValueError "grant_amplification").

(** ** Write grants *)

Definition WRITE_OPERATIONS : list string :=
  map (λ o, "devgraph.work." +:+ operation_name o +:+ ".v2") WORK_OPERATIONS_V2
  ++ map (λ o, "devgraph.arena." +:+ arena_operation_name o +:+ ".v1") ARENA_OPERATIONS.

Definition RESOURCE_KINDS : list string :=
  ["Todo"; "Proposal"; "Initiative"; "Project"; "Issue"; "Task"; "Arena"; "Decision"; "ReviewPacket"; "Handoff";
   "ExternalLink"; "SessionRef"; "SessionLink"].

Record WriteResource := { wr_kind : string; wr_ids : option (list string) }.

#[export] Instance WriteResource_eq_dec : EqDecision WriteResource.
Proof. solve_decision. Defined.

(** A nonempty list of distinct identifiers, sorted ([identifiers], [arenas]). *)
Definition identifiers (model : string) (ids : list string) : res (list string) :=
  raise_if (bool_decide (ids = [])) (ValidationError model);;
  as_model model (res_mapM require_id ids);;
  raise_if (negb (no_dups ids)) (ValidationError model);;
  raise_if (256 <? Z.of_nat (length ids)) (ValidationError model);;
  Ok (stable_sort String.leb ids).

Definition new_write_resource (kind : string) (ids : option (list string)) : res WriteResource :=
  raise_if (negb (str_in kind RESOURCE_KINDS)) (ValidationError "WriteResource");;
  l ← match ids with None => Ok None | Some l => l ← identifiers "WriteResource" l; Ok (Some l) end;
  Ok {| wr_kind := kind; wr_ids := l |}.

Definition resource_contained_by (r parent : WriteResource) : bool :=
  String.eqb (wr_kind r) (wr_kind parent)
  && match wr_ids parent, wr_ids r with
     | None, _ => true
     | Some p, Some l => issubset l p
     | Some _, None => false
     end.

Record WriteGrant := {
  wt_operation : string;
  wt_resources : list WriteResource;
  wt_arena_ids : option (list string);
  wt_resource_paths : list ResourcePath
}.

Definition write_resource_dump (r : WriteResource) : value :=
  VDict (mk_dict ([("kind", VStr (wr_kind r))] ++ match wr_ids r with Some l => [("ids", strings l)] | None => [] end)).

Definition write_grant_dump (g : WriteGrant) : value :=
  VDict (mk_dict (
    [("operation", VStr (wt_operation g)); ("resources", VList (map write_resource_dump (wt_resources g)))]
    ++ match wt_arena_ids g with Some l => [("arena_ids", strings l)] | None => [] end
    ++ unless_empty "schema" (wt_resource_paths g) (VStr "devgraph.path-write-grant.v1")
    ++ unless_empty "resource_paths" (wt_resource_paths g) (VList (map path_dump (wt_resource_paths g))))).

(** [WriteGrant]: the operation, one to 64 distinct resources. *)
Definition new_write_grant (operation : string) (resources : list WriteResource) : res WriteGrant :=
  raise_if (negb ((1 <=? Z.of_nat (length resources)) && (Z.of_nat (length resources) <=? 64))) (ValidationError "WriteGrant");;
  raise_if (negb (str_in operation WRITE_OPERATIONS)) (ValidationError "WriteGrant");;
  raise_if (negb (distinct_json (map write_resource_dump resources))) (ValidationError "WriteGrant");;
  Ok {| wt_operation := operation; wt_resources := resources; wt_arena_ids := None; wt_resource_paths := [] |}.

(** [ScopedWriteGrant] adds a selection of Arenas; records of provenance cannot be
    selected by Arena. *)
Definition new_scoped_grant (operation : string) (resources : list WriteResource) (arena_ids : option (list string)) :
    res WriteGrant :=
  g ← new_write_grant operation resources;
  ars ← match arena_ids with None => Ok None | Some l => l ← identifiers "ScopedWriteGrant" l; Ok (Some l) end;
  raise_if (bool_decide (is_Some ars) && existsb (λ r, negb (str_in (wr_kind r) ("Arena" :: TODO_KINDS))) resources)
    (ValidationError "ScopedWriteGrant");;
  Ok {| wt_operation := wt_operation g; wt_resources := wt_resources g; wt_arena_ids := ars; wt_resource_paths := [] |}.

(** [PathWriteGrant] adds one to 16 distinct paths, for hierarchical Work only. *)
Definition new_path_grant (operation : string) (resources : list WriteResource) (arena_ids : option (list string))
    (paths : list ResourcePath) : res WriteGrant :=
  g ← new_scoped_grant operation resources arena_ids;
  raise_if (negb ((1 <=? Z.of_nat (length paths)) && (Z.of_nat (length paths) <=? 16)) || negb (bool_decide (NoDup paths))
            || existsb (λ r, negb (str_in (wr_kind r) ["Initiative"; "Project"; "Issue"; "Task"])) resources)
    (ValidationError "PathWriteGrant");;
  Ok {| wt_operation := wt_operation g; wt_resources := wt_resources g; wt_arena_ids := wt_arena_ids g;
        wt_resource_paths := paths |}.

(** ** Access drafts *)

Record AccessDraft := {
  ad_issuer : string;
  ad_receiver : string;
  ad_write_audience : string;
  ad_subject_public_key : option string;
  ad_installation_id : option string;
  ad_validity : GrantValidity;
  ad_lifetime_seconds : Z;
  ad_read_grants : list ReadGrant;
  ad_write_grants : list WriteGrant;
  ad_previous_digest : option string
}.

(** [EnrollmentPolicy.validate_policy] with its fields. *)
Definition enrollment_policy_ok (issuer receiver : string) (grants : list WorkReadGrant) (lifetime : Z) : res unit :=
  raise_if (negb (_AUTHORITY_IDENTIFIER issuer)) (ValidationError "EnrollmentPolicy");;
  raise_if (negb ((1 <=? Z.of_nat (length grants)) && (Z.of_nat (length grants) <=? 16))) (ValidationError "EnrollmentPolicy");;
  raise_if (negb ((60 <=? lifetime) && (lifetime <=? 86400))) (ValidationError "EnrollmentPolicy");;
  https_receiver receiver;;
  raise_if (existsb (λ g, negb (bool_decide (wg_resource_paths g = []))) grants)
    (ValueError "resource paths require a new enrollment contract");;
  raise_if (existsb (λ g, existsb (λ o, negb (str_in o ["list"; "get"])) (wg_operations g)) grants)
    (ValueError "native v1 admits only bounded Work list/get");;
  res_mapM (λ g, validate_selectors (wg_work_ids g) (wg_arena_ids g)) grants;;
  Ok tt.

(** The [WorkReadGrant]s among read grants of the historical draft. *)
Definition placeholder_grant : WorkReadGrant :=
  {| wg_operations := ["get"]; wg_relationship_types := ["parent"]; wg_work_kinds := ["Task"]; wg_work_ids := [];
     wg_arena_ids := []; wg_include_archived := false; wg_resource_paths := [] |}.

Definition hex_text (n : Z) (s : string) : bool := (str_len s =? n) && str_forall is_lower_hex s.

Definition hex_field (n : Z) (o : option string) : bool := match o with Some s => hex_text n s | None => true end.

Definition safe_from (lo z : Z) : bool := (lo <=? z) && (z <=? MAX_SAFE).

(** [AccessDraft] of the schema [devgraph.access-draft.v1], whose read grants are
    [WorkReadGrant]s and whose interval is dated. *)
Definition new_access_draft (issuer receiver : string) (subject installation : option string)
    (not_before not_after lifetime : Z) (reads : list WorkReadGrant) (writes : list WriteGrant)
    (previous : option string) : res AccessDraft :=
  as_model "AccessDraft" (
  raise_if (negb (hex_field 64 subject && hex_field 32 installation && hex_field 64 previous
                  && safe_from 0 not_before && safe_from 1 not_after && (60 <=? lifetime) && (lifetime <=? 3600)
                  && (Z.of_nat (length reads) <=? 16) && (Z.of_nat (length writes) <=? 64)))
    (ValidationError "AccessDraft");;
  raise_if (existsb (λ g, negb (bool_decide (wg_resource_paths g = []))) reads
            || existsb (λ g, negb (bool_decide (wt_resource_paths g = []))) writes)
    (ValueError "resource paths require a new access draft contract");;
  raise_if ((not_after <=? not_before) || (bool_decide (length reads = 0%nat) && bool_decide (length writes = 0%nat)))
    (ValueError "a nonempty grant and valid interval are required");;
  raise_if (bool_decide (is_Some installation) && bool_decide (subject = None))
    (ValueError "installation binding requires a member");;
  enrollment_policy_ok issuer receiver (match reads with [] => [placeholder_grant] | _ => reads end) lifetime;;
  raise_if (negb (distinct_json (map read_grant_dump (map work_grant reads))) || negb (distinct_json (map write_grant_dump writes)))
    (ValueError "duplicate grant");;
  v ← dated (VInt not_before) (VInt not_after);
  Ok {| ad_issuer := issuer; ad_receiver := receiver; ad_write_audience := "devgraph://receiver-local";
        ad_subject_public_key := subject; ad_installation_id := installation; ad_validity := v;
        ad_lifetime_seconds := lifetime; ad_read_grants := map work_grant reads; ad_write_grants := writes;
        ad_previous_digest := previous |}).

Definition optional_field (name : string) (o : option string) : list (string * value) :=
  match o with Some s => [(name, VStr s)] | None => [] end.

(** The dump of a draft of the first schema. *)
Definition access_draft_dump (d : AccessDraft) : value :=
  VDict (mk_dict (
    [("schema", VStr "devgraph.access-draft.v1"); ("issuer", VStr (ad_issuer d)); ("receiver", VStr (ad_receiver d));
     ("write_audience", VStr (ad_write_audience d)); ("not_before", VInt (gv_not_before (ad_validity d)));
     ("not_after", VInt (default 0 (gv_not_after (ad_validity d)))); ("lifetime_seconds", VInt (ad_lifetime_seconds d))]
    ++ optional_field "subject_public_key" (ad_subject_public_key d)
    ++ optional_field "installation_id" (ad_installation_id d)
    ++ unless_empty "read_grants" (ad_read_grants d) (VList (map read_grant_dump (ad_read_grants d)))
    ++ unless_empty "write_grants" (ad_write_grants d) (VList (map write_grant_dump (ad_write_grants d)))
    ++ optional_field "previous_digest" (ad_previous_digest d))).

Definition draft_digest (d : AccessDraft) : string := sha256_hex (_canonical_json (access_draft_dump d)).

Definition binding_kept (parent child : option string) : bool :=
  match parent with Some _ => bool_decide (child = parent) | None => true end.

(** The ceilings of the parent for one write grant of the child. *)
Definition write_ceilings (grant : WriteGrant) (parents : list WriteGrant) : list WriteResource :=
  g ← filter (λ g, (String.eqb (wt_operation g) (wt_operation grant)
                    && paths_subset (wt_resource_paths grant) (wt_resource_paths g)
                    && match wt_arena_ids g, wt_arena_ids grant with
                       | None, _ => true
                       | Some p, Some a => issubset a p
                       | Some _, None => false
                       end) = true) parents;
  wt_resources g.

Definition write_covered (grant : WriteGrant) (parents : list WriteGrant) : bool :=
  forallb (λ r, existsb (resource_contained_by r) (write_ceilings grant parents)) (wt_resources grant).

Definition require_subset (child parent : AccessDraft) : res unit :=
  raise_if (negb (String.eqb (ad_issuer child) (ad_issuer parent) && String.eqb (ad_receiver child) (ad_receiver parent)
                  && String.eqb (ad_write_audience child) (ad_write_audience parent)))
    (ValueError "issuer or receiver binding changed");;
  raise_if (negb (binding_kept (ad_subject_public_key parent) (ad_subject_public_key child)
                  && binding_kept (ad_installation_id parent) (ad_installation_id child)))
    (ValueError "member binding changed");;
  raise_if (negb (validity_contained_by (ad_validity child) (ad_validity parent))
            || (ad_lifetime_seconds parent <? ad_lifetime_seconds child)) (ValueError "validity amplification");;
  raise_if (existsb (λ g, negb (existsb (_grant_is_subset g) (ad_read_grants parent))) (ad_read_grants child))
    (ValueError "read grant amplification");;
  raise_if (existsb (λ g, negb (write_covered g (ad_write_grants parent))) (ad_write_grants child))
    (ValueError "write grant amplification").

Definition attenuate (parent child : AccessDraft) : res AccessDraft :=
  raise_if (negb (bool_decide (ad_previous_digest child = Some (draft_digest parent))))
    (ValueError "previous draft digest mismatch");;
  require_subset child parent;;
  Ok child.

Definition work_grants_of (gs : list ReadGrant) : list WorkReadGrant :=
  omap (λ g, match g with work_grant w => Some w | _ => None end) gs.

(** The grants and the lifetime of the policy that issues a read credential. *)
Definition compile_read (d : AccessDraft) : res (list WorkReadGrant * Z) :=
  raise_if (bool_decide (ad_subject_public_key d = None) || bool_decide (ad_installation_id d = None))
    (ValueError "read issuance needs an exact member and installation");;
  raise_if (bool_decide (length (ad_read_grants d) = 0%nat)) (ValueError "no read grant selected");;
  as_model "EnrollmentPolicy" (enrollment_policy_ok (ad_issuer d) (ad_receiver d) (work_grants_of (ad_read_grants d)) (ad_lifetime_seconds d));;
  Ok (work_grants_of (ad_read_grants d), ad_lifetime_seconds d).

(** *** Compilation to rules of the native policy *)

Record WriteRule := {
  ru_actor_id : string;
  ru_operation : string;
  ru_resource : string;
  ru_exact : bool;
  ru_not_before : Z;
  ru_not_after : Z
}.

#[export] Instance WriteRule_eq_dec : EqDecision WriteRule.
Proof. solve_decision. Defined.

Definition rule_dump (r : WriteRule) : value :=
  VDict (mk_dict [("actor_id", VStr (ru_actor_id r)); ("effect", VStr "allow"); ("status", VStr "active");
    ("operation", VStr (ru_operation r)); ("resource", VStr (ru_resource r));
    ("resource_match", VStr (if ru_exact r then "exact" else "prefix"));
    ("not_before", VInt (ru_not_before r)); ("not_after", VInt (ru_not_after r))]).

Definition unhex_digit (c : ascii) : N := if is_digit c then (code c - 48)%N else (code c - 87)%N.

(** [bytes.fromhex] of lower-case hexadecimal. *)
Fixpoint fromhex (s : string) : string :=
  match s with
  | String a (String b s') => String (ascii_of_N (16 * unhex_digit a + unhex_digit b)) (fromhex s')
  | _ => ""
  end.

Definition actor_of_key (k : string) : string := "pubkey:sha256:" +:+ sha256_hex (fromhex k).

(** [resource.ids or ("",)]. *)
Definition rule_identifiers (r : WriteResource) : list string :=
  match wr_ids r with Some (i :: l) => i :: l | _ => [""] end.

Definition draft_rules (d : AccessDraft) (actor : string) (not_after : Z) : list WriteRule :=
  g ← ad_write_grants d;
  r ← wt_resources g;
  i ← rule_identifiers r;
  [{| ru_actor_id := actor; ru_operation := wt_operation g; ru_resource := wr_kind r +:+ "/" +:+ i;
      ru_exact := match wr_ids r with Some (_ :: _) => true | _ => false end;
      ru_not_before := gv_not_before (ad_validity d); ru_not_after := not_after |}].

Definition rule_json (r : WriteRule) : string := _canonical_json (rule_dump r).

(** [unique = {canonical_json(r): r for r in rules}; [unique[k] for k in sorted(unique)]]. *)
Definition unique_rules (rules : list WriteRule) : list WriteRule :=
  omap (λ k, find (λ r, String.eqb (rule_json r) k) (reverse rules)) (sort_strings (remove_dups (map rule_json rules))).

(** The rules of the compiled policy; its other fields are the arguments. *)
Definition compile_write (d : AccessDraft) (policy_id : string) (policy_version : Z) : res (list WriteRule) :=
  raise_if (existsb (λ g, bool_decide (is_Some (wt_arena_ids g)) || negb (bool_decide (wt_resource_paths g = []))) (ad_write_grants d))
    (ValueError "Resource restrictions require the scoped receiver; cannot flatten");;
  subject ← of_option (ValueError "write issuance needs an exact member") (ad_subject_public_key d);
  raise_if (bool_decide (is_Some (ad_installation_id d)))
    (ValueError "installation-restricted write grants are not supported");;
  raise_if (negb (str_forall (λ c, is_alnum c || has_char c "._:-") policy_id && (1 <=? str_len policy_id)
                  && (str_len policy_id <=? 128)) || negb (safe_from 1 policy_version))
    (ValueError "invalid policy identity or version");;
  raise_if (bool_decide (length (ad_write_grants d) = 0%nat)) (ValueError "no write grant selected");;
  not_after ← of_option (AttributeError "not_after") (gv_not_after (ad_validity d));
  let unique := unique_rules (draft_rules d (actor_of_key subject) not_after) in
  raise_if (512 <? Z.of_nat (length unique)) (ValueError "too many write rules");;
  Ok unique.

(** ** Assignments *)

Record MemberAccessPolicy := { mp_revision : Z; mp_ceiling : AccessDraft; mp_assignments : list AccessDraft }.

Definition member_key (d : AccessDraft) : option string * option string := (ad_subject_public_key d, ad_installation_id d).

Definition new_member_policy (p : MemberAccessPolicy) : res MemberAccessPolicy :=
  as_model "MemberAccessPolicy" (
  raise_if (negb (safe_from 1 (mp_revision p)) || (128 <? Z.of_nat (length (mp_assignments p))))
    (ValidationError "MemberAccessPolicy");;
  raise_if (existsb (λ g, bool_decide (ad_subject_public_key g = None) || bool_decide (ad_installation_id g = None)) (mp_assignments p))
    (ValueError "read assignment needs an exact member and installation");;
  raise_if (has_dup (map member_key (mp_assignments p))) (ValueError "duplicate member installation");;
  res_mapM (λ g, require_subset g (mp_ceiling p)) (mp_assignments p);;
  Ok p).

Fixpoint find_assignment (gs : list AccessDraft) (owner device : string) (current : Z) : res AccessDraft :=
  match gs with
  | [] => Err (ValueError "member access not granted")
  | g :: gs' =>
      if bool_decide (member_key g = (Some owner, Some device)) then
        active ← contains (ad_validity g) current;
        if (active : bool) && negb (bool_decide (length (ad_read_grants g) = 0%nat)) then Ok g
        else find_assignment gs' owner device current
      else find_assignment gs' owner device current
  end.

Definition assignment_for (p : MemberAccessPolicy) (owner device : string) (current : Z) : res AccessDraft :=
  find_assignment (mp_assignments p) owner device current.

End contracts.

(** ** What a draft admits

    An access is what the receivers ask about: a read of Work with the placement
    it has at the time (the Arena that contains it and its path), a read of an
    Arena, one of the simple scopes, or a write to a resource. *)

Record position := { at_arena : option string; at_path : option (list string) }.

Inductive access : Type :=
  | read_work (operation : string) (relationship : option string) (kind work_id : string) (archived : bool) (p : position)
  | read_arena (arena_id : string)
  | read_scope (scope : string)
  | write_to (operation kind identifier : string) (p : position).

Definition path_within (paths : list ResourcePath) (p : position) : bool :=
  match paths with [] => true | _ => match at_path p with Some c => admits paths c | None => false end end.

Definition arena_within (arenas : list string) (p : position) : bool :=
  match at_arena p with Some a => str_in a arenas | None => false end.

Definition read_grant_admits (g : ReadGrant) (x : access) : bool :=
  match g, x with
  | work_grant g, read_work o rel k i archived p =>
      str_in o (wg_operations g) && match rel with Some r => str_in r (wg_relationship_types g) | None => true end
      && str_in k (wg_work_kinds g) && (negb archived || wg_include_archived g)
      && (bool_decide (wg_work_ids g = []) || str_in (k +:+ "/" +:+ i) (wg_work_ids g))
      && (bool_decide (wg_arena_ids g = []) || arena_within (wg_arena_ids g) p)
      && path_within (wg_resource_paths g) p
  | arena_grant l, read_arena a => str_in a l
  | all_arenas_grant, read_arena _ => true
  | simple_grant s, read_scope t => String.eqb s t
  | _, _ => false
  end.

Definition resource_covers (r : WriteResource) (k i : string) : bool :=
  String.eqb (wr_kind r) k && match wr_ids r with None => true | Some l => str_in i l end.

Definition write_grant_admits (g : WriteGrant) (x : access) : bool :=
  match x with
  | write_to o k i p =>
      String.eqb (wt_operation g) o && existsb (λ r, resource_covers r k i) (wt_resources g)
      && path_within (wt_resource_paths g) p
      && match wt_arena_ids g with None => true | Some l => arena_within l p end
  | _ => false
  end.

Definition draft_admits (d : AccessDraft) (now : Z) (x : access) : bool :=
  bool_decide (contains (ad_validity d) now = Ok true)
  && (existsb (λ g, read_grant_admits g x) (ad_read_grants d) || existsb (λ g, write_grant_admits g x) (ad_write_grants d)).

Lemma issubset_spec a b : issubset a b = true ↔ ∀ x, x ∈ a → x ∈ b.
Proof.
  unfold issubset. rewrite forallb_forall. setoid_rewrite <-list_elem_of_In. by setoid_rewrite str_in_spec.
Qed.

Lemma issubset_in a b x : issubset a b = true → str_in x a = true → str_in x b = true.
Proof. rewrite issubset_spec, !str_in_spec. auto. Qed.

Lemma selector_subset_in a b (P : list string → bool) :
  (issubset a b = true → P a = true → P b = true) → _selector_subset a b = true →
  bool_decide (a = []) || P a = true → bool_decide (b = []) || P b = true.
Proof.
  unfold _selector_subset. intros HP Hs Ha. destruct (bool_decide (b = [])); [done|]. simpl in *. bools.
  rewrite bool_decide_false in Ha by done. by apply HP.
Qed.

Lemma arena_within_subset a b p : issubset a b = true → arena_within a p = true → arena_within b p = true.
Proof. unfold arena_within. intros Hs. destruct (at_arena p); [by apply issubset_in|done]. Qed.

Lemma paths_subset_within a b p : paths_subset a b = true → path_within a p = true → path_within b p = true.
Proof.
  unfold paths_subset, path_within. intros Hs. apply orb_prop in Hs as [Hb|Hs]; bools; [by rewrite Hb|].
  destruct a as [|pa a]; [done|]. destruct b as [|pb b]; [done|]. destruct (at_path p) as [c|]; [|done].
  intros (x & Hx & Hc)%admits_spec. apply admits_spec. rewrite forallb_forall in *.
  match goal with H : ∀ x, In x (pa :: a) → _ |- _ => apply list_elem_of_In, H, existsb_exists in Hx as (y & Hy & Hxy) end.
  exists y. split; [by apply list_elem_of_In|]. intros z Hz. apply Hc. by eapply contained_by_spec.
Qed.

(** ** A narrowed grant admits nothing new *)

Lemma read_subset_admits g r x : _grant_is_subset g r = true → read_grant_admits g x = true → read_grant_admits r x = true.
Proof.
  unfold _grant_is_subset. destruct (negb _) eqn:Es; [done|]. bools.
  destruct g as [g|l| |sc], r as [r|l'| |sc'], x as [o rel k i ar p|a|t|o k i p]; simpl in *; try done.
  - unfold work_grant_subset. intros Hs Ha. bools. repeat (apply andb_true_iff; split).
    + by eapply issubset_in.
    + destruct rel; [by eapply issubset_in|done].
    + by eapply issubset_in.
    + destruct ar, (wg_include_archived g); simpl in *; done.
    + eapply (selector_subset_in _ _ (str_in (k +:+ "/" +:+ i))); [by apply issubset_in|done..].
    + eapply (selector_subset_in _ _ (λ l, arena_within l p)); [apply arena_within_subset|done..].
    + by eapply paths_subset_within.
  - by apply issubset_in.
  - intros _ Ht. bools. subst. by apply String.eqb_eq.
Qed.

Lemma resource_contained_covers r p k i : resource_contained_by r p = true → resource_covers r k i = true → resource_covers p k i = true.
Proof.
  unfold resource_contained_by, resource_covers. intros Hc Hr. bools. apply andb_true_iff. split; [apply String.eqb_eq; congruence|].
  destruct (wr_ids p), (wr_ids r); try done. by eapply issubset_in.
Qed.

Lemma write_covered_admits g ps x : write_covered g ps = true → write_grant_admits g x = true →
  ∃ p, p ∈ ps ∧ write_grant_admits p x = true.
Proof.
  destruct x as [| | |o k i pl]; try done. unfold write_covered. rewrite forallb_forall. intros Hc Ha. simpl in Ha. bools.
  match goal with H : existsb _ _ = true |- _ => apply existsb_exists in H as (r & Hr & Hk) end.
  specialize (Hc r Hr). apply existsb_exists in Hc as (q & Hq & Hrq).
  apply list_elem_of_In, list_elem_of_bind in Hq as (p & Hq & Hp). apply list_elem_of_filter in Hp as [Hp Hin]. bools.
  exists p. split; [done|]. simpl. repeat (apply andb_true_iff; split).
  - apply String.eqb_eq. congruence.
  - apply existsb_exists. exists q. split; [by apply list_elem_of_In|]. by eapply resource_contained_covers.
  - by eapply paths_subset_within.
  - destruct (wt_arena_ids p), (wt_arena_ids g); try done. by eapply arena_within_subset.
Qed.

Lemma existsb_none_uncovered {A} (f : A → bool) l x : existsb (λ y, negb (f y)) l = false → x ∈ l → f x = true.
Proof.
  intros Hn Hx. destruct (f x) eqn:E; [done|]. exfalso. apply not_true_iff_false in Hn. apply Hn.
  apply existsb_exists. exists x. split; [by apply list_elem_of_In|]. by rewrite E.
Qed.

Lemma require_subset_admits child parent now x : require_subset child parent = Ok tt →
  draft_admits child now x = true → draft_admits parent now x = true.
Proof.
  unfold require_subset, draft_admits. intros H Ha. minv. bools.
  assert (contains (ad_validity parent) now = Ok true) as Hp by (by eapply validity_contained_contains).
  apply andb_true_iff. split; [by apply bool_decide_eq_true|]. apply orb_true_iff.
  match goal with H : _ || _ = true |- _ => rename H into Hor end.
  apply orb_prop in Hor as [Hor|Hor]; apply existsb_exists in Hor as (g & Hg%list_elem_of_In & Hx).
  - left. assert (existsb (_grant_is_subset g) (ad_read_grants parent) = true) as (r & Hr & Hgr)%existsb_exists
      by (by eapply (existsb_none_uncovered (λ g, existsb (_grant_is_subset g) (ad_read_grants parent)))).
    apply existsb_exists. exists r. split; [done|]. by eapply read_subset_admits.
  - right. assert (write_covered g (ad_write_grants parent) = true) as Hc
      by (by eapply (existsb_none_uncovered (λ g, write_covered g (ad_write_grants parent)))).
    destruct (write_covered_admits _ _ _ Hc Hx) as (p & Hp' & Hpx). apply existsb_exists. exists p.
    split; [by apply list_elem_of_In|done].
Qed.

(** A chain of drafts, each attenuating the one before. *)
Fixpoint attenuations (parent : AccessDraft) (children : list AccessDraft) : res AccessDraft :=
  match children with
  | [] => Ok parent
  | child :: rest => d ← attenuate parent child; attenuations d rest
  end.

Lemma attenuations_admits parent children d now x : attenuations parent children = Ok d →
  draft_admits d now x = true → draft_admits parent now x = true.
Proof.
  revert parent. induction children as [|c cs IH]; intros parent H Hx; simpl in H; [by injection H as ->|].
  apply res_bind_Ok in H as (e & He & H). apply (IH e H) in Hx. unfold attenuate in He. minv. subst.
  by eapply require_subset_admits.
Qed.

Lemma attenuations_bindings parent children d : attenuations parent children = Ok d →
  ad_issuer d = ad_issuer parent ∧ ad_receiver d = ad_receiver parent ∧ ad_write_audience d = ad_write_audience parent
  ∧ ad_lifetime_seconds d <= ad_lifetime_seconds parent
  ∧ (∀ k, ad_subject_public_key parent = Some k → ad_subject_public_key d = Some k)
  ∧ (∀ k, ad_installation_id parent = Some k → ad_installation_id d = Some k).
Proof.
  revert parent. induction children as [|c cs IH]; intros parent H; simpl in H; [injection H as ->; done|].
  apply res_bind_Ok in H as (e & He & H). apply IH in H as (H1 & H2 & H3 & H4 & H5 & H6).
  unfold attenuate, require_subset, binding_kept in He. minv. bools. subst e. split_and!; try congruence; [lia| |].
  - intros k Hk. apply H5. rewrite Hk in *. by bools.
  - intros k Hk. apply H6. rewrite Hk in *. by bools.
Qed.

(** ** Compiled rules *)

Definition rule_allows (r : WriteRule) (operation resource : string) : bool :=
  String.eqb (ru_operation r) operation
  && (if ru_exact r then String.eqb (ru_resource r) resource else String.prefix (ru_resource r) resource).

Lemma rule_dump_inj a b : rule_dump a = rule_dump b → a = b.
Proof.
  intros H. assert (∀ k, dict_get k (match rule_dump a with VDict d => d | _ => [] end)
    = dict_get k (match rule_dump b with VDict d => d | _ => [] end)) as Hk by (intros k; by rewrite H). clear H.
  destruct a as [a1 a2 a3 a4 a5 a6], b as [b1 b2 b3 b4 b5 b6].
  pose proof (Hk "actor_id") as H1. pose proof (Hk "operation") as H2. pose proof (Hk "resource") as H3.
  pose proof (Hk "resource_match") as H4. pose proof (Hk "not_before") as H5. pose proof (Hk "not_after") as H6. clear Hk.
  vm_compute in H1, H2, H3, H4, H5, H6. destruct a4, b4; try discriminate H4; congruence.
Qed.

Definition rule_safe (r : WriteRule) : Prop := safe_integer (ru_not_before r) = true ∧ safe_integer (ru_not_after r) = true.

Lemma rule_json_inj a b : rule_safe a → rule_safe b → rule_json a = rule_json b → a = b.
Proof.
  intros [Ha1 Ha2] [Hb1 Hb2] H. apply rule_dump_inj, (canonical_json_inj 2); [..|exact H];
    apply wire_dict; repeat (constructor; [first [apply wire_str|by apply wire_int]|]); constructor.
Qed.

Lemma unique_rules_elem rules r : Forall rule_safe rules → r ∈ unique_rules rules ↔ r ∈ rules.
Proof.
  intros Hs. rewrite Forall_forall in Hs. unfold unique_rules. rewrite list_elem_of_omap. split.
  - intros (k & _ & Hf). apply find_some in Hf as [Hin _]. by rewrite <-list_elem_of_In, elem_of_reverse in Hin.
  - intros Hr. exists (rule_json r). split.
    + unfold sort_strings. rewrite merge_sort_Permutation, elem_of_remove_dups, list_elem_of_In. by apply in_map, list_elem_of_In.
    + destruct (find _ (reverse rules)) as [r'|] eqn:E.
      * apply find_some in E as [Hin Hj]. rewrite <-list_elem_of_In, elem_of_reverse in Hin. bools.
        f_equal. apply rule_json_inj; auto.
      * eapply find_none in E; [|apply list_elem_of_In, elem_of_reverse, Hr]. by rewrite String.eqb_refl in E.
Qed.

Definition write_resource_ok (r : WriteResource) : Prop := str_in (wr_kind r) RESOURCE_KINDS = true ∧ wr_ids r ≠ Some [].

Lemma new_write_resource_ok k ids r : new_write_resource k ids = Ok r → write_resource_ok r.
Proof.
  unfold new_write_resource, identifiers. intros H. minv. bools. subst. split; [done|]. simpl.
  destruct ids as [l|]; minv; subst; [|done]. intros [= Hs].
  apply (f_equal length) in Hs. rewrite (Permutation_length (stable_sort_perm String.leb l)) in Hs. bools. by destruct l.
Qed.

Lemma str_prefix_spec a b : String.prefix a b = true ↔ ∃ c, b = a +:+ c.
Proof.
  revert b. induction a as [|x a IH]; intros b.
  - split; [intros _; by exists b|by destruct b].
  - destruct b as [|y b]; [split; [done|]; by intros [? ?]|]. cbn [String.prefix String.append].
    destruct (ascii_dec x y) as [->|Hne].
    + rewrite IH. split; [intros [c ->]; by exists c|]. intros [c [= ->]]. by exists c.
    + split; [done|]. intros [c [= ? _]]. congruence.
Qed.

Lemma resource_text_inj k k' i i' : str_in k RESOURCE_KINDS = true → str_in k' RESOURCE_KINDS = true →
  k +:+ "/" +:+ i = k' +:+ "/" +:+ i' → k = k' ∧ i = i'.
Proof.
  intros Hk Hk' H.
  assert (∀ k i, str_in k RESOURCE_KINDS = true → split_once slash (k +:+ "/" +:+ i) = Some (k, i)) as Hs.
  { clear. intros k i Hk. apply str_in_spec in Hk. unfold RESOURCE_KINDS in Hk. rewrite !elem_of_cons, elem_of_nil in Hk.
    repeat (destruct Hk as [->|Hk]; [reflexivity|]). done. }
  pose proof (Hs k i Hk) as H1. rewrite H, Hs in H1 by done. by injection H1 as -> ->.
Qed.

Lemma rule_identifiers_cover r k i : write_resource_ok r → str_in k RESOURCE_KINDS = true →
  resource_covers r k i = true ↔ ∃ j, j ∈ rule_identifiers r ∧
    (if match wr_ids r with Some (_ :: _) => true | _ => false end
     then String.eqb (wr_kind r +:+ "/" +:+ j) (k +:+ "/" +:+ i) else String.prefix (wr_kind r +:+ "/" +:+ j) (k +:+ "/" +:+ i)) = true.
Proof.
  intros [Hk Hne] Hk'. unfold resource_covers, rule_identifiers. rewrite andb_true_iff, String.eqb_eq.
  destruct (wr_ids r) as [[|a l]|]; [done| |].
  - rewrite str_in_spec. split.
    + intros [-> Hi]. exists i. split; [done|]. by apply String.eqb_eq.
    + intros (j & Hj & He). apply String.eqb_eq, resource_text_inj in He as [-> ->]; done.
  - split.
    + intros [-> _]. exists "". split; [by left|]. apply str_prefix_spec. exists i. by rewrite str_app_assoc.
    + intros (j & Hj & He). apply list_elem_of_singleton in Hj as ->. apply str_prefix_spec in He as [c He].
      rewrite str_app_assoc in He. by apply resource_text_inj in He as [-> _].
Qed.

Lemma draft_rules_allow d actor b o k i pl : str_in k RESOURCE_KINDS = true →
  Forall (λ g, Forall write_resource_ok (wt_resources g)) (ad_write_grants d) →
  existsb (λ g, bool_decide (is_Some (wt_arena_ids g)) || negb (bool_decide (wt_resource_paths g = []))) (ad_write_grants d) = false →
  (∃ r, r ∈ draft_rules d actor b ∧ rule_allows r o (k +:+ "/" +:+ i) = true) ↔
  existsb (λ g, write_grant_admits g (write_to o k i pl)) (ad_write_grants d) = true.
Proof.
  intros Hk Hok Hplain. rewrite existsb_exists. unfold draft_rules, rule_allows. split.
  - intros (x & Hx & Ha). apply list_elem_of_bind in Hx as (g & Hx & Hg). apply list_elem_of_bind in Hx as (r & Hx & Hr).
    apply list_elem_of_bind in Hx as (j & Hx & Hj). apply list_elem_of_singleton in Hx as ->. simpl in Ha. bools.
    exists g. split; [by apply list_elem_of_In|].
    rewrite Forall_forall in Hok. pose proof (Hok g Hg) as Hrs. rewrite Forall_forall in Hrs.
    apply not_true_iff_false in Hplain. rewrite existsb_exists in Hplain.
    destruct (bool_decide (is_Some (wt_arena_ids g))) eqn:E1;
      [exfalso; apply Hplain; exists g; split; [by apply list_elem_of_In|by rewrite E1]|].
    destruct (bool_decide (wt_resource_paths g = [])) eqn:E2;
      [|exfalso; apply Hplain; exists g; split; [by apply list_elem_of_In|by rewrite E1, E2]]. bools.
    simpl. rewrite E2. apply eq_None_not_Some in E1. rewrite E1. unfold path_within. rewrite !andb_true_r.
    apply andb_true_iff. split; [by apply String.eqb_eq|]. apply existsb_exists. exists r. split; [by apply list_elem_of_In|].
    apply rule_identifiers_cover; eauto.
  - intros (g & Hg & Ha). simpl in Ha. bools. apply list_elem_of_In in Hg.
    match goal with H : existsb _ (wt_resources g) = true |- _ => apply existsb_exists in H as (r & Hr & Hc) end.
    apply list_elem_of_In in Hr. rewrite Forall_forall in Hok. pose proof (Hok g Hg) as Hrs. rewrite Forall_forall in Hrs.
    apply rule_identifiers_cover in Hc as (j & Hj & Hm); [|by apply Hrs|done].
    eexists. split.
    + apply list_elem_of_bind. exists g. split; [|done]. apply list_elem_of_bind. exists r. split; [|done].
      apply list_elem_of_bind. exists j. split; [|done]. by apply list_elem_of_singleton.
    + simpl. apply andb_true_iff. split; [by apply String.eqb_eq|done].
Qed.

Lemma validity_safe g b : validity_ok g → gv_not_after g = Some b → safe_integer (gv_not_before g) = true ∧ safe_integer b = true.
Proof.
  intros [Ha Hb] E. rewrite E in Hb. unfold safe_integer, DEVGRAPH_JSON_SAFE_INTEGER_MIN_V1, DEVGRAPH_JSON_SAFE_INTEGER_MAX_V1, MAX_SAFE in *.
  rewrite !andb_true_iff, !Z.leb_le. lia.
Qed.

(** ** Properties *)

(** C25: Attenuation never amplifies.  Whatever drafts a chain of attenuations goes
    through, every access the last draft admits at a time - a read of Work in any
    placement, of an Arena or of a scope, or a write to a resource - the first
    draft admits at that time; issuer, receiver and audience are unchanged, the
    member and installation of the first are kept, and the lifetime has not
    grown. *)
Theorem attenuation_never_amplifies parent children d :
  attenuations parent children = Ok d →
  (∀ now x, draft_admits d now x = true → draft_admits parent now x = true)
  ∧ ad_issuer d = ad_issuer parent ∧ ad_receiver d = ad_receiver parent ∧ ad_write_audience d = ad_write_audience parent
  ∧ ad_lifetime_seconds d <= ad_lifetime_seconds parent
  ∧ (∀ k, ad_subject_public_key parent = Some k → ad_subject_public_key d = Some k)
  ∧ (∀ k, ad_installation_id parent = Some k → ad_installation_id d = Some k).
Proof.
  intros H. split; [intros now x; by eapply attenuations_admits|]. by eapply attenuations_bindings.
Qed.

(** C26: The rules a draft compiles to allow exactly what the draft grants: for every
    operation and resource some rule allows it if and only if some write grant of
    the draft covers it, and every rule is bound to the draft's member and to its
    interval. *)
Theorem compile_write_exact d policy_id policy_version rules :
  compile_write d policy_id policy_version = Ok rules → validity_ok (ad_validity d) →
  Forall (λ g, Forall write_resource_ok (wt_resources g)) (ad_write_grants d) →
  (∀ o k i p, str_in k RESOURCE_KINDS = true →
     existsb (λ r, rule_allows r o (k +:+ "/" +:+ i)) rules
     = existsb (λ g, write_grant_admits g (write_to o k i p)) (ad_write_grants d))
  ∧ ∃ key b, ad_subject_public_key d = Some key ∧ gv_not_after (ad_validity d) = Some b
    ∧ Forall (λ r, ru_actor_id r = actor_of_key key ∧ ru_not_before r = gv_not_before (ad_validity d)
                   ∧ ru_not_after r = b) rules.
Proof.
  unfold compile_write. intros H Hv Hok. apply res_bind_Ok in H as (_ & Hplain%raise_if_Ok & H).
  apply res_bind_Ok in H as (key & Hkey%of_option_Ok & H). do 3 (apply res_bind_Ok in H as (_ & _ & H)).
  apply res_bind_Ok in H as (b & Hb%of_option_Ok & H). cbv zeta in H. apply res_bind_Ok in H as (_ & _ & [= <-]).
  set (all := draft_rules d (actor_of_key key) b).
  assert (Forall (λ r, ru_actor_id r = actor_of_key key ∧ ru_not_before r = gv_not_before (ad_validity d) ∧ ru_not_after r = b) all) as Hall.
  { apply Forall_forall. intros r Hr. apply list_elem_of_bind in Hr as (g & Hr & _). apply list_elem_of_bind in Hr as (w & Hr & _).
    apply list_elem_of_bind in Hr as (j & Hr & _). by apply list_elem_of_singleton in Hr as ->. }
  assert (Forall rule_safe all) as Hsafe.
  { eapply Forall_impl; [exact Hall|]. intros r (_ & H1 & H2). unfold rule_safe. rewrite H1, H2. by apply validity_safe. }
  split.
  - intros o k i p Hk. apply eq_bool_prop_intro. rewrite !Is_true_true, <-(draft_rules_allow d (actor_of_key key) b o k i p Hk Hok Hplain).
    rewrite existsb_exists. setoid_rewrite <-list_elem_of_In. by setoid_rewrite (unique_rules_elem all).
  - exists key, b. split; [done|]. split; [done|]. rewrite Forall_forall in *. intros r Hr. apply Hall.
    fold all in Hr. rewrite (unique_rules_elem all) in Hr; [done|by apply Forall_forall].
Qed.

(** A credential manifest that passes the check stays within the approved
    request profile: same issuer, no scope that was not requested, and every
    access its grants admit is admitted by a requested grant. *)
Theorem manifest_within_profile p m :
  validate_manifest_subset p m = Ok tt →
  cm_issuer_key_id m = cp_issuer p
  ∧ (∀ s, s ∈ cm_granted_scopes m → s ∈ cp_requested_scopes p)
  ∧ ∀ x, existsb (λ g, read_grant_admits g x) (cm_read_grants m) = true →
         existsb (λ g, read_grant_admits g x) (cp_requested_grants p) = true.
Proof.
  unfold validate_manifest_subset. intros H. minv. bools. split; [done|]. split; [by apply issubset_spec|].
  intros x Hx. apply existsb_exists in Hx as (g & Hg%list_elem_of_In & Hx).
  assert (existsb (_grant_is_subset g) (cp_requested_grants p) = true) as (r & Hr & Hgr)%existsb_exists
    by (by eapply (existsb_none_uncovered (λ g, existsb (_grant_is_subset g) (cp_requested_grants p)))).
  apply existsb_exists. exists r. split; [done|]. by eapply read_subset_admits.
Qed.

(** Grant validity documents round-trip exactly, their containment test is
    inclusion of the times they hold at, and a credential issued under a grant
    expires within its lifetime and never outlives the grant. *)
Theorem validity_sound g p :
  validity_ok g → validity_ok p →
  parse_validity (validity_to_json g) = Ok g
  ∧ (validity_contained_by g p = true ↔ ∀ now, contains g now = Ok true → contains p now = Ok true)
  ∧ ∀ now lifetime deadline, credential_deadline g now lifetime = Ok deadline →
      now < deadline <= now + lifetime ∧ ∀ t, now <= t < deadline → contains g t = Ok true.
Proof.
  intros Hg Hp. split; [by apply parse_validity_json|]. split; [split|].
  - intros Hc now. by apply validity_contained_contains.
  - intros Hall. destruct g as [ga go], p as [pa po], Hg as [Hga Hgo], Hp as [Hpa Hpo]. simpl in *.
    assert (contains {| gv_not_before := ga; gv_not_after := go |} ga = Ok true) as Hs%Hall
      by (apply contains_true; simpl; destruct go; (split; [lia|]; split; [lia|]; lia || done)).
    apply contains_true in Hs as (_ & Hs & _). simpl in Hs. unfold validity_contained_by. simpl.
    apply andb_true_iff. split; [by apply Z.leb_le|]. destruct po as [pb|]; [|done].
    set (last := match go with Some b => b - 1 | None => MAX_SAFE end).
    assert (contains {| gv_not_before := ga; gv_not_after := go |} last = Ok true) as Hl%Hall
      by (apply contains_true; simpl; unfold last; destruct go; (split; [lia|]; split; [lia|]; lia || done)).
    apply contains_true in Hl as (_ & _ & Hl). simpl in Hl. unfold last in Hl. destruct go; [apply Z.leb_le; lia|lia].
  - intros now lifetime deadline H. unfold credential_deadline in H. apply res_bind_Ok in H as (b & Hb & H).
    apply res_bind_Ok in H as (_ & Hr%raise_if_Ok & [[= Hd] Hdr]%seconds_Ok). bools. subst b.
    apply contains_true in Hb as (Hn & Ha & Hbb). split.
    + destruct (gv_not_after g); lia.
    + intros t Ht. apply contains_true. split; [lia|]. split; [lia|]. destruct (gv_not_after g); [lia|done].
Qed.

(** ** Witnesses *)

Section witnesses.

#[local] Instance no_brackets : UrlHosts := {| bracketed_netloc_ok := λ _, false |}.

Definition ex_key : string := sha256_hex "holder".

Definition ex_read : WorkReadGrant :=
  {| wg_operations := ["list"; "get"]; wg_relationship_types := ["children"]; wg_work_kinds := ["Issue"; "Task"];
     wg_work_ids := []; wg_arena_ids := ["a1"]; wg_include_archived := true; wg_resource_paths := [] |}.

Definition ex_write (ids : option (list string)) : WriteGrant :=
  {| wt_operation := "devgraph.work.patch.v2"; wt_resources := [{| wr_kind := "Task"; wr_ids := ids |}];
     wt_arena_ids := None; wt_resource_paths := [] |}.

Definition ex_access (ids : option (list string)) (b : Z) (previous : option string) : res AccessDraft :=
  new_access_draft "owner" "https://host.example" (Some ex_key) None 0 b 600 [ex_read] [ex_write ids] previous.

Definition ex_parent : AccessDraft :=
  match ex_access None 1000 None with Ok d => d | Err _ => {| ad_issuer := ""; ad_receiver := ""; ad_write_audience := "";
    ad_subject_public_key := None; ad_installation_id := None; ad_validity := {| gv_not_before := 0; gv_not_after := None |};
    ad_lifetime_seconds := 0; ad_read_grants := []; ad_write_grants := []; ad_previous_digest := None |} end.

Definition ex_child : AccessDraft :=
  match ex_access (Some ["t1"]) 500 (Some (draft_digest ex_parent)) with Ok d => d | Err _ => ex_parent end.

Lemma attenuation_never_amplifies_witness :
  attenuations ex_parent [ex_child] = Ok ex_child
  ∧ draft_admits ex_child 100 (write_to "devgraph.work.patch.v2" "Task" "t1" {| at_arena := None; at_path := None |}) = true
  ∧ draft_admits ex_parent 100 (write_to "devgraph.work.patch.v2" "Task" "t1" {| at_arena := None; at_path := None |}) = true.
Proof.
  assert (attenuations ex_parent [ex_child] = Ok ex_child) as H by (vm_compute; reflexivity).
  split; [exact H|]. split; [vm_compute; reflexivity|].
  apply (proj1 (attenuation_never_amplifies _ _ _ H)). vm_compute. reflexivity.
Defined.

Lemma compile_write_exact_witness : ∃ rules, compile_write ex_child "policy" 1 = Ok rules
  ∧ existsb (λ r, rule_allows r "devgraph.work.patch.v2" "Task/t1") rules = true
  ∧ existsb (λ r, rule_allows r "devgraph.work.patch.v2" "Task/t2") rules = false.
Proof.
  destruct (compile_write ex_child "policy" 1) as [rules|] eqn:E; [|exfalso; revert E; vm_compute; discriminate].
  exists rules. split; [reflexivity|].
  assert (ad_write_grants ex_child = [ex_write (Some ["t1"])]) as Hw by (vm_compute; reflexivity).
  destruct (compile_write_exact ex_child "policy" 1 rules E) as [Hx _].
  - vm_compute. repeat split; discriminate.
  - rewrite Hw. clear E Hw. constructor; [|constructor]. constructor; [|constructor]. split; [reflexivity|discriminate].
  - rewrite Hw in Hx. clear E Hw. split.
    + exact (Hx "devgraph.work.patch.v2" "Task" "t1" {| at_arena := None; at_path := None |} eq_refl).
    + exact (Hx "devgraph.work.patch.v2" "Task" "t2" {| at_arena := None; at_path := None |} eq_refl).
Defined.

Definition ex_profile : CredentialRequestProfile :=
  {| cp_issuer := "owner"; cp_requested_scopes := ["devgraph.work.read"; "devgraph.arena.read"];
     cp_requested_grants := [work_grant ex_read; all_arenas_grant]; cp_reason := "review" |}.

Definition ex_manifest : CredentialManifest :=
  {| cm_credential_id := "c"; cm_request_id := "r"; cm_version := 1; cm_subject_public_key := ex_key;
     cm_granted_scopes := ["devgraph.arena.read"]; cm_allowed_origins := ["https://host.example"];
     cm_read_grants := [arena_grant ["a1"]]; cm_issued_at := epoch; cm_not_before := epoch;
     cm_expires_at := at_minute 5; cm_replaces_credential_id := None; cm_issuer_key_id := "owner" |}.

Lemma manifest_within_profile_witness :
  new_profile ex_profile = Ok ex_profile ∧ new_manifest ex_manifest = Ok ex_manifest
  ∧ existsb (λ g, read_grant_admits g (read_arena "a1")) (cp_requested_grants ex_profile) = true.
Proof.
  split; [vm_compute; reflexivity|]. split; [vm_compute; reflexivity|].
  apply (manifest_within_profile ex_profile ex_manifest); vm_compute; reflexivity.
Defined.

Lemma validity_sound_witness :
  parse_validity (validity_to_json {| gv_not_before := 10; gv_not_after := Some 20 |}) = Ok {| gv_not_before := 10; gv_not_after := Some 20 |}
  ∧ contains {| gv_not_before := 10; gv_not_after := Some 20 |} 19 = Ok true.
Proof.
  destruct (validity_sound {| gv_not_before := 10; gv_not_after := Some 20 |} {| gv_not_before := 10; gv_not_after := None |})
    as (H1 & _ & H3); [by vm_compute; repeat split; discriminate..|].
  split; [exact H1|]. apply (proj2 (H3 15 60 20 eq_refl)). lia.
Defined.

End witnesses.
