(* ===== verification/Credentials.v ===== *)
(** * Credentials and their verifiers

    [src/devgraph/auth/credentials.py], [auth/context.py], [auth/verifier.py],
    [auth/local_read.py] and [auth/delegated_registry.py]: a verifier turns an
    opaque credential into an authority context, or refuses.  The protocol
    [CredentialVerifier] is a class with the laws that its clients rely on, and the
    three verifiers that need no service are its instances.

    The clock is an argument of [verify].  The bytes of a registry file are an
    argument of its verifier, [None] when the owner, mode or path checks of the
    operating system refuse the file.  The reading of a delegated registry by
    pydantic is the class [RegistryReader]; the validators of its models are
    modelled. *)

From stdpp Require Import base gmap strings list sorting well_founded.
From Stdlib Require Import ZArith Ascii String.
From S2P Require Import Prelude Json Sha256 Datetime Validation WorkflowContract StrictJson Model Storage StorageWf StorageReads ResourcePaths Delegated Sessions Redaction Outbox Dispatcher Grants.

Local Open Scope Z_scope.

(** ** Envelopes and contexts *)

Record CredentialEnvelope := {
  ce_actor_id : string;
  ce_session_id : string;
  ce_correlation_id : string;
  ce_scopes : list string;
  ce_expires_at : datetime;
  ce_issuer : string;
  ce_audience : string;
  ce_redaction_partitions : list string;
  ce_credential_id : option string;
  ce_credential_version : option Z;
  ce_read_grants : list ReadGrant;
  ce_lifecycle_status : option string;
  ce_resource : option string
}.

(** [CredentialEnvelope.__post_init__]. *)
Definition new_envelope (e : CredentialEnvelope) : res CredentialEnvelope :=
  raise_if (negb (forallb _AUTHORITY_IDENTIFIER
              [ce_actor_id e; ce_session_id e; ce_correlation_id e; ce_issuer e; ce_audience e]))
    (ValueError "invalid identifier");;
  raise_if (existsb (λ s, negb (str_in s ALL_SCOPES) && negb (str_in s DELEGATED_SCOPE_ORDER)) (ce_scopes e))
    (ValueError "unknown scopes");;
  raise_if (match ce_credential_id e with Some i => negb (_AUTHORITY_IDENTIFIER i) | None => false end)
    (ValueError "invalid credential_id");;
  raise_if (match ce_credential_version e with Some v => v <? 1 | None => false end)
    (ValueError "invalid credential_version");;
  Ok e.

Definition has_scope (e : CredentialEnvelope) (scope : string) : bool := str_in scope (ce_scopes e).

(** [now >= self.expires_at]. *)
Definition is_expired (e : CredentialEnvelope) (now : datetime) : res bool :=
  later ← datetime_gt (ce_expires_at e) now; Ok (negb later).

Record AuthorityContext := { ac_envelope : CredentialEnvelope }.

(** ** The protocol *)

Class CredentialVerifier (V : Type) : Type :=
  verify : V → option string → string → datetime → res AuthorityContext.

(** What a client may rely on: a context is for the audience asked and not yet
    expired. *)
Class CredentialVerifierLaws {V : Type} `{CredentialVerifier V} (v : V) : Prop := {
  verify_audience credential audience now c :
    verify v credential audience now = Ok c → ce_audience (ac_envelope c) = audience;
  verify_current credential audience now c :
    verify v credential audience now = Ok c → is_expired (ac_envelope c) now = Ok false
}.

(** ** The local development verifier *)

Record LocalDevVerifier := {
  ld_auth_mode : option string;
  ld_registry : gmap string CredentialEnvelope
}.

Definition register (credential : string) (e : CredentialEnvelope) (v : LocalDevVerifier) : LocalDevVerifier :=
  {| ld_auth_mode := ld_auth_mode v; ld_registry := <[credential := e]> (ld_registry v) |}.

Definition local_dev_verify (v : LocalDevVerifier) (credential : option string) (audience : string) (now : datetime) :
    res AuthorityContext :=
  raise_if (negb (bool_decide (ld_auth_mode v = Some "local-dev")))
    (UnauthenticatedError "credential verification unavailable in this mode");;
  c ← of_option (UnauthenticatedError "credential required") credential;
  raise_if (negb (truthy c)) (UnauthenticatedError "credential required");;
  e ← of_option (UnauthenticatedError "credential not recognized") (ld_registry v !! c);
  expired ← is_expired e now;
  raise_if expired (UnauthenticatedError "credential expired");;
  raise_if (negb (String.eqb (ce_audience e) audience)) (UnauthenticatedError "credential audience mismatch");;
  Ok {| ac_envelope := e |}.

#[export] Instance local_dev_verifier : CredentialVerifier LocalDevVerifier := local_dev_verify.

(** ** The local read verifier *)

Definition LOCAL_READ_MAX_REGISTRY_BYTES : Z := 4096.
Definition LOCAL_READ_MAX_LIFETIME_SECONDS : Z := 31 * 24 * 60 * 60.

(** A prefix, then 43 characters of the URL-safe base64 alphabet. *)
Definition bearer_token (prefix s : string) : bool :=
  match strip_prefix prefix s with
  | Some r => (str_len r =? 43) && str_forall (λ c, is_alnum c || dash c) r
  | None => false
  end.

Definition local_read_fields : list string :=
  ["actor_id"; "audience"; "correlation_id"; "credential_digest_sha256"; "expires_at"; "issued_at"; "issuer"; "schema";
   "schema_version"; "session_id"].

Definition local_malformed : exn := RuntimeError "local read credential registry is malformed".

(** [json.dumps(..., allow_nan=False)] raises on the constants that the reader accepts. *)
Fixpoint non_finite (v : value) : bool :=
  match v with
  | VFloat l => str_in l ["NaN"; "Infinity"; "-Infinity"]
  | VList l => existsb non_finite l
  | VDict d => existsb (λ kv, non_finite kv.2) d
  | _ => false
  end.

(** [_read_registry] of [local_read.py]. *)
Definition local_registry (file : option string) : res (list (string * value)) :=
  raw ← of_option (RuntimeError "local read credential registry is unavailable") file;
  raise_if (negb (truthy raw) || (LOCAL_READ_MAX_REGISTRY_BYTES <? str_len raw)) local_malformed;;
  text ← of_option local_malformed (utf8_decode raw);
  v ← of_option local_malformed (loads text);
  match v with
  | VDict d =>
      raise_if (negb (bool_decide (list_to_set (d.*1) =@{gset string} list_to_set local_read_fields))) local_malformed;;
      raise_if (non_finite (VDict d)) (ValueError "Out of range float values are not JSON compliant");;
      raise_if (negb (String.eqb raw (_canonical_json (VDict d)))) (RuntimeError "local read credential registry is non-canonical");;
      Ok d
  | _ => Err local_malformed
  end.

(** [datetime.fromtimestamp(n, tz=timezone.utc)] for whole seconds. *)
Definition unix_epoch : datetime := Datetime 1970 1 1 0 0 0 0 (Some 0).

Definition fromtimestamp (n : Z) : res datetime := add_seconds unix_epoch n.

Definition str_entry (k : string) (d : list (string * value)) : option string :=
  match dict_get k d with Some (VStr s) => Some s | _ => None end.

Definition int_entry (k : string) (d : list (string * value)) : option Z :=
  match dict_get k d with Some (VInt z) => Some z | _ => None end.

(** The checked fields of [_validated_envelope]: issue and expiry times and the digest. *)
Definition local_claims (d : list (string * value)) (audience : string) : option (Z * Z * string) :=
  issued ← int_entry "issued_at" d;
  expires ← int_entry "expires_at" d;
  digest ← str_entry "credential_digest_sha256" d;
  if bool_decide (dict_get "schema" d = Some (VStr "devgraph-local-read-credential-registry.v1"))
     && bool_decide (dict_get "schema_version" d = Some (VInt 1))
     && bool_decide (dict_get "audience" d = Some (VStr audience))
     && (0 <=? issued) && (issued <? expires) && (expires - issued <=? LOCAL_READ_MAX_LIFETIME_SECONDS)
     && is_hex64 digest
  then Some (issued, expires, digest) else None.

(** An entry that the constructor of the envelope requires to be a [str]. *)
Definition identifier_entry (k : string) (d : list (string * value)) : res string :=
  of_option (ValueError "invalid identifier") (str_entry k d).

Definition local_envelope (d : list (string * value)) (expires : datetime) : res CredentialEnvelope :=
  actor ← identifier_entry "actor_id" d;
  session ← identifier_entry "session_id" d;
  correlation ← identifier_entry "correlation_id" d;
  issuer ← identifier_entry "issuer" d;
  audience ← identifier_entry "audience" d;
  new_envelope {| ce_actor_id := actor; ce_session_id := session; ce_correlation_id := correlation;
    ce_scopes := ["devgraph.read"]; ce_expires_at := expires; ce_issuer := issuer; ce_audience := audience;
    ce_redaction_partitions := []; ce_credential_id := None; ce_credential_version := None; ce_read_grants := [];
    ce_lifecycle_status := None; ce_resource := None |}.

Definition overflow_or_value_error (e : exn) : bool :=
  is_value_error e || match e with OverflowError _ => true | _ => false end.

Definition _validated_envelope (d : list (string * value)) (audience : string) (now : datetime) : res CredentialEnvelope :=
  claims ← of_option local_malformed (local_claims d audience);
  let '(issued, expires, _) := claims in
  r ← rethrow overflow_or_value_error (λ _, local_malformed)
        (issued_at ← fromtimestamp issued;
         expires_at ← fromtimestamp expires;
         e ← local_envelope d expires_at; Ok (issued_at, e));
  early ← datetime_gt r.1 now;
  raise_if early (UnauthenticatedError "credential not yet valid");;
  Ok r.2.

Record LocalReadCredentialVerifier := { lr_file : option string; lr_audience : string }.

Definition is_runtime_error (e : exn) : bool := match e with RuntimeError _ => true | _ => false end.

Definition is_unauthenticated (e : exn) : bool := match e with UnauthenticatedError _ => true | _ => false end.

(** [__init__]: the registry is valid and current at startup. *)
Definition new_local_read (v : LocalReadCredentialVerifier) (now : datetime) : res LocalReadCredentialVerifier :=
  raise_if (negb (truthy (lr_audience v))) (RuntimeError "local read credential data root is invalid");;
  d ← local_registry (lr_file v);
  e ← rethrow is_unauthenticated (λ _, RuntimeError "local read credential registry is not current")
        (_validated_envelope d (lr_audience v) now);
  expired ← is_expired e now;
  raise_if expired (RuntimeError "local read credential registry is expired");;
  Ok v.

Definition local_read_verify (v : LocalReadCredentialVerifier) (credential : option string) (audience : string) (now : datetime) :
    res AuthorityContext :=
  c ← of_option (UnauthenticatedError "credential required") credential;
  raise_if (negb (bearer_token "dgread1_" c)) (UnauthenticatedError "credential required");;
  raise_if (negb (String.eqb audience (lr_audience v))) (UnauthenticatedError "credential audience mismatch");;
  raise_if (negb (aware now)) (UnauthenticatedError "credential clock invalid");;
  r ← rethrow is_runtime_error (λ _, UnauthenticatedError "credential verification unavailable")
        (d ← local_registry (lr_file v);
         e ← _validated_envelope d (lr_audience v) now; Ok (d, e));
  raise_if (negb (bool_decide (str_entry "credential_digest_sha256" r.1 = Some (sha256_hex c))))
    (UnauthenticatedError "credential not recognized");;
  expired ← is_expired r.2 now;
  raise_if expired (UnauthenticatedError "credential expired");;
  Ok {| ac_envelope := r.2 |}.

#[export] Instance local_read_verifier : CredentialVerifier LocalReadCredentialVerifier := local_read_verify.

(** ** The registry of delegated read credentials *)

Definition DELEGATED_REGISTRY_MAX_BYTES : Z := 1048576.

Inductive CredentialStatus : Type := active | revoked | superseded.

#[export] Instance CredentialStatus_eq_dec : EqDecision CredentialStatus.
Proof. solve_decision. Defined.

Definition status_text (st : CredentialStatus) : string :=
  match st with active => "active" | revoked => "revoked" | superseded => "superseded" end.

Record DelegatedCredentialRecord := {
  dc_credential_digest : string;
  dc_manifest : CredentialManifest;
  dc_manifest_digest : string;
  dc_status : CredentialStatus
}.

(** How pydantic writes an aware time in JSON: [Z] for UTC. *)
Definition json_time (t : datetime) : string :=
  if bool_decide (utcoffset t = Some 0)
  then isoformat (Datetime (year t) (month t) (day t) (hour t) (minute t) (second t) (microsecond t) None) +:+ "Z"
  else isoformat t.

(** [model_dump(mode="json", by_alias=True, exclude_defaults=True)] of a manifest. *)
Definition manifest_dump (m : CredentialManifest) : value :=
  VDict (mk_dict [("schema", VStr "devgraph.credential-manifest.v1"); ("credential_id", VStr (cm_credential_id m));
    ("request_id", VStr (cm_request_id m)); ("version", VInt (cm_version m));
    ("subject_public_key", VStr (cm_subject_public_key m)); ("granted_scopes", strings (cm_granted_scopes m));
    ("audience", VStr "devgraph"); ("resource", VStr "https://work.zenith-research.ca/devgraph");
    ("allowed_origins", strings (cm_allowed_origins m)); ("read_grants", VList (map read_grant_dump (cm_read_grants m)));
    ("issued_at", VStr (json_time (cm_issued_at m))); ("not_before", VStr (json_time (cm_not_before m)));
    ("expires_at", VStr (json_time (cm_expires_at m)));
    ("replaces_credential_id", match cm_replaces_credential_id m with Some i => VStr i | None => VNone end);
    ("issuer_key_id", VStr (cm_issuer_key_id m))]).

Definition record_dump (r : DelegatedCredentialRecord) : value :=
  VDict (mk_dict [("credential_digest_sha256", VStr (dc_credential_digest r)); ("manifest", manifest_dump (dc_manifest r));
    ("manifest_digest_sha256", VStr (dc_manifest_digest r)); ("status", VStr (status_text (dc_status r)))]).

Definition registry_dump (rs : list DelegatedCredentialRecord) : value :=
  VDict (mk_dict [("schema", VStr "devgraph-delegated-read-credential-registry.v1"); ("schema_version", VInt 1);
    ("records", VList (map record_dump rs))]).

Section registry.
  Context `{UrlHosts}.

(** [DelegatedCredentialRecord] with its validators. *)
Definition new_record_entry (r : DelegatedCredentialRecord) : res DelegatedCredentialRecord :=
  as_model "DelegatedCredentialRecord" (
  m ← new_manifest (dc_manifest r);
  raise_if (negb (is_hex64 (dc_credential_digest r)) || negb (is_hex64 (dc_manifest_digest r))) (ValueError "invalid digest");;
  raise_if (negb (String.eqb (sha256_hex (_canonical_json (manifest_dump m))) (dc_manifest_digest r)))
    (ValueError "manifest digest mismatch");;
  Ok {| dc_credential_digest := dc_credential_digest r; dc_manifest := m; dc_manifest_digest := dc_manifest_digest r;
        dc_status := dc_status r |}).

Definition record_id (r : DelegatedCredentialRecord) : string := cm_credential_id (dc_manifest r).

Definition by_credential_id (i : string) (rs : list DelegatedCredentialRecord) : option DelegatedCredentialRecord :=
  find (λ r, String.eqb (record_id r) i) rs.

Definition chain_invalid : exn := ValueError "replacement_chain_invalid".

(** The loop that collects [replacement_targets]. *)
Fixpoint replacement_targets (all todo : list DelegatedCredentialRecord) (targets : list string) : res (list string) :=
  match todo with
  | [] => Ok targets
  | r :: rest =>
      match cm_replaces_credential_id (dc_manifest r) with
      | None => replacement_targets all rest targets
      | Some i =>
          p ← of_option chain_invalid (by_credential_id i all);
          raise_if (negb (String.eqb (cm_subject_public_key (dc_manifest p)) (cm_subject_public_key (dc_manifest r)))
                    || negb (String.eqb (cm_request_id (dc_manifest p)) (cm_request_id (dc_manifest r)))
                    || (cm_version (dc_manifest r) <=? cm_version (dc_manifest p))
                    || str_in i targets) chain_invalid;;
          replacement_targets all rest (i :: targets)
      end
  end.

(** [DelegatedCredentialRegistry] with its validators. *)
Definition new_registry (rs : list DelegatedCredentialRecord) : res (list DelegatedCredentialRecord) :=
  as_model "DelegatedCredentialRegistry" (
  rs ← res_mapM new_record_entry rs;
  raise_if (bool_decide (length rs = 0%nat)) (ValueError "registry cannot be empty");;
  raise_if (negb (no_dups (map record_id rs)) || negb (no_dups (map dc_credential_digest rs)))
    (ValueError "duplicate registry record");;
  targets ← replacement_targets rs rs [];
  raise_if (existsb (λ r, bool_decide (dc_status r = superseded) && negb (str_in (record_id r) targets)) rs) chain_invalid;;
  Ok rs).

(** [DelegatedCredentialRegistry.model_validate_json] up to the validators: the
    fields of the models that pydantic reads from the bytes. *)
Class RegistryReader : Type := { registry_fields : string → option (list DelegatedCredentialRecord) }.

Context `{RegistryReader}.

(** [_read_registry] of [delegated_registry.py]. *)
Definition delegated_registry (file : option string) : res (list DelegatedCredentialRecord) :=
  raw ← of_option (RuntimeError "delegated registry unavailable") file;
  raise_if (negb (truthy raw) || (DELEGATED_REGISTRY_MAX_BYTES <? str_len raw)) (RuntimeError "delegated registry malformed");;
  rs ← rethrow is_value_error (λ _, RuntimeError "delegated registry malformed")
         (fs ← of_option (ValidationError "DelegatedCredentialRegistry") (registry_fields raw); new_registry fs);
  raise_if (negb (String.eqb raw (_canonical_json (registry_dump rs)))) (RuntimeError "delegated registry non-canonical");;
  Ok rs.

Record DelegatedReadCredentialVerifier := { dv_file : option string; dv_audience : string }.

(** [__init__]; the audience of a manifest is the literal [devgraph]. *)
Definition new_delegated_verifier (v : DelegatedReadCredentialVerifier) : res DelegatedReadCredentialVerifier :=
  raise_if (negb (truthy (dv_audience v))) (RuntimeError "delegated registry configuration invalid");;
  rs ← delegated_registry (dv_file v);
  raise_if (existsb (λ _, negb (String.eqb "devgraph" (dv_audience v))) rs) (RuntimeError "delegated registry audience mismatch");;
  Ok v.

Definition delegated_envelope (r : DelegatedCredentialRecord) : res CredentialEnvelope :=
  let m := dc_manifest r in
  expires ← astimezone_utc (cm_expires_at m);
  new_envelope {| ce_actor_id := cm_credential_id m;
    ce_session_id := "dgrd:" +:+ str_take 24 (sha256_hex (utf8_encode (cm_credential_id m)));
    ce_correlation_id := "dgrd:" +:+ str_take 24 (dc_manifest_digest r);
    ce_scopes := cm_granted_scopes m; ce_expires_at := expires; ce_issuer := cm_issuer_key_id m; ce_audience := "devgraph";
    ce_redaction_partitions := []; ce_credential_id := Some (cm_credential_id m);
    ce_credential_version := Some (cm_version m); ce_read_grants := cm_read_grants m;
    ce_lifecycle_status := Some (status_text (dc_status r));
    ce_resource := Some "https://work.zenith-research.ca/devgraph" |}.

Definition delegated_verify (v : DelegatedReadCredentialVerifier) (credential : option string) (audience : string)
    (now : datetime) : res AuthorityContext :=
  let invalid := UnauthenticatedError "invalid_credential" in
  c ← of_option invalid credential;
  raise_if (negb (bearer_token "dgrd1_" c)) invalid;;
  raise_if (negb (String.eqb audience (dv_audience v))) (UnauthenticatedError "audience_mismatch");;
  raise_if (negb (aware now)) invalid;;
  rs ← rethrow is_runtime_error (λ _, invalid) (delegated_registry (dv_file v));
  r ← of_option invalid (find (λ r, String.eqb (sha256_hex c) (dc_credential_digest r)) rs);
  raise_if (bool_decide (dc_status r = revoked)) (UnauthenticatedError "credential_revoked");;
  raise_if (bool_decide (dc_status r = superseded)) (UnauthenticatedError "credential_superseded");;
  early ← datetime_gt (cm_not_before (dc_manifest r)) now;
  raise_if early (UnauthenticatedError "credential_not_yet_valid");;
  later ← datetime_gt (cm_expires_at (dc_manifest r)) now;
  raise_if (negb later) (UnauthenticatedError "credential_expired");;
  e ← delegated_envelope r;
  Ok {| ac_envelope := e |}.

#[export] Instance delegated_verifier : CredentialVerifier DelegatedReadCredentialVerifier := delegated_verify.

End registry.

(** ** Conversion to UTC keeps the instant *)

Lemma previous_day_ordinal y m d y' m' d' : date_ok y m d → previous_day y m d = Some (y', m', d') →
  date_ok y' m' d' ∧ toordinal y' m' d' = toordinal y m d - 1.
Proof.
  intros (Hy & Hm & Hd). unfold previous_day, date_ok, toordinal.
  destruct (Z.ltb_spec 1 d); [intros [= <- <- <-]; split; lia|].
  destruct (Z.ltb_spec 1 m).
  - intros [= <- <- <-]. pose proof (days_in_month_pos y (m - 1)). pose proof (days_before_month_succ y (m - 1)) as Hs.
    replace (m - 1 + 1) with m in Hs by lia. split; lia.
  - destruct (Z.ltb_spec 1 y); [|done]. intros [= <- <- <-]. assert (m = 1) as -> by lia.
    pose proof (year_days (y - 1)) as Hs. replace (y - 1 + 1) with y in Hs by lia.
    change (days_before_month y 1) with 0. change (days_in_month (y - 1) 12) with 31 in *. split; lia.
Qed.

Lemma astimezone_instant d d' : datetime_ok d = true → astimezone_utc d = Ok d' →
  instant d' = instant d ∧ aware d' = true.
Proof.
  intros Hd%datetime_ok_spec. unfold astimezone_utc. set (t := hour d * 3600 + minute d * 60 + second d - default 0 (utcoffset d)).
  assert (-86400 < t < 172800) as Ht by (unfold t; destruct (utcoffset d); simpl in *; lia).
  pose proof (Z.div_mod t 86400 ltac:(lia)) as Hdm. pose proof (Z.mod_pos_bound t 86400 ltac:(lia)) as Hmb.
  match goal with |- match ?o with _ => _ end = _ → _ => destruct o as [[[y m] dd]|] eqn:E end; [|done]. intros [= <-].
  assert (toordinal y m dd = toordinal (year d) (month d) (day d) + t / 86400) as Ho.
  { assert (date_ok (year d) (month d) (day d)) as Hok by (unfold date_ok; lia).
    destruct (Z.ltb_spec t 0); [|destruct (Z.leb_spec 86400 t)].
    - apply previous_day_ordinal in E as [_ ->]; [|done]. assert (t / 86400 = -1) by (Z.to_euclidean_division_equations; lia). lia.
    - apply next_day_ordinal in E as [_ ->]; [|done]. assert (t / 86400 = 1) by (Z.to_euclidean_division_equations; lia). lia.
    - injection E as <- <- <-. rewrite Z.div_small by lia. lia. }
  split; [|done]. unfold instant. cbn [year month day hour minute second microsecond utcoffset]. rewrite Ho.
  change (default 0 (Some 0)) with 0. assert (∀ u, 0 <= u → u / 3600 * 3600 + u / 60 mod 60 * 60 + u mod 60 = u) as Hu.
  { intros u Hu. Z.to_euclidean_division_equations. lia. }
  specialize (Hu (t mod 86400) ltac:(lia)). unfold t in *. lia.
Qed.

(** ** The verifiers keep the protocol *)

Lemma datetime_gt_Ok a b x : datetime_gt a b = Ok x ↔ aware a = aware b ∧ x = (instant b <? instant a).
Proof.
  unfold datetime_gt. destruct (aware a), (aware b); cbn; split; try (by intros [= <-]); try (by intros [_ ->]); try done; by intros [? _].
Qed.

#[export] Instance local_dev_laws (v : LocalDevVerifier) : CredentialVerifierLaws v.
Proof.
  split.
  - intros credential audience now c Hv. unfold verify, local_dev_verifier, local_dev_verify in Hv. minv. subst. by bools.
  - intros credential audience now c Hv. unfold verify, local_dev_verifier, local_dev_verify in Hv. minv. subst.
    cbn [ac_envelope]. congruence.
Qed.

Lemma local_claims_Some d audience issued expires digest : local_claims d audience = Some (issued, expires, digest) →
  int_entry "issued_at" d = Some issued ∧ int_entry "expires_at" d = Some expires
  ∧ str_entry "credential_digest_sha256" d = Some digest ∧ str_entry "audience" d = Some audience
  ∧ 0 <= issued < expires ∧ expires - issued <= LOCAL_READ_MAX_LIFETIME_SECONDS.
Proof.
  unfold local_claims. intros H. apply bind_Some in H as (a & Ha & H). apply bind_Some in H as (b & Hb & H).
  apply bind_Some in H as (g & Hg & H). case_match eqn:E; [|done]. injection H as -> -> ->. bools.
  split_and!; try done; try lia. unfold str_entry. by match goal with H : dict_get "audience" d = _ |- _ => rewrite H end.
Qed.

Lemma new_envelope_Ok e e' : new_envelope e = Ok e' → e' = e ∧ Forall (λ i, _AUTHORITY_IDENTIFIER i = true)
  [ce_actor_id e; ce_session_id e; ce_correlation_id e; ce_issuer e; ce_audience e].
Proof.
  unfold new_envelope. intros H. minv. bools. subst. split; [done|]. apply Forall_forall. intros x Hx%list_elem_of_In.
  by eapply forallb_forall in Hx.
Qed.

Record local_grant (d : list (string * value)) (audience : string) (now : datetime) (e : CredentialEnvelope)
    (issued expires : Z) : Prop := {
  lg_claims : ∃ digest, local_claims d audience = Some (issued, expires, digest);
  lg_times : ∃ t, fromtimestamp issued = Ok t ∧ fromtimestamp expires = Ok (ce_expires_at e) ∧ instant t <= instant now;
  lg_scopes : ce_scopes e = ["devgraph.read"];
  lg_audience : ce_audience e = audience;
  lg_grants : ce_read_grants e = []
}.

Lemma validated_envelope_Ok d audience now e : _validated_envelope d audience now = Ok e →
  ∃ issued expires, local_grant d audience now e issued expires.
Proof.
  unfold _validated_envelope. intros H. apply res_bind_Ok in H as ([[issued expires] digest] & Hc%of_option_Ok & H).
  apply res_bind_Ok in H as ([t e'] & Hr%rethrow_Ok & H). cbn [fst snd] in H.
  apply res_bind_Ok in H as (early & [_ ->]%datetime_gt_Ok & H). apply res_bind_Ok in H as ([] & Hb%raise_if_Ok & [= <-]). bools.
  apply res_bind_Ok in Hr as (t' & Ht & Hr). apply res_bind_Ok in Hr as (x & Hx & Hr).
  apply res_bind_Ok in Hr as (e2 & Hl & [= <- <-]). exists issued, expires.
  pose proof (local_claims_Some _ _ _ _ _ Hc) as (_ & _ & _ & Ha & _).
  unfold local_envelope, identifier_entry in Hl. minv.
  match goal with H : new_envelope _ = Ok _ |- _ => apply new_envelope_Ok in H as [-> _] end.
  split; [by eexists|eexists; split_and!; [done|done|lia]|done| |done]. cbn. congruence.
Qed.

#[export] Instance local_read_laws (v : LocalReadCredentialVerifier) : CredentialVerifierLaws v.
Proof.
  split.
  - intros credential audience now c Hv. unfold verify, local_read_verifier, local_read_verify in Hv. minv. subst. bools. subst.
    cbn [ac_envelope snd]. match goal with H : _validated_envelope _ _ _ = Ok _ |- _ => apply validated_envelope_Ok in H as (?&?&H); exact (lg_audience _ _ _ _ _ _ H) end.
  - intros credential audience now c Hv. unfold verify, local_read_verifier, local_read_verify in Hv. minv. subst.
    cbn [ac_envelope]. congruence.
Qed.

Section delegated_laws.
  Context {UH : UrlHosts} {RR : RegistryReader}.

(** The times that pydantic reads are times. *)
Definition reads_times : Prop := ∀ raw rs r, registry_fields raw = Some rs → r ∈ rs → datetime_ok (cm_expires_at (dc_manifest r)) = true.

Lemma new_manifest_Ok m m' : new_manifest m = Ok m' →
  cm_expires_at m' = cm_expires_at m ∧ aware (cm_not_before m') = true ∧ aware (cm_expires_at m') = true
  ∧ 1 <= cm_version m' ∧ issubset (cm_granted_scopes m') (map grant_scope (cm_read_grants m')) = true.
Proof.
  unfold new_manifest, as_model, _validate_grants. intros H%rethrow_Ok. minv. bools. subst. by split_and!.
Qed.

Lemma new_record_entry_Ok r r' : new_record_entry r = Ok r' →
  new_manifest (dc_manifest r) = Ok (dc_manifest r') ∧ dc_credential_digest r' = dc_credential_digest r
  ∧ dc_status r' = dc_status r
  ∧ dc_manifest_digest r' = sha256_hex (_canonical_json (manifest_dump (dc_manifest r'))).
Proof.
  unfold new_record_entry, as_model. intros H%rethrow_Ok. minv. bools. subst. by split_and!.
Qed.

Definition replaces (r : DelegatedCredentialRecord) : option string := cm_replaces_credential_id (dc_manifest r).

(** What the loop checks of a record and its predecessor. *)
Definition succeeds (p r : DelegatedCredentialRecord) : Prop :=
  cm_subject_public_key (dc_manifest p) = cm_subject_public_key (dc_manifest r)
  ∧ cm_request_id (dc_manifest p) = cm_request_id (dc_manifest r)
  ∧ cm_version (dc_manifest p) < cm_version (dc_manifest r).

Lemma replacement_targets_Ok all todo targets out : replacement_targets all todo targets = Ok out → NoDup targets →
  out ≡ₚ omap replaces todo ++ targets ∧ NoDup out
  ∧ ∀ r i, r ∈ todo → replaces r = Some i → ∃ p, by_credential_id i all = Some p ∧ succeeds p r.
Proof.
  revert targets. induction todo as [|r todo IH]; intros targets.
  - intros [= <-] Hn. split; [done|]. split; [done|]. by intros r i Hr%not_elem_of_nil.
  - cbn [replacement_targets omap]. fold (replaces r). unfold omap in *. cbn [list_omap]. destruct (replaces r) as [i|] eqn:Er.
    + intros H Hn. apply res_bind_Ok in H as (p & Hp%of_option_Ok & H). apply res_bind_Ok in H as ([] & Hg%raise_if_Ok & H).
      bools. unfold str_in in *. bools. apply IH in H as (Hperm & Hnd & Hall); [|by constructor].
      split; [etrans; [exact Hperm|]; symmetry; apply Permutation_middle|]. split; [done|]. intros r' j [->|Hr]%elem_of_cons Hj; [|eauto].
      rewrite Er in Hj. injection Hj as ->. exists p. split; [done|]. by split_and!.
    + intros H Hn. apply IH in H as (Hperm & Hnd & Hall); [|done]. split; [done|]. split; [done|].
      intros r' j [->|Hr]%elem_of_cons Hj; [congruence|eauto].
Qed.

Lemma omap_unique {A B} (f : A → option B) l x y i : NoDup (omap f l) → x ∈ l → y ∈ l → f x = Some i → f y = Some i → x = y.
Proof.
  induction l as [|z l IH]; [by intros _ Hx%not_elem_of_nil|]. cbn. intros Hn Hx Hy Hfx Hfy.
  assert (∀ w, w ∈ l → f w = Some i → f z = Some i → False) as Hno.
  { intros w Hw Hfw Hfz. rewrite Hfz in Hn. apply NoDup_cons in Hn as [Hn _]. apply Hn, list_elem_of_omap. by exists w. }
  assert (NoDup (omap f l)) as Hn' by (destruct (f z); [by apply NoDup_cons in Hn as [_ ?]|done]).
  apply elem_of_cons in Hx as [->|Hx], Hy as [->|Hy]; [done|exfalso; eauto..|eauto].
Qed.

Lemma by_credential_id_Some i rs p : by_credential_id i rs = Some p → p ∈ rs ∧ record_id p = i.
Proof.
  unfold by_credential_id. intros H. apply find_some in H as [H1 H2]. apply list_elem_of_In in H1. by bools.
Qed.

(** What the validators of a registry establish. *)
Record registry_ok (rs : list DelegatedCredentialRecord) : Prop := {
  ro_nonempty : rs ≠ [];
  ro_ids : NoDup (map record_id rs);
  ro_digests : NoDup (map dc_credential_digest rs);
  ro_records : ∀ r, r ∈ rs → dc_manifest_digest r = sha256_hex (_canonical_json (manifest_dump (dc_manifest r)))
    ∧ aware (cm_not_before (dc_manifest r)) = true ∧ aware (cm_expires_at (dc_manifest r)) = true
    ∧ 1 <= cm_version (dc_manifest r)
    ∧ issubset (cm_granted_scopes (dc_manifest r)) (map grant_scope (cm_read_grants (dc_manifest r))) = true;
  ro_chain : ∀ r i, r ∈ rs → replaces r = Some i → ∃ p, p ∈ rs ∧ record_id p = i ∧ succeeds p r;
  ro_once : ∀ r r' i, r ∈ rs → r' ∈ rs → replaces r = Some i → replaces r' = Some i → r = r';
  ro_superseded : ∀ r, r ∈ rs → dc_status r = superseded → ∃ r', r' ∈ rs ∧ replaces r' = Some (record_id r)
}.

Lemma new_registry_Ok rs rs' : new_registry rs = Ok rs' → registry_ok rs' ∧ Forall2 (λ r r', new_record_entry r = Ok r') rs rs'.
Proof.
  unfold new_registry, as_model. intros H%rethrow_Ok. apply res_bind_Ok in H as (es & Hes%res_mapM_Ok & H).
  apply res_bind_Ok in H as ([] & Hne%raise_if_Ok & H). apply res_bind_Ok in H as ([] & Hd%raise_if_Ok & H).
  apply res_bind_Ok in H as (targets & Ht & H). apply res_bind_Ok in H as ([] & Hs%raise_if_Ok & [= <-]).
  unfold no_dups in Hd. bools. apply replacement_targets_Ok in Ht as (Hperm & Hnd & Hall); [|constructor].
  rewrite app_nil_r in Hperm. split; [|done]. split; [by intros ->|done|done|..].
  - intros r Hr. apply list_elem_of_lookup in Hr as [n Hn]. eapply Forall2_lookup_r in Hes as (r0 & _ & He); [|exact Hn].
    apply new_record_entry_Ok in He as (Hm & _ & _ & Hdg). apply new_manifest_Ok in Hm as (_ & ? & ? & ? & ?). by split_and!.
  - intros r i Hr Hi. destruct (Hall r i Hr Hi) as (p & [? ?]%by_credential_id_Some & ?). by exists p.
  - intros r r' i Hr Hr' Hi Hi'. eapply omap_unique; [|exact Hr|exact Hr'|done|done]. by rewrite <-Hperm.
  - intros r Hr Hst. assert (record_id r ∈ targets) as Hin.
    { destruct (str_in (record_id r) targets) eqn:E; [by apply str_in_spec|]. exfalso.
      enough (existsb (λ r, bool_decide (dc_status r = superseded) && negb (str_in (record_id r) targets)) es = true) by congruence.
      apply existsb_exists. exists r. split; [by apply list_elem_of_In|]. by rewrite bool_decide_true, E by done. }
    rewrite Hperm in Hin. by apply list_elem_of_omap in Hin.
Qed.

Lemma delegated_registry_Ok file rs : delegated_registry file = Ok rs →
  registry_ok rs ∧ ∃ raw fields, file = Some raw ∧ registry_fields raw = Some fields ∧ Forall2 (λ r r', new_record_entry r = Ok r') fields rs
  ∧ raw = _canonical_json (registry_dump rs).
Proof.
  unfold delegated_registry. intros H. apply res_bind_Ok in H as (raw & Hf%of_option_Ok & H).
  apply res_bind_Ok in H as ([] & _ & H). apply res_bind_Ok in H as (rs0 & Hr%rethrow_Ok & H).
  apply res_bind_Ok in Hr as (fs & Hfs%of_option_Ok & [Hok Hall]%new_registry_Ok). minv. bools. subst. split; [done|]. by eexists _, fs.
Qed.

(** A verified delegated bearer, and where its authority comes from. *)
Record delegated_grant (rs : list DelegatedCredentialRecord) (c audience : string) (now : datetime)
    (r : DelegatedCredentialRecord) (e : CredentialEnvelope) : Prop := {
  dg_record : r ∈ rs;
  dg_digest : dc_credential_digest r = sha256_hex c;
  dg_active : dc_status r = active;
  dg_from : instant (cm_not_before (dc_manifest r)) <= instant now;
  dg_until : instant now < instant (cm_expires_at (dc_manifest r));
  dg_aware : aware now = true;
  dg_envelope : delegated_envelope r = Ok e
}.

Lemma delegated_verify_Ok v credential audience now ctx : delegated_verify v credential audience now = Ok ctx →
  ∃ c rs r, credential = Some c ∧ audience = dv_audience v ∧ delegated_registry (dv_file v) = Ok rs
  ∧ delegated_grant rs c audience now r (ac_envelope ctx).
Proof.
  unfold delegated_verify. intros H. apply res_bind_Ok in H as (c & Hc%of_option_Ok & H).
  apply res_bind_Ok in H as ([] & _ & H). apply res_bind_Ok in H as ([] & Ha%raise_if_Ok & H).
  apply res_bind_Ok in H as ([] & Hn%raise_if_Ok & H). apply res_bind_Ok in H as (rs & Hrs%rethrow_Ok & H).
  apply res_bind_Ok in H as (r & Hr%of_option_Ok & H). apply res_bind_Ok in H as ([] & Hv%raise_if_Ok & H).
  apply res_bind_Ok in H as ([] & Hsp%raise_if_Ok & H). apply res_bind_Ok in H as (early & [_ ->]%datetime_gt_Ok & H).
  apply res_bind_Ok in H as ([] & He%raise_if_Ok & H). apply res_bind_Ok in H as (later & [_ ->]%datetime_gt_Ok & H).
  apply res_bind_Ok in H as ([] & Hl%raise_if_Ok & H). apply res_bind_Ok in H as (e & Henv & [= <-]). bools.
  apply find_some in Hr as [Hin Hdg]. apply list_elem_of_In in Hin. bools.
  exists c, rs, r. split_and!; [done..|]. split; try done; try lia. by destruct (dc_status r).
Qed.

Lemma delegated_envelope_Ok r e : delegated_envelope r = Ok e →
  astimezone_utc (cm_expires_at (dc_manifest r)) = Ok (ce_expires_at e) ∧ ce_audience e = "devgraph"
  ∧ ce_scopes e = cm_granted_scopes (dc_manifest r) ∧ ce_read_grants e = cm_read_grants (dc_manifest r)
  ∧ ce_credential_id e = Some (record_id r) ∧ ce_actor_id e = record_id r.
Proof.
  unfold delegated_envelope. intros H. apply res_bind_Ok in H as (t & Ht & [-> _]%new_envelope_Ok). by split_and!.
Qed.

(** A verifier that was constructed serves the audience of the manifests. *)
Lemma delegated_laws v v0 : reads_times → new_delegated_verifier v0 = Ok v → CredentialVerifierLaws v.
Proof.
  intros Htimes Hv. assert (dv_audience v = "devgraph") as Haud.
  { unfold new_delegated_verifier in Hv. apply res_bind_Ok in Hv as ([] & _ & Hv).
    apply res_bind_Ok in Hv as (rs & [Hok _]%delegated_registry_Ok & Hv).
    apply res_bind_Ok in Hv as ([] & Hb%raise_if_Ok & [= <-]). destruct rs; [by destruct (ro_nonempty _ Hok)|].
    cbn [existsb] in Hb. apply orb_false_iff in Hb as [Hb _]. by bools. }
  split.
  - intros credential audience now ctx Hctx. apply delegated_verify_Ok in Hctx as (c & rs & r & _ & -> & _ & [_ _ _ _ _ _ He]).
    apply delegated_envelope_Ok in He as (_ & -> & _). done.
  - intros credential audience now ctx Hctx. apply delegated_verify_Ok in Hctx as (c & rs & r & _ & _ & Hrs & [Hin _ _ _ Hu Hw He]).
    apply delegated_envelope_Ok in He as (Ht & _). apply delegated_registry_Ok in Hrs as [Hok (raw & fs & _ & Hfs & Hall & _)].
    apply list_elem_of_lookup in Hin as [n Hn]. eapply Forall2_lookup_r in Hall as (r0 & Hr0 & Hnew); [|exact Hn].
    apply new_record_entry_Ok in Hnew as (Hm & _). apply new_manifest_Ok in Hm as (Hx & _).
    assert (datetime_ok (cm_expires_at (dc_manifest r)) = true) as Hdt.
    { rewrite Hx. eapply Htimes; [exact Hfs|]. by apply list_elem_of_lookup_2 in Hr0. }
    destruct (astimezone_instant _ _ Hdt Ht) as [Hi Hia].
    unfold is_expired. rewrite (proj2 (datetime_gt_Ok _ _ true)); [done|]. rewrite Hia, Hw, Hi. split; [done|].
    symmetry. by apply Z.ltb_lt.
Qed.

End delegated_laws.

(** ** Properties *)

Section properties.
  Context {UH : UrlHosts} {RR : RegistryReader}.

Lemma NoDup_map_unique {A B} (f : A → B) l x y : NoDup (map f l) → x ∈ l → y ∈ l → f x = f y → x = y.
Proof.
  induction l as [|z l IH]; [by intros _ Hx%not_elem_of_nil|]. cbn [map]. intros [Hz Hn]%NoDup_cons Hx Hy E.
  assert (∀ w, w ∈ l → f w = f z → False) as Hno.
  { intros w Hw Ew. apply Hz. rewrite <-Ew. by apply (list_elem_of_fmap_2 f). }
  apply elem_of_cons in Hx as [->|Hx], Hy as [->|Hy]; [done|exfalso; eauto..|eauto].
Qed.

(** C11: A delegated bearer is accepted only through the registry: its digest is the
    digest of exactly one record, that record is active, its manifest is the one
    whose digest the record holds and is in force at the time of the call, and the
    context carries the scopes and grants of that manifest and no others, each
    scope backed by a grant. *)
Theorem delegated_bearer_authentic v credential audience now ctx :
  delegated_verify v credential audience now = Ok ctx →
  ∃ c rs r, credential = Some c ∧ delegated_registry (dv_file v) = Ok rs ∧ r ∈ rs
  ∧ (∀ r', r' ∈ rs → dc_credential_digest r' = sha256_hex c → r' = r)
  ∧ dc_status r = active
  ∧ dc_manifest_digest r = sha256_hex (_canonical_json (manifest_dump (dc_manifest r)))
  ∧ instant (cm_not_before (dc_manifest r)) <= instant now < instant (cm_expires_at (dc_manifest r))
  ∧ ce_scopes (ac_envelope ctx) = cm_granted_scopes (dc_manifest r)
  ∧ ce_read_grants (ac_envelope ctx) = cm_read_grants (dc_manifest r)
  ∧ (∀ scope, scope ∈ ce_scopes (ac_envelope ctx) → ∃ g, g ∈ ce_read_grants (ac_envelope ctx) ∧ grant_scope g = scope).
Proof.
  intros H. apply delegated_verify_Ok in H as (c & rs & r & -> & _ & Hrs & [Hin Hd Ha Hf Hu _ He]).
  destruct (delegated_registry_Ok _ _ Hrs) as [Hok _]. destruct (ro_records _ Hok r Hin) as (Hm & _ & _ & _ & Hsub).
  apply delegated_envelope_Ok in He as (_ & _ & Hs & Hg & _). exists c, rs, r. split_and!; try done.
  - intros r' Hr' Hd'. eapply NoDup_map_unique; [exact (ro_digests _ Hok)|done|done|congruence].
  - rewrite Hs, Hg. intros scope Hsc. unfold issubset in Hsub. rewrite forallb_forall in Hsub.
    specialize (Hsub scope (proj1 (list_elem_of_In _ _) Hsc)). apply str_in_spec in Hsub.
    apply list_elem_of_fmap in Hsub as (g & -> & ?). by exists g.
Qed.

(** In every registry that validates, replacement runs along finite chains: a
    record that replaces another has a predecessor in the registry, of the same
    subject and request and of a lower version; no credential is replaced twice;
    a superseded credential has been replaced; and the chain of predecessors ends. *)
Theorem replacement_chains fields rs :
  new_registry fields = Ok rs →
  (∀ r i, r ∈ rs → replaces r = Some i → ∃ p, p ∈ rs ∧ record_id p = i ∧ succeeds p r)
  ∧ (∀ r r' i, r ∈ rs → r' ∈ rs → replaces r = Some i → replaces r' = Some i → r = r')
  ∧ (∀ r, r ∈ rs → dc_status r = superseded → ∃ r', r' ∈ rs ∧ replaces r' = Some (record_id r))
  ∧ well_founded (λ p r, p ∈ rs ∧ r ∈ rs ∧ replaces r = Some (record_id p)).
Proof.
  intros [Hok _]%new_registry_Ok. split; [exact (ro_chain _ Hok)|]. split; [exact (ro_once _ Hok)|]. split; [exact (ro_superseded _ Hok)|].
  refine (wf_projected (R1 := λ p r, p ∈ rs ∧ r ∈ rs ∧ replaces r = Some (record_id p)) Nat.lt
    (λ r, Z.to_nat (cm_version (dc_manifest r))) _ Nat.lt_wf_0).
  intros p r (Hp & Hr & Hpr). destruct (ro_chain _ Hok r _ Hr Hpr) as (p' & Hp' & Hid & (_ & _ & Hv)).
  assert (p' = p) as -> by (eapply NoDup_map_unique; [exact (ro_ids _ Hok)|done..]).
  destruct (ro_records _ Hok p Hp) as (_ & _ & _ & ? & _). lia.
Qed.

Lemma read_scope_category category : dict_get category REQUIRED_SCOPE_BY_CATEGORY = Some "devgraph.read" → category = "read".
Proof.
  intros Hd%dict_get_elem. unfold REQUIRED_SCOPE_BY_CATEGORY in Hd.
  repeat (apply elem_of_cons in Hd as [[=]|Hd]; [congruence..|]). by apply not_elem_of_nil in Hd.
Qed.

(** The local read bearer can only read, and only for its time: an accepted credential
    hashes to the digest of the registry, its context has the read scope alone and
    no grants, and the call lies within an interval of at most 31 days that the
    registry names. *)
Theorem local_bearer_read_only v credential audience now ctx :
  local_read_verify v credential audience now = Ok ctx →
  ∃ c d issued expires, credential = Some c ∧ local_registry (lr_file v) = Ok d
  ∧ str_entry "credential_digest_sha256" d = Some (sha256_hex c)
  ∧ int_entry "issued_at" d = Some issued ∧ int_entry "expires_at" d = Some expires
  ∧ expires - issued <= 31 * 86400
  ∧ instant unix_epoch + issued * 1000000 <= instant now < instant unix_epoch + expires * 1000000
  ∧ ce_scopes (ac_envelope ctx) = ["devgraph.read"] ∧ ce_read_grants (ac_envelope ctx) = []
  ∧ (∀ category, dict_get category REQUIRED_SCOPE_BY_CATEGORY = Some "devgraph.read" → category = "read").
Proof.
  unfold local_read_verify. intros H. apply res_bind_Ok in H as (c & Hc%of_option_Ok & H).
  apply res_bind_Ok in H as ([] & _ & H). apply res_bind_Ok in H as ([] & _ & H). apply res_bind_Ok in H as ([] & _ & H).
  apply res_bind_Ok in H as ([d e] & Hr%rethrow_Ok & H). apply res_bind_Ok in H as ([] & Hd%raise_if_Ok & H).
  apply res_bind_Ok in H as (expired & Hx & H). apply res_bind_Ok in H as ([] & Hb%raise_if_Ok & [= <-]). subst expired. cbn [fst snd] in *.
  apply res_bind_Ok in Hr as (d' & Hd' & Hr). apply res_bind_Ok in Hr as (e' & He & [= <- <-]).
  apply validated_envelope_Ok in He as (issued & expires & [[digest Hcl] (t & Ht & Hte & Hti) Hs _ Hg]).
  apply local_claims_Some in Hcl as (Hi & He & _ & _ & Hie & Hlife). exists c, d', issued, expires.
  apply add_seconds_instant in Ht as (_ & _ & Ht); [|done|lia]. apply add_seconds_instant in Hte as (_ & _ & Hte); [|done|lia].
  unfold is_expired in Hx. apply res_bind_Ok in Hx as (later & [_ ->]%datetime_gt_Ok & [= Hl]). bools.
  unfold LOCAL_READ_MAX_LIFETIME_SECONDS in Hlife. split_and!; try done; try lia.
  exact read_scope_category.
Qed.

End properties.

(** ** Witnesses *)

Section witnesses.

#[local] Instance plain_hosts : UrlHosts := {| bracketed_netloc_ok := λ _, false |}.

Definition ex_bearer (c : ascii) : string := "dgrd1_" +:+ string_of_list_ascii (replicate 43 c).

Definition ex_rotation (i : string) (v : Z) (previous : option string) : CredentialManifest :=
  {| cm_credential_id := i; cm_request_id := "r"; cm_version := v; cm_subject_public_key := ex_key;
     cm_granted_scopes := ["devgraph.arena.read"]; cm_allowed_origins := ["https://host.example"];
     cm_read_grants := [arena_grant ["a1"]]; cm_issued_at := epoch; cm_not_before := epoch;
     cm_expires_at := at_minute 5; cm_replaces_credential_id := previous; cm_issuer_key_id := "owner" |}.

Definition ex_credential (c : ascii) (m : CredentialManifest) (st : CredentialStatus) : DelegatedCredentialRecord :=
  {| dc_credential_digest := sha256_hex (ex_bearer c); dc_manifest := m;
     dc_manifest_digest := sha256_hex (_canonical_json (manifest_dump m)); dc_status := st |}.

Definition ex_registry : list DelegatedCredentialRecord :=
  [ex_credential "a" (ex_rotation "c1" 1 None) superseded; ex_credential "b" (ex_rotation "c2" 2 (Some "c1")) active].

(** A reader that knows one file. *)
#[local] Instance one_file : RegistryReader :=
  {| registry_fields := λ raw, if String.eqb raw (_canonical_json (registry_dump ex_registry)) then Some ex_registry else None |}.

Definition ex_receiver : DelegatedReadCredentialVerifier :=
  {| dv_file := Some (_canonical_json (registry_dump ex_registry)); dv_audience := "devgraph" |}.

Lemma replacement_chains_witness : new_registry ex_registry = Ok ex_registry
  ∧ ∃ p, p ∈ ex_registry ∧ record_id p = "c1" ∧ succeeds p (ex_credential "b" (ex_rotation "c2" 2 (Some "c1")) active).
Proof.
  assert (new_registry ex_registry = Ok ex_registry) as H by (vm_compute; reflexivity). split; [exact H|].
  refine (proj1 (replacement_chains ex_registry ex_registry H) _ "c1" _ _).
  - right. left.
  - reflexivity.
Defined.

Lemma delegated_bearer_authentic_witness :
  is_ok (delegated_verify ex_receiver (Some (ex_bearer "b")) "devgraph" epoch) = true
  ∧ is_ok (delegated_verify ex_receiver (Some (ex_bearer "a")) "devgraph" epoch) = false
  ∧ ∃ ctx r, delegated_verify ex_receiver (Some (ex_bearer "b")) "devgraph" epoch = Ok ctx ∧ dc_status r = active
    ∧ ce_scopes (ac_envelope ctx) = cm_granted_scopes (dc_manifest r).
Proof.
  assert (is_ok (delegated_verify ex_receiver (Some (ex_bearer "b")) "devgraph" epoch) = true) as H by (vm_compute; reflexivity).
  split; [exact H|]. split; [vm_compute; reflexivity|].
  destruct (delegated_verify ex_receiver (Some (ex_bearer "b")) "devgraph" epoch) as [ctx|] eqn:E; [|discriminate H].
  destruct (delegated_bearer_authentic _ _ _ _ _ E) as (c & rs & r & _ & _ & _ & _ & Ha & _ & _ & Hs & _).
  exists ctx, r. split; [reflexivity|]. split; [exact Ha|exact Hs].
Defined.

(** A manifest bounds the length of its identifiers, an envelope their alphabet: the
    verifier raises a [ValueError] for an active credential whose identifier has
    another character, where its protocol promises a context or an
    [UnauthenticatedError]. *)
Definition ex_spaced : list DelegatedCredentialRecord := [ex_credential "d" (ex_rotation "c 1" 1 None) active].

Definition spaced_file : RegistryReader := {| registry_fields := λ _, Some ex_spaced |}.

Lemma registered_identifier_escapes :
  new_registry ex_spaced = Ok ex_spaced
  ∧ delegated_verify (H0 := spaced_file)
      {| dv_file := Some (_canonical_json (registry_dump ex_spaced)); dv_audience := "devgraph" |}
      (Some (ex_bearer "d")) "devgraph" epoch = Err (ValueError "invalid identifier").
Proof. split; vm_compute; reflexivity. Qed.

Definition ex_local_bearer : string := "dgread1_" +:+ string_of_list_ascii (replicate 43 "z"%char).

Definition ex_local_registry : value :=
  VDict (mk_dict [("schema", VStr "devgraph-local-read-credential-registry.v1"); ("schema_version", VInt 1);
    ("actor_id", VStr "actor"); ("session_id", VStr "session"); ("correlation_id", VStr "call"); ("issuer", VStr "owner");
    ("audience", VStr "devgraph"); ("issued_at", VInt 1000); ("expires_at", VInt 2000);
    ("credential_digest_sha256", VStr (sha256_hex ex_local_bearer))]).

Definition ex_local : LocalReadCredentialVerifier :=
  {| lr_file := Some (_canonical_json ex_local_registry); lr_audience := "devgraph" |}.

Lemma local_bearer_read_only_witness :
  is_ok (local_read_verify ex_local (Some ex_local_bearer) "devgraph" (Datetime 1970 1 1 0 20 0 0 (Some 0))) = true
  ∧ is_ok (local_read_verify ex_local (Some ex_local_bearer) "devgraph" (Datetime 1970 1 1 1 0 0 0 (Some 0))) = false
  ∧ ∃ ctx, local_read_verify ex_local (Some ex_local_bearer) "devgraph" (Datetime 1970 1 1 0 20 0 0 (Some 0)) = Ok ctx
    ∧ ce_scopes (ac_envelope ctx) = ["devgraph.read"].
Proof.
  assert (is_ok (local_read_verify ex_local (Some ex_local_bearer) "devgraph" (Datetime 1970 1 1 0 20 0 0 (Some 0))) = true) as H
    by (vm_compute; reflexivity).
  split; [exact H|]. split; [vm_compute; reflexivity|].
  destruct (local_read_verify ex_local (Some ex_local_bearer) "devgraph" _) as [ctx|] eqn:E; [|discriminate H].
  destruct (local_bearer_read_only _ _ _ _ _ E) as (c & d & issued & expires & _ & _ & _ & _ & _ & _ & _ & Hs & _).
  exists ctx. split; [reflexivity|exact Hs].
Defined.

End witnesses.
