(* ===== verification/Verifier.v ===== *)
(** * Verification of signed authority

    The three verifiers of portable authority: [SecSIssueCreateVerifier] of
    [src/devgraph/auth/secs_issue_create.py], [SecSWorkVerifier] of
    [auth/secs_work.py] and [SecSWorkV2Verifier] of [auth/secs_work_v2.py], with
    the key and policy registries, [named_requests.py], [credential_requests.py]
    and [auth/sdk_receiver_profile.py].  The signature check itself is a library
    call and the class [Ed25519]; a clock reading is an argument, [None] when the
    clock raises. *)

From stdpp Require Import base gmap strings list sorting.
From Stdlib Require Import ZArith Ascii String.
From S2P Require Import Prelude Json Sha256 Datetime Validation WorkflowContract StrictJson Model Storage NamedWork Requests Outbox Grants.

Local Open Scope Z_scope.

(** [Ed25519PublicKey.from_public_bytes(key).verify(signature, message)] returns
    ([true]) or raises [InvalidSignature] or [ValueError]. *)
Class Ed25519 : Type := { ed25519_verify : string → string → string → bool }.

(** ** Patterns and integers *)

Definition _ACTOR_ID (s : string) : bool := match strip_prefix "pubkey:sha256:" s with Some h => is_hex64 h | None => false end.

Definition _SECS_CONTEXT_ID (s : string) : bool := match strip_prefix "ctx:sha256:" s with Some h => is_hex64 h | None => false end.

Definition safe_label (hi : Z) (s : string) : bool :=
  str_forall (λ c, is_alnum c || has_char c "._:-") s && (1 <=? str_len s) && (str_len s <=? hi).

Definition _SAFE_LABEL_128 : string → bool := safe_label 128.

Definition _SAFE_LABEL_256 : string → bool := safe_label 256.

Definition _ISSUE_RESOURCE (s : string) : bool :=
  match strip_prefix "Issue/" s with Some i => _ID_PATTERN i | None => false end.

Definition is_text (p : string → bool) (v : value) : bool := match v with VStr s => p s | _ => false end.

Definition _require_nonnegative_safe_integer (v : value) (reason : string) : res Z :=
  let refused := if bool_decide (is_Some (strip_prefix "invalid " reason)) then ValueError reason else SecSIssueCreateDenied reason in
  match v with
  | VInt z => raise_if ((z <? 0) || (DEVGRAPH_JSON_SAFE_INTEGER_MAX_V1 <? z)) refused;; Ok z
  | _ => Err refused
  end.

Definition _digest_idempotency_key (k : string) : res string :=
  raise_if (negb (_EXACT_IDEMPOTENCY_KEY k)) (SecSIssueCreateDenied "invalid_devgraph_idempotency_key");;
  Ok (sha256_hex k).

(** ** Base64 without padding *)

Definition b64_digit (c : ascii) : option N :=
  if is_upper c then Some (code c - 65)%N
  else if is_lower c then Some (code c - 71)%N
  else if is_digit c then Some (code c + 4)%N
  else if Ascii.eqb c "-" then Some 62%N
  else if Ascii.eqb c "_" then Some 63%N
  else None.

Definition b64_char (n : N) : ascii :=
  if (n <? 26)%N then ascii_of_N (n + 65)
  else if (n <? 52)%N then ascii_of_N (n + 71)
  else if (n <? 62)%N then ascii_of_N (n - 4)
  else if (n =? 62)%N then "-" else "_".

(** [base64.b64decode] of the padded text; the bits after the last byte are
    dropped. *)
Fixpoint b64decode (s : string) : option string :=
  match s with
  | EmptyString => Some ""
  | String a (String b (String c (String d s'))) =>
      w ← b64_digit a; x ← b64_digit b; y ← b64_digit c; z ← b64_digit d; r ← b64decode s';
      Some (String (ascii_of_N (w * 4 + x / 16)) (String (ascii_of_N (x mod 16 * 16 + y / 4))
             (String (ascii_of_N (y mod 4 * 64 + z)) r)))
  | String a (String b (String c EmptyString)) =>
      w ← b64_digit a; x ← b64_digit b; y ← b64_digit c;
      Some (String (ascii_of_N (w * 4 + x / 16)) (String (ascii_of_N (x mod 16 * 16 + y / 4)) ""))
  | String a (String b EmptyString) =>
      w ← b64_digit a; x ← b64_digit b; Some (String (ascii_of_N (w * 4 + x / 16)) "")
  | String _ EmptyString => None
  end.

(** [base64.urlsafe_b64encode(...).rstrip("=")]. *)
Fixpoint b64encode (s : string) : string :=
  match s with
  | EmptyString => ""
  | String a (String b (String c s')) =>
      String (b64_char (code a / 4)) (String (b64_char (code a mod 4 * 16 + code b / 16))
        (String (b64_char (code b mod 16 * 4 + code c / 64)) (String (b64_char (code c mod 64)) (b64encode s'))))
  | String a (String b EmptyString) =>
      String (b64_char (code a / 4)) (String (b64_char (code a mod 4 * 16 + code b / 16))
        (String (b64_char (code b mod 16 * 4)) ""))
  | String a EmptyString => String (b64_char (code a / 4)) (String (b64_char (code a mod 4 * 16)) "")
  end.

Definition _decode_base64url (v : value) (encoded_length decoded_length : Z) (reason : string) : res string :=
  match v with
  | VStr s =>
      raise_if (negb (str_len s =? encoded_length) || negb (bool_decide (s ≠ "") && str_forall (λ c, bool_decide (is_Some (b64_digit c))) s))
        (SecSIssueCreateDenied reason);;
      d ← of_option (SecSIssueCreateDenied reason) (b64decode s);
      raise_if (negb (str_len d =? decoded_length) || negb (String.eqb (b64encode d) s)) (SecSIssueCreateDenied reason);;
      Ok d
  | _ => Err (SecSIssueCreateDenied reason)
  end.

(** ** Encodings of Ed25519 *)

(** [int.from_bytes(b, "little")]. *)
Fixpoint le_int (b : string) : Z :=
  match b with EmptyString => 0 | String c b' => Z.of_N (code c) + 256 * le_int b' end.

Definition _ED25519_FIELD_PRIME : Z := 2 ^ 255 - 19.

Definition _ED25519_SCALAR_ORDER : Z := 2 ^ 252 + 27742317777372353535851937790883648493.

Fixpoint repeat_text (n : nat) (s : string) : string := match n with O => "" | S n' => s +:+ repeat_text n' s end.

Definition _ED25519_SMALL_ORDER_ENCODINGS : list string := map fromhex
  [repeat_text 32 "00"; "01" +:+ repeat_text 31 "00";
   "26e8958fc2b227b045c3f489f2ef98f0d5dfac05d3c63339b13802886d53fc05";
   "c7176a703d4dd84fba3c0b760d10670f2a2053fa2c39ccc64ec7fd7792ac037a";
   "ec" +:+ repeat_text 30 "ff" +:+ "7f"; "ed" +:+ repeat_text 30 "ff" +:+ "7f"; "ee" +:+ repeat_text 30 "ff" +:+ "7f"].

(** The last byte without its sign bit. *)
Fixpoint without_sign (b : string) : string :=
  match b with
  | EmptyString => ""
  | String c EmptyString => String (ascii_of_N (code c mod 128)) ""
  | String c b' => String c (without_sign b')
  end.

Definition _is_strict_ed25519_point_encoding (b : string) : bool :=
  (str_len b =? 32)
  && (le_int (without_sign b) <? _ED25519_FIELD_PRIME) && negb (str_in (without_sign b) _ED25519_SMALL_ORDER_ENCODINGS).

Definition signature_encoding_ok (signature : string) : bool :=
  _is_strict_ed25519_point_encoding (substring 0 32 signature)
  && (le_int (substring 32 32 signature) <? _ED25519_SCALAR_ORDER).

(** ** Policy bindings *)

Record SecSIssueCreatePolicyBinding := { pb_policy_id : string; pb_policy_version : Z; pb_policy_digest : string }.

(** [SecSIssueCreatePolicyBinding.__post_init__]. *)
Definition new_binding (b : SecSIssueCreatePolicyBinding) : res SecSIssueCreatePolicyBinding :=
  let refused := ValueError "invalid receiver policy binding" in
  raise_if (negb (_SAFE_LABEL_128 (pb_policy_id b))) refused;;
  _require_nonnegative_safe_integer (VInt (pb_policy_version b)) "invalid receiver policy binding";;
  raise_if ((pb_policy_version b =? 0) || negb (is_hex64 (pb_policy_digest b))) refused;;
  Ok b.

Record SecSIssueCreatePolicyRegistry := {
  pr_bindings : gmap (string * Z) SecSIssueCreatePolicyBinding;
  pr_duplicates : gset (string * Z)
}.

Definition binding_key (b : SecSIssueCreatePolicyBinding) : string * Z := (pb_policy_id b, pb_policy_version b).

Definition add_binding (r : SecSIssueCreatePolicyRegistry) (b : SecSIssueCreatePolicyBinding) : SecSIssueCreatePolicyRegistry :=
  {| pr_bindings := <[binding_key b := b]> (pr_bindings r);
     pr_duplicates := match pr_bindings r !! binding_key b with
                      | Some _ => {[binding_key b]} ∪ pr_duplicates r
                      | None => pr_duplicates r
                      end |}.

Definition new_policy_registry (bs : list SecSIssueCreatePolicyBinding) : res SecSIssueCreatePolicyRegistry :=
  raise_if (bool_decide (length bs = 0%nat)) (ValueError "empty receiver policy registry");;
  Ok (foldl add_binding {| pr_bindings := ∅; pr_duplicates := ∅ |} bs).

Definition require_binding (r : SecSIssueCreatePolicyRegistry) (policy_id : string) (policy_version : Z) (policy_digest : string) :
    res SecSIssueCreatePolicyBinding :=
  let refused := SecSIssueCreateDenied "secs_receiver_policy_mismatch" in
  raise_if (bool_decide ((policy_id, policy_version) ∈ pr_duplicates r)) refused;;
  b ← of_option refused (pr_bindings r !! (policy_id, policy_version));
  raise_if (negb (String.eqb (pb_policy_digest b) policy_digest)) refused;;
  Ok b.

(** ** Verifier keys *)

Record SecSVerifierKey := {
  vk_key_id : string;
  vk_public_key : string;
  vk_algorithm : string;
  vk_status : string;
  vk_production_authority : bool;
  vk_not_before : option Z;
  vk_not_after : option Z;
  vk_revoked_at : option Z;
  vk_replaced_by : option string
}.

Definition invalid_key_record : exn := ValueError "invalid secS verifier key".

Definition optional_instant (o : option Z) : res unit :=
  match o with Some z => _require_nonnegative_safe_integer (VInt z) "invalid secS verifier key";; Ok tt | None => Ok tt end.

(** [SecSVerifierKey.__post_init__]. *)
Definition new_verifier_key (k : SecSVerifierKey) : res SecSVerifierKey :=
  raise_if (negb (_SAFE_LABEL_256 (vk_key_id k)) || negb (str_len (vk_public_key k) =? 32)) invalid_key_record;;
  optional_instant (vk_not_before k);; optional_instant (vk_not_after k);; optional_instant (vk_revoked_at k);;
  raise_if (match vk_replaced_by k with Some s => negb (_SAFE_LABEL_256 s) | None => false end) invalid_key_record;;
  Ok k.

Record SecSVerifierKeyRegistry := { kr_keys : gmap string SecSVerifierKey; kr_duplicates : gset string }.

Definition add_key (r : SecSVerifierKeyRegistry) (k : SecSVerifierKey) : SecSVerifierKeyRegistry :=
  {| kr_keys := <[vk_key_id k := k]> (kr_keys r);
     kr_duplicates := match kr_keys r !! vk_key_id k with
                      | Some _ => {[vk_key_id k]} ∪ kr_duplicates r
                      | None => kr_duplicates r
                      end |}.

Definition new_key_registry (ks : list SecSVerifierKey) : res SecSVerifierKeyRegistry :=
  raise_if (bool_decide (length ks = 0%nat)) (ValueError "empty secS verifier key registry");;
  Ok (foldl add_key {| kr_keys := ∅; kr_duplicates := ∅ |} ks).

Definition invalid_registry : exn := ValueError "invalid secS verifier key registry".

Definition _REGISTRY_KEY_REQUIRED_FIELDS : list string :=
  ["algorithm"; "key_id"; "production_authority"; "public_key_base64url"; "status"].

Definition _REGISTRY_KEY_OPTIONAL_FIELDS : list string := ["not_before"; "not_after"; "revoked_at"; "replaced_by"].

(** [type(x) is T] tests of the constructor on raw values. *)
Definition text_of (v : value) : res string := match v with VStr s => Ok s | _ => Err invalid_key_record end.
Definition flag_of (v : value) : res bool := match v with VBool b => Ok b | _ => Err invalid_key_record end.
Definition instant_of (v : value) : res (option Z) :=
  match v with VNone => Ok None | VInt z => Ok (Some z) | _ => Err invalid_key_record end.
Definition label_of (v : value) : res (option string) :=
  match v with VNone => Ok None | VStr s => Ok (Some s) | _ => Err invalid_key_record end.

Definition get_or_none (k : string) (d : list (string * value)) : value := default VNone (dict_get k d).

Definition verifier_key_of (v : value) : res SecSVerifierKey :=
  match v with
  | VDict d =>
      raise_if (negb (issubset _REGISTRY_KEY_REQUIRED_FIELDS (d.*1))
                || negb (issubset (d.*1) (_REGISTRY_KEY_REQUIRED_FIELDS ++ _REGISTRY_KEY_OPTIONAL_FIELDS))) invalid_registry;;
      rethrow (λ _, true) (λ _, invalid_registry)
       (public_key ← _decode_base64url (get_or_none "public_key_base64url" d) 43 32 "invalid secS verifier key registry";
        key_id ← text_of (get_or_none "key_id" d);
        algorithm ← text_of (get_or_none "algorithm" d);
        status ← text_of (get_or_none "status" d);
        production ← flag_of (get_or_none "production_authority" d);
        not_before ← instant_of (get_or_none "not_before" d);
        not_after ← instant_of (get_or_none "not_after" d);
        revoked_at ← instant_of (get_or_none "revoked_at" d);
        replaced_by ← label_of (get_or_none "replaced_by" d);
        new_verifier_key {| vk_key_id := key_id; vk_public_key := public_key; vk_algorithm := algorithm; vk_status := status;
          vk_production_authority := production; vk_not_before := not_before; vk_not_after := not_after;
          vk_revoked_at := revoked_at; vk_replaced_by := replaced_by |})
  | _ => Err invalid_registry
  end.

Definition key_registry_from_json (raw : string) : res SecSVerifierKeyRegistry :=
  d ← rethrow (λ e, match e with SecSIssueCreateDenied _ => true | _ => false end) (λ _, invalid_registry)
        (_strict_json_object 262144 "invalid secS verifier key registry" raw);
  raise_if (negb (issubset (d.*1) ["keys"; "schema"; "schema_version"] && issubset ["keys"; "schema"; "schema_version"] (d.*1)))
    invalid_registry;;
  raise_if (negb (bool_decide (dict_get "schema" d = Some (VStr "secs-public-verifier-key-registry.v1"))
                  && bool_decide (dict_get "schema_version" d = Some (VInt 1)))) invalid_registry;;
  match dict_get "keys" d with
  | Some (VList l) =>
      raise_if (negb ((1 <=? Z.of_nat (length l)) && (Z.of_nat (length l) <=? 256))) invalid_registry;;
      ks ← res_mapM verifier_key_of l;
      new_key_registry ks
  | _ => Err invalid_registry
  end.

Definition key_current (k : SecSVerifierKey) (now : Z) : res unit :=
  raise_if (match vk_not_before k with Some t => now <? t | None => false end) (SecSIssueCreateDenied "secs_verifier_key_not_yet_valid");;
  raise_if (match vk_not_after k with Some t => t <=? now | None => false end) (SecSIssueCreateDenied "secs_verifier_key_expired");;
  raise_if (match vk_revoked_at k with Some t => t <=? now | None => false end) (SecSIssueCreateDenied "secs_verifier_key_revoked").

Definition require_production_key (r : SecSVerifierKeyRegistry) (key_id : string) (now : Z) : res SecSVerifierKey :=
  raise_if (bool_decide (key_id ∈ kr_duplicates r)) (SecSIssueCreateDenied "unknown_secs_verifier_key");;
  k ← of_option (SecSIssueCreateDenied "unknown_secs_verifier_key") (kr_keys r !! key_id);
  raise_if (negb (String.eqb (vk_algorithm k) "ed25519" && vk_production_authority k && String.eqb (vk_status k) "active"
                  && _is_strict_ed25519_point_encoding (vk_public_key k))) (SecSIssueCreateDenied "untrusted_secs_verifier_key");;
  key_current k now;;
  Ok k.

Record SecSIssueCreateVerifierConfig := {
  vc_audience : string;
  vc_stable_issuer : string;
  vc_policy_registry : SecSIssueCreatePolicyRegistry;
  vc_key_registry : SecSVerifierKeyRegistry
}.

(** [SecSIssueCreateVerifierConfig.__post_init__]; [_is_safe_receiver_value] is the
    test of the outbox on audiences. *)
Definition new_verifier_config (c : SecSIssueCreateVerifierConfig) : res SecSIssueCreateVerifierConfig :=
  raise_if (negb (_is_safe_audience (vc_audience c)) || negb (_AUTHORITY_IDENTIFIER (vc_stable_issuer c)))
    (ValueError "invalid secS Issue-create verifier config");;
  Ok c.

(** ** Named requests *)

Inductive NamedRequest : Type :=
  | named_work (r : WorkRequest)
  | named_arena (r : ArenaRequest).

Definition is_denied (e : exn) : bool := match e with SecSIssueCreateDenied _ => true | _ => false end.

Definition parse_named_request (raw : string) : res NamedRequest :=
  rethrow (λ e, is_denied e || is_value_error e || is_type_error e) (λ _, InvalidWorkRequest "invalid_named_request")
   (d ← _strict_json_object 131072 "invalid_named_request" raw;
    match dict_get "schema" d with
    | Some (VStr s) =>
        if str_in s [WORK_REQUEST_SCHEMA; WORK_REQUEST_SCHEMA_V2] then r ← WorkRequest_from_json raw; Ok (named_work r)
        else if String.eqb s ARENA_REQUEST_SCHEMA then r ← ArenaRequest_from_json raw; Ok (named_arena r)
        else Err (ValueError "unknown named request domain")
    | _ => Err (ValueError "unknown named request domain")
    end).

(** The attributes that both kinds of request have. *)
Definition request_canonical (r : NamedRequest) : string := match r with named_work r => canonical r | named_arena r => ar_canonical r end.

Definition request_operation (r : NamedRequest) : res string :=
  match r with named_work r => authority_operation r | named_arena r => Ok (arena_authority_operation r) end.

Definition request_resources (r : NamedRequest) : list string :=
  match r with named_work r => resources r | named_arena r => ar_resources r end.

Definition request_expected_version (r : NamedRequest) : option Z :=
  match r with named_work r => rq_expected_version r | named_arena r => ar_expected_version r end.

Definition request_signing_bytes (r : NamedRequest) : res string :=
  match r with named_work r => signing_bytes r | named_arena r => Ok (arena_signing_bytes r) end.

Definition request_digest (r : NamedRequest) : res string :=
  match r with named_work r => digest r | named_arena r => Ok (arena_digest r) end.

(** ** The disclosure of a request *)

Definition REQUEST_DOMAIN : string := "devgraph.credential-request.v2" +:+ String nul "".

(** Of the refused characters those below 256. *)
Definition _display_safe (s : string) : bool := negb (str_exists is_control s).

(** The loop that splits the canonical text: at most 480 bytes a part. *)
Fixpoint split_chunks (text chunk : string) (size : Z) : list string :=
  match text with
  | EmptyString => if truthy chunk then [chunk] else []
  | String c text' =>
      let width := str_len (utf8_encode (String c "")) in
      if 480 <? size + width then chunk :: split_chunks text' (String c "") width
      else split_chunks text' (chunk +:+ String c "") (size + width)
  end.

Fixpoint number_parts (i : Z) (parts : list string) : list string :=
  match parts with
  | [] => []
  | p :: ps => ("Request part " +:+ print_int i +:+ ": " +:+ p) :: number_parts (i + 1) ps
  end.

Record CredentialRequestBinding := {
  cb_request_bytes : string;
  cb_request_digest : string;
  cb_statements : list string;
  cb_disclosure_digest : string
}.

Definition disclosure_value (statements : list string) : value :=
  VDict (mk_dict [("title", VStr "Devgraph request"); ("statements", strings statements)]).

Definition disclosure_statements (r : NamedRequest) (key_digest : string) : res (list string) :=
  o ← request_operation r;
  text ← of_option (ValueError "invalid utf-8") (utf8_decode (request_canonical r));
  Ok (["Operation: " +:+ o;
       "Resources: " +:+ join ", " (request_resources r);
       "Expected version: " +:+ match request_expected_version r with Some z => print_int z | None => "new" end;
       "Idempotency digest: " +:+ key_digest]
      ++ number_parts 1 (split_chunks text "" 0)).

Definition credential_request_binding (request_json idempotency_key : string) : res CredentialRequestBinding :=
  r ← parse_named_request request_json;
  key_digest ← _digest_idempotency_key idempotency_key;
  text ← of_option (ValueError "invalid utf-8") (utf8_decode (request_canonical r));
  body ← of_option (ValueError "invalid JSON") (loads text);
  let request_bytes := REQUEST_DOMAIN +:+ _canonical_json (VDict (mk_dict
    [("schema", VStr "devgraph.credential-request.v2"); ("request", body); ("idempotency_key_digest_sha256", VStr key_digest)])) in
  statements ← disclosure_statements r key_digest;
  raise_if ((131072 <? str_len request_bytes) || (144 <? Z.of_nat (length statements))
            || existsb (λ i, (512 <? str_len (utf8_encode i)) || negb (_display_safe i)) statements)
    (ValueError "unsupported_credential_disclosure");;
  Ok {| cb_request_bytes := request_bytes; cb_request_digest := sha256_hex request_bytes; cb_statements := statements;
        cb_disclosure_digest := sha256_hex (_canonical_json (disclosure_value statements)) |}.

(** ** The receiver profile *)

Definition RECEIVER_PROFILE_DOMAIN : string := "devgraph.sdk-receiver-profile.v1" +:+ String nul "".
Definition SDK_RECEIVER_ORIGIN : string := "http://127.0.0.1:8080".
Definition SDK_RECEIVER_AUDIENCE : string := "devgraph://receiver-local".

Definition receiver_profile_canonical (stable_issuer audience origin : string) : res string :=
  raise_if (negb (String.eqb origin SDK_RECEIVER_ORIGIN) || negb (String.eqb audience SDK_RECEIVER_AUDIENCE)
            || negb (_AUTHORITY_IDENTIFIER stable_issuer)) (ValueError "invalid SDK receiver profile");;
  Ok (_canonical_json (VDict (mk_dict [("schema", VStr "devgraph.sdk-receiver-profile.v1"); ("origin", VStr origin);
                                       ("audience", VStr audience); ("stable_issuer", VStr stable_issuer)]))).

Definition receiver_profile_digest (stable_issuer audience origin : string) : res string :=
  c ← receiver_profile_canonical stable_issuer audience origin; Ok (sha256_hex (RECEIVER_PROFILE_DOMAIN +:+ c)).

(** ** Projections *)

Definition projection : Type := list (string * value).

(** [projection[key]]. *)
Definition proj (k : string) (d : projection) : res value := of_option (KeyError k) (dict_get k d).

Definition proj_text (k : string) (d : projection) : res string :=
  v ← proj k d; match v with VStr s => Ok s | _ => Err (TypeError k) end.

Definition same_fields (a b : list string) : bool := issubset a b && issubset b a.

(** Every named field has the given text. *)
Definition exact_texts (fields : list (string * string)) (d : projection) : bool :=
  forallb (λ kv, bool_decide (dict_get kv.1 d = Some (VStr kv.2))) fields.

Definition matches (fields : list (string * (string → bool))) (d : projection) : bool :=
  forallb (λ kp, match dict_get kp.1 d with Some v => is_text kp.2 v | None => false end) fields.

Definition DIGEST_SUFFIX : string := "_digest_sha256".

Definition work_denied : exn := SecSWorkDenied "named_work_authority_denied".

Definition remove_field (k : string) (d : list (string * value)) : list (string * value) := filter (λ kv, kv.1 ≠ k) d.

(** The bytes that are signed: the domain and the projection without the
    signature. *)
Definition signed_message (domain : string) (d : projection) : string :=
  domain +:+ _canonical_json (VDict (remove_field "secs_verifier_signature" d)).

Definition clock_reading (e : exn) (now : option Z) : res Z :=
  z ← of_option e now; _require_nonnegative_safe_integer (VInt z) "clock_unavailable".

Record VerifiedWork := {
  vw_request : NamedRequest;
  vw_principal : Principal;
  vw_idempotency_digest : string;
  vw_safe_summary : list (string * value)
}.

Section verify.
  Context `{Ed25519}.
  Context (config : SecSIssueCreateVerifierConfig).

(** The checks of signature, key and policy pin, in the order of the source. *)
Definition admit_signature (domain : string) (d : projection) (now : Z) : res unit :=
  raw ← proj "secs_verifier_signature" d;
  signature ← _decode_base64url raw 86 64 "invalid_work_signature";
  raise_if (negb (signature_encoding_ok signature)) work_denied;;
  key_id ← proj_text "secs_verifier_key_id" d;
  key ← require_production_key (vc_key_registry config) key_id now;
  raise_if (negb (ed25519_verify (vk_public_key key) signature (signed_message domain d))) work_denied;;
  policy_id ← proj_text "receiver_policy_id" d;
  v ← proj "receiver_policy_version" d;
  policy_version ← _require_nonnegative_safe_integer v "invalid_work_projection";
  policy_digest ← proj_text "receiver_policy_digest_sha256" d;
  require_binding (vc_policy_registry config) policy_id policy_version policy_digest;;
  Ok tt.

(** The interval of the authority: current, and at most a minute long. *)
Definition admit_interval (d : projection) (now : option Z) : res Z :=
  t ← clock_reading (SecSWorkDenied "clock_unavailable") now;
  i ← proj "issued_at" d; issued ← _require_nonnegative_safe_integer i "invalid_work_projection";
  e ← proj "expires_at" d; expires ← _require_nonnegative_safe_integer e "invalid_work_projection";
  v ← proj "receiver_policy_version" d; _require_nonnegative_safe_integer v "invalid_work_projection";;
  raise_if (negb ((issued <=? t) && (t <? expires))) (SecSWorkDenied "named_work_authority_not_current");;
  raise_if (negb ((0 <? expires - issued) && (expires - issued <=? 60))) work_denied;;
  Ok t.

(** The request and the idempotency key are those that were signed. *)
Definition admit_binding (d : projection) (r : NamedRequest) (idempotency_key : string) : res string :=
  key_digest ← _digest_idempotency_key idempotency_key;
  rd ← request_digest r;
  raise_if (negb (bool_decide (dict_get "request_digest_sha256" d = Some (VStr rd)))
            || negb (bool_decide (dict_get "idempotency_key_digest_sha256" d = Some (VStr key_digest)))
            || negb (bool_decide (dict_get "resources" d = Some (strings (request_resources r)))))
    (SecSWorkDenied "named_work_request_binding_mismatch");;
  Ok key_digest.

Definition projection_digest (domain : string) (d : projection) : string := sha256_hex (domain +:+ _canonical_json (VDict d)).

Definition verified_of (fields : list string) (domain : string) (d : projection) (r : NamedRequest) (key_digest : string) : res VerifiedWork :=
  actor ← proj_text "actor_id" d;
  session ← proj_text "session_id" d;
  summary ← res_mapM (λ k, v ← proj k d; Ok (k, v)) fields;
  let pd := projection_digest domain d in
  Ok {| vw_request := r;
        vw_principal := {| pn_issuer := vc_stable_issuer config; pn_audience := vc_audience config; pn_actor_id := actor;
                           pn_session_id := session; pn_correlation_id := "dg:sha256:" +:+ pd |};
        vw_idempotency_digest := key_digest;
        vw_safe_summary := mk_dict (summary ++ [("secs_authority_projection_digest_sha256", VStr pd)]) |}.

(** The handlers at the end of both [verify] methods. *)
Definition is_work_error (e : exn) : bool := is_denied e || is_value_error e || is_type_error e || is_key_error e.

Definition as_work_denied {A} (r : res A) : res A := rethrow is_work_error (λ _, work_denied) r.

(** *** [SecSWorkVerifier.verify] *)

Definition WORK_SIGNATURE_DOMAIN : string := "secs-devgraph-work-authority.v1/signature" +:+ String nul "".
Definition WORK_PROJECTION_DOMAIN : string := "secs-devgraph-work-authority.v1/projection" +:+ String nul "".

Definition WORK_FIELDS : list string :=
  ["actor_id"; "actor_signature_suite"; "audience"; "expires_at"; "idempotency_key_digest_sha256"; "issued_at"; "nonce";
   "operation"; "receiver_policy_digest_sha256"; "receiver_policy_id"; "receiver_policy_version"; "replay_scope";
   "request_digest_sha256"; "resources"; "schema"; "schema_version"; "secs_context_id"; "secs_verifier_key_id";
   "secs_verifier_signature"; "secs_verifier_signature_suite"; "session_id"; "wallet_presentation_digest_sha256"].

Definition profile_pin (receiver_profile : option string) : res unit :=
  match receiver_profile with
  | None => Ok tt
  | Some p =>
      raise_if (negb (is_hex64 p)) (SecSWorkDenied "sdk_receiver_profile_mismatch");;
      expected ← receiver_profile_digest (vc_stable_issuer config) (vc_audience config) SDK_RECEIVER_ORIGIN;
      raise_if (negb (String.eqb p expected)) (SecSWorkDenied "sdk_receiver_profile_mismatch")
  end.

(** The texts and patterns that both contracts ask for. *)
Definition work_texts (schema replay operation : string) : list (string * string) :=
  [("schema", schema); ("operation", operation); ("actor_signature_suite", "Ed25519");
   ("secs_verifier_signature_suite", "Ed25519"); ("replay_scope", replay); ("audience", vc_audience config)].

Definition work_patterns (digests : list string) : list (string * (string → bool)) :=
  [("actor_id", _ACTOR_ID); ("secs_context_id", _SECS_CONTEXT_ID); ("secs_verifier_key_id", _SAFE_LABEL_256);
   ("receiver_policy_id", _SAFE_LABEL_128); ("audience", _AUTHORITY_IDENTIFIER)] ++ map (λ k, (k, is_hex64)) digests.

Definition work_summary_fields : list string :=
  ["operation"; "resources"; "actor_id"; "session_id"; "secs_context_id"; "request_digest_sha256";
   "idempotency_key_digest_sha256"; "receiver_policy_id"; "receiver_policy_version"; "receiver_policy_digest_sha256";
   "secs_verifier_key_id"; "issued_at"; "expires_at"].

Definition verify_work (request_json projection_json idempotency_key : string) (receiver_profile : option string) (now : option Z) :
    res VerifiedWork :=
  as_work_denied (
  profile_pin receiver_profile;;
  r ← parse_named_request request_json;
  d ← _strict_json_object 16384 "invalid_work_projection" projection_json;
  raise_if (negb (same_fields (d.*1) WORK_FIELDS)) work_denied;;
  o ← request_operation r;
  raise_if (negb (exact_texts (work_texts "secs-devgraph-work-authority.v1" "session:operation:nonce" o) d)) work_denied;;
  raise_if (negb (bool_decide (dict_get "schema_version" d = Some (VInt 1)))) work_denied;;
  t ← admit_interval d now;
  raise_if (negb (matches (work_patterns ["request_digest_sha256"; "idempotency_key_digest_sha256";
                             "wallet_presentation_digest_sha256"; "receiver_policy_digest_sha256"]) d)) work_denied;;
  session ← proj "session_id" d; _decode_base64url session 22 16 "invalid_work_projection";;
  nonce ← proj "nonce" d; _decode_base64url nonce 16 12 "invalid_work_projection";;
  admit_signature WORK_SIGNATURE_DOMAIN d t;;
  key_digest ← admit_binding d r idempotency_key;
  verified_of work_summary_fields WORK_PROJECTION_DOMAIN d r key_digest).

(** *** [SecSWorkV2Verifier.verify] *)

Definition WORK_V2_SIGNATURE_DOMAIN : string := "secs-devgraph-work-authority.v2/signature" +:+ String nul "".
Definition WORK_V2_PROJECTION_DOMAIN : string := "secs-devgraph-work-authority.v2/projection" +:+ String nul "".

Definition WORK_V2_FIELDS : list string :=
  ["actor_id"; "actor_signature_suite"; "audience"; "expires_at"; "idempotency_key_digest_sha256"; "issued_at"; "nonce";
   "operation"; "receiver_policy_digest_sha256"; "receiver_policy_id"; "receiver_policy_version"; "replay_scope";
   "request_digest_sha256"; "resources"; "schema"; "schema_version"; "secs_context_id"; "secs_verifier_key_id";
   "secs_verifier_signature"; "secs_verifier_signature_suite"; "session_id"; "credential_presentation_digest_sha256";
   "credential_digest_sha256"; "disclosure_digest_sha256"; "credential_request_digest_sha256"].

Definition hex32 (s : string) : bool := (str_len s =? 32) && str_forall is_lower_hex s.

Definition work_v2_summary_fields : list string :=
  ["operation"; "credential_request_digest_sha256"; "credential_digest_sha256"; "credential_presentation_digest_sha256";
   "disclosure_digest_sha256"; "resources"; "actor_id"; "session_id"; "secs_context_id"; "request_digest_sha256";
   "idempotency_key_digest_sha256"; "receiver_policy_id"; "receiver_policy_version"; "receiver_policy_digest_sha256";
   "secs_verifier_key_id"; "issued_at"; "expires_at"].

Definition verify_work_v2 (request_json projection_json idempotency_key : string) (now : option Z) : res VerifiedWork :=
  as_work_denied (
  r ← parse_named_request request_json;
  d ← _strict_json_object 16384 "invalid_work_projection" projection_json;
  raise_if (negb (same_fields (d.*1) WORK_V2_FIELDS)) work_denied;;
  o ← request_operation r;
  raise_if (negb (exact_texts (work_texts "secs-devgraph-work-authority.v2" "credential:operation:nonce" o) d)) work_denied;;
  raise_if (negb (bool_decide (dict_get "schema_version" d = Some (VInt 2)))) work_denied;;
  t ← admit_interval d now;
  raise_if (negb (matches (work_patterns ["request_digest_sha256"; "idempotency_key_digest_sha256";
                             "credential_presentation_digest_sha256"; "credential_digest_sha256"; "disclosure_digest_sha256";
                             "credential_request_digest_sha256"; "receiver_policy_digest_sha256"]) d)) work_denied;;
  raise_if (negb (matches [("session_id", hex32); ("nonce", hex32)] d)) (SecSWorkDenied "invalid_work_projection");;
  admit_signature WORK_V2_SIGNATURE_DOMAIN d t;;
  key_digest ← admit_binding d r idempotency_key;
  binding ← credential_request_binding request_json idempotency_key;
  raise_if (negb (bool_decide (dict_get "credential_request_digest_sha256" d = Some (VStr (cb_request_digest binding))))
            || negb (bool_decide (dict_get "disclosure_digest_sha256" d = Some (VStr (cb_disclosure_digest binding)))))
    (SecSWorkDenied "named_work_request_binding_mismatch");;
  verified_of work_v2_summary_fields WORK_V2_PROJECTION_DOMAIN d r key_digest).

(** *** [SecSIssueCreateVerifier.verify] *)

Definition DEVGRAPH_ISSUE_CREATE_REQUEST_DOMAIN_V1 : string := "devgraph.issue.create.request.v1" +:+ String nul "".
Definition DEVGRAPH_ISSUE_CREATE_SIGNATURE_DOMAIN_V1 : string := "secs-devgraph-authority.v1/signature" +:+ String nul "".
Definition DEVGRAPH_ISSUE_CREATE_PROJECTION_DOMAIN_V1 : string := "secs-devgraph-authority.v1/projection" +:+ String nul "".

Definition _PROJECTION_FIELDS : list string :=
  ["actor_id"; "actor_signature_suite"; "audience"; "expires_at"; "idempotency_key_digest_sha256"; "issued_at"; "nonce";
   "operation"; "receiver_policy_digest_sha256"; "receiver_policy_id"; "receiver_policy_version"; "replay_scope";
   "request_digest_sha256"; "resource"; "schema"; "schema_version"; "secs_context_id"; "secs_verifier_key_id";
   "secs_verifier_signature"; "secs_verifier_signature_suite"; "session_id"; "wallet_presentation_digest_sha256"].

Definition bad_projection : exn := SecSIssueCreateDenied "invalid_secs_authority_projection".

Definition issue_integer (k : string) (d : projection) : res Z :=
  _require_nonnegative_safe_integer (get_or_none k d) "invalid_secs_authority_projection".

Definition issue_base64 (k : string) (encoded decoded : Z) (d : projection) : res string :=
  _decode_base64url (get_or_none k d) encoded decoded "invalid_secs_authority_projection".

Definition _validate_projection_shape (d : projection) : res unit :=
  raise_if (negb (exact_texts [("schema", "secs-devgraph-authority.v1"); ("operation", _EXACT_ISSUE_CREATE_OPERATION);
                               ("actor_signature_suite", "Ed25519"); ("secs_verifier_signature_suite", "Ed25519");
                               ("replay_scope", "session:operation:nonce")] d)) bad_projection;;
  raise_if (negb (bool_decide (dict_get "schema_version" d = Some (VInt 1)))) bad_projection;;
  issue_integer "issued_at" d;; issue_integer "expires_at" d;; issue_integer "receiver_policy_version" d;;
  raise_if (negb (matches (map (λ k, (k, is_hex64)) ["idempotency_key_digest_sha256"; "receiver_policy_digest_sha256";
                             "request_digest_sha256"; "wallet_presentation_digest_sha256"]) d)) bad_projection;;
  raise_if (negb (matches [("actor_id", _ACTOR_ID); ("secs_context_id", _SECS_CONTEXT_ID); ("audience", _is_safe_audience);
                           ("receiver_policy_id", _SAFE_LABEL_128); ("resource", _ISSUE_RESOURCE);
                           ("secs_verifier_key_id", _SAFE_LABEL_256)] d)) bad_projection;;
  issue_base64 "session_id" 22 16 d;; issue_base64 "nonce" 16 12 d;; issue_base64 "secs_verifier_signature" 86 64 d;;
  Ok tt.

Definition _verify_projection_signature (d : projection) (k : SecSVerifierKey) : res unit :=
  signature ← issue_base64 "secs_verifier_signature" 86 64 d;
  raise_if (negb (signature_encoding_ok signature)) (SecSIssueCreateDenied "invalid_secs_authority_signature");;
  raise_if (negb (ed25519_verify (vk_public_key k) signature (signed_message DEVGRAPH_ISSUE_CREATE_SIGNATURE_DOMAIN_V1 d)))
    (SecSIssueCreateDenied "invalid_secs_authority_signature").

Definition _validate_projection_authority (d : projection) (now : Z) : res unit :=
  issued ← issue_integer "issued_at" d;
  expires ← issue_integer "expires_at" d;
  raise_if ((expires <=? issued) || (60 <? expires - issued) || (now <? issued) || (expires <=? now))
    (SecSIssueCreateDenied "secs_authority_not_current");;
  raise_if (negb (bool_decide (dict_get "audience" d = Some (VStr (vc_audience config)))))
    (SecSIssueCreateDenied "secs_receiver_policy_mismatch");;
  policy_id ← proj_text "receiver_policy_id" d;
  policy_version ← issue_integer "receiver_policy_version" d;
  policy_digest ← proj_text "receiver_policy_digest_sha256" d;
  require_binding (vc_policy_registry config) policy_id policy_version policy_digest;;
  Ok tt.

Definition bad_issue_request : exn := SecSIssueCreateDenied "invalid_devgraph_issue_create_request".

Definition _parse_identifier_array (v : value) : res (list string) :=
  match v with VList l => res_mapM validate_work_object_id l | _ => Err (TypeError "invalid identifier array") end.

(** The fields of the request and its canonical bytes. *)
Definition issue_request_fields (raw : string) : res (create_fields * string) :=
  d ← _strict_json_object 131072 "invalid_devgraph_issue_create_request" raw;
  raise_if (negb (issubset ["id"; "kind"; "title"] (d.*1))
            || negb (issubset (d.*1) ["artifact_ids"; "description"; "external_link_ids"; "id"; "kind"; "priority"; "title"]))
    bad_issue_request;;
  raise_if (negb (bool_decide (dict_get "kind" d = Some (VStr "Issue")))) bad_issue_request;;
  fields ← rethrow (λ e, is_type_error e || is_value_error e) (λ _, bad_issue_request)
    (i ← validate_work_object_id (get_or_none "id" d);
     artifacts ← _parse_identifier_array (default (VList []) (dict_get "artifact_ids" d));
     links ← _parse_identifier_array (default (VList []) (dict_get "external_link_ids" d));
     Ok (i, artifacts, links));
  let '(i, artifacts, links) := fields in
  match get_or_none "title" d, default (VStr "") (dict_get "description" d), default (VInt 0) (dict_get "priority" d) with
  | VStr t, VStr desc, VInt p =>
      raise_if (negb (truthy t) || negb (safe_integer p)) bad_issue_request;;
      let canonical_request := _canonical_json (VDict (mk_dict
        [("artifact_ids", strings artifacts); ("description", VStr desc); ("external_link_ids", strings links);
         ("id", VStr i); ("kind", VStr "Issue"); ("priority", VInt p); ("title", VStr t)])) in
      raise_if (65536 <? str_len canonical_request) bad_issue_request;;
      Ok ({| cf_id := i; cf_title := t; cf_description := desc; cf_priority := p; cf_artifact_ids := artifacts;
             cf_external_link_ids := links |}, canonical_request)
  | _, _, _ => Err bad_issue_request
  end.

Record VerifiedIssueCreate := {
  vi_issue : WorkObject;
  vi_principal : Principal;
  vi_scope : string;
  vi_issued_at : Z;
  vi_expires_at : Z;
  vi_request_digest : string;
  vi_idempotency_digest : string;
  vi_safe_summary : list (string * value)
}.

Definition issue_admitted (d : projection) (now : option Z) : res unit :=
  raise_if (negb (same_fields (d.*1) _PROJECTION_FIELDS)) bad_projection;;
  _validate_projection_shape d;;
  t ← clock_reading (SecSIssueCreateDenied "clock_unavailable") now;
  key_id ← proj_text "secs_verifier_key_id" d;
  k ← require_production_key (vc_key_registry config) key_id t;
  _verify_projection_signature d k;;
  _validate_projection_authority d t.

(** The bindings of the projection to the request, the key and the resource; the
    digest of the key. *)
Definition issue_bound (d : projection) (request_digest idempotency_key issue_id : string) : res string :=
  raise_if (negb (bool_decide (dict_get "request_digest_sha256" d = Some (VStr request_digest))))
    (SecSIssueCreateDenied "devgraph_request_digest_mismatch");;
  key_digest ← _digest_idempotency_key idempotency_key;
  raise_if (negb (bool_decide (dict_get "idempotency_key_digest_sha256" d = Some (VStr key_digest))))
    (SecSIssueCreateDenied "devgraph_idempotency_digest_mismatch");;
  raise_if (negb (bool_decide (dict_get "resource" d = Some (VStr ("Issue/" +:+ issue_id)))))
    (SecSIssueCreateDenied "devgraph_resource_mismatch");;
  Ok key_digest.

Definition issue_verified (d : projection) (w : WorkObject) (request_digest key_digest : string) : res VerifiedIssueCreate :=
  actor ← proj_text "actor_id" d;
  session ← proj_text "session_id" d;
  context ← proj "secs_context_id" d;
  policy_id ← proj "receiver_policy_id" d;
  policy_version ← proj "receiver_policy_version" d;
  policy_digest ← proj "receiver_policy_digest_sha256" d;
  key_id ← proj "secs_verifier_key_id" d;
  issued ← issue_integer "issued_at" d;
  expires ← issue_integer "expires_at" d;
  let pd := projection_digest DEVGRAPH_ISSUE_CREATE_PROJECTION_DOMAIN_V1 d in
  Ok {| vi_issue := w;
        vi_principal := {| pn_issuer := vc_stable_issuer config; pn_audience := vc_audience config; pn_actor_id := actor;
                           pn_session_id := session; pn_correlation_id := "dg:sha256:" +:+ pd |};
        vi_scope := "devgraph.write"; vi_issued_at := issued; vi_expires_at := expires;
        vi_request_digest := request_digest; vi_idempotency_digest := key_digest;
        vi_safe_summary := mk_dict [("operation", VStr _EXACT_ISSUE_CREATE_OPERATION); ("resource", VStr ("Issue/" +:+ id w));
          ("actor_id", VStr actor); ("session_id", VStr session); ("secs_context_id", context);
          ("request_digest_sha256", VStr request_digest); ("idempotency_key_digest_sha256", VStr key_digest);
          ("receiver_policy_id", policy_id); ("receiver_policy_version", policy_version);
          ("receiver_policy_digest_sha256", policy_digest); ("secs_verifier_key_id", key_id);
          ("secs_authority_projection_digest_sha256", VStr pd)] |}.

Definition verify_issue_create `{Pydantic, Clock} (request_json idempotency_key signed_projection_json : string) (now : option Z) :
    M Store VerifiedIssueCreate :=
  d ← lift (_strict_json_object 16384 "invalid_secs_authority_projection" signed_projection_json);
  lift (issue_admitted d now);;
  fc ← lift (issue_request_fields request_json);
  w ← construct_named KIssue fc.1;
  let request_digest := sha256_hex (DEVGRAPH_ISSUE_CREATE_REQUEST_DOMAIN_V1 +:+ fc.2) in
  key_digest ← lift (issue_bound d request_digest idempotency_key (id w));
  lift (issue_verified d w request_digest key_digest).

End verify.

(** ** Requests and their bytes *)

Definition reads_as (raw : string) (r : NamedRequest) : Prop :=
  match r with named_work w => WorkRequest_from_json raw = Ok w | named_arena a => ArenaRequest_from_json raw = Ok a end.

Lemma parse_named_Ok raw r : parse_named_request raw = Ok r → reads_as raw r.
Proof.
  unfold parse_named_request. intros H%rethrow_Ok. apply res_bind_Ok in H as (d & _ & H).
  destruct (dict_get "schema" d) as [[]|]; try done.
  destruct (str_in _ _); [|destruct (String.eqb _ _); [|done]]; by apply res_bind_Ok in H as (w & Hw & [= <-]).
Qed.

(** The canonical bytes and the domain determine the request. *)
Lemma named_canonical_eq raw raw' r r' : reads_as raw r → reads_as raw' r' →
  match r, r' with named_work _, named_work _ | named_arena _, named_arena _ => True | _, _ => False end →
  request_canonical r = request_canonical r' → r = r'.
Proof.
  destruct r as [w|a], r' as [w'|a']; simpl; try done; intros H H' _ Hc; f_equal.
  - apply work_request_fixed in H, H'. congruence.
  - apply arena_request_fixed in H, H'. congruence.
Qed.

Lemma named_signing_eq raw raw' r r' b : reads_as raw r → reads_as raw' r' →
  request_signing_bytes r = Ok b → request_signing_bytes r' = Ok b → r = r'.
Proof.
  assert (∀ raw w b, WorkRequest_from_json raw = Ok w → signing_bytes w = Ok b → ∃ v, (v = 1 ∨ v = 2)
    ∧ b = ("devgraph.work-request.v" +:+ print_int v +:+ String nul "") +:+ canonical w) as Hw.
  { clear. intros raw w b (e & p & pd & rs & Hf)%from_json_facts H. unfold signing_bytes in H.
    rewrite (version_of_facts _ _ _ _ _ Hf) in H. injection H as <-. eexists. split; [|done]. destruct (String.eqb _ _); auto. }
  intros H H' Hb Hb'. eapply named_canonical_eq; [done..| |].
  - destruct r as [w|a], r' as [w'|a']; simpl in *; try done.
    + destruct (Hw _ _ _ H Hb) as (v & [->| ->] & ->); discriminate.
    + destruct (Hw _ _ _ H' Hb') as (v & [->| ->] & ->); discriminate.
  - destruct r as [w|a], r' as [w'|a']; simpl in *.
    + destruct (Hw _ _ _ H Hb) as (v & [->| ->] & ->), (Hw _ _ _ H' Hb') as (v' & [->| ->] & Heq); simpl in Heq; congruence.
    + destruct (Hw _ _ _ H Hb) as (v & [->| ->] & ->); discriminate.
    + destruct (Hw _ _ _ H' Hb') as (v & [->| ->] & ->); discriminate.
    + unfold arena_signing_bytes in *. simpl in *. congruence.
Qed.

Lemma request_digest_bytes r dg : request_digest r = Ok dg → ∃ b, request_signing_bytes r = Ok b ∧ dg = sha256_hex b.
Proof.
  destruct r as [w|a]; simpl; [|intros [= <-]; by eexists]. unfold digest. intros H. minv. subst. eauto.
Qed.

(** ** What the signed bytes fix *)

Lemma remove_field_get k j d : k ≠ j → dict_get k (remove_field j d) = dict_get k d.
Proof.
  intros Hk. unfold remove_field. induction d as [|[l v] d IH]; [done|]. rewrite filter_cons. simpl.
  case_decide as Hl; simpl in *; [by rewrite IH|]. subst l.
  by destruct (String.eqb_spec k j).
Qed.

Lemma remove_field_wire n j d : wire (S n) (VDict d) → wire (S n) (VDict (remove_field j d)).
Proof.
  rewrite !wire_dict_iff. unfold remove_field. intros [Hs Hd]. split.
  - unfold dict_sorted in *. clear Hd. induction d as [|[l v] d IH]; [done|]. rewrite filter_cons. simpl in *.
    apply StronglySorted_inv in Hs as [Hs Hl]. case_decide; [|by apply IH]. simpl. constructor; [by apply IH|].
    rewrite Forall_forall in *. intros x (y & -> & Hy)%list_elem_of_fmap. apply list_elem_of_filter in Hy as [_ Hy].
    apply Hl, list_elem_of_fmap. eauto.
  - rewrite Forall_forall in *. intros x [_ Hx]%list_elem_of_filter. auto.
Qed.

Lemma signed_message_fields domain d d' k : wire _MAX_JSON_DEPTH (VDict d) → wire _MAX_JSON_DEPTH (VDict d') →
  signed_message domain d = signed_message domain d' → k ≠ "secs_verifier_signature" → dict_get k d = dict_get k d'.
Proof.
  intros Hd Hd' Hm Hk. unfold signed_message in Hm.
  apply str_app_inj_len in Hm as [_ Hm]; [|done]. apply (canonical_json_inj _MAX_JSON_DEPTH) in Hm; [|by apply (remove_field_wire 15)..].
  injection Hm as Hm. by rewrite <-(remove_field_get k "secs_verifier_signature" d), Hm, remove_field_get.
Qed.

Lemma strings_inj l l' : strings l = strings l' → l = l'.
Proof.
  unfold strings. intros [= H]. revert l' H. induction l as [|x l IH]; intros [|y l'] H; try done.
  simpl in H. injection H as -> H. f_equal. auto.
Qed.

(** ** Successful verification *)

Section verified.
  Context `{Ed25519}.
  Context (config : SecSIssueCreateVerifierConfig).

(** Both contracts of named Work. *)
Definition verify_named (v2 : bool) (request_json projection_json idempotency_key : string) (receiver_profile : option string)
    (now : option Z) : res VerifiedWork :=
  if v2 then verify_work_v2 config request_json projection_json idempotency_key now
  else verify_work config request_json projection_json idempotency_key receiver_profile now.

Definition signature_domain (v2 : bool) : string := if v2 then WORK_V2_SIGNATURE_DOMAIN else WORK_SIGNATURE_DOMAIN.

(** A production key of the registry, active and current at the time. *)
Record trusted_key (key_id : string) (now : Z) (k : SecSVerifierKey) : Prop := {
  tk_key : kr_keys (vc_key_registry config) !! key_id = Some k;
  tk_unique : key_id ∉ kr_duplicates (vc_key_registry config);
  tk_status : vk_status k = "active" ∧ vk_production_authority k = true ∧ vk_algorithm k = "ed25519";
  tk_before : ∀ t, vk_not_before k = Some t → t <= now;
  tk_after : ∀ t, vk_not_after k = Some t → now < t;
  tk_revoked : ∀ t, vk_revoked_at k = Some t → now < t
}.

Lemma require_key_trusted key_id now k : require_production_key (vc_key_registry config) key_id now = Ok k → trusted_key key_id now k.
Proof.
  unfold require_production_key, key_current. intros H0. minv. subst. bools. constructor; try done; intros t Ht; rewrite Ht in *; bools; done.
Qed.

(** What the projection says, and of whom. *)
Record authentic (v2 : bool) (request_json projection_json idempotency_key : string) (now : option Z) (d : projection)
    (v : VerifiedWork) : Prop := {
  au_request : reads_as request_json (vw_request v);
  au_read : _strict_json_object 16384 "invalid_work_projection" projection_json = Ok d;
  au_signed : ∃ t key_id k signature, now = Some t ∧ dict_get "secs_verifier_key_id" d = Some (VStr key_id)
    ∧ trusted_key key_id t k ∧ ed25519_verify (vk_public_key k) signature (signed_message (signature_domain v2) d) = true;
  au_current : ∃ t i e, now = Some t ∧ dict_get "issued_at" d = Some (VInt i) ∧ dict_get "expires_at" d = Some (VInt e)
    ∧ i <= t < e ∧ e <= i + 60;
  au_operation : ∃ o, request_operation (vw_request v) = Ok o ∧ dict_get "operation" d = Some (VStr o);
  au_digest : ∃ dg, request_digest (vw_request v) = Ok dg ∧ dict_get "request_digest_sha256" d = Some (VStr dg);
  au_resources : dict_get "resources" d = Some (strings (request_resources (vw_request v)));
  au_key : dict_get "idempotency_key_digest_sha256" d = Some (VStr (sha256_hex idempotency_key))
    ∧ vw_idempotency_digest v = sha256_hex idempotency_key;
  au_actor : dict_get "actor_id" d = Some (VStr (pn_actor_id (vw_principal v)));
  au_session : dict_get "session_id" d = Some (VStr (pn_session_id (vw_principal v)));
  au_audience : dict_get "audience" d = Some (VStr (pn_audience (vw_principal v)));
  au_issuer : pn_issuer (vw_principal v) = vc_stable_issuer config;
  au_summary : ∀ k w, k ≠ "secs_authority_projection_digest_sha256" → dict_get k (vw_safe_summary v) = Some w → dict_get k d = Some w
}.

Lemma proj_Ok k d v : proj k d = Ok v ↔ dict_get k d = Some v.
Proof. unfold proj. apply of_option_Ok. Qed.

Lemma proj_text_Ok k d s : proj_text k d = Ok s ↔ dict_get k d = Some (VStr s).
Proof.
  unfold proj_text. split.
  - intros (v & Hv%proj_Ok & Hs)%res_bind_Ok. destruct v; try done. by injection Hs as <-.
  - intros Hk. unfold proj. by rewrite Hk.
Qed.

Lemma integer_Ok v reason z : _require_nonnegative_safe_integer v reason = Ok z → v = VInt z ∧ 0 <= z.
Proof. destruct v; simpl; try done. intros H0. minv. bools. subst. split; [done|lia]. Qed.

Lemma admit_signature_Ok domain d t : admit_signature config domain d t = Ok tt → ∃ key_id k signature,
  dict_get "secs_verifier_key_id" d = Some (VStr key_id) ∧ trusted_key key_id t k
  ∧ ed25519_verify (vk_public_key k) signature (signed_message domain d) = true.
Proof.
  unfold admit_signature. intros H0. apply res_bind_Ok in H0 as (raw & _ & H0). apply res_bind_Ok in H0 as (sg & _ & H0).
  apply res_bind_Ok in H0 as (_ & _ & H0). apply res_bind_Ok in H0 as (key_id & Hk%proj_text_Ok & H0).
  apply res_bind_Ok in H0 as (k & Ht%require_key_trusted & H0). apply res_bind_Ok in H0 as (_ & Hv%raise_if_Ok & _). bools. eauto 8.
Qed.

Lemma admit_interval_Ok d now t : admit_interval d now = Ok t → ∃ i e, now = Some t
  ∧ dict_get "issued_at" d = Some (VInt i) ∧ dict_get "expires_at" d = Some (VInt e) ∧ i <= t < e ∧ e <= i + 60.
Proof.
  unfold admit_interval. intros H0. apply res_bind_Ok in H0 as (t' & Ht & H0).
  apply res_bind_Ok in Ht as (z & Hz%of_option_Ok & [Ht _]%integer_Ok). injection Ht as ->.
  apply res_bind_Ok in H0 as (i & Hi%proj_Ok & H0). apply res_bind_Ok in H0 as (issued & [-> _]%integer_Ok & H0).
  apply res_bind_Ok in H0 as (e & He%proj_Ok & H0). apply res_bind_Ok in H0 as (expires & [-> _]%integer_Ok & H0).
  do 2 (apply res_bind_Ok in H0 as (? & _ & H0)). apply res_bind_Ok in H0 as (? & H1%raise_if_Ok & H0).
  apply res_bind_Ok in H0 as (? & H2%raise_if_Ok & [= ->]). bools. exists issued, expires. split_and!; try done; lia.
Qed.

Lemma admit_binding_Ok d r k kd : admit_binding d r k = Ok kd → kd = sha256_hex k
  ∧ (∃ dg, request_digest r = Ok dg ∧ dict_get "request_digest_sha256" d = Some (VStr dg))
  ∧ dict_get "idempotency_key_digest_sha256" d = Some (VStr kd)
  ∧ dict_get "resources" d = Some (strings (request_resources r)).
Proof.
  unfold admit_binding, _digest_idempotency_key. intros H0. apply res_bind_Ok in H0 as (x & Hx & H0).
  apply res_bind_Ok in Hx as (_ & _ & [= <-]). apply res_bind_Ok in H0 as (dg & Hdg & H0).
  apply res_bind_Ok in H0 as (_ & Hb%raise_if_Ok & [= <-]). bools. split_and!; eauto.
Qed.

Lemma exact_texts_get fields d k t : exact_texts fields d = true → (k, t) ∈ fields → dict_get k d = Some (VStr t).
Proof.
  unfold exact_texts. rewrite forallb_forall. intros Hf Hk%list_elem_of_In. apply Hf in Hk. by bools.
Qed.

Lemma summary_fields_get (fields : list string) (d : projection) pd l k w :
  res_mapM (λ k, v ← proj k d; Ok (k, v)) fields = Ok l → k ≠ "secs_authority_projection_digest_sha256" →
  dict_get k (mk_dict (l ++ [("secs_authority_projection_digest_sha256", pd)])) = Some w → dict_get k d = Some w.
Proof.
  intros Hl Hk Hw. apply dict_get_elem in Hw.
  assert (Forall (λ kv, kv.1 ≠ "secs_authority_projection_digest_sha256" → dict_get kv.1 d = Some kv.2)
            (mk_dict (l ++ [("secs_authority_projection_digest_sha256", pd)]))) as HF.
  { apply Forall_mk_dict, Forall_app. split; [|by repeat constructor].
    clear -Hl. revert l Hl. induction fields as [|x fs IH]; intros l Hl; simpl in Hl; [injection Hl as <-; constructor|].
    apply res_bind_Ok in Hl as (y & Hy & Hl). apply res_bind_Ok in Hl as (ys & Hys & [= <-]).
    apply res_bind_Ok in Hy as (v & Hv%proj_Ok & [= <-]). constructor; [by intros _|by apply IH]. }
  rewrite Forall_forall in HF. by apply (HF _ Hw).
Qed.

Lemma verified_of_Ok fields domain d r kd v : verified_of config fields domain d r kd = Ok v →
  vw_request v = r ∧ vw_idempotency_digest v = kd
  ∧ dict_get "actor_id" d = Some (VStr (pn_actor_id (vw_principal v)))
  ∧ dict_get "session_id" d = Some (VStr (pn_session_id (vw_principal v)))
  ∧ pn_audience (vw_principal v) = vc_audience config ∧ pn_issuer (vw_principal v) = vc_stable_issuer config
  ∧ (∀ k w, k ≠ "secs_authority_projection_digest_sha256" → dict_get k (vw_safe_summary v) = Some w → dict_get k d = Some w).
Proof.
  unfold verified_of. intros H0. apply res_bind_Ok in H0 as (actor & Ha%proj_text_Ok & H0).
  apply res_bind_Ok in H0 as (session & Hs%proj_text_Ok & H0). apply res_bind_Ok in H0 as (l & Hl & H0).
  cbv zeta in H0. injection H0 as <-. simpl. split_and!; try done.
  intros k w. by apply summary_fields_get with (fields := fields).
Qed.

(** One step of a successful check whose result is not needed. *)
Ltac skip H := apply res_bind_Ok in H as (? & _ & H).

Lemma authentic_intro v2 rj pj key now d r o t kd fields domain v :
  reads_as rj r → _strict_json_object 16384 "invalid_work_projection" pj = Ok d → request_operation r = Ok o →
  (∃ schema replay, exact_texts (work_texts config schema replay o) d = true) →
  admit_interval d now = Ok t → admit_signature config (signature_domain v2) d t = Ok tt →
  admit_binding d r key = Ok kd → verified_of config fields domain d r kd = Ok v →
  authentic v2 rj pj key now d v.
Proof.
  intros Hr Hd Ho (schema & replay & Hx) Ht Hsig Hb Hv.
  apply verified_of_Ok in Hv as (<- & <- & Ha & Hs & Hau & Hi & Hsum).
  apply admit_binding_Ok in Hb as (Hk & Hdg & Hkd & Hrs). rewrite Hk in Hkd.
  apply admit_signature_Ok in Hsig as (key_id & k & sg & H1 & H2 & H3).
  apply admit_interval_Ok in Ht as (i & e & Hn & Hiss & Hexp & Hit).
  constructor; try done; eauto 10.
  - exists o. split; [done|]. eapply exact_texts_get; [exact Hx|]. unfold work_texts. rewrite !elem_of_cons. tauto.
  - rewrite Hau. eapply exact_texts_get; [exact Hx|]. unfold work_texts. rewrite !elem_of_cons. tauto.
Qed.

Lemma verify_authentic v2 rj pj key profile now v :
  verify_named v2 rj pj key profile now = Ok v → ∃ d, authentic v2 rj pj key now d v.
Proof.
  unfold verify_named, verify_work, verify_work_v2, as_work_denied. destruct v2; intros H0%rethrow_Ok.
  - apply res_bind_Ok in H0 as (r & Hr%parse_named_Ok & H0). apply res_bind_Ok in H0 as (d & Hd & H0). skip H0.
    apply res_bind_Ok in H0 as (o & Ho & H0). apply res_bind_Ok in H0 as (_ & Hx%raise_if_Ok & H0). skip H0.
    apply res_bind_Ok in H0 as (t & Ht & H0). do 2 skip H0. apply res_bind_Ok in H0 as ([] & Hsig & H0).
    apply res_bind_Ok in H0 as (kd & Hb & H0). do 2 skip H0. bools. exists d. by eapply authentic_intro; eauto.
  - skip H0. apply res_bind_Ok in H0 as (r & Hr%parse_named_Ok & H0). apply res_bind_Ok in H0 as (d & Hd & H0). skip H0.
    apply res_bind_Ok in H0 as (o & Ho & H0). apply res_bind_Ok in H0 as (_ & Hx%raise_if_Ok & H0). skip H0.
    apply res_bind_Ok in H0 as (t & Ht & H0). do 5 skip H0. apply res_bind_Ok in H0 as ([] & Hsig & H0).
    apply res_bind_Ok in H0 as (kd & Hb & H0). bools. exists d. by eapply authentic_intro; eauto.
Qed.

(** C7: A verified call is authentic: a production key of the registry, active and
    not expired or revoked at the time, signed a message that names the operation,
    the digest and the resources of this request, the digest of this idempotency
    key, the actor, the session and the audience, and its validity of at most a
    minute includes the time; everything the receiver later reports of the
    authority was in that message. *)
Theorem verified_work_authentic v2 rj pj key profile now v :
  verify_named v2 rj pj key profile now = Ok v → ∃ d, authentic v2 rj pj key now d v.
Proof. apply verify_authentic. Qed.

(** C8: A signature stands for one call: two verified calls that carry the same
    signed message are of the same contract, actor, session and audience; the
    SHA-256 digests of their keys agree, so the keys do unless these two texts
    collide; and the digests of the bytes their requests are signed as agree, and
    equal bytes are equal requests. *)
Theorem signed_message_binds v2 rj pj key profile now v v2' rj' pj' key' profile' now' v' d d' :
  verify_named v2 rj pj key profile now = Ok v → verify_named v2' rj' pj' key' profile' now' = Ok v' →
  _strict_json_object 16384 "invalid_work_projection" pj = Ok d → _strict_json_object 16384 "invalid_work_projection" pj' = Ok d' →
  signed_message (signature_domain v2) d = signed_message (signature_domain v2') d' →
  v2 = v2' ∧ pn_actor_id (vw_principal v) = pn_actor_id (vw_principal v')
  ∧ pn_session_id (vw_principal v) = pn_session_id (vw_principal v') ∧ pn_audience (vw_principal v) = pn_audience (vw_principal v')
  ∧ sha256_hex key = sha256_hex key'
  ∧ ∃ b b', request_signing_bytes (vw_request v) = Ok b ∧ request_signing_bytes (vw_request v') = Ok b'
      ∧ sha256_hex b = sha256_hex b' ∧ (b = b' → vw_request v = vw_request v').
Proof.
  intros (x & Ha)%verify_authentic (x' & Ha')%verify_authentic Hd Hd' Hm.
  assert (x = d) as -> by (destruct Ha; congruence). assert (x' = d') as -> by (destruct Ha'; congruence).
  assert (v2 = v2') as <-.
  { destruct v2, v2'; try done; exfalso; unfold signed_message, signature_domain, WORK_SIGNATURE_DOMAIN, WORK_V2_SIGNATURE_DOMAIN in Hm;
      simpl in Hm; discriminate Hm. }
  apply strict_json_object_Ok in Hd as [_ Hw]. apply strict_json_object_Ok in Hd' as [_ Hw'].
  assert (∀ k, k ≠ "secs_verifier_signature" → dict_get k d = dict_get k d') as Hf by (intros k; by eapply signed_message_fields).
  destruct Ha as [Hr _ _ _ _ (dg & Hdg & H1) _ [H2 _] H3 H4 H5 _ _], Ha' as [Hr' _ _ _ _ (dg' & Hdg' & H1') _ [H2' _] H3' H4' H5' _ _].
  rewrite (Hf "request_digest_sha256"), H1' in H1 by done. rewrite (Hf "idempotency_key_digest_sha256"), H2' in H2 by done.
  rewrite (Hf "actor_id"), H3' in H3 by done. rewrite (Hf "session_id"), H4' in H4 by done. rewrite (Hf "audience"), H5' in H5 by done.
  simplify_eq. apply request_digest_bytes in Hdg as (b & Hb & ->). apply request_digest_bytes in Hdg' as (b' & Hb' & Hbb).
  split; [done|]. do 4 (split; [congruence|]). exists b, b'. split; [done|]. split; [done|]. split; [congruence|].
  intros <-. by eapply named_signing_eq.
Qed.

End verified.

(** ** The disclosure names the whole request *)

Lemma split_chunks_join text chunk size : join "" (split_chunks text chunk size) = chunk +:+ text.
Proof.
  revert chunk size. induction text as [|c text IH]; intros chunk size; cbn [split_chunks].
  - rewrite str_app_nil_r. by destruct chunk.
  - cbv zeta. case_match; [rewrite join_empty|]; rewrite IH; [done|]. by rewrite str_app_assoc.
Qed.

Lemma utf8_encode_app a b : utf8_encode (a +:+ b) = utf8_encode a +:+ utf8_encode b.
Proof. induction a as [|c a IH]; [done|]. cbn [String.append utf8_encode]. rewrite IH. by case_match. Qed.

Lemma split_chunks_bound text chunk size : size = str_len (utf8_encode chunk) → size <= 480 →
  Forall (λ p, str_len (utf8_encode p) <= 480) (split_chunks text chunk size).
Proof.
  revert chunk size. induction text as [|c text IH]; intros chunk size -> Hs; cbn [split_chunks].
  - destruct chunk; repeat constructor; done.
  - cbv zeta. assert (str_len (utf8_encode (String c "")) <= 2) as Hw.
    { unfold str_len. cbn [utf8_encode]. case_match; cbn [String.length]; lia. }
    case_match; bools; [constructor; [done|]|]; apply IH; try done; try lia.
    unfold str_len. rewrite utf8_encode_app, str_length_app. lia.
Qed.

Lemma number_parts_inj i l l' : number_parts i l = number_parts i l' → l = l'.
Proof.
  revert i l'. induction l as [|p l IH]; intros i [|p' l'] Hn; try done. cbn [number_parts] in Hn.
  apply (inj2 cons) in Hn as [Hp Hn]. apply IH in Hn as ->. f_equal.
  apply str_app_inj_len in Hp as [_ Hp]; [|done]. apply str_app_inj_len in Hp as [_ Hp]; [|done].
  by apply str_app_inj_len in Hp as [_ Hp].
Qed.

Lemma canonical_text raw r : reads_as raw r → ∃ t, request_canonical r = utf8_encode t.
Proof.
  destruct r as [w|a]; simpl.
  - intros (e & p & pd & rs & [_ _ _ _ _ _ _ ->])%from_json_facts. by eexists.
  - intros (e & p & pd & rs & [])%arena_from_json_facts. subst a. by eexists.
Qed.

Lemma operation_class raw r o : reads_as raw r → request_operation r = Ok o →
  ∃ t, o = match r with named_work _ => "devgraph.work." | named_arena _ => "devgraph.arena." end +:+ t.
Proof.
  destruct r as [w|a]; simpl; intros _ Ho.
  - unfold authority_operation in Ho. minv. subst. by eexists.
  - injection Ho as <-. by eexists.
Qed.

Lemma existsb_false_Forall {A} (f : A → bool) l : existsb f l = false → Forall (λ x, f x = false) l.
Proof. induction l as [|x l IH]; simpl; intros H; [constructor|]. bools. constructor; auto. Qed.

(** The statements of a binding: four headings and the numbered parts. *)
Lemma binding_statements rj k b : credential_request_binding rj k = Ok b → ∃ r o text h2 h3,
  parse_named_request rj = Ok r ∧ request_operation r = Ok o ∧ request_canonical r = utf8_encode text
  ∧ cb_statements b = ["Operation: " +:+ o; h2; h3; "Idempotency digest: " +:+ sha256_hex k] ++ number_parts 1 (split_chunks text "" 0)
  ∧ Forall (λ i, str_len (utf8_encode i) <= 512 ∧ str_exists is_control i = false) (cb_statements b)
  ∧ Z.of_nat (length (cb_statements b)) <= 144.
Proof.
  unfold credential_request_binding, _digest_idempotency_key. intros H.
  apply res_bind_Ok in H as (r & Hr & H). apply res_bind_Ok in H as (kd & Hkd & H).
  apply res_bind_Ok in Hkd as (_ & _ & [= <-]). do 2 (apply res_bind_Ok in H as (? & _ & H)). cbv zeta in H.
  apply res_bind_Ok in H as (st & Hst & H). apply res_bind_Ok in H as (_ & Hg%raise_if_Ok & [= <-]). cbn [cb_statements].
  unfold disclosure_statements in Hst. apply res_bind_Ok in Hst as (o & Ho & Hst).
  apply res_bind_Ok in Hst as (text & Ht%of_option_Ok & Hst). apply (inj Ok) in Hst.
  destruct (canonical_text rj r (parse_named_Ok _ _ Hr)) as [t Hc]. rewrite Hc, utf8_roundtrip in Ht. injection Ht as ->.
  eexists r, o, text, _, _. split; [done|]. split; [done|]. split; [done|]. split; [symmetry; exact Hst|]. clear Hst. bools.
  split; [|lia]. match goal with H : existsb _ _ = false |- _ => apply existsb_false_Forall in H; eapply Forall_impl; [exact H|] end.
  intros i Hi. simpl in Hi. unfold _display_safe in Hi. bools. done.
Qed.

(** The disclosure that the holder approves names the whole request: its parts
    joined are the canonical text, none longer than 480 bytes and with no control
    character in them, and two disclosures with the same statements are of the same
    request. *)
Theorem disclosure_names_request rj k b rj' k' b' :
  credential_request_binding rj k = Ok b → credential_request_binding rj' k' = Ok b' →
  (∃ r head parts, parse_named_request rj = Ok r ∧ cb_statements b = head ++ number_parts 1 parts ∧ length head = 4%nat
     ∧ utf8_encode (join "" parts) = request_canonical r
     ∧ Forall (λ p, str_len (utf8_encode p) <= 480) parts
     ∧ Forall (λ i, str_exists is_control i = false) (cb_statements b))
  ∧ (cb_statements b = cb_statements b' → parse_named_request rj = parse_named_request rj' ∧ sha256_hex k = sha256_hex k').
Proof.
  intros (r&o&t&h2&h3&Hr&Ho&Hc&Hs&Hf&_)%binding_statements (r'&o'&t'&h2'&h3'&Hr'&Ho'&Hc'&Hs'&_&_)%binding_statements. split.
  - eexists r, _, (split_chunks t "" 0). split; [done|]. split; [exact Hs|]. split; [done|].
    split; [by rewrite split_chunks_join|]. split; [by apply split_chunks_bound|].
    eapply Forall_impl; [exact Hf|]. by intros i [_ ?].
  - intros Heq. rewrite Hs, Hs' in Heq. cbn [app] in Heq. apply (inj2 cons) in Heq as [He1 Heq].
    do 2 apply (inj2 cons) in Heq as [_ Heq]. apply (inj2 cons) in Heq as [He4 Heq].
    apply number_parts_inj in Heq. apply str_app_inj_len in He1 as [_ He1]; [|done].
    apply str_app_inj_len in He4 as [_ He4]; [|done]. split; [|done]. rewrite Hr, Hr'. f_equal.
    apply parse_named_Ok in Hr, Hr'. eapply named_canonical_eq; [done..| |].
    + destruct (operation_class _ _ _ Hr Ho) as [x Hx], (operation_class _ _ _ Hr' Ho') as [x' Hx'].
      rewrite Hx, Hx' in He1. destruct r, r'; done.
    + rewrite Hc, Hc'. f_equal. pose proof (split_chunks_join t "" 0) as H1. pose proof (split_chunks_join t' "" 0) as H2.
      cbn [String.append] in H1, H2. congruence.
Qed.

(** ** Witnesses *)

Section witnesses.

(** A stand-in for signing: a point that is not of small order and the digest of
    the message as the scalar. *)
Definition toy_sign (message : string) : string :=
  fromhex ("02" +:+ repeat_text 31 "00" +:+ substring 0 62 (sha256_hex message) +:+ "00").

#[local] Instance toy_ed25519 : Ed25519 := {| ed25519_verify := λ _ sg m, String.eqb sg (toy_sign m) |}.

Definition ex_verifier_key : SecSVerifierKey :=
  {| vk_key_id := "k1"; vk_public_key := fromhex ("02" +:+ repeat_text 31 "00"); vk_algorithm := "ed25519"; vk_status := "active";
     vk_production_authority := true; vk_not_before := Some 0; vk_not_after := Some 1000; vk_revoked_at := None; vk_replaced_by := None |}.

Definition ex_config : SecSIssueCreateVerifierConfig :=
  {| vc_audience := "devgraph://receiver-local"; vc_stable_issuer := "issuer";
     vc_policy_registry := add_binding {| pr_bindings := ∅; pr_duplicates := ∅ |}
       {| pb_policy_id := "policy"; pb_policy_version := 1; pb_policy_digest := sha256_hex "policy" |};
     vc_key_registry := add_key {| kr_keys := ∅; kr_duplicates := ∅ |} ex_verifier_key |}.

Definition ex_idempotency_key : string := "idempotency-key-1".

Definition ex_request_bytes : string := ex_create_bytes "Task" "t".

Definition ex_digest_of (raw : string) : string :=
  match parse_named_request raw with
  | Ok r => match request_digest r with Ok d => d | Err _ => "" end
  | Err _ => ""
  end.

(** A projection of the first contract, signed. *)
Definition ex_unsigned (raw operation : string) (resources : list string) : projection := mk_dict
  [("actor_id", VStr ("pubkey:sha256:" +:+ sha256_hex "actor")); ("actor_signature_suite", VStr "Ed25519");
   ("audience", VStr "devgraph://receiver-local"); ("expires_at", VInt 130);
   ("idempotency_key_digest_sha256", VStr (sha256_hex ex_idempotency_key)); ("issued_at", VInt 100);
   ("nonce", VStr (repeat_text 16 "A")); ("operation", VStr operation);
   ("receiver_policy_digest_sha256", VStr (sha256_hex "policy")); ("receiver_policy_id", VStr "policy");
   ("receiver_policy_version", VInt 1); ("replay_scope", VStr "session:operation:nonce");
   ("request_digest_sha256", VStr (ex_digest_of raw)); ("resources", strings resources);
   ("schema", VStr "secs-devgraph-work-authority.v1"); ("schema_version", VInt 1);
   ("secs_context_id", VStr ("ctx:sha256:" +:+ sha256_hex "context")); ("secs_verifier_key_id", VStr "k1");
   ("secs_verifier_signature_suite", VStr "Ed25519"); ("session_id", VStr (repeat_text 22 "A"));
   ("wallet_presentation_digest_sha256", VStr (sha256_hex "wallet"))].

Definition ex_signed (d : projection) : string :=
  _canonical_json (VDict (dict_insert "secs_verifier_signature" (VStr (b64encode (toy_sign (signed_message WORK_SIGNATURE_DOMAIN d)))) d)).

Definition ex_projection : string := ex_signed (ex_unsigned ex_request_bytes "devgraph.work.create.v2" ["Task/t"]).

Definition ex_verified : VerifiedWork :=
  match verify_named ex_config false ex_request_bytes ex_projection ex_idempotency_key None (Some 110) with
  | Ok v => v
  | Err _ => {| vw_request := named_arena ex_arena_request; vw_principal := ex_principal; vw_idempotency_digest := ""; vw_safe_summary := [] |}
  end.

Lemma ex_verified_Ok :
  verify_named ex_config false ex_request_bytes ex_projection ex_idempotency_key None (Some 110) = Ok ex_verified.
Proof. vm_compute. reflexivity. Qed.

Lemma verified_work_authentic_witness :
  verify_named ex_config false ex_request_bytes ex_projection ex_idempotency_key None (Some 110) = Ok ex_verified
  ∧ ∃ d, authentic ex_config false ex_request_bytes ex_projection ex_idempotency_key (Some 110) d ex_verified.
Proof. exact (conj ex_verified_Ok (verified_work_authentic _ _ _ _ _ _ _ _ ex_verified_Ok)). Defined.

Definition ex_projection_fields : projection :=
  match _strict_json_object 16384 "invalid_work_projection" ex_projection with Ok d => d | Err _ => [] end.

Lemma signed_message_binds_witness :
  false = false ∧ sha256_hex ex_idempotency_key = sha256_hex ex_idempotency_key
  ∧ ∃ b, request_signing_bytes (vw_request ex_verified) = Ok b.
Proof.
  assert (Hd : _strict_json_object 16384 "invalid_work_projection" ex_projection = Ok ex_projection_fields) by (vm_compute; reflexivity).
  assert (Hlater : verify_named ex_config false ex_request_bytes ex_projection ex_idempotency_key None (Some 120) = Ok ex_verified)
    by (vm_compute; reflexivity).
  destruct (signed_message_binds ex_config false _ _ _ _ _ _ false _ _ _ _ _ _ _ _ ex_verified_Ok Hlater Hd Hd eq_refl)
    as (H1 & _ & _ & _ & H2 & b & _ & H3 & _).
  split; [exact H1|]. split; [exact H2|]. exists b. exact H3.
Defined.

Lemma disclosure_names_request_witness : ∃ b, credential_request_binding ex_request_bytes ex_idempotency_key = Ok b
  ∧ length (cb_statements b) = 5%nat ∧ parse_named_request ex_request_bytes = parse_named_request ex_request_bytes.
Proof.
  destruct (credential_request_binding ex_request_bytes ex_idempotency_key) as [b|] eqn:E; [|exfalso; revert E; vm_compute; discriminate].
  exists b. split; [reflexivity|]. split.
  - revert E. vm_compute. intros [= <-]. reflexivity.
  - exact (proj1 (proj2 (disclosure_names_request _ _ _ _ _ _ E E) eq_refl)).
Defined.

End witnesses.
