(* ===== verification/Receiver.v ===== *)
(** * Receivers of signed calls

    [SecSWorkAdapter.execute] of [src/devgraph/auth/secs_work.py], the scoped
    adapter and its guard of [auth/write_scope.py], [SecSIssueCreateAdapter.execute]
    of [auth/secs_issue_create.py] and the [AuditLog] of [auth/enforcement.py]: the
    composition of verification, scope, outbox, mutation and audit.

    A host keeps the storage and the audit log.  [audit_result] is the last step of
    a recorded call on each way to return and cannot raise, so its record is added
    to the answer of the call.  The clocks and the loader of the policy are
    arguments of the call; the compound host of [paired_resources.py] is not
    modelled. *)

From stdpp Require Import base gmap strings list sorting.
From Stdlib Require Import ZArith Ascii String.
From S2P Require Import Prelude Json Sha256 Datetime Validation WorkflowContract StrictJson Model Redaction Storage StorageWf StorageReads Repository ResourcePaths Delegated Workflows Arenas Sessions Frames NamedWork WorkGraph Footprint Requests Outbox Grants Verifier.

Local Open Scope Z_scope.

(** ** The audit log *)

Record AuditRecord := {
  al_actor_id : string;
  al_session_id : string;
  al_correlation_id : string;
  al_category : string;
  al_operation : string;
  al_safe_summary : list (string * value)
}.

(** The published records, and the pending ones of the open transactions, the
    innermost first. *)
Record AuditLog := { al_records : list AuditRecord; al_pending : list (list AuditRecord) }.

Definition append_entries (entries : list AuditRecord) (l : AuditLog) : AuditLog :=
  match al_pending l with
  | [] => {| al_records := al_records l ++ entries; al_pending := [] |}
  | top :: rest => {| al_records := al_records l; al_pending := (top ++ entries) :: rest |}
  end.

Definition new_record (p : Principal) (category operation : string) (summary : list (string * value)) : AuditRecord :=
  {| al_actor_id := pn_actor_id p; al_session_id := pn_session_id p; al_correlation_id := pn_correlation_id p;
     al_category := category; al_operation := operation; al_safe_summary := redact_event summary |}.

Record Host := { h_store : Store; h_audit : AuditLog }.

(** A step of the storage alone. *)
Definition on_store {A} (m : M Store A) : M Host A := λ h,
  let '(r, s) := m (h_store h) in (r, {| h_store := s; h_audit := h_audit h |}).

(** A step of the audit log alone; [AuditLog.record]. *)
Definition on_log {A} (m : M AuditLog A) : M Host A := λ h,
  let '(r, l) := m (h_audit h) in (r, {| h_store := h_store h; h_audit := l |}).

Definition record_entry (e : AuditRecord) : M AuditLog unit := modify (append_entries [e]).

(** The storage transaction around a body that may also write the log: it restores
    the storage only. *)
Definition host_transaction {A} (body : M Host A) : M Host A := λ h,
  let outer := bool_decide (tx (h_store h) = None) in
  let s0 := if outer then begin_tx (h_store h) else h_store h in
  let close s := if outer then set_tx None s else s in
  match body {| h_store := s0; h_audit := h_audit h |} with
  | (Ok a, h1) =>
      if is_rollback_only (h_store h1)
      then (Err (StorageUnavailable "nested transaction failed"),
            {| h_store := close (restore_snapshot s0 (h_store h1)); h_audit := h_audit h1 |})
      else (Ok a, {| h_store := close (h_store h1); h_audit := h_audit h1 |})
  | (Err e, h1) => (Err e, {| h_store := close (restore_snapshot s0 (h_store h1)); h_audit := h_audit h1 |})
  end.

#[export] Instance host_stored : Stored Host AuditLog :=
  {| at_store A m := on_store m; beside_store A m := on_log m; in_transaction A m := host_transaction m |}.

#[export] Instance AuditLog_inhabited : Inhabited AuditLog := populate {| al_records := []; al_pending := [] |}.

Definition audit (e : AuditRecord) : M Host unit := λ h,
  (Ok tt, {| h_store := h_store h; h_audit := append_entries [e] (h_audit h) |}).

(** [AuditLog.transaction]: the records of the body are published together, or
    dropped when it raises. *)
Definition audit_transaction {A} (m : M Host A) : M Host A := λ h,
  let l := h_audit h in
  let '(r, h') := m {| h_store := h_store h; h_audit := {| al_records := al_records l; al_pending := [] :: al_pending l |} |} in
  let outer := {| al_records := al_records (h_audit h'); al_pending := tail (al_pending (h_audit h')) |} in
  match r with
  | Ok a => (Ok a, {| h_store := h_store h'; h_audit := append_entries (default [] (head (al_pending (h_audit h')))) outer |})
  | Err e => (Err e, {| h_store := h_store h'; h_audit := outer |})
  end.

(** ** Receiver-owned write scopes *)

Record WriteScopeAssignment := {
  wa_actor_id : string;
  wa_not_before : Z;
  wa_not_after : Z;
  wa_grants : list WriteGrant
}.

(** [WriteScopeAssignment] with its [bounded]. *)
Definition new_assignment (a : WriteScopeAssignment) : res WriteScopeAssignment :=
  raise_if (negb (_ACTOR_ID (wa_actor_id a) && safe_from 0 (wa_not_before a) && safe_from 1 (wa_not_after a)
                  && (1 <=? Z.of_nat (length (wa_grants a))) && (Z.of_nat (length (wa_grants a)) <=? 64)
                  && (wa_not_before a <? wa_not_after a) && distinct_json (map write_grant_dump (wa_grants a))))
    (ValidationError "WriteScopeAssignment");;
  Ok a.

(** [_draft_validity] of an assignment, which has no [validity] of its own. *)
Definition assignment_validity (a : WriteScopeAssignment) : res GrantValidity :=
  dated (VInt (wa_not_before a)) (VInt (wa_not_after a)).

(** [ReceiverWritePolicy], or [ReceiverPathWritePolicy] when [wp_paths]. *)
Record ReceiverWritePolicy := {
  wp_paths : bool;
  wp_revision : Z;
  wp_stable_issuer : string;
  wp_audience : string;
  wp_native_policy_id : string;
  wp_native_policy_version : Z;
  wp_native_policy_digest : string;
  wp_assignments : list WriteScopeAssignment
}.

Definition assignment_dump (a : WriteScopeAssignment) : value :=
  VDict (mk_dict [("actor_id", VStr (wa_actor_id a)); ("not_before", VInt (wa_not_before a));
    ("not_after", VInt (wa_not_after a)); ("grants", VList (map write_grant_dump (wa_grants a)))]).

Definition write_policy_dump (p : ReceiverWritePolicy) : value :=
  VDict (mk_dict [("schema", VStr (if wp_paths p then "devgraph.receiver-write-policy.v2" else "devgraph.receiver-write-policy.v1"));
    ("revision", VInt (wp_revision p)); ("stable_issuer", VStr (wp_stable_issuer p)); ("audience", VStr (wp_audience p));
    ("native_policy_id", VStr (wp_native_policy_id p)); ("native_policy_version", VInt (wp_native_policy_version p));
    ("native_policy_digest_sha256", VStr (wp_native_policy_digest p));
    ("assignments", VList (map assignment_dump (wp_assignments p)))]).

Definition write_policy_digest (p : ReceiverWritePolicy) : string := sha256_hex (_canonical_json (write_policy_dump p)).

Definition new_write_policy (p : ReceiverWritePolicy) : res ReceiverWritePolicy :=
  let refused := ValidationError "ReceiverWritePolicy" in
  raise_if (negb (safe_from 1 (wp_revision p) && (1 <=? str_len (wp_stable_issuer p)) && (str_len (wp_stable_issuer p) <=? 256)
                  && String.eqb (wp_audience p) "devgraph://receiver-local" && _SAFE_LABEL_128 (wp_native_policy_id p)
                  && safe_from 1 (wp_native_policy_version p) && is_hex64 (wp_native_policy_digest p)
                  && (Z.of_nat (length (wp_assignments p)) <=? 128))) refused;;
  raise_if (negb (wp_paths p)
            && existsb (λ a, existsb (λ g, negb (bool_decide (wt_resource_paths g = []))) (wa_grants a)) (wp_assignments p)) refused;;
  raise_if (negb (no_dups (map wa_actor_id (wp_assignments p)))) refused;;
  raise_if (262144 <? str_len (_canonical_json (write_policy_dump p))) refused;;
  Ok p.

Record ResourceScopeGuard := {
  sg_policy : ReceiverWritePolicy;
  sg_assignment : WriteScopeAssignment;
  sg_operation : string
}.

Definition scope_summary (g : ResourceScopeGuard) : list (string * value) :=
  [("write_scope_policy_revision", VInt (wp_revision (sg_policy g)));
   ("write_scope_policy_digest_sha256", VStr (write_policy_digest (sg_policy g)))].

Definition scope_changed : exn := SecSWorkDenied "write_scope_binding_changed".

Definition not_current : exn := SecSWorkDenied "write_scope_not_current".

(** [native[k] != expected]. *)
Definition summary_differs (k : string) (expected : value) (v : VerifiedWork) : res bool :=
  w ← of_option (KeyError k) (dict_get k (vw_safe_summary v)); Ok (negb (bool_decide (w = expected))).

(** The disjunction of [authorize], left to right. *)
Definition binding_changed (p : ReceiverWritePolicy) (v : VerifiedWork) (now : Z) : res bool :=
  if (now <? 0) || negb (String.eqb (pn_issuer (vw_principal v)) (wp_stable_issuer p))
     || negb (String.eqb (pn_audience (vw_principal v)) (wp_audience p)) then Ok true else
  a ← summary_differs "receiver_policy_id" (VStr (wp_native_policy_id p)) v;
  if (a : bool) then Ok true else
  b ← summary_differs "receiver_policy_version" (VInt (wp_native_policy_version p)) v;
  if (b : bool) then Ok true else
  summary_differs "receiver_policy_digest_sha256" (VStr (wp_native_policy_digest p)) v.

Definition find_actor (actor : string) (p : ReceiverWritePolicy) : option WriteScopeAssignment :=
  find (λ a, String.eqb (wa_actor_id a) actor) (wp_assignments p).

Definition authorize (p : ReceiverWritePolicy) (v : VerifiedWork) (now : Z) : res ResourceScopeGuard :=
  changed ← binding_changed p v now;
  raise_if changed scope_changed;;
  a ← of_option not_current (find_actor (pn_actor_id (vw_principal v)) p);
  validity ← assignment_validity a;
  active ← contains validity now;
  raise_if (negb active) not_current;;
  o ← request_operation (vw_request v);
  Ok {| sg_policy := p; sg_assignment := a; sg_operation := o |}.

(** [_resource_scope] of the scoped adapter; the loader of the policy may raise. *)
Definition _resource_scope (policy : res ReceiverWritePolicy) (v : VerifiedWork) (now : Z) : res ResourceScopeGuard :=
  rethrow (λ e, is_value_error e || is_type_error e || is_key_error e) (λ _, SecSWorkDenied "write_scope_unavailable")
    (p ← policy; authorize p v now).

Definition require_write_scope_subset (child parent : WriteScopeAssignment) : res unit :=
  raise_if (negb (String.eqb (wa_actor_id child) (wa_actor_id parent))) (ValueError "write assignment amplification");;
  cv ← assignment_validity child;
  pv ← assignment_validity parent;
  raise_if (negb (validity_contained_by cv pv)) (ValueError "write assignment amplification");;
  raise_if (existsb (λ g, negb (write_covered g (wa_grants parent))) (wa_grants child))
    (ValueError "write resource or Arena amplification").

(** ** The guard on the storage *)

Section guard.
  Context `{Pydantic}.

(** The Arena of a resource, or [None] when it is missing or ambiguous. *)
Definition arena_of_resource (k i : string) (s : Store) : res (option string) :=
  catch (λ e, is_value_error e) None
    (if String.eqb k "Arena" then a ← get_arena i s; Ok (Some (a_id a))
     else if str_in k TODO_KINDS then m ← membership k i s; Ok (a_id <$> m_arena m)
     else Ok None).

Definition _inside (k i : string) (g : WriteGrant) (s : Store) : res bool :=
  inside ← within_paths k i (wt_resource_paths g) s;
  if negb inside then Ok false else
  match wt_arena_ids g with
  | None => Ok true
  | Some ids => a ← arena_of_resource k i s; Ok (match a with Some a => str_in a ids | None => false end)
  end.

(** A grant of the operation that selects the resource and holds it now. *)
Definition grant_holds (operation k i : string) (s : Store) (g : WriteGrant) : res bool :=
  if String.eqb (wt_operation g) operation && existsb (λ r, resource_covers r k i) (wt_resources g)
  then _inside k i g s else Ok false.

(** The witnesses of [prepare]: each resource with the grants that hold it. *)
Definition prepare (g : ResourceScopeGuard) (rs : list string) (s : Store) : res (list (key * list WriteGrant)) :=
  res_mapM (λ r,
    ki ← of_option (ValueError "not enough values to unpack") (split_once slash r);
    candidates ← res_filter (grant_holds (sg_operation g) ki.1 ki.2 s) (wa_grants (sg_assignment g));
    raise_if (bool_decide (length candidates = 0%nat)) (SecSWorkDenied "write_resource_not_granted");;
    Ok (ki, candidates)) rs.

(** [ScopedMutation.check_after]: one of the same grants still holds each resource. *)
Fixpoint check_after (witnesses : list (key * list WriteGrant)) (s : Store) : res unit :=
  match witnesses with
  | [] => Ok tt
  | (ki, candidates) :: rest =>
      ok ← res_existsb (λ g, _inside ki.1 ki.2 g s) candidates;
      raise_if (negb ok) (SecSWorkDenied "write_resource_scope_changed");;
      check_after rest s
  end.

End guard.

(** ** Execution *)

#[export] Instance WorkRequest_eq_dec : EqDecision WorkRequest.
Proof. solve_decision. Defined.

#[export] Instance ArenaRequest_eq_dec : EqDecision ArenaRequest.
Proof. solve_decision. Defined.

#[export] Instance NamedRequest_eq_dec : EqDecision NamedRequest.
Proof. solve_decision. Defined.

#[export] Instance Principal_eq_dec : EqDecision Principal.
Proof. solve_decision. Defined.

Inductive mutation_result : Type :=
  | work_changed (r : named_result)
  | arena_touched (r : arena_result).

(** [work is None]: the call was a duplicate. *)
Definition no_result {A} (o : option A) : bool := match o with None => true | Some _ => false end.

(** [request.payload[name]]. *)
Definition payload_entry (name : string) (r : NamedRequest) : res value :=
  v ← canonical_field "payload" (request_canonical r);
  match v with VDict d => of_option (KeyError name) (dict_get name d) | _ => Err (TypeError "payload") end.

Definition is_operation (o : WorkOperation) (r : NamedRequest) : bool :=
  match r with named_work w => bool_decide (operation w = o) | named_arena _ => false end.

(** The subject of the receipt: the Issue that a conversion makes. *)
Definition request_subject (r : NamedRequest) : res key :=
  if is_operation convert_op r then
    v ← payload_entry "issue_id" r;
    match v with VStr i => Ok ("Issue", i) | _ => Err (TypeError "issue_id") end
  else Ok (match r with named_work w => (rq_kind w, rq_id w) | named_arena a => (ar_kind a, ar_id a) end).

Definition receipt_summary (v : VerifiedWork) (scope : option ResourceScopeGuard) : res (list (string * value)) :=
  let summary := mk_dict (vw_safe_summary v ++ match scope with Some g => scope_summary g | None => [] end) in
  if is_operation session_state_op (vw_request v) then
    st ← payload_entry "state" (vw_request v); Ok (mk_dict (summary ++ [("session_work_state", st)]))
  else Ok summary.

(** One call: the bytes, the key, the profile pin, the readings of the verifier's
    clock and the identifier of a new receipt. *)
Record call := {
  ca_request : string;
  ca_projection : string;
  ca_key : string;
  ca_profile : option string;
  ca_first : option Z;
  ca_second : option Z;
  ca_receipt_id : string
}.

Section adapter.
  Context `{Pydantic, Clock, Ed25519}.
  Context (config : SecSIssueCreateVerifierConfig) (v2 : bool).
  (** [_resource_scope]: [None] for the plain adapter. *)
  Context (scope : VerifiedWork → res (option ResourceScopeGuard)).

Definition verify_call (c : call) (now : option Z) : res VerifiedWork :=
  verify_named config v2 (ca_request c) (ca_projection c) (ca_key c) (ca_profile c) now.

Definition caller_of (p : Principal) : caller :=
  {| by_actor := pn_actor_id p; by_session := pn_session_id p; by_correlation := pn_correlation_id p |}.

(** The repeated admission before the commit is asked for by compound guards only. *)
Definition mutate (v : VerifiedWork) (witnesses : list (key * list WriteGrant)) : M Store mutation_result :=
  r ← match vw_request v with
      | named_arena a => x ← execute_arena a; mret (arena_touched x)
      | named_work w => x ← execute_work (caller_of (vw_principal v)) w; mret (work_changed x)
      end;
  reads (check_after witnesses);;
  mret r.

Definition scope_witnesses (g : option ResourceScopeGuard) (r : NamedRequest) (s : Store) : res (list (key * list WriteGrant)) :=
  match g with Some g => prepare g (request_resources r) s | None => Ok [] end.

(** The record of [audit_result]. *)
Definition audit_result (v : VerifiedWork) (o : string) (summary : list (string * value)) (r : EventReceipt) (duplicate : bool) :
    AuditRecord :=
  new_record (vw_principal v) "write" o (mk_dict (summary ++ [("receipt_id", VStr (er_id r)); ("duplicate", VBool duplicate)])).

(** The arguments of [record_named_work_v1_with_receipt]; [on_result] is
    [audit_result]. *)
Definition recording_of (c : call) (v : VerifiedWork) (witnesses : list (key * list WriteGrant)) (o dg : string) (subject : key)
    (summary : list (string * value)) : recording AuditLog mutation_result :=
  {| rc_principal := vw_principal v; rc_operation := o; rc_subject_label := subject.1; rc_subject_id := subject.2;
     rc_key := ca_key c; rc_summary := summary; rc_mutation := mutate v witnesses; rc_request_digest := Some dg;
     rc_key_digest := Some (vw_idempotency_digest v);
     rc_on_result := Some (λ receipt duplicate, record_entry (audit_result v o summary receipt duplicate));
     rc_receipt_id := ca_receipt_id c |}.

(** The body of the Work transaction. *)
Definition execute_body {T} `{!Stored T AuditLog} (c : call) (initial : VerifiedWork) : M T (option mutation_result * EventReceipt) :=
  v ← lift (verify_call c (ca_second c));
  guard_raise (negb (bool_decide (vw_principal v = vw_principal initial) && bool_decide (vw_request v = vw_request initial)
                     && String.eqb (vw_idempotency_digest v) (vw_idempotency_digest initial)))
    (SecSWorkDenied "named_work_admission_binding_changed");;
  g ← lift (scope v);
  witnesses ← at_store (reads (scope_witnesses g (vw_request v)));
  summary ← lift (receipt_summary v g);
  subject ← lift (request_subject (vw_request v));
  o ← lift (request_operation (vw_request v));
  dg ← lift (request_digest (vw_request v));
  record_named_work (recording_of c v witnesses o dg subject summary).

(** The result, the receipt, and whether the call was a duplicate. *)
Definition execute_call (c : call) : M Host (option mutation_result * EventReceipt * bool) :=
  initial ← lift (verify_call c (ca_first c));
  x ← audit_transaction (host_transaction (execute_body c initial));
  mret (x.1, x.2, no_result x.1).

End adapter.

(** The plain adapter has no scope of its own; the scoped one loads the policy. *)
Definition unscoped (v : VerifiedWork) : res (option ResourceScopeGuard) := Ok None.

Definition scoped_by (policy : res ReceiverWritePolicy) (now : Z) (v : VerifiedWork) : res (option ResourceScopeGuard) :=
  g ← _resource_scope policy v now; Ok (Some g).

Section scoped_status.
  Context `{Pydantic, Clock, Ed25519}.
  Context (config : SecSIssueCreateVerifierConfig) (v2 : bool).

(** [ScopedSecSWorkAdapter.status]: the receipt of an earlier call, never a
    mutation. *)
Definition status_body (policy : res ReceiverWritePolicy) (clock_now : Z) (c : call) : M Store (option EventReceipt * AuditRecord) :=
  v ← lift (verify_call config v2 c (ca_first c));
  g ← lift (_resource_scope policy v clock_now);
  reads (prepare g (request_resources (vw_request v)));;
  claim ← lift (digest_idempotency_claim (vw_principal v) (ca_key c));
  receipt ← reads (_find_receipt "idempotency_claim_digest" claim);
  o ← lift (request_operation (vw_request v));
  match receipt with
  | Some r =>
      subject ← lift (request_subject (vw_request v));
      dg ← lift (request_digest (vw_request v));
      lift (_require_matching_scope r o subject.1 subject.2 (Some dg))
  | None => mret tt
  end;;
  mret (receipt, new_record (vw_principal v) "read" o (mk_dict (vw_safe_summary v ++ scope_summary g
    ++ [("status_only", VBool true); ("receipt_id", match receipt with Some r => VStr (er_id r) | None => VNone end);
        ("outcome", VStr (match receipt with Some _ => "committed" | None => "unknown" end))]))).

Definition status_call (policy : res ReceiverWritePolicy) (clock_now : Z) (c : call) : M Host (option EventReceipt) :=
  audit_transaction (
    x ← on_store (work_mutation_transaction (status_body policy clock_now c));
    audit x.2;;
    mret x.1).

(** [SecSIssueCreateAdapter.execute]: its single-use session is this one call. *)
Definition issue_audit (v : VerifiedIssueCreate) (r : EventReceipt) (duplicate : bool) : AuditRecord :=
  new_record (vi_principal v) "write" _EXACT_ISSUE_CREATE_OPERATION (mk_dict (vi_safe_summary v
    ++ [("duplicate", VBool duplicate); ("persisted_receipt_status", VStr (outbox_value (er_status r))); ("receipt_id", VStr (er_id r))])).

Definition issue_recording (v : VerifiedIssueCreate) (key receipt_id : string) : recording AuditLog WorkObject :=
  {| rc_principal := vi_principal v; rc_operation := _EXACT_ISSUE_CREATE_OPERATION; rc_subject_label := "Issue";
     rc_subject_id := id (vi_issue v); rc_key := key; rc_summary := vi_safe_summary v; rc_mutation := create (vi_issue v);
     rc_request_digest := Some (vi_request_digest v); rc_key_digest := Some (vi_idempotency_digest v);
     rc_on_result := Some (λ receipt duplicate, record_entry (issue_audit v receipt duplicate));
     rc_receipt_id := receipt_id |}.

Definition execute_issue_create (c : call) : M Host (option WorkObject * EventReceipt * bool) :=
  v ← on_store (verify_issue_create config (ca_request c) (ca_key c) (ca_projection c) (ca_first c));
  x ← audit_transaction (record_secs_issue_create (issue_recording v (ca_key c) (ca_receipt_id c)));
  mret (x.1, x.2, no_result x.1).

End scoped_status.

(** ** What the guard reads

    Placement depends on the records and on the two containment relations only. *)

Record same_containment (s s' : Store) : Prop := {
  sc_nodes : nodes s = nodes s';
  sc_parents k : incoming "HAS_CHILD" k s = incoming "HAS_CHILD" k s';
  sc_members k : incoming "CONTAINS_WORK" k s = incoming "CONTAINS_WORK" k s'
}.

#[export] Instance same_containment_equivalence : Equivalence same_containment.
Proof.
  split.
  - intros s. by constructor.
  - intros s s' []. by constructor.
  - intros s s' s'' [] []. constructor; intros; etrans; eauto.
Qed.

#[export] Instance get_node_same label i : Proper (same_containment ==> eq) (get_node label i).
Proof. intros s s' []. unfold get_node. by rewrite sc_nodes0. Qed.

#[export] Instance work_containment_same label i : Proper (same_containment ==> eq) (work_containment label i).
Proof.
  intros s s' [Hn Hp Hm]. unfold work_containment, _work_containment. cbn [res_mapM]. rewrite Hn, Hp, Hm. done.
Qed.

#[export] Instance path_walk_same n k vis ch : Proper (same_containment ==> eq) (path_walk n k vis ch).
Proof.
  intros s s' Hs. revert k vis ch. induction n as [|n IH]; intros k vis ch; [done|]. cbn [path_walk].
  case_decide; [done|]. rewrite (work_containment_same _ _ s s' Hs). destruct (work_containment _ _ s') as [[it|]|]; [|done..]. cbn [mbind res_bind].
  destruct (_ && _); [|done]. unfold arena_end.
  destruct (wc_parents it) as [|e []], (wc_memberships it) as [|e' []]; try done; rewrite ?(get_node_same _ _ s s' Hs); try done;
    destruct (_ || _); try done; apply IH.
Qed.

#[export] Instance within_paths_same k i ps : Proper (same_containment ==> eq) (within_paths k i ps).
Proof. intros s s' Hs. unfold within_paths, current_resource_path. destruct ps; [done|]. by rewrite (path_walk_same _ _ _ _ s s' Hs). Qed.

Section same_guard.
  Context `{Pydantic}.

#[export] Instance get_arena_same i : Proper (same_containment ==> eq) (get_arena i).
Proof. intros s s' Hs. unfold get_arena. by rewrite (get_node_same _ _ s s' Hs). Qed.

#[export] Instance membership_walk_same n o k vis : Proper (same_containment ==> eq) (membership_walk n o k vis).
Proof.
  intros s s' Hs. revert k vis. induction n as [|n IH]; intros k vis; [done|]. cbn [membership_walk].
  case_decide; [done|]. unfold _containment. rewrite (work_containment_same _ _ s s' Hs). destruct (x ← work_containment _ _ s'; _) as [it|]; [|done].
  destruct (wc_parents it) as [|e []], (_direct_id it) as [[a|]|]; try done; rewrite ?(get_arena_same _ s s' Hs); try done;
    destruct (_ || _); try done; apply IH.
Qed.

#[export] Instance inside_same k i g : Proper (same_containment ==> eq) (_inside k i g).
Proof.
  intros s s' Hs. unfold _inside, arena_of_resource, membership.
  by rewrite (within_paths_same _ _ _ s s' Hs), (get_arena_same _ s s' Hs), (membership_walk_same _ _ _ _ s s' Hs).
Qed.

End same_guard.

Lemma same_graph_containment s s' : same_graph s s' → same_containment s s'.
Proof. intros [Hn He]. unfold incoming. constructor; intros; unfold incoming; congruence. Qed.

(** A receipt's edge is no containment. *)
Lemma emitted_containment s s' e : nodes s' = nodes s → edges s' = edges s ++ [e] → relationship e = "EMITTED_EVENT" →
  same_containment s s'.
Proof.
  intros Hn He Hr. constructor; [done|..]; intros k; unfold incoming; rewrite He, filter_app, filter_cons, filter_nil, decide_False, app_nil_r;
    rewrite ?Hr; try done; by intros [_ ?].
Qed.

(** ** Runs of the guard *)

Section runs.
  Context {PY : Pydantic}.

(** The assignment holds the resource in the storage through the grant. *)
Definition held_by (operation : string) (r : string) (g : WriteGrant) (s : Store) : Prop :=
  ∃ k i, split_once slash r = Some (k, i) ∧ wt_operation g = operation
    ∧ existsb (λ w, resource_covers w k i) (wt_resources g) = true ∧ _inside k i g s = Ok true.

Lemma prepare_Ok g rs s ws : prepare g rs s = Ok ws →
  Forall2 (λ r w, split_once slash r = Some w.1 ∧ ∀ x, x ∈ w.2 → x ∈ wa_grants (sg_assignment g) ∧ held_by (sg_operation g) r x s) rs ws.
Proof.
  unfold prepare. revert ws. induction rs as [|r rs IH]; intros ws H; simpl in H; [injection H as <-; constructor|].
  apply res_bind_Ok in H as (w & Hw & H). apply res_bind_Ok in H as (ws' & Hws & [= <-]). constructor; [|by apply IH].
  apply res_bind_Ok in Hw as ([k i] & Hk%of_option_Ok & Hw). apply res_bind_Ok in Hw as (cs & Hcs & Hw).
  apply res_bind_Ok in Hw as (_ & _ & [= <-]). split; [done|]. simpl. intros x [Hx Hg]%(res_filter_Ok _ _ _ Hcs).
  split; [done|]. unfold grant_holds in Hg. simpl in Hg. destruct (_ && _) eqn:E; [|done]. bools. by exists k, i.
Qed.

Lemma check_after_Ok ws s : check_after ws s = Ok tt →
  Forall (λ w, ∃ x, x ∈ w.2 ∧ _inside w.1.1 w.1.2 x s = Ok true) ws.
Proof.
  induction ws as [|[[k i] cs] ws IH]; intros H; [constructor|]. cbn [check_after] in H.
  apply res_bind_Ok in H as (b & Hb & H). apply res_bind_Ok in H as (_ & Hr%raise_if_Ok & H). bools. subst b.
  apply res_existsb_true in Hb as (x & Hx & Hi). constructor; [|by apply IH]. by exists x.
Qed.

(** One grant that held the resource before holds it after. *)
Lemma guard_kept g rs s ws s' : prepare g rs s = Ok ws → check_after ws s' = Ok tt →
  ∀ r, r ∈ rs → ∃ x, x ∈ wa_grants (sg_assignment g) ∧ held_by (sg_operation g) r x s ∧ held_by (sg_operation g) r x s'.
Proof.
  intros Hp%prepare_Ok Hc%check_after_Ok r Hr. apply list_elem_of_lookup in Hr as [n Hn].
  destruct (Forall2_lookup_l _ _ _ _ _ Hp Hn) as ([[k i] cs] & Hw & Hs & Hall).
  eapply Forall_lookup_1 in Hc as (x & Hx & Hi); [|exact Hw]. destruct (Hall x Hx) as [Hin Hh]. exists x.
  split; [done|]. split; [done|]. destruct Hh as (k' & i' & Hs' & Ho & Hcov & _). simpl in *. rewrite Hs in Hs'.
  injection Hs' as <- <-. by exists k, i.
Qed.

End runs.

(** ** Runs of the receiver *)

Lemma lift_bind {S A B} (r : res A) (k : A → M S B) s :
  (lift r ≫= k) s = match r with Ok a => k a s | Err e => (Err e, s) end.
Proof. by destruct r. Qed.

Lemma append_nil l : append_entries [] l = l.
Proof. destruct l as [rs [|p ps]]; unfold append_entries; cbn; by rewrite app_nil_r. Qed.

Lemma append_append es es' l : append_entries es' (append_entries es l) = append_entries (es ++ es') l.
Proof. destruct l as [rs [|p ps]]; unfold append_entries; cbn; by rewrite app_assoc. Qed.

(** A program of the host that acts on the storage as a program of the storage
    alone, and adds entries to the log that are related to its result. *)
Definition records {A} (m : M Host A) (n : M Store A) (R : A → list AuditRecord → Prop) : Prop := ∀ h x h', m h = (x, h') →
  n (h_store h) = (x, h_store h')
  ∧ ∃ es, h_audit h' = append_entries es (h_audit h) ∧ match x with Ok a => R a es | Err _ => True end.

Definition silent {A} (a : A) (es : list AuditRecord) : Prop := es = [].

Lemma records_store {A} (m : M Store A) : records (on_store m) m silent.
Proof.
  intros h x h'. unfold on_store. destruct (m (h_store h)) as [y s]. intros [= <- <-]. split; [done|]. exists [].
  rewrite append_nil. split; [done|]. by destruct y.
Qed.

Lemma records_pure {A} (m : ∀ S, M S A) (R : A → list AuditRecord → Prop) :
  (∃ r, (∀ S (s : S), m S s = (r, s)) ∧ ∀ a, r = Ok a → R a []) → records (m Host) (m Store) R.
Proof.
  intros (r & Hm & HR) h x h'. rewrite !Hm. intros [= <- <-]. split; [done|]. exists []. rewrite append_nil. split; [done|].
  destruct r; [by apply HR|done].
Qed.

Lemma records_chain {A B} (m : M Host A) n (k : A → M Host B) k' R :
  records m n silent → (∀ a h h', m h = (Ok a, h') → records (k a) (k' a) R) → records (m ≫= k) (n ≫= k') R.
Proof.
  intros Hm Hk h x h'. unfold mbind, M_bind. destruct (m h) as [[a|e] h1] eqn:E; pose proof (Hm _ _ _ E) as (-> & es & Hes & He).
  - intros Hx. destruct (Hk a h h1 E _ _ _ Hx) as (-> & es' & Hes' & HR). split; [done|]. exists es'. split; [|done].
    rewrite Hes', Hes. unfold silent in He. by rewrite He, append_nil.
  - intros [= <- <-]. split; [done|]. by exists es.
Qed.

Lemma records_lift_bind {A B} (r : res A) (k : A → M Host B) k' R :
  (∀ a, r = Ok a → records (k a) (k' a) R) → records (lift r ≫= k) (lift r ≫= k') R.
Proof.
  intros Hk. destruct r as [a|e]; [by apply (Hk a)|]. intros h x h' [= <- <-]. split; [done|]. exists []. by rewrite append_nil.
Qed.

Lemma records_guard b e : records (guard_raise b e) (guard_raise b e) silent.
Proof. apply (records_pure (λ S, guard_raise b e)). destruct b; [by exists (Err e)|by exists (Ok tt)]. Qed.

Lemma records_weaken {A} (m : M Host A) n (R R' : A → list AuditRecord → Prop) :
  (∀ a es, R a es → R' a es) → records m n R → records m n R'.
Proof. intros Hi Hm h x h' (Hn & es & Hes & HR)%Hm. split; [done|]. exists es. split; [done|]. destruct x; auto. Qed.

Lemma records_transaction {A} (m : M Host A) n R : records m n R → records (host_transaction m) (transaction n) R.
Proof.
  intros Hm h x h'. unfold host_transaction, transaction. set (s0 := if bool_decide (tx (h_store h) = None) then _ else _).
  destruct (m {| h_store := s0; h_audit := h_audit h |}) as [[a|e] h1] eqn:E; apply Hm in E as (Hn & es & Hes & HR); cbn [h_store h_audit] in *;
    rewrite Hn; [destruct (is_rollback_only _)|]; intros [= <- <-]; (split; [done|]; by exists es).
Qed.

(** What a failed body recorded is dropped. *)
Lemma audit_dropped {A} (m : M Host A) h e h1 :
  (∀ h y h', m h = (y, h') → ∃ es, h_audit h' = append_entries es (h_audit h)) →
  audit_transaction m h = (Err e, h1) → h_audit h1 = h_audit h.
Proof.
  intros Hm. unfold audit_transaction. destruct h as [s [rs ps]]; cbn [h_store h_audit al_records al_pending].
  destruct (m _) as [y h2] eqn:E. apply Hm in E as (es & Hes). cbn [h_audit append_entries al_pending al_records] in Hes.
  destruct y as [a|e']; intros [= _ <-]. cbn [h_audit]. by rewrite Hes.
Qed.

(** A record made after a step of the storage. *)
Lemma audited_after {A B} (m : M Store A) (f : A → AuditRecord) (g : A → B) h :
  audit_transaction (x ← on_store m; audit (f x);; mret (g x)) h =
  match m (h_store h) with
  | (Ok x, s) => (Ok (g x), {| h_store := s; h_audit := append_entries [f x] (h_audit h) |})
  | (Err e, s) => (Err e, {| h_store := s; h_audit := h_audit h |})
  end.
Proof.
  destruct h as [s0 [rs ps]]. unfold audit_transaction, on_store, audit, mbind, M_bind, mret, M_ret. cbn [h_store h_audit].
  destruct (m s0) as [[x|e] s]; done.
Qed.

(** The outbox on a host does to the storage what it does alone, and a call that
    returns has recorded what its callback did, once. *)
Section recorded.
  Context {PY : Pydantic} {CK : Clock} {A : Type}.
  Context (c : recording AuditLog A) (note : EventReceipt → bool → AuditRecord).
  Hypothesis Hnote : rc_on_result c = Some (λ r d, record_entry (note r d)).

Definition noted (x : option A * EventReceipt) (es : list AuditRecord) : Prop := es = [note x.2 (no_result x.1)].

Lemma records_notify r (o : option A) : records (notify c r (no_result o);; mret (o, r)) (notify c r (no_result o);; mret (o, r)) noted.
Proof.
  unfold notify. rewrite Hnote. intros [s l] x h' [= <- <-]. split; [done|]. by eexists.
Qed.

Lemma records_duplicate r : records (duplicate_of c r) (duplicate_of c r) noted.
Proof. unfold duplicate_of. apply records_lift_bind. intros _ _. exact (records_notify r None). Qed.

Lemma records_outbox : records (_record_mutation_with_receipt c) (_record_mutation_with_receipt c) noted.
Proof.
  unfold _record_mutation_with_receipt. apply records_lift_bind. intros d _. cbn [in_transaction host_stored store_alone].
  apply records_transaction. unfold recorded_body. cbn [at_store host_stored store_alone].
  apply records_chain; [apply records_store|]. intros [r|] _ _ _; [apply records_duplicate|].
  apply records_chain; [apply records_store|]. intros lg _ _ _. apply records_chain; [apply records_guard|]. intros _ _ _ _.
  apply records_chain; [apply records_store|]. intros now _ _ _. apply records_lift_bind. intros r _. apply records_lift_bind. intros p _.
  apply records_chain; [apply records_store|]. intros [[] n] _ _ _; cbn [negb].
  - apply records_chain; [apply records_store|]. intros a _ _ _. apply records_chain; [apply records_store|]. intros e _ _ _.
    exact (records_notify r (Some a)).
  - apply records_lift_bind. intros r' _. apply records_duplicate.
Qed.

End recorded.

(** The audit log's transaction publishes what the body recorded, or nothing. *)
Lemma audited_run {A} (m : M Host A) n R h x h' : records m n R → audit_transaction m h = (x, h') →
  n (h_store h) = (x, h_store h')
  ∧ match x with Ok a => ∃ es, R a es ∧ h_audit h' = append_entries es (h_audit h) | Err _ => h_audit h' = h_audit h end.
Proof.
  intros Hm. unfold audit_transaction. destruct h as [s [rs ps]]; cbn [h_store h_audit al_records al_pending].
  destruct (m _) as [y h1] eqn:E. apply Hm in E as (Hn & es & Hes & HR). cbn [h_store h_audit append_entries al_pending al_records] in *.
  destruct y as [a|e]; intros [= <- <-]; cbn [h_store h_audit]; (split; [done|]); rewrite Hes; cbn [al_records al_pending tail head default].
  - exists es. done.
  - done.
Qed.

Section execution.
  Context {PY : Pydantic} {PL : PydanticLaws} {CK : Clock} {ED : Ed25519}.
  Context (config : SecSIssueCreateVerifierConfig) (v2 : bool).
  Implicit Types (scope : VerifiedWork → res (option ResourceScopeGuard)) (h : Host) (c : call).

(** What a call that reached the outbox had established. *)
Record prepared scope c (initial v : VerifiedWork) (g : option ResourceScopeGuard) (ws : list (key * list WriteGrant)) (s : Store) : Prop := {
  pp_verified : verify_call config v2 c (ca_second c) = Ok v;
  pp_same : vw_principal v = vw_principal initial ∧ vw_request v = vw_request initial;
  pp_scope : scope v = Ok g;
  pp_witnesses : scope_witnesses g (vw_request v) s = Ok ws
}.

Lemma execute_body_Ok scope c initial s r rc s' :
  execute_body (T := Store) config v2 scope c initial s = (Ok (r, rc), s') →
  ∃ v g ws o dg subject summary, prepared scope c initial v g ws s ∧ request_operation (vw_request v) = Ok o
    ∧ _record_mutation_with_receipt (recording_of c v ws o dg subject summary) s = (Ok (r, rc), s').
Proof.
  unfold execute_body. cbn [at_store store_alone]. intros H. apply M_bind_Ok in H as (v & s1 & [Hv ->]%lift_Ok & H).
  apply M_bind_Ok in H as (_ & s1 & [Hb ->]%guard_raise_Ok & H). apply M_bind_Ok in H as (g & s1 & [Hg ->]%lift_Ok & H).
  apply M_bind_Ok in H as (ws & s1 & [Hws ->]%reads_Ok & H). apply M_bind_Ok in H as (summary & s1 & [_ ->]%lift_Ok & H).
  apply M_bind_Ok in H as (subject & s1 & [_ ->]%lift_Ok & H). apply M_bind_Ok in H as (o & s1 & [Ho ->]%lift_Ok & H).
  apply M_bind_Ok in H as (dg & s1 & [_ ->]%lift_Ok & Hrec). bools. unfold record_named_work in Hrec.
  apply M_bind_Ok in Hrec as (_ & s2 & [_ ->]%lift_Ok & Hrec).
  exists v, g, ws, o, dg, subject, summary. split; [by constructor|]. done.
Qed.

(** What an answered call records. *)
Definition call_noted scope c (x : option mutation_result * EventReceipt) (es : list AuditRecord) : Prop :=
  ∃ v o g summary, verify_call config v2 c (ca_second c) = Ok v ∧ request_operation (vw_request v) = Ok o
    ∧ scope v = Ok g ∧ receipt_summary v g = Ok summary ∧ es = [audit_result v o summary x.2 (no_result x.1)].

Lemma execute_body_records scope c initial :
  records (execute_body (T := Host) config v2 scope c initial) (execute_body (T := Store) config v2 scope c initial) (call_noted scope c).
Proof.
  unfold execute_body. cbn [at_store host_stored store_alone]. apply records_lift_bind. intros v Hv.
  apply records_chain; [apply records_guard|]. intros _ _ _ _. apply records_lift_bind. intros g Hg.
  apply records_chain; [apply records_store|]. intros ws _ _ _. apply records_lift_bind. intros summary Hsum.
  apply records_lift_bind. intros subject _. apply records_lift_bind. intros o Ho. apply records_lift_bind. intros dg _.
  unfold record_named_work. apply records_lift_bind. intros _ _.
  eapply records_weaken; [|by apply (records_outbox _ (audit_result v o summary))].
  intros x es ->. by exists v, o, g, summary.
Qed.

Lemma execute_call_cases scope c h x h' : execute_call config v2 scope c h = (x, h') →
  match x with
  | Err _ => same_graph (h_store h) (h_store h') ∧ h_audit h' = h_audit h
  | Ok (r, rc, dup) => ∃ initial es, verify_call config v2 c (ca_first c) = Ok initial ∧ dup = no_result r
      ∧ transaction (execute_body (T := Store) config v2 scope c initial) (h_store h) = (Ok (r, rc), h_store h')
      ∧ h_audit h' = append_entries es (h_audit h) ∧ call_noted scope c (r, rc) es
  end.
Proof.
  unfold execute_call. rewrite lift_bind. destruct (verify_call config v2 c (ca_first c)) as [initial|e] eqn:Ev; [|by intros [= <- <-]].
  unfold mbind, M_bind. destruct (audit_transaction _ h) as [[[r rc]|e] h1] eqn:Et; intros [= <- <-];
    apply (audited_run _ _ _ _ _ _ (records_transaction _ _ _ (execute_body_records scope c initial))) in Et as [Et Ha].
  - destruct Ha as (es & Hes & Ha). by exists initial, es.
  - apply transaction_Err in Et as (Hn & _ & He & _). done.
Qed.

(** The mutation inside a recorded call. *)
Lemma mutate_Ok v ws s a s' : mutate v ws s = (Ok a, s') →
  check_after ws s' = Ok tt ∧
  match vw_request v with
  | named_work w => ∃ x, execute_work (caller_of (vw_principal v)) w s = (Ok x, s')
  | named_arena w => ∃ x, execute_arena w s = (Ok x, s')
  end.
Proof.
  unfold mutate. intros H. apply M_bind_Ok in H as (r & s1 & Hr & H). apply M_bind_Ok in H as ([] & s2 & [Hc ->]%reads_Ok & H).
  apply M_ret_Ok in H as [-> ->]. split; [done|].
  destruct (vw_request v); apply M_bind_Ok in Hr as (x & s3 & Hx & Hr); apply M_ret_Ok in Hr as [-> ->]; by exists x.
Qed.

Lemma mutate_keeps v ws : keeps (mutate v ws).
Proof.
  unfold mutate, execute_work, execute_arena. apply keeps_bind; [|intros ?; apply keeps_bind; [apply keeps_id|intros ?; by apply keeps_same]].
  destruct (vw_request v); (apply keeps_bind; [|intros ?; by apply keeps_same]);
    (apply keeps_bind; [by apply keeps_same|intros ?]); (apply keeps_bind; [by apply keeps_same|intros ?]);
    first [apply named_execute_keeps|apply arena_execute_keeps].
Qed.

(** The message a verified request stands for. *)
Definition message_of (c : call) (v : VerifiedWork) : message :=
  match vw_request v with
  | named_work _ => work_bytes (caller_of (vw_principal v)) (ca_request c)
  | named_arena _ => arena_bytes (ca_request c)
  end.

Lemma mutate_receive c v ws s a s' : reads_as (ca_request c) (vw_request v) → mutate v ws s = (Ok a, s') →
  receive s (message_of c v) = s' ∧ inventory (message_of c v) = request_resources (vw_request v).
Proof.
  intros Hr [_ Hx]%mutate_Ok. unfold message_of. destruct (vw_request v) as [w|w]; simpl in *; rewrite Hr;
    destruct Hx as [x ->]; done.
Qed.

Lemma verify_reads c now v : verify_call config v2 c now = Ok v → reads_as (ca_request c) (vw_request v).
Proof. by intros (d & [])%verify_authentic. Qed.


(** A call that changed the storage: the receipt is written, the mutation runs and
    the receipt is linked. *)
Record fresh_run scope c h (v : VerifiedWork) (g : option ResourceScopeGuard) (ws : list (key * list WriteGrant)) (o : string)
    (a : mutation_result) (sm sx : Store) h' : Prop := {
  fr_scope : scope v = Ok g;
  fr_verified : verify_call config v2 c (ca_second c) = Ok v;
  fr_operation : request_operation (vw_request v) = Ok o;
  fr_witnesses : ∃ s0, same_graph (h_store h) s0 ∧ scope_witnesses g (vw_request v) s0 = Ok ws;
  fr_start : ∃ n, nodes sm = <[("EventReceipt", ca_receipt_id c) := n]> (nodes (h_store h)) ∧ edges sm = edges (h_store h);
  fr_wf : store_wf (h_store h) → store_wf sm;
  fr_mutation : mutate v ws sm = (Ok a, sx);
  fr_end : ∃ subject, nodes (h_store h') = nodes sx
    ∧ edges (h_store h') = edges sx ++ [Edge subject.1 subject.2 "EMITTED_EVENT" "EventReceipt" (ca_receipt_id c) ∅]
}.

Lemma execute_call_fresh scope c h a rc dup h' : execute_call config v2 scope c h = (Ok (Some a, rc, dup), h') →
  ∃ v g ws o sm sx, fresh_run scope c h v g ws o a sm sx h'.
Proof.
  intros (initial & es & _ & _ & Ht & _)%execute_call_cases.
  apply transaction_graph in Ht as (s0 & s1 & Hb & Hs0 & [_ Hwf0] & Hs1).
  apply execute_body_Ok in Hb as (v & g & ws & o & dg & subject & summary & [Hv _ Hg Hws] & Ho & Hrec).
  apply record_first_Ok in Hrec as (d & now & p & sm & sx & _ & _ & _ & _ & _ & _ & Hwf & Hn & He & Hm & Hn1 & He1).
  destruct Hs0 as [Hn0 He0], Hs1 as [Hn1' He1']. cbn [rc_mutation recording_of rc_receipt_id rc_subject_label rc_subject_id] in *.
  exists v, g, ws, o, sm, sx. constructor; try done; eauto.
  - exists s0. by split; [split|].
  - eexists. rewrite Hn, He, Hn0, He0. done.
  - exists subject. rewrite Hn1', He1', Hn1, He1. done.
Qed.

(** Answers without a result change nothing. *)
Lemma execute_call_duplicate scope c h rc dup h' : execute_call config v2 scope c h = (Ok (None, rc, dup), h') →
  same_graph (h_store h) (h_store h').
Proof.
  intros (initial & es & _ & _ & Ht & _)%execute_call_cases.
  apply transaction_graph in Ht as (s0 & s1 & Hb & [Hn0 He0] & _ & [Hn1 He1]).
  apply execute_body_Ok in Hb as (v & g & ws & o & dg & subject & summary & _ & _ & [Hn He]%record_duplicate_Ok).
  split; congruence.
Qed.

Lemma fresh_within scope c h v g ws o a sm sx h' : fresh_run scope c h v g ws o a sm sx h' → store_wf (h_store h) →
  ∃ R, within_step R sm sx ∧ ∀ k, k ∈ R → named_in (request_resources (vw_request v)) k.
Proof.
  intros [_ Hv _ _ _ Hwf Hm _] Hs.
  destruct (mutate_receive c v ws sm a sx (verify_reads _ _ _ Hv) Hm) as [Hr Hi].
  destruct (receive_within (message_of c v) sm (Hwf Hs)) as (R & HR & Hn). rewrite Hr in HR. rewrite Hi in Hn. eauto.
Qed.

(** The mutation leaves the storage as an accepted message does. *)
Lemma fresh_graph scope c h v g ws o a sm sx h' : fresh_run scope c h v g ws o a sm sx h' →
  store_wf (h_store h) → graph_wf (h_store h) → graph_wf (h_store h').
Proof.
  intros [_ Hv _ _ (n & Hn & He) Hwf Hm (subject & _ & He')] Hs Hg. apply (graph_wf_edges _ _ He) in Hg.
  assert (graph_wf sx) as Hx.
  { apply mutate_Ok in Hm as [_ Hm]. apply verify_reads in Hv. destruct (vw_request v) as [w|w]; destruct Hm as [x Hx]; simpl in Hv.
    - destruct (execute_work_run (caller_of (vw_principal v)) _ _ Hv) as (q & _ & Hok & Hrun). rewrite Hrun in Hx.
      destruct (handle_wf (work_request _ q) sm Hok (conj (Hwf Hs) Hg)) as [_ H]. simpl in H. by rewrite Hx in H.
    - destruct (execute_arena_run _ _ Hv) as (q & _ & Hok & Hrun). rewrite Hrun in Hx.
      destruct (handle_wf (arena_request_of q) sm Hok (conj (Hwf Hs) Hg)) as [_ H]. simpl in H. by rewrite Hx in H. }
  apply (graph_wf_same sx); [|done]. intros r Hr. unfold rel_edges. rewrite He', filter_app, filter_cons, filter_nil, decide_False; [by rewrite app_nil_r|].
  simpl. intros <-. done.
Qed.

End execution.

(** ** Any sequence of calls *)

Section hosts.
  Context {PY : Pydantic} {PL : PydanticLaws} {CK : Clock} {ED : Ed25519}.
  Context (config : SecSIssueCreateVerifierConfig).

Inductive host_call : Type :=
  | plain_call (v2 : bool) (c : call)
  | scoped_call (v2 : bool) (policy : res ReceiverWritePolicy) (now : Z) (c : call)
  | status_request (v2 : bool) (policy : res ReceiverWritePolicy) (now : Z) (c : call)
  | issue_call (c : call).

Definition host_step (h : Host) (x : host_call) : Host :=
  match x with
  | plain_call v2 c => (execute_call config v2 unscoped c h).2
  | scoped_call v2 policy now c => (execute_call config v2 (scoped_by policy now) c h).2
  | status_request v2 policy now c => (status_call config v2 policy now c h).2
  | issue_call c => (execute_issue_create config c h).2
  end.

Lemma recorded_body_keeps {A} (c : recording AuditLog A) d : keeps (rc_mutation c) → keeps (recorded_body c d).
Proof.
  intros Hm. unfold recorded_body, duplicate_of. cbn [at_store store_alone].
  assert (∀ r d, keeps (notify c r d)) as Hnote by (intros r d'; apply keeps_same; intros s; by rewrite notify_alone).
  repeat first [apply Hnote|apply keeps_id|apply keeps_guard|apply keeps_clock|by apply keeps_same|apply claim_event_receipt_keeps
               |apply link_new_event_receipt_keeps|exact Hm|apply keeps_bind; [|intros ?]|case_match].
Qed.

Lemma recorded_call_keeps {A} (c : recording AuditLog A) : keeps (rc_mutation c) → keeps (_record_mutation_with_receipt c).
Proof.
  intros Hm. unfold _record_mutation_with_receipt. apply keeps_bind; [by apply keeps_same|intros ?].
  by apply transaction_keeps, recorded_body_keeps.
Qed.

Lemma execute_call_keeps v2 scope c h : store_wf (h_store h) → store_wf (h_store (execute_call config v2 scope c h).2).
Proof.
  intros Hs. unfold execute_call. rewrite lift_bind. destruct (verify_call _ _ _ _) as [initial|e]; [|done].
  unfold mbind, M_bind. destruct (audit_transaction _ h) as [x h1] eqn:Et.
  apply (audited_run _ _ _ _ _ _ (records_transaction _ _ _ (execute_body_records config v2 scope c initial))) in Et as [Et _].
  assert (keeps (transaction (execute_body (T := Store) config v2 scope c initial))) as Hk.
  { apply transaction_keeps. unfold execute_body, record_named_work. cbn [at_store store_alone].
    repeat first [apply recorded_call_keeps, mutate_keeps|apply keeps_id|apply keeps_guard|by apply keeps_same|apply keeps_bind; [|intros ?]]. }
  destruct (Hk _ Hs) as [Hw _]. rewrite Et in Hw. by destruct x.
Qed.

(** A status request reads. *)
Lemma status_call_same v2 policy now c h : same_graph (h_store h) (h_store (status_call config v2 policy now c h).2)
  ∧ (store_wf (h_store h) → store_wf (h_store (status_call config v2 policy now c h).2)).
Proof.
  unfold status_call. rewrite (audited_after _ (λ x, x.2) (λ x, x.1)).
  assert (∀ s, (status_body config v2 policy now c s).2 = s) as Hb.
  { intros s. unfold status_body, mbind, M_bind, lift, reads, mret, M_ret.
    repeat (case_match; simplify_eq/=; try done). }
  assert (keeps (work_mutation_transaction (status_body config v2 policy now c))) as Hk by (by apply transaction_keeps, keeps_same).
  specialize (Hk (h_store h)).
  destruct (work_mutation_transaction _ _) as [[x|e] s] eqn:Et; cbn [h_store fst snd] in *; (split; [|by intros []%Hk]).
  - apply transaction_graph in Et as (s0 & s1 & Hr & [Hn He] & _ & [Hn' He']). specialize (Hb s0). rewrite Hr in Hb. simpl in Hb.
    subst. split; congruence.
  - by apply transaction_Err in Et as (? & _ & ? & _).
Qed.


(** Verifying an Issue request reads clocks only. *)
Lemma verify_issue_same c s : same_graph s (verify_issue_create config (ca_request c) (ca_key c) (ca_projection c) (ca_first c) s).2
  ∧ keeps (verify_issue_create config (ca_request c) (ca_key c) (ca_projection c) (ca_first c)).
Proof.
  split.
  - unfold verify_issue_create, construct_named, utc_now, same_graph, mbind, M_bind, lift. repeat (case_match; simplify_eq/=; try done).
  - unfold verify_issue_create, construct_named.
    repeat first [apply keeps_clock|by apply keeps_same|apply keeps_bind; [|intros ?]].
Qed.

Lemma verify_issue_Ok c s v s' : verify_issue_create config (ca_request c) (ca_key c) (ca_projection c) (ca_first c) s = (Ok v, s') →
  same_graph s s' ∧ (store_wf s → store_wf s').
Proof.
  destruct (verify_issue_same c s) as [Hg Hk]. intros E. rewrite E in Hg. split; [done|]. intros Hs. apply Hk in Hs as [Hs _].
  by rewrite E in Hs.
Qed.

Lemma on_store_bind {A B} (m : M Store A) (k : A → M Host B) h :
  (on_store m ≫= k) h = match m (h_store h) with
                        | (Ok a, s) => k a {| h_store := s; h_audit := h_audit h |}
                        | (Err e, s) => (Err e, {| h_store := s; h_audit := h_audit h |})
                        end.
Proof. unfold on_store, mbind, M_bind. by destruct (m (h_store h)) as [[a|e] s]. Qed.

Lemma issue_records v c : records (record_secs_issue_create (issue_recording v (ca_key c) (ca_receipt_id c)))
  (record_secs_issue_create (issue_recording v (ca_key c) (ca_receipt_id c))) (noted (issue_audit v)).
Proof. unfold record_secs_issue_create. apply records_lift_bind. intros _ _. by apply records_outbox. Qed.

(** The outcomes of an Issue call. *)
Lemma issue_call_cases c h x h' : execute_issue_create config c h = (x, h') →
  match x with
  | Err _ => same_graph (h_store h) (h_store h') ∧ h_audit h' = h_audit h
  | Ok (r, rc, dup) => ∃ v s, verify_issue_create config (ca_request c) (ca_key c) (ca_projection c) (ca_first c) (h_store h) = (Ok v, s)
      ∧ dup = no_result r ∧ h_audit h' = append_entries [issue_audit v rc dup] (h_audit h)
      ∧ _record_mutation_with_receipt (issue_scope (issue_recording v (ca_key c) (ca_receipt_id c))) s = (Ok (r, rc), h_store h')
  end.
Proof.
  unfold execute_issue_create. rewrite on_store_bind. intros Hx.
  destruct (verify_issue_same c (h_store h)) as [[Hn He] _].
  destruct (verify_issue_create _ _ _ _ _ _) as [[v|e] s] eqn:Ev; [|by injection Hx as <- <-].
  unfold mbind, M_bind in Hx. destruct (audit_transaction _ _) as [[[r rc]|e] h1] eqn:Et; injection Hx as <- <-;
    apply (audited_run _ _ _ _ _ _ (issue_records v c)) in Et as [Et Ha]; cbn [h_store h_audit] in *.
  - destruct Ha as (es & -> & Ha). unfold record_secs_issue_create in Et. rewrite lift_bind in Et. destruct (issue_checks _); [|done]. eauto 8.
  - unfold record_secs_issue_create in Et. rewrite lift_bind in Et. destruct (issue_checks _); [|injection Et as _ <-; done].
    unfold _record_mutation_with_receipt in Et. rewrite lift_bind in Et. destruct (digest_idempotency_claim _ _); [|injection Et as _ <-; done].
    apply transaction_Err in Et as (Hn' & _ & He' & _). unfold same_graph. simpl in *. split; [|done]. split; congruence.
Qed.

Lemma issue_call_fresh c h w rc dup h' : execute_issue_create config c h = (Ok (Some w, rc, dup), h') →
  ∃ v s0 n m, verify_issue_create config (ca_request c) (ca_key c) (ca_projection c) (ca_first c) (h_store h) = (Ok v, s0)
    ∧ w = vi_issue v ∧ nodes (h_store h) !! work_key w = None
    ∧ nodes (h_store h') = <[work_key w := n]> (<[("EventReceipt", ca_receipt_id c) := m]> (nodes (h_store h)))
    ∧ edges (h_store h') = edges (h_store h) ++ [Edge "Issue" (id w) "EMITTED_EVENT" "EventReceipt" (ca_receipt_id c) ∅].
Proof.
  intros (v & s & Hv & _ & _ & Hrec)%issue_call_cases. destruct (verify_issue_Ok _ _ _ _ Hv) as [[Hn He] _].
  apply record_first_Ok in Hrec as (d & now & p & sm & sx & _ & _ & _ & _ & _ & _ & _ & Hnm & Hem & Hm & Hn1 & He1).
  cbn [rc_mutation issue_scope issue_recording rc_receipt_id rc_subject_label rc_subject_id] in *.
  apply create_Ok in Hm as (-> & Hno & Hex & n & Hnx & _). rewrite Hnm in Hno.
  exists v, s. eexists n, _. split; [done|]. split; [done|]. split.
  - apply lookup_insert_None in Hno as [Hno _]. by rewrite <-Hn.
  - rewrite Hn1, Hnx, Hnm, Hn, He1, Hex, Hem, He. done.
Qed.

Lemma issue_call_keeps c h : store_wf (h_store h) → graph_wf (h_store h) →
  store_wf (h_store (execute_issue_create config c h).2) ∧ graph_wf (h_store (execute_issue_create config c h).2).
Proof.
  intros Hs Hg. destruct (execute_issue_create config c h) as [[[[r rc] dup]|e] h'] eqn:E; cbn [snd].
  - pose proof E as (v & s & Hv & _ & _ & Hrec)%issue_call_cases. destruct (verify_issue_Ok _ _ _ _ Hv) as [[Hn He] Hk]. split.
    + assert (keeps (_record_mutation_with_receipt (issue_scope (issue_recording v (ca_key c) (ca_receipt_id c))))) as Hkr
        by apply recorded_call_keeps, create_keeps.
      destruct (Hkr s (Hk Hs)) as [Hw _]. by rewrite Hrec in Hw.
    + destruct r as [w|].
      * apply issue_call_fresh in E as (_ & _ & _ & _ & _ & _ & _ & _ & He'). apply (graph_wf_same (h_store h)); [|done].
        intros r Hr. unfold rel_edges. rewrite He', filter_app, filter_cons, filter_nil, decide_False; [by rewrite app_nil_r|].
        simpl. intros <-. done.
      * apply record_duplicate_Ok in Hrec as [_ Hed]. apply (graph_wf_edges (h_store h)); [congruence|done].
  - pose proof E as [[Hn He] _]%issue_call_cases. split; [|by apply (graph_wf_edges (h_store h))].
    unfold execute_issue_create in E. rewrite on_store_bind in E. destruct (verify_issue_create _ _ _ _ _ _) as [[v|e'] s] eqn:Ev.
    + destruct (verify_issue_Ok _ _ _ _ Ev) as [_ Hk].
      unfold mbind, M_bind in E. destruct (audit_transaction _ _) as [y h1] eqn:Et.
      apply (audited_run _ _ _ _ _ _ (issue_records v c)) in Et as [Et _]. cbn [h_store] in Et.
      assert (keeps (record_secs_issue_create (T := Store) (issue_recording v (ca_key c) (ca_receipt_id c)))) as Hkr.
      { apply keeps_bind; [by apply keeps_same|intros ?]. apply recorded_call_keeps, create_keeps. }
      destruct (Hkr s (Hk Hs)) as [Hw _]. rewrite Et in Hw. destruct y; by simplify_eq/=.
    + destruct (verify_issue_same c (h_store h)) as [_ Hk]. destruct (Hk _ Hs) as [Hw _]. rewrite Ev in Hw. by simplify_eq/=.
Qed.

Lemma host_step_wf h x : store_wf (h_store h) ∧ graph_wf (h_store h) → store_wf (h_store (host_step h x)) ∧ graph_wf (h_store (host_step h x)).
Proof.
  intros [Hs Hg]. assert (∀ v2 scope c, graph_wf (h_store (execute_call config v2 scope c h).2)) as Hx.
  { intros v2 scope c. destruct (execute_call config v2 scope c h) as [[[[[a|] rc] dup]|e] h'] eqn:E; cbn [snd].
    - apply execute_call_fresh in E as (v & g & ws & o & sm & sx & Hf). by eapply fresh_graph.
    - apply execute_call_duplicate in E as [_ He]. by apply (graph_wf_edges (h_store h)).
    - apply execute_call_cases in E as [[_ He] _]. by apply (graph_wf_edges (h_store h)). }
  destruct x as [v2 c|v2 p now c|v2 p now c|c]; cbn [host_step].
  - split; [by apply execute_call_keeps|apply Hx].
  - split; [by apply execute_call_keeps|apply Hx].
  - destruct (status_call_same v2 p now c h) as [[_ He] Hk]. split; [by apply Hk|]. by apply (graph_wf_edges (h_store h)).
  - by apply issue_call_keeps.
Qed.

End hosts.

(** ** Properties *)

Lemma held_by_same `{Pydantic} o r g s s' : same_containment s s' → held_by o r g s → held_by o r g s'.
Proof.
  intros Hs (k & i & Hk & Ho & Hc & Hi). exists k, i. rewrite (inside_same k i g s s' Hs) in Hi. done.
Qed.

Lemma assignment_validity_Ok a v now : assignment_validity a = Ok v → contains v now = Ok true → wa_not_before a <= now < wa_not_after a.
Proof.
  unfold assignment_validity, dated, new_validity. intros Hv Hc%contains_true.
  apply res_bind_Ok in Hv as (z0 & _ & Hv). apply res_bind_Ok in Hv as (x & [[= <-] _]%seconds_Ok & Hv).
  apply res_bind_Ok in Hv as (y & [[= <-] _]%seconds_Ok & Hv). apply res_bind_Ok in Hv as (_ & _ & [= <-]). simpl in Hc. lia.
Qed.

Lemma authorize_Ok p v now g : authorize p v now = Ok g →
  sg_assignment g ∈ wp_assignments p ∧ wa_actor_id (sg_assignment g) = pn_actor_id (vw_principal v)
  ∧ wa_not_before (sg_assignment g) <= now < wa_not_after (sg_assignment g) ∧ request_operation (vw_request v) = Ok (sg_operation g).
Proof.
  unfold authorize. intros H. apply res_bind_Ok in H as (b & _ & H). apply res_bind_Ok in H as (_ & _ & H).
  apply res_bind_Ok in H as (a & Ha%of_option_Ok & H). apply res_bind_Ok in H as (vl & Hvl & H).
  apply res_bind_Ok in H as (act & Hact & H). apply res_bind_Ok in H as (_ & Hr%raise_if_Ok & H).
  apply res_bind_Ok in H as (o & Ho & [= <-]). bools. subst act. simpl.
  apply find_some in Ha as [Hin%list_elem_of_In He]. bools. split; [done|]. split; [done|]. split; [|done].
  by eapply assignment_validity_Ok.
Qed.

Section properties.
  Context {PY : Pydantic} {PL : PydanticLaws} {CK : Clock} {ED : Ed25519}.
  Context (config : SecSIssueCreateVerifierConfig).

(** C4: A scoped write is confined.  When the scoped receiver executes a call, the
    policy has an assignment of the verified actor that is current; every resource
    of the request is held by one grant of that assignment, for this operation,
    both before and after, so no combination of grants moves Work from one scope
    into another; and every record and edge that changed is named by those
    resources, but for the receipt and its edge. *)
Theorem scoped_write_confined v2 policy now c h a rc dup h' :
  store_wf (h_store h) → execute_call config v2 (scoped_by policy now) c h = (Ok (Some a, rc, dup), h') →
  ∃ p v o asg, policy = Ok p ∧ verify_call config v2 c (ca_second c) = Ok v ∧ request_operation (vw_request v) = Ok o
    ∧ asg ∈ wp_assignments p ∧ wa_actor_id asg = pn_actor_id (vw_principal v) ∧ wa_not_before asg <= now < wa_not_after asg
    ∧ (∀ r, r ∈ request_resources (vw_request v) → ∃ g, g ∈ wa_grants asg ∧ held_by o r g (h_store h) ∧ held_by o r g (h_store h'))
    ∧ (∀ k, nodes (h_store h') !! k ≠ nodes (h_store h) !! k →
         k = ("EventReceipt", ca_receipt_id c) ∨ named_in (request_resources (vw_request v)) k)
    ∧ (∀ e, ¬ (e ∈ edges (h_store h') ↔ e ∈ edges (h_store h)) → edge_to e = ("EventReceipt", ca_receipt_id c)
         ∨ named_in (request_resources (vw_request v)) (edge_from e) ∨ named_in (request_resources (vw_request v)) (edge_to e)).
Proof.
  intros Hs (v & g & ws & o & sm & sx & Hf)%execute_call_fresh. pose proof (fresh_within _ _ _ _ _ _ _ _ _ _ _ _ _ Hf Hs) as (R & [HN HE] & HR).
  destruct Hf as [Hg Hv Ho (s0 & Hs0 & Hws) (n & Hnm & Hem) _ Hm (subject & Hn' & He')].
  apply res_bind_Ok in Hg as (gd & Hgd & [= <-]). apply rethrow_Ok in Hgd. apply res_bind_Ok in Hgd as (p & Hp & Ha).
  apply authorize_Ok in Ha as (Hin & Hact & Hcur & Ho'). rewrite Ho in Ho'. injection Ho' as Ho'.
  exists p, v, o, (sg_assignment gd). do 6 (split; [done|]). split; [|split].
  - intros r Hr. apply mutate_Ok in Hm as [Hc _].
    destruct (guard_kept gd _ s0 ws sx Hws Hc r Hr) as (x & Hx & Hb & Haf). exists x. rewrite Ho'. split; [done|]. split.
    + eapply held_by_same; [|exact Hb]. symmetry. by apply same_graph_containment.
    + eapply held_by_same; [|exact Haf]. by eapply emitted_containment.
  - intros k Hk. destruct (decide (k ∈ R)) as [Hin'|Hni]; [right; by apply HR|]. left.
    destruct (decide (k = ("EventReceipt", ca_receipt_id c))) as [|Hne]; [done|]. exfalso. apply Hk.
    rewrite Hn', (HN k Hni), Hnm, lookup_insert_ne by congruence. done.
  - intros e He. rewrite He', elem_of_app, list_elem_of_singleton in He.
    destruct (decide (edge_from e ∈ R)) as [Hf'|Hf']; [right; left; by apply HR|].
    destruct (decide (edge_to e ∈ R)) as [Ht'|Ht']; [right; right; by apply HR|]. left.
    destruct (decide (edge_to e = ("EventReceipt", ca_receipt_id c))) as [|Hne]; [done|]. exfalso. apply He.
    rewrite (HE e Hf' Ht'), Hem. split; [|by left]. intros [?| ->]; done.
Qed.

(** C6: A call takes effect entirely or not at all, with its record: a refused or
    failed call leaves storage and audit log as they were; a call that is answered
    adds exactly one audit record, the one its callback made of the verified actor,
    the operation, the receipt and whether it was a duplicate, and a duplicate
    changes nothing else; and whatever a failed body of an audit transaction had
    recorded is dropped. *)
Theorem call_all_or_nothing v2 scope c h x h' :
  execute_call config v2 scope c h = (x, h') →
  match x with
  | Err _ => same_graph (h_store h) (h_store h') ∧ h_audit h' = h_audit h
  | Ok (r, rc, dup) => ∃ v o g summary entry, verify_call config v2 c (ca_second c) = Ok v ∧ scope v = Ok g
      ∧ request_operation (vw_request v) = Ok o ∧ receipt_summary v g = Ok summary
      ∧ h_audit h' = append_entries [entry] (h_audit h)
      ∧ al_actor_id entry = pn_actor_id (vw_principal v) ∧ al_session_id entry = pn_session_id (vw_principal v)
      ∧ al_correlation_id entry = pn_correlation_id (vw_principal v) ∧ al_category entry = "write" ∧ al_operation entry = o
      ∧ al_safe_summary entry = redact_event (mk_dict (summary ++ [("receipt_id", VStr (er_id rc)); ("duplicate", VBool dup)]))
      ∧ dup = no_result r ∧ (dup = true → same_graph (h_store h) (h_store h'))
  end
  ∧ ∀ A (m : M Host A) e h1, (∀ h y h', m h = (y, h') → ∃ es, h_audit h' = append_entries es (h_audit h)) →
      audit_transaction m h = (Err e, h1) → h_audit h1 = h_audit h.
Proof.
  intros E. split; [|intros A m e h1; apply audit_dropped]. pose proof E as Hc%execute_call_cases. destruct x as [[[r rc] dup]|e]; [|done].
  destruct Hc as (initial & es & _ & -> & Ht & Hl & v & o & g & summary & Hv & Ho & Hg & Hsum & ->).
  exists v, o, g, summary. eexists. do 4 (split; [done|]). split; [exact Hl|]. do 7 (split; [done|]).
  destruct r; [done|]. intros _. by eapply execute_call_duplicate.
Qed.

(** C5: Whatever sequence of signed calls, status requests and Issue requests a
    host receives, accepted or refused, its storage stays well formed with an
    acyclic, single-parent graph and one Arena for each root, from any storage that
    was. *)
Theorem receiver_keeps_graph (calls : list (host_call)) h :
  store_wf (h_store h) → graph_wf (h_store h) →
  store_wf (h_store (foldl (host_step config) h calls)) ∧ graph_wf (h_store (foldl (host_step config) h calls)).
Proof.
  intros Hs Hg. revert h Hs Hg. induction calls as [|x calls IH]; intros h Hs Hg; [done|]. simpl.
  destruct (host_step_wf config h x (conj Hs Hg)). by apply IH.
Qed.

(** An executed Issue request adds exactly the Issue that was signed for and the
    receipt of the call, linked to it, and one audit record; a status request
    changes no record and no edge. *)
Theorem issue_create_exact c h w rc dup h' v2 policy now :
  execute_issue_create config c h = (Ok (Some w, rc, dup), h') →
  (∃ v s0 n m, verify_issue_create config (ca_request c) (ca_key c) (ca_projection c) (ca_first c) (h_store h) = (Ok v, s0)
     ∧ w = vi_issue v ∧ nodes (h_store h) !! work_key w = None
     ∧ nodes (h_store h') = <[work_key w := n]> (<[("EventReceipt", ca_receipt_id c) := m]> (nodes (h_store h)))
     ∧ edges (h_store h') = edges (h_store h) ++ [Edge "Issue" (id w) "EMITTED_EVENT" "EventReceipt" (ca_receipt_id c) ∅]
     ∧ h_audit h' = append_entries [issue_audit v rc dup] (h_audit h))
  ∧ same_graph (h_store h') (h_store (status_call config v2 policy now c h').2).
Proof.
  intros E. split; [|apply status_call_same]. pose proof E as (v & s & Hv & _ & Hl & _)%issue_call_cases.
  apply issue_call_fresh in E as (v' & s0 & n & m & Hv' & Hw & Hno & Hn & He). rewrite Hv in Hv'. simplify_eq.
  exists v', s0, n, m. done.
Qed.

End properties.

(** ** Witnesses *)

Section witnesses.

#[local] Existing Instance reference_pydantic.
#[local] Existing Instance reference_pydantic_laws.
#[local] Existing Instance epoch_clock.
#[local] Existing Instance toy_ed25519.

Definition ex_host : Host := {| h_store := empty_store; h_audit := {| al_records := []; al_pending := [] |} |}.

Definition ex_call : call :=
  {| ca_request := ex_request_bytes; ca_projection := ex_projection; ca_key := ex_idempotency_key; ca_profile := None;
     ca_first := Some 110; ca_second := Some 111; ca_receipt_id := "r1" |}.

Definition ex_assignment : WriteScopeAssignment :=
  {| wa_actor_id := "pubkey:sha256:" +:+ sha256_hex "actor"; wa_not_before := 0; wa_not_after := 500;
     wa_grants := [{| wt_operation := "devgraph.work.create.v2"; wt_resources := [{| wr_kind := "Task"; wr_ids := Some ["t"] |}];
                      wt_arena_ids := None; wt_resource_paths := [] |}] |}.

Definition ex_write_policy : ReceiverWritePolicy :=
  {| wp_paths := false; wp_revision := 1; wp_stable_issuer := "issuer"; wp_audience := "devgraph://receiver-local";
     wp_native_policy_id := "policy"; wp_native_policy_version := 1; wp_native_policy_digest := sha256_hex "policy";
     wp_assignments := [ex_assignment] |}.

Definition executed (x : res (option mutation_result * EventReceipt * bool)) : bool :=
  match x with Ok (Some _, _, false) => true | _ => false end.

Lemma scoped_write_confined_witness :
  new_write_policy ex_write_policy = Ok ex_write_policy
  ∧ ∃ a rc h', execute_call ex_config false (scoped_by (Ok ex_write_policy) 112) ex_call ex_host = (Ok (Some a, rc, false), h')
  ∧ ∃ p v o asg, Ok ex_write_policy = Ok p ∧ verify_call ex_config false ex_call (Some 111) = Ok v ∧ request_operation (vw_request v) = Ok o
    ∧ asg ∈ wp_assignments p
    ∧ ∀ r, r ∈ request_resources (vw_request v) → ∃ g, g ∈ wa_grants asg ∧ held_by o r g empty_store ∧ held_by o r g (h_store h').
Proof.
  split; [vm_compute; reflexivity|].
  assert (executed (execute_call ex_config false (scoped_by (Ok ex_write_policy) 112) ex_call ex_host).1 = true) as He
    by (vm_compute; reflexivity).
  destruct (execute_call ex_config false (scoped_by (Ok ex_write_policy) 112) ex_call ex_host) as [x h'] eqn:E. simpl in He.
  destruct x as [[[[a|] rc] [|]]|]; try discriminate He. exists a, rc, h'. split; [reflexivity|].
  destruct (scoped_write_confined ex_config false (Ok ex_write_policy) 112 ex_call ex_host a rc false h' empty_store_wf E)
    as (p & v & o & asg & Hp & Hv & Ho & Ha & _ & _ & Hr & _).
  exists p, v, o, asg. exact (conj Hp (conj Hv (conj Ho (conj Ha Hr)))).
Defined.

(** The same call again: a duplicate. *)
Lemma call_all_or_nothing_witness : ∃ x h' y h'',
  execute_call ex_config false (scoped_by (Ok ex_write_policy) 112) ex_call ex_host = (x, h')
  ∧ execute_call ex_config false (scoped_by (Ok ex_write_policy) 112) ex_call h' = (Ok y, h'')
  ∧ y.2 = true ∧ same_graph (h_store h') (h_store h'') ∧ length (al_records (h_audit h'')) = 2%nat.
Proof.
  destruct (execute_call ex_config false (scoped_by (Ok ex_write_policy) 112) ex_call ex_host) as [x h'] eqn:E1. exists x, h'.
  assert (match execute_call ex_config false (scoped_by (Ok ex_write_policy) 112) ex_call h' with
          | (Ok y, h'') => y.2 && Nat.eqb (length (al_records (h_audit h''))) 2 | _ => false end = true) as Hd.
  { replace h' with (execute_call ex_config false (scoped_by (Ok ex_write_policy) 112) ex_call ex_host).2 by (by rewrite E1).
    vm_compute. reflexivity. }
  destruct (execute_call ex_config false (scoped_by (Ok ex_write_policy) 112) ex_call h') as [[[[r rc] dup]|] h''] eqn:E2; [|discriminate Hd].
  exists (r, rc, dup), h''. split; [reflexivity|]. split; [reflexivity|].
  destruct (call_all_or_nothing ex_config false _ _ _ _ _ E2) as [(v & o & g & sm & en & _ & _ & _ & _ & _ & _ & _ & _ & _ & _ & _ & _ & Hs) _].
  apply andb_prop in Hd as [Hd1 Hd2]. apply Nat.eqb_eq in Hd2. simpl in Hd1. subst dup.
  exact (conj eq_refl (conj (Hs eq_refl) Hd2)).
Defined.

Definition ex_calls : list host_call :=
  [scoped_call false (Ok ex_write_policy) 112 ex_call; plain_call false ex_call; status_request false (Ok ex_write_policy) 112 ex_call;
   issue_call ex_call].

Lemma receiver_keeps_graph_witness :
  size (nodes (h_store (foldl (host_step ex_config) ex_host ex_calls))) = 2%nat
  ∧ store_wf (h_store (foldl (host_step ex_config) ex_host ex_calls)) ∧ graph_wf (h_store (foldl (host_step ex_config) ex_host ex_calls)).
Proof.
  split; [vm_compute; reflexivity|]. exact (receiver_keeps_graph ex_config ex_calls ex_host empty_store_wf empty_graph_wf).
Defined.

(** A signed Issue request. *)
Definition ex_issue_bytes : string :=
  dumps true (VDict [("id", VStr "i1"); ("kind", VStr "Issue"); ("title", VStr "an issue")]).

Definition ex_issue_digest : string :=
  match issue_request_fields ex_issue_bytes with
  | Ok fc => sha256_hex (DEVGRAPH_ISSUE_CREATE_REQUEST_DOMAIN_V1 +:+ fc.2)
  | Err _ => ""
  end.

Definition ex_issue_unsigned : projection := mk_dict
  [("actor_id", VStr ("pubkey:sha256:" +:+ sha256_hex "actor")); ("actor_signature_suite", VStr "Ed25519");
   ("audience", VStr "devgraph://receiver-local"); ("expires_at", VInt 130);
   ("idempotency_key_digest_sha256", VStr (sha256_hex ex_idempotency_key)); ("issued_at", VInt 100);
   ("nonce", VStr (repeat_text 16 "A")); ("operation", VStr "devgraph.issue.create.v1");
   ("receiver_policy_digest_sha256", VStr (sha256_hex "policy")); ("receiver_policy_id", VStr "policy");
   ("receiver_policy_version", VInt 1); ("replay_scope", VStr "session:operation:nonce");
   ("request_digest_sha256", VStr ex_issue_digest); ("resource", VStr "Issue/i1");
   ("schema", VStr "secs-devgraph-authority.v1"); ("schema_version", VInt 1);
   ("secs_context_id", VStr ("ctx:sha256:" +:+ sha256_hex "context")); ("secs_verifier_key_id", VStr "k1");
   ("secs_verifier_signature_suite", VStr "Ed25519"); ("session_id", VStr (repeat_text 22 "A"));
   ("wallet_presentation_digest_sha256", VStr (sha256_hex "wallet"))].

Definition ex_issue_call : call :=
  {| ca_request := ex_issue_bytes;
     ca_projection := _canonical_json (VDict (dict_insert "secs_verifier_signature"
       (VStr (b64encode (toy_sign (signed_message DEVGRAPH_ISSUE_CREATE_SIGNATURE_DOMAIN_V1 ex_issue_unsigned)))) ex_issue_unsigned));
     ca_key := ex_idempotency_key; ca_profile := None; ca_first := Some 110; ca_second := None; ca_receipt_id := "r2" |}.

Lemma issue_create_exact_witness : ∃ w rc h', execute_issue_create ex_config ex_issue_call ex_host = (Ok (Some w, rc, false), h')
  ∧ id w = "i1" ∧ edges (h_store h') = [Edge "Issue" (id w) "EMITTED_EVENT" "EventReceipt" "r2" ∅].
Proof.
  assert (match execute_issue_create ex_config ex_issue_call ex_host with
          | (Ok (Some w, _, false), _) => String.eqb (id w) "i1" | _ => false end = true) as He by (vm_compute; reflexivity).
  destruct (execute_issue_create ex_config ex_issue_call ex_host) as [x h'] eqn:E.
  destruct x as [[[[w|] rc] [|]]|]; try discriminate He. exists w, rc, h'. split; [reflexivity|]. apply String.eqb_eq in He.
  split; [exact He|].
  destruct (issue_create_exact ex_config ex_issue_call ex_host w rc false h' false (Ok ex_write_policy) 112 E)
    as [(v & s0 & n & m & _ & _ & _ & _ & Hed & _) _]. exact Hed.
Defined.

End witnesses.
