(* ===== verification/Enforcement.v ===== *)
(** * The scope-enforcing facade

    [AuthorizedWorkGraph], its write sessions and [require_scope] of
    [src/devgraph/auth/enforcement.py], with the session reads of
    [observability/session_reads.py].  The facade is written against the verifier
    protocol: any type with the class [CredentialVerifier] will do.

    As in [runtime.py] and [local_app.py], the services share one storage; the
    configuration says which of the optional ones are present.  A write session is
    an object of the heap: the table of live sessions maps identities, never
    reused, to contexts.  The initiative observations, the supporting material and
    the monitor views are not part of this model. *)

From stdpp Require Import base gmap strings list sorting.
From Stdlib Require Import ZArith Ascii String.
From S2P Require Import Prelude Json Sha256 Datetime Validation WorkflowContract StrictJson Model Redaction Storage StorageWf StorageReads Repository ResourcePaths Delegated Workflows Lifecycle ProgressMutations Arenas Sessions Frames NamedWork WorkGraph Relationships Outbox Dispatcher Grants Credentials Verifier Receiver.

Local Open Scope Z_scope.

(** ** Session references *)

Section session_reads.
  Context `{Pydantic}.

Definition public_reference (n : NodeRecord) : res (list (string * value)) :=
  r ← SessionRef_of (nr_id n) (nr_properties n);
  Ok [("application", VStr (application (identity r))); ("canonical", VBool true);
      ("external_session_id", VStr (external_session_id (identity r))); ("id", VStr (sref_id r));
      ("imported_at", VStr (isoformat (ref_created_at r))); ("imported_by", VStr (actor_id r));
      ("source_instance_id", VStr (source_instance_id (identity r)))].

(** [SessionWorkState.public]. *)
Definition public_state (w : SessionWorkState) : value :=
  VDict (mk_dict [("state", sw_state w); ("version", VInt (sw_version w)); ("updated_at", sw_updated_at w);
                  ("updated_by", sw_updated_by w)]).

Definition _with_state (s : Store) (n : NodeRecord) : res value :=
  d ← public_reference n;
  w ← read_state (nr_id n) s;
  Ok (VDict (mk_dict (d ++ [("work_state", public_state w)]))).

(** One reference with its context, or a page of them. *)
Definition read_references (ref_id after : option string) (limit : Z) (s : Store) : res value :=
  validate_page_limit limit;;
  raise_if (existsb (λ o, match o with Some r => negb (is_ref_id r) | None => false end) [ref_id; after])
    (ValueError "invalid_session_reference");;
  match ref_id with
  | Some r =>
      o ← get_node "SessionRef" r s;
      match o with
      | None => Ok VNone
      | Some n =>
          d ← public_reference n;
          w ← read_state r s;
          c ← session_ref_context r limit s;
          let '(work, links, bounded) := c in
          Ok (VDict (mk_dict (d ++ [("work_state", public_state w); ("work_refs", VList (map dict_of_props work));
                                    ("links", VList (map dict_of_props links)); ("context_bounded", VBool bounded)])))
      end
  | None =>
      ns ← query (Some "SessionRef") None false after (Some limit) s;
      items ← res_mapM (_with_state s) ns;
      Ok (VDict (mk_dict [("schema", VStr "devgraph.session-refs.v1"); ("items", VList items);
            ("next_after", match last ns with
                           | Some n => if Z.of_nat (length ns) =? limit then VStr (nr_id n) else VNone
                           | None => VNone
                           end)]))
  end.

End session_reads.

(** ** Scopes *)

Definition require_scope (c : AuthorityContext) (category : string) : res unit :=
  scope ← of_option (ValueError "unknown operation category") (dict_get category REQUIRED_SCOPE_BY_CATEGORY);
  raise_if (negb (has_scope (ac_envelope c) scope)) (ForbiddenError ("scope for category '" +:+ category +:+ "' not granted")).

(** ** The state of the facade *)

Record WorkGraphState := {
  gs_host : Host;
  gs_sessions : gmap nat AuthorityContext;
  gs_next : nat
}.

Definition with_host (h : Host) (g : WorkGraphState) : WorkGraphState :=
  {| gs_host := h; gs_sessions := gs_sessions g; gs_next := gs_next g |}.

Definition on_host {A} (m : M Host A) : M WorkGraphState A := λ g,
  let '(r, h) := m (gs_host g) in (r, with_host h g).

(** A call of a service on the storage. *)
Definition delegate {A} (m : M Store A) : M WorkGraphState A := on_host (on_store m).

Record GraphConfig (V : Type) := {
  gc_verifier : V;
  gc_audience : string;
  gc_repository : bool;
  gc_monitor_storage : bool
}.
Arguments gc_verifier {V}.
Arguments gc_audience {V}.
Arguments gc_repository {V}.
Arguments gc_monitor_storage {V}.

(** The record of [_audit]. *)
Definition audit_entry (c : AuthorityContext) (category operation : string) : AuditRecord :=
  {| al_actor_id := ce_actor_id (ac_envelope c); al_session_id := ce_session_id (ac_envelope c);
     al_correlation_id := ce_correlation_id (ac_envelope c); al_category := category; al_operation := operation;
     al_safe_summary := redact_event [] |}.

Definition _audit (c : AuthorityContext) (category operation : string) : M WorkGraphState unit :=
  on_host (audit (audit_entry c category operation)).

Definition invalid_session : exn := ForbiddenError "invalid write session".

(** [_validate_write_session] and [_consume_write_session]. *)
Definition _validate_write_session (i : nat) : M WorkGraphState AuthorityContext := λ g,
  (of_option invalid_session (gs_sessions g !! i), g).

Definition _consume_write_session (i : nat) : M WorkGraphState AuthorityContext := λ g,
  match gs_sessions g !! i with
  | Some c => (Ok c, {| gs_host := gs_host g; gs_sessions := delete i (gs_sessions g); gs_next := gs_next g |})
  | None => (Err invalid_session, g)
  end.

(** [AuditLog.transaction] around a body that may use the facade. *)
Definition log_transaction {A} (body : M WorkGraphState A) : M WorkGraphState A := λ g,
  let h := gs_host g in
  let opened := {| al_records := al_records (h_audit h); al_pending := [] :: al_pending (h_audit h) |} in
  let '(r, g') := body (with_host {| h_store := h_store h; h_audit := opened |} g) in
  let l := h_audit (gs_host g') in
  let outer := {| al_records := al_records l; al_pending := tail (al_pending l) |} in
  let closed := match r with Ok _ => append_entries (default [] (head (al_pending l))) outer | Err _ => outer end in
  (r, with_host {| h_store := h_store (gs_host g'); h_audit := closed |} g').

(** [with session.transaction(): body]. *)
Definition session_transaction {A} (i : nat) (body : M WorkGraphState A) : M WorkGraphState A :=
  _validate_write_session i;; log_transaction body.

(** A fresh session object, entered in the table. *)
Definition new_session (c : AuthorityContext) : M WorkGraphState nat := λ g,
  (Ok (gs_next g), {| gs_host := gs_host g; gs_sessions := <[gs_next g := c]> (gs_sessions g); gs_next := S (gs_next g) |}).

Section facade.
  Context `{Pydantic, Clock} {V : Type} `{CredentialVerifier V} (config : GraphConfig V).

(** [_authorize]; the verifier reads the clock. *)
Definition _authorize (credential : option string) (category : string) (now : datetime) : res AuthorityContext :=
  c ← verify (gc_verifier config) credential (gc_audience config) now;
  require_scope c category;;
  Ok c.

Definition require_storage (e : exn) : M WorkGraphState unit := guard_raise (negb (gc_monitor_storage config)) e.

Definition _require_repository : M WorkGraphState unit :=
  guard_raise (negb (gc_repository config)) (ValueError "work-object repository is not configured").

(** *** Reads *)

Definition facade_children_of (credential : option string) (now : datetime) (parent : WorkObject) :
    M WorkGraphState (list WorkObject) :=
  c ← lift (_authorize credential "read" now);
  r ← delegate (reads (rg_children_of parent));
  _audit c "read" "children_of";;
  mret r.

Definition facade_blockers_for (credential : option string) (now : datetime) (task : WorkObject) :
    M WorkGraphState (list WorkObject) :=
  c ← lift (_authorize credential "read" now);
  r ← delegate (reads (blockers_for task));
  _audit c "read" "blockers_for";;
  mret r.

Definition work_relationships (credential : option string) (now : datetime) (k i rel : string) (after : option string)
    (limit : Z) : M WorkGraphState (list WorkObject) :=
  c ← lift (_authorize credential "read" now);
  _require_repository;;
  w ← delegate (reads (get_by_id k i));
  r ← delegate (reads (work_page w rel after limit));
  _audit c "read" "work_relationships";;
  mret r.

Definition get_work_object (credential : option string) (now : datetime) (k i : string) : M WorkGraphState WorkObject :=
  c ← lift (_authorize credential "read" now);
  lift (require_id i);;
  _require_repository;;
  w ← delegate (reads (get_by_id k i));
  _audit c "read" "get_work_object";;
  mret w.

(** [read_arenas]: one Arena, or a page. *)
Definition read_arenas (credential : option string) (now : datetime) (arena_id : option string) (include_archived : bool)
    (after_id : option string) (limit : Z) : M WorkGraphState (list Arena) :=
  c ← lift (_authorize credential "read" now);
  require_storage (RuntimeError "Arena storage is not configured");;
  r ← delegate (reads (match arena_id with
                       | Some i => λ s, a ← get_arena i s; Ok [a]
                       | None => list_arenas include_archived after_id limit
                       end));
  _audit c "read" "read_arenas";;
  mret r.

Definition session_references (credential : option string) (now : datetime) (ref_id after : option string) (limit : Z) :
    M WorkGraphState value :=
  c ← lift (_authorize credential "read" now);
  require_storage (RuntimeError "session metadata storage is not configured");;
  r ← delegate (reads (read_references ref_id after limit));
  _audit c "read" "session_references";;
  mret r.

Definition facade_arena_members (credential : option string) (now : datetime) (arena_id : string) (after : option string)
    (limit : Z) : M WorkGraphState (list WorkObject) :=
  c ← lift (_authorize credential "read" now);
  require_storage (RuntimeError "Arena storage is not configured");;
  r ← delegate (reads (members arena_id after limit));
  _audit c "read" "arena_members";;
  mret r.

Definition facade_arena_membership (credential : option string) (now : datetime) (k i : string) :
    M WorkGraphState ArenaMembership :=
  c ← lift (_authorize credential "read" now);
  require_storage (RuntimeError "Arena storage is not configured");;
  r ← delegate (reads (membership k i));
  _audit c "read" "arena_membership";;
  mret r.

Definition query_work_objects (credential : option string) (now : datetime) (k : string) (include_archived descending : bool)
    (after_id : option string) (limit : Z) : M WorkGraphState (list WorkObject) :=
  c ← lift (_authorize credential "read" now);
  lift (match after_id with Some a => require_id a;; Ok tt | None => Ok tt end);;
  lift (validate_page_limit limit);;
  _require_repository;;
  r ← delegate (reads (query_work k include_archived descending after_id limit));
  _audit c "read" "query_work_objects";;
  mret r.

(** [workflows] of one Work object; the catalog is a constant document.  Without a
    monitor storage the repository, which checks the kind and the identifier first,
    reads the storage from [None]. *)
Definition facade_workflows (credential : option string) (now : datetime) (k i : string) : M WorkGraphState value :=
  c ← lift (_authorize credential "read" now);
  lift (_require_known_kind k);;
  lift (require_id i);;
  require_storage (AttributeError "get_node");;
  v ← delegate (reads (λ s, w ← get_by_id k i s; detail w s));
  _audit c "read" "workflows";;
  mret (match v with VDict d => VDict (redact_mapping d) | _ => v end).

(** *** Exports *)

Definition facade_export (category operation : string) (mode : ExportMode) (credential : option string) (now : datetime)
    (records : list exported) : M WorkGraphState (list (string * value)) :=
  c ← lift (_authorize credential category now);
  r ← lift (export_records records mode);
  _audit c category operation;;
  mret r.

Definition export_internal := facade_export "export.internal" "export_internal" INTERNAL.
Definition export_redacted := facade_export "export.redacted" "export_redacted" REDACTED.
Definition export_public_safe_summary := facade_export "export.redacted" "export_public_safe_summary" PUBLIC_SAFE_SUMMARY.

(** [_fetch_export_records]: every identifier is valid and every record present. *)
Definition _fetch_export_records (k : string) (ids : list string) : M WorkGraphState (list exported) :=
  lift (res_mapM require_id ids);;
  _require_repository;;
  ws ← delegate (reads (λ s, res_mapM (λ i, get_by_id k i s) ids));
  mret (map work_record ws).

Definition facade_export_by_ids (category operation : string) (mode : ExportMode) (credential : option string)
    (now : datetime) (k : string) (ids : list string) : M WorkGraphState (list (string * value)) :=
  c ← lift (_authorize credential category now);
  records ← _fetch_export_records k ids;
  r ← lift (export_records records mode);
  _audit c category operation;;
  mret r.

Definition export_internal_by_ids := facade_export_by_ids "export.internal" "export_internal_by_ids" INTERNAL.
Definition export_redacted_by_ids := facade_export_by_ids "export.redacted" "export_redacted_by_ids" REDACTED.
Definition export_public_safe_summary_by_ids :=
  facade_export_by_ids "export.redacted" "export_public_safe_summary_by_ids" PUBLIC_SAFE_SUMMARY.

(** *** Write sessions *)

Definition authorize_write (credential : option string) (now : datetime) : M WorkGraphState nat :=
  c ← lift (_authorize credential "write" now);
  new_session c.

Definition session_accept_proposal (i : nat) (proposal_id : string) (decision : option WorkObject) : M WorkGraphState WorkObject :=
  c ← _consume_write_session i;
  r ← delegate (accept_proposal proposal_id decision);
  _audit c "write" "accept_proposal";;
  mret r.

Definition session_convert_proposal (i : nat) (proposal_id issue_id : string) : M WorkGraphState WorkObject :=
  c ← _consume_write_session i;
  r ← delegate (convert_accepted_proposal_to_issue proposal_id issue_id);
  _audit c "write" "convert_accepted_proposal_to_issue";;
  mret r.

Definition session_create_work_object (i : nat) (w : WorkObject) : M WorkGraphState WorkObject :=
  c ← _consume_write_session i;
  lift (require_id (id w));;
  lift (require_version (version w));;
  _require_repository;;
  r ← delegate (create w);
  _audit c "write" "create_work_object";;
  mret r.

Definition session_update_work_object (i : nat) (w : WorkObject) (expected_version : Z) : M WorkGraphState WorkObject :=
  c ← _consume_write_session i;
  lift (require_id (id w));;
  lift (require_version (version w));;
  lift (require_version expected_version);;
  _require_repository;;
  r ← delegate (update w expected_version);
  _audit c "write" "update_work_object";;
  mret r.

Definition session_update_content (i : nat) (k work_id : string) (expected_version : Z) (changes : ContentChanges) :
    M WorkGraphState WorkObject :=
  c ← _consume_write_session i;
  lift (require_id work_id);;
  lift (require_version expected_version);;
  _require_repository;;
  r ← delegate (update_content k work_id expected_version changes);
  _audit c "write" "update_work_object_content";;
  mret r.

Definition session_archive (i : nat) (k work_id : string) : M WorkGraphState WorkObject :=
  c ← _consume_write_session i;
  lift (require_id work_id);;
  _require_repository;;
  r ← delegate (archive k work_id);
  _audit c "write" "archive_work_object";;
  mret r.

Definition session_transition (i : nat) (k work_id : string) (new_status : WorkStatus) : M WorkGraphState WorkObject :=
  c ← _consume_write_session i;
  lift (require_id work_id);;
  _require_repository;;
  r ← delegate (transition_status k work_id new_status);
  _audit c "write" "transition_work_object_status";;
  mret r.

(** *** All calls of the facade *)

Inductive write_op : Type :=
  | op_accept (proposal_id : string) (decision : option WorkObject)
  | op_convert (proposal_id issue_id : string)
  | op_create (w : WorkObject)
  | op_update (w : WorkObject) (expected_version : Z)
  | op_update_content (k i : string) (expected_version : Z) (changes : ContentChanges)
  | op_archive (k i : string)
  | op_transition (k i : string) (new_status : WorkStatus).

Definition run_session (i : nat) (o : write_op) : M WorkGraphState WorkObject :=
  match o with
  | op_accept p d => session_accept_proposal i p d
  | op_convert p j => session_convert_proposal i p j
  | op_create w => session_create_work_object i w
  | op_update w v => session_update_work_object i w v
  | op_update_content k j v ch => session_update_content i k j v ch
  | op_archive k j => session_archive i k j
  | op_transition k j st => session_transition i k j st
  end.

(** The writes of the facade itself: [self.authorize_write(credential).op(...)]. *)
Definition facade_write (credential : option string) (now : datetime) (o : write_op) : M WorkGraphState WorkObject :=
  i ← authorize_write credential now; run_session i o.

Inductive facade_call : Type :=
  | call_children_of (parent : WorkObject)
  | call_blockers_for (task : WorkObject)
  | call_relationships (k i rel : string) (after : option string) (limit : Z)
  | call_get_work_object (k i : string)
  | call_read_arenas (arena_id : option string) (include_archived : bool) (after_id : option string) (limit : Z)
  | call_session_references (ref_id after : option string) (limit : Z)
  | call_arena_members (arena_id : string) (after : option string) (limit : Z)
  | call_arena_membership (k i : string)
  | call_query (k : string) (include_archived descending : bool) (after_id : option string) (limit : Z)
  | call_workflows (k i : string)
  | call_export_internal (records : list exported)
  | call_export_redacted (records : list exported)
  | call_export_summary (records : list exported)
  | call_export_internal_ids (k : string) (ids : list string)
  | call_export_redacted_ids (k : string) (ids : list string)
  | call_export_summary_ids (k : string) (ids : list string)
  | call_write (o : write_op).

Inductive facade_result : Type :=
  | works (l : list WorkObject)
  | one_work (w : WorkObject)
  | arenas_read (l : list Arena)
  | arena_placement (m : ArenaMembership)
  | document (v : value)
  | export_document (d : list (string * value)).

Definition answer {A B} (f : A → B) (m : M WorkGraphState A) : M WorkGraphState B := x ← m; mret (f x).

Definition facade_run (x : facade_call) (credential : option string) (now : datetime) : M WorkGraphState facade_result :=
  match x with
  | call_children_of p => answer works (facade_children_of credential now p)
  | call_blockers_for t => answer works (facade_blockers_for credential now t)
  | call_relationships k i rel after limit => answer works (work_relationships credential now k i rel after limit)
  | call_get_work_object k i => answer one_work (get_work_object credential now k i)
  | call_read_arenas i b after limit => answer arenas_read (read_arenas credential now i b after limit)
  | call_session_references i after limit => answer document (session_references credential now i after limit)
  | call_arena_members i after limit => answer works (facade_arena_members credential now i after limit)
  | call_arena_membership k i => answer arena_placement (facade_arena_membership credential now k i)
  | call_query k b d after limit => answer works (query_work_objects credential now k b d after limit)
  | call_workflows k i => answer document (facade_workflows credential now k i)
  | call_export_internal rs => answer export_document (export_internal credential now rs)
  | call_export_redacted rs => answer export_document (export_redacted credential now rs)
  | call_export_summary rs => answer export_document (export_public_safe_summary credential now rs)
  | call_export_internal_ids k ids => answer export_document (export_internal_by_ids credential now k ids)
  | call_export_redacted_ids k ids => answer export_document (export_redacted_by_ids credential now k ids)
  | call_export_summary_ids k ids => answer export_document (export_public_safe_summary_by_ids credential now k ids)
  | call_write o => answer one_work (facade_write credential now o)
  end.

(** The category a call needs and the operation it records. *)
Definition call_category (x : facade_call) : string :=
  match x with
  | call_export_internal _ | call_export_internal_ids _ _ => "export.internal"
  | call_export_redacted _ | call_export_summary _ | call_export_redacted_ids _ _ | call_export_summary_ids _ _ => "export.redacted"
  | call_write _ => "write"
  | _ => "read"
  end.

Definition op_name (o : write_op) : string :=
  match o with
  | op_accept _ _ => "accept_proposal" | op_convert _ _ => "convert_accepted_proposal_to_issue"
  | op_create _ => "create_work_object" | op_update _ _ => "update_work_object"
  | op_update_content _ _ _ _ => "update_work_object_content" | op_archive _ _ => "archive_work_object"
  | op_transition _ _ _ => "transition_work_object_status"
  end.

Definition call_operation (x : facade_call) : string :=
  match x with
  | call_children_of _ => "children_of" | call_blockers_for _ => "blockers_for"
  | call_relationships _ _ _ _ _ => "work_relationships" | call_get_work_object _ _ => "get_work_object"
  | call_read_arenas _ _ _ _ => "read_arenas" | call_session_references _ _ _ => "session_references"
  | call_arena_members _ _ _ => "arena_members" | call_arena_membership _ _ => "arena_membership"
  | call_query _ _ _ _ _ => "query_work_objects" | call_workflows _ _ => "workflows"
  | call_export_internal _ => "export_internal" | call_export_redacted _ => "export_redacted"
  | call_export_summary _ => "export_public_safe_summary" | call_export_internal_ids _ _ => "export_internal_by_ids"
  | call_export_redacted_ids _ _ => "export_redacted_by_ids" | call_export_summary_ids _ _ => "export_public_safe_summary_by_ids"
  | call_write o => op_name o
  end.

End facade.

(** ** Programs that leave the log alone, and programs that record once *)

Section footprints.
  Context (R : Store → Store → Prop) `{!PreOrder R}.

(** Same sessions and log, storage related by [R]. *)
Definition unlogged (g g' : WorkGraphState) : Prop :=
  gs_sessions g' = gs_sessions g ∧ gs_next g' = gs_next g ∧ h_audit (gs_host g') = h_audit (gs_host g)
  ∧ R (h_store (gs_host g)) (h_store (gs_host g')).

Definition logged (e : AuditRecord) (g g' : WorkGraphState) : Prop :=
  gs_sessions g' = gs_sessions g ∧ gs_next g' = gs_next g
  ∧ h_audit (gs_host g') = append_entries [e] (h_audit (gs_host g)) ∧ R (h_store (gs_host g)) (h_store (gs_host g')).

Definition silent {A} (m : M WorkGraphState A) : Prop := ∀ g r g', m g = (r, g') → unlogged g g'.

(** One record on success, none on failure. *)
Definition records_once {A} (e : AuditRecord) (m : M WorkGraphState A) : Prop := ∀ g r g', m g = (r, g') →
  match r with Ok _ => logged e g g' | Err _ => unlogged g g' end.

#[global] Instance unlogged_preorder : PreOrder unlogged.
Proof.
  split; [by intros g|]. intros a b c (H1&H2&H3&H4) (K1&K2&K3&K4).
  unfold unlogged. rewrite K1, K2, K3. split_and!; [done..|by etrans].
Qed.

Lemma unlogged_logged e a b c : unlogged a b → logged e b c → logged e a c.
Proof.
  intros (H1&H2&H3&H4) (K1&K2&K3&K4). unfold logged. rewrite K1, K2, K3, H3. split_and!; [done..|by etrans].
Qed.

Lemma silent_lift {A} (r : res A) : silent (lift r).
Proof. by intros g x g' [= _ <-]. Qed.

Lemma silent_guard b e : silent (guard_raise b e).
Proof. intros g x g'. destruct b; by intros [= _ <-]. Qed.

Lemma silent_ret {A} (a : A) : silent (mret a).
Proof. by intros g x g' [= _ <-]. Qed.

Lemma silent_bind {A B} (m : M WorkGraphState A) (k : A → M WorkGraphState B) :
  silent m → (∀ a, silent (k a)) → silent (m ≫= k).
Proof.
  intros Hm Hk g x g'. unfold mbind, M_bind. destruct (m g) as [[a|e] g1] eqn:E.
  - intros Hx. etrans; [by eapply Hm|by eapply Hk].
  - intros [= _ <-]. by eapply Hm.
Qed.

Lemma silent_delegate {A} (m : M Store A) : (∀ s, R s (m s).2) → silent (delegate m).
Proof.
  intros Hm [h ss n] x g'. unfold delegate, on_host, on_store, with_host. cbn [gs_host].
  specialize (Hm (h_store h)). destruct (m (h_store h)) as [r s]. intros [= _ <-]. by repeat split.
Qed.

Lemma silent_reads {A} (f : Store → res A) : silent (delegate (reads f)).
Proof. by apply silent_delegate. Qed.

Lemma records_bind {A B} e (m : M WorkGraphState A) (k : A → M WorkGraphState B) :
  silent m → (∀ a, records_once e (k a)) → records_once e (m ≫= k).
Proof.
  intros Hm Hk g x g'. unfold mbind, M_bind. destruct (m g) as [[a|er] g1] eqn:E.
  - intros Hx. apply Hm in E. apply Hk in Hx. destruct x; [by eapply unlogged_logged|by etrans].
  - intros [= <- <-]. by eapply Hm.
Qed.

Lemma records_audit {A} c category operation (a : A) :
  records_once (audit_entry c category operation) (_audit c category operation;; mret a).
Proof. intros [h ss n] x g'. intros [= <- <-]. by repeat split. Qed.

Lemma records_answer {A B} e (f : A → B) (m : M WorkGraphState A) : records_once e m → records_once e (answer f m).
Proof.
  intros Hm g x g'. unfold answer, mbind, M_bind. destruct (m g) as [[a|er] g1] eqn:E; intros [= <- <-]; exact (Hm _ _ _ E).
Qed.

End footprints.

Create HintDb facade.
#[export] Hint Resolve silent_lift silent_guard silent_ret silent_bind silent_reads records_audit : facade.

(** ** What each call does *)

(** What a write of the facade may do to the storage: it keeps it well formed and
    leaves the structure of the graph alone. *)
Definition unstructured `{Pydantic} (s s' : Store) : Prop :=
  (store_wf s → store_wf s') ∧ ∀ r, str_in r STRUCTURE = true → rel_edges r s' = rel_edges r s.

#[export] Instance unstructured_preorder `{Pydantic} : PreOrder unstructured.
Proof.
  split; [by intros s; split|]. intros a b c [H1 H2] [H3 H4]. split; [auto|]. intros r Hr. rewrite H4, H2; done.
Qed.

Section calls.
  Context {PY : Pydantic} {PL : PydanticLaws} {CK : Clock} {V : Type} {CV : CredentialVerifier V} (config : GraphConfig V).

(** The whole effect of an authorized call: without authority nothing happens. *)
Definition exact_call {A} (R : Store → Store → Prop) (auth : res AuthorityContext) (category operation : string)
    (m : M WorkGraphState A) : Prop := ∀ g r g', m g = (r, g') →
  match auth with
  | Err e => r = Err e ∧ g' = g
  | Ok c => match r with Ok _ => logged R (audit_entry c category operation) g g' | Err _ => unlogged R g g' end
  end.

Lemma exact_intro {A} R auth category operation (k : AuthorityContext → M WorkGraphState A) :
  (∀ c, records_once R (audit_entry c category operation) (k c)) → exact_call R auth category operation (c ← lift auth; k c).
Proof. intros Hk g r g'. unfold mbind, M_bind, lift. destruct auth as [c|e]; [apply Hk|by intros [= <- <-]]. Qed.

Lemma exact_answer {A B} R auth category operation (f : A → B) (m : M WorkGraphState A) :
  exact_call R auth category operation m → exact_call R auth category operation (answer f m).
Proof.
  intros Hm g r g'. unfold answer, mbind, M_bind. destruct (m g) as [[a|e] g1] eqn:E; intros [= <- <-]; specialize (Hm _ _ _ E).
  - destruct auth; [done|]. by destruct Hm.
  - destruct auth; [done|]. by destruct Hm as [[= ->] ->].
Qed.

(** Follow a body to its record. *)
Ltac record_once :=
  repeat first
    [ apply records_audit; apply _ | apply records_bind; [apply _| |intros ?]
    | apply silent_lift; apply _ | apply silent_guard; apply _ | apply silent_reads; apply _
    | apply silent_ret; apply _ | apply silent_bind; [apply _| |intros ?] ].

Lemma reads_exact x credential now : call_category x ≠ "write" →
  exact_call eq (_authorize config credential (call_category x) now) (call_category x) (call_operation x)
    (facade_run config x credential now).
Proof. destruct x; intros Hx; [..|done]; apply exact_answer, exact_intro; intros c; record_once. Qed.

Definition consumed (i : nat) (g : WorkGraphState) : WorkGraphState :=
  {| gs_host := gs_host g; gs_sessions := delete i (gs_sessions g); gs_next := gs_next g |}.

(** A session is used up by its first operation, whatever comes of it. *)
Definition exact_session {A} (i : nat) (operation : string) (m : M WorkGraphState A) : Prop := ∀ g r g', m g = (r, g') →
  match gs_sessions g !! i with
  | None => r = Err invalid_session ∧ g' = g
  | Some c => match r with
              | Ok _ => logged unstructured (audit_entry c "write" operation) (consumed i g) g'
              | Err _ => unlogged unstructured (consumed i g) g'
              end
  end.

Lemma session_intro {A} i operation (k : AuthorityContext → M WorkGraphState A) :
  (∀ c, records_once unstructured (audit_entry c "write" operation) (k c)) →
  exact_session i operation (c ← _consume_write_session i; k c).
Proof.
  intros Hk g r g'. unfold mbind, M_bind, _consume_write_session. fold (consumed i g).
  destruct (gs_sessions g !! i) as [c|]; [apply Hk|by intros [= <- <-]].
Qed.

Lemma write_unstructured {A} (m : M Store A) s : keeps m → leaves STRUCTURE m → unstructured s (m s).2.
Proof. intros Hk Hl. split; [intros Hs; by apply Hk|]. intros r Hr. by apply Hl. Qed.

Lemma create_leaves w : leaves STRUCTURE (create w).
Proof. by apply leaves_edgeless, create_edgeless. Qed.

Lemma update_leaves w v : leaves STRUCTURE (update w v).
Proof. by apply leaves_edgeless, update_edgeless. Qed.

Lemma session_exact i o : exact_session i (op_name o) (run_session config i o).
Proof.
  destruct o; apply session_intro; intros c; record_once; apply silent_delegate; try apply _; intros s;
    apply write_unstructured; auto using create_leaves, update_leaves with keeps leaves.
Qed.

(** Live sessions are of issued identities and of callers with the write scope. *)
Record sessions_ok (g : WorkGraphState) : Prop := {
  so_issued : ∀ i c, gs_sessions g !! i = Some c → (i < gs_next g)%nat;
  so_scope : ∀ i c, gs_sessions g !! i = Some c → require_scope c "write" = Ok tt
}.

Lemma authorize_write_run credential now g r g' : authorize_write config credential now g = (r, g') →
  match _authorize config credential "write" now with
  | Err e => r = Err e ∧ g' = g
  | Ok c => r = Ok (gs_next g) ∧ gs_host g' = gs_host g ∧ gs_sessions g' = <[gs_next g := c]> (gs_sessions g)
            ∧ gs_next g' = S (gs_next g)
  end.
Proof.
  unfold authorize_write, mbind, M_bind, lift. destruct (_authorize _ _ _ _); [|by intros [= <- <-]].
  by intros [= <- <-].
Qed.

(** The writes of the facade issue a session and use it at once. *)
Lemma facade_write_exact o credential now g r g' : sessions_ok g → facade_write config credential now o g = (r, g') →
  match _authorize config credential "write" now with
  | Err e => r = Err e ∧ g' = g
  | Ok c => gs_sessions g' = gs_sessions g ∧ gs_next g' = S (gs_next g)
      ∧ h_audit (gs_host g') = match r with
                               | Ok _ => append_entries [audit_entry c "write" (op_name o)] (h_audit (gs_host g))
                               | Err _ => h_audit (gs_host g)
                               end
      ∧ unstructured (h_store (gs_host g)) (h_store (gs_host g'))
  end.
Proof.
  intros Hg. unfold facade_write, mbind, M_bind. destruct (authorize_write config credential now g) as [a g1] eqn:E.
  apply authorize_write_run in E. destruct (_authorize config credential "write" now) as [c|e].
  - destruct E as (-> & Hh & Hs & Hn). intros Hr. apply session_exact in Hr. rewrite Hs, lookup_insert_eq in Hr.
    assert (gs_sessions (consumed (gs_next g) g1) = gs_sessions g) as Hd.
    { cbn [consumed gs_sessions]. rewrite Hs. apply delete_insert_id.
      destruct (gs_sessions g !! gs_next g) eqn:En; [|done]. apply Hg in En. lia. }
    destruct r; destruct Hr as (H1 & H2 & H3 & H4); rewrite H1, H2, H3, Hd; cbn [consumed gs_host gs_next] in *;
      rewrite Hh in *; by rewrite Hn.
  - destruct E as [-> ->]. by intros [= <- <-].
Qed.

(** *** Traces *)

Inductive facade_event : Type :=
  | ev_call (x : facade_call) (credential : option string) (now : datetime)
  | ev_authorize (credential : option string) (now : datetime)
  | ev_use (i : nat) (o : write_op).

Definition event_step (g : WorkGraphState) (e : facade_event) : WorkGraphState :=
  match e with
  | ev_call x credential now => (facade_run config x credential now g).2
  | ev_authorize credential now => (authorize_write config credential now g).2
  | ev_use i o => (run_session config i o g).2
  end.

Definition is_live (i : nat) (g : WorkGraphState) : bool := bool_decide (is_Some (gs_sessions g !! i)).

(** How often session [i] is used while it is live. *)
Fixpoint live_uses (i : nat) (g : WorkGraphState) (es : list facade_event) : nat :=
  match es with
  | [] => 0
  | e :: es' =>
      (match e with ev_use j _ => if bool_decide (j = i) && is_live i g then 1 else 0 | _ => 0 end
       + live_uses i (event_step g e) es')%nat
  end.

Lemma authorize_scope credential category now c : _authorize config credential category now = Ok c →
  verify (gc_verifier config) credential (gc_audience config) now = Ok c ∧ require_scope c category = Ok tt.
Proof. unfold _authorize. intros H. apply res_bind_Ok in H as (c' & Hv & H). apply res_bind_Ok in H as ([] & Hs & [= <-]). done. Qed.

(** One event: the invariant, the table, the storage. *)
Lemma event_step_ok g e : sessions_ok g →
  sessions_ok (event_step g e) ∧ unstructured (h_store (gs_host g)) (h_store (gs_host (event_step g e)))
  ∧ (gs_next g ≤ gs_next (event_step g e))%nat
  ∧ ∀ i, (i < gs_next g)%nat → gs_sessions g !! i = None → gs_sessions (event_step g e) !! i = None.
Proof.
  intros Hg. assert (∀ g', gs_sessions g' = gs_sessions g → (gs_next g ≤ gs_next g')%nat → sessions_ok g') as Hsame.
  { intros g' E Hn. split; intros i c; rewrite E; intros Hi; [|by eapply Hg]. apply Hg in Hi. lia. }
  destruct e as [x credential now|credential now|i o]; cbn [event_step].
  - destruct (facade_run config x credential now g) as [r g'] eqn:E. cbn [snd].
    assert (gs_sessions g' = gs_sessions g ∧ (gs_next g ≤ gs_next g')%nat ∧ unstructured (h_store (gs_host g)) (h_store (gs_host g')))
      as (Hs & Hn & Hu).
    { destruct (decide (call_category x = "write")) as [Hw|Hw].
      - destruct x; try done. cbn [facade_run] in E. unfold answer, mbind, M_bind in E.
        destruct (facade_write config credential now o g) as [r0 g0] eqn:Ew. apply facade_write_exact in Ew; [|done].
        assert (g' = g0) as -> by (by destruct r0; injection E).
        destruct (_authorize config credential "write" now); [destruct Ew as (-> & -> & _ & ?)|destruct Ew as [_ ->]].
        + by split_and!; [|lia|].
        + by split_and!.
      - apply reads_exact in E; [|done]. destruct (_authorize config credential (call_category x) now).
        + destruct r; destruct E as (-> & -> & _ & ->); by split_and!.
        + destruct E as [_ ->]. by split_and!. }
    split; [by apply Hsame|]. rewrite Hs. by split_and!.
  - destruct (authorize_write config credential now g) as [r g'] eqn:E. cbn [snd]. apply authorize_write_run in E.
    destruct (_authorize config credential "write" now) as [c|e] eqn:Ea; [|destruct E as [_ ->]; by split_and!].
    destruct E as (_ & -> & Hs & Hn). split; [|split; [done|split; [lia|]]].
    + split; intros i c'; rewrite Hs; intros [[<- <-]|[_ Hi]]%lookup_insert_Some.
      * lia.
      * apply Hg in Hi. lia.
      * by apply authorize_scope in Ea as [_ ?].
      * by eapply Hg.
    + intros i Hi Hl. rewrite Hs, lookup_insert_ne by lia. done.
  - destruct (run_session config i o g) as [r g'] eqn:E. cbn [snd]. apply session_exact in E.
    destruct (gs_sessions g !! i) as [c|]; [|destruct E as [_ ->]; by split_and!].
    assert (gs_sessions g' = delete i (gs_sessions g) ∧ gs_next g' = gs_next g ∧ unstructured (h_store (gs_host g)) (h_store (gs_host g')))
      as (Hs & Hn & Hu) by (destruct r; destruct E as (H1 & H2 & _ & H4); by split_and!).
    split; [|split; [done|split; [lia|]]].
    + split; intros j c'; rewrite Hs; intros [_ Hj]%lookup_delete_Some; [rewrite Hn|]; by eapply Hg.
    + intros j _ Hj. rewrite Hs. apply lookup_delete_None. by right.
Qed.

Lemma dead_stays_dead i g es : sessions_ok g → (i < gs_next g)%nat → gs_sessions g !! i = None → live_uses i g es = 0%nat.
Proof.
  revert g. induction es as [|e es IH]; intros g Hg Hi Hl; [done|]. cbn [live_uses].
  destruct (event_step_ok g e Hg) as (Hg' & _ & Hn & Hd). rewrite IH; [|done|lia|by apply Hd].
  destruct e; try done. unfold is_live. rewrite (bool_decide_false (is_Some _)); [by rewrite andb_false_r|].
  rewrite Hl. by intros [? ?].
Qed.

Lemma live_uses_once i g es : sessions_ok g → (live_uses i g es ≤ 1)%nat.
Proof.
  revert g. induction es as [|e es IH]; intros g Hg; [cbn; lia|]. cbn [live_uses].
  destruct (event_step_ok g e Hg) as (Hg' & _). specialize (IH _ Hg').
  destruct e as [| |j o]; [lia..|]. destruct (bool_decide_reflect (j = i)) as [->|]; cbn [andb]; [|lia].
  unfold is_live. destruct (gs_sessions g !! i) as [c|] eqn:El; [|rewrite bool_decide_false; [lia|by intros [? ?]]].
  rewrite bool_decide_true by done. rewrite dead_stays_dead; [lia|done|..].
  - destruct (event_step_ok g (ev_use i o) Hg) as (_ & _ & Hn & _). apply Hg in El. lia.
  - cbn [event_step]. destruct (run_session config i o g) as [r g'] eqn:E. apply session_exact in E. rewrite El in E.
    cbn [snd]. destruct r; destruct E as (-> & _); apply lookup_delete_eq.
Qed.

End calls.

(** ** Properties *)

Section properties.
  Context {PY : Pydantic} {PL : PydanticLaws} {CK : Clock} {V : Type} {CV : CredentialVerifier V} (config : GraphConfig V).

(** C9: Every call of the facade is decided by the verifier and by exactly the scope of
    its category.  A call that is refused reaches no service: storage, audit log
    and sessions stay as they are and the refusal is the answer.  An authorized
    call acts under a context for the audience of the facade that is not expired;
    it adds exactly one audit record, of that caller, category and operation, when
    it succeeds, and none when it fails; reads and exports leave the storage
    untouched, and writes keep it well formed and leave its structure (parents,
    dependencies, blockers, Arena memberships) as it was. *)
Theorem facade_call_exact `{!CredentialVerifierLaws (gc_verifier config)} x credential now g r g' :
  sessions_ok g → facade_run config x credential now g = (r, g') →
  match _authorize config credential (call_category x) now with
  | Err e => r = Err e ∧ g' = g
  | Ok c =>
      ce_audience (ac_envelope c) = gc_audience config ∧ is_expired (ac_envelope c) now = Ok false
      ∧ (∃ scope, dict_get (call_category x) REQUIRED_SCOPE_BY_CATEGORY = Some scope ∧ scope ∈ ce_scopes (ac_envelope c))
      ∧ gs_sessions g' = gs_sessions g
      ∧ h_audit (gs_host g') = match r with
                               | Ok _ => append_entries [audit_entry c (call_category x) (call_operation x)] (h_audit (gs_host g))
                               | Err _ => h_audit (gs_host g)
                               end
      ∧ if String.eqb (call_category x) "write" then unstructured (h_store (gs_host g)) (h_store (gs_host g'))
        else h_store (gs_host g') = h_store (gs_host g)
  end.
Proof.
  intros Hg Hr. destruct (_authorize config credential (call_category x) now) as [c|e] eqn:Ea.
  - pose proof (authorize_scope _ _ _ _ _ Ea) as [Hv Hs]. split; [by eapply verify_audience|]. split; [by eapply verify_current|].
    split. { unfold require_scope in Hs. apply res_bind_Ok in Hs as (scope & Hsc%of_option_Ok & Hb%raise_if_Ok). bools.
             exists scope. split; [done|]. by apply str_in_spec. }
    destruct (String.eqb_spec (call_category x) "write") as [Hw|Hw].
    + destruct x; try done. cbn [facade_run call_operation call_category] in *. unfold answer, mbind, M_bind in Hr.
      destruct (facade_write config credential now o g) as [r0 g0] eqn:Ew. apply facade_write_exact in Ew; [|done].
      rewrite Ea in Ew. destruct Ew as (? & _ & Hau & ?). by destruct r0; injection Hr as <- <-.
    + apply reads_exact in Hr; [|done]. rewrite Ea in Hr. destruct r; destruct Hr as (? & _ & ? & ?); by split_and!.
  - destruct (decide (call_category x = "write")) as [Hw|Hw].
    + destruct x; try done. cbn [facade_run call_category] in *. unfold answer, mbind, M_bind in Hr.
      destruct (facade_write config credential now o g) as [r0 g0] eqn:Ew. apply facade_write_exact in Ew; [|done].
      rewrite Ea in Ew. destruct Ew as [-> ->]. by injection Hr as <- <-.
    + apply reads_exact in Hr; [|done]. by rewrite Ea in Hr.
Qed.

(** C10: A write session is a capability for one operation.  Whatever sequence of calls,
    authorizations and session uses a facade serves, each session is live for at
    most one use; a use of a session that is not live (never issued, or used
    before) is refused and changes nothing; a live session belongs to a caller
    whose context has the write scope; and the storage stays well formed with its
    structure unchanged. *)
Theorem write_session_single_use es g i :
  sessions_ok g → let g' := foldl (event_step config) g es in
  (live_uses config i g es ≤ 1)%nat
  ∧ unstructured (h_store (gs_host g)) (h_store (gs_host g'))
  ∧ (∀ c, gs_sessions g' !! i = Some c → require_scope c "write" = Ok tt)
  ∧ ∀ o, gs_sessions g' !! i = None → run_session config i o g' = (Err invalid_session, g').
Proof.
  intros Hg. assert (sessions_ok (foldl (event_step config) g es)
    ∧ unstructured (h_store (gs_host g)) (h_store (gs_host (foldl (event_step config) g es)))) as [Hg' Hu].
  { clear i. revert g Hg. induction es as [|e es IH]; intros g Hg; [by split|]. cbn [foldl].
    destruct (event_step_ok config g e Hg) as (H1 & H2 & _). destruct (IH _ H1). split; [done|by etrans]. }
  cbv zeta. split; [by apply live_uses_once|]. split; [done|]. split; [by eapply so_scope|].
  intros o Hn. destruct (run_session config i o _) as [r g2] eqn:E. apply session_exact in E. rewrite Hn in E. by destruct E as [-> ->].
Qed.

End properties.

(** ** Witnesses *)

Section witnesses.

#[local] Existing Instance reference_pydantic.
#[local] Existing Instance reference_pydantic_laws.
#[local] Existing Instance epoch_clock.

Definition ex_envelope (scopes : list string) : CredentialEnvelope :=
  {| ce_actor_id := "actor"; ce_session_id := "session"; ce_correlation_id := "call"; ce_scopes := scopes;
     ce_expires_at := at_minute 5; ce_issuer := "issuer"; ce_audience := "devgraph"; ce_redaction_partitions := [];
     ce_credential_id := None; ce_credential_version := None; ce_read_grants := []; ce_lifecycle_status := None;
     ce_resource := None |}.

Definition ex_verifier : LocalDevVerifier :=
  register "writer" (ex_envelope ["devgraph.write"])
    (register "admin" (ex_envelope ["devgraph.admin"]) {| ld_auth_mode := Some "local-dev"; ld_registry := ∅ |}).

Definition ex_facade : GraphConfig LocalDevVerifier :=
  {| gc_verifier := ex_verifier; gc_audience := "devgraph"; gc_repository := true; gc_monitor_storage := true |}.

Definition ex_idle : WorkGraphState :=
  {| gs_host := {| h_store := empty_store; h_audit := {| al_records := []; al_pending := [] |} |};
     gs_sessions := ∅; gs_next := 0 |}.

Lemma ex_idle_ok : sessions_ok ex_idle.
Proof. split; intros i c Hi; cbn [ex_idle gs_sessions] in Hi; by rewrite lookup_empty in Hi. Qed.

Definition ex_creation : facade_call := call_write (op_create ex_task).

(** The writer creates a Task with one record; the administrator is refused. *)
Lemma facade_call_exact_witness :
  is_ok (facade_run ex_facade ex_creation (Some "writer") epoch ex_idle).1 = true
  ∧ al_records (h_audit (gs_host (facade_run ex_facade ex_creation (Some "writer") epoch ex_idle).2))
    = [audit_entry {| ac_envelope := ex_envelope ["devgraph.write"] |} "write" "create_work_object"]
  ∧ (facade_run ex_facade ex_creation (Some "admin") epoch ex_idle).2 = ex_idle.
Proof.
  assert (is_ok (facade_run ex_facade ex_creation (Some "writer") epoch ex_idle).1 = true) as Hok by (vm_compute; reflexivity).
  assert (_authorize ex_facade (Some "writer") "write" epoch = Ok {| ac_envelope := ex_envelope ["devgraph.write"] |}) as Ha
    by (vm_compute; reflexivity).
  assert (is_ok (_authorize ex_facade (Some "admin") "write" epoch) = false) as Hd by (vm_compute; reflexivity).
  split; [exact Hok|]. split.
  - destruct (facade_run ex_facade ex_creation (Some "writer") epoch ex_idle) as [[r|e] g'] eqn:E; [|discriminate Hok].
    pose proof (facade_call_exact ex_facade ex_creation (Some "writer") epoch ex_idle (Ok r) g' ex_idle_ok E) as H.
    change (call_category ex_creation) with "write" in H. rewrite Ha in H. destruct H as (_ & _ & _ & _ & H & _).
    cbn [snd]. rewrite H. reflexivity.
  - destruct (facade_run ex_facade ex_creation (Some "admin") epoch ex_idle) as [r g'] eqn:E.
    pose proof (facade_call_exact ex_facade ex_creation (Some "admin") epoch ex_idle r g' ex_idle_ok E) as H.
    change (call_category ex_creation) with "write" in H.
    destruct (_authorize ex_facade (Some "admin") "write" epoch); [discriminate Hd|]. apply H.
Defined.

Definition ex_events : list facade_event :=
  [ev_authorize (Some "writer") epoch; ev_use 0 (op_create ex_task); ev_use 0 (op_archive "Task" "t1")].

(** A session creates a Task; its second use is refused. *)
Lemma write_session_single_use_witness :
  live_uses ex_facade 0 ex_idle ex_events = 1%nat
  ∧ run_session ex_facade 0 (op_archive "Task" "t1") (foldl (event_step ex_facade) ex_idle ex_events)
    = (Err invalid_session, foldl (event_step ex_facade) ex_idle ex_events).
Proof.
  split; [vm_compute; reflexivity|].
  apply (write_session_single_use ex_facade ex_events ex_idle 0 ex_idle_ok). vm_compute. reflexivity.
Defined.

End witnesses.
