(* ===== verification/DelegatedReads.v ===== *)
(** * The delegated read service

    [DelegatedReadService] of [src/devgraph/auth/delegated_read.py]: reads of Work
    and Arenas under the grants of a credential.  Pages are filtered in the storage
    by selectors made from the grants, single reads by [_work_admitted]; both are
    compared here with one specification of what a grant reaches.  Neither looks at
    the resource paths of a grant ([path_grant_not_confined]); what a grant admits
    is what it reaches within its paths, and the two agree for the grants of the
    closed contract, which have none.

    Observations, supporting material, documents, the monitor snapshot and the
    query language of the same service are not modelled. *)

From stdpp Require Import base gmap strings list sorting.
From Stdlib Require Import ZArith Ascii String.
From S2P Require Import Prelude Json Sha256 Datetime Validation WorkflowContract StrictJson Model Redaction Storage StorageWf Search StorageReads Repository ResourcePaths Delegated Workflows Lifecycle ProgressMutations Arenas Sessions Frames NamedWork WorkGraph Outbox Dispatcher Grants Credentials Receiver Enforcement.

Local Open Scope Z_scope.

(** ** The service *)

Definition not_granted : exn := KeyError "resource_not_granted".

Definition is_missing (e : exn) : bool := match e with MissingWorkObjectError _ _ => true | _ => false end.

(** [_selectors]; the selectors check their own fields. *)
Definition _selectors (grants : list WorkReadGrant) : res (list DelegatedWorkSelector) :=
  res_mapM (λ g, new_selector {| ds_work_ids := wg_work_ids g; ds_arena_ids := wg_arena_ids g;
    ds_work_kinds := wg_work_kinds g; ds_include_archived := wg_include_archived g; ds_resource_paths := [] |}) grants.

(** The condition of [_work_grants] on one grant. *)
Definition grant_serves (operation : string) (kind relationship : option string) (include_archived : bool)
    (g : WorkReadGrant) : bool :=
  str_in operation (wg_operations g)
  && match kind with Some k => str_in k (wg_work_kinds g) | None => true end
  && match relationship with Some r => str_in r (wg_relationship_types g) | None => true end
  && (negb include_archived || wg_include_archived g).

Definition _work_grants (c : AuthorityContext) (operation : string) (kind relationship : option string)
    (include_archived : bool) : list WorkReadGrant :=
  filter (λ g, grant_serves operation kind relationship include_archived g = true) (work_grants_of (ce_read_grants (ac_envelope c))).

(** The kinds that some grant names, in their order. *)
Definition granted_kinds (grants : list WorkReadGrant) : list string :=
  filter (λ k, existsb (λ g, str_in k (wg_work_kinds g)) grants = true) WORK_KIND_ORDER.

(** The Arenas named by [ArenaReadGrant]s; a collection grant is another class. *)
Definition granted_arenas (c : AuthorityContext) : list string :=
  sort_strings (remove_dups (mjoin (map (λ g, match g with arena_grant ids => ids | _ => [] end)
                                      (ce_read_grants (ac_envelope c))))).

Definition delegated_entry (c : AuthorityContext) (operation : string) (summary : list (string * value)) : AuditRecord :=
  {| al_actor_id := ce_actor_id (ac_envelope c); al_session_id := ce_session_id (ac_envelope c);
     al_correlation_id := ce_correlation_id (ac_envelope c); al_category := "delegated.read"; al_operation := operation;
     al_safe_summary := redact_event summary |}.

Definition result_count {A} (l : list A) : list (string * value) := [("result_count", VInt (Z.of_nat (length l)))].

Section service.
  Context `{Pydantic, Clock} {V : Type} `{CredentialVerifier V} (verifier : V) (audience : string).

(** [DelegatedReadService.authorize]. *)
Definition delegated_authorize (credential : option string) (scope : string) (now : datetime) : res AuthorityContext :=
  c ← verify verifier credential audience now;
  let e := ac_envelope c in
  raise_if (bool_decide (ce_credential_id e = None) || negb (bool_decide (ce_lifecycle_status e = Some "active"))
            || negb (bool_decide (ce_resource e = Some "https://work.zenith-research.ca/devgraph"))
            || bool_decide (length (ce_read_grants e) = 0%nat)) (UnauthenticatedError "invalid_credential");;
  raise_if (negb (has_scope e scope)) (ForbiddenError "scope_not_granted");;
  Ok c.

(** The loop of [_work_admitted]; the membership is read again for each grant. *)
Fixpoint _work_admitted (k i : string) (grants : list WorkReadGrant) (is_archived : bool) (s : Store) : res bool :=
  match grants with
  | [] => Ok false
  | g :: rest =>
      if is_archived && negb (wg_include_archived g) then _work_admitted k i rest is_archived s
      else if negb (bool_decide (wg_work_ids g = []) || str_in (resource_of (k, i)) (wg_work_ids g))
      then _work_admitted k i rest is_archived s
      else if bool_decide (wg_arena_ids g = []) then Ok true
      else match membership k i s with
           | Err e => if is_missing e then Ok false else Err e
           | Ok m => if match m_arena m with Some a => str_in (a_id a) (wg_arena_ids g) | None => false end then Ok true
                     else _work_admitted k i rest is_archived s
           end
  end.

Definition _require_work (k i : string) (grants : list WorkReadGrant) (s : Store) : res WorkObject :=
  w ← rethrow is_missing (λ _, not_granted) (get_by_id k i s);
  raise_if (bool_decide (length grants = 0%nat)) not_granted;;
  ok ← _work_admitted k i grants (archived w) s;
  raise_if (negb ok) not_granted;;
  Ok w.

Definition list_work (credential : option string) (now : datetime) (k : string) (include_archived descending : bool)
    (after_id : option string) (limit : Z) : M Host (list WorkObject) :=
  c ← lift (delegated_authorize credential "devgraph.work.read" now);
  let grants := _work_grants c "list" (Some k) None include_archived in
  guard_raise (bool_decide (length grants = 0%nat)) not_granted;;
  selectors ← lift (_selectors grants);
  ns ← on_store (reads (delegated_work_page k selectors [k] include_archived descending after_id limit));
  ws ← lift (res_mapM _from_node ns);
  audit (delegated_entry c "delegated_work_list" (result_count ws));;
  mret ws.

Definition get_work (credential : option string) (now : datetime) (k i : string) : M Host WorkObject :=
  c ← lift (delegated_authorize credential "devgraph.work.read" now);
  w ← on_store (reads (_require_work k i (_work_grants c "get" (Some k) None false)));
  audit (delegated_entry c "delegated_work_get" []);;
  mret w.

Definition related_work (credential : option string) (now : datetime) (k i relationship operation : string)
    (after : option string) (limit : Z) : M Host (list WorkObject) :=
  c ← lift (delegated_authorize credential "devgraph.work.read" now);
  direction ← lift (of_option (ValueError "invalid Work relationship") (dict_get relationship WORK_RELATIONSHIPS));
  guard_raise (str_in relationship ["blockers"; "blocked"] && negb (String.eqb k "Task")) (ValueError "invalid Work relationship");;
  on_store (reads (_require_work k i (_work_grants c operation (Some k) (Some relationship) false)));;
  let targets := _work_grants c operation None (Some relationship) false in
  if bool_decide (length targets = 0%nat) then mret [] else
  selectors ← lift (_selectors targets);
  ns ← on_store (reads (delegated_related_work_nodes k i direction.1 direction.2 selectors (granted_kinds targets) true after limit));
  ws ← lift (res_mapM _from_node ns);
  audit (delegated_entry c ("delegated_work_" +:+ operation) (result_count ws));;
  mret ws.

Definition delegated_list_arenas (credential : option string) (now : datetime) (after_id : option string) (limit : Z) :
    M Host (list Arena) :=
  c ← lift (delegated_authorize credential "devgraph.arena.read" now);
  let ids := granted_arenas c in
  guard_raise (bool_decide (ids = [])) not_granted;;
  ns ← on_store (reads (delegated_arena_page ids false false after_id limit));
  r ← lift (res_mapM arena_from_node ns);
  audit (delegated_entry c "delegated_arena_list" (result_count r));;
  mret r.

Definition _require_arena (c : AuthorityContext) (arena_id : string) (s : Store) : res Arena :=
  raise_if (negb (existsb (λ g, match g with arena_grant ids => str_in arena_id ids | _ => false end)
                    (ce_read_grants (ac_envelope c)))) not_granted;;
  rethrow is_missing (λ _, not_granted) (get_arena arena_id s).

Definition delegated_get_arena (credential : option string) (now : datetime) (arena_id : string) : M Host Arena :=
  c ← lift (delegated_authorize credential "devgraph.arena.read" now);
  a ← on_store (reads (_require_arena c arena_id));
  audit (delegated_entry c "delegated_arena_get" []);;
  mret a.

(** A second scope that the same context must have. *)
Definition also_scope (c : AuthorityContext) (scope : string) : res unit :=
  raise_if (negb (has_scope (ac_envelope c) scope)) (ForbiddenError "scope_not_granted").

Definition delegated_arena_members (credential : option string) (now : datetime) (arena_id : string) (after : option string)
    (limit : Z) : M Host (list WorkObject) :=
  c ← lift (delegated_authorize credential "devgraph.arena.read" now);
  lift (also_scope c "devgraph.work.read");;
  on_store (reads (_require_arena c arena_id));;
  let grants := _work_grants c "list" None None false in
  guard_raise (bool_decide (length grants = 0%nat)) not_granted;;
  selectors ← lift (_selectors grants);
  its ← on_store (reads (delegated_arena_member_page arena_id selectors (granted_kinds grants) true after limit));
  ws ← lift (res_mapM (λ it, _from_node (wc_node it)) its);
  audit (delegated_entry c "delegated_arena_members" (result_count ws));;
  mret ws.

Definition delegated_arena_membership (credential : option string) (now : datetime) (k i : string) : M Host ArenaMembership :=
  c ← lift (delegated_authorize credential "devgraph.arena.read" now);
  lift (also_scope c "devgraph.work.read");;
  on_store (reads (_require_work k i (_work_grants c "get" (Some k) None false)));;
  m ← on_store (reads (membership k i));
  match m_arena m with
  | Some a => on_store (reads (_require_arena c (a_id a)));; mret tt
  | None => mret tt
  end;;
  audit (delegated_entry c "delegated_arena_membership" []);;
  mret m.

End service.

(** ** What a grant admits *)

(** The conditions that this service looks at: kind, archival, exact resources and
    the Arena in which the record is placed. *)
Record grant_reaches `{Pydantic} (s : Store) (g : WorkReadGrant) (k : key) (is_archived : bool) : Prop := {
  ad_kind : k.1 ∈ wg_work_kinds g;
  ad_archived : is_archived = true → wg_include_archived g = true;
  ad_exact : wg_work_ids g = [] ∨ resource_of k ∈ wg_work_ids g;
  ad_arena : wg_arena_ids g = [] ∨ ∃ a, placed s k (Some a) ∧ a ∈ wg_arena_ids g
}.

(** What the grant means: a grant with resource paths is also confined to them
    ([read_grant_admits] of [Grants], docs/dev/live-resource-paths.md). *)
Definition grant_admits `{Pydantic} (s : Store) (g : WorkReadGrant) (k : key) (is_archived : bool) : Prop :=
  grant_reaches s g k is_archived ∧ within_paths k.1 k.2 (wg_resource_paths g) s = Ok true.

(** The grants of the closed contract ([WorkReadGrant] itself, which has no such
    field; [PathReadGrant] is the class that adds it). *)
Definition path_free (gs : list WorkReadGrant) : Prop := ∀ g, g ∈ gs → wg_resource_paths g = [].

Lemma path_free_admits `{Pydantic} s g k a : wg_resource_paths g = [] → grant_admits s g k a ↔ grant_reaches s g k a.
Proof. intros Hp. unfold grant_admits. rewrite Hp. cbn [within_paths]. tauto. Qed.

Section agreement.
  Context {PY : Pydantic} {CK : Clock}.
  Implicit Types (s : Store).

(** *** Placement and Arena descendants *)

Lemma incoming_elem r k s e : incoming r k s = [] → e ∈ edges s → relationship e = r → edge_to e ≠ k.
Proof.
  unfold incoming. intros Hn He Hr Hk. destruct (filter _ (edges s)) as [|x l] eqn:E; [|done].
  assert (e ∈ filter (λ e, edge_to e = k ∧ relationship e = r) (edges s)) as Hin by (by apply list_elem_of_filter).
  rewrite E in Hin. by apply not_elem_of_nil in Hin.
Qed.

Lemma incoming_one r k s x e : incoming r k s = [x] → e ∈ edges s → relationship e = r → edge_to e = k → e = x.
Proof.
  unfold incoming. intros Hn He Hr Hk.
  assert (e ∈ filter (λ e, edge_to e = k ∧ relationship e = r) (edges s)) as Hin by (by apply list_elem_of_filter).
  destruct (filter _ (edges s)) as [|y [|z l]]; [by apply not_elem_of_nil in Hin| |done].
  injection Hn as ->. by apply list_elem_of_singleton in Hin.
Qed.

Lemma incoming_in r k s x : x ∈ incoming r k s → x ∈ edges s ∧ relationship x = r ∧ edge_to x = k.
Proof. unfold incoming. intros Hx%subseteq_take. by apply list_elem_of_filter in Hx as [[? ?] ?]. Qed.

Lemma elem_of_children es a b : b ∈ children_of es a ↔ ∃ e, e ∈ es ∧ relationship e = "HAS_CHILD" ∧ edge_from e = a ∧ edge_to e = b.
Proof.
  unfold children_of. rewrite list_elem_of_fmap. split; [intros (e & -> & [? ?]%list_elem_of_filter)|intros (e & ? & ?)]; exists e; rewrite ?list_elem_of_filter; tauto || naive_solver.
Qed.

Lemma elem_of_roots arenas es k : k ∈ arena_roots arenas es ↔
  ∃ e, e ∈ es ∧ relationship e = "CONTAINS_WORK" ∧ from_label e = "Arena" ∧ from_id e ∈ arenas ∧ edge_to e = k.
Proof.
  unfold arena_roots. rewrite list_elem_of_fmap. split; [intros (e & -> & [? ?]%list_elem_of_filter)|intros (e & ? & ?)]; exists e; rewrite ?list_elem_of_filter; tauto || naive_solver.
Qed.

(** The two sides of a containment that [_containment] returns. *)
Lemma containment_edges k i s it : _containment k i s = Ok it →
  wc_parents it = incoming "HAS_CHILD" (k, i) s ∧ wc_memberships it = incoming "CONTAINS_WORK" (k, i) s.
Proof. intros H. by apply containment_Ok in H as (n & _ & ->). Qed.

Lemma direct_id_None it : _direct_id it = Ok None → wc_memberships it = [].
Proof. unfold _direct_id. intros H. minv. by destruct (wc_memberships it). Qed.

Lemma direct_id_Some it a : _direct_id it = Ok (Some a) → ∃ e, wc_memberships it = [e] ∧ from_label e = "Arena" ∧ from_id e = a.
Proof.
  unfold _direct_id. intros H. apply res_bind_Ok in H as (? & B%raise_if_Ok & H). apply res_bind_Ok in H as (? & _ & H).
  destruct (wc_memberships it) as [|e [|e' l]]; [done| |by bools; cbn [length] in *; lia].
  cbn in B, H. bools. exists e. by simplify_eq.
Qed.

(** The Arena descendants are the Work that is placed in the Arenas. *)
Lemma placed_descendant s k o ids : placed s k o →
  k ∈ _arena_descendant_keys ids s ↔ ∃ a, o = Some a ∧ a ∈ ids.
Proof.
  induction 1 as [k it o Hc Hp Hd|k it e o Hc Hp Hd He Hpl IH]; rewrite descendants_spec.
  - destruct (containment_edges _ _ _ _ Hc) as [HP HM]. rewrite <-surjective_pairing in HP, HM. rewrite HP in Hp.
    assert (∀ r, rtc (λ a b, b ∈ children_of (edges s) a) r k → r = k) as Hroot.
    { intros r Hr. apply rtc_inv_r in Hr as [Hr|(m & _ & (x & Hx & Hrel & _ & Hto)%elem_of_children)]; [done|].
      by destruct (incoming_elem _ _ _ _ Hp Hx Hrel). }
    split.
    + intros (r & (x & Hx & Hrel & Hl & Hin & Hto)%elem_of_roots & Hr). rewrite (Hroot r Hr) in Hto. destruct o as [a|].
      * apply direct_id_Some in Hd as (y & Hy & _ & <-). rewrite HM in Hy.
        rewrite <-(incoming_one _ _ _ _ _ Hy Hx Hrel Hto). by exists (from_id x).
      * apply direct_id_None in Hd. rewrite HM in Hd. by destruct (incoming_elem _ _ _ _ Hd Hx Hrel).
    + intros (a & -> & Ha). apply direct_id_Some in Hd as (y & Hy & Hl & <-). rewrite HM in Hy. exists k. split; [|done].
      apply elem_of_roots. exists y. destruct (incoming_in "CONTAINS_WORK" k s y) as (? & ? & ?); [rewrite Hy; by left|]. by split_and!.
  - destruct (containment_edges _ _ _ _ Hc) as [HP HM]. rewrite <-surjective_pairing in HP, HM. rewrite HP in Hp.
    apply direct_id_None in Hd. rewrite HM in Hd. rewrite <-IH, descendants_spec. split.
    + intros (r & Hroot & Hr). apply rtc_inv_r in Hr as [->|(m & Hr & (x & Hx & Hrel & Hf & Hto)%elem_of_children)].
      * apply elem_of_roots in Hroot as (x & Hx & Hrel & _ & _ & Hto). by destruct (incoming_elem _ _ _ _ Hd Hx Hrel).
      * rewrite <-(incoming_one _ _ _ _ _ Hp Hx Hrel Hto), Hf. by exists r.
    + intros (r & Hroot & Hr). exists r. split; [done|]. eapply rtc_r; [exact Hr|]. apply elem_of_children. exists e.
      destruct (incoming_in "HAS_CHILD" k s e) as (? & ? & ?); [rewrite Hp; by left|]. done.
Qed.

(** *** Grants, selectors and single reads *)

Lemma split_once_resource x k : split_once slash x = Some k → x = resource_of k.
Proof.
  revert k. induction x as [|c x IH]; intros k; [done|]. cbn [split_once].
  destruct (Ascii.eqb_spec slash c) as [<-|]; [by intros [= <-]|].
  destruct (split_once slash x) as [[a b]|]; [|done]. intros [= <-]. by rewrite (IH (a, b) eq_refl).
Qed.

(** Kinds have no slash. *)
Definition plain_kind (k : string) : bool := str_forall (λ d, negb (Ascii.eqb slash d)) k.

Lemma exact_selector (k : key) (l : list string) : plain_kind k.1 = true →
  k ∈ omap (split_once slash) l ↔ resource_of k ∈ l.
Proof.
  intros Hk. rewrite list_elem_of_omap. split.
  - by intros (x & Hx & ->%split_once_resource).
  - intros Hin. exists (resource_of k). split; [done|]. destruct k as [a b]. by apply split_once_app.
Qed.

Definition selector_of (g : WorkReadGrant) : DelegatedWorkSelector :=
  {| ds_work_ids := wg_work_ids g; ds_arena_ids := wg_arena_ids g; ds_work_kinds := wg_work_kinds g;
     ds_include_archived := wg_include_archived g; ds_resource_paths := [] |}.

Lemma selectors_Ok gs ds : _selectors gs = Ok ds → ds = map selector_of gs.
Proof.
  unfold _selectors. intros H%res_mapM_Ok. induction H as [|g d gs ds Hg _ IH]; [done|]. cbn [map]. f_equal; [|done].
  unfold new_selector in Hg. minv. by subst.
Qed.

Lemma selector_admits_grant s g k n o : plain_kind k.1 = true → placed s k o →
  ∃ b, selector_admits (selector_of g) k n s = Ok b ∧ (b = true ↔ grant_reaches s g k (nr_archived n)).
Proof.
  intros Hk Hp. unfold selector_admits, selector_of. cbn [ds_work_kinds ds_include_archived ds_work_ids ds_arena_ids ds_resource_paths within_paths].
  match goal with |- ∃ b, (if ?c then _ else _) = _ ∧ _ => exists c; split; [by destruct c|] end.
  rewrite !andb_true_iff, !orb_true_iff, str_in_spec, negb_true_iff, !bool_decide_eq_true, (exact_selector k) by done.
  rewrite (placed_descendant _ _ _ _ Hp). split.
  - intros [[[H1 H2] H3] H4]. split; [done|destruct (nr_archived n); naive_solver|done|].
    destruct H4 as [?|(a & -> & ?)]; [by left|right; by exists a].
  - intros [H1 H2 H3 H4]. split_and!; [done|destruct (nr_archived n); [right; auto|by left]|done|].
    destruct H4 as [?|(a & Ha & ?)]; [by left|right]. exists a. split; [|done]. by eapply placed_functional.
Qed.

Lemma predicate_grants s gs k n o : plain_kind k.1 = true → placed s k o → nodes s !! k = Some n →
  ∃ b, _delegated_selector_predicate (map selector_of gs) k s = Ok b
  ∧ (b = true ↔ ∃ g, g ∈ gs ∧ grant_reaches s g k (nr_archived n)).
Proof.
  intros Hk Hp Hn. unfold _delegated_selector_predicate. rewrite Hn. induction gs as [|g gs (b & Hb & IH)].
  - exists false. split; [done|]. split; [done|]. by intros (g & Hg%not_elem_of_nil & _).
  - cbn [map res_existsb]. destruct (selector_admits_grant s g k n o Hk Hp) as (x & Hx & Hiff). rewrite Hx. cbn [mbind res_bind].
    destruct x.
    + exists true. split; [done|]. split; [|done]. intros _. exists g. split; [by left|by apply Hiff].
    + exists b. split; [done|]. rewrite IH. split; intros (h & Hh & Ha); exists h; [split; [by right|done]|].
      apply elem_of_cons in Hh as [->|Hh]; [|done]. by apply Hiff in Ha.
Qed.

Lemma membership_placed k i s m : store_wf s → membership k i s = Ok m → placed s (k, i) (a_id <$> m_arena m).
Proof.
  intros Hs. unfold membership. intros H. apply res_bind_Ok in H as (? & _ & H).
  destruct (membership_walk 4 (k, i) (k, i) [] s) as [[m'|e]|] eqn:E; [|done..]. injection H as <-.
  by eapply membership_walk_placed.
Qed.

(** The loop decides the specification. *)
Lemma work_admitted_grants s k i gs b m : store_wf s → membership k i s = Ok m →
  (∀ g, g ∈ gs → k ∈ wg_work_kinds g) →
  ∃ x, _work_admitted k i gs b s = Ok x ∧ (x = true ↔ ∃ g, g ∈ gs ∧ grant_reaches s g (k, i) b).
Proof.
  intros Hs Hm. pose proof (membership_placed _ _ _ _ Hs Hm) as Hp. induction gs as [|g gs IH]; intros Hk.
  - exists false. split; [done|]. split; [done|]. by intros (g & Hg%not_elem_of_nil & _).
  - destruct IH as (x & Hx & IH); [intros g' ?; apply Hk; by right|]. cbn [_work_admitted]. rewrite Hm, Hx. clear Hx.
    assert (¬ grant_reaches s g (k, i) b → x = true ↔ ∃ h, h ∈ g :: gs ∧ grant_reaches s h (k, i) b) as Hskip.
    { intros Hno. rewrite IH. split; intros (h & Hh & Ha); exists h; [split; [by right|done]|].
      apply elem_of_cons in Hh as [->|Hh]; done. }
    assert (grant_reaches s g (k, i) b → true = true ↔ ∃ h, h ∈ g :: gs ∧ grant_reaches s h (k, i) b) as Hyes.
    { intros Ha. split; [|done]. intros _. exists g. split; [by left|done]. }
    destruct (b && negb (wg_include_archived g)) eqn:E1.
    { exists x. split; [done|]. apply Hskip. intros [_ Har _ _]. destruct b, (wg_include_archived g); try done. by specialize (Har eq_refl). }
    assert (b = true → wg_include_archived g = true) as Har by (destruct b, (wg_include_archived g); done).
    destruct (bool_decide (wg_work_ids g = []) || str_in (resource_of (k, i)) (wg_work_ids g)) eqn:E2; cbn [negb].
    2: { exists x. split; [done|]. apply Hskip. intros [_ _ He _]. rewrite orb_false_iff in E2. destruct E2 as [E2 E3].
         apply bool_decide_eq_false in E2. destruct He as [He|He%str_in_spec]; [done|congruence]. }
    assert (wg_work_ids g = [] ∨ resource_of (k, i) ∈ wg_work_ids g) as Hex.
    { rewrite orb_true_iff, bool_decide_eq_true, str_in_spec in E2. done. }
    assert (k ∈ wg_work_kinds g) as Hkg by (apply Hk; by left).
    destruct (bool_decide_reflect (wg_arena_ids g = [])) as [E3|E3].
    { exists true. split; [done|]. apply Hyes. split; auto. }
    destruct (m_arena m) as [a|] eqn:Ea; cbn in Hp.
    + destruct (str_in (a_id a) (wg_arena_ids g)) eqn:E4.
      * exists true. split; [done|]. apply Hyes. split; auto. right. exists (a_id a). split; [done|by apply str_in_spec].
      * exists x. split; [done|]. apply Hskip. intros [_ _ _ [?|(a' & Ha' & Hin)]]; [done|].
        pose proof (placed_functional _ _ _ _ Hp Ha') as [= <-]. apply str_in_spec in Hin. congruence.
    + exists x. split; [done|]. apply Hskip. intros [_ _ _ [?|(a' & Ha' & Hin)]]; [done|].
      by pose proof (placed_functional _ _ _ _ Hp Ha').
Qed.

(** *** Pages of the storage *)

Lemma sorted_records d label l : NoDup (map nr_key l) → (∀ n, n ∈ l → nr_label n = label) →
  StronglySorted (id_before d) (sorted_nodes d l).
Proof.
  intros Hnd Hl. unfold sorted_nodes.
  assert (StronglySorted (λ a b, key_ltb (nr_key a) (nr_key b) = true) (stable_sort node_leb l)) as Hst.
  { apply sorted_strict; [by rewrite stable_sort_perm|apply node_sort_sorted]. }
  assert (∀ n, n ∈ stable_sort node_leb l → nr_label n = label) as Hl' by (intros n; rewrite stable_sort_perm; apply Hl).
  assert (StronglySorted (id_before false) (stable_sort node_leb l)) as Hid.
  { revert Hl'. induction Hst as [|n r Hr IH Hn]; intros Hlab; [constructor|]. constructor; [apply IH; intros ? ?; apply Hlab; by right|].
    rewrite Forall_forall in *. intros m Hm. specialize (Hn m Hm). unfold id_before, key_ltb, nr_key in *. cbn [fst snd] in Hn.
    rewrite (Hlab n), (Hlab m), str_ltb_irrefl, String.eqb_refl in Hn by (by (left || right)). done. }
  destruct d; [|done]. by apply StronglySorted_reverse.
Qed.

Lemma delegated_page_spec label gs kinds ia d after limit s page : store_wf s → plain_kind label = true →
  (∀ i n, nodes s !! (label, i) = Some n → ∃ o, placed s (label, i) o) →
  delegated_work_page label (map selector_of gs) kinds ia d after limit s = Ok page →
  ∃ all, page = take (Z.to_nat limit) all ∧ 1 <= limit <= 100 ∧ StronglySorted (id_before d) all
  ∧ ∀ n, n ∈ all ↔ nodes s !! (label, nr_id n) = Some n ∧ label ∈ kinds ∧ (nr_archived n = true → ia = true)
      ∧ after_id_ok d after n = true ∧ ∃ g, g ∈ gs ∧ grant_reaches s g (label, nr_id n) (nr_archived n).
Proof.
  intros Hs Hlab Hpl H. unfold delegated_work_page in H. apply res_bind_Ok in H as (? & Hv & H).
  apply res_bind_Ok in H as (records & Hr & [= <-]). exists (sorted_nodes d records). split; [done|].
  split. { unfold validate_work_filter in Hv. minv. unfold validate_page_limit, page_limit_ok in *.
           match goal with H : (if ?c then _ else _) = Ok _ |- _ => destruct c eqn:?; [|done] end. bools. lia. }
  pose proof (res_filter_Ok _ _ _ Hr) as Hin. assert (∀ n, n ∈ records → nr_label n = label) as Hrl.
  { intros n [_ Hn]%Hin. destruct (String.eqb_spec (nr_label n) label); [done|]. by cbn in Hn. }
  split.
  - apply (sorted_records d label); [|done]. eapply sublist_NoDup; [apply (all_nodes_keys s Hs)|].
    change (sublist (nr_key <$> records) (nr_key <$> all_nodes s)). apply fmap_sublist. by eapply res_filter_sublist.
  - intros n. rewrite elem_of_sorted_nodes, Hin, elem_of_all_nodes by done. split.
    + intros [Hn Hf]. destruct (String.eqb_spec (nr_label n) label) as [El|]; [|by cbn in Hf].
      assert (nr_key n = (label, nr_id n)) as Ek by (unfold nr_key; by rewrite El). rewrite Ek in *. cbn [andb] in Hf.
      destruct (str_in label kinds) eqn:Ek'; [|done]. destruct (ia || negb (nr_archived n)) eqn:Ea; [|done]. cbn [andb] in Hf.
      destruct (Hpl _ _ Hn) as [o Ho]. destruct (predicate_grants s gs (label, nr_id n) n o Hlab Ho Hn) as (b & Hb & Hiff).
      rewrite Hb in Hf. cbn [mbind res_bind] in Hf. injection Hf as Hf. apply andb_true_iff in Hf as [-> Hf].
      split_and!; [done|by apply str_in_spec|by destruct ia, (nr_archived n)|done|by apply Hiff].
    + intros (Hn & Hk%str_in_spec & Ha & Haf & Hg).
      pose proof (nw_key _ _ (sw_nodes s Hs _ _ Hn)) as Ek. assert (nr_label n = label) as El by (unfold nr_key in Ek; by simplify_eq).
      rewrite Ek. split; [done|]. rewrite El, String.eqb_refl, Hk. cbn [andb].
      assert (ia || negb (nr_archived n) = true) as -> by (destruct ia, (nr_archived n); naive_solver).
      destruct (Hpl _ _ Hn) as [o Ho]. destruct (predicate_grants s gs (label, nr_id n) n o Hlab Ho Hn) as (b & Hb & Hiff).
      rewrite Hb. cbn [mbind res_bind]. rewrite (proj2 Hiff Hg). cbn [andb]. f_equal. exact Haf.
Qed.

End agreement.

(** ** Properties *)

(** Every record of the kind can be placed: the records on the way to its root can
    be read ([membership_conflict_free] of [WorkGraph]). *)
Definition placeable `{Pydantic} (k : string) (s : Store) : Prop :=
  ∀ i n, nodes s !! (k, i) = Some n → is_ok (membership k i s) = true.

Section properties.
  Context {PY : Pydantic} {PL : PydanticLaws} {CK : Clock} {V : Type} {CV : CredentialVerifier V} (verifier : V) (audience : string).

Lemma placeable_placed k s i n : store_wf s → placeable k s → nodes s !! (k, i) = Some n → ∃ o, placed s (k, i) o.
Proof.
  intros Hs Hp Hn. specialize (Hp i n Hn). destruct (membership k i s) as [m|] eqn:E; [|done].
  eexists. by eapply membership_placed.
Qed.

Lemma work_grants_Some c o k r ia g : g ∈ _work_grants c o (Some k) r ia → k ∈ wg_work_kinds g.
Proof.
  unfold _work_grants, grant_serves. intros [Hs _]%list_elem_of_filter. apply andb_true_iff in Hs as [Hs _].
  apply andb_true_iff in Hs as [Hs _]. apply andb_true_iff in Hs as [_ Hs]. by apply str_in_spec.
Qed.

Lemma plain_filter label gs kinds ia d after limit s page :
  delegated_work_page label gs kinds ia d after limit s = Ok page → plain_kind label = true.
Proof.
  unfold delegated_work_page, validate_work_filter. intros H. apply res_bind_Ok in H as (? & H & _).
  apply res_bind_Ok in H as (? & Hk%raise_if_Ok & _). bools. apply str_in_spec in Hk. unfold CANONICAL_WORK_KINDS in Hk.
  repeat (apply elem_of_cons in Hk as [->|Hk]; [reflexivity|]). by apply not_elem_of_nil in Hk.
Qed.

Lemma get_by_id_stored k i s w : get_by_id k i s = Ok w → ∃ n, nodes s !! (k, i) = Some n.
Proof.
  unfold get_by_id, get_node. intros H. apply res_bind_Ok in H as (? & _ & H). apply res_bind_Ok in H as (? & _ & H).
  apply res_bind_Ok in H as (o & Ho & H). minv. destruct o as [n|]; [|done]. by exists n.
Qed.

(** What a single read decides. *)
Lemma require_work_spec k i c s w : store_wf s → placeable k s → get_by_id k i s = Ok w →
  let gs := _work_grants c "get" (Some k) None false in
  ((∃ g, g ∈ gs ∧ grant_reaches s g (k, i) (archived w)) → _require_work k i gs s = Ok w)
  ∧ ((¬ ∃ g, g ∈ gs ∧ grant_reaches s g (k, i) (archived w)) → _require_work k i gs s = Err not_granted).
Proof.
  intros Hs Hp Hw gs. destruct (get_by_id_stored _ _ _ _ Hw) as [n Hn]. specialize (Hp i n Hn).
  destruct (membership k i s) as [m|] eqn:Hm; [|done].
  destruct (work_admitted_grants s k i gs (archived w) m Hs Hm) as (x & Hx & Hiff); [intros g Hg; by eapply work_grants_Some|].
  unfold _require_work. rewrite Hw. cbn [rethrow mbind res_bind]. rewrite Hx. destruct gs as [|g0 gs0] eqn:Eg.
  - split; [by intros (g & Hg%not_elem_of_nil & _)|done].
  - rewrite (bool_decide_false (length (g0 :: gs0) = 0%nat)) by done. cbn [raise_if mbind res_bind].
    destruct x; split; intros H; cbn [raise_if negb]; [done|by destruct H; apply Hiff|by apply Hiff in H|done].
Qed.

Lemma get_work_run credential now k i h : get_work verifier audience credential now k i h =
  match delegated_authorize verifier audience credential "devgraph.work.read" now with
  | Err e => (Err e, h)
  | Ok c => match _require_work k i (_work_grants c "get" (Some k) None false) (h_store h) with
            | Ok w => (Ok w, {| h_store := h_store h; h_audit := append_entries [delegated_entry c "delegated_work_get" []] (h_audit h) |})
            | Err e => (Err e, h)
            end
  end.
Proof.
  unfold get_work, mbind, M_bind, lift. destruct (delegated_authorize _ _ _ _ _) as [c|]; [|done].
  unfold on_store, reads. destruct h as [s l]. cbn [h_store h_audit]. by destruct (_require_work _ _ _ _).
Qed.

(** C12: A page of delegated Work is exact: it is the front, up to the limit, of the
    ordered list of those stored records of the kind, visible under the archive
    flag and after the cursor, that some grant of the credential for listing
    reaches (kind, archival, exact resource, and the Arena in which the record is
    placed), whatever resource paths the grant carries; so when the listing grants
    are of the closed contract, without resource paths, the page holds exactly what
    they admit.  The read changes no record and is audited once with its count; and
    where the listing grants also allow single reads, every listed Work object is
    returned as such by [get_work]. *)
Theorem delegated_list_exact credential now k ia d after limit h ws h' :
  store_wf (h_store h) → placeable k (h_store h) →
  list_work verifier audience credential now k ia d after limit h = (Ok ws, h') →
  ∃ c ns all, delegated_authorize verifier audience credential "devgraph.work.read" now = Ok c
  ∧ let grants := _work_grants c "list" (Some k) None ia in
    let visible n := nodes (h_store h) !! (k, nr_id n) = Some n ∧ (nr_archived n = true → ia = true) ∧ after_id_ok d after n = true in
  Forall2 (λ n w, _from_node n = Ok w) ns ws ∧ ns = take (Z.to_nat limit) all ∧ 1 <= limit <= 100
  ∧ StronglySorted (id_before d) all
  ∧ (∀ n, n ∈ all ↔ visible n ∧ ∃ g, g ∈ grants ∧ grant_reaches (h_store h) g (k, nr_id n) (nr_archived n))
  ∧ (path_free grants →
     ∀ n, n ∈ all ↔ visible n ∧ ∃ g, g ∈ grants ∧ grant_admits (h_store h) g (k, nr_id n) (nr_archived n))
  ∧ h_store h' = h_store h
  ∧ h_audit h' = append_entries [delegated_entry c "delegated_work_list" (result_count ws)] (h_audit h)
  ∧ ((∀ g, g ∈ grants → str_in "get" (wg_operations g) = true) →
     ∀ w, w ∈ ws → (get_work verifier audience credential now k (id w) h).1 = Ok w).
Proof.
  intros Hs Hp H. unfold list_work in H. apply M_bind_Ok in H as (c & h1 & [Hc ->]%lift_Ok & H).
  apply M_bind_Ok in H as (? & h1 & [_ ->]%guard_raise_Ok & H). apply M_bind_Ok in H as (ds & h1 & [Hds ->]%lift_Ok & H).
  apply M_bind_Ok in H as (ns & h1 & Hns & H). apply M_bind_Ok in H as (ws' & h2 & [Hws ->]%lift_Ok & H).
  apply M_bind_Ok in H as (? & h2 & Ha & H). apply M_ret_Ok in H as [<- <-]. injection Ha as _ <-.
  unfold on_store, reads in Hns. injection Hns as Hns <-. apply selectors_Ok in Hds as ->. apply res_mapM_Ok in Hws.
  pose proof (plain_filter _ _ _ _ _ _ _ _ _ Hns) as Hk.
  destruct (delegated_page_spec _ _ _ _ _ _ _ _ _ Hs Hk (λ i n Hn, placeable_placed k _ i n Hs Hp Hn) Hns)
    as (all & -> & Hlim & Hsort & Hall). cbn [h_store h_audit].
  exists c, (take (Z.to_nat limit) all), all. split; [done|]. cbv zeta. split; [done|]. split; [done|]. split; [done|]. split; [done|].
  match goal with |- ?A ∧ _ => assert A as Hexact end.
  { intros n. rewrite Hall. split; [|intros ((?&?&?)&?); split_and!; [done|by left|done..]]. intros (?&_&?&?&?). by split_and!. }
  split; [done|]. split.
  { intros Hpf n. rewrite Hexact. apply and_iff_compat_l.
    split; intros (g & Hg & Ha); exists g; (split; [done|]); pose proof (path_free_admits (h_store h) g (k, nr_id n) (nr_archived n) (Hpf g Hg)); tauto. }
  split; [done|]. split; [done|]. intros Hget w Hw. apply list_elem_of_lookup in Hw as [j Hj].
  eapply Forall2_lookup_r in Hws as (n & Hn & Hread); [|exact Hj].
  assert (n ∈ all) as Hin by (eapply subseteq_take; by eapply list_elem_of_lookup_2). apply Hall in Hin as (Hst & _ & _ & _ & g & Hg & Hadm).
  pose proof (from_node_inv _ _ Hread) as (_ & _ & Hkey & Harc).
  pose proof (nw_key _ _ (sw_nodes _ Hs _ _ Hst)) as Ekey.
  assert (id w = nr_id n) as Hid by (unfold work_key in Hkey; rewrite Ekey in Hkey; congruence).
  rewrite get_work_run, Hc, Hid. assert (get_by_id k (nr_id n) (h_store h) = Ok w) as Hgb.
  { unfold get_by_id. pose proof (nw_id _ _ (sw_nodes _ Hs _ _ Hst)) as Hidok. cbn [snd] in Hidok.
    unfold require_id, get_node. rewrite Hidok. assert (kind_name (kind w) = k) as <- by (unfold work_key in Hkey; rewrite Ekey in Hkey; congruence).
    unfold _require_known_kind. rewrite bool_decide_false by (by destruct (kind w)). cbn [raise_if mbind res_bind].
    unfold require_id. rewrite Hidok. cbn [mbind res_bind]. by rewrite Hst. }
  destruct (require_work_spec k (nr_id n) c (h_store h) w Hs Hp Hgb) as [Hyes _]. rewrite Hyes; [done|].
  exists g. rewrite Harc. split; [|done]. pose proof (Hget g Hg) as Hgg.
  unfold _work_grants in *. apply list_elem_of_filter in Hg as [Hsv Hg]. apply list_elem_of_filter. split; [|done].
  unfold grant_serves in *. rewrite Hgg. cbn [andb negb orb].
  apply andb_true_iff in Hsv as [Hsv _]. apply andb_true_iff in Hsv as [Hsv _]. by apply andb_true_iff in Hsv as [_ ->].
Qed.

(** A delegated single read answers with the stored Work exactly when some grant of
    the credential for single reads admits it, and then records once; Work that no
    grant admits and Work that does not exist are answered with the same error and
    leave no trace, so a caller cannot tell them apart. *)
Theorem delegated_get_exact credential now k i h c :
  store_wf (h_store h) → placeable k (h_store h) →
  delegated_authorize verifier audience credential "devgraph.work.read" now = Ok c →
  let granted w := ∃ g, g ∈ _work_grants c "get" (Some k) None false ∧ grant_reaches (h_store h) g (k, i) (archived w) in
  let refused := get_work verifier audience credential now k i h = (Err not_granted, h) in
  (∀ w, get_by_id k i (h_store h) = Ok w → granted w →
     get_work verifier audience credential now k i h
     = (Ok w, {| h_store := h_store h; h_audit := append_entries [delegated_entry c "delegated_work_get" []] (h_audit h) |}))
  ∧ (∀ w, get_by_id k i (h_store h) = Ok w → ¬ granted w → refused)
  ∧ (get_by_id k i (h_store h) = Err (MissingWorkObjectError k i) → refused).
Proof.
  intros Hs Hp Hc granted refused. unfold refused. rewrite get_work_run, Hc. split_and!.
  - intros w Hw Hg. destruct (require_work_spec k i c (h_store h) w Hs Hp Hw) as [Hyes _]. by rewrite Hyes.
  - intros w Hw Hg. destruct (require_work_spec k i c (h_store h) w Hs Hp Hw) as [_ Hno]. by rewrite Hno.
  - intros Hm. unfold _require_work. by rewrite Hm.
Qed.

(** Related Work stays within the grants too: each returned object is at the other end
    of an edge of the source and is admitted by a grant for the operation and the
    relationship, and no record changes. *)
Theorem related_work_confined credential now k i rel operation after limit h ws h' :
  store_wf (h_store h) → (∀ k', k' ∈ WORK_KIND_ORDER → placeable k' (h_store h)) →
  related_work verifier audience credential now k i rel operation after limit h = (Ok ws, h') →
  h_store h' = h_store h
  ∧ ∃ c direction, delegated_authorize verifier audience credential "devgraph.work.read" now = Ok c
  ∧ dict_get rel WORK_RELATIONSHIPS = Some direction
  ∧ ∀ w, w ∈ ws → ∃ e g, e ∈ edges (h_store h) ∧ relationship e = direction.1
      ∧ edge_source direction.2 e = (k, i) ∧ edge_target direction.2 e = work_key w
      ∧ g ∈ _work_grants c operation None (Some rel) false ∧ grant_reaches (h_store h) g (work_key w) (archived w).
Proof.
  intros Hs Hp H. unfold related_work in H. apply M_bind_Ok in H as (c & h1 & [Hc ->]%lift_Ok & H).
  apply M_bind_Ok in H as (dir & h1 & [Hdir%of_option_Ok ->]%lift_Ok & H). apply M_bind_Ok in H as (? & h1 & [_ ->]%guard_raise_Ok & H).
  apply M_bind_Ok in H as (? & h1 & Hsrc & H). unfold on_store, reads in Hsrc. injection Hsrc as _ <-.
  destruct (bool_decide _).
  { apply M_ret_Ok in H as [-> ->]. split; [done|]. exists c, dir. split_and!; [done..|]. by intros w Hw%not_elem_of_nil. }
  apply M_bind_Ok in H as (ds & h1 & [Hds%selectors_Ok ->]%lift_Ok & H). apply M_bind_Ok in H as (ns & h1 & Hns & H).
  unfold on_store, reads in Hns. injection Hns as Hns <-. apply M_bind_Ok in H as (ws' & h2 & [Hws%res_mapM_Ok ->]%lift_Ok & H).
  apply M_bind_Ok in H as (? & h2 & Ha & H). apply M_ret_Ok in H as [<- <-]. injection Ha as _ <-.
  split; [done|]. exists c, dir. split; [done|]. split; [done|]. intros w Hw.
  apply list_elem_of_lookup in Hw as [j Hj]. eapply Forall2_lookup_r in Hws as (n & Hn & Hread); [|exact Hj].
  pose proof (from_node_inv _ _ Hread) as (_ & _ & Hkey & Harc). rewrite Hkey, Harc.
  unfold delegated_related_work_nodes in Hns. cbn [h_store] in Hns.
  apply res_bind_Ok in Hns as (? & _ & Hns). apply res_bind_Ok in Hns as (? & _ & Hns). apply res_bind_Ok in Hns as (? & _ & Hns).
  apply res_bind_Ok in Hns as (es & Hes & [= <-]). apply list_elem_of_lookup_2, list_elem_of_omap in Hn as (key & Hkin & Hkn).
  apply subseteq_take in Hkin. rewrite elem_of_sorted_keys in Hkin. apply list_elem_of_fmap in Hkin as (e & -> & He).
  apply (res_filter_Ok _ _ _ Hes) in He as [He Hf]. cbv zeta in Hf. rewrite Hkn in Hf.
  pose proof (nw_key _ _ (sw_nodes _ Hs _ _ Hkn)) as Ekey. rewrite Ekey in *.
  destruct (String.eqb_spec (relationship e) dir.1) as [Erel|]; [|by cbn in Hf].
  destruct (bool_decide_reflect (edge_source dir.2 e = (k, i))) as [Esrc|]; [|by cbn in Hf].
  destruct (str_in (edge_target dir.2 e).1 (granted_kinds _)) eqn:Ekind; [|by cbn in Hf]. cbn [andb orb] in Hf.
  apply str_in_spec in Ekind. unfold granted_kinds in Ekind. apply list_elem_of_filter in Ekind as [_ Ekind].
  destruct (edge_target dir.2 e) as [tk ti] eqn:Etgt. cbn [fst] in Ekind.
  destruct (placeable_placed tk _ ti n Hs (Hp tk Ekind) Hkn) as [o Ho].
  assert (plain_kind tk = true) as Hplain.
  { clear -Ekind. unfold WORK_KIND_ORDER in Ekind. repeat (apply elem_of_cons in Ekind as [->|Ekind]; [reflexivity|]).
    by apply not_elem_of_nil in Ekind. }
  destruct (predicate_grants _ (_work_grants c operation None (Some rel) false) (tk, ti) n o Hplain Ho Hkn) as (b & Hb & Hiff).
  subst ds. rewrite Hb in Hf. cbn [mbind res_bind] in Hf. injection Hf as Hf. apply andb_true_iff in Hf as [-> _].
  destruct (proj1 Hiff eq_refl) as (g & Hg & Hadm). exists e, g. by split_and!.
Qed.

End properties.

(** ** Witnesses *)

Section witnesses.

#[local] Existing Instance reference_pydantic.
#[local] Existing Instance reference_pydantic_laws.
#[local] Existing Instance epoch_clock.

Definition placeable_in (k : string) (s : Store) : bool :=
  forallb (λ kn, negb (String.eqb kn.1.1 k) || is_ok (membership kn.1.1 kn.1.2 s)) (map_to_list (nodes s)).

Lemma placeable_in_spec k s : placeable_in k s = true → placeable k s.
Proof.
  unfold placeable_in, placeable. rewrite forallb_forall. intros H i n Hn.
  specialize (H ((k, i), n) (proj1 (list_elem_of_In _ _) (proj2 (elem_of_map_to_list _ _ _) Hn))).
  cbn [fst snd] in H. by rewrite String.eqb_refl in H.
Qed.

(** A credential for the Tasks of Arena a. *)
Definition ex_reader : LocalDevVerifier :=
  register "reader"
    {| ce_actor_id := "reader"; ce_session_id := "session"; ce_correlation_id := "call"; ce_scopes := ["devgraph.work.read"];
       ce_expires_at := at_minute 5; ce_issuer := "issuer"; ce_audience := "devgraph"; ce_redaction_partitions := [];
       ce_credential_id := Some "reader"; ce_credential_version := Some 1;
       ce_read_grants := [work_grant {| wg_operations := ["list"; "get"]; wg_relationship_types := ["children"];
         wg_work_kinds := ["Task"]; wg_work_ids := []; wg_arena_ids := ["a"]; wg_include_archived := false; wg_resource_paths := [] |}];
       ce_lifecycle_status := Some "active"; ce_resource := Some "https://work.zenith-research.ca/devgraph" |}
    {| ld_auth_mode := Some "local-dev"; ld_registry := ∅ |}.

Definition ex_reading : Host := {| h_store := ex_arena_store; h_audit := {| al_records := []; al_pending := [] |} |}.

(** The same credential with the grant confined to the path of another Arena.  The
    service lists both Tasks, and that grant admits neither. *)
Definition ex_path_grant : WorkReadGrant :=
  {| wg_operations := ["list"; "get"]; wg_relationship_types := ["children"]; wg_work_kinds := ["Task"]; wg_work_ids := [];
     wg_arena_ids := []; wg_include_archived := false; wg_resource_paths := [{| path := ["Arena/elsewhere"] |}] |}.

Definition ex_path_page : res (list string) :=
  ds ← _selectors [ex_path_grant];
  ns ← delegated_work_page "Task" ds ["Task"] false false None 50 (h_store ex_reading);
  Ok (map nr_id ns).

Lemma path_grant_not_confined :
  ex_path_page = Ok ["t"; "u"] ∧ ∀ i, i ∈ ["t"; "u"] → ¬ grant_admits (h_store ex_reading) ex_path_grant ("Task", i) false.
Proof.
  split; [vm_compute; reflexivity|]. intros i Hi [_ Hp].
  repeat (apply elem_of_cons in Hi as [->|Hi]; [vm_compute in Hp; discriminate Hp|]). by apply not_elem_of_nil in Hi.
Qed.

Lemma ex_placeable : placeable "Task" (h_store ex_reading).
Proof. apply placeable_in_spec. vm_compute. reflexivity. Qed.

(** Task t is in the Arena through its parent and is listed; Task u is not. *)
Lemma delegated_list_exact_witness : ∃ w h',
  list_work ex_reader "devgraph" (Some "reader") epoch "Task" false false None 50 ex_reading = (Ok [w], h')
  ∧ id w = "t" ∧ (get_work ex_reader "devgraph" (Some "reader") epoch "Task" "t" ex_reading).1 = Ok w.
Proof.
  assert (match (list_work ex_reader "devgraph" (Some "reader") epoch "Task" false false None 50 ex_reading).1 with
          | Ok [w] => String.eqb (id w) "t" | _ => false end = true) as Hrun by (vm_compute; reflexivity).
  destruct (list_work ex_reader "devgraph" (Some "reader") epoch "Task" false false None 50 ex_reading) as [[[|w [|]]|] h'] eqn:E;
    cbn [fst] in Hrun; try discriminate Hrun. apply String.eqb_eq in Hrun. exists w, h'. split; [reflexivity|]. split; [exact Hrun|].
  destruct (delegated_list_exact ex_reader "devgraph" (Some "reader") epoch "Task" false false None 50 ex_reading [w] h'
    ex_arena_store_wf ex_placeable E) as (c & ns & all & Hc & _ & _ & _ & _ & _ & _ & _ & _ & Hget).
  rewrite <-Hrun. apply Hget; [|by left]. intros g Hg. vm_compute in Hc. injection Hc as <-. vm_compute in Hg.
  apply list_elem_of_singleton in Hg as ->. reflexivity.
Defined.

(** Task u exists outside the grant, Task v does not exist: the same answer. *)
Lemma delegated_get_exact_witness :
  get_work ex_reader "devgraph" (Some "reader") epoch "Task" "u" ex_reading = (Err not_granted, ex_reading)
  ∧ get_work ex_reader "devgraph" (Some "reader") epoch "Task" "v" ex_reading = (Err not_granted, ex_reading).
Proof.
  assert (is_ok (delegated_authorize ex_reader "devgraph" (Some "reader") "devgraph.work.read" epoch) = true) as Ha by (vm_compute; reflexivity).
  destruct (delegated_authorize ex_reader "devgraph" (Some "reader") "devgraph.work.read" epoch) as [c|] eqn:Hc; [|discriminate Ha].
  split.
  - assert (is_ok (get_by_id "Task" "u" (h_store ex_reading)) = true) as Hu by (vm_compute; reflexivity).
    destruct (get_by_id "Task" "u" (h_store ex_reading)) as [w|] eqn:Ew; [|discriminate Hu].
    apply (proj1 (proj2 (delegated_get_exact ex_reader "devgraph" (Some "reader") epoch "Task" "u" ex_reading c
      ex_arena_store_wf ex_placeable Hc)) w Ew).
    intros (g & Hg & [_ _ _ Har]). vm_compute in Hc. injection Hc as <-. vm_compute in Hg.
    apply list_elem_of_singleton in Hg as ->. cbn [wg_arena_ids] in Har. destruct Har as [Har|(a & Hp & _)]; [discriminate Har|].
    assert (is_ok (membership "Task" "u" (h_store ex_reading)) = true) as Hm by (vm_compute; reflexivity).
    destruct (membership "Task" "u" (h_store ex_reading)) as [m|] eqn:Em; [|discriminate Hm].
    pose proof (membership_placed _ _ _ _ ex_arena_store_wf Em) as Hp'. pose proof (placed_functional _ _ _ _ Hp Hp') as Heq.
    assert (match membership "Task" "u" (h_store ex_reading) with Ok m => m_arena m | _ => None end = None) as Hnone by (vm_compute; reflexivity).
    rewrite Em in Hnone. rewrite Hnone in Heq. discriminate Heq.
  - apply (proj2 (proj2 (delegated_get_exact ex_reader "devgraph" (Some "reader") epoch "Task" "v" ex_reading c
      ex_arena_store_wf ex_placeable Hc))). vm_compute. reflexivity.
Defined.

End witnesses.
