(* ===== verification/UrlQuery.v ===== *)
(** * Query strings

    What the read views use of [urllib.parse]: [parse_qsl] and [parse_qs] with
    their percent decoding, [urlencode], and [int()] of a text field.  A decoded
    character from code point 256 up (the replacement character included) is
    outside the modelled alphabet, and decoding it is a [ValueError] here.

    The main lemma is the round trip of [urlencode] and [parse_qsl]. *)

From stdpp Require Import base list strings.
From Stdlib Require Import ZArith NArith Ascii String.
From S2P Require Import Prelude Json Validation WorkflowContract StrictJson Redaction.

Local Open Scope Z_scope.

(** ** Percent decoding *)

Definition hex_pair (a b : ascii) : option ascii :=
  x ← hex_val a; y ← hex_val b; Some (ascii_of_N (16 * x + y)).

(** [urllib.parse.unquote(s, errors="strict")]: escapes are bytes, and each run of
    ASCII text is decoded at once; [run] is the run so far. *)
Fixpoint unquote_run (run s : string) : option string :=
  match s with
  | EmptyString => utf8_decode run
  | String c s1 =>
      if (code c <? 128)%N then
        match s1 with
        | String a (String b s2) =>
            match (if Ascii.eqb c "%" then hex_pair a b else None) with
            | Some d => unquote_run (run +:+ String d "") s2
            | None => unquote_run (run +:+ String c "") s1
            end
        | _ => unquote_run (run +:+ String c "") s1
        end
      else d ← utf8_decode run; r ← unquote_run "" s1; Some (d +:+ String c r)
  end.

Definition unquote (s : string) : option string := unquote_run "" s.

(** [s.replace("+", " ")]. *)
Fixpoint plus_to_space (s : string) : string :=
  match s with
  | EmptyString => EmptyString
  | String c s' => String (if Ascii.eqb c "+" then " "%char else c) (plus_to_space s')
  end.

Definition unquote_plus (s : string) : option string := unquote (plus_to_space s).

(** ** [parse_qsl] and [parse_qs] with [keep_blank_values] *)

Definition query_field (strict : bool) (f : string) : res (list (string * string)) :=
  if String.eqb f "" && negb strict then Ok []
  else
    nv ← match split_once "=" f with
         | Some nv => Ok nv
         | None => if strict then Err (ValueError "bad query field") else Ok (f, "")
         end;
    k ← of_option (ValueError "decode") (unquote_plus nv.1);
    v ← of_option (ValueError "decode") (unquote_plus nv.2);
    Ok [(k, v)].

(** A name or value that decodes to a character from code point 256 up, which the
    library accepts, is an error here. *)
Definition parse_qsl (strict : bool) (max_num_fields : Z) (qs : string) : res (list (string * string)) :=
  raise_if (max_num_fields <? 1 + Z.of_nat (count_char "&" qs)) (ValueError "Max number of fields exceeded");;
  l ← res_mapM (query_field strict) (split_all "&" qs);
  Ok (List.concat l).

(** The values of a name, in order. *)
Definition values_of (k : string) (pairs : list (string * string)) : list string :=
  snd <$> filter (λ kv : string * string, kv.1 = k) pairs.

Definition parse_qs (strict : bool) (max_num_fields : Z) (qs : string) : res (list (string * list string)) :=
  pairs ← parse_qsl strict max_num_fields qs;
  Ok ((λ k, (k, values_of k pairs)) <$> remove_dups pairs.*1).

(** [re.search(r"%(?![0-9a-fA-F]{2})", s)]. *)
Fixpoint bad_escape (s : string) : bool :=
  match s with
  | EmptyString => false
  | String c s1 =>
      (Ascii.eqb c "%" && negb match s1 with
                               | String a (String b _) => bool_decide (is_Some (hex_pair a b))
                               | _ => false
                               end) || bad_escape s1
  end.

(** ** [urlencode] *)

Definition upper_hex (n : N) : ascii := ascii_of_N (if n <? 10 then n + 48 else n + 55)%N.

Definition escape (n : N) : string := String "%" (String (upper_hex (n / 16)) (String (upper_hex (n mod 16)) "")).

(** The characters [quote] never escapes. *)
Definition unreserved (c : ascii) : bool :=
  is_alnum c || Ascii.eqb c "_" || Ascii.eqb c "." || Ascii.eqb c "-" || Ascii.eqb c "~".

Definition quote_char (c : ascii) : string :=
  if unreserved c then String c ""
  else if Ascii.eqb c " " then "+"
  else if (code c <? 128)%N then escape (code c)
  else escape (192 + code c / 64) +:+ escape (128 + code c mod 64).

Fixpoint quote_plus (s : string) : string :=
  match s with
  | EmptyString => EmptyString
  | String c s' => quote_char c +:+ quote_plus s'
  end.

Definition encode_field (kv : string * string) : string := quote_plus kv.1 +:+ "=" +:+ quote_plus kv.2.

Definition urlencode (l : list (string * string)) : string := join "&" (encode_field <$> l).

(** ** [int(text)] *)

Definition ascii_space (c : ascii) : bool := in_range 9 13 c || Ascii.eqb c " ".

Fixpoint rstrip_of (p : ascii → bool) (s : string) : string :=
  match s with
  | EmptyString => EmptyString
  | String c s' => let r := rstrip_of p s' in if p c && String.eqb r "" then "" else String c r
  end.

(** Blanks around, a sign, and digits with single underscores between them; at
    most 4,300 digits. *)
Definition int_text (s : string) : res Z :=
  let space := if str_forall (λ c, (code c <? 128)%N) s then ascii_space else is_space in
  let t := rstrip_of space (drop_while space s) in
  let (neg, body) := match t with
                     | String c r => if Ascii.eqb c "-" then (true, r) else if Ascii.eqb c "+" then (false, r) else (false, t)
                     | EmptyString => (false, t)
                     end in
  let groups := split_all "_" body in
  let digits := join "" groups in
  raise_if (negb (forallb (λ g, negb (String.eqb g "") && str_forall is_digit g) groups) || (4300 <? str_len digits))
    (ValueError "invalid literal for int()");;
  Ok (if neg then - digits_value 0 digits else digits_value 0 digits).

(** ** The round trip *)

Lemma unquote_escape c s run :
  unquote_run run (plus_to_space (escape (code c) +:+ s)) = unquote_run (run +:+ String c "") (plus_to_space s).
Proof. destruct c as [[] [] [] [] [] [] [] []]; reflexivity. Qed.

(** The shapes of a quoted character. *)
Lemma quote_char_shape c :
  (utf8_encode (String c "") = String c "" ∧ (quote_char c = String c "" ∧ unreserved c = true ∨ quote_char c = escape (code c)))
  ∨ (c = " "%char ∧ quote_char c = "+")
  ∨ ∃ a b, utf8_encode (String c "") = String a (String b "") ∧ quote_char c = escape (code a) +:+ escape (code b).
Proof.
  destruct c as [[] [] [] [] [] [] [] []];
    first [ left; split; [reflexivity|first [left; split; reflexivity|right; reflexivity]] | right; left; split; reflexivity
          | right; right; do 2 eexists; split; reflexivity ].
Qed.

Lemma unquote_plain c s run : unreserved c = true →
  unquote_run run (plus_to_space (String c s)) = unquote_run (run +:+ String c "") (plus_to_space s).
Proof.
  intros Hc. destruct c as [[] [] [] [] [] [] [] []]; try discriminate Hc; cbn [plus_to_space Ascii.eqb Bool.eqb];
    (destruct (plus_to_space s) as [|a [|b t]]; reflexivity).
Qed.

Lemma unquote_space s run :
  unquote_run run (plus_to_space ("+" +:+ s)) = unquote_run (run +:+ " ") (plus_to_space s).
Proof. cbn [String.append plus_to_space Ascii.eqb Bool.eqb]. by destruct (plus_to_space s) as [|? []]. Qed.

Lemma unquote_run_quote s run :
  unquote_run run (plus_to_space (quote_plus s)) = utf8_decode (run +:+ utf8_encode s).
Proof.
  revert run. induction s as [|c s IH]; intros run; [cbn; by rewrite str_app_nil_r|]. cbn [quote_plus].
  assert (utf8_encode (String c s) = utf8_encode (String c "") +:+ utf8_encode s) as ->
    by (cbn [utf8_encode]; by destruct (code c <? 128)%N).
  destruct (quote_char_shape c) as [[-> [[-> Hu]| ->]]|[[-> ->]|(a&b&->&->)]].
  - cbn [String.append]. rewrite unquote_plain, IH by done. by rewrite str_app_assoc.
  - by rewrite unquote_escape, IH, str_app_assoc.
  - by rewrite unquote_space, IH, str_app_assoc.
  - rewrite str_app_assoc, !unquote_escape, IH, !str_app_assoc. reflexivity.
Qed.

Lemma unquote_plus_quote s : unquote_plus (quote_plus s) = Some s.
Proof. unfold unquote_plus, unquote. rewrite unquote_run_quote. apply utf8_roundtrip. Qed.

(** What [quote_plus] writes. *)
Definition quoted_char (c : ascii) : bool := unreserved c || Ascii.eqb c "+" || Ascii.eqb c "%".

Lemma quoted_escape c : str_forall quoted_char (escape (code c)) = true.
Proof. destruct c as [[] [] [] [] [] [] [] []]; reflexivity. Qed.

Lemma quote_plus_chars s : str_forall quoted_char (quote_plus s) = true.
Proof.
  induction s as [|c s IH]; [done|]. cbn [quote_plus]. rewrite str_forall_app, IH, andb_true_r.
  destruct (quote_char_shape c) as [[_ [[-> Hu]| ->]]|[[-> ->]|(a&b&_&->)]].
  - cbn. unfold quoted_char. by rewrite Hu.
  - apply quoted_escape.
  - done.
  - by rewrite str_forall_app, !quoted_escape.
Qed.

Lemma quoted_no (c : ascii) s : quoted_char c = false → str_forall quoted_char s = true →
  str_forall (λ d, negb (Ascii.eqb c d)) s = true.
Proof.
  intros Hc. apply str_forall_mono. intros d Hd. destruct (Ascii.eqb_spec c d) as [->|]; [congruence|done].
Qed.

Lemma split_all_none c s : str_forall (λ d, negb (Ascii.eqb c d)) s = true → split_all c s = [s] ∧ count_char c s = 0%nat.
Proof.
  induction s as [|d s IH]; [done|]. cbn [str_forall split_all count_char]. rewrite andb_true_iff, negb_true_iff.
  intros [-> H]. destruct (IH H) as [-> ->]. done.
Qed.

Lemma split_all_app c s t : str_forall (λ d, negb (Ascii.eqb c d)) s = true →
  split_all c (s +:+ String c t) = s :: split_all c t ∧ count_char c (s +:+ String c t) = S (count_char c t).
Proof.
  induction s as [|d s IH]; cbn [String.append str_forall split_all count_char].
  - by rewrite Ascii.eqb_refl.
  - rewrite andb_true_iff, negb_true_iff. intros [-> H]. destruct (IH H) as [-> ->]. done.
Qed.

Lemma split_join c l : l ≠ [] → Forall (λ s, str_forall (λ d, negb (Ascii.eqb c d)) s = true) l →
  split_all c (join (String c "") l) = l ∧ S (count_char c (join (String c "") l)) = length l.
Proof.
  intros Hl. induction 1 as [|s l Hs Hf IH]; [done|]. destruct l as [|t l].
  - cbn [join]. destruct (split_all_none _ _ Hs) as [-> ->]. done.
  - change (join (String c "") (s :: t :: l)) with (s +:+ String c (join (String c "") (t :: l))).
    destruct (split_all_app c s (join (String c "") (t :: l)) Hs) as [-> ->]. destruct IH as [-> ->]; done.
Qed.

Lemma encode_field_chars kv : str_forall (λ d, negb (Ascii.eqb "&" d)) (encode_field kv) = true.
Proof.
  unfold encode_field. rewrite !str_forall_app.
  rewrite (quoted_no "&" (quote_plus kv.1)), (quoted_no "&" (quote_plus kv.2)) by (first [done|apply quote_plus_chars]). done.
Qed.

Lemma query_field_encode strict kv : query_field strict (encode_field kv) = Ok [kv].
Proof.
  unfold query_field, encode_field. destruct (String.eqb_spec (quote_plus kv.1 +:+ "=" +:+ quote_plus kv.2) "") as [E|_].
  { exfalso. by destruct (quote_plus kv.1). }
  cbn [andb]. change ("=" +:+ quote_plus kv.2) with (String "=" (quote_plus kv.2)).
  rewrite split_once_app by (apply quoted_no; [done|apply quote_plus_chars]). cbn [mbind res_bind fst snd].
  rewrite !unquote_plus_quote. cbn [of_option mbind res_bind]. by destruct kv.
Qed.

(** [parse_qsl(urlencode(l), ...)] is [l]. *)
Lemma parse_qsl_urlencode strict m l : l ≠ [] → Z.of_nat (length l) <= m → parse_qsl strict m (urlencode l) = Ok l.
Proof.
  intros Hl Hm. unfold parse_qsl, urlencode.
  destruct (split_join "&" (encode_field <$> l)) as [Hs Hc].
  { by destruct l. }
  { apply Forall_fmap, Forall_true. intros kv. exact (encode_field_chars kv). }
  rewrite length_fmap in Hc. rewrite Hs. rewrite (proj2 (Z.ltb_ge _ _)) by lia. cbn [raise_if mbind res_bind].
  assert (res_mapM (query_field strict) (encode_field <$> l) = Ok ((λ kv, [kv]) <$> l)) as ->.
  { clear. induction l as [|kv l IH]; [done|]. cbn [fmap list_fmap res_mapM]. rewrite query_field_encode.
    cbn [mbind res_bind]. change (list_fmap ?f ?x) with (f <$> x) in IH. by rewrite IH. }
  cbn [mbind res_bind]. f_equal. clear. induction l as [|kv l IH]; [done|]. cbn. by f_equal.
Qed.

(** [urlencode] writes no broken escape. *)
Lemma quote_char_escapes c t : bad_escape t = false → bad_escape (quote_char c +:+ t) = false.
Proof.
  intros Ht. destruct c as [[] [] [] [] [] [] [] []]; vm_compute quote_char; cbn; exact Ht.
Qed.

Lemma quote_plus_escapes s t : bad_escape t = false → bad_escape (quote_plus s +:+ t) = false.
Proof.
  intros Ht. induction s as [|c s IH]; [done|]. cbn [quote_plus]. rewrite str_app_assoc. by apply quote_char_escapes.
Qed.

Lemma urlencode_escapes l : bad_escape (urlencode l) = false.
Proof.
  unfold urlencode. induction l as [|kv l IH]; [done|]. destruct l as [|kv' l].
  - cbn [fmap list_fmap join]. unfold encode_field. apply quote_plus_escapes. cbn.
    rewrite <-(str_app_nil_r (quote_plus _)). by apply quote_plus_escapes.
  - cbn [fmap list_fmap] in *. change (join "&" (?a :: ?b :: ?c)) with (a +:+ String "&" (join "&" (b :: c))).
    unfold encode_field at 1. rewrite !str_app_assoc. apply quote_plus_escapes. cbn. by apply quote_plus_escapes.
Qed.

Lemma split_all_length c s : length (split_all c s) = S (count_char c s).
Proof.
  induction s as [|d s IH]; [done|]. cbn [split_all count_char]. destruct (Ascii.eqb c d); [cbn [length]; by rewrite IH|].
  destruct (split_all c s); [done|exact IH].
Qed.

Lemma query_field_length strict f l : query_field strict f = Ok l → (length l ≤ 1)%nat.
Proof.
  unfold query_field. destruct (String.eqb f "" && negb strict); [intros [= <-]; simpl; lia|].
  intros (?&_&H)%res_bind_Ok. apply res_bind_Ok in H as (?&_&H). apply res_bind_Ok in H as (?&_&[= <-]). simpl. lia.
Qed.

Lemma parse_qsl_length strict m qs l : parse_qsl strict m qs = Ok l → Z.of_nat (length l) <= m.
Proof.
  unfold parse_qsl. intros (?&Hm%raise_if_Ok&H)%res_bind_Ok. apply res_bind_Ok in H as (ls&Hls&[= <-]).
  apply Z.ltb_ge in Hm. pose proof (split_all_length "&" qs) as Hl. apply res_mapM_Ok in Hls.
  enough (length (List.concat ls) ≤ length (split_all "&" qs))%nat by lia. clear -Hls.
  induction Hls as [|f l fs ls Hf _ IH]; [done|]. cbn [List.concat length]. rewrite length_app.
  apply query_field_length in Hf. lia.
Qed.

Lemma urlencode_empty l : urlencode l = "" ↔ l = [].
Proof.
  split; [|by intros ->]. destruct l as [|kv [|kv' l]]; [done|unfold urlencode..]; cbn [fmap list_fmap join]; unfold encode_field;
    intros H; exfalso; by destruct (quote_plus kv.1).
Qed.
