(* ===== verification/Todos.v ===== *)
(** * Todo reads

    The exact-base Todo contract of [src/devgraph/storage/todos.py], the storage
    methods [todo_page] and [todo_detail] of [storage/memory.py] that run it, and
    the projections of [src/devgraph/todos.py].

    An order key is the pair [(-priority, id)]; in identifier order the first
    component is [0] for every node, so pairs compare as the code's one-tuples do.
    [heapq.nsmallest(n, it, key)] is [sorted(it, key)[:n]]; it takes the key of an
    element as it receives it, which is when [candidate] computes it. *)

From stdpp Require Import base gmap strings list sorting.
From Stdlib Require Import ZArith Ascii String Decimal DecimalString.
From S2P Require Import Prelude Json Datetime Validation WorkflowContract Model Storage StorageWf StorageReads Redaction UrlQuery.

Local Open Scope Z_scope.

(** ** Text *)

(** [str.lower] on code points below 256. *)
Definition lower_char (c : ascii) : ascii :=
  if in_range 65 90 c || in_range 192 214 c || in_range 216 222 c then ascii_of_N (code c + 32) else c.

Fixpoint py_lower (s : string) : string :=
  match s with
  | EmptyString => EmptyString
  | String c s' => String (lower_char c) (py_lower s')
  end.

(** [needle in text]. *)
Fixpoint has_substring (needle text : string) : bool :=
  String.prefix needle text ||
  match text with
  | EmptyString => false
  | String _ text' => has_substring needle text'
  end.

Lemma has_substring_spec needle text : has_substring needle text = true ↔ ∃ a b, text = a +:+ needle +:+ b.
Proof.
  revert text. assert (∀ x t, String.prefix x t = true ↔ ∃ b, t = x +:+ b) as Hpre.
  { intros x. induction x as [|c x IH]; intros [|d t]; cbn [String.prefix].
    - split; [by exists ""|done].
    - split; [by exists (String d t)|done].
    - split; [done|by intros [b [=]]].
    - destruct (ascii_dec c d) as [->|Hne]; [|split; [done|intros [b [= ? _]]; congruence]]. rewrite IH.
      split; intros [b Hb]; exists b; [by rewrite Hb|by injection Hb]. }
  intros text. induction text as [|c text IH]; cbn [has_substring]; rewrite orb_true_iff, Hpre.
  - split; [intros [[b Hb]|?]; [by exists "", b|done]|]. intros (a&b&Hb). left. exists b. by destruct a.
  - rewrite IH. split.
    + intros [[b Hb]|(a&b&->)]; [by exists "", b|by exists (String c a), b].
    + intros ([|d a]&b&Hb); [left; by exists b|right]. injection Hb as _ ->. by exists a, b.
Qed.

(** [int(s)] of a decimal literal. *)
Definition decimal_int (s : string) : option Z := Z.of_int <$> NilZero.int_of_string s.

(** [s.strip()]. *)
Fixpoint rstrip (s : string) : string :=
  match s with
  | EmptyString => EmptyString
  | String c s' => let r := rstrip s' in if is_space c && String.eqb r "" then "" else String c r
  end.

Definition strip (s : string) : string := rstrip (drop_while is_space s).

(** ** Queries *)

Definition SEARCH_SOURCE_LIMIT : Z := 10000.

Definition STATUSES : list string := ["draft"; "review"; "accepted"; "archived"].

Record TodoQuery := {
  tq_limit : Z;
  tq_after_id : option string;
  tq_status : option string;
  tq_archived : string;
  tq_q : string;
  tq_queue : string;
  tq_order : string;
  tq_after_priority : option string
}.

Definition default_query : TodoQuery :=
  {| tq_limit := 50; tq_after_id := None; tq_status := None; tq_archived := "exclude"; tq_q := "";
     tq_queue := ""; tq_order := "id"; tq_after_priority := None |}.

Definition by_priority (q : TodoQuery) : bool := String.eqb (tq_order q) "priority".
Definition queued (q : TodoQuery) : bool := String.eqb (tq_queue q) "not_started".

(** [re.fullmatch(r"-?(0|[1-9][0-9]{0,18})", s)]. *)
Definition natural_text (s : string) : bool :=
  String.eqb s "0" ||
  match s with
  | String c r => in_range 49 57 c && str_forall is_digit r && (str_len r <=? 18)
  | EmptyString => false
  end.

Definition priority_text (s : string) : bool :=
  natural_text s || match s with String c r => Ascii.eqb c "-" && natural_text r | EmptyString => false end.

Definition search_text_ok (s : string) : bool :=
  (str_len s <=? 200) && str_forall (λ c, negb ((code c <? 32)%N || (code c =? 127)%N)) s.

(** [TodoQuery.__post_init__]. *)
Definition post_init_query (q : TodoQuery) : res TodoQuery :=
  validate_page_limit (tq_limit q);;
  match tq_after_id q with Some a => require_id a;; Ok tt | None => Ok tt end;;
  raise_if (match tq_status q with Some s => negb (str_in s STATUSES) | None => false end)
    (ValueError "invalid_todo_status");;
  raise_if (negb (str_in (tq_archived q) ["include"; "exclude"; "only"])) (ValueError "invalid_todo_archive_filter");;
  raise_if (negb (str_in (tq_queue q) [""; "not_started"]) || negb (str_in (tq_order q) ["id"; "priority"]))
    (ValueError "invalid_todo_order_or_queue");;
  raise_if (by_priority q
            && negb (Bool.eqb (match tq_after_id q with Some a => truthy a | None => false end)
                              (bool_decide (is_Some (tq_after_priority q)))))
    (ValueError "incomplete_todo_priority_cursor");;
  match tq_after_priority q with
  | Some p =>
      raise_if (negb (by_priority q) || negb (priority_text p)
                || negb (match decimal_int p with Some z => priority_ok z | None => false end))
        (ValueError "invalid_todo_priority_cursor")
  | None => Ok tt
  end;;
  raise_if (negb (search_text_ok (tq_q q))) (ValueError "invalid_todo_search");;
  Ok q.

(** ** Selection *)

Record TodoPage := {
  tp_nodes : list NodeRecord;
  tp_counts : gmap string Z;
  tp_matching : Z;
  tp_remaining : Z
}.

Definition exact_todo (n : NodeRecord) : bool :=
  String.eqb (nr_label n) "Todo" && bool_decide (nr_properties n !! "kind" = Some (VStr "Todo")).

Definition order_key_leb (a b : Z * string) : bool :=
  (a.1 <? b.1) || ((a.1 =? b.1) && String.leb a.2 b.2).
Definition order_key_ltb (a b : Z * string) : bool :=
  (a.1 <? b.1) || ((a.1 =? b.1) && String.ltb a.2 b.2).

Definition order_key (q : TodoQuery) (n : NodeRecord) : res (Z * string) :=
  if by_priority q then
    match nr_properties n !! "priority" with
    | Some (VInt p) =>
        if priority_ok p then Ok (- p, nr_id n) else Err (StorageUnavailable "invalid Todo priority")
    | _ => Err (StorageUnavailable "invalid Todo priority")
    end
  else Ok (0, nr_id n).

Definition after_todo (q : TodoQuery) (n : NodeRecord) : res bool :=
  match tq_after_id q with
  | None => Ok true
  | Some a =>
      c ← (if by_priority q
           then p ← of_option (TypeError "int") (tq_after_priority q ≫= decimal_int); Ok (- p, a)
           else Ok (0, a));
      k ← order_key q n;
      Ok (order_key_ltb c k)
  end.

Definition archive_admits (q : TodoQuery) (n : NodeRecord) : bool :=
  negb (String.eqb (tq_archived q) "exclude" && nr_archived n)
  && negb (String.eqb (tq_archived q) "only" && negb (nr_archived n)).

Definition bounded (q : TodoQuery) : bool := truthy (tq_q q) || truthy (tq_queue q) || by_priority q.

Definition text_admits (q : TodoQuery) (title : string) (n : NodeRecord) : bool :=
  has_substring (py_lower (tq_q q)) (py_lower (redact_text title))
  || has_substring (py_lower (tq_q q)) (py_lower (nr_id n)).

Definition status_admits (q : TodoQuery) (status : string) : bool :=
  match tq_status q with Some s => String.eqb status s | None => true end.

Section selection.
  Context {PY : Pydantic}.

(** [validate_progress] on the stored values. *)
Definition stored_progress (n : NodeRecord) : res (option Progress) :=
  match prop (nr_properties n) "progress" with
  | VNone => Ok None
  | VStr p =>
      match prop (nr_properties n) "workflow_json" with
      | VStr w => validate_progress (Some p) (Some w)
      | v =>
          r ← Progress_of p;
          if value_truthy v then Err (ValueError "invalid_workflow_state") else Ok (Some r)
      end
  | _ => Err (ValueError "not a valid Progress")
  end.

Definition not_started (n : NodeRecord) : res bool :=
  v ← rethrow (λ e, is_value_error e || is_type_error e)
        (λ _, StorageUnavailable "invalid Todo workflow or progress") (stored_progress n);
  Ok (negb (nr_archived n) && bool_decide (v = Some NOT_STARTED)).

(** The variables [candidates] closes over, with what it has yielded and its keys. *)
Record Scan := {
  sc_counts : gmap string Z;
  sc_matching : Z;
  sc_remaining : Z;
  sc_scanned : Z;
  sc_seen : gset string;
  sc_found : list ((Z * string) * NodeRecord)
}.

Definition empty_counts : gmap string Z := list_to_map ((λ k, (k, 0)) <$> "total" :: STATUSES).

Definition new_scan : Scan :=
  {| sc_counts := empty_counts; sc_matching := 0; sc_remaining := 0; sc_scanned := 0; sc_seen := ∅;
     sc_found := [] |}.

Definition tally (status : string) (m : gmap string Z) : gmap string Z :=
  alter Z.succ status (alter Z.succ "total" m).

(** One iteration of [candidates], and the key of what it yields. *)
Definition candidate (q : TodoQuery) (sc : Scan) (n : NodeRecord) : res Scan :=
  if negb (exact_todo n) || negb (archive_admits q n) then Ok sc
  else
    let scanned := sc_scanned sc + 1 in
    raise_if (bounded q && (SEARCH_SOURCE_LIMIT <? scanned)) (StorageUnavailable "Todo search capacity exceeded");;
    raise_if (bool_decide (nr_id n ∈ sc_seen sc)) (StorageUnavailable "ambiguous Todo identity");;
    let sc := {| sc_counts := sc_counts sc; sc_matching := sc_matching sc; sc_remaining := sc_remaining sc;
                 sc_scanned := scanned; sc_seen := {[nr_id n]} ∪ sc_seen sc; sc_found := sc_found sc |} in
    waiting ← (if queued q then not_started n else Ok true);
    if negb waiting then Ok sc
    else
      title ← of_option (StorageUnavailable "malformed Todo title") (nr_properties n !! "title" ≫= get_str);
      if negb (text_admits q title n) then Ok sc
      else
        status ← match nr_properties n !! "status" ≫= get_str with
                 | Some s => if str_in s STATUSES then Ok s
                             else Err (StorageUnavailable "malformed Todo status")
                 | None => Err (StorageUnavailable "malformed Todo status")
                 end;
        let counts := tally status (sc_counts sc) in
        if negb (status_admits q status) then
          Ok {| sc_counts := counts; sc_matching := sc_matching sc; sc_remaining := sc_remaining sc;
                sc_scanned := sc_scanned sc; sc_seen := sc_seen sc; sc_found := sc_found sc |}
        else
          later ← after_todo q n;
          if (later : bool) then
            k ← order_key q n;
            Ok {| sc_counts := counts; sc_matching := sc_matching sc + 1; sc_remaining := sc_remaining sc + 1;
                  sc_scanned := sc_scanned sc; sc_seen := sc_seen sc; sc_found := sc_found sc ++ [(k, n)] |}
          else
            Ok {| sc_counts := counts; sc_matching := sc_matching sc + 1; sc_remaining := sc_remaining sc;
                  sc_scanned := sc_scanned sc; sc_seen := sc_seen sc; sc_found := sc_found sc |}.

Fixpoint candidates (q : TodoQuery) (sc : Scan) (records : list NodeRecord) : res Scan :=
  match records with
  | [] => Ok sc
  | n :: rest => sc ← candidate q sc n; candidates q sc rest
  end.

(** [nsmallest(n, ..., key)]. *)
Definition nsmallest (n : nat) (l : list ((Z * string) * NodeRecord)) : list NodeRecord :=
  snd <$> take n (stable_sort (λ a b, order_key_leb a.1 b.1) l).

(** ** The page check *)

Fixpoint res_any {A} (f : A → res bool) (l : list A) : res bool :=
  match l with
  | [] => Ok false
  | x :: l' => b ← f x; if (b : bool) then Ok true else res_any f l'
  end.

(** The condition of the [any(...)] over the nodes of a page. *)
Definition misplaced (q : TodoQuery) (n : NodeRecord) : res bool :=
  if negb (exact_todo n) then Ok true
  else
    later ← after_todo q n;
    if negb later then Ok true
    else
      waiting ← (if queued q then not_started n else Ok true);
      Ok (negb waiting
          || match tq_status q with
             | Some s => negb (bool_decide (nr_properties n !! "status" = Some (VStr s)))
             | None => false
             end
          || (String.eqb (tq_archived q) "exclude" && nr_archived n)
          || (String.eqb (tq_archived q) "only" && negb (nr_archived n))).

Definition count (m : gmap string Z) (k : string) : Z := default 0 (m !! k).

(** [page_counts]. *)
Fixpoint page_counts (m : gmap string Z) (l : list NodeRecord) : res (gmap string Z) :=
  match l with
  | [] => Ok m
  | n :: l' =>
      match nr_properties n !! "status" ≫= get_str with
      | Some s => if str_in s STATUSES then page_counts (alter Z.succ s m) l'
                  else Err (StorageUnavailable "invalid Todo page status")
      | None => Err (StorageUnavailable "invalid Todo page status")
      end
  end.

Definition sum_counts (m : gmap string Z) : Z := foldr (λ k z, count m k + z) 0 STATUSES.

Definition validate_todo_page (q : TodoQuery) (page : TodoPage) : res TodoPage :=
  let m := tp_counts page in
  raise_if (negb (bool_decide (dom m = list_to_set ("total" :: STATUSES)))
            || existsb (λ kv, kv.2 <? 0) (map_to_list m)
            || negb (sum_counts m =? count m "total"))
    (StorageUnavailable "invalid Todo counts");;
  raise_if (tp_matching page <? 0) (StorageUnavailable "invalid Todo matching count");;
  let expected := match tq_status q with Some s => count m s | None => count m "total" end in
  raise_if (negb (tp_matching page =? expected)) (StorageUnavailable "invalid Todo matching count");;
  raise_if (negb ((0 <=? tp_remaining page) && (tp_remaining page <=? expected))
            || (bool_decide (tq_after_id q = None) && negb (tp_remaining page =? expected))
            || negb (Z.of_nat (length (tp_nodes page)) =? Z.min (tq_limit q + 1) (tp_remaining page)))
    (StorageUnavailable "Todo page changed during read; retry");;
  keys ← res_mapM (order_key q) (tp_nodes page);
  bad ← (if bool_decide (keys = stable_sort order_key_leb (remove_dups keys))
         then res_any (misplaced q) (tp_nodes page) else Ok true);
  raise_if bad (StorageUnavailable "invalid Todo identity or ordering");;
  pc ← page_counts (list_to_map ((λ k, (k, 0)) <$> STATUSES)) (tp_nodes page);
  raise_if (existsb (λ k, count m k <? count pc k) STATUSES)
    (StorageUnavailable "Todo counts changed during read; retry");;
  Ok page.

Definition select_todo_page (records : list NodeRecord) (q : TodoQuery) : res TodoPage :=
  sc ← candidates q new_scan records;
  validate_todo_page q
    {| tp_nodes := nsmallest (Z.to_nat (tq_limit q + 1)) (sc_found sc); tp_counts := sc_counts sc;
       tp_matching := sc_matching sc; tp_remaining := sc_remaining sc |}.

(** [MemoryGraphStorage.todo_page] and [todo_detail]. *)
Definition todo_page (q : TodoQuery) (s : Store) : res TodoPage := select_todo_page (all_nodes s) q.

Definition todo_detail (todo_id : string) (s : Store) : res (option NodeRecord) :=
  require_id todo_id;;
  Ok (match nodes s !! ("Todo", todo_id) with
      | Some n => if exact_todo n then Some n else None
      | None => None
      end).

End selection.

(** ** Projection *)

Section projection.
  Context {PY : Pydantic} {CK : Clock}.

(** The keyword arguments of [TodoQuery]; [limit] has at most three
    digits. *)
Definition limit_text (s : string) : bool :=
  str_forall is_digit s && (1 <=? str_len s) && (str_len s <=? 3).

Definition QUERY_FIELDS : list string :=
  ["limit"; "after_id"; "status"; "archived"; "q"; "queue"; "order"; "after_priority"].

Definition query_of_pairs (pairs : list (string * string)) : res TodoQuery :=
  let values := list_to_map (M := gmap string string) pairs in
  raise_if (has_dup pairs.*1 || existsb (λ k, negb (str_in k QUERY_FIELDS)) pairs.*1) (ValueError "");;
  limit ← match values !! "limit" with
          | None => Ok (tq_limit default_query)
          | Some l => if limit_text l then Ok (digits_value 0 l) else Err (ValueError "")
          end;
  post_init_query
    {| tq_limit := limit; tq_after_id := values !! "after_id"; tq_status := values !! "status";
       tq_archived := default "exclude" (values !! "archived"); tq_q := default "" (values !! "q");
       tq_queue := default "" (values !! "queue"); tq_order := default "id" (values !! "order");
       tq_after_priority := values !! "after_priority" |}.

Definition parse_todo_query (text : string) : res TodoQuery :=
  if String.eqb text "" then Ok default_query
  else
    rethrow (λ e, is_value_error e || is_type_error e) (λ _, InvalidTodoFilter "invalid_todo_filter")
      (raise_if ((4096 <? str_len text) || bad_escape text) (ValueError "");;
       pairs ← parse_qsl true 8 text;
       r ← query_of_pairs pairs;
       post_init_query
         {| tq_limit := tq_limit r; tq_after_id := tq_after_id r; tq_status := tq_status r;
            tq_archived := tq_archived r; tq_q := strip (tq_q r); tq_queue := tq_queue r;
            tq_order := tq_order r; tq_after_priority := tq_after_priority r |}).

Definition project_todo (description : bool) (n : NodeRecord) : res value :=
  raise_if (negb (exact_todo n)) (StorageUnavailable "invalid Todo identity");;
  c ← rethrow (λ e, is_value_error e || is_type_error e) (λ _, StorageUnavailable "malformed Todo record")
        (validate_canonical_work_object_properties "Todo" (nr_id n) (nr_properties n) (nr_archived n) true);
  let text k := default "" (get_str (prop c k)) in
  Ok (VDict (mk_dict
    ([("kind", VStr "Todo"); ("id", VStr (nr_id n)); ("title", VStr (redact_text (text "title")));
      ("status", prop c "status"); ("priority", VStr (print_int (get_int (prop c "priority"))));
      ("version", VStr (print_int (get_int (prop c "version")))); ("created_at", prop c "created_at");
      ("updated_at", prop c "updated_at"); ("archived", VBool (nr_archived n))]
     ++ if description then [("description", VStr (redact_text (text "description")))] else []))).

(** [nodes[-1]] and the cursors it gives; there is one when there is more. *)
Definition next_cursor (q : TodoQuery) (page : TodoPage) : option NodeRecord :=
  if tq_limit q <? Z.of_nat (length (tp_nodes page)) then last (take (Z.to_nat (tq_limit q)) (tp_nodes page))
  else None.

Definition opt_text (o : option string) : value := match o with Some x => VStr x | None => VNone end.

Definition build_todos (q : TodoQuery) : M Store value :=
  page ← reads (todo_page q);
  now ← utc_now;
  items ← lift (res_mapM (project_todo false) (take (Z.to_nat (tq_limit q)) (tp_nodes page)));
  let next := next_cursor q page in
  mret (VDict (mk_dict
    ([("schema", VStr "devgraph.todos.v1"); ("generated_at", VStr (isoformat now)); ("items", VList items);
      ("next_after_id", opt_text (nr_id <$> next)); ("has_more", VBool (bool_decide (is_Some next)));
      ("counts", dict_of_props (VInt <$> tp_counts page)); ("matching_count", VInt (tp_matching page))]
     ++ if by_priority q then
          [("next_after_priority",
            opt_text ((λ n, print_int (get_int (prop (nr_properties n) "priority"))) <$> next))]
        else []))).

Definition read_todo (todo_id : string) (s : Store) : res value :=
  o ← todo_detail todo_id s;
  n ← of_option (KeyError "Todo not found") o;
  project_todo true n.

End projection.

(** ** The reference selection

    What a page must hold, without the scan: the eligible Todos, those shown, those
    that match the status, and those after the cursor in order. *)

Section reference.
  Context {PY : Pydantic} {PL : PydanticLaws}.

Definition todo_title (n : NodeRecord) : string := default "" (nr_properties n !! "title" ≫= get_str).
Definition todo_status (n : NodeRecord) : string := default "" (nr_properties n !! "status" ≫= get_str).

Definition sort_key (q : TodoQuery) (n : NodeRecord) : Z * string :=
  (if by_priority q then - get_int (prop (nr_properties n) "priority") else 0, nr_id n).

Definition todo_eligible (q : TodoQuery) (n : NodeRecord) : bool := exact_todo n && archive_admits q n.

Definition progress_readable (q : TodoQuery) (n : NodeRecord) : bool := negb (queued q) || is_ok (not_started n).

Definition in_queue (q : TodoQuery) (n : NodeRecord) : bool :=
  if queued q then match not_started n with Ok b => b | Err _ => false end else true.

Definition shown (q : TodoQuery) (n : NodeRecord) : bool :=
  todo_eligible q n && in_queue q n && text_admits q (todo_title n) n.

Definition matching (q : TodoQuery) (n : NodeRecord) : bool := shown q n && status_admits q (todo_status n).

Definition cursor (q : TodoQuery) : option (Z * string) :=
  (λ a, (if by_priority q then - default 0 (tq_after_priority q ≫= decimal_int) else 0, a)) <$> tq_after_id q.

Definition later (q : TodoQuery) (n : NodeRecord) : bool :=
  match cursor q with Some c => order_key_ltb c (sort_key q n) | None => true end.

Definition remaining (q : TodoQuery) (n : NodeRecord) : bool := matching q n && later q n.

Definition select (p : NodeRecord → bool) (l : list NodeRecord) : list NodeRecord := filter (λ n, p n = true) l.

(** The matching Todos after the cursor, in the order of the query. *)
Definition listing (q : TodoQuery) (l : list NodeRecord) : list NodeRecord :=
  stable_sort (λ a b, order_key_leb (sort_key q a) (sort_key q b)) (select (remaining q) l).

(** Whether a node counts under a key of [counts]. *)
Definition counted (k : string) (n : NodeRecord) : bool := String.eqb k "total" || String.eqb k (todo_status n).

Definition reference_counts (l : list NodeRecord) : gmap string Z :=
  list_to_map ((λ k, (k, Z.of_nat (length (select (counted k) l)))) <$> "total" :: STATUSES).

Definition reference_page (q : TodoQuery) (l : list NodeRecord) : TodoPage :=
  {| tp_nodes := take (Z.to_nat (tq_limit q + 1)) (listing q l);
     tp_counts := reference_counts (select (shown q) l);
     tp_matching := Z.of_nat (length (select (matching q) l));
     tp_remaining := Z.of_nat (length (select (remaining q) l)) |}.

(** The bound of a search and readable progress in the queue. *)
Definition complete (q : TodoQuery) (l : list NodeRecord) : Prop :=
  (bounded q = true → Z.of_nat (length (select (todo_eligible q) l)) <= SEARCH_SOURCE_LIMIT)
  ∧ Forall (λ n, progress_readable q n = true) (select (todo_eligible q) l).

(** ** What a stored Todo has *)

Record readable (n : NodeRecord) : Prop := {
  rd_title : ∃ t, nr_properties n !! "title" = Some (VStr t);
  rd_status : ∃ st, nr_properties n !! "status" = Some (VStr st) ∧ str_in st STATUSES = true;
  rd_priority : ∃ p, nr_properties n !! "priority" = Some (VInt p) ∧ priority_ok p = true
}.

Lemma stored_readable s n : store_wf s → n ∈ all_nodes s → exact_todo n = true → readable n.
Proof.
  intros Hs Hn He. apply elem_of_all_nodes in Hn; [|done].
  apply andb_true_iff in He as [Hl%String.eqb_eq _].
  destruct (sw_nodes s Hs _ _ Hn) as [_ _ Hc]. destruct (Hc (not_elem_of_nil _) ltac:(simpl; by rewrite Hl)) as [_ _ Hf _].
  destruct Hf as [_ [t Ht] _ [st [Hst _]] _ _ _ [p [Hp ?]] _ _].
  rewrite known_lookup in Ht, Hst, Hp by done. constructor; eauto.
  - exists (status_value st). split; [done|]. by destruct st.
  - exists p. split; [done|]. unfold priority_ok. apply andb_true_iff. rewrite !Z.leb_le. lia.
Qed.

(** Reads that can only raise a [ValueError] or a subclass. *)
Class Valued {A} (r : res A) : Prop := valued e : r = Err e → is_value_error e = true.

#[local] Instance valued_Ok {A} (a : A) : Valued (Ok a).
Proof. done. Qed.
#[local] Instance valued_bind {A B} (r : res A) (f : A → res B) : Valued r → (∀ a, Valued (f a)) → Valued (r ≫= f).
Proof. intros Hr Hf e [He|(a&_&He)]%res_bind_Err; [by apply Hr|by eapply Hf]. Qed.
#[local] Instance valued_invalid {A} m : Valued (@invalid m A).
Proof. by intros e [= <-]. Qed.
#[local] Instance valued_check m b : Valued (check m b).
Proof. unfold check, raise_if. destruct b; [done|]. by intros e [= <-]. Qed.
#[local] Instance valued_mapM {A B} (f : A → res B) l : (∀ a, Valued (f a)) → Valued (res_mapM f l).
Proof. intros Hf. induction l; simpl; apply _. Qed.

Lemma valued_raw e A : is_value_error e = true → Valued (@Err A e).
Proof. by intros ? ? [= <-]. Qed.

Ltac valued_steps :=
  repeat first [apply _ | progress intros | apply valued_bind | apply valued_mapM | by apply valued_raw | progress case_match].

#[local] Instance valued_state v : Valued (WorkflowState_of v).
Proof.
  unfold WorkflowState_of, forbid_extra, optional, required, as_reviews, as_literal, as_text, as_str, as_dict.
  valued_steps.
Qed.

#[local] Instance valued_progress p w : Valued (validate_progress p w).
Proof.
  unfold validate_progress, Progress_of, stage_progress, raise_if, decode_state.
  valued_steps.
Qed.

Lemma valued_stored n : Valued (stored_progress n).
Proof.
  unfold stored_progress, Progress_of.
  valued_steps.
Qed.

Lemma not_started_err n e : not_started n = Err e → ∃ m, e = StorageUnavailable m.
Proof.
  unfold not_started. destruct (stored_progress n) as [v|x] eqn:E; [done|]. simpl.
  rewrite (valued_stored _ _ E). intros [= <-]. eauto.
Qed.

Lemma order_key_readable q n : readable n → order_key q n = Ok (sort_key q n).
Proof.
  intros [_ _ (p&Hp&Hok)]. unfold order_key, sort_key, prop. destruct (by_priority q); [|done].
  by rewrite Hp, Hok.
Qed.

(** What [post_init_query] leaves. *)
Record query_facts (q : TodoQuery) : Prop := {
  qf_limit : 1 <= tq_limit q <= 100;
  qf_status st : tq_status q = Some st → str_in st STATUSES = true;
  qf_cursor : by_priority q = true → is_Some (tq_after_id q) → ∃ p, tq_after_priority q ≫= decimal_int = Some p
}.

Lemma post_init_query_facts q q' : post_init_query q = Ok q' → q' = q ∧ query_facts q.
Proof.
  unfold post_init_query. intros (l&Hl&H)%res_bind_Ok.
  apply res_bind_Ok in H as (?&Ha&H).
  do 4 (apply res_bind_Ok in H as (?&?%raise_if_Ok&H)). apply res_bind_Ok in H as (?&Hp&H).
  apply res_bind_Ok in H as (?&_&[= <-]). split; [done|]. constructor.
  - unfold validate_page_limit, page_limit_ok in Hl. destruct (_ && _) eqn:E in Hl; [|done].
    apply andb_true_iff in E. rewrite !Z.leb_le in E. lia.
  - intros st Hst. rewrite Hst in *. by apply negb_false_iff.
  - intros Ho [a Hi]. rewrite Hi, Ho in *. apply res_bind_Ok in Ha as (?&Ha&_).
    apply require_id_Ok in Ha as [-> Ha]. assert (truthy a = true) as Ht by (destruct a; [done|reflexivity]).
    rewrite Ht in *. destruct (tq_after_priority q) as [p|] eqn:E; [|done]. simpl in *.
    apply raise_if_Ok in Hp. rewrite !orb_false_iff, !negb_false_iff in Hp. destruct Hp as [_ Hp].
    destruct (decimal_int p); [eauto|done].
Qed.

Lemma after_todo_readable q n : query_facts q → readable n → after_todo q n = Ok (later q n).
Proof.
  intros [_ _ Hc] Hn. unfold after_todo, later, cursor. destruct (tq_after_id q) as [a|] eqn:E; [|done].
  simpl. rewrite (order_key_readable q n Hn). destruct (by_priority q); [|done].
  destruct (Hc eq_refl) as [p ->]; [eauto|]. done.
Qed.

(** ** The scan *)

Definition step_ok (q : TodoQuery) (sc : Scan) (n : NodeRecord) : bool :=
  negb (todo_eligible q n)
  || (negb (bounded q && (SEARCH_SOURCE_LIMIT <? sc_scanned sc + 1)) && negb (bool_decide (nr_id n ∈ sc_seen sc))
      && progress_readable q n).

Definition advance (q : TodoQuery) (sc : Scan) (n : NodeRecord) : Scan :=
  {| sc_counts := if shown q n then tally (todo_status n) (sc_counts sc) else sc_counts sc;
     sc_matching := sc_matching sc + Z.b2z (matching q n);
     sc_remaining := sc_remaining sc + Z.b2z (remaining q n);
     sc_scanned := sc_scanned sc + Z.b2z (todo_eligible q n);
     sc_seen := if todo_eligible q n then {[nr_id n]} ∪ sc_seen sc else sc_seen sc;
     sc_found := sc_found sc ++ if remaining q n then [(sort_key q n, n)] else [] |}.

Lemma candidate_spec q sc n : query_facts q → (exact_todo n = true → readable n) →
  if step_ok q sc n then candidate q sc n = Ok (advance q sc n)
  else ∃ m, candidate q sc n = Err (StorageUnavailable m).
Proof.
  intros Hq Hn. unfold step_ok, candidate, advance, remaining, matching, shown.
  assert (negb (exact_todo n) || negb (archive_admits q n) = negb (todo_eligible q n)) as -> by (by rewrite <-negb_andb).
  destruct (todo_eligible q n) eqn:El; simpl; [|by rewrite !Z.add_0_r, app_nil_r; destruct sc].
  apply andb_true_iff in El as [He _]. specialize (Hn He) as Hrd. destruct (Hn He) as [(t&Ht) (st&Hst&Hin) _].
  destruct (bounded q && _); [simpl; eauto|]. destruct (bool_decide (nr_id n ∈ _)); [simpl; eauto|]. simpl.
  assert (todo_title n = t) as -> by (unfold todo_title; by rewrite Ht).
  assert (todo_status n = st) as -> by (unfold todo_status; by rewrite Hst).
  rewrite Ht, Hst. simpl. rewrite Hin.
  assert (in_queue q n = match (if queued q then not_started n else Ok true) with Ok b => b | Err _ => false end) as ->
    by (unfold in_queue; by destruct (queued q)).
  assert (progress_readable q n = is_ok (if queued q then not_started n else Ok true)) as ->
    by (unfold progress_readable; by destruct (queued q)).
  destruct (if queued q then not_started n else Ok true) as [w|e] eqn:Ew; simpl.
  2:{ destruct (queued q); [|done]. apply not_started_err in Ew as [m ->]. eauto. }
  destruct w; simpl; [|by rewrite !Z.add_0_r, app_nil_r].
  destruct (text_admits q t n); simpl; [|by rewrite !Z.add_0_r, app_nil_r].
  destruct (status_admits q st); simpl; [|by rewrite !Z.add_0_r, app_nil_r].
  rewrite (after_todo_readable q n Hq Hrd), (order_key_readable q n Hrd). simpl.
  destruct (later q n); simpl; [done|]. by rewrite !Z.add_0_r, app_nil_r.
Qed.

Fixpoint steps_ok (q : TodoQuery) (sc : Scan) (l : list NodeRecord) : bool :=
  match l with
  | [] => true
  | n :: l' => step_ok q sc n && steps_ok q (advance q sc n) l'
  end.

Lemma candidates_spec q sc l : query_facts q → (∀ n, n ∈ l → exact_todo n = true → readable n) →
  if steps_ok q sc l then candidates q sc l = Ok (foldl (advance q) sc l)
  else ∃ m, candidates q sc l = Err (StorageUnavailable m).
Proof.
  intros Hq. revert sc. induction l as [|n l IH]; intros sc Hr; simpl; [done|].
  pose proof (candidate_spec q sc n Hq (Hr n ltac:(left))) as Hc.
  destruct (step_ok q sc n); simpl.
  - rewrite Hc. simpl. apply IH. intros m Hm. apply Hr. by right.
  - destruct Hc as [m ->]. simpl. eauto.
Qed.

Lemma select_cons p n l : select p (n :: l) = (if p n then [n] else []) ++ select p l.
Proof. unfold select. rewrite filter_cons. destruct (p n); by simpl. Qed.

(** The scan passes on a list without repeated identifiers exactly when it is
    [complete]. *)
Lemma steps_ok_spec q sc l :
  NoDup (nr_id <$> select (todo_eligible q) l) → (∀ n, n ∈ select (todo_eligible q) l → nr_id n ∉ sc_seen sc) →
  (bounded q = true → sc_scanned sc <= SEARCH_SOURCE_LIMIT) →
  steps_ok q sc l = true ↔
  (bounded q = true → sc_scanned sc + Z.of_nat (length (select (todo_eligible q) l)) <= SEARCH_SOURCE_LIMIT)
  ∧ Forall (λ n, progress_readable q n = true) (select (todo_eligible q) l).
Proof.
  revert sc. induction l as [|n l IH]; intros sc Hd Hseen Hb; simpl.
  - rewrite Z.add_0_r. split; [|done]. intros _. split; [done|constructor].
  - rewrite select_cons in *. unfold step_ok. destruct (todo_eligible q n) eqn:El; simpl in *.
    2:{ rewrite IH; unfold advance; rewrite ?El; simpl; rewrite ?Z.add_0_r; done. }
    apply NoDup_cons in Hd as [Hni Hd].
    assert (nr_id n ∉ sc_seen sc) as Hns by (apply Hseen; left).
    rewrite bool_decide_false by done. simpl. rewrite andb_true_r, !andb_true_iff, negb_true_iff, Forall_cons.
    destruct (bounded q && (SEARCH_SOURCE_LIMIT <? sc_scanned sc + 1)) eqn:Eb.
    { split; [naive_solver|]. apply andb_true_iff in Eb as [-> Eb%Z.ltb_lt]. intros [Hc _]. specialize (Hc eq_refl). lia. }
    rewrite IH; [|done| |]; unfold advance; rewrite El; cbn [sc_scanned sc_seen Z.b2z].
    + replace (sc_scanned sc + Z.of_nat (S (length (select (todo_eligible q) l))))
        with (sc_scanned sc + 1 + Z.of_nat (length (select (todo_eligible q) l))) by lia. naive_solver.
    + intros m Hm [Heq%elem_of_singleton|Hin]%elem_of_union.
      * apply Hni. rewrite <-Heq. by apply list_elem_of_fmap_2.
      * apply (Hseen m); [by right|done].
    + intros Hbq. rewrite Hbq in Eb. by apply Z.ltb_ge in Eb.
Qed.

(** The variables after a scan. *)
Lemma scan_result q l sc : foldl (advance q) sc l =
  {| sc_counts := foldl (λ m n, tally (todo_status n) m) (sc_counts sc) (select (shown q) l);
     sc_matching := sc_matching sc + Z.of_nat (length (select (matching q) l));
     sc_remaining := sc_remaining sc + Z.of_nat (length (select (remaining q) l));
     sc_scanned := sc_scanned sc + Z.of_nat (length (select (todo_eligible q) l));
     sc_seen := list_to_set (nr_id <$> reverse (select (todo_eligible q) l)) ∪ sc_seen sc;
     sc_found := sc_found sc ++ ((λ n, (sort_key q n, n)) <$> select (remaining q) l) |}.
Proof.
  revert sc. induction l as [|n l IH]; intros sc; simpl.
  { rewrite !Z.add_0_r, app_nil_r, (left_id_L ∅ (∪)). by destruct sc. }
  rewrite IH. unfold advance. rewrite !select_cons. cbn [sc_counts sc_matching sc_remaining sc_scanned sc_seen sc_found].
  f_equal.
  - by destruct (shown q n).
  - destruct (matching q n); simpl; lia.
  - destruct (remaining q n); simpl; lia.
  - destruct (todo_eligible q n); simpl; lia.
  - destruct (todo_eligible q n); simpl; [|done]. rewrite reverse_cons, fmap_app, list_to_set_app_L. simpl. set_solver.
  - destruct (remaining q n); simpl; [by rewrite <-app_assoc|by rewrite app_nil_r].
Qed.

(** ** Counts *)

Definition count_map (f : string → Z) (ks : list string) : gmap string Z := list_to_map ((λ k, (k, f k)) <$> ks).

Lemma count_map_lookup f ks k : count_map f ks !! k = if str_in k ks then Some (f k) else None.
Proof.
  unfold count_map. induction ks as [|x ks IH]; [done|]. rewrite fmap_cons, list_to_map_cons. destruct (decide (k = x)) as [->|Hne].
  - rewrite lookup_insert_eq. unfold str_in. rewrite bool_decide_true by left. done.
  - rewrite lookup_insert_ne, IH by done. unfold str_in. do 2 case_bool_decide; set_solver.
Qed.

Lemma count_map_alter f ks k :
  alter Z.succ k (count_map f ks) = count_map (λ x, f x + Z.b2z (String.eqb x k)) ks.
Proof.
  apply map_eq. intros x. rewrite lookup_alter, !count_map_lookup. case_decide as E.
  - subst. rewrite String.eqb_refl. by destruct (str_in x ks).
  - rewrite (proj2 (String.eqb_neq x k)) by congruence. simpl. rewrite Z.add_0_r. done.
Qed.

Lemma count_map_ext f g ks : (∀ k, k ∈ ks → f k = g k) → count_map f ks = count_map g ks.
Proof.
  intros Hf. apply map_eq. intros k. rewrite !count_map_lookup. destruct (str_in k ks) eqn:E; [|done].
  apply str_in_spec in E. by rewrite Hf.
Qed.

Lemma total_not_status k : str_in k STATUSES = true → k ≠ "total".
Proof. intros Hk ->. vm_compute in Hk. done. Qed.

Lemma tally_counts f l : Forall (λ n, str_in (todo_status n) STATUSES = true) l →
  foldl (λ m n, tally (todo_status n) m) (count_map f ("total" :: STATUSES)) l
  = count_map (λ k, f k + Z.of_nat (length (select (counted k) l))) ("total" :: STATUSES).
Proof.
  revert f. induction l as [|n l IH]; intros f Hl.
  { simpl. apply count_map_ext. intros. simpl. lia. }
  apply Forall_cons in Hl as [Hn Hl]. cbn [foldl]. unfold tally at 2.
  rewrite !count_map_alter, IH by done. apply count_map_ext. intros k _. rewrite select_cons, length_app.
  assert (Z.of_nat (length (if counted k n then [n] else [])) = Z.b2z (String.eqb k "total") + Z.b2z (String.eqb k (todo_status n))).
  { unfold counted. pose proof (total_not_status _ Hn). destruct (String.eqb_spec k "total"), (String.eqb_spec k (todo_status n)); [congruence|done..]. }
  lia.
Qed.

(** ** The page check accepts what the scan builds *)

Lemma order_key_leb_spec a b : order_key_leb a b = true ↔ a = b ∨ order_key_ltb a b = true.
Proof.
  unfold order_key_leb, order_key_ltb. destruct a as [x s], b as [y t]. simpl.
  rewrite !orb_true_iff, !andb_true_iff, str_leb_spec, Z.ltb_lt, Z.eqb_eq. split.
  - intros [?|[-> [->|?]]]; auto.
  - intros [[= -> ->]|[?|[??]]]; auto.
Qed.

Lemma order_key_ltb_trans a b c : order_key_ltb a b = true → order_key_ltb b c = true → order_key_ltb a c = true.
Proof.
  unfold order_key_ltb. rewrite !orb_true_iff, !andb_true_iff, !Z.ltb_lt, !Z.eqb_eq.
  intros [?|[??]] [?|[??]]; [left; lia|left; lia|left; lia|right]. split; [lia|by eapply str_ltb_trans].
Qed.

Lemma order_key_ltb_irrefl a : order_key_ltb a a = false.
Proof. unfold order_key_ltb. by rewrite Z.ltb_irrefl, str_ltb_irrefl, andb_false_r. Qed.

Lemma order_key_total a b : order_key_leb a b = false → order_key_leb b a = true.
Proof.
  unfold order_key_leb. rewrite orb_false_iff, andb_false_iff, orb_true_iff, andb_true_iff, Z.ltb_ge, Z.eqb_neq, Z.ltb_lt, Z.eqb_eq.
  intros [? [?|Hs]]; [left; lia|]. destruct (decide (b.1 < a.1)); [by left|]. right. split; [lia|].
  destruct (String.leb_total a.2 b.2); congruence.
Qed.

#[local] Instance order_key_lt_trans : Transitive (λ a b, order_key_ltb a b = true).
Proof. intros a b c. apply order_key_ltb_trans. Qed.

Lemma order_key_leb_trans a b c : order_key_leb a b = true → order_key_leb b c = true → order_key_leb a c = true.
Proof.
  rewrite !order_key_leb_spec. intros [->|?] [->|?]; auto. right. by eapply order_key_ltb_trans.
Qed.

(** Sorting records by key is sorting the pairs. *)
Lemma stable_sort_fmap {A B} (le : A → A → bool) (le' : B → B → bool) (f : A → B) l :
  (∀ x y, le' (f x) (f y) = le x y) → stable_sort le' (f <$> l) = f <$> stable_sort le l.
Proof.
  intros Hf. induction l as [|x l IH]; [done|]. rewrite fmap_cons. simpl. rewrite IH. generalize (stable_sort le l).
  intros k. induction k as [|y k IHk]; [done|]. rewrite fmap_cons. simpl. rewrite Hf. destruct (le x y); [done|].
  rewrite fmap_cons. by f_equal.
Qed.

Lemma nsmallest_found q n l :
  nsmallest n ((λ x, (sort_key q x, x)) <$> l)
  = take n (stable_sort (λ a b, order_key_leb (sort_key q a) (sort_key q b)) l).
Proof.
  unfold nsmallest. rewrite (stable_sort_fmap (λ a b, order_key_leb (sort_key q a) (sort_key q b))) by done.
  rewrite <-fmap_take, <-list_fmap_compose. by rewrite list_fmap_id.
Qed.

(** Sorting a strictly increasing list leaves it. *)
Lemma stable_sort_strict {A} (le : A → A → bool) l : StronglySorted (λ a b, le a b = true) l → stable_sort le l = l.
Proof.
  induction 1 as [|x l _ IH Hx]; [done|]. simpl. rewrite IH. destruct l as [|y l]; [done|]. simpl.
  apply Forall_cons in Hx as [-> _]. done.
Qed.

Definition before (q : TodoQuery) (a b : NodeRecord) : Prop := order_key_ltb (sort_key q a) (sort_key q b) = true.

#[local] Instance before_dec q a b : Decision (before q a b).
Proof. unfold before. apply _. Defined.
#[local] Instance before_trans q : Transitive (before q).
Proof. intros a b c. apply order_key_ltb_trans. Qed.

Lemma listing_perm q l : listing q l ≡ₚ select (remaining q) l.
Proof. apply stable_sort_perm. Qed.

Lemma elem_of_select p l n : n ∈ select p l ↔ p n = true ∧ n ∈ l.
Proof. unfold select. by rewrite list_elem_of_filter. Qed.

Lemma remaining_eligible q n : remaining q n = true → todo_eligible q n = true.
Proof. unfold remaining, matching, shown. rewrite !andb_true_iff. tauto. Qed.

Lemma nodup_select (p p' : NodeRecord → bool) l : (∀ n, p n = true → p' n = true) →
  NoDup (nr_id <$> select p' l) → NoDup (nr_id <$> select p l).
Proof.
  intros Hp. induction l as [|n l IH]; [done|]. rewrite !select_cons, !fmap_app.
  pose proof (Hp n) as Hpn.
  destruct (p n); [rewrite Hpn by done|destruct (p' n); simpl; [intros [_ ?]%NoDup_cons|]; by auto].
  simpl. intros [Hni Hd]%NoDup_cons. constructor; [|by apply IH]. intros (m&Hm&Hin)%list_elem_of_fmap.
  apply Hni. apply list_elem_of_fmap. exists m. split; [done|]. apply elem_of_select in Hin as [??]. apply elem_of_select. auto.
Qed.

Lemma listing_sorted q l : NoDup (nr_id <$> select (todo_eligible q) l) → StronglySorted (before q) (listing q l).
Proof.
  intros Hd.
  assert (StronglySorted (λ a b, order_key_leb (sort_key q a) (sort_key q b) = true) (listing q l)) as Hs.
  { apply stable_sort_sorted; [intros; by apply order_key_total|intros; by eapply order_key_leb_trans]. }
  assert (NoDup (nr_id <$> listing q l)) as Hn.
  { rewrite listing_perm. eapply nodup_select; [|exact Hd]. apply remaining_eligible. }
  revert Hs Hn. generalize (listing q l). intros k. induction 1 as [|x k Hs IH Hx]; [constructor|].
  rewrite fmap_cons. intros [Hni Hk]%NoDup_cons. constructor; [by apply IH|].
  rewrite Forall_forall in *. intros y Hy. specialize (Hx y Hy). apply order_key_leb_spec in Hx as [Heq|?]; [|done].
  exfalso. apply Hni. unfold sort_key in Heq. injection Heq as _ ->. by apply list_elem_of_fmap_2.
Qed.

Lemma length_select_and (p p' : NodeRecord → bool) l :
  length (select (λ n, p n && p' n) l) = length (select p' (select p l)).
Proof.
  induction l as [|n l IH]; [done|]. rewrite !select_cons. destruct (p n); simpl; [|done].
  rewrite select_cons. destruct (p' n); simpl; lia.
Qed.

Lemma length_select_mono (p p' : NodeRecord → bool) l : (∀ n, p n = true → p' n = true) →
  (length (select p l) ≤ length (select p' l))%nat.
Proof.
  intros Hp. induction l as [|n l IH]; [done|]. rewrite !select_cons, !length_app.
  specialize (Hp n). destruct (p n); [rewrite Hp by done|destruct (p' n)]; simpl; lia.
Qed.

Definition counts_of (l : list NodeRecord) (k : string) : Z := Z.of_nat (length (select (counted k) l)).

Lemma reference_counts_map l : reference_counts l = count_map (counts_of l) ("total" :: STATUSES).
Proof. done. Qed.

Lemma count_reference l k : str_in k ("total" :: STATUSES) = true → count (reference_counts l) k = counts_of l k.
Proof. intros Hk. unfold count. rewrite reference_counts_map, count_map_lookup, Hk. done. Qed.

Lemma select_all (p : NodeRecord → bool) l : Forall (λ n, p n = true) l → select p l = l.
Proof. intros Hp. induction Hp as [|n l Hn _ IH]; [done|]. by rewrite select_cons, Hn, IH. Qed.

Lemma counts_total l : counts_of l "total" = Z.of_nat (length l).
Proof. unfold counts_of. rewrite select_all; [done|]. by apply Forall_forall. Qed.

Lemma counts_sum l : Forall (λ n, str_in (todo_status n) STATUSES = true) l →
  sum_counts (reference_counts l) = counts_of l "total".
Proof.
  intros Hl. unfold sum_counts, STATUSES. cbn [foldr]. rewrite !count_reference, counts_total by done. unfold counts_of.
  induction Hl as [|n l Hn _ IH]; [done|]. rewrite !select_cons, !length_app. cbn [length].
  apply str_in_spec in Hn. unfold STATUSES in Hn. rewrite !elem_of_cons, elem_of_nil in Hn. unfold counted in *.
  destruct Hn as [->|[->|[->|[->|[]]]]]; simpl in *; lia.
Qed.

(** The Todos of a scan have readable properties. *)
Definition all_readable (l : list NodeRecord) : Prop := ∀ n, n ∈ l → exact_todo n = true → readable n.

Lemma readable_status n : readable n → str_in (todo_status n) STATUSES = true.
Proof. intros [_ (st&Hst&Hin) _]. unfold todo_status. by rewrite Hst. Qed.

Lemma eligible_readable q l n : all_readable l → n ∈ l → todo_eligible q n = true → readable n.
Proof. intros Hr Hn [He _]%andb_true_iff. by apply Hr. Qed.

Lemma shown_eligible q n : shown q n = true → todo_eligible q n = true.
Proof. unfold shown. rewrite !andb_true_iff. tauto. Qed.

Lemma shown_statuses q l : all_readable l → Forall (λ n, str_in (todo_status n) STATUSES = true) (select (shown q) l).
Proof.
  intros Hr. apply Forall_forall. intros n [Hs Hn]%elem_of_select. apply readable_status.
  eapply eligible_readable; [done|done|by apply shown_eligible].
Qed.

Lemma matching_count q l : query_facts q →
  Z.of_nat (length (select (matching q) l))
  = match tq_status q with Some s => counts_of (select (shown q) l) s | None => counts_of (select (shown q) l) "total" end.
Proof.
  intros Hq. unfold matching. rewrite length_select_and. unfold status_admits. destruct (tq_status q) as [st|] eqn:E.
  - apply (qf_status q Hq) in E. apply total_not_status in E. unfold counts_of. f_equal. f_equal.
    unfold select. apply list_filter_iff. intros n. unfold counted. rewrite (proj2 (String.eqb_neq st "total")) by done.
    simpl. by rewrite String.eqb_sym.
  - rewrite counts_total, select_all; [done|]. by apply Forall_forall.
Qed.

(** ** No record of a page is misplaced *)

Lemma misplaced_false q n : query_facts q → readable n → remaining q n = true → misplaced q n = Ok false.
Proof.
  intros Hq Hr. unfold remaining, matching, shown, todo_eligible, archive_admits. rewrite !andb_true_iff, !negb_true_iff.
  intros [[[[[He [Ha Ho]] Hw] _] Hs] Hl]. unfold misplaced. rewrite He. simpl.
  rewrite (after_todo_readable q n Hq Hr), Hl. simpl.
  assert ((if queued q then not_started n else Ok true) = Ok true) as ->.
  { unfold in_queue in Hw. destruct (queued q); [|done]. destruct (not_started n); [by subst|done]. }
  simpl. rewrite Ha, Ho, !orb_false_r. f_equal. unfold status_admits in Hs. destruct (tq_status q) as [st|]; [|done].
  apply String.eqb_eq in Hs as <-. destruct Hr as [_ (st&Hst&_) _]. unfold todo_status. rewrite Hst. simpl.
  by rewrite bool_decide_true.
Qed.

Lemma res_any_false {A} (f : A → res bool) l : Forall (λ x, f x = Ok false) l → res_any f l = Ok false.
Proof. induction 1 as [|x l Hx _ IH]; [done|]. simpl. by rewrite Hx. Qed.

Lemma page_counts_spec f l : Forall readable l →
  page_counts (count_map f STATUSES) l = Ok (count_map (λ k, f k + counts_of l k) STATUSES).
Proof.
  intros Hl. revert f. induction Hl as [|n l Hn Hl IH]; intros f; simpl.
  { f_equal. apply count_map_ext. intros. unfold counts_of. simpl. lia. }
  pose proof (readable_status n Hn) as Hs. destruct Hn as [_ (st&Hst&Hin) _].
  rewrite Hst. simpl. rewrite Hin, count_map_alter, IH. f_equal. apply count_map_ext. intros k Hk.
  apply str_in_spec, total_not_status in Hk. unfold counts_of. rewrite select_cons, length_app. unfold counted at 2.
  unfold todo_status. rewrite Hst. cbn [default mbind option_bind get_str].
  rewrite (proj2 (String.eqb_neq k "total")) by done. simpl. destruct (String.eqb k st); simpl; lia.
Qed.

Lemma existsb_false {A} (f : A → bool) l : Forall (λ x, f x = false) l → existsb f l = false.
Proof. induction 1 as [|x l Hx _ IH]; [done|]. simpl. by rewrite Hx. Qed.

Lemma counts_ok q l : all_readable l →
  negb (bool_decide (dom (reference_counts (select (shown q) l)) = list_to_set ("total" :: STATUSES)))
  || existsb (λ kv, kv.2 <? 0) (map_to_list (reference_counts (select (shown q) l)))
  || negb (sum_counts (reference_counts (select (shown q) l)) =? count (reference_counts (select (shown q) l)) "total") = false.
Proof.
  intros Hr. rewrite counts_sum, count_reference, Z.eqb_refl, orb_false_r by (done || by apply shown_statuses).
  apply orb_false_iff. split.
  - rewrite bool_decide_true; [done|]. apply set_eq. intros k.
    rewrite elem_of_dom, reference_counts_map, count_map_lookup, elem_of_list_to_set.
    destruct (str_in k _) eqn:E; [apply str_in_spec in E; split; eauto|]. split; [by intros []|].
    intros Hk%str_in_spec. congruence.
  - apply existsb_false, Forall_forall. intros [k z] Hk%elem_of_map_to_list.
    rewrite reference_counts_map, count_map_lookup in Hk. destruct (str_in k _); [|done]. injection Hk as <-.
    apply Z.ltb_ge. unfold counts_of. simpl. lia.
Qed.

Lemma listing_readable q l : all_readable l → Forall (λ n, readable n ∧ remaining q n = true) (listing q l).
Proof.
  intros Hr. rewrite listing_perm. apply Forall_forall. intros n [Hn Hl]%elem_of_select.
  split; [|done]. eapply eligible_readable; [done|done|by apply remaining_eligible].
Qed.

Lemma remove_dups_id {A} `{EqDecision A} (l : list A) : NoDup l → remove_dups l = l.
Proof.
  induction 1 as [|x l Hx _ IH]; [done|]. simpl. destruct (decide_rel elem_of x l); [done|]. by rewrite IH.
Qed.

(** The keys of a strictly ordered page are the sorted set of themselves. *)
Lemma keys_sorted q l : StronglySorted (before q) l →
  sort_key q <$> l = stable_sort order_key_leb (remove_dups (sort_key q <$> l)).
Proof.
  intros Hs.
  assert (StronglySorted (λ a b, order_key_ltb a b = true) (sort_key q <$> l)) as Hk.
  { induction Hs as [|n l _ IH Hn]; [constructor|]. constructor; [done|]. by apply Forall_fmap. }
  assert (NoDup (sort_key q <$> l)) as Hd.
  { clear Hs. induction Hk as [|k ks _ IH Hk]; constructor; [|done]. intros Hin. rewrite Forall_forall in Hk.
    specialize (Hk _ Hin). by rewrite order_key_ltb_irrefl in Hk. }
  rewrite remove_dups_id by done. symmetry. apply stable_sort_strict.
  clear Hd. induction Hk as [|k ks _ IH Hk]; constructor; [done|]. eapply Forall_impl; [exact Hk|].
  intros k' Hk'. apply order_key_leb_spec. by right.
Qed.

Lemma StronglySorted_take {A} (R : A → A → Prop) n l : StronglySorted R l → StronglySorted R (take n l).
Proof.
  intros Hs. revert n. induction Hs as [|x l _ IH Hx]; intros [|n]; simpl; try constructor; [done|].
  by apply Forall_take.
Qed.

Lemma page_keys q l : Forall readable l → res_mapM (order_key q) l = Ok (sort_key q <$> l).
Proof.
  intros Hl. apply res_mapM_Ok. induction Hl; constructor; [by apply order_key_readable|done].
Qed.

(** The number of a page's Todos with one status is at most the count. *)
Lemma page_within q l k : counts_of (take (Z.to_nat (tq_limit q + 1)) (listing q l)) k <= counts_of (select (shown q) l) k.
Proof.
  unfold counts_of. apply Nat2Z.inj_le. set (n := Z.to_nat _).
  assert (∀ L, length (select (counted k) (take n L)) ≤ length (select (counted k) L))%nat as Ht.
  { intros L. rewrite <-(take_drop n L) at 2. unfold select. rewrite filter_app, length_app. lia. }
  etransitivity; [apply Ht|].
  assert (length (select (counted k) (listing q l)) = length (select (counted k) (select (remaining q) l))) as ->.
  { unfold select at 1 2. by rewrite listing_perm. }
  rewrite <-!length_select_and. apply length_select_mono. intros m. unfold remaining, matching.
  rewrite !andb_true_iff. tauto.
Qed.

Lemma res_bind_intro {A B} (m : res A) (k : A → res B) a r : m = Ok a → k a = r → (m ≫= k) = r.
Proof. by intros -> <-. Qed.

Lemma raise_if_pass b e : b = false → raise_if b e = Ok tt.
Proof. by intros ->. Qed.

Lemma remaining_bounds q l : query_facts q →
  let m := Z.of_nat (length (select (matching q) l)) in
  let r := Z.of_nat (length (select (remaining q) l)) in
  negb ((0 <=? r) && (r <=? m)) || (bool_decide (tq_after_id q = None) && negb (r =? m))
  || negb (Z.of_nat (length (take (Z.to_nat (tq_limit q + 1)) (listing q l))) =? Z.min (tq_limit q + 1) r) = false.
Proof.
  intros Hq m r. pose proof (qf_limit q Hq) as Hlim. rewrite !orb_false_iff. split_and!.
  - apply negb_false_iff, andb_true_iff. rewrite !Z.leb_le. split; [lia|]. unfold m, r. apply Nat2Z.inj_le, length_select_mono.
    intros n. unfold remaining. rewrite andb_true_iff. tauto.
  - destruct (tq_after_id q) as [a|] eqn:E; simpl; [done|]. apply negb_false_iff, Z.eqb_eq. unfold m, r, remaining.
    f_equal. f_equal. unfold select. apply list_filter_iff. intros n. unfold later, cursor. rewrite E. simpl.
    by rewrite andb_true_r.
  - apply negb_false_iff, Z.eqb_eq. rewrite length_take. rewrite (Permutation_length (listing_perm q l)). lia.
Qed.

Lemma validate_reference q l : query_facts q → all_readable l → NoDup (nr_id <$> select (todo_eligible q) l) →
  validate_todo_page q (reference_page q l) = Ok (reference_page q l).
Proof.
  intros Hq Hr Hd. pose proof (listing_readable q l Hr) as Hl.
  apply (Forall_take _ (Z.to_nat (tq_limit q + 1))) in Hl.
  assert (Forall readable (take (Z.to_nat (tq_limit q + 1)) (listing q l))) as Hread
    by (eapply Forall_impl; [exact Hl|naive_solver]).
  unfold validate_todo_page, reference_page. cbn [tp_counts tp_nodes tp_matching tp_remaining].
  eapply res_bind_intro; [apply raise_if_pass; by apply counts_ok|].
  eapply res_bind_intro; [apply raise_if_pass, Z.ltb_ge; lia|].
  assert (match tq_status q with
          | Some s => count (reference_counts (select (shown q) l)) s
          | None => count (reference_counts (select (shown q) l)) "total"
          end = Z.of_nat (length (select (matching q) l))) as ->.
  { rewrite matching_count by done. destruct (tq_status q) as [st|] eqn:E; apply count_reference; [|done].
    apply (qf_status q Hq) in E. apply str_in_spec. right. by apply str_in_spec. }
  eapply res_bind_intro; [apply raise_if_pass; by rewrite Z.eqb_refl|].
  eapply res_bind_intro; [apply raise_if_pass; by apply remaining_bounds|].
  eapply res_bind_intro; [by apply page_keys|].
  eapply res_bind_intro.
  { rewrite bool_decide_true; [|apply keys_sorted, StronglySorted_take, listing_sorted; done].
    apply res_any_false. eapply Forall_impl; [exact Hl|]. intros n [??]. by apply misplaced_false. }
  cbn [raise_if mbind res_bind].
  eapply res_bind_intro; [apply (page_counts_spec (λ _, 0)); done|].
  eapply res_bind_intro; [|done]. apply raise_if_pass, existsb_false, Forall_forall. intros k Hk.
  apply Z.ltb_ge. unfold count at 1. rewrite count_map_lookup, (proj2 (str_in_spec _ _) Hk). simpl.
  rewrite count_reference by (apply str_in_spec; by right). apply page_within.
Qed.

Lemma select_spec q l : query_facts q → all_readable l → NoDup (nr_id <$> select (todo_eligible q) l) →
  (complete q l → select_todo_page l q = Ok (reference_page q l))
  ∧ (¬ complete q l → ∃ m, select_todo_page l q = Err (StorageUnavailable m)).
Proof.
  intros Hq Hr Hd. pose proof (candidates_spec q new_scan l Hq Hr) as Hc.
  pose proof (steps_ok_spec q new_scan l Hd) as Hs. unfold new_scan at 1 2 4 in Hs. cbn [sc_seen sc_scanned] in Hs.
  specialize (Hs ltac:(set_solver) ltac:(unfold SEARCH_SOURCE_LIMIT; lia)). rewrite Z.add_0_l in Hs. fold (complete q l) in Hs.
  unfold select_todo_page. destruct (steps_ok q new_scan l).
  - split; [intros _|intros Hn; exfalso; apply Hn; by apply Hs]. rewrite Hc. cbn [mbind res_bind].
    rewrite scan_result. cbn [sc_counts sc_matching sc_remaining sc_found new_scan].
    unfold empty_counts. fold (count_map (λ _, 0) ("total" :: STATUSES)).
    rewrite tally_counts by (by apply shown_statuses). rewrite app_nil_l, nsmallest_found, !Z.add_0_l.
    apply (validate_reference q l Hq Hr Hd).
  - split; [intros Hcm; apply Hs in Hcm; done|]. intros _. destruct Hc as [m ->]. by exists m.
Qed.

(** ** Printed priorities as cursors *)

Lemma of_uint_acc_bound d a : Zpos a * 10 ^ Z.of_nat (Decimal.nb_digits d) <= Zpos (Pos.of_uint_acc d a).
Proof.
  revert a. induction d; intros a; cbn [Decimal.nb_digits Pos.of_uint_acc]; [simpl; lia|..];
    rewrite Nat2Z.inj_succ, Z.pow_succ_r by lia; etransitivity; [|apply IHd| |apply IHd| |apply IHd| |apply IHd|
      |apply IHd| |apply IHd| |apply IHd| |apply IHd| |apply IHd| |apply IHd]; nia.
Qed.

Lemma string_length_digits d : String.length (NilEmpty.string_of_uint d) = Decimal.nb_digits d.
Proof. by induction d; simpl; [|f_equal..]. Qed.

Lemma natural_text_pos p : Zpos p <= 2 ^ 63 → natural_text (NilZero.string_of_uint (Pos.to_uint p)) = true.
Proof.
  intros Hp. pose proof (DecimalPos.Unsigned.of_to p) as Ho.
  pose proof (DecimalPos.Unsigned.to_uint_nonzero p) as Hz.
  assert (Decimal.unorm (Pos.to_uint p) = Pos.to_uint p) as Hu.
  { rewrite <-DecimalN.Unsigned.to_of. unfold N.of_uint. by rewrite Ho. }
  pose proof (unorm_numeral (Pos.to_uint p)) as (_&_&H0). rewrite Hu in H0. clear Hu.
  assert (∀ d a, Pos.of_uint_acc d a = p → (Decimal.nb_digits d <= 18)%nat) as Hlen.
  { intros d a <-. pose proof (of_uint_acc_bound d a) as Hb.
    destruct (decide (Decimal.nb_digits d <= 18)%nat) as [|Hd]; [done|].
    assert (10 ^ 19 <= 10 ^ Z.of_nat (Decimal.nb_digits d)) by (apply Z.pow_le_mono_r; lia). nia. }
  destruct (Pos.to_uint p) as [|d|d|d|d|d|d|d|d|d|d]; simpl in Ho; try done.
  { destruct d; done. }
  all: injection Ho as Ho; apply Hlen in Ho; unfold natural_text, NilZero.string_of_uint;
    apply orb_true_iff; right; simpl; rewrite string_of_uint_digits; simpl;
    unfold str_len; rewrite string_length_digits; apply Z.leb_le; lia.
Qed.

Lemma print_priority p : priority_ok p = true → priority_text (print_int p) = true ∧ decimal_int (print_int p) = Some p.
Proof.
  unfold priority_ok, SIGNED_64_MIN, SIGNED_64_MAX. rewrite andb_true_iff, !Z.leb_le. intros Hp. split.
  - unfold print_int, priority_text. destruct p as [|p|p]; [done|..]; simpl Z.to_int; cbn [NilZero.string_of_int].
    + by rewrite natural_text_pos by lia.
    + rewrite natural_text_pos by lia. by rewrite orb_true_r.
  - unfold decimal_int, print_int. rewrite NilZero.isi; [cbn [fmap option_fmap option_map]; by rewrite DecimalZ.of_to|..];
      destruct p as [|p|p]; simpl; try done; intros [= H]; by apply DecimalPos.Unsigned.to_uint_nonnil in H.
Qed.

(** ** The next page *)

Definition next_query (q : TodoQuery) (n : NodeRecord) : TodoQuery :=
  {| tq_limit := tq_limit q; tq_after_id := Some (nr_id n); tq_status := tq_status q; tq_archived := tq_archived q;
     tq_q := tq_q q; tq_queue := tq_queue q; tq_order := tq_order q;
     tq_after_priority := if by_priority q then Some (print_int (get_int (prop (nr_properties n) "priority"))) else None |}.

Lemma next_query_valid q n : post_init_query q = Ok q → readable n → _ID_PATTERN (nr_id n) = true →
  post_init_query (next_query q n) = Ok (next_query q n).
Proof.
  unfold post_init_query, next_query, by_priority. intros H [_ _ (p&Hp&Hok)] Hid.
  cbn [tq_limit tq_after_id tq_status tq_archived tq_q tq_queue tq_order tq_after_priority].
  apply res_bind_Ok in H as (?&Hl&H). eapply res_bind_intro; [exact Hl|].
  apply res_bind_Ok in H as (?&_&H). eapply res_bind_intro; [unfold require_id; rewrite Hid; reflexivity|].
  do 3 (apply res_bind_Ok in H as ([]&Hg&H); eapply res_bind_intro; [exact Hg|]; clear Hg).
  apply res_bind_Ok in H as (?&_&H). apply res_bind_Ok in H as (?&_&H). apply res_bind_Ok in H as ([]&Hg&_).
  assert (truthy (nr_id n) = true) as -> by (destruct (nr_id n); [done|reflexivity]).
  destruct (print_priority p Hok) as [Ht Hi]. unfold prop. rewrite Hp.
  destruct (String.eqb (tq_order q) "priority"); cbn [from_option Datatypes.id get_int]; [rewrite Ht, Hi, Hok|];
    (eapply res_bind_intro; [reflexivity|]); (eapply res_bind_intro; [reflexivity|]); rewrite Hg; reflexivity.
Qed.

#[local] Instance before_antisymm q : AntiSymm (=) (before q).
Proof.
  intros a b Ha Hb. exfalso. assert (before q a a) as H by (by etrans). unfold before in H.
  by rewrite order_key_ltb_irrefl in H.
Qed.

Lemma later_next q n m : readable n → later (next_query q n) m = true ↔ before q n m.
Proof.
  intros [_ _ (p&Hp&Hok)]. unfold later, cursor, before, sort_key, next_query, by_priority.
  cbn [tq_after_id tq_order tq_after_priority fmap option_fmap option_map]. unfold prop. rewrite Hp. cbn [from_option Datatypes.id get_int].
  destruct (String.eqb (tq_order q) "priority"); [|done].
  destruct (print_priority p Hok) as [_ Hi]. cbn [mbind option_bind]. by rewrite Hi.
Qed.

Lemma later_trans q n m : later q n = true → before q n m → later q m = true.
Proof. unfold later, before. destruct (cursor q); [|done]. apply order_key_ltb_trans. Qed.

Lemma listing_next q l n : NoDup (nr_id <$> select (todo_eligible q) l) → readable n →
  last (take (Z.to_nat (tq_limit q)) (listing q l)) = Some n →
  listing (next_query q n) l = drop (Z.to_nat (tq_limit q)) (listing q l).
Proof.
  intros Hd Hr Hl. pose proof (listing_sorted q l Hd) as Hs.
  assert (later q n = true) as Hn.
  { apply last_Some_elem_of, subseteq_take in Hl. rewrite listing_perm in Hl.
    apply elem_of_select in Hl as [Hl _]. by apply andb_true_iff in Hl as [_ ?]. }
  rewrite <-(sorted_cut (before q) (listing q l) _ n); [| |done|done].
  2:{ intros a Ha. unfold before in Ha. by rewrite order_key_ltb_irrefl in Ha. }
  apply (StronglySorted_unique (before q)).
  - change (before q) with (before (next_query q n)). apply listing_sorted. exact Hd.
  - by apply StronglySorted_filter.
  - rewrite listing_perm, listing_perm. unfold select. rewrite list_filter_filter.
    erewrite list_filter_iff; [done|]. intros m. unfold remaining. rewrite !andb_true_iff, later_next by done.
    change (matching (next_query q n) m) with (matching q m).
    split; [|tauto]. intros [Hm Hb]. eauto using later_trans.
Qed.

Lemma todo_ids_distinct q s : store_wf s → NoDup (nr_id <$> select (todo_eligible q) (all_nodes s)).
Proof.
  intros Hs. pose proof (all_nodes_keys s Hs) as Hk. induction (all_nodes s) as [|n l IH]; [constructor|].
  apply NoDup_cons in Hk as [Hn Hk]. rewrite select_cons, fmap_app. destruct (todo_eligible q n) eqn:El; [|by apply IH].
  constructor; [|by apply IH]. intros (m&Hm&[Em Hin]%elem_of_select)%list_elem_of_fmap. apply Hn.
  apply list_elem_of_fmap. exists m. split; [|done].
  apply andb_true_iff in El as [[El%String.eqb_eq _]%andb_true_iff _].
  apply andb_true_iff in Em as [[Em%String.eqb_eq _]%andb_true_iff _]. unfold nr_key. congruence.
Qed.

Lemma decide_complete q l : complete q l ∨ ¬ complete q l.
Proof.
  unfold complete. destruct (bounded q), (decide (Z.of_nat (length (select (todo_eligible q) l)) <= SEARCH_SOURCE_LIMIT)),
    (decide (Forall (λ n, progress_readable q n = true) (select (todo_eligible q) l))); naive_solver.
Qed.

Lemma stored_all_readable s : store_wf s → all_readable (all_nodes s).
Proof. intros Hs n. by apply stored_readable. Qed.

End reference.

(** ** Properties *)

Section properties.
  Context {PY : Pydantic} {PL : PydanticLaws}.

(** C28: [MemoryGraphStorage.todo_page] implements its reference: on a
    well-formed store and a validated query it returns exactly the first
    [limit + 1] matching Todos after the cursor in the query's order, with exact
    counts per status, matching and remaining, and the page check never refuses
    it; the only refusals are a search over more than 10,000 Todos and an
    unreadable progress in the queue, both as [StorageUnavailable]. *)
Theorem todo_page_exact q s :
  store_wf s → post_init_query q = Ok q →
  (complete q (all_nodes s) → todo_page q s = Ok (reference_page q (all_nodes s)))
  ∧ (¬ complete q (all_nodes s) → ∃ m, todo_page q s = Err (StorageUnavailable m)).
Proof.
  intros Hs [_ Hq]%post_init_query_facts. apply select_spec; [done|by apply stored_all_readable|by apply todo_ids_distinct].
Qed.

(** Todo pages continue: when [build_todos] reports more, the query with the
    cursor it prints (the identifier, and the decimal priority in priority order)
    validates and its listing is exactly what the page left out, with the same
    counts; when it reports no more, the page held the whole listing. *)
Theorem todo_pages_continue q s page :
  store_wf s → post_init_query q = Ok q → todo_page q s = Ok page →
  match next_cursor q page with
  | None => tp_nodes page = listing q (all_nodes s) ∧ Z.of_nat (length (tp_nodes page)) <= tq_limit q
  | Some n =>
      post_init_query (next_query q n) = Ok (next_query q n)
      ∧ listing q (all_nodes s)
        = take (Z.to_nat (tq_limit q)) (tp_nodes page) ++ listing (next_query q n) (all_nodes s)
      ∧ ∃ page', todo_page (next_query q n) s = Ok page'
          ∧ tp_nodes page' = take (Z.to_nat (tq_limit q + 1)) (listing (next_query q n) (all_nodes s))
          ∧ tp_counts page' = tp_counts page ∧ tp_matching page' = tp_matching page
          ∧ tp_remaining page' = tp_remaining page - tq_limit q
  end.
Proof.
  intros Hs Hpi Hpage. pose proof (post_init_query_facts _ _ Hpi) as [_ Hq].
  pose proof (qf_limit q Hq) as Hlim. pose proof (stored_all_readable s Hs) as Hr.
  pose proof (todo_ids_distinct q s Hs) as Hd.
  destruct (select_spec q (all_nodes s) Hq Hr Hd) as [Hok Hno]. unfold todo_page in *.
  destruct (decide_complete q (all_nodes s)) as [Hc|Hc]; [|destruct (Hno Hc); congruence].
  rewrite (Hok Hc) in Hpage. injection Hpage as <-. unfold next_cursor. cbn [tp_nodes reference_page].
  replace (Z.to_nat (tq_limit q + 1)) with (S (Z.to_nat (tq_limit q))) by lia.
  rewrite take_take, (Nat.min_l (Z.to_nat (tq_limit q))), length_take by lia.
  destruct (Z.ltb_spec (tq_limit q) (Z.of_nat (S (Z.to_nat (tq_limit q)) `min` length (listing q (all_nodes s))))) as [Hm|Hm].
  - destruct (last (take (Z.to_nat (tq_limit q)) (listing q (all_nodes s)))) as [n|] eqn:El.
    2:{ apply last_None, (f_equal length) in El. rewrite length_take in El. simpl in El. lia. }
    assert (n ∈ listing q (all_nodes s)) as Hn by (by eapply subseteq_take, last_Some_elem_of).
    pose proof (proj1 (Forall_forall _ _) (listing_readable q _ Hr) n Hn) as [Hrn _].
    rewrite listing_perm in Hn. apply elem_of_select in Hn as [_ Hn].
    assert (_ID_PATTERN (nr_id n) = true) as Hid.
    { apply elem_of_all_nodes in Hn; [|done]. by destruct (sw_nodes s Hs _ _ Hn). }
    pose proof (next_query_valid q n Hpi Hrn Hid) as Hnext.
    pose proof (listing_next q _ n Hd Hrn El) as Hlist.
    destruct (post_init_query_facts _ _ Hnext) as [_ Hq'].
    destruct (select_spec (next_query q n) (all_nodes s) Hq' Hr Hd) as [Hok' _].
    split; [done|]. split; [by rewrite Hlist, take_drop|].
    exists (reference_page (next_query q n) (all_nodes s)). split; [by apply Hok'|].
    split; [cbn [reference_page tp_nodes next_query tq_limit]; f_equal; lia|]. split; [done|]. split; [done|].
    cbn [reference_page tp_remaining]. rewrite <-!(Permutation_length (listing_perm _ _)), Hlist, length_drop. lia.
  - rewrite take_ge by lia. split; [done|]. lia.
Qed.

End properties.

(** ** Witnesses *)

Section witnesses.

#[local] Existing Instance reference_pydantic.
#[local] Existing Instance reference_pydantic_laws.
#[local] Existing Instance epoch_clock.

Definition ex_todo (i t : string) (p : Z) (pr : string) : call :=
  call_create_node "Todo" i (to_node_properties
    {| kind := KTodo; id := i; title := t; description := ""; status := DRAFT; created_at := epoch;
       updated_at := epoch; version := 1; artifact_ids := []; external_link_ids := []; priority := p;
       workflow_json := None; progress := Some pr; archived := false; progress_record_id := None;
       progress_migration_json := None |}).

Definition ex_todos : Store :=
  run_calls [ex_todo "a" "Write" 1 "not_started"; ex_todo "b" "Read" 5 "not_started";
             ex_todo "c" "token=Write" 9 "not_started"; ex_todo "d" "rewrite" 5 "not_started";
             ex_todo "e" "write" 7 "done"] empty_store.

Definition ex_query : TodoQuery :=
  {| tq_limit := 1; tq_after_id := None; tq_status := Some "draft"; tq_archived := "exclude"; tq_q := "write";
     tq_queue := "not_started"; tq_order := "priority"; tq_after_priority := None |}.

Lemma ex_todos_wf : store_wf ex_todos.
Proof. apply run_calls_keeps; [by vm_compute|apply empty_store_wf]. Qed.

Lemma todo_page_exact_witness : (nr_id <$> listing ex_query (all_nodes ex_todos)) = ["d"; "a"]
  ∧ todo_page ex_query ex_todos = Ok (reference_page ex_query (all_nodes ex_todos)).
Proof.
  split; [by vm_compute|].
  apply (proj1 (todo_page_exact ex_query ex_todos ex_todos_wf ltac:(by vm_compute))).
  split; [intros _; by vm_compute|]. apply (bool_decide_unpack _). by vm_compute.
Defined.

Lemma todo_pages_continue_witness : ∃ page n, todo_page ex_query ex_todos = Ok page
  ∧ next_cursor ex_query page = Some n
  ∧ listing ex_query (all_nodes ex_todos) = take 1 (tp_nodes page) ++ listing (next_query ex_query n) (all_nodes ex_todos).
Proof.
  assert (match todo_page ex_query ex_todos with
          | Ok page => match next_cursor ex_query page with Some _ => true | None => false end
          | Err _ => false
          end = true) as Hb by (vm_compute; reflexivity).
  destruct (todo_page ex_query ex_todos) as [page|e] eqn:E; [|discriminate Hb].
  pose proof (todo_pages_continue ex_query ex_todos page ex_todos_wf ltac:(vm_compute; reflexivity) E) as H.
  destruct (next_cursor ex_query page) as [n|] eqn:En; [|discriminate Hb].
  exists page, n. destruct H as (_&H&_). exact (conj eq_refl (conj En H)).
Defined.

End witnesses.
