(* ===== verification/TodoViews.v ===== *)
(** * The Todo list and its classification report

    [src/devgraph/todo_views.py]: filters, the paged load of the six Todo kinds,
    the listing with its revision and cursor, a detail, and the report of what
    still needs a progress classification.  [todo_filters] is [TodoFilters.parse]
    and [parse_filters] its checks of the constructed filter. *)

From stdpp Require Import base gmap strings list sorting.
From Stdlib Require Import ZArith Ascii String.
From S2P Require Import Prelude Json Datetime Validation WorkflowContract Model Storage StorageWf StorageReads Redaction Repository Workflows Sha256 UrlQuery Todos.

Local Open Scope Z_scope.

(** ** Text *)

(** [str.casefold] on code points below 256: [lower], and the sharp s expands.
    The micro sign folds outside the range, to a character nothing else folds to;
    it stands for its image. *)
Fixpoint casefold (s : string) : string :=
  match s with
  | EmptyString => EmptyString
  | String c s' => if (code c =? 223)%N then "ss" +:+ casefold s' else String (lower_char c) (casefold s')
  end.

(** [q.casefold() in f"{redact_text(w.title)} {w.id}".casefold()]. *)
Definition found_in (q : string) (w : WorkObject) : bool :=
  has_substring (casefold q) (casefold (redact_text (title w) +:+ " " +:+ id w)).

(** ** Filters *)

Record TodoFilters := {
  tf_kind : string;
  tf_progress : string;
  tf_archived : string;
  tf_classification : string;
  tf_q : string;
  tf_limit : Z;
  tf_after : string;
  tf_revision : string
}.

(** [kind, identifier = ref.split("/", 1)] with both parts checked. *)
Definition todo_ref (r : string) : res unit :=
  k ← of_option (ValueError "not enough values to unpack") (split_once slash r);
  raise_if (negb (str_in k.1 TODO_KINDS)) (ValueError "");;
  require_id k.2;; Ok tt.

Definition parse_filters (f : TodoFilters) : res TodoFilters :=
  rethrow (λ e, is_value_error e || is_type_error e) (λ _, InvalidBoardFilter "invalid_todo_filter")
    (raise_if (negb (str_in (tf_kind f) ("" :: TODO_KINDS))
               || negb (str_in (tf_progress f) ("" :: map Progress_value [NOT_STARTED; IN_PROGRESS; DONE]))
               || negb (str_in (tf_archived f) ["exclude"; "include"; "only"])
               || negb (str_in (tf_classification f) [""; "required"])
               || negb ((1 <=? tf_limit f) && (tf_limit f <=? 100))
               || (200 <? str_len (tf_q f))
               || str_exists (λ c, (code c <? 32)%N) (tf_q f)
               || negb (Bool.eqb (truthy (tf_after f)) (truthy (tf_revision f)))) (ValueError "");;
     (if truthy (tf_after f) then todo_ref (tf_after f) else Ok tt);;
     Ok f).

(** [values[k][0]] when it is the only one. *)
Definition single (k : string) (values : list (string * list string)) : res (option string) :=
  match dict_get k values with
  | None => Ok None
  | Some [x] => Ok (Some x)
  | Some _ => Err (ValueError "")
  end.

Definition LIST_FIELDS : list string := ["kind"; "progress"; "archived"; "classification"; "q"; "limit"; "after"; "revision"].

Definition limit_of (o : option string) : res Z := match o with Some t => int_text t | None => Ok 30 end.

(** [TodoFilters.parse]. *)
Definition todo_filters (text : string) : res TodoFilters :=
  rethrow (λ e, is_value_error e || is_type_error e) (λ _, InvalidBoardFilter "invalid_todo_filter")
    (values ← (if String.eqb text "" then Ok [] else parse_qs true 9 text);
     raise_if ((4096 <? str_len text) || existsb (λ kv, negb (str_in kv.1 LIST_FIELDS)) values) (ValueError "");;
     kind ← single "kind" values; progress ← single "progress" values; archived ← single "archived" values;
     classification ← single "classification" values; q ← single "q" values; limit ← single "limit" values;
     after ← single "after" values; revision ← single "revision" values;
     limit ← limit_of limit;
     parse_filters
       {| tf_kind := default "" kind; tf_progress := default "" progress; tf_archived := default "exclude" archived;
          tf_classification := default "" classification; tf_q := default "" q; tf_limit := limit;
          tf_after := default "" after; tf_revision := default "" revision |}).

(** ** Loading *)

Section views.
  Context {PY : Pydantic}.

(** [kind == "Todo" and node.properties.get("kind") != "Todo"] is skipped. *)
Definition is_work_node (k : string) (n : NodeRecord) : bool :=
  negb (String.eqb k "Todo") || bool_decide (nr_properties n !! "kind" = Some (VStr "Todo")).

Definition READ_BUDGET : Z := 10000.

(** The [while True] loop of one kind; one fuel unit is one page. *)
Fixpoint load_kind (fuel : nat) (k : string) (after : option string) (acc : list WorkObject) (s : Store) :
    res (list WorkObject) :=
  match fuel with
  | O => Err (RuntimeError "out of fuel")
  | S fuel' =>
      ns ← query (Some k) None false after (Some 100) s;
      ws ← res_mapM _from_node (filter (λ n, is_work_node k n = true) ns);
      let acc := acc ++ ws in
      raise_if (READ_BUDGET <? Z.of_nat (length acc)) (StorageUnavailable "Todo read budget exceeded");;
      if (Z.of_nat (length ns) <? 100) then Ok acc
      else match last ns with
           | Some n => load_kind fuel' k (Some (nr_id n)) acc s
           | None => Ok acc
           end
  end.

Definition page_fuel (s : Store) : nat := S (length (all_nodes s)).

Fixpoint load_kinds (ks : list string) (acc : list WorkObject) (s : Store) : res (list WorkObject) :=
  match ks with
  | [] => Ok acc
  | k :: ks' => acc ← load_kind (page_fuel s) k None acc s; load_kinds ks' acc s
  end.

Definition load_todos (s : Store) : res (list WorkObject) := load_kinds TODO_KINDS [] s.

(** ** Rows *)

Definition opt_str (o : option string) : value := match o with Some x => VStr x | None => VNone end.

Definition state_of (w : WorkObject) : res (option WorkflowState) :=
  match workflow_json w with
  | Some raw => if truthy raw then st ← decode_state raw; Ok (Some st) else Ok None
  | None => Ok None
  end.

Definition todo_summary (w : WorkObject) (parent : option string) (with_description : bool) : res value :=
  st ← state_of w;
  Ok (VDict (mk_dict
    ([("key", VStr (resource_name w)); ("kind", VStr (kind_name (kind w))); ("id", VStr (id w));
      ("title", VStr (redact_text (title w))); ("priority", VStr (print_int (priority w)));
      ("version", VStr (print_int (version w))); ("progress", opt_str (progress w));
      ("progress_label", VStr (progress_label (progress w))); ("archived", VBool (archived w));
      ("classification_required", VBool (bool_decide (progress w = None)));
      ("workflow_id", opt_str (workflow_id <$> st)); ("stage", opt_str (stage <$> st)); ("parent", opt_str parent);
      ("created_at", VStr (isoformat (created_at w))); ("updated_at", VStr (isoformat (updated_at w)))]
     ++ if with_description then
          [("description", VStr (redact_text (description w))); ("artifact_ids", strs (artifact_ids w));
           ("external_link_ids", strs (external_link_ids w))]
        else []))).

(** The [parents] dictionary of the [HAS_CHILD] edges. *)
Fixpoint parent_map (es : list EdgeRecord) (m : gmap string string) : res (gmap string string) :=
  match es with
  | [] => Ok m
  | e :: es' =>
      let child := resource_of (edge_to e) in
      raise_if (bool_decide (is_Some (m !! child))) (StorageUnavailable "ambiguous Todo parentage");;
      parent_map es' (<[child := resource_of (edge_from e)]> m)
  end.

Definition parents_value (m : gmap string string) : value :=
  VList ((λ kv : string * string, VList [VStr kv.1; VStr kv.2]) <$> sort_keys (map_to_list m)).

Definition revision_of (ws : list WorkObject) (m : gmap string string) : string :=
  fingerprint (VList
    [VList ((λ w, VList [VStr (kind_name (kind w)); VStr (id w); VInt (version w); opt_str (progress w);
                         VBool (archived w); opt_str (workflow_json w)]) <$> ws);
     parents_value m]).

Definition row_admits (f : TodoFilters) (w : WorkObject) : bool :=
  (negb (truthy (tf_kind f)) || String.eqb (kind_name (kind w)) (tf_kind f))
  && (negb (truthy (tf_progress f)) || bool_decide (progress w = Some (tf_progress f)))
  && (negb (truthy (tf_classification f)) || bool_decide (progress w = None))
  && (String.eqb (tf_archived f) "include" || Bool.eqb (archived w) (String.eqb (tf_archived f) "only"))
  && found_in (tf_q f) w.

(** [(-w.priority, w.kind, w.id)]. *)
Definition row_leb (a b : WorkObject) : bool :=
  (priority b <? priority a) || ((priority a =? priority b) && key_leb (work_key a) (work_key b)).

Definition rows_of (f : TodoFilters) (ws : list WorkObject) : list WorkObject :=
  stable_sort row_leb (filter (λ w, row_admits f w = true) ws).

(** [keys.index(k)]. *)
Fixpoint index_of (k : string) (l : list string) : option nat :=
  match l with
  | [] => None
  | x :: l' => if String.eqb x k then Some O else S <$> index_of k l'
  end.

Definition cursor_start (after : string) (keys : list string) : res nat :=
  if truthy after then
    match index_of after keys with
    | Some i => Ok (S i)
    | None => Err (InvalidBoardFilter "cursor_outside_todo_filter")
    end
  else Ok O.

Record TodoListing := {
  tl_schema : string;
  tl_revision : string;
  tl_total : Z;
  tl_items : list value;
  tl_next_cursor : option string;
  tl_classification_required : Z;
  tl_complete : bool
}.

Definition todo_page (f : TodoFilters) (s : Store) : res TodoListing :=
  ws ← load_todos s;
  es ← edges_of "HAS_CHILD" s;
  parents ← parent_map es ∅;
  let revision := revision_of ws parents in
  raise_if (truthy (tf_revision f) && negb (String.eqb (tf_revision f) revision))
    (BoardChanged "The Todo list changed; refresh before continuing.");;
  let rows := rows_of f ws in
  let keys := resource_name <$> rows in
  start ← cursor_start (tf_after f) keys;
  let selected := take (Z.to_nat (tf_limit f)) (drop start rows) in
  items ← res_mapM (λ w, todo_summary w (parents !! resource_name w) false) selected;
  let stop := (start + length selected)%nat in
  Ok {| tl_schema := "devgraph.todos.v2"; tl_revision := revision; tl_total := Z.of_nat (length rows);
        tl_items := items;
        tl_next_cursor := if (stop <? length rows)%nat then keys !! pred stop else None;
        tl_classification_required := Z.of_nat (length (filter (λ w, progress w = None) ws));
        tl_complete := true |}.

Definition todo_detail (k i : string) (s : Store) : res value :=
  raise_if (negb (str_in k TODO_KINDS)) (ValueError "invalid_todo_kind");;
  w ← get_by_id k i s;
  es ← related "HAS_CHILD" (work_key w) true s;
  raise_if (1 <? Z.of_nat (length es)) (StorageUnavailable "ambiguous Todo parentage");;
  todo_summary w (resource_of <$> (edge_from <$> head es)) true.

(** ** The classification report *)

Definition no_reason : string := "No canonical progress classification; legacy status alone is insufficient.".

Definition migration_reasons (w : WorkObject) : res value :=
  history ← match progress_migration_json w with
            | Some raw => if truthy raw then of_option (ValueError "JSONDecodeError") (loads raw) else Ok (VDict [])
            | None => Ok (VDict [])
            end;
  match history with
  | VDict d =>
      let r := default VNone (dict_get "reasons" d) in
      Ok (if value_truthy r then r else VList [VStr no_reason])
  | _ => Err (AttributeError "get")
  end.

Definition unresolved_entry (w : WorkObject) : res value :=
  r ← migration_reasons w;
  Ok (VDict (mk_dict [("key", VStr (resource_name w)); ("reasons", r)])).

Definition classification_report (s : Store) : res value :=
  ws ← load_todos s;
  unresolved ← res_mapM unresolved_entry (filter (λ w, progress w = None) ws);
  Ok (VDict (mk_dict
    [("schema", VStr "devgraph.progress-migration-report.v1"); ("total", VInt (Z.of_nat (length ws)));
     ("mapped", VDict (mk_dict
        ((λ p, (Progress_value p, VInt (Z.of_nat (length (filter (λ w, progress w = Some (Progress_value p)) ws)))))
           <$> [NOT_STARTED; IN_PROGRESS; DONE])));
     ("unresolved", VList unresolved)])).

End views.

(** ** The load is the whole graph *)

Section loading.
  Context {PY : Pydantic} {PL : PydanticLaws}.

Definition kind_nodes (s : Store) (k : string) : list NodeRecord :=
  filter (λ n, is_work_node k n = true) (selected k None false s).

Definition todo_nodes (s : Store) : list NodeRecord := List.concat (kind_nodes s <$> TODO_KINDS).

Notation loads_as := (Forall2 (λ n w, _from_node n = Ok w)).

Lemma load_kind_spec fuel k after acc s ws : store_wf s →
  (∀ a, after = Some a → _ID_PATTERN a = true) →
  let rest := filter (λ n, after_id_ok false after n = true) (selected k None false s) in
  (length rest < fuel)%nat →
  load_kind fuel k after acc s = Ok ws ↔
  ∃ ws', loads_as (filter (λ n, is_work_node k n = true) rest) ws' ∧ ws = acc ++ ws'
         ∧ Z.of_nat (length ws) <= READ_BUDGET.
Proof.
  intros Hs. revert after acc. induction fuel as [|fuel IH]; intros after acc Ha rest Hf; [lia|].
  cbn [load_kind]. rewrite query_label. fold rest.
  assert (match after with Some a => require_id a;; Ok tt | None => Ok tt end = Ok tt) as ->.
  { destruct after as [a|]; [|done]. unfold require_id. by rewrite Ha. }
  change (validate_page_limit 100) with (Ok 100). cbn [mbind res_bind]. change (Z.to_nat 100) with 100%nat.
  assert (∀ l w, (res_mapM _from_node l ≫= w) = Ok ws ↔ ∃ ws1, loads_as l ws1 ∧ w ws1 = Ok ws) as Hmap.
  { intros l w. rewrite res_bind_Ok. by setoid_rewrite res_mapM_Ok. }
  rewrite Hmap. clear Hmap. setoid_rewrite res_bind_Ok. setoid_rewrite raise_if_Ok. setoid_rewrite Z.ltb_ge.
  destruct (Z.ltb_spec (Z.of_nat (length (take 100 rest))) 100) as [Hl|Hl].
  { rewrite length_take in Hl. rewrite take_ge by lia. split.
    - intros (w1&Hw&[]&Hb&[= <-]). eauto.
    - intros (w1&Hw&->&Hb). exists w1. split; [done|]. by exists tt. }
  rewrite length_take in Hl. destruct (last (take 100 rest)) as [n|] eqn:El.
  2:{ apply last_None, (f_equal length) in El. rewrite length_take in El. cbn [length] in El. lia. }
  pose proof (next_page false k None after s 100 n Hs El) as Hnext. fold rest in Hnext.
  assert (_ID_PATTERN (nr_id n) = true) as Hid.
  { apply last_Some_elem_of, subseteq_take in El. apply list_elem_of_filter in El as [_ El].
    apply elem_of_selected in El as [El _]; [|done]. by destruct (sw_nodes s Hs _ _ El). }
  assert (∀ acc, load_kind fuel k (Some (nr_id n)) acc s = Ok ws ↔
    ∃ ws', loads_as (filter (λ n, is_work_node k n = true) (drop 100 rest)) ws' ∧ ws = acc ++ ws'
           ∧ Z.of_nat (length ws) <= READ_BUDGET) as Hrec.
  { intros acc'. rewrite IH; [by rewrite Hnext|by intros ? [= <-]|]. rewrite Hnext, length_drop. lia. }
  setoid_rewrite Hrec. clear Hrec IH. 
  assert (filter (λ n, is_work_node k n = true) rest
    = filter (λ n, is_work_node k n = true) (take 100 rest) ++ filter (λ n, is_work_node k n = true) (drop 100 rest))
    as -> by (by rewrite <-filter_app, take_drop).
  split.
  - intros (w1&H1&[]&Hb&w2&H2&->&Hb2). exists (w1 ++ w2). rewrite (assoc_L app). split; [by apply Forall2_app|done].
  - intros (w'&(w1&w2&H1&H2&->)%Forall2_app_inv_l&->&Hb). exists w1. split; [done|]. exists tt.
    split; [rewrite !length_app in *; lia|]. exists w2. by rewrite <-(assoc_L app).
Qed.

Lemma load_kinds_spec ks acc s ws : store_wf s → Z.of_nat (length acc) <= READ_BUDGET →
  load_kinds ks acc s = Ok ws ↔
  ∃ ws', loads_as (List.concat (kind_nodes s <$> ks)) ws' ∧ ws = acc ++ ws' ∧ Z.of_nat (length ws) <= READ_BUDGET.
Proof.
  intros Hs. revert acc. induction ks as [|k ks IH]; intros acc Hacc; cbn [load_kinds].
  { split; [intros [= <-]; exists []; rewrite app_nil_r; by repeat split|].
    intros (ws'&->%Forall2_nil_inv_l&->&_). by rewrite app_nil_r. }
  rewrite res_bind_Ok.
  assert (∀ ws1, load_kind (page_fuel s) k None acc s = Ok ws1 ↔
    ∃ ws', loads_as (kind_nodes s k) ws' ∧ ws1 = acc ++ ws' ∧ Z.of_nat (length ws1) <= READ_BUDGET) as Hk.
  { intros ws1. rewrite load_kind_spec; [|done|done|].
    - rewrite (filter_true (λ n, after_id_ok false None n = true)) by done. done.
    - unfold page_fuel. apply Nat.lt_succ_r. etransitivity; [apply length_filter|]. unfold selected.
      etransitivity; [apply length_filter|]. unfold sorted_nodes. by rewrite stable_sort_perm. }
  rewrite fmap_cons. cbn [List.concat]. split.
  - intros (ws1&(w1&H1&->&Hb)%Hk&(w2&H2&->&Hb2)%IH); [|done]. exists (w1 ++ w2). rewrite (assoc_L app).
    split; [by apply Forall2_app|done].
  - intros (w'&(w1&w2&H1&H2&->)%Forall2_app_inv_l&->&Hb). exists (acc ++ w1).
    assert (Z.of_nat (length (acc ++ w1)) <= READ_BUDGET) by (rewrite !length_app in *; lia).
    split; [apply Hk; eauto|]. apply IH; [done|]. exists w2. by rewrite <-(assoc_L app).
Qed.

(** The paged load returns exactly the stored Todos, kind by kind in identifier
    order, when each reads and there are at most 10,000. *)
Theorem load_todos_complete s ws : store_wf s →
  load_todos s = Ok ws ↔ loads_as (todo_nodes s) ws ∧ Z.of_nat (length ws) <= READ_BUDGET.
Proof.
  intros Hs. unfold load_todos. rewrite load_kinds_spec by done. unfold todo_nodes.
  split; [by intros (?&?&->&?)|]. intros [??]. by exists ws.
Qed.

Lemma kind_nodes_label s k n : store_wf s → n ∈ kind_nodes s k → nr_label n = k.
Proof.
  intros Hs [_ Hn]%list_elem_of_filter. apply elem_of_selected in Hn as [Hn _]; [|done].
  pose proof (nw_key _ _ (sw_nodes s Hs _ _ Hn)) as Hk. unfold nr_key in Hk. by injection Hk.
Qed.

Lemma kind_nodes_nodup s k : store_wf s → NoDup (nr_key <$> kind_nodes s k).
Proof.
  intros Hs. unfold kind_nodes. pose proof (selected_sorted k None false s Hs) as Hst.
  apply (StronglySorted_filter _ (λ n, is_work_node k n = true)) in Hst.
  induction Hst as [|n l _ IH Hn]; [constructor|]. rewrite fmap_cons. constructor; [|done].
  intros (m&Hm&Hin)%list_elem_of_fmap. rewrite Forall_forall in Hn. specialize (Hn m Hin).
  unfold id_before in Hn. injection Hm as _ Hm. rewrite Hm, str_ltb_irrefl in Hn. done.
Qed.

Lemma nodes_nodup ks s : store_wf s → NoDup ks → NoDup (nr_key <$> List.concat (kind_nodes s <$> ks)).
Proof.
  intros Hs. induction 1 as [|k ks Hk _ IH]; [constructor|]. rewrite fmap_cons. cbn [List.concat]. rewrite fmap_app.
  apply NoDup_app. split_and!; [by apply kind_nodes_nodup| |done].
  intros x (n&->&Hn)%list_elem_of_fmap (m&Hm&Hin)%list_elem_of_fmap. apply kind_nodes_label in Hn; [|done].
  apply list_elem_of_In, in_concat in Hin as (l&Hl&Hin). apply list_elem_of_In in Hl, Hin.
  apply list_elem_of_fmap in Hl as (k'&->&Hk'). apply kind_nodes_label in Hin; [|done].
  injection Hm as Hm _. congruence.
Qed.

Lemma loads_keys l ws : loads_as l ws → work_key <$> ws = nr_key <$> l.
Proof.
  induction 1 as [|n w l ws Hn _ IH]; [done|]. rewrite !fmap_cons, IH. f_equal. by apply from_node_inv in Hn as (_&_&?&_).
Qed.

Lemma todo_kind_label s n : store_wf s → n ∈ todo_nodes s → nr_label n ∈ TODO_KINDS.
Proof.
  intros Hs Hin. apply list_elem_of_In, in_concat in Hin as (l&Hl&Hin). apply list_elem_of_In in Hl, Hin.
  apply list_elem_of_fmap in Hl as (k'&->&Hk'). apply kind_nodes_label in Hin; [|done]. congruence.
Qed.

(** What a loaded Todo satisfies. *)
Record loaded (w : WorkObject) : Prop := {
  ld_storable : storable w;
  ld_kind : kind_name (kind w) ∈ TODO_KINDS
}.

Lemma load_todos_facts s ws : store_wf s → load_todos s = Ok ws → Forall loaded ws ∧ NoDup (work_key <$> ws).
Proof.
  intros Hs [Hl _]%load_todos_complete; [|done]. split.
  - apply Forall_forall. intros w [i Hw]%list_elem_of_lookup. destruct (Forall2_lookup_r _ _ _ _ _ Hl Hw) as (n&Hn&Hf).
    apply list_elem_of_lookup_2, todo_kind_label in Hn; [|done]. clear Hw. rename Hf into Hw. apply from_node_inv in Hw as (?&_&Hk&_). split; [done|].
    injection Hk as -> _. done.
  - rewrite (loads_keys _ _ Hl). apply nodes_nodup; [done|]. apply (bool_decide_unpack _). by vm_compute.
Qed.

Lemma todo_kind_no_slash k : k ∈ TODO_KINDS → str_forall (λ d, negb (Ascii.eqb slash d)) k = true.
Proof. unfold TODO_KINDS. rewrite !elem_of_cons, elem_of_nil. intros Hk. destruct_or!; by subst. Qed.

Lemma resource_names_nodup ws : Forall loaded ws → NoDup (work_key <$> ws) → NoDup (resource_name <$> ws).
Proof.
  intros Hl. induction Hl as [|w ws [_ Hw] Hl IH]; [constructor|]. rewrite !fmap_cons. intros [Hni Hd]%NoDup_cons.
  constructor; [|by apply IH]. intros (w'&Heq&Hin)%list_elem_of_fmap. apply Hni. apply list_elem_of_fmap. exists w'.
  split; [|done]. rewrite Forall_forall in Hl. destruct (Hl w' Hin) as [_ Hw'].
  apply resource_of_inj_l; [by apply todo_kind_no_slash..|done].
Qed.

Lemma rows_perm f ws : rows_of f ws ≡ₚ filter (λ w, row_admits f w = true) ws.
Proof. apply stable_sort_perm. Qed.

Lemma rows_loaded f ws : Forall loaded ws → Forall loaded (rows_of f ws).
Proof. intros Hl. rewrite rows_perm. rewrite Forall_forall in *. intros w [_ ?]%list_elem_of_filter. auto. Qed.

Lemma rows_names f ws : Forall loaded ws → NoDup (work_key <$> ws) → NoDup (resource_name <$> rows_of f ws).
Proof.
  intros Hl Hd. apply resource_names_nodup; [by apply rows_loaded|]. rewrite rows_perm.
  clear Hl. induction ws as [|w ws IH]; [constructor|]. rewrite fmap_cons in Hd. apply NoDup_cons in Hd as [Hni Hd].
  rewrite filter_cons. case_decide; [|by apply IH]. rewrite fmap_cons. constructor; [|by apply IH].
  intros (x&Hx&[_ Hin]%list_elem_of_filter)%list_elem_of_fmap. apply Hni, list_elem_of_fmap. eauto.
Qed.

(** ** Cursors *)

Lemma index_of_lookup l i x : NoDup l → l !! i = Some x → index_of x l = Some i.
Proof.
  intros Hd. revert i. induction Hd as [|y l Hy Hd IH]; intros [|i]; simpl; [done|done|..].
  - intros [= ->]. by rewrite String.eqb_refl.
  - intros Hi. destruct (String.eqb_spec y x) as [->|]; [|by rewrite (IH i Hi)].
    exfalso. apply Hy. by eapply list_elem_of_lookup_2.
Qed.

Lemma index_of_Some l x i : index_of x l = Some i → l !! i = Some x.
Proof.
  revert i. induction l as [|y l IH]; intros i; simpl; [done|]. destruct (String.eqb_spec y x) as [->|]; [by intros [= <-]|].
  destruct (index_of x l) as [j|]; [|done]. intros [= <-]. simpl. by apply IH.
Qed.

Lemma summary_total w parent d : loaded w → ∃ v, todo_summary w parent d = Ok v.
Proof.
  intros [Hs _]. unfold todo_summary, state_of. destruct (workflow_json w) as [raw|] eqn:E; [|eauto].
  apply (st_workflow w Hs) in E. destruct (truthy raw); [|eauto]. destruct (decode_state raw); [|done]. eauto.
Qed.

Lemma summaries_total (ws : list WorkObject) (parents : gmap string string) : Forall loaded ws →
  ∃ vs, res_mapM (λ w, todo_summary w (parents !! resource_name w) false) ws = Ok vs.
Proof.
  induction 1 as [|w ws Hw _ [vs IH]]; [by exists []|]. destruct (summary_total w (parents !! resource_name w) false Hw) as [v Hv].
  exists (v :: vs). simpl. by rewrite Hv, IH.
Qed.

(** The items of a page are the summaries of its rows. *)
Lemma parse_filters_limit f : parse_filters f = Ok f → 1 <= tf_limit f <= 100.
Proof.
  unfold parse_filters. rewrite rethrow_Ok. intros (?&H%raise_if_Ok&_)%res_bind_Ok.
  rewrite !orb_false_iff in H. destruct H as [[[[_ H] _] _] _].
  apply negb_false_iff, andb_true_iff in H. rewrite !Z.leb_le in H. lia.
Qed.

Definition next_filters (f : TodoFilters) (c r : string) : TodoFilters :=
  {| tf_kind := tf_kind f; tf_progress := tf_progress f; tf_archived := tf_archived f;
     tf_classification := tf_classification f; tf_q := tf_q f; tf_limit := tf_limit f; tf_after := c;
     tf_revision := r |}.

Lemma resource_truthy w : truthy (resource_name w) = true.
Proof. unfold resource_name, work_key. by destruct (kind w). Qed.

Lemma revision_truthy ws m : truthy (revision_of ws m) = true.
Proof.
  unfold revision_of, fingerprint. pose proof (sha256_hex_digest (utf8_encode (dumps false (VList
    [VList ((λ w, VList [VStr (kind_name (kind w)); VStr (id w); VInt (version w); opt_str (progress w);
                         VBool (archived w); opt_str (workflow_json w)]) <$> ws); parents_value m])))) as H.
  destruct (sha256_hex _); [by vm_compute in H|reflexivity].
Qed.

Lemma next_filters_valid f w ws m : parse_filters f = Ok f → loaded w →
  parse_filters (next_filters f (resource_name w) (revision_of ws m))
  = Ok (next_filters f (resource_name w) (revision_of ws m)).
Proof.
  unfold parse_filters, next_filters. rewrite !rethrow_Ok. cbn [tf_kind tf_progress tf_archived tf_classification tf_q tf_limit tf_after tf_revision].
  rewrite resource_truthy, revision_truthy. intros (?&H%raise_if_Ok&_)%res_bind_Ok [Hs Hk].
  rewrite !orb_false_iff in H. destruct H as [[[[[[[-> ->] ->] ->] ->] ->] ->] _].
  cbn [orb negb Bool.eqb raise_if mbind res_bind]. unfold todo_ref, resource_name, resource_of.
  change (String.append (work_key w).1 ("/" +:+ (work_key w).2)) with ((work_key w).1 +:+ String slash (work_key w).2).
  rewrite split_once_app by (by apply todo_kind_no_slash). cbn [of_option mbind res_bind].
  unfold work_key. cbn [fst snd]. rewrite (proj2 (str_in_spec _ _) Hk). cbn [negb raise_if mbind res_bind].
  unfold require_id. rewrite (st_id w Hs). done.
Qed.

(** ** What the list promises

    The filter, the order, the parents and the cursor said without the functions
    that compute them. *)

(** What a filter asks of a Todo. *)
Record wanted (f : TodoFilters) (w : WorkObject) : Prop := {
  wt_kind : tf_kind f ≠ "" → kind_name (kind w) = tf_kind f;
  wt_progress : tf_progress f ≠ "" → progress w = Some (tf_progress f);
  wt_classification : tf_classification f ≠ "" → progress w = None;
  wt_exclude : tf_archived f = "exclude" → archived w = false;
  wt_only : tf_archived f = "only" → archived w = true;
  wt_text : ∃ before after, casefold (redact_text (title w) +:+ " " +:+ id w) = before +:+ casefold (tf_q f) +:+ after
}.

(** Higher priority first, then kind and identifier. *)
Definition listed_before (a b : WorkObject) : Prop :=
  priority b < priority a ∨ (priority a = priority b ∧ key_ltb (work_key a) (work_key b) = true).

(** The list starts after the row that the cursor names. *)
Definition starts_at (after : string) (names : list string) (start : nat) : Prop :=
  if decide (after = "") then start = O else ∃ i, start = S i ∧ names !! i = Some after.

Lemma truthy_spec x : truthy x = true ↔ x ≠ "".
Proof. by destruct x. Qed.

Lemma unless_truthy x (b : bool) (P : Prop) : (b = true ↔ P) → negb (truthy x) || b = true ↔ (x ≠ "" → P).
Proof. intros <-. rewrite orb_true_iff, negb_true_iff, <-not_true_iff_false, truthy_spec. destruct (decide (x = "")); naive_solver. Qed.

Lemma row_admits_spec f w : parse_filters f = Ok f → row_admits f w = true ↔ wanted f w.
Proof.
  intros Hp. assert (tf_archived f ∈ ["exclude"; "include"; "only"]) as Ha.
  { unfold parse_filters in Hp. apply (proj1 (rethrow_Ok _ _ _ _)) in Hp. apply res_bind_Ok in Hp as (?&H%raise_if_Ok&_).
    rewrite !orb_false_iff in H. destruct H as [[[[[[[_ _] H] _] _] _] _] _]. apply negb_false_iff in H. by apply str_in_spec. }
  unfold row_admits, found_in. rewrite !andb_true_iff, has_substring_spec.
  rewrite (unless_truthy _ _ (kind_name (kind w) = tf_kind f)) by apply String.eqb_eq.
  rewrite (unless_truthy _ _ (progress w = Some (tf_progress f))) by apply bool_decide_eq_true.
  rewrite (unless_truthy _ _ (progress w = None)) by apply bool_decide_eq_true.
  assert (String.eqb (tf_archived f) "include" || Bool.eqb (archived w) (String.eqb (tf_archived f) "only") = true
    ↔ (tf_archived f = "exclude" → archived w = false) ∧ (tf_archived f = "only" → archived w = true)) as ->.
  { repeat (apply elem_of_cons in Ha as [->|Ha]; [destruct (archived w); naive_solver|]). by apply not_elem_of_nil in Ha. }
  split; [intros [[[[? ?] ?] [? ?]] ?]; by constructor|intros []; tauto].
Qed.

Lemma row_leb_total a b : row_leb a b = false → row_leb b a = true.
Proof.
  unfold row_leb. rewrite orb_false_iff, orb_true_iff, andb_false_iff, andb_true_iff, Z.ltb_ge, Z.ltb_lt, Z.eqb_eq, Z.eqb_neq.
  destruct (key_le_total (work_key a) (work_key b)) as [H|H]; unfold key_le in H; rewrite H; [|lia]. intros [? [?|?]]; [lia|done].
Qed.

Lemma row_leb_trans a b c : row_leb a b = true → row_leb b c = true → row_leb a c = true.
Proof.
  unfold row_leb. rewrite !orb_true_iff, !andb_true_iff, !Z.ltb_lt, !Z.eqb_eq.
  intros [?|[? H1]] [?|[? H2]]; [left; lia..|]. right. split; [lia|]. exact (key_le_trans _ _ _ H1 H2).
Qed.

Lemma rows_of_spec f ws : parse_filters f = Ok f → NoDup (work_key <$> ws) →
  StronglySorted listed_before (rows_of f ws) ∧ ∀ w, w ∈ rows_of f ws ↔ w ∈ ws ∧ wanted f w.
Proof.
  intros Hp Hd. unfold rows_of.
  destruct (stable_sort_keyed row_leb listed_before work_key (filter (λ w, row_admits f w = true) ws)) as [Hs Hin].
  - apply row_leb_total.
  - apply row_leb_trans.
  - unfold row_leb, listed_before. intros a b. rewrite orb_true_iff, andb_true_iff, Z.ltb_lt, Z.eqb_eq, key_leb_spec. tauto.
  - eapply sublist_NoDup; [exact Hd|]. change (sublist (work_key <$> filter (λ w, row_admits f w = true) ws) (work_key <$> ws)). apply fmap_sublist, sublist_filter.
  - split; [done|]. intros w. rewrite Hin, list_elem_of_filter, row_admits_spec by done. tauto.
Qed.

Lemma cursor_start_spec after names start : cursor_start after names = Ok start → starts_at after names start.
Proof.
  unfold cursor_start, starts_at. destruct after as [|c r]; cbn [truthy]; [by intros [= <-]|].
  rewrite decide_False by done. destruct (index_of _ names) as [i|] eqn:E; [|done]. intros [= <-]. exists i.
  split; [done|]. by apply index_of_Some.
Qed.

Lemma parent_map_spec es m m' c p : parent_map es m = Ok m' →
  m' !! c = Some p ↔ m !! c = Some p ∨ ∃ e, e ∈ es ∧ resource_of (edge_to e) = c ∧ resource_of (edge_from e) = p.
Proof.
  revert m. induction es as [|e es IH]; intros m; cbn [parent_map].
  { intros [= ->]. split; [by left|]. by intros [?|(e&He%not_elem_of_nil&_)]. }
  intros (?&Hn%raise_if_Ok&H)%res_bind_Ok. apply bool_decide_eq_false, eq_None_not_Some in Hn. rewrite (IH _ H), lookup_insert_Some. split.
  - intros [[[<- <-]|[_ ?]]|(e'&?&?)]; [right; exists e; split; [left|done]|by left|right; exists e'; split; [by right|done]].
  - intros [Hc|(e'&[->|He]%elem_of_cons&Ht&Hf)]; [|by left; left|by right; exists e'].
    left. right. split; [|done]. intros <-. congruence.
Qed.

Lemma edges_of_all rel s es : edges_of rel s = Ok es → es = filter (λ e, relationship e = rel) (edges s).
Proof.
  unfold edges_of. intros (es'&Hl&H)%res_bind_Ok. apply res_bind_Ok in H as (?&Hb%raise_if_Ok&[= ->]).
  apply Z.ltb_ge in Hb. apply list_edges_all in Hl as ->; [done|lia].
Qed.

(** The parents are the stored ones, whole. *)
Lemma stored_parents s es m : edges_of "HAS_CHILD" s = Ok es → parent_map es ∅ = Ok m →
  ∀ c p, m !! c = Some p ↔ ∃ e, e ∈ edges s ∧ relationship e = "HAS_CHILD"
    ∧ resource_of (edge_to e) = c ∧ resource_of (edge_from e) = p.
Proof.
  intros He Hm c p. rewrite (parent_map_spec _ _ _ c p Hm), lookup_empty. apply edges_of_all in He as ->.
  split; [intros [?|(e&[? ?]%list_elem_of_filter&?)]; [done|by exists e]|].
  intros (e&?&?&?). right. exists e. by rewrite list_elem_of_filter.
Qed.

End loading.

(** ** Properties *)

Section properties.
  Context {PY : Pydantic} {PL : PydanticLaws}.

(** C34: The Todo list pages without loss or repetition.  Its rows are exactly the
    stored Todos that the filter asks for (kind, progress, missing classification,
    archival, text in the redacted title or identifier), by decreasing priority and
    then kind and identifier; a page counts them all and holds the summaries, with
    their stored parents, of the [limit] rows after the one its cursor names, or of
    the first [limit] without a cursor.  When it names a next cursor, the same filter
    with that cursor and the page's revision validates and returns the following rows
    with the same total and revision; when it names none, nothing is left. *)
Theorem todo_list_pages f s page :
  store_wf s → parse_filters f = Ok f → todo_page f s = Ok page →
  ∃ ws rows (parents : gmap string string) start,
    Forall2 (λ n w, _from_node n = Ok w) (todo_nodes s) ws
    ∧ StronglySorted listed_before rows ∧ (∀ w, w ∈ rows ↔ w ∈ ws ∧ wanted f w)
    ∧ (∀ c p, parents !! c = Some p ↔ ∃ e, e ∈ edges s ∧ relationship e = "HAS_CHILD"
         ∧ resource_of (edge_to e) = c ∧ resource_of (edge_from e) = p)
    ∧ starts_at (tf_after f) (resource_name <$> rows) start
    ∧ tl_total page = Z.of_nat (length rows)
    ∧ let window i := take (Z.to_nat (tf_limit f)) (drop i rows) in
      let summarises ws' vs := Forall2 (λ w v, todo_summary w (parents !! resource_name w) false = Ok v) ws' vs in
      summarises (window start) (tl_items page)
      ∧ match tl_next_cursor page with
        | None => drop (start + Z.to_nat (tf_limit f)) rows = []
        | Some c =>
            let f' := next_filters f c (tl_revision page) in
            parse_filters f' = Ok f'
            ∧ ∃ page', todo_page f' s = Ok page'
                ∧ summarises (window (start + Z.to_nat (tf_limit f))%nat) (tl_items page')
                ∧ tl_total page' = tl_total page ∧ tl_revision page' = tl_revision page
        end.
Proof.
  intros Hs Hf Hp. unfold todo_page in Hp.
  apply res_bind_Ok in Hp as (ws&Hws&Hp). apply res_bind_Ok in Hp as (es&Hes&Hp).
  apply res_bind_Ok in Hp as (m&Hm&Hp). apply res_bind_Ok in Hp as (?&Hrev%raise_if_Ok&Hp).
  apply res_bind_Ok in Hp as (start&Hst&Hp). apply res_bind_Ok in Hp as (items&Hit&[= <-]).
  destruct (load_todos_facts s ws Hs Hws) as [Hl Hd]. pose proof (rows_loaded f ws Hl) as Hrl.
  pose proof (rows_names f ws Hl Hd) as Hn. pose proof (parse_filters_limit f Hf) as Hlim.
  destruct (rows_of_spec f ws Hf Hd) as [Hsorted Hrows].
  exists ws, (rows_of f ws), m, start. split; [by apply load_todos_complete in Hws as [? _]|]. split; [done|]. split; [done|].
  split; [by apply (stored_parents s es)|]. split; [by apply cursor_start_spec|]. split; [done|].
  cbn [tl_items tl_next_cursor tl_total tl_revision]. set (rows := rows_of f ws) in *.
  split; [by apply res_mapM_Ok|]. rewrite length_take, length_drop.
  destruct (Nat.ltb_spec (start + Z.to_nat (tf_limit f) `min` (length rows - start)) (length rows)) as [Hlt|Hge].
  2:{ apply drop_ge. lia. }
  rewrite list_lookup_fmap. replace (pred _) with (start + Z.to_nat (tf_limit f) - 1)%nat by lia.
  destruct (lookup_lt_is_Some_2 rows (start + Z.to_nat (tf_limit f) - 1)) as [w Hw]; [lia|]. rewrite Hw. cbn [fmap option_fmap option_map].
  assert (loaded w) as Hlw by (eapply Forall_forall; [exact Hrl|by eapply list_elem_of_lookup_2]).
  split; [by apply next_filters_valid|].
  assert (cursor_start (resource_name w) (resource_name <$> rows) = Ok (start + Z.to_nat (tf_limit f))%nat) as Hc.
  { unfold cursor_start. rewrite resource_truthy.
    rewrite (index_of_lookup _ (start + Z.to_nat (tf_limit f) - 1) _ Hn); [f_equal; lia|].
    by rewrite list_lookup_fmap, Hw. }
  destruct (summaries_total (take (Z.to_nat (tf_limit f)) (drop (start + Z.to_nat (tf_limit f)) rows)) m) as [vs Hvs].
  { by apply Forall_take, Forall_drop. }
  eexists. split.
  { unfold todo_page. rewrite Hws. cbn [mbind res_bind]. rewrite Hes. cbn [mbind res_bind]. rewrite Hm. cbn [mbind res_bind].
    cbn [next_filters tf_revision tf_after tf_limit]. rewrite revision_truthy, String.eqb_refl. cbn [negb andb raise_if mbind res_bind].
    change (rows_of (next_filters f (resource_name w) (revision_of ws m)) ws) with rows. rewrite Hc. cbn [mbind res_bind].
    rewrite Hvs. cbn [mbind res_bind]. reflexivity. }
  cbn [tl_items tl_total tl_revision]. split; [by apply res_mapM_Ok|done].
Qed.

End properties.

(** ** Witnesses *)

Section witnesses.

#[local] Existing Instance reference_pydantic.
#[local] Existing Instance reference_pydantic_laws.
#[local] Existing Instance epoch_clock.

Definition ex_filters : TodoFilters :=
  {| tf_kind := ""; tf_progress := "not_started"; tf_archived := "exclude"; tf_classification := ""; tf_q := "WRITE";
     tf_limit := 1; tf_after := ""; tf_revision := "" |}.

Definition ex_first : option TodoListing :=
  match todo_page ex_filters ex_todos with Ok p => Some p | Err _ => None end.

Lemma todo_list_pages_witness : ∃ page c, ex_first = Some page ∧ tl_next_cursor page = Some c
  ∧ is_ok (todo_page (next_filters ex_filters c (tl_revision page)) ex_todos) = true.
Proof.
  unfold ex_first.
  assert (match todo_page ex_filters ex_todos with
          | Ok page => match tl_next_cursor page with Some _ => true | None => false end
          | Err _ => false
          end = true) as Hb by (vm_compute; reflexivity).
  destruct (todo_page ex_filters ex_todos) as [page|e] eqn:E; [|discriminate Hb].
  destruct (todo_list_pages ex_filters ex_todos page ex_todos_wf ltac:(vm_compute; reflexivity) E)
    as (ws&rows&parents&start&_&_&_&_&_&_&_&H).
  destruct (tl_next_cursor page) as [c|] eqn:Ec; [|discriminate Hb]. exists page, c.
  destruct H as (_&page'&Hp&_). split; [reflexivity|]. split; [exact Ec|]. rewrite Hp. reflexivity.
Defined.

End witnesses.
