(* ===== verification/Kanban.v ===== *)
(** * The board

    [src/devgraph/kanban.py]: the board filter and [build_board], the bounded
    projection of the Work graph into columns with per-column cursors.
    [board_filter] is [BoardFilter.parse] and [parse_board] its checks of the
    constructed filter.  The dictionary [by_key] is the list of loaded works, whose keys are distinct
    because they come from distinct storage keys; lookups go through
    [find_work]. *)

From stdpp Require Import base gmap strings list sorting relations.
From Stdlib Require Import ZArith Ascii String.
From S2P Require Import Prelude Json Datetime Validation WorkflowContract Model Storage StorageWf StorageReads Redaction Repository Workflows Sha256 UrlQuery Todos TodoViews.

Local Open Scope Z_scope.

(** ** Filters *)

Record BoardFilter := {
  bf_kind : list string;
  bf_workflow : list string;
  bf_stage : list string;
  bf_column : list string;
  bf_scope : string;
  bf_descendants : bool;
  bf_q : string;
  bf_archived : string;
  bf_limit : Z;
  bf_after : string;
  bf_revision : string;
  bf_queue : string;
  bf_order : string;
  bf_parentage : string;
  bf_progress : list string
}.

Definition default_board : BoardFilter :=
  {| bf_kind := []; bf_workflow := []; bf_stage := []; bf_column := []; bf_scope := ""; bf_descendants := false;
     bf_q := ""; bf_archived := "exclude"; bf_limit := 30; bf_after := ""; bf_revision := ""; bf_queue := "";
     bf_order := "key"; bf_parentage := "any"; bf_progress := [] |}.

Definition PROGRESS_VALUES : list string := map Progress_value [NOT_STARTED; IN_PROGRESS; DONE].

Definition ALL_STAGES : list string := "unset" :: flat_map (λ w, stage_ids w.2) STAGES.

(** The [allowed] sets of the repeatable fields. *)
Definition all_in (allowed items : list string) : bool := forallb (λ x, str_in x allowed) items.

Definition parse_board (f : BoardFilter) : res BoardFilter :=
  rethrow (λ e, is_value_error e || is_type_error e) (λ _, InvalidBoardFilter "invalid_board_filter")
    (raise_if (negb (all_in TODO_KINDS (bf_kind f) && all_in PROGRESS_VALUES (bf_progress f)
                     && all_in (map fst STAGES ++ ["unset"]) (bf_workflow f)
                     && all_in (COLUMNS ++ ["unclassified"]) (bf_column f)
                     && all_in ALL_STAGES (bf_stage f))) (ValueError "");;
     raise_if (negb ((1 <=? bf_limit f) && (bf_limit f <=? 100)) || (200 <? str_len (bf_q f))) (ValueError "");;
     raise_if (negb (str_in (bf_archived f) ["include"; "exclude"; "only"])) (ValueError "");;
     raise_if (negb (str_in (bf_queue f) [""; "not_started"]) || negb (str_in (bf_order f) ["key"; "priority"]))
       (ValueError "");;
     raise_if (negb (str_in (bf_parentage f) ["any"; "standalone"])) (ValueError "");;
     (if truthy (bf_scope f) then todo_ref (bf_scope f) else Ok tt);;
     (if truthy (bf_after f) then todo_ref (bf_after f) else Ok tt);;
     raise_if (truthy (bf_scope f)
               && negb (str_in (nth_part (split_all slash (bf_scope f)) 0) ["Initiative"; "Project"; "Issue"]))
       (ValueError "");;
     raise_if (truthy (bf_after f) && (negb (Nat.eqb (length (bf_column f)) 1) || negb (truthy (bf_revision f))))
       (ValueError "");;
     Ok f).

(** A repeatable field: [tuple(sorted(set(items)))]. *)
Definition multiple (k : string) (values : list (string * list string)) : list string :=
  stable_sort String.leb (remove_dups (default [] (dict_get k values))).

Definition BOARD_FIELDS : list string :=
  ["kind"; "workflow"; "stage"; "column"; "scope"; "descendants"; "q"; "archived"; "limit"; "after"; "revision"; "queue";
   "order"; "parentage"; "progress"].

(** [BoardFilter.parse]. *)
Definition board_filter (text : string) : res BoardFilter :=
  rethrow (λ e, is_value_error e || is_type_error e) (λ _, InvalidBoardFilter "invalid_board_filter")
    (raise_if (8192 <? str_len text) (ValueError "");;
     values ← parse_qs false 80 text;
     raise_if (existsb (λ kv, negb (str_in kv.1 BOARD_FIELDS)) values) (ValueError "");;
     scope ← single "scope" values; descendants ← single "descendants" values; q ← single "q" values;
     archived ← single "archived" values; limit ← single "limit" values; after ← single "after" values;
     revision ← single "revision" values; queue ← single "queue" values; order ← single "order" values;
     parentage ← single "parentage" values;
     raise_if (negb (str_in (default "false" descendants) ["true"; "false"])) (ValueError "");;
     limit ← limit_of limit;
     parse_board
       {| bf_kind := multiple "kind" values; bf_workflow := multiple "workflow" values; bf_stage := multiple "stage" values;
          bf_column := multiple "column" values; bf_scope := default "" scope;
          bf_descendants := String.eqb (default "false" descendants) "true"; bf_q := default "" q;
          bf_archived := default "exclude" archived; bf_limit := limit; bf_after := default "" after;
          bf_revision := default "" revision; bf_queue := default "" queue; bf_order := default "key" order;
          bf_parentage := default "any" parentage; bf_progress := multiple "progress" values |}).

(** ** Loading *)

Section board.
  Context {PY : Pydantic} {CK : Clock}.

Definition BOARD_BUDGET : Z := 10000.

Fixpoint board_kind (fuel : nat) (k : string) (after : option string) (acc : list WorkObject) (s : Store) :
    res (list WorkObject) :=
  match fuel with
  | O => Err (RuntimeError "out of fuel")
  | S fuel' =>
      ns ← query (Some k) None false after (Some 100) s;
      raise_if (BOARD_BUDGET <? Z.of_nat (length acc) + Z.of_nat (length ns))
        (StorageUnavailable "board work budget exceeded");;
      ws ← res_mapM _from_node (filter (λ n, is_work_node k n = true) ns);
      let acc := acc ++ ws in
      if (Z.of_nat (length ns) <? 100) then Ok acc
      else match last ns with
           | Some n => board_kind fuel' k (Some (nr_id n)) acc s
           | None => Ok acc
           end
  end.

Fixpoint board_kinds (ks : list string) (acc : list WorkObject) (s : Store) : res (list WorkObject) :=
  match ks with
  | [] => Ok acc
  | k :: ks' => acc ← board_kind (page_fuel s) k None acc s; board_kinds ks' acc s
  end.

Definition kinds_of (version : Z) : list string := if version =? 2 then TODO_KINDS else WORK_KINDS.

Definition board_work (version : Z) (s : Store) : res (list WorkObject) := board_kinds (kinds_of version) [] s.

(** [by_key.get(key)]. *)
Definition find_work (k : string) (ws : list WorkObject) : option WorkObject :=
  head (filter (λ w, resource_name w = k) ws).

Definition has_work (k : string) (ws : list WorkObject) : bool := bool_decide (is_Some (find_work k ws)).

(** ** Parentage *)

Record Family := {
  fm_parents : gmap string string;
  fm_children : gmap string (list string)
}.

Definition kids_of (f : Family) (k : string) : list string := default [] (fm_children f !! k).

Fixpoint family (ws : list WorkObject) (es : list EdgeRecord) (f : Family) : res Family :=
  match es with
  | [] => Ok f
  | e :: es' =>
      let parent := resource_of (edge_from e) in
      let child := resource_of (edge_to e) in
      if has_work parent ws && has_work child ws then
        raise_if (bool_decide (is_Some (fm_parents f !! child))) (StorageUnavailable "ambiguous board parentage");;
        family ws es' {| fm_parents := <[child := parent]> (fm_parents f);
                         fm_children := <[parent := kids_of f parent ++ [child]]> (fm_children f) |}
      else family ws es' f
  end.

(** [by_key[parent].kind in PARENTS.get(by_key[child].kind, ())]. *)
Definition parent_allowed (ws : list WorkObject) (child parent : string) : bool :=
  match find_work child ws, find_work parent ws with
  | Some c, Some p =>
      str_in (kind_name (kind p)) (default [] (dict_get (kind_name (kind c)) PARENTS))
  | _, _ => false
  end.

Definition load_family (ws : list WorkObject) (s : Store) : res Family :=
  es ← edges_of "HAS_CHILD" s;
  f ← family ws es {| fm_parents := ∅; fm_children := ∅ |};
  raise_if (existsb (λ cp, negb (parent_allowed ws cp.1 cp.2)) (map_to_list (fm_parents f)))
    (StorageUnavailable "invalid board parentage");;
  Ok f.

(** [sorted((key, w.version, w.workflow_json, w.progress, w.archived) ...)]:
    the keys are distinct. *)
Definition board_revision (ws : list WorkObject) (f : Family) : string :=
  let rows := stable_sort (λ a b, String.leb (resource_name a) (resource_name b)) ws in
  fingerprint (VList
    [VList ((λ w, VList [VStr (resource_name w); VInt (version w); opt_str (workflow_json w); opt_str (progress w);
                         VBool (archived w)]) <$> rows);
     parents_value (fm_parents f)]).

(** ** Scope *)

(** The [while pending] loop: pop a key, add its new children.  One fuel unit is
    one pop. *)
Fixpoint add_new (cs pending : list string) (scoped : gset string) : list string * gset string :=
  match cs with
  | [] => (pending, scoped)
  | c :: cs' =>
      if decide (c ∈ scoped) then add_new cs' pending scoped
      else add_new cs' (c :: pending) ({[c]} ∪ scoped)
  end.

Fixpoint descend (f : Family) (fuel : nat) (pending : list string) (scoped : gset string) : option (gset string) :=
  match pending with
  | [] => Some scoped
  | k :: rest =>
      match fuel with
      | O => None
      | S fuel' => let r := add_new (kids_of f k) rest scoped in descend f fuel' r.1 r.2
      end
  end.

(** Every key popped was a scoped child; children are keys of [parents]. *)
Definition scope_fuel (f : Family) : nat := S (size (fm_parents f)).

Definition scope_of (filters : BoardFilter) (ws : list WorkObject) (f : Family) : res (option (gset string)) :=
  if truthy (bf_scope filters) then
    raise_if (negb (has_work (bf_scope filters) ws)) (MissingWorkObjectError "Board" "scope no longer exists");;
    let direct := kids_of f (bf_scope filters) in
    if bf_descendants filters then
      r ← of_option (RuntimeError "out of fuel")
            (descend f (scope_fuel f) (remove_dups direct) (list_to_set direct));
      Ok (Some r)
    else Ok (Some (list_to_set direct))
  else Ok None.

(** ** Rows *)

Record Row := {
  r_work : WorkObject;
  r_state : option WorkflowState;
  r_label : string;
  r_column : string
}.

Definition r_key (r : Row) : string := resource_name (r_work r).

Definition progress_column (p : string) : option string :=
  dict_get p [("done", "done"); ("in_progress", "in_progress"); ("not_started", "backlog")].

(** [row_info[workflow][stage]]. *)
Definition row_info (st : WorkflowState) : option (string * string) :=
  rows ← stages_of (workflow_id st);
  r ← head (filter (λ r : stage_row, r.1.1 = stage st) rows);
  Some (r.1.2, r.2).

Definition place (version : Z) (w : WorkObject) (st : option WorkflowState) : res Row :=
  lc ← match st with
       | Some x => of_option (KeyError (stage x)) (row_info x)
       | None => Ok ("Stage not set", "backlog")
       end;
  if version =? 2 then
    match progress w with
    | None => Ok {| r_work := w; r_state := st; r_label := lc.1; r_column := "unclassified" |}
    | Some p =>
        match st with
        | None =>
            c ← of_option (KeyError p) (progress_column p);
            Ok {| r_work := w; r_state := st; r_label := progress_label (Some p); r_column := c |}
        | Some _ => Ok {| r_work := w; r_state := st; r_label := lc.1; r_column := lc.2 |}
        end
    end
  else Ok {| r_work := w; r_state := st; r_label := lc.1; r_column := lc.2 |}.

Definition in_filter (allowed : list string) (x : string) : bool :=
  bool_decide (allowed = []) || str_in x allowed.

Definition row_shown (filters : BoardFilter) (f : Family) (scoped : option (gset string)) (r : Row) : bool :=
  let w := r_work r in
  negb (String.eqb (bf_queue filters) "not_started"
        && (archived w || negb (bool_decide (progress w = Some "not_started"))))
  && (bool_decide (bf_progress filters = [])
      || match progress w with Some p => str_in p (bf_progress filters) | None => false end)
  && match scoped with Some m => bool_decide (r_key r ∈ m) | None => true end
  && negb (String.eqb (bf_parentage filters) "standalone" && bool_decide (is_Some (fm_parents f !! r_key r)))
  && in_filter (bf_kind filters) (kind_name (kind w))
  && in_filter (bf_workflow filters) (match r_state r with Some st => workflow_id st | None => "unset" end)
  && in_filter (bf_stage filters) (match r_state r with Some st => stage st | None => "unset" end)
  && in_filter (bf_column filters) (r_column r)
  && found_in (bf_q filters) w
  && negb (String.eqb (bf_archived filters) "exclude" && archived w)
  && negb (String.eqb (bf_archived filters) "only" && negb (archived w)).

Definition board_columns (version : Z) : list string :=
  COLUMNS ++ if version =? 2 then ["unclassified"] else [].

Definition board_rows (version : Z) (ws : list WorkObject) : res (list Row) :=
  res_mapM (λ w, st ← state_of w; place version w st) ws.

(** The blockers that are not done, by blocked key. *)
Definition blockers_of (ws : list WorkObject) (es : list EdgeRecord) (k : string) : list string :=
  omap (λ e, if String.eqb (resource_of (edge_to e)) k then
               match find_work (resource_of (edge_from e)) ws with
               | Some b => if is_done b then None else Some (resource_of (edge_from e))
               | None => None
               end
             else None) es.

(** ** Columns *)

Definition row_leb_of (filters : BoardFilter) (a b : Row) : bool :=
  if String.eqb (bf_order filters) "priority" then
    (priority (r_work b) <? priority (r_work a))
    || ((priority (r_work a) =? priority (r_work b)) && String.leb (r_key a) (r_key b))
  else String.leb (r_key a) (r_key b).

Definition column_rows (filters : BoardFilter) (rows : list Row) (column : string) : list Row :=
  stable_sort (row_leb_of filters) (filter (λ r, r_column r = column) rows).

Definition available_rows (filters : BoardFilter) (column : string) (rows : list Row) : res (list Row) :=
  if String.eqb (bf_order filters) "priority" then
    if truthy (bf_after filters) && str_in column (bf_column filters) then
      match index_of (bf_after filters) (r_key <$> rows) with
      | Some i => Ok (drop (S i) rows)
      | None => Err (InvalidBoardFilter "priority_cursor_outside_filter")
      end
    else Ok rows
  else Ok (filter (λ r, String.ltb (bf_after filters) (r_key r) = true) rows).

Definition card (version : Z) (ws : list WorkObject) (f : Family) (blocks : list EdgeRecord) (s : Store) (r : Row) :
    res value :=
  let w := r_work r in
  let kids := kids_of f (r_key r) in
  let completed := filter (λ k, match find_work k ws with Some c => is_done c | None => false end = true) kids in
  gaps ← match r_state r with
         | Some st => completion_gaps w st s
         | None => Ok ["Stage not set"]
         end;
  ts ← transitions w s;
  Ok (VDict (mk_dict
    ([("key", VStr (r_key r)); ("kind", VStr (kind_name (kind w))); ("id", VStr (id w));
      ("title", VStr (str_take 240 (redact_text (title w)))); ("version", VStr (print_int (Model.version w)));
      ("priority", VStr (print_int (priority w)));
      ("lifecycle", VStr (if archived w then "archived" else status_value (status w)))]
     ++ (if version =? 2 then
           [("progress", opt_str (progress w)); ("progress_label", VStr (progress_label (progress w)));
            ("archived", VBool (archived w))]
         else [])
     ++ [("workflow_id", opt_str (workflow_id <$> r_state r)); ("stage", opt_str (stage <$> r_state r));
         ("stage_label", VStr (r_label r)); ("column", VStr (r_column r)); ("parent", opt_str (fm_parents f !! r_key r));
         ("child_progress", VDict (mk_dict [("done", VInt (Z.of_nat (length completed)));
                                            ("total", VInt (Z.of_nat (length kids)))]));
         ("blockers", strs (blockers_of ws blocks (r_key r))); ("evidence_gaps", strs gaps);
         ("blocking_reason", VStr (match r_state r with Some st => redact_text (blocking_reason st) | None => "" end));
         ("transitions", VList (transition_value <$> ts))]))).

(** A column of the result; [c_keys] are the keys of its items. *)
Record Column := {
  c_id : string;
  c_count : Z;
  c_keys : list string;
  c_items : list value;
  c_next_cursor : option string
}.

Definition build_column (version : Z) (filters : BoardFilter) (ws : list WorkObject) (f : Family)
    (blocks : list EdgeRecord) (rows : list Row) (s : Store) (column : string) : res Column :=
  let rows := column_rows filters rows column in
  available ← available_rows filters column rows;
  let page := take (Z.to_nat (bf_limit filters)) available in
  cards ← res_mapM (card version ws f blocks s) page;
  Ok {| c_id := column; c_count := Z.of_nat (length rows); c_keys := r_key <$> page; c_items := cards;
        c_next_cursor := if bf_limit filters <? Z.of_nat (length available) then last (r_key <$> page) else None |}.

(** ** Scopes *)

Definition scope_entry (w : WorkObject) : value :=
  VDict (mk_dict [("key", VStr (resource_name w)); ("kind", VStr (kind_name (kind w)));
                  ("title", VStr (str_take 240 (redact_text (title w))))]).

Definition scope_shown (filters : BoardFilter) (w : WorkObject) : bool :=
  str_in (kind_name (kind w)) ["Initiative"; "Project"; "Issue"]
  && (negb (String.eqb (bf_archived filters) "exclude") || negb (archived w))
  && (negb (truthy (bf_q filters)) || found_in (bf_q filters) w || String.eqb (resource_name w) (bf_scope filters)).

Definition all_scopes (filters : BoardFilter) (ws : list WorkObject) : list WorkObject :=
  filter (λ w, scope_shown filters w = true)
    (stable_sort (λ a b, String.leb (resource_name a) (resource_name b)) ws).

(** The first 200, the last replaced by the selected one when it is not among
    them. *)
Definition visible_scopes (filters : BoardFilter) (scopes : list WorkObject) : list WorkObject :=
  let visible := take 200 scopes in
  match head (filter (λ w, resource_name w = bf_scope filters) scopes) with
  | Some sel =>
      if str_in (resource_name sel) (resource_name <$> visible) then visible
      else take (pred (length visible)) visible ++ [sel]
  | None => visible
  end.

Record Board := {
  b_schema : string;
  b_revision : string;
  b_columns : list Column;
  b_total : Z;
  b_scopes : list value;
  b_scope_count : Z;
  b_scopes_truncated : bool
}.

Definition build_board (filters : BoardFilter) (version : Z) (s : Store) : res Board :=
  ws ← board_work version s;
  f ← load_family ws s;
  let revision := board_revision ws f in
  raise_if (truthy (bf_revision filters) && negb (String.eqb (bf_revision filters) revision))
    (BoardChanged "Board changed; refresh before continuing.");;
  scoped ← scope_of filters ws f;
  states ← res_mapM state_of ws;
  blocks ← edges_of "BLOCKS" s;
  all ← board_rows version ws;
  let rows := filter (λ r, row_shown filters f scoped r = true) all in
  columns ← res_mapM (build_column version filters ws f blocks rows s) (board_columns version);
  let scopes := all_scopes filters ws in
  let visible := visible_scopes filters scopes in
  Ok {| b_schema := "devgraph.kanban.v" +:+ print_int version; b_revision := revision; b_columns := columns;
        b_total := Z.of_nat (length rows); b_scopes := scope_entry <$> visible;
        b_scope_count := Z.of_nat (length scopes);
        b_scopes_truncated := (length visible <? length scopes)%nat |}.

End board.

(** ** Scopes are closed *)

Section scope.

(** The two dictionaries agree. *)
Definition family_ok (f : Family) : Prop :=
  ∀ p c, c ∈ kids_of f p ↔ fm_parents f !! c = Some p.

Lemma family_keeps ws es f f' : family_ok f → family ws es f = Ok f' → family_ok f'.
Proof.
  revert f. induction es as [|e es IH]; intros f Hf; cbn [family]; [by intros [= <-]|].
  destruct (has_work _ ws && has_work _ ws); [|by apply IH].
  intros (?&Hn%raise_if_Ok&H)%res_bind_Ok. apply bool_decide_eq_false in Hn. rewrite <-eq_None_not_Some in Hn.
  eapply IH; [|exact H]. clear IH H. set (parent := resource_of (edge_from e)) in *. set (child := resource_of (edge_to e)) in *.
  intros p c. unfold kids_of in *. cbn [fm_parents fm_children]. destruct (decide (p = parent)) as [->|Hp].
  - rewrite lookup_insert_eq. cbn [from_option Datatypes.id]. rewrite elem_of_app, list_elem_of_singleton, lookup_insert_Some.
    specialize (Hf parent). unfold kids_of in Hf. rewrite Hf. split.
    + intros [Hc| ->]; [|by left]. right. split; [|done]. intros <-. congruence.
    + intros [[-> _]|[_ Hc]]; auto.
  - rewrite lookup_insert_ne by done. specialize (Hf p). unfold kids_of in Hf. rewrite Hf, lookup_insert_Some. split.
    + intros Hc. right. split; [|done]. intros <-. congruence.
    + intros [[_ Hc]|[_ Hc]]; [congruence|done].
Qed.

Lemma load_family_ok ws s f : load_family ws s = Ok f → family_ok f.
Proof.
  unfold load_family. intros (es&_&H)%res_bind_Ok. apply res_bind_Ok in H as (f'&Hf&H).
  apply res_bind_Ok in H as (?&_&[= <-]). eapply family_keeps; [|exact Hf].
  intros p c. unfold kids_of. cbn [fm_parents fm_children]. rewrite !lookup_empty. simpl.
  rewrite elem_of_nil. naive_solver.
Qed.

Definition child_step (f : Family) (a b : string) : Prop := b ∈ kids_of f a.

Lemma add_new_spec cs pending scoped :
  let r := add_new cs pending scoped in
  r.2 = scoped ∪ list_to_set cs
  ∧ (∀ x, x ∈ r.1 ↔ x ∈ pending ∨ (x ∈ cs ∧ x ∉ scoped))
  ∧ (length r.1 + size scoped = length pending + size r.2)%nat.
Proof.
  revert pending scoped. induction cs as [|c cs IH]; intros pending scoped; cbn [add_new]; [set_solver by lia|].
  destruct (decide (c ∈ scoped)) as [Hc|Hc].
  - destruct (IH pending scoped) as (->&H2&H3). split_and!; [simpl; set_solver| |done]. intros x. rewrite H2, elem_of_cons. split; [tauto|].
    intros [?|[[->|?] ?]]; tauto.
  - destruct (IH (c :: pending) ({[c]} ∪ scoped)) as (H1&H2&H3). split_and!.
    + rewrite H1. cbn [list_to_set foldr]. by rewrite (assoc_L (∪)), (comm_L (∪) scoped).
    + intros x. rewrite H2, !elem_of_cons, not_elem_of_union, not_elem_of_singleton.
      destruct (decide (x = c)) as [->|]; tauto.
    + rewrite size_union, size_singleton in H3 by set_solver. simpl in H3. lia.
Qed.

Lemma descend_spec f fuel pending scoped : family_ok f →
  scoped ⊆ dom (fm_parents f) →
  (∀ x, x ∈ pending → x ∈ scoped) → (∀ a b, a ∈ scoped → a ∉ pending → child_step f a b → b ∈ scoped) →
  (length pending + size (fm_parents f) <= fuel + size scoped)%nat →
  ∃ r, descend f fuel pending scoped = Some r
    ∧ ∀ x, x ∈ r ↔ ∃ a, a ∈ scoped ∧ rtc (child_step f) a x.
Proof.
  intros Hf. revert pending scoped. induction fuel as [|fuel IH]; intros pending scoped Hd Hp Hc Hfuel.
  - assert (size scoped <= size (fm_parents f))%nat by (rewrite <-size_dom; by apply subseteq_size).
    destruct pending as [|k rest]; [|simpl in Hfuel; lia]. exists scoped. split; [done|]. intros x. split; [eauto using rtc_refl|].
    intros (a&Ha&Hr). induction Hr; [done|]. apply IHHr. eapply Hc; [done|apply not_elem_of_nil|done].
  - destruct pending as [|k rest].
    { exists scoped. split; [done|]. intros x. split; [eauto using rtc_refl|].
      intros (a&Ha&Hr). induction Hr; [done|]. apply IHHr. eapply Hc; [done|apply not_elem_of_nil|done]. }
    cbn [descend]. destruct (add_new_spec (kids_of f k) rest scoped) as (H1&H2&H3).
    destruct (IH (add_new (kids_of f k) rest scoped).1 (add_new (kids_of f k) rest scoped).2) as (r&Hr&Hrx).
    + rewrite H1. intros x [Hx|Hx%elem_of_list_to_set]%elem_of_union; [by apply Hd|].
      apply Hf in Hx. by apply elem_of_dom_2 in Hx.
    + intros x. rewrite H1, H2. set_solver.
    + intros a b Ha Hna Hab. rewrite H1 in Ha |- *. apply elem_of_union.
      assert (a ∉ rest ∧ (a ∈ kids_of f k → a ∈ scoped)) as [Hn1 Hn2].
      { rewrite H2 in Hna. destruct (decide (a ∈ scoped)); [tauto|]. split; [tauto|]. intros ?. exfalso. tauto. }
      assert (a ∈ scoped) as Has by (apply elem_of_union in Ha as [?|?%elem_of_list_to_set]; auto).
      destruct (decide (a = k)) as [->|Hk]; [right; by apply elem_of_list_to_set|].
      left. eapply Hc; [exact Has|set_solver|exact Hab].
    + simpl in Hfuel. lia.
    + exists r. split; [exact Hr|]. intros x. rewrite Hrx, H1. split.
      * intros (a&[Ha|Ha%elem_of_list_to_set]%elem_of_union&Hrt); [eauto|].
        exists k. split; [apply Hp; left|]. by eapply rtc_l.
      * intros (a&Ha&Hrt). exists a. set_solver.
Qed.

End scope.

(** ** The board holds the whole graph once *)

Section rows.
  Context {PY : Pydantic} {PL : PydanticLaws} {CK : Clock}.

Notation loads_as := (Forall2 (λ n w, _from_node n = Ok w)).

(** The board's loop is the Todo list's with an earlier budget check. *)
Lemma board_kind_load fuel k after acc s ws : board_kind fuel k after acc s = Ok ws → load_kind fuel k after acc s = Ok ws.
Proof.
  revert after acc. induction fuel as [|fuel IH]; intros after acc; cbn [board_kind load_kind]; [done|].
  intros (ns&Hns&H)%res_bind_Ok. rewrite Hns. cbn [mbind res_bind].
  apply res_bind_Ok in H as (?&Hb%raise_if_Ok&H). apply res_bind_Ok in H as (ws1&Hws&H). rewrite Hws. cbn [mbind res_bind].
  apply Z.ltb_ge in Hb. apply res_mapM_Ok in Hws. apply Forall2_length in Hws.
  pose proof (length_filter (λ n, is_work_node k n = true) ns) as Hlen.
  rewrite (proj2 (Z.ltb_ge READ_BUDGET _)) by (rewrite length_app; unfold BOARD_BUDGET, READ_BUDGET in *; lia).
  cbn [raise_if mbind res_bind]. destruct (_ <? 100); [done|]. destruct (last ns); [by apply IH|done].
Qed.

Lemma board_kinds_load ks acc s ws : board_kinds ks acc s = Ok ws → load_kinds ks acc s = Ok ws.
Proof.
  revert acc. induction ks as [|k ks IH]; intros acc; cbn [board_kinds load_kinds]; [done|].
  intros (ws1&H1%board_kind_load&H2)%res_bind_Ok. rewrite H1. cbn [mbind res_bind]. by apply IH.
Qed.

Lemma kinds_of_sub v k : k ∈ kinds_of v → k ∈ TODO_KINDS.
Proof. unfold kinds_of. destruct (v =? 2); [done|]. unfold TODO_KINDS, WORK_KINDS. set_solver. Qed.

Lemma board_work_facts v s ws : store_wf s → board_work v s = Ok ws →
  loads_as (List.concat (kind_nodes s <$> kinds_of v)) ws ∧ Forall loaded ws ∧ NoDup (resource_name <$> ws).
Proof.
  intros Hs H%board_kinds_load. apply load_kinds_spec in H as (ws'&Hl&->&_); [|done|done]. simpl. split; [done|].
  assert (Forall loaded ws') as Hld.
  { apply Forall_forall. intros w [i Hw]%list_elem_of_lookup. destruct (Forall2_lookup_r _ _ _ _ _ Hl Hw) as (n&Hn&Hf).
    apply from_node_inv in Hf as (?&_&Hk&_). split; [done|]. injection Hk as -> _.
    apply list_elem_of_lookup_2, list_elem_of_In, in_concat in Hn as (l&Hl'&Hin). apply list_elem_of_In in Hl', Hin.
    apply list_elem_of_fmap in Hl' as (k&->&Hk). apply kind_nodes_label in Hin; [|done]. subst. by eapply kinds_of_sub. }
  split; [done|]. apply resource_names_nodup; [done|]. rewrite (loads_keys _ _ Hl). apply nodes_nodup; [done|].
  unfold kinds_of. destruct (v =? 2); apply (bool_decide_unpack _); by vm_compute.
Qed.

Lemma place_work v w st r : place v w st = Ok r → r_work r = w.
Proof.
  unfold place. intros (lc&_&H)%res_bind_Ok. destruct (v =? 2); [|by injection H as <-].
  destruct (progress w) as [p|]; [|by injection H as <-]. destruct st; [by injection H as <-|].
  apply res_bind_Ok in H as (c&_&H). by injection H as <-.
Qed.

Lemma board_rows_works v ws rows : board_rows v ws = Ok rows → r_work <$> rows = ws.
Proof.
  unfold board_rows. intros H%res_mapM_Ok. induction H as [|w r ws rows Hr _ IH]; [done|]. rewrite fmap_cons, IH. f_equal.
  apply res_bind_Ok in Hr as (st&_&Hr). by eapply place_work.
Qed.

Lemma row_info_column st lc : row_info st = Some lc → lc.2 ∈ COLUMNS.
Proof.
  assert (Forall (λ wr : string * list stage_row, Forall (λ r : stage_row, r.2 ∈ COLUMNS) wr.2) STAGES) as Hall.
  { apply (bool_decide_unpack _). by vm_compute. }
  unfold row_info, stages_of. destruct (dict_get (workflow_id st) STAGES) as [rows|] eqn:E; [|done]. cbn [mbind option_bind].
  destruct (head _) as [r|] eqn:Eh; [|done]. cbn [mbind option_bind]. intros [= <-]. simpl.
  apply dict_get_elem in E as Hin.
  rewrite Forall_forall in Hall. specialize (Hall _ Hin). rewrite Forall_forall in Hall. apply Hall.
  apply head_Some_elem_of in Eh. by apply list_elem_of_filter in Eh as [_ ?].
Qed.

Lemma progress_column_in p c : progress_column p = Some c → c ∈ COLUMNS.
Proof.
  unfold progress_column. cbn [dict_get]. repeat (destruct (String.eqb _ _); [intros [= <-]; apply str_in_spec; by vm_compute|]).
  done.
Qed.

Lemma place_column v w st r : place v w st = Ok r → r_column r ∈ board_columns v.
Proof.
  unfold place, board_columns. intros (lc&Hlc&H)%res_bind_Ok. rewrite elem_of_app.
  assert (lc.2 ∈ COLUMNS) as Hc.
  { destruct st as [x|]; [apply of_option_Ok in Hlc; by eapply row_info_column|]. injection Hlc as <-.
    apply str_in_spec. by vm_compute. }
  destruct (v =? 2); [|injection H as <-; by left].
  destruct (progress w) as [p|]; [|injection H as <-; right; set_solver].
  destruct st; [injection H as <-; by left|]. apply res_bind_Ok in H as (c&Hp%of_option_Ok&H). injection H as <-. left.
  by eapply progress_column_in.
Qed.

Lemma board_rows_columns v ws rows : board_rows v ws = Ok rows → Forall (λ r, r_column r ∈ board_columns v) rows.
Proof.
  unfold board_rows. intros H%res_mapM_Ok. induction H as [|w r ws rows Hr _ IH]; constructor; [|done].
  apply res_bind_Ok in Hr as (st&_&Hr). by eapply place_column.
Qed.

Lemma nodup_keys_filter (P : Row → Prop) `{∀ r, Decision (P r)} rows : NoDup (r_key <$> rows) → NoDup (r_key <$> filter P rows).
Proof.
  induction rows as [|r rows IH]; [done|]. rewrite fmap_cons, filter_cons. intros [Hni Hd]%NoDup_cons.
  case_decide; [|by apply IH]. rewrite fmap_cons. constructor; [|by apply IH].
  intros (x&Hx&[_ Hin]%list_elem_of_filter)%list_elem_of_fmap. apply Hni, list_elem_of_fmap. eauto.
Qed.

(** Each row is counted in one column. *)
Definition total_count (cols : list string) (rows : list Row) : nat :=
  foldr (λ c n, (length (filter (λ r, r_column r = c) rows) + n)%nat) O cols.

Lemma total_count_cons cols r rows : NoDup cols → r_column r ∈ cols →
  total_count cols (r :: rows) = S (total_count cols rows).
Proof.
  intros Hd. unfold total_count. induction Hd as [|c cols Hc Hd IH]; [by intros ?%elem_of_nil|]. cbn [foldr].
  rewrite filter_cons. intros Hr. destruct (decide (r_column r = c)) as [<-|Hne].
  - cbn [length]. assert (∀ l, r_column r ∉ l →
      foldr (λ c n, (length (filter (λ r0, r_column r0 = c) (r :: rows)) + n)%nat) O l
      = foldr (λ c n, (length (filter (λ r0, r_column r0 = c) rows) + n)%nat) O l) as Hsame.
    { intros l. induction l as [|x l IHl]; [done|]. rewrite not_elem_of_cons. intros [Hx Hl]. cbn [foldr].
      rewrite filter_cons_False by congruence. by rewrite IHl. }
    rewrite Hsame by done. lia.
  - rewrite IH; [lia|]. by apply elem_of_cons in Hr as [?|?].
Qed.

Lemma total_count_all cols rows : NoDup cols → Forall (λ r, r_column r ∈ cols) rows → total_count cols rows = length rows.
Proof.
  intros Hd. induction 1 as [|r rows Hr _ IH]; [|rewrite total_count_cons by done; simpl; lia].
  unfold total_count. clear Hd. induction cols; simpl; auto.
Qed.

Lemma board_columns_nodup v : NoDup (board_columns v).
Proof. unfold board_columns. destruct (v =? 2); apply (bool_decide_unpack _); by vm_compute. Qed.

(** What a built column holds. *)
Definition column_spec (filters : BoardFilter) (rows : list Row) (c : Column) : Prop :=
  c_count c = Z.of_nat (length (filter (λ r, r_column r = c_id c) rows))
  ∧ ∃ available, available_rows filters (c_id c) (column_rows filters rows (c_id c)) = Ok available
      ∧ c_keys c = r_key <$> take (Z.to_nat (bf_limit filters)) available
      ∧ length (c_items c) = length (c_keys c)
      ∧ c_next_cursor c = if bf_limit filters <? Z.of_nat (length available) then last (c_keys c) else None.

Lemma build_column_spec v filters ws f blocks rows s k c :
  build_column v filters ws f blocks rows s k = Ok c → c_id c = k ∧ column_spec filters rows c.
Proof.
  unfold build_column. intros (avail&Ha&H)%res_bind_Ok. apply res_bind_Ok in H as (cards&Hc&[= <-]).
  split; [done|]. split; cbn [c_count c_id c_keys c_items c_next_cursor].
  - unfold column_rows. by rewrite (Permutation_length (stable_sort_perm _ _)).
  - exists avail. split; [done|]. split; [done|]. split; [|done].
    apply res_mapM_Ok, Forall2_length in Hc. by rewrite length_fmap.
Qed.

Lemma build_columns_spec v filters ws f blocks rows s cols cs :
  res_mapM (build_column v filters ws f blocks rows s) cols = Ok cs →
  c_id <$> cs = cols ∧ Forall (column_spec filters rows) cs
  ∧ foldr (λ c n, c_count c + n) 0 cs = Z.of_nat (total_count cols rows).
Proof.
  intros H%res_mapM_Ok. induction H as [|k c cols cs Hc _ (IH1&IH2&IH3)]; [done|].
  apply build_column_spec in Hc as [Hk Hspec]. rewrite fmap_cons, IH1, Hk. split; [done|]. split; [by constructor|].
  unfold total_count in *. cbn [foldr]. rewrite IH3. destruct Hspec as [-> _]. rewrite Hk. lia.
Qed.

(** The rows a board shows. *)
Definition shown_rows (filters : BoardFilter) (f : Family) (scoped : option (gset string)) (all : list Row) : list Row :=
  filter (λ r, row_shown filters f scoped r = true) all.

Lemma build_board_inv filters v s b : build_board filters v s = Ok b → ∃ ws f scoped blocks all,
  board_work v s = Ok ws ∧ load_family ws s = Ok f ∧ scope_of filters ws f = Ok scoped
  ∧ edges_of "BLOCKS" s = Ok blocks ∧ board_rows v ws = Ok all
  ∧ res_mapM (build_column v filters ws f blocks (shown_rows filters f scoped all) s) (board_columns v) = Ok (b_columns b)
  ∧ b_total b = Z.of_nat (length (shown_rows filters f scoped all)) ∧ b_revision b = board_revision ws f.
Proof.
  unfold build_board. intros (ws&Hws&H)%res_bind_Ok. apply res_bind_Ok in H as (f&Hf&H).
  apply res_bind_Ok in H as (?&_&H). apply res_bind_Ok in H as (scoped&Hsc&H). apply res_bind_Ok in H as (states&_&H).
  apply res_bind_Ok in H as (blocks&Hb&H). apply res_bind_Ok in H as (all&Hall&H).
  apply res_bind_Ok in H as (cols&Hcols&[= <-]). by exists ws, f, scoped, blocks, all.
Qed.

Lemma shown_rows_keys filters f scoped v ws all : NoDup (resource_name <$> ws) → board_rows v ws = Ok all →
  NoDup (r_key <$> shown_rows filters f scoped all).
Proof.
  intros Hd Ha%board_rows_works. apply nodup_keys_filter. subst ws. by rewrite <-list_fmap_compose in Hd.
Qed.

(** ** Children are the [HAS_CHILD] edges between loaded works *)

Definition has_child (ws : list WorkObject) (s : Store) (p c : string) : Prop :=
  ∃ e, e ∈ edges s ∧ relationship e = "HAS_CHILD" ∧ resource_of (edge_from e) = p ∧ resource_of (edge_to e) = c
       ∧ has_work p ws = true ∧ has_work c ws = true.

Lemma family_edges ws es f f' p c : family ws es f = Ok f' →
  c ∈ kids_of f' p ↔ c ∈ kids_of f p ∨ ∃ e, e ∈ es ∧ resource_of (edge_from e) = p
    ∧ resource_of (edge_to e) = c ∧ has_work p ws = true ∧ has_work c ws = true.
Proof.
  revert f. induction es as [|e es IH]; intros f; cbn [family].
  { intros [= <-]. split; [by left|]. intros [?|(e&He&_)]; [done|]. by apply elem_of_nil in He. }
  destruct (has_work (resource_of (edge_from e)) ws && has_work (resource_of (edge_to e)) ws) eqn:Eh.
  - apply andb_true_iff in Eh as [Hp Hc]. intros (?&_&H)%res_bind_Ok. rewrite (IH _ H). unfold kids_of. cbn [fm_children].
    destruct (decide (resource_of (edge_from e) = p)) as [<-|Hne].
    + rewrite lookup_insert_eq. cbn [from_option Datatypes.id]. rewrite elem_of_app, list_elem_of_singleton. split.
      * intros [[?| ->]|(e'&He&?)]; [by left|right; exists e; split; [left|done]|right; exists e'; split; [by right|done]].
      * intros [?|(e'&[->|He]%elem_of_cons&?&<-&?)]; [auto|auto|]. right. by exists e'.
    + rewrite lookup_insert_ne by done. split; (intros [?|(e'&He&Hf&Hr)]; [by left|right]).
      * exists e'. split; [by right|done].
      * exists e'. apply elem_of_cons in He as [->|He]; [done|]. done.
  - intros H. rewrite (IH _ H). split; (intros [?|(e'&He&Hf&Ht&Hp&Hc)]; [by left|right]).
    + exists e'. split; [by right|done].
    + exists e'. apply elem_of_cons in He as [->|He]; [|done]. subst. by rewrite Hp, Hc in Eh.
Qed.

Lemma child_step_edges ws s f p c : load_family ws s = Ok f → child_step f p c ↔ has_child ws s p c.
Proof.
  unfold load_family. intros (es&He&H)%res_bind_Ok. apply res_bind_Ok in H as (f'&Hf&H).
  apply res_bind_Ok in H as (?&_&[= <-]). unfold child_step. rewrite (family_edges _ _ _ _ p c Hf).
  unfold edges_of in He. apply res_bind_Ok in He as (es'&Hl&He). apply res_bind_Ok in He as (?&Hb%raise_if_Ok&[= ->]).
  apply Z.ltb_ge in Hb. apply list_edges_all in Hl as ->; [|lia]. unfold has_child. split.
  - intros [Hn|(e&[Hr He]%list_elem_of_filter&?&?&?&?)]; [|by exists e]. unfold kids_of in Hn. cbn [fm_children] in Hn.
    rewrite lookup_empty in Hn. by apply elem_of_nil in Hn.
  - intros (e&He&Hr&?). right. exists e. split; [|done]. by apply list_elem_of_filter.
Qed.

(** ** Cursors *)

Definition row_before (filters : BoardFilter) (a b : Row) : Prop := String.ltb (r_key a) (r_key b) = true.

Lemma column_rows_sorted filters rows k : NoDup (r_key <$> rows) → String.eqb (bf_order filters) "priority" = false →
  StronglySorted (row_before filters) (column_rows filters rows k).
Proof.
  intros Hd Ho. unfold column_rows.
  assert (StronglySorted (λ a b, String.leb (r_key a) (r_key b) = true)
            (stable_sort (row_leb_of filters) (filter (λ r, r_column r = k) rows))) as Hs.
  { assert (row_leb_of filters = λ a b, String.leb (r_key a) (r_key b)) as -> by (unfold row_leb_of; by rewrite Ho).
    apply stable_sort_sorted; intros x y.
    - destruct (String.leb_total (r_key x) (r_key y)); congruence.
    - intros z. apply str_le_trans. }
  assert (NoDup (r_key <$> stable_sort (row_leb_of filters) (filter (λ r, r_column r = k) rows))) as Hn.
  { rewrite stable_sort_perm. by apply nodup_keys_filter. }
  revert Hs Hn. generalize (stable_sort (row_leb_of filters) (filter (λ r, r_column r = k) rows)). intros l.
  induction 1 as [|x l Hs IH Hx]; [constructor|]. rewrite fmap_cons. intros [Hni Hk]%NoDup_cons. constructor; [by apply IH|].
  rewrite Forall_forall in *. intros y Hy. specialize (Hx y Hy). unfold row_before.
  apply str_leb_spec in Hx as [Heq|?]; [|done]. exfalso. apply Hni. rewrite Heq. by apply list_elem_of_fmap_2.
Qed.

Definition next_board (filters : BoardFilter) (k r : string) : BoardFilter :=
  {| bf_kind := bf_kind filters; bf_workflow := bf_workflow filters; bf_stage := bf_stage filters;
     bf_column := bf_column filters; bf_scope := bf_scope filters; bf_descendants := bf_descendants filters;
     bf_q := bf_q filters; bf_archived := bf_archived filters; bf_limit := bf_limit filters; bf_after := k;
     bf_revision := r; bf_queue := bf_queue filters; bf_order := bf_order filters;
     bf_parentage := bf_parentage filters; bf_progress := bf_progress filters |}.

Lemma parse_board_limit filters : parse_board filters = Ok filters → 1 <= bf_limit filters <= 100.
Proof.
  unfold parse_board. rewrite rethrow_Ok. intros (?&_&H)%res_bind_Ok. apply res_bind_Ok in H as (?&H%raise_if_Ok&_).
  apply orb_false_iff in H as [H _]. apply negb_false_iff, andb_true_iff in H. rewrite !Z.leb_le in H. lia.
Qed.

(** After the last row of a page come exactly the rows the page left out. *)
Lemma available_next filters rows c n x avail r :
  NoDup (r_key <$> rows) → bf_column filters = [c] →
  available_rows filters c (column_rows filters rows c) = Ok avail → last (take n avail) = Some x →
  available_rows (next_board filters (r_key x) r) c (column_rows filters rows c) = Ok (drop n avail).
Proof.
  intros Hd Hcol Ha Hl. unfold available_rows in *. cbn [next_board bf_order bf_after bf_column]. rewrite Hcol in *.
  assert (truthy (r_key x) = true) as Ht by apply resource_truthy.
  destruct (String.eqb (bf_order filters) "priority") eqn:Eo.
  - rewrite Ht. replace (str_in c [c]) with true in * by (symmetry; apply str_in_spec; set_solver). rewrite andb_true_r in Ha. simpl.
    assert (NoDup (r_key <$> column_rows filters rows c)) as Hk.
    { unfold column_rows. rewrite stable_sort_perm. by apply nodup_keys_filter. }
    assert (∃ i, avail = drop i (column_rows filters rows c)) as [i ->].
    { destruct (truthy (bf_after filters)); [|injection Ha as <-; by exists O].
      destruct (index_of _ _) as [j|]; [injection Ha as <-; by exists (S j)|done]. }
    assert ((0 < n)%nat) as Hn by (destruct n; [by rewrite take_0 in Hl|lia]).
    rewrite last_lookup, length_take in Hl.
    set (m := pred (n `min` length (drop i (column_rows filters rows c)))) in *.
    assert (drop i (column_rows filters rows c) !! m = Some x) as Hx.
    { rewrite lookup_take_Some in Hl. by destruct Hl. }
    rewrite lookup_drop in Hx.
    rewrite (index_of_lookup _ (i + m) (r_key x) Hk) by (by rewrite list_lookup_fmap, Hx).
    assert (m < length (drop i (column_rows filters rows c)))%nat as Hm.
    { apply lookup_lt_Some in Hx. rewrite length_drop. lia. }
    rewrite drop_drop. f_equal. destruct (decide (n <= length (drop i (column_rows filters rows c)))%nat).
    + f_equal. unfold m. lia.
    + rewrite !drop_ge; [done|..]; unfold m in *; rewrite length_drop in *; lia.
  - injection Ha as <-. f_equal. pose proof (column_rows_sorted filters rows c Hd Eo) as Hs.
    assert (String.ltb (bf_after filters) (r_key x) = true) as Hx.
    { apply last_Some_elem_of, subseteq_take in Hl. by apply list_elem_of_filter in Hl as [? _]. }
    assert (Transitive (row_before filters)) by (intros a b d; apply str_ltb_trans).
    assert (∀ a b, Decision (row_before filters a b)) by (intros; unfold row_before; apply _).
    rewrite <-(sorted_cut (row_before filters) _ n x); [| |by apply StronglySorted_filter|done].
    + rewrite list_filter_filter. apply list_filter_iff. intros a. unfold row_before. split; [|tauto].
      intros Hxa. split; [done|]. by eapply str_ltb_trans.
    + intros a Haa. unfold row_before in Haa. by rewrite str_ltb_irrefl in Haa.
Qed.

(** ** What a board promises

    The filter, the placement, the order and the pages of a column said without the
    functions that compute them. *)

(** What a filter asks of a row. *)
Record shows (filters : BoardFilter) (f : Family) (scoped : option (gset string)) (r : Row) : Prop := {
  sh_queue : bf_queue filters = "not_started" → archived (r_work r) = false ∧ progress (r_work r) = Some "not_started";
  sh_progress : bf_progress filters ≠ [] → ∃ p, progress (r_work r) = Some p ∧ p ∈ bf_progress filters;
  sh_scope : ∀ m, scoped = Some m → r_key r ∈ m;
  sh_parentage : bf_parentage filters = "standalone" → fm_parents f !! r_key r = None;
  sh_kind : bf_kind filters ≠ [] → kind_name (kind (r_work r)) ∈ bf_kind filters;
  sh_workflow : bf_workflow filters ≠ [] → default "unset" (workflow_id <$> r_state r) ∈ bf_workflow filters;
  sh_stage : bf_stage filters ≠ [] → default "unset" (stage <$> r_state r) ∈ bf_stage filters;
  sh_column : bf_column filters ≠ [] → r_column r ∈ bf_column filters;
  sh_text : ∃ before after, casefold (redact_text (title (r_work r)) +:+ " " +:+ id (r_work r))
              = before +:+ casefold (bf_q filters) +:+ after;
  sh_exclude : bf_archived filters = "exclude" → archived (r_work r) = false;
  sh_only : bf_archived filters = "only" → archived (r_work r) = true
}.

(** The column of a work object: without a workflow the first column, or, on the
    second version, the one of its progress; with a workflow the one of its stage; but
    without progress the second version leaves it unclassified. *)
Inductive placed_by (version : Z) (w : WorkObject) : option WorkflowState → string → Prop :=
  | by_stage st label column : row_info st = Some (label, column) → (version = 2 → progress w ≠ None) →
      placed_by version w (Some st) column
  | unset : version ≠ 2 → placed_by version w None "backlog"
  | by_progress p column : version = 2 → progress w = Some p →
      (p, column) ∈ [("done", "done"); ("in_progress", "in_progress"); ("not_started", "backlog")] →
      placed_by version w None column
  | unclassified st : version = 2 → progress w = None → placed_by version w st "unclassified".

(** By key, or by decreasing priority and then key. *)
Definition shown_before (filters : BoardFilter) (a b : Row) : Prop :=
  if decide (bf_order filters = "priority") then
    priority (r_work b) < priority (r_work a)
    ∨ (priority (r_work a) = priority (r_work b) ∧ String.ltb (r_key a) (r_key b) = true)
  else String.ltb (r_key a) (r_key b) = true.

(** The rows [before] are those the cursor passes over: up to the row it names in
    the order of priority, where it counts for its own column only; up to its key in
    the order of keys. *)
Definition passes_over (filters : BoardFilter) (column : string) (before rest : list Row) : Prop :=
  if decide (bf_order filters = "priority") then
    if decide (bf_after filters ≠ "" ∧ column ∈ bf_column filters)
    then ∃ b x, before = b ++ [x] ∧ r_key x = bf_after filters
    else before = []
  else Forall (λ r, String.ltb (bf_after filters) (r_key r) = false) before
       ∧ Forall (λ r, String.ltb (bf_after filters) (r_key r) = true) rest.

(** A column counts all its rows, and its items are the first [limit] of them after
    the cursor; a next cursor names the last one when more follow. *)
Definition column_shows (filters : BoardFilter) (rows : list Row) (c : Column) : Prop :=
  ∃ before page after,
    StronglySorted (shown_before filters) (before ++ page ++ after)
    ∧ (∀ r, r ∈ before ++ page ++ after ↔ r ∈ rows ∧ r_column r = c_id c)
    ∧ passes_over filters (c_id c) before (page ++ after)
    ∧ length page = (Z.to_nat (bf_limit filters) `min` length (page ++ after))%nat
    ∧ c_count c = Z.of_nat (length (before ++ page ++ after))
    ∧ c_keys c = r_key <$> page ∧ length (c_items c) = length page
    ∧ c_next_cursor c = if decide (after = []) then None else last (r_key <$> page).

Lemma in_filter_spec l x : in_filter l x = true ↔ (l ≠ [] → x ∈ l).
Proof.
  unfold in_filter. rewrite orb_true_iff, bool_decide_eq_true, str_in_spec.
  destruct (decide (l = [])) as [->|Hl]; [|tauto]. split; [done|]. by left.
Qed.

Lemma eqb_implies a b (x : bool) (P : Prop) : (x = false ↔ P) → negb (String.eqb a b && x) = true ↔ (a = b → P).
Proof. intros <-. destruct (String.eqb_spec a b), x; naive_solver. Qed.

Lemma row_shown_spec filters f scoped r : row_shown filters f scoped r = true ↔ shows filters f scoped r.
Proof.
  unfold row_shown, found_in. cbv zeta. rewrite !andb_true_iff, has_substring_spec, !in_filter_spec.
  rewrite (eqb_implies _ _ _ (archived (r_work r) = false ∧ progress (r_work r) = Some "not_started")),
    (eqb_implies _ _ _ (fm_parents f !! r_key r = None)), (eqb_implies _ _ _ (archived (r_work r) = false)) by
    (rewrite ?orb_false_iff, ?negb_false_iff, ?bool_decide_eq_true, ?bool_decide_eq_false, <-?eq_None_not_Some; tauto).
  rewrite (eqb_implies _ _ _ (archived (r_work r) = true)) by apply negb_false_iff.
  assert (bool_decide (bf_progress filters = [])
      || match progress (r_work r) with Some p => str_in p (bf_progress filters) | None => false end = true
      ↔ (bf_progress filters ≠ [] → ∃ p, progress (r_work r) = Some p ∧ p ∈ bf_progress filters)) as ->.
  { rewrite orb_true_iff, bool_decide_eq_true. destruct (progress (r_work r)) as [p|]; rewrite ?str_in_spec;
      destruct (decide (bf_progress filters = [])); naive_solver. }
  assert (match scoped with Some m => bool_decide (r_key r ∈ m) | None => true end = true
      ↔ ∀ m, scoped = Some m → r_key r ∈ m) as ->.
  { destruct scoped as [m|]; rewrite ?bool_decide_eq_true; naive_solver. }
  assert (match r_state r with Some st => workflow_id st | None => "unset" end = default "unset" (workflow_id <$> r_state r)) as ->
    by (by destruct (r_state r)).
  assert (match r_state r with Some st => stage st | None => "unset" end = default "unset" (stage <$> r_state r)) as ->
    by (by destruct (r_state r)).
  split; [intros H; constructor; tauto|intros []; split_and!; done].
Qed.

Lemma place_spec v w st r : place v w st = Ok r → r_work r = w ∧ r_state r = st ∧ placed_by v w st (r_column r).
Proof.
  intros H. pose proof (place_work v w st r H) as Hw. split; [done|]. unfold place in H. apply res_bind_Ok in H as ([label column]&Hlc&H).
  cbn [fst snd] in H. assert (∀ x, st = Some x → row_info x = Some (label, column)) as Hst.
  { intros x ->. by apply of_option_Ok in Hlc. }
  assert (st = None → column = "backlog") as Hnone by (intros ->; by injection Hlc as _ <-).
  destruct (Z.eqb_spec v 2) as [Hv|Hv].
  - destruct (progress w) as [p|] eqn:Ep; [|injection H as <-; split; [done|by constructor]].
    destruct st as [x|]; [injection H as <-; split; [done|]; econstructor; [by apply Hst|congruence]|].
    apply res_bind_Ok in H as (c&Hc%of_option_Ok&[= <-]). split; [done|]. apply dict_get_elem in Hc. by econstructor.
  - injection H as <-. split; [done|]. destruct st as [x|]; [econstructor; [by apply Hst|done]|].
    rewrite Hnone by done. by constructor.
Qed.

Lemma board_rows_placed v ws rows r : board_rows v ws = Ok rows → r ∈ rows →
  state_of (r_work r) = Ok (r_state r) ∧ placed_by v (r_work r) (r_state r) (r_column r).
Proof.
  unfold board_rows. intros H%res_mapM_Ok [i Hr]%list_elem_of_lookup. destruct (Forall2_lookup_r _ _ _ _ _ H Hr) as (w&_&Hw).
  apply res_bind_Ok in Hw as (st&Hst&Hp). apply place_spec in Hp as (Hw&<-&?). by subst w.
Qed.

Lemma row_leb_of_total filters a b : row_leb_of filters a b = false → row_leb_of filters b a = true.
Proof.
  unfold row_leb_of. destruct (String.leb_total (r_key a) (r_key b)) as [H|H]; destruct (String.eqb _ _); rewrite H; try done.
  all: rewrite orb_false_iff, orb_true_iff, andb_false_iff, andb_true_iff, Z.ltb_ge, Z.ltb_lt, Z.eqb_eq, Z.eqb_neq.
  all: intros [? [?|?]]; [lia|try done]. lia.
Qed.

Lemma row_leb_of_trans filters a b c : row_leb_of filters a b = true → row_leb_of filters b c = true → row_leb_of filters a c = true.
Proof.
  unfold row_leb_of. destruct (String.eqb _ _); [|apply str_le_trans].
  rewrite !orb_true_iff, !andb_true_iff, !Z.ltb_lt, !Z.eqb_eq.
  intros [?|[? H1]] [?|[? H2]]; [left; lia..|]. right. split; [lia|]. exact (str_le_trans _ _ _ H1 H2).
Qed.

Lemma column_rows_spec filters rows k : NoDup (r_key <$> rows) →
  StronglySorted (shown_before filters) (column_rows filters rows k)
  ∧ ∀ r, r ∈ column_rows filters rows k ↔ r ∈ rows ∧ r_column r = k.
Proof.
  intros Hd. unfold column_rows.
  destruct (stable_sort_keyed (row_leb_of filters) (shown_before filters) r_key (filter (λ r, r_column r = k) rows)) as [Hs Hin].
  - apply row_leb_of_total.
  - apply row_leb_of_trans.
  - unfold row_leb_of, shown_before. intros a b. destruct (String.eqb_spec (bf_order filters) "priority") as [Ho|Ho].
    + rewrite decide_True by done. rewrite orb_true_iff, andb_true_iff, Z.ltb_lt, Z.eqb_eq, str_leb_spec. tauto.
    + rewrite decide_False by done. rewrite str_leb_spec. tauto.
  - by apply nodup_keys_filter.
  - split; [done|]. intros r. rewrite Hin, list_elem_of_filter. tauto.
Qed.

(** The rows past a key are an end of the rows sorted by key. *)
Lemma key_suffix k rows : StronglySorted (λ a b, String.ltb (r_key a) (r_key b) = true) rows →
  let past := filter (λ r, String.ltb k (r_key r) = true) rows in
  ∃ before, rows = before ++ past ∧ Forall (λ r, String.ltb k (r_key r) = false) before
            ∧ Forall (λ r, String.ltb k (r_key r) = true) past.
Proof.
  cbv zeta. induction 1 as [|r rows _ (before&Heq&Hb&Hp) Hr]; [by exists []|]. rewrite filter_cons. case_decide as Hk.
  - exists []. assert (Forall (λ x, String.ltb k (r_key x) = true) rows) as Hall.
    { eapply Forall_impl; [exact Hr|]. intros x Hx. by eapply str_ltb_trans. }
    assert (before = []) as ->.
    { destruct before as [|x before]; [done|]. rewrite Heq in Hall. apply Forall_cons in Hb as [Hb _], Hall as [Hall _]. congruence. }
    split; [by rewrite Heq at 1|]. split; [constructor|]. by constructor.
  - exists (r :: before). split; [by rewrite Heq at 1|]. split; [|done]. constructor; [|done]. by apply not_true_iff_false.
Qed.

Lemma available_rows_spec filters c rows available : StronglySorted (shown_before filters) rows →
  available_rows filters c rows = Ok available → ∃ before, rows = before ++ available ∧ passes_over filters c before available.
Proof.
  unfold available_rows, passes_over. intros Hs. destruct (String.eqb_spec (bf_order filters) "priority") as [Ho|Ho].
  - destruct (decide (bf_order filters = "priority")) as [_|]; [|done]. destruct (truthy (bf_after filters) && str_in c (bf_column filters)) eqn:Ea.
    + apply andb_true_iff in Ea as [?%truthy_spec ?%str_in_spec]. destruct (index_of _ _) as [i|] eqn:Ei; [|done].
      intros [= <-]. apply index_of_Some in Ei. rewrite list_lookup_fmap in Ei.
      destruct (rows !! i) as [x|] eqn:Ex; [|done]. injection Ei as Ei. exists (take (S i) rows). rewrite take_drop. split; [done|].
      rewrite decide_True by done. exists (take i rows), x. split; [by apply take_S_r|done].
    + intros [= <-]. exists []. split; [done|]. rewrite decide_False; [done|]. intros [?%truthy_spec ?%str_in_spec].
      by rewrite andb_false_iff in Ea; destruct Ea; congruence.
  - intros [= <-]. assert (StronglySorted (λ a b, String.ltb (r_key a) (r_key b) = true) rows) as Hk.
    { clear -Hs Ho. induction Hs as [|a l _ IH Ha]; constructor; [done|]. eapply Forall_impl; [exact Ha|].
      intros b. unfold shown_before. by rewrite decide_False. }
    destruct (key_suffix (bf_after filters) rows Hk) as (before&?&?&?). exists before.
    by destruct (decide (bf_order filters = "priority")).
Qed.

Lemma column_spec_shows filters rows c : NoDup (r_key <$> rows) → column_spec filters rows c → column_shows filters rows c.
Proof.
  intros Hd (Hcount&available&Ha&Hkeys&Hitems&Hnext). destruct (column_rows_spec filters rows (c_id c) Hd) as [Hs Hin].
  destruct (available_rows_spec _ _ _ _ Hs Ha) as (before&Heq&Hp).
  exists before, (take (Z.to_nat (bf_limit filters)) available), (drop (Z.to_nat (bf_limit filters)) available).
  rewrite take_drop, <-Heq. split_and!; [done..|by rewrite length_take| |done| |].
  - rewrite Hcount. unfold column_rows. by rewrite (Permutation_length (stable_sort_perm _ _)).
  - by rewrite Hitems, Hkeys, length_fmap.
  - rewrite Hnext, Hkeys. destruct (decide _) as [Hnil|Hnil].
    + apply (f_equal length) in Hnil. rewrite length_drop in Hnil. cbn [length] in Hnil.
      destruct (Z.ltb_spec (bf_limit filters) (Z.of_nat (length available))) as [Hlt|]; [|done].
      destruct (decide (0 <= bf_limit filters)); [lia|]. destruct available; [|cbn [length] in *; lia]. by rewrite take_nil.
    + destruct (Z.ltb_spec (bf_limit filters) (Z.of_nat (length available))); [done|]. destruct Hnil. apply drop_ge. lia.
Qed.

End rows.

Section properties.
  Context {PY : Pydantic} {PL : PydanticLaws} {CK : Clock}.

(** C29: A board partitions the Work it shows.  Every stored work object of the
    board's kinds is read and placed in a column by its stage and progress, and
    the rows are exactly those that the filter asks for, each in one column of the
    fixed column list.  A column counts all its rows, the counts add up to the total,
    and its items are the first [limit] rows after the cursor in the order the filter
    names - by key, or by decreasing priority and then key - with a next cursor, the
    last key shown, exactly when more follow. *)
Theorem board_partition filters v s b :
  store_wf s → build_board filters v s = Ok b →
  ∃ ws f scoped all rows,
    Forall2 (λ n w, _from_node n = Ok w) (List.concat (kind_nodes s <$> kinds_of v)) ws
    ∧ load_family ws s = Ok f ∧ scope_of filters ws f = Ok scoped
    ∧ r_work <$> all = ws
    ∧ (∀ r, r ∈ all → state_of (r_work r) = Ok (r_state r) ∧ placed_by v (r_work r) (r_state r) (r_column r))
    ∧ NoDup (r_key <$> rows) ∧ (∀ r, r ∈ rows ↔ r ∈ all ∧ shows filters f scoped r)
    ∧ c_id <$> b_columns b = board_columns v ∧ NoDup (board_columns v) ∧ (∀ r, r ∈ rows → r_column r ∈ board_columns v)
    ∧ Forall (column_shows filters rows) (b_columns b)
    ∧ b_total b = Z.of_nat (length rows) ∧ foldr (λ c n, c_count c + n) 0 (b_columns b) = b_total b.
Proof.
  intros Hs (ws&f&scoped&blocks&all&Hws&Hf&Hsc&_&Hall&Hcols&Ht&_)%build_board_inv.
  apply board_work_facts in Hws as (Hl&_&Hd); [|done]. exists ws, f, scoped, all, (shown_rows filters f scoped all).
  pose proof (shown_rows_keys filters f scoped v ws all Hd Hall) as Hk.
  assert (Forall (λ r, r_column r ∈ board_columns v) (shown_rows filters f scoped all)) as Hc.
  { pose proof (board_rows_columns v ws all Hall) as Hc. rewrite Forall_forall in *.
    intros r [_ ?]%list_elem_of_filter. auto. }
  apply build_columns_spec in Hcols as (Hid&Hspec&Hsum).
  split_and!; try done; [by eapply board_rows_works|intros r; by apply board_rows_placed with ws|..].
  - intros r. unfold shown_rows. rewrite list_elem_of_filter, row_shown_spec. tauto.
  - apply board_columns_nodup.
  - by apply Forall_forall.
  - eapply Forall_impl; [exact Hspec|]. intros c. by apply column_spec_shows.
  - rewrite Hsum, Ht. f_equal. by apply total_count_all; [apply board_columns_nodup|].
Qed.

(** Board cursors continue: for the one column a cursor may name, the
    filter with a column's next cursor and the board's revision shows the same
    column with the same count, and its items are exactly the rows after the ones
    already shown. *)
Theorem board_cursor_continues filters v s b c k b' :
  store_wf s → parse_board filters = Ok filters → build_board filters v s = Ok b →
  c ∈ b_columns b → bf_column filters = [c_id c] → c_next_cursor c = Some k →
  build_board (next_board filters k (b_revision b)) v s = Ok b' →
  b_revision b' = b_revision b
  ∧ ∃ c' keys, c' ∈ b_columns b' ∧ c_id c' = c_id c ∧ c_count c' = c_count c
    ∧ c_keys c = take (Z.to_nat (bf_limit filters)) keys
    ∧ c_keys c' = take (Z.to_nat (bf_limit filters)) (drop (Z.to_nat (bf_limit filters)) keys)
    ∧ (Z.to_nat (bf_limit filters) < length keys)%nat.
Proof.
  intros Hs Hp (ws&f&scoped&blocks&all&Hws&Hf&Hsc&_&Hall&Hcols&_&Hrev)%build_board_inv Hc Hcol Hk.
  intros (ws'&f'&scoped'&blocks'&all'&Hws'&Hf'&Hsc'&_&Hall'&Hcols'&_&Hrev')%build_board_inv.
  rewrite Hws in Hws'. injection Hws' as <-. rewrite Hf in Hf'. injection Hf' as <-.
  change (scope_of (next_board filters k (b_revision b)) ws f) with (scope_of filters ws f) in Hsc'.
  rewrite Hsc in Hsc'. injection Hsc' as <-. rewrite Hall in Hall'. injection Hall' as <-.
  split; [congruence|].
  apply board_work_facts in Hws as (_&_&Hd); [|done].
  pose proof (shown_rows_keys filters f scoped v ws all Hd Hall) as Hkeys.
  apply build_columns_spec in Hcols as (Hid&Hspec&_). apply build_columns_spec in Hcols' as (Hid'&Hspec'&_).
  change (shown_rows (next_board filters k (b_revision b)) f scoped all) with (shown_rows filters f scoped all) in Hspec'.
  rewrite Forall_forall in Hspec, Hspec'. destruct (Hspec c Hc) as (Hcount&avail&Ha&Hck&_&Hnext).
  rewrite Hk in Hnext. destruct (Z.ltb_spec (bf_limit filters) (Z.of_nat (length avail))) as [Hlt|]; [|done].
  assert (c_id c ∈ c_id <$> b_columns b') as (c'&Hcc&Hc')%list_elem_of_fmap.
  { rewrite Hid', <-Hid. by apply list_elem_of_fmap_2. }
  destruct (Hspec' c' Hc') as (Hcount'&avail'&Ha'&Hck'&_&_). exists c', (r_key <$> avail).
  rewrite Hck, fmap_last in Hnext. destruct (last (take _ avail)) as [x|] eqn:El; [|done]. injection Hnext as ->.
  rewrite <-Hcc in Ha'.
  change (column_rows (next_board filters (r_key x) (b_revision b))) with (column_rows filters) in Ha'.
  rewrite (available_next filters _ (c_id c) _ x avail (b_revision b) Hkeys Hcol Ha El) in Ha'. injection Ha' as <-.
  split; [done|]. split; [done|]. split; [by rewrite Hcount, Hcount', Hcc|]. rewrite Hck, Hck', <-!fmap_drop, <-!fmap_take, length_fmap.
  split; [done|]. split; [done|]. apply parse_board_limit in Hp. lia.
Qed.

(** C30: A board's scope is the graph's: for a scope that exists, the selection
    with descendants is exactly the set of work reachable from it over one or more
    [HAS_CHILD] edges between loaded works, and without descendants its direct
    children; the search always finishes. *)
Theorem board_scope_closure filters ws s f :
  load_family ws s = Ok f → truthy (bf_scope filters) = true → has_work (bf_scope filters) ws = true →
  ∃ m, scope_of filters ws f = Ok (Some m)
    ∧ ∀ k, k ∈ m ↔ if bf_descendants filters then tc (has_child ws s) (bf_scope filters) k
                   else has_child ws s (bf_scope filters) k.
Proof.
  intros Hf Ht Hw. pose proof (load_family_ok ws s f Hf) as Hok. unfold scope_of. rewrite Ht, Hw. cbn [negb raise_if mbind res_bind].
  destruct (bf_descendants filters).
  - destruct (descend_spec f (scope_fuel f) (remove_dups (kids_of f (bf_scope filters)))
      (list_to_set (kids_of f (bf_scope filters))) Hok) as (m&Hm&Hmx).
    + intros x Hx%elem_of_list_to_set%Hok. by apply elem_of_dom_2 in Hx.
    + intros x. by rewrite elem_of_remove_dups, elem_of_list_to_set.
    + intros a b Ha Hna. exfalso. apply Hna. apply elem_of_remove_dups. by apply elem_of_list_to_set in Ha.
    + unfold scope_fuel. 
      replace (list_to_set (kids_of f (bf_scope filters)) : gset string)
        with (list_to_set (remove_dups (kids_of f (bf_scope filters))) : gset string).
      * rewrite size_list_to_set by apply NoDup_remove_dups. lia.
      * apply set_eq. intros x. by rewrite !elem_of_list_to_set, elem_of_remove_dups.
    + rewrite Hm. cbn [of_option mbind res_bind]. exists m. split; [done|]. intros k. rewrite Hmx.
      assert (∀ a b, child_step f a b ↔ has_child ws s a b) as Hstep by (intros; by apply child_step_edges). split.
      * intros (a&Ha%elem_of_list_to_set&Hr). apply Hstep in Ha. eapply tc_rtc_r; [by constructor|].
        clear -Hstep Hr. induction Hr as [|x y z Hxy _ IH]; [done|]. eapply rtc_l; [by apply Hstep|done].
      * intros Htc. assert (∃ a, has_child ws s (bf_scope filters) a ∧ rtc (has_child ws s) a k) as (a&Ha&Hr).
        { destruct Htc as [x y Hxy|x y z Hxy Hyz]; [eauto using rtc_refl|]. eauto using tc_rtc. }
        exists a. split; [by apply elem_of_list_to_set, Hstep|].
        clear -Hstep Hr. induction Hr as [|x y z Hxy _ IH]; [done|]. eapply rtc_l; [by apply Hstep|done].
  - eexists. split; [done|]. intros k. rewrite elem_of_list_to_set. by apply child_step_edges.
Qed.

End properties.

(** ** Witnesses *)

Section witnesses.

#[local] Existing Instance reference_pydantic.
#[local] Existing Instance reference_pydantic_laws.
#[local] Existing Instance epoch_clock.

Definition ex_work (k : Kind) (i : string) (p : option string) : call :=
  call_create_node (kind_name k) i (to_node_properties
    {| kind := k; id := i; title := "t"; description := ""; status := DRAFT; created_at := epoch;
       updated_at := epoch; version := 1; artifact_ids := []; external_link_ids := []; priority := 0;
       workflow_json := None; progress := p; archived := false; progress_record_id := None;
       progress_migration_json := None |}).

Definition ex_child (k i k' i' : string) : call := call_create_edge k i "HAS_CHILD" k' i' ∅.

Definition ex_board : Store :=
  run_calls [ex_work KInitiative "a" (Some "not_started"); ex_work KProject "b" (Some "not_started");
             ex_work KIssue "c" (Some "not_started"); ex_work KTask "d" (Some "not_started");
             ex_work KTask "e" (Some "done"); ex_work KTodo "f" None;
             ex_child "Initiative" "a" "Project" "b"; ex_child "Project" "b" "Issue" "c";
             ex_child "Issue" "c" "Task" "d"] empty_store.

Lemma ex_board_wf : store_wf ex_board.
Proof. apply run_calls_keeps; [by vm_compute|apply empty_store_wf]. Qed.

Definition ex_filter (scope : string) (cols : list string) (limit : Z) : BoardFilter :=
  {| bf_kind := []; bf_workflow := []; bf_stage := []; bf_column := cols; bf_scope := scope; bf_descendants := true;
     bf_q := ""; bf_archived := "exclude"; bf_limit := limit; bf_after := ""; bf_revision := ""; bf_queue := "";
     bf_order := "key"; bf_parentage := "any"; bf_progress := [] |}.

Definition ex_counts (b : res Board) : option (list Z) :=
  match b with Ok x => Some (c_count <$> b_columns x) | Err _ => None end.

Lemma board_partition_witness :
  ex_counts (build_board default_board 2 ex_board) = Some [4; 0; 0; 0; 0; 0; 1; 0; 1]
  ∧ ∃ b, build_board default_board 2 ex_board = Ok b ∧ foldr (λ c n, c_count c + n) 0 (b_columns b) = b_total b.
Proof.
  assert (ex_counts (build_board default_board 2 ex_board) = Some [4; 0; 0; 0; 0; 0; 1; 0; 1]) as H by (vm_compute; reflexivity).
  split; [exact H|]. destruct (build_board default_board 2 ex_board) as [b|e] eqn:E; [|discriminate H].
  exists b. split; [reflexivity|].
  destruct (board_partition default_board 2 ex_board b ex_board_wf E) as (ws&f&sc&all&rows&_&_&_&_&_&_&_&_&_&_&_&_&Hsum). exact Hsum.
Defined.

Definition ex_children : option (list string) :=
  match ws ← board_work 2 ex_board; f ← load_family ws ex_board; scope_of (ex_filter "Initiative/a" [] 30) ws f with
  | Ok (Some m) => Some (elements m)
  | _ => None
  end.

Lemma board_scope_closure_witness : ∃ ws f m, load_family ws ex_board = Ok f
  ∧ scope_of (ex_filter "Initiative/a" [] 30) ws f = Ok (Some m)
  ∧ ∀ k, k ∈ m ↔ tc (has_child ws ex_board) "Initiative/a" k.
Proof.
  assert (match ws ← board_work 2 ex_board; f ← load_family ws ex_board; Ok (ws, f) with
          | Ok x => has_work "Initiative/a" x.1
          | Err _ => false
          end = true) as H by (vm_compute; reflexivity).
  destruct (board_work 2 ex_board) as [ws|]; [|discriminate H]. cbn [mbind res_bind] in H.
  destruct (load_family ws ex_board) as [f|] eqn:Ef; [|discriminate H]. cbn [mbind res_bind fst] in H.
  destruct (board_scope_closure (ex_filter "Initiative/a" [] 30) ws ex_board f Ef eq_refl H) as (m&Hm&Hk).
  exists ws, f, m. exact (conj Ef (conj Hm Hk)).
Defined.

Definition ex_page : BoardFilter := ex_filter "" ["backlog"] 3.

Lemma board_cursor_continues_witness : ∃ b b' c, build_board ex_page 2 ex_board = Ok b ∧ c ∈ b_columns b
  ∧ build_board (next_board ex_page "Project/b" (b_revision b)) 2 ex_board = Ok b' ∧ b_revision b' = b_revision b.
Proof.
  assert (match build_board ex_page 2 ex_board with
          | Ok b => match b_columns b with
                    | c :: _ => String.eqb (c_id c) "backlog" && bool_decide (c_next_cursor c = Some "Project/b")
                    | [] => false
                    end && is_ok (build_board (next_board ex_page "Project/b" (b_revision b)) 2 ex_board)
          | Err _ => false
          end = true) as H by (vm_compute; reflexivity).
  destruct (build_board ex_page 2 ex_board) as [b|] eqn:E; [|discriminate H]. apply andb_true_iff in H as [H H'].
  destruct (build_board (next_board ex_page "Project/b" (b_revision b)) 2 ex_board) as [b'|] eqn:E'; [|discriminate H'].
  destruct (b_columns b) as [|c cols] eqn:Ec; [discriminate H|]. apply andb_true_iff in H as [Hid Hk].
  apply String.eqb_eq in Hid. apply bool_decide_eq_true in Hk. exists b, b', c.
  assert (c ∈ b_columns b) as Hin by (rewrite Ec; left). split; [reflexivity|]. split; [exact Hin|]. split; [exact E'|].
  refine (proj1 (board_cursor_continues ex_page 2 ex_board b c "Project/b" b' ex_board_wf _ E Hin _ Hk E')).
  - vm_compute. reflexivity.
  - rewrite Hid. reflexivity.
Defined.

End witnesses.
