(* ===== verification/Inbox.v ===== *)
(** * The access-request inbox

    [AccessRequestInbox] of [src/devgraph/auth/access_requests.py] with its request
    models, and the six-kind draft and enrollment models of
    [auth/monitor_read.py] that its requested permissions must satisfy.

    The SQLite tables are maps keyed by their primary keys.  A method runs between
    [BEGIN IMMEDIATE] and [COMMIT] and an exception closes the connection before
    the commit, so a method is a function from a database to a result and the new
    database, and an error leaves the old one.  The clock (in seconds), the random
    identifiers and the membership check are arguments. *)

From stdpp Require Import base gmap strings list sorting relations.
From Stdlib Require Import ZArith Ascii String.
From S2P Require Import Prelude Json Sha256 Datetime Validation WorkflowContract StrictJson Model Redaction Storage Outbox Delegated Grants Verifier.

Local Open Scope Z_scope.

(** ** Six-kind read grants *)

(** A lax [bool] field of a JSON document. *)
Definition lax_bool (model : string) (v : value) : res bool :=
  match v with
  | VBool b => Ok b
  | VInt z => if z =? 0 then Ok false else if z =? 1 then Ok true else invalid model
  | VStr s =>
      let s := map_string lower s in
      if str_in s ["0"; "off"; "f"; "false"; "n"; "no"] then Ok false
      else if str_in s ["1"; "on"; "t"; "true"; "y"; "yes"] then Ok true
      else invalid model
  | _ => invalid model
  end.

(** An array of strings, as the [before] validators require. *)
Definition string_array (model : string) (v : value) : res (list string) :=
  match v with VList l => res_mapM (as_text model) l | _ => invalid model end.

Definition opt_field {A} (name : string) (f : value → res A) (d : list (string * value)) : res (option A) :=
  match dict_get name d with Some v => a ← f v; Ok (Some a) | None => Ok None end.

(** [model_validate] of a Work read grant over an order of kinds. *)
Definition grant_of (m : string) (kinds_order : list string) (v : value) : res WorkReadGrant :=
  d ← as_dict m v;
  forbid_extra m ["scope"; "operations"; "relationship_types"; "work_kinds"; "work_ids"; "arena_ids"; "include_archived"] d;;
  required m "scope" (as_literal m ["devgraph.work.read"]) d;;
  ops ← required m "operations" (string_array m) d;
  rels ← required m "relationship_types" (string_array m) d;
  kinds ← required m "work_kinds" (string_array m) d;
  ids ← opt_field "work_ids" (string_array m) d;
  arenas ← opt_field "arena_ids" (string_array m) d;
  arch ← required m "include_archived" (lax_bool m) d;
  new_work_grant kinds_order ops rels kinds ids arenas arch.

Definition WorkReadGrant_of (v : value) : res WorkReadGrant := grant_of "WorkReadGrant" WORK_KIND_ORDER v.

Definition MonitorWorkGrant_of (v : value) : res WorkReadGrant := grant_of "MonitorWorkGrant" TODO_KINDS v.

Definition WriteResource_of (v : value) : res WriteResource :=
  let m := "WriteResource" in
  d ← as_dict m v;
  forbid_extra m ["kind"; "ids"] d;;
  k ← required m "kind" (as_text m) d;
  ids ← opt_field "ids" (string_array m) d;
  new_write_resource k ids.

Definition WriteGrant_of (v : value) : res WriteGrant :=
  let m := "WriteGrant" in
  d ← as_dict m v;
  forbid_extra m ["operation"; "resources"] d;;
  op ← required m "operation" (as_text m) d;
  rs ← required m "resources" (as_list m 64 WriteResource_of) d;
  new_write_grant op rs.

(** *** Requested permissions *)

Record AccessIntent := {
  ai_read_grants : list WorkReadGrant;
  ai_write_grants : list WriteGrant
}.

(** [AccessIntent.nonempty]. *)
Definition new_intent (reads : list WorkReadGrant) (writes : list WriteGrant) : res AccessIntent :=
  raise_if (bool_decide (length reads = 0%nat) && bool_decide (length writes = 0%nat)) (ValidationError "AccessIntent");;
  raise_if (negb (distinct_json (map read_grant_dump (map work_grant reads)))
            || negb (distinct_json (map write_grant_dump writes))) (ValidationError "AccessIntent");;
  Ok {| ai_read_grants := reads; ai_write_grants := writes |}.

Definition AccessIntent_of (v : value) : res AccessIntent :=
  let m := "AccessIntent" in
  d ← as_dict m v;
  forbid_extra m ["read_grants"; "write_grants"] d;;
  reads ← optional "read_grants" [] (as_list m 16 MonitorWorkGrant_of) d;
  writes ← optional "write_grants" [] (as_list m 64 WriteGrant_of) d;
  new_intent reads writes.

Definition intent_dump (i : AccessIntent) : value :=
  VDict (mk_dict (
    unless_empty "read_grants" (ai_read_grants i) (VList (map read_grant_dump (map work_grant (ai_read_grants i))))
    ++ unless_empty "write_grants" (ai_write_grants i) (VList (map write_grant_dump (ai_write_grants i))))).

Inductive inbox_action : Type := act_submit | act_status.

#[export] Instance inbox_action_eq_dec : EqDecision inbox_action.
Proof. solve_decision. Defined.

Definition action_name (a : inbox_action) : string := match a with act_submit => "submit" | act_status => "status" end.

Record RequestAction := {
  ra_action : inbox_action;
  ra_request_id : string;
  ra_subject_public_key : string;
  ra_installation_id : string;
  ra_intent : option AccessIntent
}.

(** A [str] field with a pattern. *)
Definition as_pattern (model : string) (p : string → bool) (v : value) : res string :=
  s ← as_text model v; raise_if (negb (p s)) (ValidationError model);; Ok s.

Definition REQUEST_SCHEMA : string := "devgraph.access-request-action.v1".

(** [RequestAction.status_has_no_selection]. *)
Definition new_request (a : inbox_action) (rid key device : string) (i : option AccessIntent) : res RequestAction :=
  raise_if (bool_decide (a = act_status) && bool_decide (is_Some i)) (ValidationError "RequestAction");;
  Ok {| ra_action := a; ra_request_id := rid; ra_subject_public_key := key; ra_installation_id := device; ra_intent := i |}.

Definition RequestAction_of (v : value) : res RequestAction :=
  let m := "RequestAction" in
  d ← as_dict m v;
  forbid_extra m ["schema"; "action"; "request_id"; "subject_public_key"; "installation_id"; "intent"] d;;
  required m "schema" (as_literal m [REQUEST_SCHEMA]) d;;
  a ← required m "action" (as_literal m ["submit"; "status"]) d;
  rid ← required m "request_id" (as_pattern m (hex_text 32)) d;
  key ← required m "subject_public_key" (as_pattern m (hex_text 64)) d;
  device ← required m "installation_id" (as_pattern m (hex_text 32)) d;
  i ← required m "intent" (λ v, match v with VNone => Ok None | _ => i ← AccessIntent_of v; Ok (Some i) end) d;
  new_request (if String.eqb a "submit" then act_submit else act_status) rid key device i.

Definition request_dump (r : RequestAction) : value :=
  VDict (mk_dict
    [("schema", VStr REQUEST_SCHEMA); ("action", VStr (action_name (ra_action r)));
     ("request_id", VStr (ra_request_id r)); ("subject_public_key", VStr (ra_subject_public_key r));
     ("installation_id", VStr (ra_installation_id r));
     ("intent", match ra_intent r with Some i => intent_dump i | None => VNone end)]).

Record AccessChallenge := {
  ch_challenge_id : string;
  ch_nonce : string;
  ch_issuer : string;
  ch_receiver : string;
  ch_issued_at : Z;
  ch_expires_at : Z;
  ch_request : RequestAction
}.

Definition CHALLENGE_SCHEMA : string := "devgraph.access-request-challenge.v1".

Definition nonce_text (s : string) : bool :=
  (str_len s =? 43) && str_forall (λ c, is_alnum c || Ascii.eqb c "_" || Ascii.eqb c "-") s.

Definition as_int_from (model : string) (lo : Z) (v : value) : res Z :=
  match v with VInt z => if lo <=? z then Ok z else invalid model | _ => invalid model end.

Definition Challenge_of (v : value) : res AccessChallenge :=
  let m := "Challenge" in
  d ← as_dict m v;
  forbid_extra m ["schema"; "challenge_id"; "nonce"; "issuer"; "receiver"; "issued_at"; "expires_at"; "request"] d;;
  required m "schema" (as_literal m [CHALLENGE_SCHEMA]) d;;
  cid ← required m "challenge_id" (as_pattern m (hex_text 32)) d;
  nonce ← required m "nonce" (as_pattern m nonce_text) d;
  issuer ← required m "issuer" (as_text m) d;
  receiver ← required m "receiver" (as_text m) d;
  issued ← required m "issued_at" (as_int_from m 0) d;
  expires ← required m "expires_at" (as_int_from m 1) d;
  r ← required m "request" RequestAction_of d;
  Ok {| ch_challenge_id := cid; ch_nonce := nonce; ch_issuer := issuer; ch_receiver := receiver;
        ch_issued_at := issued; ch_expires_at := expires; ch_request := r |}.

(** ** The inbox *)

Record Inbox := {
  ix_issuer : string;
  ix_receiver : string;
  ix_membership : value → string → bool;
  ix_max_requests : Z;
  ix_max_per_member : Z
}.

Record ChallengeRow := { cr_owner : string; cr_payload : string; cr_expires : Z; cr_used : bool }.

Record RequestRow := {
  rr_owner : string;
  rr_device : string;
  rr_digest : string;
  rr_intent : string;
  rr_created : Z;
  rr_expires : Z
}.

Record AuditRow := { au_digest : string; au_owner : string; au_device : string; au_created : Z }.

Record InboxDb := {
  db_challenges : gmap string ChallengeRow;
  db_requests : gmap string RequestRow;
  db_audit : gmap string AuditRow
}.

Definition empty_inbox : InboxDb := {| db_challenges := ∅; db_requests := ∅; db_audit := ∅ |}.

Definition unauthenticated {A} (reason : string) : res A := Err (UnauthenticatedError reason).

(** [db.execute("INSERT ...")] violating a primary key. *)
Definition integrity_error : exn := RuntimeError "UNIQUE constraint failed".

(** The SELECT COUNT statements. *)
Definition count_rows {R} (p : R → bool) (m : gmap string R) : Z := Z.of_nat (size (filter (λ kv : string * R, p kv.2 = true) m)).

Section inbox.
  Context {EC : Ed25519} {UH : UrlHosts}.

(** [EnrollmentPolicyV2]. *)
Definition enrollment_policy_v2_ok (issuer receiver : string) (grants : list WorkReadGrant) (lifetime : Z) : res unit :=
  raise_if (negb (_AUTHORITY_IDENTIFIER issuer)) (ValidationError "EnrollmentPolicyV2");;
  raise_if (negb ((1 <=? Z.of_nat (length grants)) && (Z.of_nat (length grants) <=? 16)))
    (ValidationError "EnrollmentPolicyV2");;
  raise_if (negb ((60 <=? lifetime) && (lifetime <=? 3600))) (ValidationError "EnrollmentPolicyV2");;
  https_receiver receiver;;
  raise_if (existsb (λ g, negb (bool_decide (wg_resource_paths g = []))) grants)
    (ValueError "resource paths require a new enrollment contract");;
  raise_if (32 <? foldr (λ g z, Z.of_nat (length (wg_operations g)) + z) 0 grants) (ValueError "too many read permissions");;
  res_mapM (λ g, validate_selectors (wg_work_ids g) (wg_arena_ids g)) grants;;
  Ok tt.

Definition monitor_placeholder : WorkReadGrant :=
  {| wg_operations := ["get"]; wg_relationship_types := ["parent"]; wg_work_kinds := ["Todo"]; wg_work_ids := [];
     wg_arena_ids := []; wg_include_archived := false; wg_resource_paths := [] |}.

(** [AccessDraftV2] with no member, installation or previous draft. *)
Definition access_draft_v2_ok (issuer receiver : string) (not_before not_after lifetime : Z)
    (reads : list WorkReadGrant) (writes : list WriteGrant) : res unit :=
  as_model "AccessDraftV2" (
  raise_if (negb (safe_from 0 not_before && safe_from 1 not_after && (60 <=? lifetime) && (lifetime <=? 3600)
                  && (Z.of_nat (length reads) <=? 16) && (Z.of_nat (length writes) <=? 64)))
    (ValidationError "AccessDraftV2");;
  raise_if (existsb (λ g, negb (bool_decide (wg_resource_paths g = []))) reads
            || existsb (λ g, negb (bool_decide (wt_resource_paths g = []))) writes)
    (ValueError "resource paths require a new access draft contract");;
  raise_if ((not_after <=? not_before) || (bool_decide (length reads = 0%nat) && bool_decide (length writes = 0%nat)))
    (ValueError "a grant and valid interval are required");;
  enrollment_policy_v2_ok issuer receiver (match reads with [] => [monitor_placeholder] | _ => reads end) lifetime;;
  raise_if (negb (distinct_json (map read_grant_dump (map work_grant reads)))
            || negb (distinct_json (map write_grant_dump writes))) (ValueError "duplicate grant")).

Definition validate_intent (x : Inbox) (i : option AccessIntent) (current : Z) : res unit :=
  match i with
  | None => Ok tt
  | Some i => access_draft_v2_ok (ix_issuer x) (ix_receiver x) current (current + 604800) 60
                (ai_read_grants i) (ai_write_grants i)
  end.

(** *** Challenges *)

Definition challenge_value (x : Inbox) (r : RequestAction) (cid nonce : string) (current : Z) : value :=
  VDict (mk_dict
    [("schema", VStr CHALLENGE_SCHEMA); ("challenge_id", VStr cid); ("nonce", VStr nonce);
     ("issuer", VStr (ix_issuer x)); ("receiver", VStr (ix_receiver x)); ("issued_at", VInt current);
     ("expires_at", VInt (current + 120)); ("request", request_dump r)]).

Definition challenge (x : Inbox) (r : RequestAction) (cid nonce : string) (current : Z) (db : InboxDb) :
    res (value * InboxDb) :=
  validate_intent x (ra_intent r) current;;
  let v := challenge_value x r cid nonce current in
  let payload := _canonical_json v in
  raise_if (16384 <? str_len payload) (UnauthenticatedError "invalid_request");;
  let live := filter (λ kv : string * ChallengeRow, current < cr_expires kv.2) (db_challenges db) in
  raise_if ((256 <=? count_rows (λ _, true) live)
            || (8 <=? count_rows (λ c, String.eqb (cr_owner c) (ra_subject_public_key r)) live))
    (UnauthenticatedError "try_later");;
  raise_if (bool_decide (is_Some (live !! cid))) integrity_error;;
  Ok (v, {| db_challenges := <[cid := {| cr_owner := ra_subject_public_key r; cr_payload := payload;
                                         cr_expires := current + 120; cr_used := false |}]> live;
            db_requests := db_requests db; db_audit := db_audit db |}).

(** *** Actions *)

Definition DOMAIN : string := "devgraph/access-request-approval/v1" +:+ String (ascii_of_N 0) "".

Definition signable_access_request (c : value) : string := DOMAIN +:+ _canonical_json c.

Definition inbox_result (rid : string) (row : RequestRow) (current : Z) : value :=
  VDict (mk_dict
    [("schema", VStr "devgraph.access-request-result.v1"); ("request_id", VStr rid);
     ("request_digest_sha256", VStr (rr_digest row));
     ("status", VStr (if current <? rr_expires row then "pending" else "expired"));
     ("received_at", VInt (rr_created row)); ("expires_at", VInt (rr_expires row)); ("authority_issued", VBool false)]).

Definition unknown_result (rid : string) : value :=
  VDict (mk_dict
    [("schema", VStr "devgraph.access-request-result.v1"); ("request_id", VStr rid); ("status", VStr "unknown");
     ("authority_issued", VBool false)]).

Definition mark_used (cid : string) (m : gmap string ChallengeRow) : gmap string ChallengeRow :=
  alter (λ c, {| cr_owner := cr_owner c; cr_payload := cr_payload c; cr_expires := cr_expires c; cr_used := true |}) cid m.

(** [challenge[name]] of a validated dictionary. *)
Definition item (name : string) (v : value) : res value :=
  match v with VDict d => of_option (KeyError name) (dict_get name d) | _ => Err (TypeError "not subscriptable") end.

(** The insertion of a new request and its audit row. *)
Definition insert_request (x : Inbox) (raw : value) (r : RequestAction) (used : bool) (digest : string) (current : Z)
    (db : InboxDb) : res (RequestRow * InboxDb) :=
  validate_intent x (ra_intent r) current;;
  raise_if used (UnauthenticatedError "challenge_used");;
  raise_if ((ix_max_requests x <=? count_rows (λ _, true) (db_requests db))
            || (ix_max_per_member x <=? count_rows (λ q, String.eqb (rr_owner q) (ra_subject_public_key r)
                                                          && (current <? rr_expires q)) (db_requests db)))
    (UnauthenticatedError "try_later");;
  intent ← match ra_intent r with
           | Some _ => i ← item "intent" raw; Ok (_canonical_json i)
           | None => Ok "null"
           end;
  let row := {| rr_owner := ra_subject_public_key r; rr_device := ra_installation_id r; rr_digest := digest;
                rr_intent := intent; rr_created := current; rr_expires := current + 604800 |} in
  raise_if (bool_decide (is_Some (db_audit db !! ra_request_id r))) integrity_error;;
  Ok (row, {| db_challenges := db_challenges db; db_requests := <[ra_request_id r := row]> (db_requests db);
              db_audit := <[ra_request_id r := {| au_digest := digest; au_owner := ra_subject_public_key r;
                                                  au_device := ra_installation_id r; au_created := current |}]> (db_audit db) |}).

Definition submit (x : Inbox) (raw : value) (r : RequestAction) (used : bool) (digest : string) (current : Z)
    (db : InboxDb) : res (value * InboxDb) :=
  match db_requests db !! ra_request_id r with
  | Some row =>
      raise_if (negb (String.eqb (rr_digest row) digest)) (UnauthenticatedError "request_conflict");;
      Ok (inbox_result (ra_request_id r) row current, db)
  | None =>
      y ← insert_request x raw r used digest current db;
      Ok (inbox_result (ra_request_id r) y.1 current, y.2)
  end.

Definition _record_authenticated (x : Inbox) (c : value) (p : AccessChallenge) (proof : value) (current : Z)
    (db : InboxDb) : res (value * InboxDb) :=
  let r := ch_request p in
  raw ← item "request" c;
  let digest := sha256_hex (_canonical_json raw) in
  row ← of_option (UnauthenticatedError "invalid_challenge") (db_challenges db !! ch_challenge_id p);
  raise_if (negb (String.eqb (cr_payload row) (_canonical_json c))) (UnauthenticatedError "invalid_challenge");;
  raise_if (negb (ix_membership x proof (ra_subject_public_key r))) (UnauthenticatedError "membership_required");;
  raise_if (match db_requests db !! ra_request_id r with
            | Some q => negb (String.eqb (rr_owner q) (ra_subject_public_key r)
                              && String.eqb (rr_device q) (ra_installation_id r))
            | None => false
            end) (UnauthenticatedError "request_unavailable");;
  y ← match ra_action r with
      | act_status =>
          Ok (match db_requests db !! ra_request_id r with
              | None => unknown_result (ra_request_id r)
              | Some q => inbox_result (ra_request_id r) q current
              end, db)
      | act_submit => submit x raw r (cr_used row) digest current db
      end;
  Ok (y.1, {| db_challenges := mark_used (ch_challenge_id p) (db_challenges y.2); db_requests := db_requests y.2;
              db_audit := db_audit y.2 |}).

(** The [try] block of [execute]; every failure is one refusal. *)
Definition verify_approval (x : Inbox) (c proof : value) (signature : string) (current : Z) : res AccessChallenge :=
  rethrow (λ e, is_value_error e || is_type_error e) (λ _, UnauthenticatedError "invalid_request_approval")
    (p ← Challenge_of c;
     raise_if ((16384 <? str_len (_canonical_json c))
               || negb (match proof with VDict _ => true | _ => false end)
               || (16384 <? str_len (_canonical_json proof))
               || negb (String.eqb (ch_issuer p) (ix_issuer x)) || negb (String.eqb (ch_receiver p) (ix_receiver x))
               || negb ((ch_issued_at p <=? current) && (current <? ch_expires_at p))
               || negb (ch_expires_at p - ch_issued_at p =? 120) || negb (str_len signature =? 86)) (ValueError "");;
     raw ← of_option (ValueError "base64") (b64decode signature);
     raise_if (negb (String.eqb (b64encode raw) signature)) (ValueError "");;
     raise_if (negb (ed25519_verify (fromhex (ra_subject_public_key (ch_request p))) raw (signable_access_request c)))
       (ValueError "InvalidSignature");;
     Ok p).

Definition inbox_execute (x : Inbox) (c proof : value) (signature : string) (current : Z) (db : InboxDb) :
    res (value * InboxDb) :=
  p ← verify_approval x c proof signature current;
  _record_authenticated x c p proof current db.

(** *** The owner's listing *)

Definition pending_entry (rid : string) (row : RequestRow) (current : Z) : res value :=
  intent ← of_option (ValueError "JSONDecodeError") (loads (rr_intent row));
  match inbox_result rid row current with
  | VDict d => Ok (VDict (mk_dict (d ++ [("subject_public_key", VStr (rr_owner row)); ("installation_id", VStr (rr_device row));
                                         ("request_digest_sha256", VStr (rr_digest row)); ("intent", intent)])))
  | v => Ok v
  end.

Definition row_key_leb (a b : string * RequestRow) : bool := String.leb a.1 b.1.

Definition open_rows (current : Z) (db : InboxDb) : list (string * RequestRow) :=
  stable_sort row_key_leb (filter (λ kv : string * RequestRow, current < rr_expires kv.2) (map_to_list (db_requests db))).

Record PendingPage := { pp_total : Z; pp_next_cursor : option string; pp_items : list value }.

Definition pending (limit : Z) (after : option string) (current : Z) (db : InboxDb) : res PendingPage :=
  raise_if (negb ((1 <=? limit) && (limit <=? 100)) || match after with Some a => negb (hex_text 32 a) | None => false end)
    (ValueError "invalid inbox page");;
  let all := open_rows current db in
  let rows := take (Z.to_nat (limit + 1)) (filter (λ kv, String.ltb (default "" after) kv.1 = true) all) in
  items ← res_mapM (λ kv, pending_entry kv.1 kv.2 current) (take (Z.to_nat limit) rows);
  Ok {| pp_total := Z.of_nat (length all);
        pp_next_cursor := if limit <? Z.of_nat (length rows) then fst <$> rows !! Z.to_nat (limit - 1) else None;
        pp_items := items |}.

End inbox.

(** ** Counting *)

Lemma count_rows_mono {R} (p : R → bool) (m m' : gmap string R) :
  (∀ k r, m !! k = Some r → p r = true → ∃ r', m' !! k = Some r' ∧ p r' = true) → count_rows p m <= count_rows p m'.
Proof.
  intros H. unfold count_rows. apply Nat2Z.inj_le. rewrite <-!size_dom. apply subseteq_size. intros k.
  rewrite !elem_of_dom. intros [r [Hr Hp]%map_lookup_filter_Some]. destruct (H k r Hr Hp) as (r'&?&?).
  exists r'. by apply map_lookup_filter_Some.
Qed.

Lemma count_rows_insert {R} (p : R → bool) (m : gmap string R) k r : m !! k = None →
  count_rows p (<[k := r]> m) = count_rows p m + Z.b2z (p r).
Proof.
  intros Hk. unfold count_rows. destruct (p r) eqn:E.
  - rewrite map_filter_insert_True by done. rewrite map_size_insert_None by (apply map_lookup_filter_None; by left).
    simpl. lia.
  - rewrite map_filter_insert_False by (simpl; congruence). rewrite delete_id by done. simpl. lia.
Qed.

Lemma count_rows_all {R} (m : gmap string R) : count_rows (λ _, true) m = Z.of_nat (size m).
Proof. unfold count_rows. by rewrite map_filter_id. Qed.

Lemma count_rows_nonneg {R} (p : R → bool) (m : gmap string R) : 0 <= count_rows p m.
Proof. unfold count_rows. lia. Qed.

(** ** Steps and their invariant *)

Section invariant.
  Context {EC : Ed25519} {UH : UrlHosts}.

Definition audit_of (q : RequestRow) : AuditRow :=
  {| au_digest := rr_digest q; au_owner := rr_owner q; au_device := rr_device q; au_created := rr_created q |}.

(** A method that returns takes the database to the next one; one that raises
    leaves it. *)
Inductive inbox_step (x : Inbox) : InboxDb → InboxDb → Prop :=
  | step_challenge r cid nonce current db v db' :
      challenge x r cid nonce current db = Ok (v, db') → inbox_step x db db'
  | step_execute c proof signature current db v db' :
      inbox_execute x c proof signature current db = Ok (v, db') → inbox_step x db db'.

Record inbox_ok (x : Inbox) (db : InboxDb) : Prop := {
  io_challenges : Z.of_nat (size (db_challenges db)) <= 256;
  io_owners o : count_rows (λ c, String.eqb (cr_owner c) o) (db_challenges db) <= 8;
  io_issued cid c : db_challenges db !! cid = Some c → ∃ r nonce issued,
    cr_payload c = _canonical_json (challenge_value x r cid nonce issued) ∧ cr_owner c = ra_subject_public_key r
    ∧ cr_expires c = issued + 120;
  io_requests : Z.of_nat (size (db_requests db)) <= ix_max_requests x;
  io_audit : db_audit db = audit_of <$> db_requests db
}.

Lemma empty_inbox_ok x : 0 <= ix_max_requests x → inbox_ok x empty_inbox.
Proof.
  intros Hm. constructor; simpl; try done.
Qed.

Lemma challenge_keeps x r cid nonce current db v db' :
  challenge x r cid nonce current db = Ok (v, db') → inbox_ok x db →
  inbox_ok x db' ∧ db_requests db' = db_requests db.
Proof.
  unfold challenge. intros (?&_&H)%res_bind_Ok [Hc Ho Hi Hr Ha]. apply res_bind_Ok in H as (?&_&H).
  apply res_bind_Ok in H as (?&Hcap%raise_if_Ok&H). apply res_bind_Ok in H as (?&Hk%raise_if_Ok&[= <- <-]).
  set (live := filter _ (db_challenges db)) in *. apply bool_decide_eq_false in Hk. rewrite <-eq_None_not_Some in Hk.
  apply orb_false_iff in Hcap as [Hall%Z.leb_gt Hown%Z.leb_gt]. rewrite count_rows_all in Hall.
  assert (∀ k c, live !! k = Some c → db_challenges db !! k = Some c) as Hlive.
  { intros k c Hl. apply map_lookup_filter_Some in Hl. tauto. }
  split; [|done]. constructor; cbn [db_challenges db_requests db_audit]; [| | |done|done].
  - rewrite map_size_insert_None by done. lia.
  - intros o. rewrite count_rows_insert by done. cbn [cr_owner]. destruct (String.eqb_spec (ra_subject_public_key r) o) as [<-|].
    + simpl. lia.
    + simpl. rewrite Z.add_0_r. etransitivity; [|apply (Ho o)]. apply count_rows_mono. eauto.
  - intros k c. rewrite lookup_insert_Some. intros [[<- <-]|[_ Hl]]; [by exists r, nonce, current|by apply Hi, Hlive].
Qed.

Lemma mark_used_lookup cid m k c : mark_used cid m !! k = Some c →
  ∃ c0, m !! k = Some c0 ∧ cr_payload c = cr_payload c0 ∧ cr_owner c = cr_owner c0 ∧ cr_expires c = cr_expires c0.
Proof.
  unfold mark_used. rewrite lookup_alter. case_decide; [|by eauto]. subst. destruct (m !! k); [|done].
  intros [= <-]. by eexists.
Qed.

Lemma mark_used_size cid m : size (mark_used cid m) = size m.
Proof. unfold mark_used. by rewrite <-!size_dom, dom_alter_L. Qed.

Lemma insert_request_Ok x raw r used digest current db row db' :
  insert_request x raw r used digest current db = Ok (row, db') →
  used = false ∧ Z.of_nat (size (db_requests db)) < ix_max_requests x
  ∧ count_rows (λ q, String.eqb (rr_owner q) (ra_subject_public_key r) && (current <? rr_expires q)) (db_requests db)
    < ix_max_per_member x
  ∧ validate_intent x (ra_intent r) current = Ok tt
  ∧ rr_owner row = ra_subject_public_key r ∧ rr_device row = ra_installation_id r ∧ rr_digest row = digest
  ∧ rr_created row = current ∧ rr_expires row = current + 604800
  ∧ db' = {| db_challenges := db_challenges db; db_requests := <[ra_request_id r := row]> (db_requests db);
             db_audit := <[ra_request_id r := audit_of row]> (db_audit db) |}.
Proof.
  unfold insert_request. intros ([]&Hv&H)%res_bind_Ok. apply res_bind_Ok in H as (?&Hu%raise_if_Ok&H).
  apply res_bind_Ok in H as (?&Hc%raise_if_Ok&H). apply res_bind_Ok in H as (i&_&H).
  apply res_bind_Ok in H as (?&_&[= <- <-]). apply orb_false_iff in Hc as [H1%Z.leb_gt H2%Z.leb_gt].
  rewrite count_rows_all in H1. done.
Qed.

(** Everything a successful action did. *)
Lemma record_Ok x c p proof current db v db' : _record_authenticated x c p proof current db = Ok (v, db') →
  ∃ raw row, item "request" c = Ok raw ∧ db_challenges db !! ch_challenge_id p = Some row
    ∧ cr_payload row = _canonical_json c ∧ ix_membership x proof (ra_subject_public_key (ch_request p)) = true
    ∧ db_challenges db' = mark_used (ch_challenge_id p) (db_challenges db)
    ∧ match db_requests db !! ra_request_id (ch_request p) with
      | Some q =>
          rr_owner q = ra_subject_public_key (ch_request p) ∧ rr_device q = ra_installation_id (ch_request p)
          ∧ (ra_action (ch_request p) = act_submit → rr_digest q = sha256_hex (_canonical_json raw))
          ∧ v = inbox_result (ra_request_id (ch_request p)) q current
          ∧ db_requests db' = db_requests db ∧ db_audit db' = db_audit db
      | None =>
          match ra_action (ch_request p) with
          | act_status =>
              v = unknown_result (ra_request_id (ch_request p)) ∧ db_requests db' = db_requests db
              ∧ db_audit db' = db_audit db
          | act_submit => ∃ q y,
              insert_request x raw (ch_request p) (cr_used row) (sha256_hex (_canonical_json raw)) current db = Ok (q, y)
              ∧ v = inbox_result (ra_request_id (ch_request p)) q current
              ∧ db_requests db' = <[ra_request_id (ch_request p) := q]> (db_requests db)
              ∧ db_audit db' = <[ra_request_id (ch_request p) := audit_of q]> (db_audit db)
          end
      end.
Proof.
  unfold _record_authenticated. intros (raw&Hraw&H)%res_bind_Ok. apply res_bind_Ok in H as (row&Hrow%of_option_Ok&H).
  apply res_bind_Ok in H as (?&Hp%raise_if_Ok&H). apply negb_false_iff, String.eqb_eq in Hp.
  apply res_bind_Ok in H as (?&Hm%raise_if_Ok&H). apply negb_false_iff in Hm.
  apply res_bind_Ok in H as (?&Ho%raise_if_Ok&H). apply res_bind_Ok in H as ([v1 y]&Hy&[= <- <-]).
  exists raw, row. cbn [db_challenges db_requests db_audit]. do 4 (split; [done|]).
  destruct (db_requests db !! ra_request_id (ch_request p)) as [q|] eqn:Eq.
  - apply negb_false_iff, andb_true_iff in Ho as [Ho%String.eqb_eq Hd%String.eqb_eq].
    destruct (ra_action (ch_request p)).
    + unfold submit in Hy. rewrite Eq in Hy. apply res_bind_Ok in Hy as (?&Hdg%raise_if_Ok&[= <- <-]).
      apply negb_false_iff, String.eqb_eq in Hdg. done.
    + injection Hy as <- <-. split; [done|]. by repeat split.
  - destruct (ra_action (ch_request p)).
    + unfold submit in Hy. rewrite Eq in Hy. apply res_bind_Ok in Hy as ([q y']&Hi&[= <- <-]).
      pose proof (insert_request_Ok _ _ _ _ _ _ _ _ _ Hi) as (_&_&_&_&_&_&_&_&_&Hy'). split; [by rewrite Hy'|].
      exists q, y'. split; [done|]. split; [done|]. by rewrite Hy'.
    + injection Hy as <- <-. by repeat split.
Qed.

Lemma record_keeps_inbox x c p proof current db v db' :
  _record_authenticated x c p proof current db = Ok (v, db') → inbox_ok x db →
  inbox_ok x db' ∧ db_requests db ⊆ db_requests db'.
Proof.
  intros (raw&row&_&_&_&_&Hch&H)%record_Ok [Hc Ho Hi Hr Ha].
  assert (∀ o, count_rows (λ c0, String.eqb (cr_owner c0) o) (db_challenges db') <= 8) as Hown.
  { intros o. etransitivity; [|apply (Ho o)]. rewrite Hch. apply count_rows_mono. intros k c0 Hk.
    apply mark_used_lookup in Hk as (c1&?&_&->&_). eauto. }
  assert (∀ cid c0, db_challenges db' !! cid = Some c0 → ∃ r nonce issued,
    cr_payload c0 = _canonical_json (challenge_value x r cid nonce issued) ∧ cr_owner c0 = ra_subject_public_key r
    ∧ cr_expires c0 = issued + 120) as Hiss.
  { intros k c0 Hk. rewrite Hch in Hk. apply mark_used_lookup in Hk as (c1&Hk&->&->&->). by apply Hi. }
  assert (db_requests db' = db_requests db ∧ db_audit db' = db_audit db
    ∨ ∃ q, db_requests db !! ra_request_id (ch_request p) = None ∧ Z.of_nat (size (db_requests db)) < ix_max_requests x
        ∧ db_requests db' = <[ra_request_id (ch_request p) := q]> (db_requests db)
        ∧ db_audit db' = <[ra_request_id (ch_request p) := audit_of q]> (db_audit db)) as Hcase.
  { destruct (db_requests db !! ra_request_id (ch_request p)); [left; tauto|].
    destruct (ra_action (ch_request p)); [|left; tauto]. destruct H as (q&y&Hins&_&?&?). right. exists q.
    apply insert_request_Ok in Hins as (_&?&_). done. }
  destruct Hcase as [[Hq Hau]|(q&Hn&Hlt&Hq&Hau)]; (split; [constructor|]); try done;
    try (rewrite Hch, mark_used_size; done); rewrite ?Hq, ?Hau; try done.
  - rewrite map_size_insert_None by done. lia.
  - by rewrite Ha, fmap_insert.
  - by apply insert_subseteq.
Qed.

Lemma inbox_step_keeps x db db' : inbox_step x db db' → inbox_ok x db →
  inbox_ok x db' ∧ db_requests db ⊆ db_requests db'.
Proof.
  intros [r cid nonce current d v d' H|c proof sg current d v d' H] Hok.
  - destruct (challenge_keeps _ _ _ _ _ _ _ _ H Hok) as [? ->]. done.
  - unfold inbox_execute in H. apply res_bind_Ok in H as (p&_&H). by eapply record_keeps_inbox.
Qed.

End invariant.

(** ** Properties *)

Section properties.
  Context {EC : Ed25519} {UH : UrlHosts}.

(** C16: The inbox stays bounded and append-only: over any sequence of challenges
    and actions from an empty inbox at most 256 challenges are open and 8 per
    member, each stored challenge is one the inbox issued for its owner with a
    120-second deadline, at most [max_requests] requests are kept, every request
    has its audit row, and a stored request is never changed or removed. *)
Theorem access_inbox_bounded x db db' :
  0 <= ix_max_requests x → rtc (inbox_step x) empty_inbox db → rtc (inbox_step x) db db' →
  inbox_ok x db' ∧ db_requests db ⊆ db_requests db'.
Proof.
  intros Hm H1 H2. assert (∀ a b, inbox_ok x a → rtc (inbox_step x) a b → inbox_ok x b ∧ db_requests a ⊆ db_requests b) as Hind.
  { intros a b Ha Hab. induction Hab as [a|a b d Hab _ IH]; [done|].
    destruct (inbox_step_keeps _ _ _ Hab Ha) as [Hb Hs]. destruct (IH Hb) as [? ?]. split; [done|]. by etrans. }
  destruct (Hind _ _ (empty_inbox_ok x Hm) H1) as [Hdb _]. by apply Hind.
Qed.

(** C15: An access request takes effect only when approved by the member it
    names: an action that returns was a validated, unexpired challenge of this
    issuer and receiver, stored here with exactly these bytes, signed over them
    with the named member's key and passed by the membership check; it marks the
    challenge used and changes no other request.  A new submission needs an unused
    challenge, valid requested permissions and free capacity and stores the
    member's row; a repeated one needs the same member, device and request digest
    and returns the stored receipt; a status query changes no request. *)
Theorem access_request_authentic x c proof signature current db v db' :
  inbox_execute x c proof signature current db = Ok (v, db') →
  ∃ p raw sig row, let r := ch_request p in
    Challenge_of c = Ok p ∧ item "request" c = Ok raw
    ∧ ch_issuer p = ix_issuer x ∧ ch_receiver p = ix_receiver x
    ∧ ch_issued_at p <= current < ch_expires_at p ∧ ch_expires_at p = ch_issued_at p + 120
    ∧ b64decode signature = Some sig
    ∧ ed25519_verify (fromhex (ra_subject_public_key r)) sig (DOMAIN +:+ _canonical_json c) = true
    ∧ ix_membership x proof (ra_subject_public_key r) = true
    ∧ db_challenges db !! ch_challenge_id p = Some row ∧ cr_payload row = _canonical_json c
    ∧ db_challenges db' = mark_used (ch_challenge_id p) (db_challenges db)
    ∧ match db_requests db !! ra_request_id r with
      | Some q =>
          rr_owner q = ra_subject_public_key r ∧ rr_device q = ra_installation_id r
          ∧ (ra_action r = act_submit → rr_digest q = sha256_hex (_canonical_json raw))
          ∧ v = inbox_result (ra_request_id r) q current ∧ db_requests db' = db_requests db
      | None =>
          match ra_action r with
          | act_status => v = unknown_result (ra_request_id r) ∧ db_requests db' = db_requests db
          | act_submit => ∃ q,
              cr_used row = false ∧ validate_intent x (ra_intent r) current = Ok tt
              ∧ Z.of_nat (size (db_requests db)) < ix_max_requests x
              ∧ rr_owner q = ra_subject_public_key r ∧ rr_device q = ra_installation_id r
              ∧ rr_digest q = sha256_hex (_canonical_json raw) ∧ rr_created q = current
              ∧ rr_expires q = current + 604800 ∧ v = inbox_result (ra_request_id r) q current
              ∧ db_requests db' = <[ra_request_id r := q]> (db_requests db)
          end
      end.
Proof.
  unfold inbox_execute. intros (p&Hv&H)%res_bind_Ok. unfold verify_approval in Hv. apply rethrow_Ok in Hv.
  apply res_bind_Ok in Hv as (p'&Hp&Hv). apply res_bind_Ok in Hv as (?&Hg%raise_if_Ok&Hv).
  apply res_bind_Ok in Hv as (sig&Hsig%of_option_Ok&Hv). apply res_bind_Ok in Hv as (?&_&Hv).
  apply res_bind_Ok in Hv as (?&Hver%raise_if_Ok&[= ->]). apply negb_false_iff in Hver.
  rewrite !orb_false_iff, !negb_false_iff in Hg. destruct Hg as [[[[[[[_ _] _] Hi] Hr] Ht] Hd] _].
  apply String.eqb_eq in Hi, Hr. apply andb_true_iff in Ht as [H1%Z.leb_le H2%Z.ltb_lt]. apply Z.eqb_eq in Hd.
  apply record_Ok in H as (raw&row&Hraw&Hrow&Hpay&Hm&Hch&H). exists p, raw, sig, row.
  split_and!; try done; [lia|].
  destruct (db_requests db !! ra_request_id (ch_request p)) as [q|]; [tauto|].
  destruct (ra_action (ch_request p)); [|tauto]. destruct H as (q&y&Hins&->&Hreq&_). exists q.
  apply insert_request_Ok in Hins as (?&?&_&?&?&?&?&?&?&_). by split_and!.
Qed.

End properties.

(** ** Witnesses *)

Section witnesses.

#[local] Instance digest_signatures : Ed25519 := {| ed25519_verify := λ _ sg m, String.eqb sg (toy_sign m) |}.
#[local] Instance plain_origins : UrlHosts := {| bracketed_netloc_ok := λ _, false |}.

Definition ex_inbox : Inbox :=
  {| ix_issuer := "issuer"; ix_receiver := "https://work.example"; ix_membership := λ _ _, true; ix_max_requests := 10;
     ix_max_per_member := 2 |}.

Definition ex_intent : AccessIntent :=
  {| ai_read_grants := [{| wg_operations := ["list"; "get"]; wg_relationship_types := ["parent"]; wg_work_kinds := ["Todo"];
                           wg_work_ids := []; wg_arena_ids := []; wg_include_archived := true; wg_resource_paths := [] |}];
     ai_write_grants := [] |}.

Definition ex_request : RequestAction :=
  {| ra_action := act_submit; ra_request_id := substring 0 32 (sha256_hex "request");
     ra_subject_public_key := sha256_hex "member"; ra_installation_id := substring 0 32 (sha256_hex "device");
     ra_intent := Some ex_intent |}.

Definition ex_issue : res (value * InboxDb) :=
  challenge ex_inbox ex_request (substring 0 32 (sha256_hex "challenge")) (substring 0 43 (sha256_hex "nonce")) 1000 empty_inbox.

Definition ex_submit : res (value * InboxDb) :=
  y ← ex_issue;
  inbox_execute ex_inbox y.1 (VDict []) (b64encode (toy_sign (signable_access_request y.1))) 1010 y.2.

Lemma ex_submitted : ∃ c db1 v db2, ex_issue = Ok (c, db1)
  ∧ inbox_execute ex_inbox c (VDict []) (b64encode (toy_sign (signable_access_request c))) 1010 db1 = Ok (v, db2)
  ∧ size (db_requests db2) = 1%nat.
Proof.
  assert (match ex_submit with Ok y => (size (db_requests y.2) =? 1)%nat | Err _ => false end = true) as H
    by (vm_compute; reflexivity).
  unfold ex_submit in H. destruct ex_issue as [[c db1]|]; [|discriminate H]. cbn [mbind res_bind fst snd] in H.
  destruct (inbox_execute _ _ _ _ _ _) as [[v db2]|] eqn:E; [|discriminate H]. apply Nat.eqb_eq in H. exists c, db1, v, db2. auto.
Qed.

Lemma access_request_authentic_witness : ∃ c db v db', inbox_execute ex_inbox c (VDict [])
    (b64encode (toy_sign (signable_access_request c))) 1010 db = Ok (v, db')
  ∧ ∃ p, Challenge_of c = Ok p ∧ ch_issued_at p <= 1010 < ch_expires_at p.
Proof.
  destruct ex_submitted as (c&db1&v&db2&_&H&_). exists c, db1, v, db2. split; [exact H|].
  destruct (access_request_authentic ex_inbox _ _ _ _ _ _ _ H) as (p&raw&sig&row&Hp&_&_&_&Ht&_). exists p. split; [exact Hp|exact Ht].
Defined.

Lemma access_inbox_bounded_witness : ∃ db, rtc (inbox_step ex_inbox) empty_inbox db ∧ size (db_requests db) = 1%nat
  ∧ inbox_ok ex_inbox db.
Proof.
  destruct ex_submitted as (c&db1&v&db2&H1&H2&H3).
  assert (rtc (inbox_step ex_inbox) empty_inbox db2) as Hr.
  { eapply rtc_l; [eapply step_challenge, H1|]. eapply rtc_once. eapply step_execute, H2. }
  exists db2. split; [exact Hr|]. split; [exact H3|].
  apply (access_inbox_bounded ex_inbox db2 db2); [cbn; lia|exact Hr|apply rtc_refl].
Defined.

End witnesses.
