(* ===== verification/Enrollment.v ===== *)
(** * Native read enrollment

    [NativeReadEnrollment] of [src/devgraph/auth/native_read.py]: a receiver that
    owns its policy issues bearer read credentials to members who prove possession
    of their key, one active credential per member and installation, and revokes
    them.  This is the service as the class defines it, without the subclasses'
    policy hooks and without a holder-grant host.

    As in the inbox, a method is a function of the database; an error rolls back.
    The clock in seconds, the policy the callable returns, the random identifiers
    and the membership check are arguments. *)

From stdpp Require Import base gmap strings list sorting relations.
From Stdlib Require Import ZArith Ascii String.
From S2P Require Import Prelude Json Sha256 Datetime Validation WorkflowContract StrictJson Model Storage Outbox Delegated Grants Credentials Verifier Inbox.

Local Open Scope Z_scope.

(** ** Policy *)

Record EnrollmentPolicy := {
  ep_issuer : string;
  ep_receiver : string;
  ep_grants : list WorkReadGrant;
  ep_lifetime_seconds : Z
}.

Definition grants_value (gs : list WorkReadGrant) : value := VList (map read_grant_dump (map work_grant gs)).

Definition policy_dump (p : EnrollmentPolicy) : value :=
  VDict (mk_dict
    [("schema", VStr "devgraph.native-read-policy.v1"); ("issuer", VStr (ep_issuer p)); ("receiver", VStr (ep_receiver p));
     ("grants", grants_value (ep_grants p)); ("lifetime_seconds", VInt (ep_lifetime_seconds p))]).

Definition policy_digest (p : EnrollmentPolicy) : string := sha256_hex (_canonical_json (policy_dump p)).

Definition NATIVE_DOMAIN : string := "castalia/read-access-approval/v1" +:+ String (ascii_of_N 0) "".

Definition signable_challenge (c : value) : string := NATIVE_DOMAIN +:+ _canonical_json c.

Definition RESOURCE : string := "https://work.zenith-research.ca/devgraph".

(** ** Tables *)

Record NativeChallenge := { nc_payload : string; nc_expires : Z; nc_used : bool }.

Record NativeEnrollment := { ne_ceiling : string; ne_revoked : bool }.

Inductive credential_status : Type := cs_active | cs_superseded | cs_revoked.

#[export] Instance credential_status_eq_dec : EqDecision credential_status.
Proof. solve_decision. Defined.

Record NativeCredential := {
  ncr_digest : string;
  ncr_owner : string;
  ncr_device : string;
  ncr_manifest : string;
  ncr_proof : string;
  ncr_status : credential_status
}.

Definition set_cred_status (st : credential_status) (c : NativeCredential) : NativeCredential :=
  {| ncr_digest := ncr_digest c; ncr_owner := ncr_owner c; ncr_device := ncr_device c; ncr_manifest := ncr_manifest c;
     ncr_proof := ncr_proof c; ncr_status := st |}.

Record NativeDb := {
  nd_challenges : gmap string NativeChallenge;
  nd_enrollments : gmap (string * string) NativeEnrollment;
  nd_credentials : gmap string NativeCredential
}.

Definition empty_native : NativeDb := {| nd_challenges := ∅; nd_enrollments := ∅; nd_credentials := ∅ |}.

(** [canonical_json(v).decode()]. *)
Definition json_text (v : value) : string := dumps false v.

Section enrollment.
  Context {EC : Ed25519}.

(** ** Challenge *)

Definition native_details (p : EnrollmentPolicy) : value :=
  VDict (mk_dict [("schema", VStr "devgraph.native-read-scope.v1"); ("policy_digest", VStr (policy_digest p));
                  ("read_grants", grants_value (ep_grants p))]).

Definition native_challenge_value (p : EnrollmentPolicy) (owner device rid nonce : string) (current : Z) : value :=
  VDict (mk_dict
    [("schema", VStr "castalia.read-access-challenge.v1"); ("request_id", VStr rid); ("nonce", VStr nonce);
     ("subject_public_key", VStr owner); ("installation_id", VStr device); ("issuer", VStr (ep_issuer p));
     ("receiver", VStr (ep_receiver p)); ("details", native_details p); ("issued_at", VInt current);
     ("expires_at", VInt (current + 120)); ("credential_expires_at", VInt (current + ep_lifetime_seconds p))]).

Definition native_challenge (p : EnrollmentPolicy) (owner device rid nonce : string) (current : Z) (db : NativeDb) :
    res (value * NativeDb) :=
  raise_if (negb (hex_text 64 owner) || negb (hex_text 32 device)) (UnauthenticatedError "invalid_request");;
  let v := native_challenge_value p owner device rid nonce current in
  raise_if (16384 <? str_len (_canonical_json v)) (UnauthenticatedError "read_policy_too_large");;
  let live := filter (λ kv : string * NativeChallenge, current <= nc_expires kv.2) (nd_challenges db) in
  raise_if (256 <=? Z.of_nat (size live)) (UnauthenticatedError "try_later");;
  raise_if (bool_decide (is_Some (live !! rid))) integrity_error;;
  Ok (v, {| nd_challenges := <[rid := {| nc_payload := json_text v; nc_expires := current + 120; nc_used := false |}]> live;
            nd_enrollments := nd_enrollments db; nd_credentials := nd_credentials db |}).

(** ** Enrollment *)

(** [value.get(name)] of a dictionary. *)
Definition get_field (name : string) (v : value) : value :=
  match v with VDict d => default VNone (dict_get name d) | _ => VNone end.

Definition is_dict (v : value) : bool := match v with VDict _ => true | _ => false end.

Definition possession_text (s : string) : bool :=
  (str_len s =? 86) && str_forall (λ c, is_alnum c || Ascii.eqb c "_" || Ascii.eqb c "-") s.

Definition check_possession (owner signature : string) (c : value) : res unit :=
  rethrow is_value_error (λ _, UnauthenticatedError "invalid_possession")
    (raise_if (negb (possession_text signature)) (ValueError "");;
     sg ← of_option (ValueError "base64") (b64decode signature);
     raise_if (negb (String.eqb (b64encode sg) signature)) (ValueError "");;
     raise_if (negb (ed25519_verify (fromhex owner) sg (signable_challenge c))) (ValueError "InvalidSignature")).

(** The checks before the transaction; returns the owner and the device. *)
Definition admit_enrollment (p : EnrollmentPolicy) (member : value → string → bool) (c proof : value) (signature : string) :
    res (string * string) :=
  raise_if (negb (is_dict c) || negb (is_dict (get_field "details" c)) || negb (is_dict proof)
            || (16384 <? str_len (_canonical_json proof))) (UnauthenticatedError "invalid_request");;
  owner ← match get_field "subject_public_key" c with VStr s => Ok s | _ => unauthenticated "invalid_request" end;
  device ← match get_field "installation_id" c with VStr s => Ok s | _ => unauthenticated "invalid_request" end;
  raise_if (negb (hex_text 64 owner) || negb (hex_text 32 device)) (UnauthenticatedError "invalid_request");;
  raise_if (negb (value_eqb (get_field "policy_digest" (get_field "details" c)) (VStr (policy_digest p)))
            || negb (value_eqb (get_field "receiver" c) (VStr (ep_receiver p)))) (UnauthenticatedError "policy_changed");;
  raise_if (negb (member proof owner)) (UnauthenticatedError "membership_required");;
  check_possession owner signature c;;
  Ok (owner, device).

(** [challenge["details"]["read_grants"]]. *)
Definition challenged_grants (c : value) : res value := details ← item "details" c; item "read_grants" details.

(** The enrollment row: a first one records the ceiling, a later one must stay
    within it. *)
Definition enroll_device (p : EnrollmentPolicy) (who : string * string) (c : value) (db : NativeDb) :
    res (gmap (string * string) NativeEnrollment) :=
  match nd_enrollments db !! who with
  | Some e =>
      raise_if (ne_revoked e) (UnauthenticatedError "credential_revoked");;
      v ← of_option (ValueError "JSONDecodeError") (loads (ne_ceiling e));
      ceiling ← match v with VList l => res_mapM WorkReadGrant_of l | _ => Err (TypeError "not iterable") end;
      raise_if (existsb (λ g, negb (existsb (λ a, _grant_is_subset (work_grant g) (work_grant a)) ceiling)) (ep_grants p))
        (UnauthenticatedError "grant_amplification");;
      Ok (nd_enrollments db)
  | None =>
      raise_if (10000 <=? Z.of_nat (size (nd_enrollments db))) (UnauthenticatedError "try_later");;
      granted ← challenged_grants c;
      Ok (<[who := {| ne_ceiling := json_text granted; ne_revoked := false |}]> (nd_enrollments db))
  end.

(** [UPDATE credentials SET status='superseded' ...]: identifiers of this service
    never start with [dgrg_]. *)
Definition superseded_by (identifier : string) (who : string * string) (kv : string * NativeCredential) : bool :=
  bool_decide ((ncr_owner kv.2, ncr_device kv.2) = who) && bool_decide (ncr_status kv.2 = cs_active)
  && Bool.eqb (String.prefix "dgrg_" kv.1) (String.prefix "dgrg_" identifier).

Definition supersede (identifier : string) (who : string * string) (m : gmap string NativeCredential) :
    gmap string NativeCredential :=
  map_imap (λ k c, Some (if superseded_by identifier who (k, c) then set_cred_status cs_superseded c else c)) m.

Definition native_manifest (p : EnrollmentPolicy) (identifier : string) (who : string * string) (expires granted : value)
    (current : Z) : value :=
  VDict (mk_dict
    [("schema", VStr "devgraph.native-read-manifest.v1"); ("credential_id", VStr identifier);
     ("subject_public_key", VStr who.1); ("installation_id", VStr who.2); ("issuer", VStr (ep_issuer p));
     ("receiver", VStr (ep_receiver p)); ("policy_digest", VStr (policy_digest p)); ("audience", VStr "devgraph");
     ("resource", VStr RESOURCE); ("issued_at", VInt current); ("expires_at", expires); ("read_grants", granted)]).

Definition use_challenge (rid : string) (m : gmap string NativeChallenge) : gmap string NativeChallenge :=
  alter (λ c, {| nc_payload := nc_payload c; nc_expires := nc_expires c; nc_used := true |}) rid m.

(** The stored challenge with exactly these bytes, in its window and unused.  The
    identifiers stored are texts, so a null or a number finds no row with these
    bytes; a container cannot be bound to the query. *)
Definition live_challenge (c : value) (current : Z) (db : NativeDb) : res string :=
  let expired := UnauthenticatedError "challenge_expired" in
  rid ← match get_field "request_id" c with
        | VStr s => Ok s
        | VList _ | VDict _ => Err (RuntimeError "InterfaceError")
        | _ => Err expired
        end;
  row ← of_option expired (nd_challenges db !! rid);
  raise_if (negb (String.eqb (nc_payload row) (json_text c)) || (nc_expires row <=? current)) expired;;
  issued ← item "issued_at" c;
  match issued with
  | VInt z => raise_if (current <? z) expired
  | VBool b => raise_if (current <? Z.b2z b) expired
  | _ => Err (TypeError "unorderable")
  end;;
  raise_if (nc_used row) (UnauthenticatedError "challenge_used");;
  Ok rid.

(** [suffix] and [token] are the random parts of the identifier and the bearer. *)
Definition enroll (p : EnrollmentPolicy) (member : value → string → bool) (c proof : value) (signature suffix token : string)
    (current : Z) (db : NativeDb) : res (value * NativeDb) :=
  who ← admit_enrollment p member c proof signature;
  rid ← live_challenge c current db;
  enrollments ← enroll_device p who c db;
  expires ← item "credential_expires_at" c;
  granted ← challenged_grants c;
  let identifier := "dgrn_" +:+ suffix in
  let manifest := native_manifest p identifier who expires granted current in
  let credential := "dgrn1_" +:+ token in
  let digest := sha256_hex (utf8_encode credential) in
  let rows := supersede identifier who (nd_credentials db) in
  raise_if (bool_decide (is_Some (rows !! identifier))
            || existsb (λ kv : string * NativeCredential, String.eqb (ncr_digest kv.2) digest) (map_to_list rows))
    integrity_error;;
  Ok (VDict (mk_dict [("schema", VStr "devgraph.native-read-result.v1"); ("credential", VStr credential); ("manifest", manifest)]),
      {| nd_challenges := use_challenge rid (nd_challenges db); nd_enrollments := enrollments;
         nd_credentials := <[identifier := {| ncr_digest := digest; ncr_owner := who.1; ncr_device := who.2;
                                              ncr_manifest := json_text manifest; ncr_proof := json_text proof;
                                              ncr_status := cs_active |}]> rows |}).

(** ** Presentation *)

Definition native_token (s : string) : bool :=
  match strip_prefix "dgrn1_" s with
  | Some r => (str_len r =? 43) && str_forall (λ c, is_alnum c || Ascii.eqb c "_" || Ascii.eqb c "-") r
  | None => false
  end.

Definition find_digest (digest : string) (db : NativeDb) : option NativeCredential :=
  snd <$> head (filter (λ kv : string * NativeCredential, ncr_digest kv.2 = digest) (map_to_list (nd_credentials db))).

Definition str_item (name : string) (v : value) : res string :=
  x ← item name v; match x with VStr s => Ok s | _ => Err (TypeError name) end.

Definition int_item (name : string) (v : value) : res Z :=
  x ← item name v; match x with VInt z => Ok z | _ => Err (TypeError name) end.

Definition native_envelope (p : EnrollmentPolicy) (cid : string) (expires : Z) (grants : list WorkReadGrant) :
    res CredentialEnvelope :=
  expires_at ← fromtimestamp expires;
  new_envelope {| ce_actor_id := cid; ce_session_id := cid; ce_correlation_id := cid; ce_scopes := ["devgraph.work.read"];
    ce_expires_at := expires_at; ce_issuer := ep_issuer p; ce_audience := "devgraph"; ce_redaction_partitions := [];
    ce_credential_id := Some cid; ce_credential_version := Some 1; ce_read_grants := map work_grant grants;
    ce_lifecycle_status := Some "active"; ce_resource := Some RESOURCE |}.

Definition native_verify (p : EnrollmentPolicy) (member : value → string → bool) (credential : option string)
    (audience : string) (current : Z) (db : NativeDb) : res AuthorityContext :=
  raise_if (negb (String.eqb audience "devgraph")) (UnauthenticatedError "invalid_credential");;
  token ← of_option (UnauthenticatedError "invalid_credential") credential;
  raise_if (negb (native_token token)) (UnauthenticatedError "invalid_credential");;
  row ← of_option (UnauthenticatedError "invalid_credential") (find_digest (sha256_hex (utf8_encode token)) db);
  raise_if (negb (bool_decide (ncr_status row = cs_active))) (UnauthenticatedError "invalid_credential");;
  manifest ← of_option (ValueError "JSONDecodeError") (loads (ncr_manifest row));
  proof ← of_option (ValueError "JSONDecodeError") (loads (ncr_proof row));
  digest ← str_item "policy_digest" manifest;
  raise_if (negb (String.eqb digest (policy_digest p))) (UnauthenticatedError "policy_changed");;
  owner ← str_item "subject_public_key" manifest;
  raise_if (negb (member proof owner)) (UnauthenticatedError "policy_changed");;
  issued ← int_item "issued_at" manifest;
  raise_if (current <? issued) (UnauthenticatedError "credential_expired");;
  expires ← int_item "expires_at" manifest;
  raise_if (expires <=? current) (UnauthenticatedError "credential_expired");;
  gs ← item "read_grants" manifest;
  grants ← match gs with VList l => res_mapM WorkReadGrant_of l | _ => Err (TypeError "not iterable") end;
  cid ← str_item "credential_id" manifest;
  e ← native_envelope p cid expires grants;
  Ok {| ac_envelope := e |}.

(** ** Revocation *)

Definition native_revoke (credential_id : string) (db : NativeDb) : NativeDb :=
  match nd_credentials db !! credential_id with
  | None => db
  | Some row =>
      let who := (ncr_owner row, ncr_device row) in
      {| nd_challenges := nd_challenges db;
         nd_enrollments := alter (λ e, {| ne_ceiling := ne_ceiling e; ne_revoked := true |}) who (nd_enrollments db);
         nd_credentials := (λ c, if bool_decide ((ncr_owner c, ncr_device c) = who) then set_cred_status cs_revoked c else c)
                             <$> nd_credentials db |}
  end.

End enrollment.

(** ** Rows after a write *)

Lemma supersede_lookup identifier who m k :
  supersede identifier who m !! k
  = (λ c, if superseded_by identifier who (k, c) then set_cred_status cs_superseded c else c) <$> m !! k.
Proof. unfold supersede. rewrite map_lookup_imap. by destruct (m !! k). Qed.

(** What the members of a credential row name. *)
Definition cred_who (c : NativeCredential) : string * string := (ncr_owner c, ncr_device c).

(** A row after [supersede] is the row before it but for its status. *)
Lemma supersede_row identifier who m k c : supersede identifier who m !! k = Some c →
  ∃ c0, m !! k = Some c0 ∧ cred_who c = cred_who c0 ∧ ncr_digest c = ncr_digest c0
    ∧ (ncr_status c = ncr_status c0 ∨ ncr_status c0 = cs_active ∧ ncr_status c = cs_superseded ∧ cred_who c0 = who)
    ∧ (ncr_status c = cs_active → String.prefix "dgrg_" k = String.prefix "dgrg_" identifier → cred_who c ≠ who).
Proof.
  rewrite supersede_lookup. destruct (m !! k) as [c0|]; [|done]. intros [= <-]. exists c0. split; [done|].
  destruct (superseded_by identifier who (k, c0)) eqn:E; simpl.
  - unfold superseded_by in E. rewrite !andb_true_iff, !bool_decide_eq_true in E. destruct E as [[? ?] _].
    repeat (split; [done|]). split; [by right|done].
  - repeat (split; [done|]). split; [by left|]. intros Ha Hp Hw. unfold superseded_by in E. simpl in E. rewrite Hp, eqb_reflx in E.
    rewrite (bool_decide_eq_true_2 _ Hw), (bool_decide_eq_true_2 _ Ha) in E. done.
Qed.

Lemma use_challenge_size rid m : size (use_challenge rid m) = size m.
Proof. unfold use_challenge. by rewrite <-!size_dom, dom_alter_L. Qed.

(** ** What a return of [enroll] means *)

Section enrolled.
  Context {EC : Ed25519}.

Lemma check_possession_Ok owner signature c : check_possession owner signature c = Ok tt →
  ∃ sig, b64decode signature = Some sig ∧ b64encode sig = signature
    ∧ ed25519_verify (fromhex owner) sig (signable_challenge c) = true.
Proof.
  unfold check_possession. intros H%rethrow_Ok. apply res_bind_Ok in H as (?&_&H).
  apply res_bind_Ok in H as (sig&Hs%of_option_Ok&H). apply res_bind_Ok in H as (?&Hb%raise_if_Ok&Hv%raise_if_Ok).
  apply negb_false_iff, String.eqb_eq in Hb. apply negb_false_iff in Hv. by exists sig.
Qed.

Lemma admit_Ok p member c proof signature owner device : admit_enrollment p member c proof signature = Ok (owner, device) →
  get_field "subject_public_key" c = VStr owner ∧ get_field "installation_id" c = VStr device
  ∧ get_field "policy_digest" (get_field "details" c) = VStr (policy_digest p)
  ∧ get_field "receiver" c = VStr (ep_receiver p) ∧ member proof owner = true
  ∧ check_possession owner signature c = Ok tt.
Proof.
  unfold admit_enrollment. intros (?&_&H)%res_bind_Ok. apply res_bind_Ok in H as (o&Ho&H).
  apply res_bind_Ok in H as (d&Hd&H). apply res_bind_Ok in H as (?&_&H). apply res_bind_Ok in H as (?&Hp%raise_if_Ok&H).
  apply res_bind_Ok in H as (?&Hm%raise_if_Ok&H). apply res_bind_Ok in H as ([]&Hc&[= -> ->]).
  apply orb_false_iff in Hp as [H1%negb_false_iff H2%negb_false_iff]. apply value_eqb_spec in H1, H2.
  apply negb_false_iff in Hm.
  destruct (get_field "subject_public_key" c); try discriminate Ho. injection Ho as ->.
  destruct (get_field "installation_id" c); try discriminate Hd. injection Hd as ->. done.
Qed.

Lemma live_challenge_Ok c current db rid : live_challenge c current db = Ok rid →
  ∃ row, get_field "request_id" c = VStr rid ∧ nd_challenges db !! rid = Some row ∧ nc_payload row = json_text c
    ∧ current < nc_expires row ∧ nc_used row = false.
Proof.
  unfold live_challenge. intros (k&Hk&H)%res_bind_Ok. apply res_bind_Ok in H as (row&Hr%of_option_Ok&H).
  apply res_bind_Ok in H as (?&Hp%raise_if_Ok&H). apply res_bind_Ok in H as (issued&_&H).
  apply res_bind_Ok in H as (?&_&H). apply res_bind_Ok in H as (?&Hu%raise_if_Ok&[= ->]).
  apply orb_false_iff in Hp as [H1%negb_false_iff H2%Z.leb_gt]. apply String.eqb_eq in H1.
  exists row. destruct (get_field "request_id" c); try discriminate Hk. injection Hk as ->. done.
Qed.

(** The grants of the policy are within the ceiling the first enrollment fixed. *)
Definition within_ceiling (p : EnrollmentPolicy) (e : NativeEnrollment) : Prop :=
  ∃ l ceiling, loads (ne_ceiling e) = Some (VList l) ∧ res_mapM WorkReadGrant_of l = Ok ceiling
    ∧ ∀ g, g ∈ ep_grants p → ∃ a, a ∈ ceiling ∧ _grant_is_subset (work_grant g) (work_grant a) = true.

Lemma enroll_device_Ok p who c db es : enroll_device p who c db = Ok es →
  (∃ e, nd_enrollments db !! who = Some e ∧ ne_revoked e = false ∧ within_ceiling p e ∧ es = nd_enrollments db)
  ∨ (∃ granted, nd_enrollments db !! who = None ∧ Z.of_nat (size (nd_enrollments db)) < 10000
       ∧ challenged_grants c = Ok granted
       ∧ es = <[who := {| ne_ceiling := json_text granted; ne_revoked := false |}]> (nd_enrollments db)).
Proof.
  unfold enroll_device. destruct (nd_enrollments db !! who) as [e|] eqn:E.
  - intros (?&Hr%raise_if_Ok&H)%res_bind_Ok. apply res_bind_Ok in H as (v&Hv%of_option_Ok&H).
    apply res_bind_Ok in H as (ceiling&Hc&H). apply res_bind_Ok in H as (?&Hs%raise_if_Ok&[= <-]).
    left. exists e. repeat (split; [done|]). split; [|done]. destruct v as [| | | | |l|]; try discriminate Hc.
    exists l, ceiling. repeat (split; [done|]). intros g Hg.
    destruct (existsb (λ a, _grant_is_subset (work_grant g) (work_grant a)) ceiling) eqn:Ex.
    + apply existsb_exists in Ex as (a&Ha%list_elem_of_In&?). by exists a.
    + exfalso. assert (existsb (λ g, negb (existsb (λ a, _grant_is_subset (work_grant g) (work_grant a)) ceiling)) (ep_grants p)
        = true) as Ht; [|congruence].
      apply existsb_exists. exists g. split; [by apply list_elem_of_In|]. by rewrite Ex.
  - intros (?&Hn%raise_if_Ok&H)%res_bind_Ok. apply res_bind_Ok in H as (granted&Hg&[= <-]). apply Z.leb_gt in Hn.
    right. by exists granted.
Qed.

Lemma enroll_Ok p member c proof signature suffix token current db v db' :
  enroll p member c proof signature suffix token current db = Ok (v, db') →
  ∃ owner device rid enrollments expires granted,
    let identifier := "dgrn_" +:+ suffix in
    let manifest := native_manifest p identifier (owner, device) expires granted current in
    let rows := supersede identifier (owner, device) (nd_credentials db) in
    let digest := sha256_hex (utf8_encode ("dgrn1_" +:+ token)) in
    admit_enrollment p member c proof signature = Ok (owner, device) ∧ live_challenge c current db = Ok rid
    ∧ enroll_device p (owner, device) c db = Ok enrollments ∧ challenged_grants c = Ok granted
    ∧ rows !! identifier = None ∧ (∀ k r, rows !! k = Some r → ncr_digest r ≠ digest)
    ∧ v = VDict (mk_dict [("schema", VStr "devgraph.native-read-result.v1"); ("credential", VStr ("dgrn1_" +:+ token));
                          ("manifest", manifest)])
    ∧ db' = {| nd_challenges := use_challenge rid (nd_challenges db); nd_enrollments := enrollments;
               nd_credentials := <[identifier := {| ncr_digest := digest; ncr_owner := owner; ncr_device := device;
                                                    ncr_manifest := json_text manifest; ncr_proof := json_text proof;
                                                    ncr_status := cs_active |}]> rows |}.
Proof.
  unfold enroll. intros ([owner device]&Ha&H)%res_bind_Ok. apply res_bind_Ok in H as (rid&Hl&H).
  apply res_bind_Ok in H as (es&He&H). apply res_bind_Ok in H as (expires&Hx&H).
  apply res_bind_Ok in H as (granted&Hg&H). apply res_bind_Ok in H as (?&Hu%raise_if_Ok&[= <- <-]).
  exists owner, device, rid, es, expires, granted. repeat (split; [done|]).
  apply orb_false_iff in Hu as [H1%bool_decide_eq_false H2]. rewrite <-eq_None_not_Some in H1.
  split; [done|]. split; [|done]. intros k r Hr Hd.
  assert (existsb (λ kv : string * NativeCredential, String.eqb (ncr_digest kv.2) (sha256_hex (utf8_encode ("dgrn1_" +:+ token))))
    (map_to_list (supersede ("dgrn_" +:+ suffix) (owner, device) (nd_credentials db))) = true) as Ht; [|congruence].
  apply existsb_exists. exists (k, r). split; [by apply list_elem_of_In, elem_of_map_to_list|]. by apply String.eqb_eq.
Qed.

End enrolled.

(** ** Steps and their invariant *)

Section invariant.
  Context {EC : Ed25519}.

(** A method that returns takes the database to the next one, under whatever
    policy, membership and clock the call sees. *)
Inductive native_step : NativeDb → NativeDb → Prop :=
  | native_step_challenge p owner device rid nonce current db v db' :
      native_challenge p owner device rid nonce current db = Ok (v, db') → native_step db db'
  | native_step_enroll p member c proof signature suffix token current db v db' :
      enroll p member c proof signature suffix token current db = Ok (v, db') → native_step db db'
  | native_step_revoke credential_id db : native_step db (native_revoke credential_id db).

Record native_ok (db : NativeDb) : Prop := {
  no_challenges : Z.of_nat (size (nd_challenges db)) <= 256;
  no_enrollments : Z.of_nat (size (nd_enrollments db)) <= 10000;
  no_identifiers k : is_Some (nd_credentials db !! k) → String.prefix "dgrg_" k = false;
  no_digests k1 k2 c1 c2 : nd_credentials db !! k1 = Some c1 → nd_credentials db !! k2 = Some c2 →
    ncr_digest c1 = ncr_digest c2 → k1 = k2;
  no_enrolled k c : nd_credentials db !! k = Some c → ∃ e, nd_enrollments db !! cred_who c = Some e
    ∧ (ne_revoked e = true → ncr_status c = cs_revoked);
  no_single k1 k2 c1 c2 : nd_credentials db !! k1 = Some c1 → nd_credentials db !! k2 = Some c2 →
    cred_who c1 = cred_who c2 → ncr_status c1 = cs_active → ncr_status c2 = cs_active → k1 = k2
}.

(** The pairs of member and installation that have been revoked. *)
Definition revoked_who (db : NativeDb) (who : string * string) : Prop :=
  ∃ e, nd_enrollments db !! who = Some e ∧ ne_revoked e = true.

Lemma empty_native_ok : native_ok empty_native.
Proof. constructor; simpl; try done; intros k; rewrite lookup_empty; by intros []. Qed.

Lemma native_challenge_keeps p owner device rid nonce current db v db' :
  native_challenge p owner device rid nonce current db = Ok (v, db') → native_ok db →
  native_ok db' ∧ ∀ who, revoked_who db who → revoked_who db' who.
Proof.
  unfold native_challenge. intros (?&_&H)%res_bind_Ok [Hc He Hi Hd Hen Hs]. apply res_bind_Ok in H as (?&_&H).
  apply res_bind_Ok in H as (?&Hn%raise_if_Ok&H). apply res_bind_Ok in H as (?&Hk%raise_if_Ok&[= <- <-]).
  apply Z.leb_gt in Hn. apply bool_decide_eq_false in Hk. rewrite <-eq_None_not_Some in Hk.
  split; [|done]. constructor; cbn [nd_challenges nd_enrollments nd_credentials]; try done.
  rewrite map_size_insert_None by done. lia.
Qed.

Lemma enroll_device_keeps p who c db es : enroll_device p who c db = Ok es → Z.of_nat (size (nd_enrollments db)) <= 10000 →
  Z.of_nat (size es) <= 10000 ∧ (∃ e, es !! who = Some e ∧ ne_revoked e = false)
  ∧ ∀ w e, nd_enrollments db !! w = Some e → es !! w = Some e.
Proof.
  intros [(e&He&Hr&_&->)|(granted&Hn&Hlt&_&->)]%enroll_device_Ok Hsz; [by eauto|].
  split; [rewrite map_size_insert_None by done; lia|]. split; [eexists; by rewrite lookup_insert_eq|].
  intros w e Hw. rewrite lookup_insert_ne by congruence. done.
Qed.

Lemma enroll_keeps p member c proof signature suffix token current db v db' :
  enroll p member c proof signature suffix token current db = Ok (v, db') → native_ok db →
  native_ok db' ∧ ∀ who, revoked_who db who → revoked_who db' who.
Proof.
  intros (owner&device&rid&es&expires&granted&_&_&He&_&Hfresh&Hdig&_&->)%enroll_Ok [Hc Hn Hi Hd Hen Hs].
  destruct (enroll_device_keeps _ _ _ _ _ He Hn) as (Hsz&(e0&He0&Hr0)&Hkeep).
  assert (String.prefix "dgrg_" ("dgrn_" +:+ suffix) = false) as Hpre by done.
  split; [|intros who (e&Hw&Hr); exists e; eauto].
  constructor; cbn [nd_challenges nd_enrollments nd_credentials].
  - by rewrite use_challenge_size.
  - done.
  - intros k [c0 Hk]. apply lookup_insert_Some in Hk as [[<- _]|[_ Hk]]; [done|].
    apply supersede_row in Hk as (c1&Hk&_). eauto.
  - intros k1 k2 c1 c2 [[<- <-]|[Hne1 H1]]%lookup_insert_Some [[<- <-]|[Hne2 H2]]%lookup_insert_Some Hx; simpl in Hx.
    + done.
    + by destruct (Hdig _ _ H2).
    + by destruct (Hdig _ _ H1).
    + apply supersede_row in H1 as (d1&H1&_&Hd1&_). apply supersede_row in H2 as (d2&H2&_&Hd2&_).
      eapply (Hd k1 k2 d1 d2); congruence.
  - intros k c0 [[<- <-]|[_ Hk]]%lookup_insert_Some; [exists e0; rewrite Hr0; done|].
    apply supersede_row in Hk as (c1&Hk&Hw&_&Hst&_). destruct (Hen _ _ Hk) as (e&Hel&Hrv). rewrite Hw. exists e.
    split; [auto|]. intros Hr. specialize (Hrv Hr). destruct Hst as [->|(Hact&_)]; [done|congruence].
  - intros k1 k2 c1 c2 [[<- <-]|[Hne1 H1]]%lookup_insert_Some [[<- <-]|[Hne2 H2]]%lookup_insert_Some Hw Ha1 Ha2.
    + done.
    + apply supersede_row in H2 as (d2&H2&_&_&_&Hno). destruct (Hno Ha2); [|done]. rewrite Hpre. eauto.
    + apply supersede_row in H1 as (d1&H1&_&_&_&Hno). destruct (Hno Ha1); [|done]. rewrite Hpre. eauto.
    + apply supersede_row in H1 as (d1&H1&Hw1&_&Hs1&_). apply supersede_row in H2 as (d2&H2&Hw2&_&Hs2&_).
      apply (Hs k1 k2 d1 d2); [done|done|congruence| |].
      * destruct Hs1 as [<-|(?&?&_)]; [done|congruence].
      * destruct Hs2 as [<-|(?&?&_)]; [done|congruence].
Qed.

(** Revocation marks the pair and every credential of it, and nothing else. *)
Lemma native_revoke_lookup credential_id db row k : nd_credentials db !! credential_id = Some row →
  nd_credentials (native_revoke credential_id db) !! k
  = (λ c, if bool_decide (cred_who c = cred_who row) then set_cred_status cs_revoked c else c) <$> nd_credentials db !! k.
Proof. intros Hr. unfold native_revoke. rewrite Hr. cbn [nd_credentials]. by rewrite lookup_fmap. Qed.

Lemma native_revoke_enrollments credential_id db row w : nd_credentials db !! credential_id = Some row →
  nd_enrollments (native_revoke credential_id db) !! w
  = (λ e, {| ne_ceiling := ne_ceiling e; ne_revoked := bool_decide (w = cred_who row) || ne_revoked e |}) <$> nd_enrollments db !! w.
Proof.
  intros Hr. unfold native_revoke. rewrite Hr. cbn [nd_enrollments]. rewrite lookup_alter. fold (cred_who row). case_decide as Hd.
  - subst w. rewrite bool_decide_eq_true_2 by done. done.
  - rewrite bool_decide_eq_false_2 by congruence. destruct (nd_enrollments db !! w) as [[? ?]|]; done.
Qed.

Lemma revoke_keeps credential_id db : native_ok db →
  native_ok (native_revoke credential_id db) ∧ ∀ who, revoked_who db who → revoked_who (native_revoke credential_id db) who.
Proof.
  intros Hok. destruct (nd_credentials db !! credential_id) as [row|] eqn:Hr; [|unfold native_revoke; by rewrite Hr].
  destruct Hok as [Hc Hn Hi Hd Hen Hs].
  assert (∀ k c, nd_credentials (native_revoke credential_id db) !! k = Some c → ∃ c0, nd_credentials db !! k = Some c0
    ∧ cred_who c = cred_who c0 ∧ ncr_digest c = ncr_digest c0
    ∧ (ncr_status c = cs_revoked ∨ ncr_status c = ncr_status c0 ∧ cred_who c0 ≠ cred_who row)) as Hrow.
  { intros k c Hk. rewrite (native_revoke_lookup _ _ _ _ Hr) in Hk. apply fmap_Some in Hk as (c0&Hk&->). exists c0.
    case_bool_decide; (split; [done|]); simpl; unfold cred_who; simpl; auto 6. }
  split.
  - constructor.
    + unfold native_revoke. by rewrite Hr.
    + unfold native_revoke. rewrite Hr. cbn [nd_enrollments]. by rewrite <-size_dom, dom_alter_L, size_dom.
    + intros k [c (c0&Hk&_)%Hrow]. eauto.
    + intros k1 k2 c1 c2 (d1&H1&_&E1&_)%Hrow (d2&H2&_&E2&_)%Hrow Hx. eapply (Hd k1 k2 d1 d2); congruence.
    + intros k c (c0&Hk&Hw&_&Hst)%Hrow. destruct (Hen _ _ Hk) as (e&He&Hrv). rewrite Hw.
      rewrite (native_revoke_enrollments _ _ _ _ Hr), He. eexists. split; [done|]. simpl. intros Hb.
      destruct Hst as [?|[-> Hne]]; [done|]. rewrite bool_decide_eq_false_2 in Hb by done. auto.
    + intros k1 k2 c1 c2 (d1&H1&W1&_&S1)%Hrow (d2&H2&W2&_&S2)%Hrow Hw A1 A2.
      apply (Hs k1 k2 d1 d2); [done|done|congruence| |]; destruct S1 as [?|[? _]], S2 as [?|[? _]]; congruence.
  - intros who (e&He&Hre). unfold revoked_who. rewrite (native_revoke_enrollments _ _ _ _ Hr), He. eexists. split; [done|].
    simpl. by rewrite Hre, orb_true_r.
Qed.

Lemma native_step_keeps db db' : native_step db db' → native_ok db →
  native_ok db' ∧ ∀ who, revoked_who db who → revoked_who db' who.
Proof.
  intros [] Hok; [by eapply native_challenge_keeps|by eapply enroll_keeps|by apply revoke_keeps].
Qed.

Lemma native_steps_keep db db' : rtc native_step db db' → native_ok db →
  native_ok db' ∧ ∀ who, revoked_who db who → revoked_who db' who.
Proof.
  induction 1 as [db|db db1 db2 H1 _ IH]; [by eauto|]. intros Hok. destruct (native_step_keeps _ _ H1 Hok) as [Hok1 Hr].
  destruct (IH Hok1) as [? ?]. eauto.
Qed.

(** The row of a digest is the one row with it. *)
Lemma find_digest_row db k c : native_ok db → nd_credentials db !! k = Some c → find_digest (ncr_digest c) db = Some c.
Proof.
  intros Hok Hk. unfold find_digest.
  destruct (filter (λ kv : string * NativeCredential, ncr_digest kv.2 = ncr_digest c) (map_to_list (nd_credentials db)))
    as [|[k' c'] l] eqn:E.
  - exfalso. assert ((k, c) ∈ filter (λ kv : string * NativeCredential, ncr_digest kv.2 = ncr_digest c)
      (map_to_list (nd_credentials db))) as Hin by (apply list_elem_of_filter; split; [done|by apply elem_of_map_to_list]).
    rewrite E in Hin. by apply not_elem_of_nil in Hin.
  - assert ((k', c') ∈ filter (λ kv : string * NativeCredential, ncr_digest kv.2 = ncr_digest c)
      (map_to_list (nd_credentials db))) as Hin by (rewrite E; apply elem_of_cons; by left).
    apply list_elem_of_filter in Hin as [Hd Hin]. apply elem_of_map_to_list in Hin. simpl in *.
    assert (k' = k) as -> by (by eapply (no_digests _ Hok)). congruence.
Qed.

Lemma find_digest_Some digest db c : find_digest digest db = Some c →
  ∃ k, nd_credentials db !! k = Some c ∧ ncr_digest c = digest.
Proof.
  unfold find_digest. intros ([k c']&Hh&->)%fmap_Some. apply head_Some_elem_of, list_elem_of_filter in Hh as [? Hh].
  apply elem_of_map_to_list in Hh. eauto.
Qed.

Lemma str_item_Ok name v s : str_item name v = Ok s → item name v = Ok (VStr s).
Proof. unfold str_item. intros ([]&Hx&H)%res_bind_Ok; try discriminate H. congruence. Qed.

Lemma int_item_Ok name v z : int_item name v = Ok z → item name v = Ok (VInt z).
Proof. unfold int_item. intros ([]&Hx&H)%res_bind_Ok; try discriminate H. congruence. Qed.

Lemma native_envelope_Ok p cid expires grants e : native_envelope p cid expires grants = Ok e →
  ∃ t, fromtimestamp expires = Ok t
    ∧ e = {| ce_actor_id := cid; ce_session_id := cid; ce_correlation_id := cid; ce_scopes := ["devgraph.work.read"];
             ce_expires_at := t; ce_issuer := ep_issuer p; ce_audience := "devgraph"; ce_redaction_partitions := [];
             ce_credential_id := Some cid; ce_credential_version := Some 1; ce_read_grants := map work_grant grants;
             ce_lifecycle_status := Some "active"; ce_resource := Some RESOURCE |}.
Proof.
  unfold native_envelope. intros (t&Ht&H)%res_bind_Ok. exists t. split; [done|]. unfold new_envelope in H.
  apply res_bind_Ok in H as (?&_&H). apply res_bind_Ok in H as (?&_&H). apply res_bind_Ok in H as (?&_&H).
  apply res_bind_Ok in H as (?&_&[= <-]). done.
Qed.

(** A credential that is not active is refused under any policy. *)
Lemma inactive_refused db k c p member token current : native_ok db → nd_credentials db !! k = Some c →
  ncr_status c ≠ cs_active → sha256_hex (utf8_encode token) = ncr_digest c →
  native_verify p member (Some token) "devgraph" current db = Err (UnauthenticatedError "invalid_credential").
Proof.
  intros Hok Hk Hs Hd. unfold native_verify. rewrite String.eqb_refl. cbn [negb raise_if mbind res_bind of_option].
  destruct (native_token token); [|done]. cbn [negb raise_if mbind res_bind].
  rewrite Hd, (find_digest_row _ _ _ Hok Hk). cbn [of_option mbind res_bind].
  rewrite bool_decide_eq_false_2 by done. done.
Qed.

End invariant.

(** ** Properties *)

Section properties.
  Context {EC : Ed25519}.

(** C13: A read credential is issued only to a member who proved possession of
    their key: an enrollment that returns carried a challenge signed with the key
    of the member it names, over the read-approval domain and the challenge's
    canonical bytes; the member passed the membership check, the challenge names
    the current policy and receiver, and it is stored here, unused, unexpired and
    with exactly these bytes.  The pair of member and installation is not revoked,
    and the policy's grants are within the ceiling its first enrollment fixed, or
    it is new and takes one of the 10,000 places with the challenged grants as its
    ceiling.  The call spends the challenge, supersedes the pair's active
    credential and stores one new credential with a fresh identifier and digest. *)
Theorem native_enroll_authentic p member c proof signature suffix token current db v db' :
  enroll p member c proof signature suffix token current db = Ok (v, db') →
  ∃ owner device rid row sig granted expires,
    let who := (owner, device) in
    let identifier := "dgrn_" +:+ suffix in
    let manifest := native_manifest p identifier who expires granted current in
    let digest := sha256_hex (utf8_encode ("dgrn1_" +:+ token)) in
    get_field "subject_public_key" c = VStr owner ∧ get_field "installation_id" c = VStr device
    ∧ b64decode signature = Some sig
    ∧ ed25519_verify (fromhex owner) sig (NATIVE_DOMAIN +:+ _canonical_json c) = true
    ∧ member proof owner = true
    ∧ get_field "policy_digest" (get_field "details" c) = VStr (policy_digest p)
    ∧ get_field "receiver" c = VStr (ep_receiver p)
    ∧ get_field "request_id" c = VStr rid ∧ nd_challenges db !! rid = Some row ∧ nc_payload row = json_text c
    ∧ current < nc_expires row ∧ nc_used row = false
    ∧ challenged_grants c = Ok granted
    ∧ match nd_enrollments db !! who with
      | Some e => ne_revoked e = false ∧ within_ceiling p e ∧ nd_enrollments db' = nd_enrollments db
      | None => Z.of_nat (size (nd_enrollments db)) < 10000
          ∧ nd_enrollments db' = <[who := {| ne_ceiling := json_text granted; ne_revoked := false |}]> (nd_enrollments db)
      end
    ∧ nd_challenges db' = use_challenge rid (nd_challenges db)
    ∧ nd_credentials db !! identifier = None
    ∧ (∀ k r, nd_credentials db !! k = Some r → ncr_digest r ≠ digest)
    ∧ nd_credentials db' = <[identifier := {| ncr_digest := digest; ncr_owner := owner; ncr_device := device;
                                              ncr_manifest := json_text manifest; ncr_proof := json_text proof;
                                              ncr_status := cs_active |}]> (supersede identifier who (nd_credentials db))
    ∧ v = VDict (mk_dict [("schema", VStr "devgraph.native-read-result.v1"); ("credential", VStr ("dgrn1_" +:+ token));
                          ("manifest", manifest)]).
Proof.
  intros (owner&device&rid&es&expires&granted&Ha&Hl&He&Hg&Hf&Hd&->&->)%enroll_Ok.
  apply admit_Ok in Ha as (Ho&Hdev&Hp&Hr&Hm&Hc). apply check_possession_Ok in Hc as (sig&Hs&_&Hv).
  apply live_challenge_Ok in Hl as (row&Hrid&Hrow&Hpay&Hx&Hu).
  exists owner, device, rid, row, sig, granted, expires. cbn [nd_challenges nd_enrollments nd_credentials].
  do 13 (split; [done|]). split; [|split; [done|split; [|split; [|done]]]].
  - apply enroll_device_Ok in He as [(e&->&?&?&->)|(g&->&?&Hg'&->)]; [done|]. split; [done|]. congruence.
  - rewrite supersede_lookup in Hf. by destruct (nd_credentials db !! _).
  - intros k r Hk. specialize (Hd k). rewrite supersede_lookup, Hk in Hd. specialize (Hd _ eq_refl).
    by destruct (superseded_by _ _ _).
Qed.

(** C14: Revocation is final: once an operator revokes a credential, then whatever
    challenges, enrollments and revocations follow, under any policy and clock,
    every credential of its member and installation, of before or after, is
    revoked, its bearer is refused, and no approval of that member for that
    installation is enrolled again; the registry keeps its bounds of 256
    challenges and 10,000 enrollments, distinct digests and at most one active
    credential for each member and installation. *)
Theorem native_revocation_final db db' credential_id row :
  rtc native_step empty_native db → nd_credentials db !! credential_id = Some row →
  rtc native_step (native_revoke credential_id db) db' →
  native_ok db'
  ∧ (∀ k c, nd_credentials db' !! k = Some c → cred_who c = cred_who row → ncr_status c = cs_revoked
       ∧ ∀ p member token current, sha256_hex (utf8_encode token) = ncr_digest c →
           native_verify p member (Some token) "devgraph" current db' = Err (UnauthenticatedError "invalid_credential"))
  ∧ (∀ p member c proof signature suffix token current,
       admit_enrollment p member c proof signature = Ok (cred_who row) →
       ∃ e, enroll p member c proof signature suffix token current db' = Err e).
Proof.
  intros H1 Hrow H2. destruct (native_steps_keep _ _ H1 empty_native_ok) as [Hok _].
  destruct (revoke_keeps credential_id db Hok) as [Hok1 _].
  destruct (native_steps_keep _ _ H2 Hok1) as [Hok2 Hkeep].
  assert (revoked_who db' (cred_who row)) as (e&He&Hre).
  { apply Hkeep. destruct (no_enrolled _ Hok _ _ Hrow) as (e&He&_). unfold revoked_who.
    rewrite (native_revoke_enrollments _ _ _ _ Hrow), He. eexists. split; [done|]. simpl. by rewrite bool_decide_eq_true_2. }
  split; [done|]. split.
  - intros k c Hk Hw. destruct (no_enrolled _ Hok2 _ _ Hk) as (e'&He'&Hst). rewrite Hw, He in He'. injection He' as <-.
    specialize (Hst Hre). split; [done|]. intros p member token current Hd. eapply inactive_refused; try done. congruence.
  - intros p member c proof signature suffix token current Ha.
    destruct (enroll p member c proof signature suffix token current db') as [[v db'']|x] eqn:E; [|by exists x].
    apply enroll_Ok in E as (owner&device&rid&es&_&_&Ha'&_&Hd&_). rewrite Ha in Ha'. injection Ha' as Ho Hdv.
    rewrite <-Ho, <-Hdv in Hd. unfold enroll_device in Hd. fold (cred_who row) in Hd. rewrite He, Hre in Hd. discriminate Hd.
Qed.

(** A presented read credential that is accepted was issued here and is
    current: on any database the service can reach, a context means the bearer's
    digest is that of an active credential, the only active one of a member and
    installation that are not revoked, whose manifest names the current policy,
    whose stored proof still passes the membership check for its member, and whose
    window holds the present time; the context carries the manifest's grants, the
    Work read scope alone and the credential's identifier. *)
Theorem native_bearer_authentic p member credential audience current db ctx :
  rtc native_step empty_native db → native_verify p member credential audience current db = Ok ctx →
  ∃ token k c e manifest proof owner issued expires l grants,
    credential = Some token ∧ audience = "devgraph" ∧ native_token token = true
    ∧ nd_credentials db !! k = Some c ∧ ncr_digest c = sha256_hex (utf8_encode token) ∧ ncr_status c = cs_active
    ∧ nd_enrollments db !! cred_who c = Some e ∧ ne_revoked e = false
    ∧ (∀ k' c', nd_credentials db !! k' = Some c' → cred_who c' = cred_who c → ncr_status c' = cs_active → k' = k)
    ∧ loads (ncr_manifest c) = Some manifest ∧ loads (ncr_proof c) = Some proof
    ∧ item "policy_digest" manifest = Ok (VStr (policy_digest p))
    ∧ item "subject_public_key" manifest = Ok (VStr owner) ∧ member proof owner = true
    ∧ item "issued_at" manifest = Ok (VInt issued) ∧ item "expires_at" manifest = Ok (VInt expires)
    ∧ issued <= current < expires
    ∧ item "read_grants" manifest = Ok (VList l) ∧ res_mapM WorkReadGrant_of l = Ok grants
    ∧ ce_read_grants (ac_envelope ctx) = map work_grant grants
    ∧ ce_scopes (ac_envelope ctx) = ["devgraph.work.read"]
    ∧ item "credential_id" manifest = Ok (VStr (ce_actor_id (ac_envelope ctx)))
    ∧ fromtimestamp expires = Ok (ce_expires_at (ac_envelope ctx)).
Proof.
  intros Hreach H. destruct (native_steps_keep _ _ Hreach empty_native_ok) as [Hok _].
  unfold native_verify in H. apply res_bind_Ok in H as (?&Haud%raise_if_Ok&H). apply negb_false_iff, String.eqb_eq in Haud.
  apply res_bind_Ok in H as (token&Htok%of_option_Ok&H). apply res_bind_Ok in H as (?&Hnt%raise_if_Ok&H).
  apply negb_false_iff in Hnt. apply res_bind_Ok in H as (c&Hc%of_option_Ok&H).
  apply res_bind_Ok in H as (?&Hst%raise_if_Ok&H). apply negb_false_iff, bool_decide_eq_true in Hst.
  apply res_bind_Ok in H as (manifest&Hman%of_option_Ok&H). apply res_bind_Ok in H as (proof&Hpr%of_option_Ok&H).
  apply res_bind_Ok in H as (dg&Hdg%str_item_Ok&H). apply res_bind_Ok in H as (?&Hpol%raise_if_Ok&H).
  apply negb_false_iff, String.eqb_eq in Hpol as ->. apply res_bind_Ok in H as (owner&Hown%str_item_Ok&H).
  apply res_bind_Ok in H as (?&Hmem%raise_if_Ok&H). apply negb_false_iff in Hmem.
  apply res_bind_Ok in H as (issued&His%int_item_Ok&H). apply res_bind_Ok in H as (?&Hlo%raise_if_Ok&H).
  apply res_bind_Ok in H as (expires&Hex%int_item_Ok&H). apply res_bind_Ok in H as (?&Hhi%raise_if_Ok&H).
  apply Z.ltb_ge in Hlo. apply Z.leb_gt in Hhi.
  apply res_bind_Ok in H as (gs&Hgs&H). apply res_bind_Ok in H as (grants&Hgr&H).
  apply res_bind_Ok in H as (cid&Hcid%str_item_Ok&H). apply res_bind_Ok in H as (e&Hen&[= <-]).
  apply native_envelope_Ok in Hen as (t&Ht&->). destruct gs as [| | | | |l|]; try discriminate Hgr.
  apply find_digest_Some in Hc as (k&Hk&Hd). destruct (no_enrolled _ Hok _ _ Hk) as (en&Hee&Hrev).
  assert (ne_revoked en = false) as Hnr by (destruct (ne_revoked en); [|done]; specialize (Hrev eq_refl); congruence).
  exists token, k, c, en, manifest, proof, owner, issued, expires, l, grants.
  repeat (split; [first [done|by eauto using no_single]|]). done.
Qed.

End properties.

(** ** Witnesses *)

Section witnesses.

#[local] Instance possession_signatures : Ed25519 := {| ed25519_verify := λ _ sg m, String.eqb sg (toy_sign m) |}.

Definition ex_native_policy : EnrollmentPolicy :=
  {| ep_issuer := "issuer"; ep_receiver := "https://work.example";
     ep_grants := [{| wg_operations := ["list"; "get"]; wg_relationship_types := ["parent"]; wg_work_kinds := ["Issue"];
                      wg_work_ids := []; wg_arena_ids := []; wg_include_archived := true; wg_resource_paths := [] |}];
     ep_lifetime_seconds := 3600 |}.

Definition ex_owner : string := sha256_hex "member".

Definition ex_device : string := substring 0 32 (sha256_hex "device").

Definition ex_native_issue (rid : string) (db : NativeDb) : res (value * NativeDb) :=
  native_challenge ex_native_policy ex_owner ex_device rid "nonce" 1000 db.

Definition ex_native_enroll (c : value) (suffix : string) (db : NativeDb) : res (value * NativeDb) :=
  enroll ex_native_policy (λ _ _, true) c (VDict []) (b64encode (toy_sign (signable_challenge c))) suffix
    (substring 0 43 (sha256_hex suffix)) 1010 db.

Definition ex_native_token (suffix : string) : string := "dgrn1_" +:+ substring 0 43 (sha256_hex suffix).

(** Two enrollments of one installation: the second supersedes the first. *)
Definition ex_native_run : res (value * NativeDb * (value * NativeDb) * (value * NativeDb) * NativeDb) :=
  a ← ex_native_issue "r1" empty_native;
  b ← ex_native_enroll a.1 "one" a.2;
  d ← ex_native_issue "r2" b.2;
  e ← ex_native_enroll d.1 "two" d.2;
  Ok (a, b, d, e.2).

Definition accepted {A} (x : res A) : bool := match x with Ok _ => true | Err _ => false end.

Lemma ex_native_ran : ∃ c1 db1 v2 db2 c3 db3 v4 db4,
  ex_native_issue "r1" empty_native = Ok (c1, db1) ∧ ex_native_enroll c1 "one" db1 = Ok (v2, db2)
  ∧ ex_native_issue "r2" db2 = Ok (c3, db3) ∧ ex_native_enroll c3 "two" db3 = Ok (v4, db4)
  ∧ ncr_status <$> nd_credentials db4 !! "dgrn_one" = Some cs_superseded
  ∧ ncr_status <$> nd_credentials db4 !! "dgrn_two" = Some cs_active
  ∧ accepted (native_verify ex_native_policy (λ _ _, true) (Some (ex_native_token "two")) "devgraph" 1020 db4) = true.
Proof.
  assert (match ex_native_run with
          | Ok y => bool_decide (ncr_status <$> nd_credentials y.2 !! "dgrn_one" = Some cs_superseded)
              && bool_decide (ncr_status <$> nd_credentials y.2 !! "dgrn_two" = Some cs_active)
              && accepted (native_verify ex_native_policy (λ _ _, true) (Some (ex_native_token "two")) "devgraph" 1020 y.2)
          | Err _ => false
          end = true) as H by (vm_compute; reflexivity).
  unfold ex_native_run in H. destruct (ex_native_issue "r1" empty_native) as [[c1 db1]|] eqn:E1; [|discriminate H].
  cbn [mbind res_bind fst snd] in H. destruct (ex_native_enroll c1 "one" db1) as [[v2 db2]|] eqn:E2; [|discriminate H].
  cbn [mbind res_bind fst snd] in H. destruct (ex_native_issue "r2" db2) as [[c3 db3]|] eqn:E3; [|discriminate H].
  cbn [mbind res_bind fst snd] in H. destruct (ex_native_enroll c3 "two" db3) as [[v4 db4]|] eqn:E4; [|discriminate H].
  cbn [mbind res_bind fst snd] in H. apply andb_true_iff in H as [H H3]. apply andb_true_iff in H as [H1 H2].
  apply bool_decide_eq_true in H1, H2. exists c1, db1, v2, db2, c3, db3, v4, db4. auto 10.
Qed.

Lemma ex_native_reached : ∃ c db v db', rtc native_step empty_native db ∧ ex_native_enroll c "two" db = Ok (v, db')
  ∧ rtc native_step empty_native db' ∧ ncr_status <$> nd_credentials db' !! "dgrn_two" = Some cs_active
  ∧ accepted (native_verify ex_native_policy (λ _ _, true) (Some (ex_native_token "two")) "devgraph" 1020 db') = true.
Proof.
  destruct ex_native_ran as (c1&db1&v2&db2&c3&db3&v4&db4&H1&H2&H3&H4&_&H5&H6).
  assert (rtc native_step empty_native db3) as Hr.
  { eapply rtc_l; [eapply native_step_challenge, H1|]. eapply rtc_l; [eapply native_step_enroll, H2|].
    eapply rtc_once. eapply native_step_challenge, H3. }
  exists c3, db3, v4, db4. split; [exact Hr|]. split; [exact H4|]. split; [|split; [exact H5|exact H6]].
  eapply rtc_r; [exact Hr|]. eapply native_step_enroll, H4.
Qed.

Lemma native_enroll_authentic_witness : ∃ c db v db', ex_native_enroll c "two" db = Ok (v, db')
  ∧ get_field "policy_digest" (get_field "details" c) = VStr (policy_digest ex_native_policy).
Proof.
  destruct ex_native_reached as (c&db&v&db'&_&H&_). exists c, db, v, db'. split; [exact H|].
  destruct (native_enroll_authentic ex_native_policy _ _ _ _ _ _ _ _ _ _ H)
    as (owner&device&rid&row&sig&granted&expires&_&_&_&_&_&Hp&_). exact Hp.
Defined.

Lemma native_revocation_final_witness : ∃ db row, rtc native_step empty_native db
  ∧ nd_credentials db !! "dgrn_two" = Some row ∧ ncr_status row = cs_active
  ∧ ∃ row', nd_credentials (native_revoke "dgrn_two" db) !! "dgrn_two" = Some row' ∧ ncr_status row' = cs_revoked.
Proof.
  destruct ex_native_reached as (_&_&_&db&_&_&Hr&Hs&_). apply fmap_Some in Hs as (row&Hrow&Hs). exists db, row.
  split; [exact Hr|]. split; [exact Hrow|]. split; [exact (eq_sym Hs)|].
  destruct (native_revocation_final db _ "dgrn_two" row Hr Hrow (rtc_refl _ _)) as (_&Hall&_).
  pose proof (native_revoke_lookup "dgrn_two" db row "dgrn_two" Hrow) as Hl. rewrite Hrow in Hl.
  cbn [fmap option_fmap option_map] in Hl. eexists. split; [exact Hl|]. apply (Hall _ _ Hl). by case_bool_decide.
Defined.

Lemma native_bearer_authentic_witness : ∃ db ctx, rtc native_step empty_native db
  ∧ native_verify ex_native_policy (λ _ _, true) (Some (ex_native_token "two")) "devgraph" 1020 db = Ok ctx
  ∧ ce_scopes (ac_envelope ctx) = ["devgraph.work.read"].
Proof.
  destruct ex_native_reached as (_&_&_&db&_&_&Hr&_&Hv).
  destruct (native_verify ex_native_policy (λ _ _, true) (Some (ex_native_token "two")) "devgraph" 1020 db) as [ctx|] eqn:E;
    [|discriminate Hv].
  exists db, ctx. split; [exact Hr|]. split; [exact E|].
  destruct (native_bearer_authentic ex_native_policy _ _ _ _ _ _ Hr E)
    as (token&k&c&e&manifest&proof&owner&issued&expires&l&grants&_&_&_&_&_&_&_&_&_&_&_&_&_&_&_&_&_&_&_&_&Hs&_). exact Hs.
Defined.

End witnesses.
