(* ===== verification/Monitoring.v ===== *)
(** * The monitor snapshot

    [src/devgraph/monitoring.py]: the redaction-safe projection of the graph that
    the monitor and topology views share.  It reads a captured result (nodes,
    edges, health and the Arena placement of the visible Work, when known), which
    is what [topology.py] and [auth/monitor_read.py] hand it.

    The fields a client sees but no filter reads are kept as JSON members of a
    graph node.  A stored progress that is neither a string nor null is refused. *)

From stdpp Require Import base gmap strings list sorting.
From Stdlib Require Import ZArith Ascii String.
From S2P Require Import Prelude Json Datetime WorkflowContract Model Storage StorageReads Redaction Arenas Relationships Outbox Todos TodoViews.

Local Open Scope Z_scope.

Definition MONITORED_WORK_KINDS : list string := ["Todo"; "Proposal"; "Initiative"; "Project"; "Issue"; "Task"].

Definition EVENT_RECEIPT_LABEL : string := "EventReceipt".

Definition WORK_PROGRESS_SCHEMA_VERSION : string := "devgraph.work-progress.v0".

Definition WORK_STATUS_VALUES : list string := ["draft"; "review"; "accepted"; "archived"].

Definition TERMINAL_STATUS_VALUES : list string := ["accepted"; "archived"].

(** ** Captured storage *)

Record Captured := {
  cp_nodes : list NodeRecord;
  cp_edges : list EdgeRecord;
  cp_live : bool;
  cp_ready : bool;
  cp_detail : string;
  cp_arena_membership : option (gmap string (option string))
}.

(** [_CapturedStorage.query]. *)
Definition captured_query (c : Captured) (label : string) (is_archived : option bool) : list NodeRecord :=
  filter (λ n, String.eqb (nr_label n) label
               && match is_archived with Some b => Bool.eqb (nr_archived n) b | None => true end = true) (cp_nodes c).

(** ** Graph nodes *)

Definition _graph_key (label node_id : string) : string := label +:+ ":" +:+ node_id.

(** [gn_arena_key]: absent, null or a key; [gn_members]: the further members. *)
Record GraphNode := {
  gn_key : string;
  gn_id : string;
  gn_kind : string;
  gn_title : string;
  gn_status : string;
  gn_category : string;
  gn_archived : bool;
  gn_todo_progress : option string;
  gn_arena_key : option (option string);
  gn_members : list (string * value)
}.

Definition _graph_node (storage_label kind node_id title status category : string) (archived : bool) : GraphNode :=
  {| gn_key := _graph_key storage_label node_id; gn_id := node_id; gn_kind := kind; gn_title := redact_text title;
     gn_status := status; gn_category := category; gn_archived := archived; gn_todo_progress := None;
     gn_arena_key := None; gn_members := [] |}.

Definition add_members (l : list (string * value)) (n : GraphNode) : GraphNode :=
  {| gn_key := gn_key n; gn_id := gn_id n; gn_kind := gn_kind n; gn_title := gn_title n; gn_status := gn_status n;
     gn_category := gn_category n; gn_archived := gn_archived n; gn_todo_progress := gn_todo_progress n;
     gn_arena_key := gn_arena_key n; gn_members := gn_members n ++ l |}.

(** The members every node has. *)
Definition base_members (n : GraphNode) : list (string * value) :=
  [("key", VStr (gn_key n)); ("id", VStr (gn_id n)); ("kind", VStr (gn_kind n)); ("title", VStr (gn_title n));
   ("status", VStr (gn_status n)); ("category", VStr (gn_category n)); ("archived", VBool (gn_archived n))].

(** [todo_progress] is a member of Work nodes. *)
Definition node_members (n : GraphNode) : list (string * value) :=
  base_members n
  ++ (if String.eqb (gn_category n) "work" then [("todo_progress", opt_str (gn_todo_progress n))] else [])
  ++ match gn_arena_key n with Some k => [("arena_key", opt_str k)] | None => [] end
  ++ gn_members n.

Definition node_value (n : GraphNode) : value := VDict (mk_dict (node_members n)).

Record GraphEdge := { ge_source : string; ge_target : string; ge_relationship : string }.

#[export] Instance GraphEdge_eq_dec : EqDecision GraphEdge.
Proof. solve_decision. Defined.

Definition graph_edge (e : EdgeRecord) : GraphEdge :=
  {| ge_source := _graph_key (from_label e) (from_id e); ge_target := _graph_key (to_label e) (to_id e);
     ge_relationship := relationship e |}.

Definition edge_value (e : GraphEdge) : value :=
  VDict (mk_dict [("source", VStr (ge_source e)); ("target", VStr (ge_target e)); ("relationship", VStr (ge_relationship e))]).

(** An entry of the activity list, with its sort key. *)
Record Activity := {
  ac_id : string;
  ac_type : string;
  ac_label : string;
  ac_title : string;
  ac_status : string;
  ac_timestamp : string
}.

Definition activity_value (a : Activity) : value :=
  VDict (mk_dict [("id", VStr (ac_id a)); ("type", VStr (ac_type a)); ("label", VStr (ac_label a));
                  ("title", VStr (ac_title a)); ("status", VStr (ac_status a)); ("timestamp", VStr (ac_timestamp a))]).

(** [str(properties.get(name, fallback))]. *)
Definition text_or (fallback name : string) (p : props) : res string := py_str (default (VStr fallback) (p !! name)).

(** *** The four kinds of node *)

Definition arena_item (n : NodeRecord) : res (GraphNode * Activity) :=
  a ← arena_from_node n;
  let status := if a_archived a then "archived" else "active" in
  Ok (_graph_node "Arena" "Arena" (a_id a) (a_title a) status "arena" (a_archived a),
      {| ac_id := a_id a; ac_type := "arena"; ac_label := "Arena"; ac_title := redact_text (a_title a);
         ac_status := status; ac_timestamp := a_updated_at a |}).

(** [str(version) if type(version) is int and version > 0 else None]. *)
Definition version_member (p : props) : value :=
  match p !! "version" with Some (VInt z) => if 0 <? z then VStr (print_int z) else VNone | _ => VNone end.

Section work.
  Context {PY : Pydantic}.

Definition workflow_member (p : props) : res value :=
  let raw := prop p "workflow_json" in
  if value_truthy raw then
    text ← of_option (ValueError "invalid_workflow_state") (get_str raw);
    st ← decode_state text;
    r ← of_option (RuntimeError "StopIteration") (stages_of (workflow_id st) ≫= λ rows, head (filter (λ r, r.1.1 = stage st) rows));
    Ok (VDict (mk_dict [("id", VStr (workflow_id st)); ("stage", VStr (stage st)); ("label", VStr r.1.2);
                        ("column", VStr r.2)]))
  else Ok VNone.

Definition work_item (c : Captured) (kind : string) (n : NodeRecord) : res (GraphNode * Activity) :=
  let p := nr_properties n in
  status ← (if nr_archived n then Ok "archived" else text_or "unknown" "status" p);
  title ← text_or (nr_id n) "title" p;
  stamp ← text_or "" "updated_at" p;
  progress ← match prop p "progress" with
             | VNone => Ok None
             | VStr x => Ok (Some x)
             | _ => Err (TypeError "progress")
             end;
  arena ← match cp_arena_membership c with
          | None => Ok None
          | Some m => k ← of_option (KeyError (nr_id n)) (m !! _graph_key kind (nr_id n)); Ok (Some k)
          end;
  workflow ← workflow_member p;
  let g := _graph_node kind kind (nr_id n) title status "work" (nr_archived n) in
  Ok ({| gn_key := gn_key g; gn_id := gn_id g; gn_kind := gn_kind g; gn_title := gn_title g; gn_status := gn_status g;
         gn_category := gn_category g; gn_archived := gn_archived g; gn_todo_progress := progress; gn_arena_key := arena;
         gn_members := [("version", version_member p); ("workflow", workflow)] |},
      {| ac_id := nr_id n; ac_type := "work"; ac_label := kind; ac_title := redact_text title; ac_status := status;
         ac_timestamp := stamp |}).

End work.

Definition observation_item (n : NodeRecord) : res (GraphNode * Activity) :=
  let p := nr_properties n in
  status ← text_or "unknown" "claim_status" p;
  title ← text_or (nr_id n) "title" p;
  stamp ← text_or "" "observed_at" p;
  Ok (_graph_node "Artifact" "InitiativeObservation" (nr_id n) title status "observation" (nr_archived n),
      {| ac_id := nr_id n; ac_type := "observation"; ac_label := "Initiative observation"; ac_title := redact_text title;
         ac_status := status; ac_timestamp := stamp |}).

(** The middle dot of a receipt's title. *)
Definition middle_dot : string := " " +:+ String (ascii_of_N 183) " ".

Definition receipt_item (n : NodeRecord) : res (GraphNode * Activity) :=
  let p := nr_properties n in
  status ← (if nr_archived n then Ok "archived" else text_or "unknown" "status" p);
  label ← text_or "subject" "subject_label" p;
  subject ← text_or (nr_id n) "subject_id" p;
  operation ← text_or "mutation" "operation" p;
  stamp ← text_or "" "updated_at" p;
  let title := label +:+ middle_dot +:+ subject in
  Ok (_graph_node EVENT_RECEIPT_LABEL EVENT_RECEIPT_LABEL (nr_id n) title status "receipt" (nr_archived n),
      {| ac_id := nr_id n; ac_type := "receipt"; ac_label := operation; ac_title := redact_text title; ac_status := status;
         ac_timestamp := stamp |}).

(** ** Nodes, edges and progress *)

(** [Counter]: one more of a key. *)
Definition counted_in (m : gmap string Z) (k : string) : gmap string Z := <[k := default 0 (m !! k) + 1]> m.

Definition counter (l : list string) : gmap string Z := foldl counted_in ∅ l.

Definition counter_value (m : gmap string Z) : value := dict_of_props (VInt <$> m).

Definition triple_leb (a b : string * (string * string)) : bool :=
  String.ltb a.1 b.1 || (String.eqb a.1 b.1 && key_leb a.2 b.2).

Definition node_leb_by (a b : GraphNode) : bool :=
  triple_leb (gn_category a, (gn_kind a, gn_id a)) (gn_category b, (gn_kind b, gn_id b)).

Definition graph_edge_leb (a b : GraphEdge) : bool :=
  triple_leb (ge_source a, (ge_relationship a, ge_target a)) (ge_source b, (ge_relationship b, ge_target b)).

Definition find_node (k : string) (ns : list GraphNode) : option GraphNode := last (filter (λ n, gn_key n = k) ns).

(** [child_keys_by_parent.get(key, [])]. *)
Definition child_keys (es : list GraphEdge) (k : string) : list string :=
  ge_target <$> filter (λ e, ge_relationship e = "HAS_CHILD" ∧ ge_source e = k) es.

Definition children_nodes (ns : list GraphNode) (es : list GraphEdge) (k : string) : list GraphNode :=
  omap (λ c, find_node c ns) (child_keys es k).

(** [round(done * 100 / total)]: to the nearest integer, halves to even. *)
Definition round_percent (done total : Z) : Z :=
  let q := done * 100 / total in
  let r := done * 100 mod total in
  if (2 * r <? total) || ((2 * r =? total) && Z.even q) then q else q + 1.

(** The Work a node's derived progress counts, and on what basis. *)
Definition tracked_work (ns : list GraphNode) (es : list GraphEdge) (n : GraphNode) : list GraphNode * string :=
  let children := children_nodes ns es (gn_key n) in
  let of_kind k l := filter (λ c, gn_kind c = k) l in
  if String.eqb (gn_kind n) "Issue" then
    match of_kind "Task" children with
    | [] => ([n], "self_status")
    | tasks => (tasks, "child_tasks")
    end
  else
    match List.concat ((λ i, match of_kind "Task" (children_nodes ns es (gn_key i)) with [] => [i] | tasks => tasks end)
                         <$> of_kind "Issue" children) with
    | [] => ([n], "self_status")
    | tracked => (tracked, "leaf_work")
    end.

Definition _progress_projection (ns : list GraphNode) (es : list GraphEdge) (n : GraphNode) : option value :=
  if negb (str_in (gn_kind n) ["Project"; "Issue"]) then None
  else
    let (tracked, basis) := tracked_work ns es n in
    let with_status st := Z.of_nat (length (filter (λ t, gn_status t = st) tracked)) in
    let completed := foldr Z.add 0 (with_status <$> TERMINAL_STATUS_VALUES) in
    let total := Z.of_nat (length tracked) in
    Some (VDict (mk_dict
      [("schema_version", VStr WORK_PROGRESS_SCHEMA_VERSION); ("basis", VStr basis); ("completed", VInt completed);
       ("total", VInt total); ("percent", VInt ((completed * 100 + total / 2) / total));
       ("status_counts", VDict (mk_dict ((λ st, (st, VInt (with_status st))) <$> WORK_STATUS_VALUES)))])).

Definition child_progress (ns : list GraphNode) (es : list GraphEdge) (n : GraphNode) : value :=
  let children := children_nodes ns es (gn_key n) in
  let done := Z.of_nat (length (filter (λ c, gn_todo_progress c = Some "done") children)) in
  let total := Z.of_nat (length children) in
  VDict (mk_dict [("total", VInt total); ("completed", VInt done);
                  ("percent", VInt (match children with [] => 0 | _ => round_percent done total end))]).

Definition with_progress (ns : list GraphNode) (es : list GraphEdge) (n : GraphNode) : GraphNode :=
  add_members
    ((if String.eqb (gn_category n) "work" then [("child_progress", child_progress ns es n)] else [])
     ++ match _progress_projection ns es n with Some v => [("progress", v)] | None => [] end) n.

(** Visible Work whose prerequisite is not visible Work. *)
Definition unresolved_of (ns : list GraphNode) (e : EdgeRecord) : option (string * string) :=
  let g := graph_edge e in
  let is_work k := existsb (λ n, String.eqb (gn_category n) "work" && String.eqb (gn_key n) k) ns in
  match (if String.eqb (relationship e) "DEPENDS_ON" then Some (ge_source g, ge_target g)
         else if String.eqb (relationship e) "BLOCKS" then Some (ge_target g, ge_source g)
         else None) with
  | Some (dependent, prerequisite) =>
      if is_work dependent && negb (is_work prerequisite) then Some (dependent, relationship e) else None
  | None => None
  end.

Definition unresolved_value (u : string * string) : value :=
  VDict (mk_dict [("work_key", VStr u.1); ("relationship", VStr u.2);
                  ("reason", VStr "prerequisite is not available as canonical Work")]).

(** ** The snapshot *)

Record Snapshot := {
  sn_nodes : list GraphNode;
  sn_edges : list GraphEdge;
  sn_stable : list (string * value);
  sn_volatile : list (string * value)
}.

Section snapshot.
  Context {PY : Pydantic} {CK : Clock}.

Definition work_nodes (c : Captured) : list (string * NodeRecord) :=
  List.concat ((λ k, pair k <$> filter (λ n, is_work_node k n = true) (captured_query c k None)) <$> MONITORED_WORK_KINDS).

Definition observation_nodes (c : Captured) : list NodeRecord :=
  filter (λ n, nr_properties n !! "role" = Some (VStr "initiative_observation")) (captured_query c "Artifact" (Some false)).

Definition activity_leb (a b : Activity) : bool := key_leb (ac_timestamp b, ac_id b) (ac_timestamp a, ac_id a).

(** The items of the snapshot, in the order the code meets them. *)
Definition snapshot_items (c : Captured) : res (list (GraphNode * Activity)) :=
  arenas ← res_mapM arena_item (captured_query c "Arena" None);
  works ← res_mapM (λ kn, work_item c kn.1 kn.2) (work_nodes c);
  observations ← res_mapM observation_item (observation_nodes c);
  receipts ← res_mapM receipt_item (captured_query c EVENT_RECEIPT_LABEL (Some false));
  Ok (arenas ++ works ++ observations ++ receipts).

Definition visible_nodes (items : list (GraphNode * Activity)) : list GraphNode :=
  stable_sort node_leb_by items.*1.

Definition visible_edges (ns : list GraphNode) (es : list EdgeRecord) : list GraphEdge :=
  stable_sort graph_edge_leb
    (filter (λ e, ge_source e ∈ gn_key <$> ns ∧ ge_target e ∈ gn_key <$> ns) (graph_edge <$> es)).

Definition of_category (k : string) (ns : list GraphNode) : list GraphNode := filter (λ n, gn_category n = k) ns.

(** The members of the snapshot that its revision covers. *)
Definition stable_members (c : Captured) (items : list (GraphNode * Activity)) (ns : list GraphNode) (es : list GraphEdge) :
    list (string * value) :=
  let outbox := counter (gn_status <$> of_category "receipt" items.*1) in
  let count k := VInt (Z.of_nat (length (of_category k ns))) in
  [("total_work", count "work");
   ("active_initiatives",
     VInt (Z.of_nat (length (filter (λ n, nr_properties n !! "status" ≠ Some (VStr "archived"))
                               (captured_query c "Initiative" (Some false))))));
   ("observation_count", count "observation"); ("receipt_count", count "receipt");
   ("pending_receipts", VInt (default 0 (outbox !! "pending") + default 0 (outbox !! "retry_scheduled")));
   ("work_by_kind", counter_value (counter (gn_kind <$> of_category "work" items.*1)));
   ("work_by_status", counter_value (counter (gn_status <$> of_category "work" items.*1)));
   ("observation_by_status", counter_value (counter (gn_status <$> of_category "observation" items.*1)));
   ("outbox_by_status", counter_value outbox);
   ("recent_activity", VList (activity_value <$> take 16 (stable_sort activity_leb items.*2)));
   ("graph_nodes", VList (node_value <$> ns)); ("graph_edges", VList (edge_value <$> es))].

Definition build_monitor_snapshot (c : Captured) : M Store Snapshot :=
  started ← utc_now;
  items ← lift (snapshot_items c);
  let ns := visible_nodes items in
  let es := visible_edges ns (cp_edges c) in
  let unresolved := stable_sort key_leb (omap (unresolved_of ns) (cp_edges c)) in
  let ns := with_progress ns es <$> ns in
  generated ← utc_now;
  finished ← utc_now;
  mret {| sn_nodes := ns; sn_edges := es; sn_stable := stable_members c items ns es;
          sn_volatile :=
            [("generated_at", VStr (isoformat generated));
             ("storage", VDict (mk_dict [("live", VBool (cp_live c)); ("ready", VBool (cp_ready c));
                                         ("detail", VStr (redact_text (cp_detail c)))]));
             ("selection_scope", VDict (mk_dict
                [("schema", VStr "devgraph.selection-scope.v1"); ("edge_scan", VStr "all_stored_edges");
                 ("consistency", VStr "assembled"); ("read_started_at", VStr (isoformat started));
                 ("read_finished_at", VStr (isoformat finished)); ("unresolved", VList (unresolved_value <$> unresolved))]))] |}.

End snapshot.
