(* ===== verification/Topology.v ===== *)
(** * The topology view

    [src/devgraph/topology.py]: the closed filter grammar with its canonical
    target, and [filter_projection], which narrows a monitor snapshot to a scope, a
    page and its facets.  The iteration order of Python's sets has no effect on any
    result here: the searches compute sets of keys. *)

From stdpp Require Import base gmap strings list sorting relations.
From Stdlib Require Import ZArith Ascii String Decimal DecimalString DecimalPos DecimalN DecimalFacts.
From S2P Require Import Prelude Json Sha256 Datetime WorkflowContract StrictJson Model Storage StorageReads Redaction Outbox Delegated Grants UrlQuery Todos TodoViews Monitoring Enrollment.

Local Open Scope Z_scope.

Definition PATH : string := "/monitor/topology/v1".

Definition MAX_QUERY_BYTES : Z := 2048.

(** ** Filters *)

Inductive Facet : Type := f_category | f_work_kind | f_work_status | f_observation_status | f_record_status | f_progress.

#[export] Instance Facet_eq_dec : EqDecision Facet.
Proof. solve_decision. Defined.

Definition FACETS : list Facet := [f_category; f_work_kind; f_work_status; f_observation_status; f_record_status; f_progress].

Definition facet_name (k : Facet) : string :=
  match k with
  | f_category => "category" | f_work_kind => "work_kind" | f_work_status => "work_status"
  | f_observation_status => "observation_status" | f_record_status => "record_status" | f_progress => "progress"
  end.

Definition ENUMS (k : Facet) : list string :=
  match k with
  | f_progress => ["not_started"; "in_progress"; "done"]
  | f_category => ["arena"; "work"; "observation"; "receipt"]
  | f_work_kind => MONITORED_WORK_KINDS
  | f_work_status => WORK_STATUS_VALUES ++ ["unknown"]
  | f_observation_status => ["unclaimed"; "claimed"; "amended"; "rejected"; "unknown"]
  | f_record_status => ["pending"; "dispatched_dry_run"; "retry_scheduled"; "failed"; "unknown"]
  end.

Record TopologyFilter := {
  fl_category : option (list string);
  fl_work_kind : option (list string);
  fl_work_status : option (list string);
  fl_observation_status : option (list string);
  fl_record_status : option (list string);
  fl_progress : option (list string);
  fl_relationship : option (list string);
  fl_archived : string;
  fl_arena : string;
  fl_anchor : string;
  fl_q : string;
  fl_node_limit : Z;
  fl_edge_limit : Z;
  fl_if_revision : string
}.

(** [getattr(filters, key)]. *)
Definition fl_facet (f : TopologyFilter) (k : Facet) : option (list string) :=
  match k with
  | f_category => fl_category f | f_work_kind => fl_work_kind f | f_work_status => fl_work_status f
  | f_observation_status => fl_observation_status f | f_record_status => fl_record_status f | f_progress => fl_progress f
  end.

Definition invalid_filter : exn := InvalidTopologyFilter "Invalid topology filters".

(** [re.fullmatch(r"[A-Z][A-Z0-9_]{0,63}", s)]. *)
Definition relationship_text (s : string) : bool :=
  match s with
  | String c r => is_upper c && str_forall (λ d, is_upper d || is_digit d || Ascii.eqb d "_") r && (str_len r <=? 63)
  | EmptyString => false
  end.

Definition parse_multiple (admitted : string → bool) (items : list string) : res (option (list string)) :=
  match items with
  | [] => Ok None
  | _ =>
      if bool_decide (items = ["none"]) then Ok (Some [])
      else if str_in "none" items || existsb (λ x, negb (admitted x)) items then Err invalid_filter
      else Ok (Some (stable_sort String.leb items))
  end.

Definition parse_one {A} (fallback : A) (f : string → option A) (items : list string) : res A :=
  match items with
  | [] => Ok fallback
  | [x] => of_option invalid_filter (f x)
  | _ => Err invalid_filter
  end.

(** [re.fullmatch(r"[1-9][0-9]{0,4}", value)] and the bound. *)
Definition bounded_text (maximum : Z) (s : string) : option Z :=
  match s with
  | String c r =>
      if in_range 49 57 c && str_forall is_digit r && (str_len r <=? 4) && (digits_value 0 s <=? maximum)
      then Some (digits_value 0 s) else None
  | EmptyString => None
  end.

Definition archived_text (s : string) : option string := if str_in s ["include"; "exclude"; "only"] then Some s else None.

Definition revision_text (s : string) : option string := if hex_text 64 s then Some s else None.

(** An [arena] or [anchor] reference. *)
Definition reference_text (is_arena : bool) (s : string) : option string :=
  if String.eqb s "" || (is_arena && String.eqb s "*") then Some s
  else match split_once ":" s with
       | Some (kind, identity) =>
           if bool_decide (kind ∈ PUBLIC_LABELS) && _AUTHORITY_IDENTIFIER identity && (negb is_arena || String.eqb kind "Arena")
           then Some s else None
       | None => None
       end.

(** [value.strip().lower()].  On code points below 256 lower case keeps the length;
    on all of Unicode it does not (U+0130 becomes two characters), so there the text
    that a filter stores can be over the bound that was checked. *)
Definition search_text (s : string) : option string :=
  if (200 <? str_len s) || str_exists (λ c, (code c <? 32)%N) s then None else Some (py_lower (strip s)).

Definition FILTER_FIELDS : list string :=
  map facet_name FACETS ++ ["relationship"; "archived"; "arena"; "anchor"; "q"; "node_limit"; "edge_limit"; "if_revision"].

Definition facet_of (pairs : list (string * string)) (k : Facet) : res (option (list string)) :=
  parse_multiple (λ x, str_in x (ENUMS k)) (values_of (facet_name k) pairs).

Definition filter_of_pairs (pairs : list (string * string)) : res TopologyFilter :=
  raise_if (existsb (λ kv, negb (str_in kv.1 FILTER_FIELDS)) pairs || negb (bool_decide (NoDup pairs))) invalid_filter;;
  category ← facet_of pairs f_category;
  work_kind ← facet_of pairs f_work_kind;
  work_status ← facet_of pairs f_work_status;
  observation_status ← facet_of pairs f_observation_status;
  record_status ← facet_of pairs f_record_status;
  progress ← facet_of pairs f_progress;
  relationship ← parse_multiple relationship_text (values_of "relationship" pairs);
  archived ← parse_one "include" archived_text (values_of "archived" pairs);
  arena ← parse_one "" (reference_text true) (values_of "arena" pairs);
  anchor ← parse_one "" (reference_text false) (values_of "anchor" pairs);
  q ← parse_one "" search_text (values_of "q" pairs);
  node_limit ← parse_one 5000 (bounded_text 5000) (values_of "node_limit" pairs);
  edge_limit ← parse_one 20000 (bounded_text 50000) (values_of "edge_limit" pairs);
  if_revision ← parse_one "" revision_text (values_of "if_revision" pairs);
  Ok {| fl_category := category; fl_work_kind := work_kind; fl_work_status := work_status;
        fl_observation_status := observation_status; fl_record_status := record_status; fl_progress := progress;
        fl_relationship := relationship; fl_archived := archived; fl_arena := arena;
        fl_anchor := anchor; fl_q := q; fl_node_limit := node_limit; fl_edge_limit := edge_limit;
        fl_if_revision := if_revision |}.

(** [TopologyFilter()]. *)
Definition default_filter : TopologyFilter :=
  {| fl_category := None; fl_work_kind := None; fl_work_status := None; fl_observation_status := None;
     fl_record_status := None; fl_progress := None; fl_relationship := None; fl_archived := "include"; fl_arena := ""; fl_anchor := "";
     fl_q := ""; fl_node_limit := 5000; fl_edge_limit := 20000; fl_if_revision := "" |}.

(** [TopologyFilter.parse]. *)
Definition topology_filter (text : string) : res TopologyFilter :=
  raise_if (MAX_QUERY_BYTES <? str_len (utf8_encode text)) invalid_filter;;
  if String.eqb text "" then Ok default_filter
  else
    raise_if (bad_escape text) invalid_filter;;
    pairs ← rethrow is_value_error (λ _, invalid_filter) (parse_qsl true 80 text);
    filter_of_pairs pairs.

Definition multiple_values (o : option (list string)) : list string :=
  match o with Some [] => ["none"] | Some l => l | None => [] end.

Definition one_value (fallback x : string) : list string := if String.eqb x fallback then [] else [x].

Definition limit_value (fallback x : Z) : list string := if x =? fallback then [] else [print_int x].

(** The members of [asdict(self)] that differ from the defaults, by sorted name. *)
Definition query_fields (f : TopologyFilter) : list (string * list string) :=
  [("anchor", one_value "" (fl_anchor f)); ("archived", one_value "include" (fl_archived f));
   ("arena", one_value "" (fl_arena f)); ("category", multiple_values (fl_category f));
   ("edge_limit", limit_value 20000 (fl_edge_limit f)); ("if_revision", one_value "" (fl_if_revision f));
   ("node_limit", limit_value 5000 (fl_node_limit f));
   ("observation_status", multiple_values (fl_observation_status f)); ("progress", multiple_values (fl_progress f));
   ("q", one_value "" (fl_q f)); ("record_status", multiple_values (fl_record_status f));
   ("relationship", multiple_values (fl_relationship f)); ("work_kind", multiple_values (fl_work_kind f));
   ("work_status", multiple_values (fl_work_status f))].

(** The pairs [TopologyFilter.query] encodes. *)
Definition query_pairs (f : TopologyFilter) : list (string * string) :=
  List.concat ((λ kl : string * list string, pair kl.1 <$> kl.2) <$> query_fields f).

Definition filter_query (f : TopologyFilter) : string := urlencode (query_pairs f).

Definition filter_target (f : TopologyFilter) : string :=
  PATH +:+ if String.eqb (filter_query f) "" then "" else "?" +:+ filter_query f.

(** [parse_target]; [str.partition("?")]. *)
Definition parse_target (target : string) (canonical : bool) : res TopologyFilter :=
  let (path, text) := default (target, "") (split_once "?" target) in
  raise_if (negb (String.eqb path PATH)) (InvalidTopologyFilter "Invalid topology target");;
  f ← topology_filter text;
  raise_if (canonical && negb (String.eqb (filter_target f) target)) (InvalidTopologyFilter "Noncanonical topology target");;
  Ok f.

(** ** Matching *)

(** The value the filter of a facet checks, when the node has that facet. *)
Definition facet_value (k : Facet) (n : GraphNode) : option (option string) :=
  let when c v := if String.eqb (gn_category n) c then Some v else None in
  match k with
  | f_category => Some (Some (gn_category n))
  | f_work_kind => when "work" (Some (gn_kind n))
  | f_work_status => when "work" (Some (gn_status n))
  | f_progress => when "work" (gn_todo_progress n)
  | f_observation_status => when "observation" (Some (gn_status n))
  | f_record_status => when "receipt" (Some (gn_status n))
  end.

Definition passes (f : TopologyFilter) (k : Facet) (n : GraphNode) : bool :=
  match fl_facet f k, facet_value k n with
  | Some l, Some v => match v with Some x => str_in x l | None => false end
  | _, _ => true
  end.

Definition archive_passes (f : TopologyFilter) (n : GraphNode) : bool :=
  String.eqb (fl_archived f) "include" || Bool.eqb (gn_archived n) (String.eqb (fl_archived f) "only").

Definition text_passes (f : TopologyFilter) (n : GraphNode) : bool :=
  String.eqb (fl_q f) "" || has_substring (fl_q f) (py_lower (gn_title n +:+ " " +:+ gn_id n)).

Definition unskipped_passes (f : TopologyFilter) (skip : option Facet) (n : GraphNode) (k : Facet) : bool :=
  bool_decide (Some k = skip) || passes f k n.

Definition _matches (f : TopologyFilter) (skip : option Facet) (n : GraphNode) : bool :=
  forallb (unskipped_passes f skip n) FACETS && archive_passes f n && text_passes f n.

(** The facet's value counted for a node. *)
Definition facet_counted (k : Facet) (n : GraphNode) : option string := facet_value k n ≫= λ v, v.

Definition facet_counts (f : TopologyFilter) (scoped : list GraphNode) (k : Facet) : gmap string Z :=
  counter (omap (facet_counted k) (filter (λ n, _matches f (Some k) n = true) scoped)).

(** ** Scopes *)

(** The [for key in queue] loops: each key adds its new neighbours to the keys and
    to the queue.  One fuel unit is one key. *)
Fixpoint visit (cs : list string) (keys : gset string) : list string * gset string :=
  match cs with
  | [] => ([], keys)
  | c :: cs' =>
      if decide (c ∈ keys) then visit cs' keys
      else let r := visit cs' ({[c]} ∪ keys) in (c :: r.1, r.2)
  end.

Fixpoint grow (next : string → list string) (fuel : nat) (queue : list string) (keys : gset string) : option (gset string) :=
  match queue with
  | [] => Some keys
  | k :: rest =>
      match fuel with
      | O => None
      | S fuel' => let r := visit (next k) keys in grow next fuel' (rest ++ r.1) r.2
      end
  end.

Definition arena_roots (f : TopologyFilter) (ns : list GraphNode) : list string :=
  gn_key <$> filter (λ n, gn_kind n = "Arena" ∧ (fl_arena f = "*" ∨ fl_arena f = gn_key n)) ns.

(** [node.get("arena_key") in roots]. *)
Definition placed_in (roots : list string) (n : GraphNode) : bool :=
  match gn_arena_key n with Some (Some k) => str_in k roots | _ => false end.

Definition targets_of (es : list GraphEdge) (k : string) : list string := ge_target <$> filter (λ e, ge_source e = k) es.

(** [outgoing], without the nodes that are placed elsewhere. *)
Definition scope_next (roots : list string) (ns : list GraphNode) (es : list GraphEdge) (k : string) : list string :=
  filter (λ t, match find_node t ns with
               | Some n => match gn_arena_key n with Some _ => placed_in roots n | None => true end
               | None => true
               end = true) (targets_of es k).

Definition arena_scope (f : TopologyFilter) (ns : list GraphNode) (es : list GraphEdge) : option (gset string) :=
  let roots := arena_roots f ns in
  let seeds := roots ++ (gn_key <$> filter (λ n, placed_in roots n = true) ns) in
  grow (scope_next roots ns es) (length seeds + length es) seeds (list_to_set seeds).

(** [neighbors]. *)
Definition neighbours_of (es : list GraphEdge) (k : string) : list string :=
  omap (λ e, if String.eqb (ge_source e) k then Some (ge_target e)
             else if String.eqb (ge_target e) k then Some (ge_source e) else None) es.

Definition anchor_keys (f : TopologyFilter) (es : list GraphEdge) (keys : gset string) : gset string :=
  if truthy (fl_anchor f) then keys ∩ list_to_set (fl_anchor f :: neighbours_of es (fl_anchor f)) else keys.

Definition scope_keys (f : TopologyFilter) (ns : list GraphNode) (es : list GraphEdge) : option (gset string) :=
  keys ← (if truthy (fl_arena f) then arena_scope f ns es else Some (list_to_set (gn_key <$> ns)));
  Some (anchor_keys f es keys).

(** The last error wins. *)
Definition scope_error (f : TopologyFilter) (ns : list GraphNode) : option string :=
  if truthy (fl_anchor f) && negb (str_in (fl_anchor f) (gn_key <$> ns)) then Some "anchor_unavailable"
  else if truthy (fl_arena f) && negb (String.eqb (fl_arena f) "*") && bool_decide (arena_roots f ns = [])
  then Some "arena_unavailable"
  else None.

(** ** The projection *)

Definition matching_nodes (f : TopologyFilter) (scoped : list GraphNode) : list GraphNode :=
  filter (λ n, _matches f None n = true) scoped.

Definition relationship_admitted (f : TopologyFilter) (r : string) : bool :=
  match fl_relationship f with Some l => str_in r l | None => true end.

Definition matching_edges (f : TopologyFilter) (matching : list GraphNode) (es : list GraphEdge) : list GraphEdge :=
  filter (λ e, ge_source e ∈ gn_key <$> matching ∧ ge_target e ∈ gn_key <$> matching
               ∧ relationship_admitted f (ge_relationship e) = true) es.

(** [len(degree.get(key, ()))]: the distinct neighbours over the matching edges. *)
Definition degree (es : list GraphEdge) (k : string) : Z := Z.of_nat (size (list_to_set (neighbours_of es k) : gset string)).

Definition shown_edges (f : TopologyFilter) (shown : list GraphNode) (es : list GraphEdge) : list GraphEdge :=
  take (Z.to_nat (fl_edge_limit f)) (filter (λ e, ge_source e ∈ gn_key <$> shown ∧ ge_target e ∈ gn_key <$> shown) es).

Definition overview_kind (k : string) : bool := str_in k ("Arena" :: MONITORED_WORK_KINDS).

Definition is_ancestry (e : GraphEdge) : bool := str_in (ge_relationship e) ["HAS_CHILD"; "CONTAINS_WORK"].

(** The parents a layout may show. *)
Definition layout_next (ns : list GraphNode) (es : list GraphEdge) (k : string) : list string :=
  ge_source <$> filter (λ e, is_ancestry e && String.eqb (ge_target e) k
                             && match find_node (ge_source e) ns with Some n => overview_kind (gn_kind n) | None => false end
                             = true) es.

Definition layout_seeds (ns shown : list GraphNode) : list string :=
  (gn_key <$> filter (λ n, overview_kind (gn_kind n) = true) shown)
  ++ omap (λ n, match gn_arena_key n with
                | Some (Some a) => match find_node a ns with
                                   | Some x => if String.eqb (gn_kind x) "Arena" then Some a else None
                                   | None => None
                                   end
                | _ => None
                end) shown.

Definition layout_keys (ns : list GraphNode) (es : list GraphEdge) (shown : list GraphNode) : option (gset string) :=
  let seeds := remove_dups (layout_seeds ns shown) in
  grow (layout_next ns es) (length seeds + length es) seeds (list_to_set seeds).

Definition layout_node (n : GraphNode) : value :=
  VDict (mk_dict (filter (λ kv, str_in kv.1 ["key"; "kind"; "title"; "category"; "arena_key"] = true) (node_members n))).

Definition topology_revision (s : Snapshot) : string := sha256_hex (utf8_encode (dumps false (VDict (mk_dict (sn_stable s))))).

Record Projection := {
  pj_revision : string;
  pj_scoped : Z;
  pj_matching : Z;
  pj_matching_edges : Z;
  pj_nodes : list (GraphNode * Z);
  pj_edges : list GraphEdge;
  pj_layout_nodes : list GraphNode;
  pj_layout_edges : list GraphEdge;
  pj_facets : Facet → gmap string Z;
  pj_arenas : list GraphNode;
  pj_relationship_types : list string;
  pj_scope_error : option string;
  pj_complete : bool
}.

Definition filter_projection (s : Snapshot) (f : TopologyFilter) : res Projection :=
  let ns := sn_nodes s in
  let es := sn_edges s in
  keys ← of_option (RuntimeError "out of fuel") (scope_keys f ns es);
  let scoped := filter (λ n, gn_key n ∈ keys) ns in
  let matching := matching_nodes f scoped in
  let edges := matching_edges f matching es in
  let shown := take (Z.to_nat (fl_node_limit f)) matching in
  let kept := shown_edges f shown edges in
  layout ← of_option (RuntimeError "out of fuel") (layout_keys ns es shown);
  Ok {| pj_revision := topology_revision s; pj_scoped := Z.of_nat (length scoped);
        pj_matching := Z.of_nat (length matching); pj_matching_edges := Z.of_nat (length edges);
        pj_nodes := (λ n, (n, degree edges (gn_key n))) <$> shown; pj_edges := kept;
        pj_layout_nodes := filter (λ n, gn_key n ∈ layout) ns;
        pj_layout_edges := filter (λ e, is_ancestry e = true ∧ ge_source e ∈ layout ∧ ge_target e ∈ layout) es;
        pj_facets := facet_counts f scoped; pj_arenas := filter (λ n, gn_kind n = "Arena") ns;
        pj_relationship_types := stable_sort String.leb (remove_dups (ge_relationship <$> es));
        pj_scope_error := scope_error f ns;
        pj_complete := bool_decide (length shown = length matching) && bool_decide (length kept = length edges) |}.

(** *** The document *)

Definition shown_value (nz : GraphNode * Z) : value :=
  VDict (mk_dict (node_members nz.1 ++ [("connection_count", VInt nz.2)])).

Definition choice_value (o : option (list string)) : value := match o with Some l => strs l | None => VNone end.

Definition applied_filters (f : TopologyFilter) : value :=
  VDict (mk_dict
    (((λ k, (facet_name k, choice_value (fl_facet f k))) <$> FACETS)
     ++ [("relationship", choice_value (fl_relationship f)); ("archived", VStr (fl_archived f)); ("arena", VStr (fl_arena f));
         ("anchor", VStr (fl_anchor f)); ("q", VStr (fl_q f)); ("node_limit", VInt (fl_node_limit f));
         ("edge_limit", VInt (fl_edge_limit f))])).

(** [{**snapshot, ...}]: later members replace earlier ones. *)
Definition override (base later : list (string * value)) : list (string * value) :=
  filter (λ kv, str_in kv.1 later.*1 = false) base ++ later.

Definition projection_members (s : Snapshot) (f : TopologyFilter) (p : Projection) : list (string * value) :=
  override (sn_stable s ++ sn_volatile s)
    [("schema", VStr "devgraph.topology.v1"); ("revision", VStr (pj_revision p)); ("consistency", VStr "materialized_projection");
     ("applied_filters", applied_filters f); ("graph_nodes", VList (shown_value <$> pj_nodes p));
     ("graph_edges", VList (edge_value <$> pj_edges p));
     ("layout_context", VDict (mk_dict [("nodes", VList (layout_node <$> pj_layout_nodes p));
                                        ("edges", VList (edge_value <$> pj_layout_edges p))]));
     ("facets", VDict (mk_dict ((λ k, (facet_name k, counter_value (pj_facets p k))) <$> FACETS)));
     ("arenas", VList (node_value <$> pj_arenas p)); ("relationship_types", strs (pj_relationship_types p));
     ("scope_error", opt_str (pj_scope_error p));
     ("counts", VDict (mk_dict
        [("available_nodes", VInt (Z.of_nat (length (sn_nodes s)))); ("scoped_nodes", VInt (pj_scoped p));
         ("matching_nodes", VInt (pj_matching p)); ("matching_edges", VInt (pj_matching_edges p));
         ("returned_nodes", VInt (Z.of_nat (length (pj_nodes p)))); ("returned_edges", VInt (Z.of_nat (length (pj_edges p))))]));
     ("complete", VBool (pj_complete p))].

Section topology.
  Context {PY : Pydantic} {CK : Clock}.

Definition build_topology (f : TopologyFilter) : M Store (list (string * value)) :=
  captured ← gets monitor_records;
  guard_raise (bool_decide (SOURCE_NODE_LIMIT < length captured.1)%nat || bool_decide (SOURCE_EDGE_LIMIT < length captured.2)%nat)
    (StorageUnavailable "topology source capacity exceeded");;
  s ← build_monitor_snapshot
        {| cp_nodes := captured.1; cp_edges := captured.2; cp_live := true; cp_ready := true;
           cp_detail := "memory storage ready"; cp_arena_membership := None |};
  p ← lift (filter_projection s f);
  mret (projection_members s f p).

End topology.

(** [revalidate_topology]. *)
Definition revalidate_topology (result : list (string * value)) (known_revision : string) : res (list (string * value)) :=
  let get k := of_option (KeyError k) (dict_get k (mk_dict result)) in
  revision ← get "revision";
  applied ← get "applied_filters";
  access ← get "access_scope";
  let representation := sha256_hex (utf8_encode (dumps false
        (VDict (mk_dict [("revision", revision); ("applied_filters", applied); ("access_scope", access)])))) in
  if String.eqb known_revision representation then
    generated ← get "generated_at";
    storage ← get "storage";
    Ok [("schema", VStr "devgraph.topology-not-modified.v1"); ("representation_revision", VStr representation);
        ("revision", revision); ("generated_at", generated); ("storage", storage)]
  else Ok (override result [("representation_revision", VStr representation)]).

(** ** Scopes are closures *)

Section closure.
  Context (next : string → list string) (U : gset string).
  Hypothesis next_in : ∀ k x, x ∈ next k → x ∈ U.

Notation step := (λ a b, b ∈ next a).

Lemma visit_spec cs keys :
  (visit cs keys).2 = keys ∪ list_to_set cs ∧ (∀ x, x ∈ (visit cs keys).1 ↔ x ∈ cs ∧ x ∉ keys)
  ∧ (length (visit cs keys).1 + size keys = size (visit cs keys).2)%nat.
Proof.
  revert keys. induction cs as [|c cs IH]; intros keys; cbn [visit]; [set_solver by lia|].
  case_decide as Hc.
  - destruct (IH keys) as (->&H2&H3). split; [set_solver|]. split; [|done]. intros x. rewrite H2. set_solver.
  - destruct (IH ({[c]} ∪ keys)) as (H1&H2&H3). cbn [fst snd length]. split; [rewrite H1; set_solver|]. split.
    + intros x. rewrite !elem_of_cons, H2. destruct (decide (x = c)); set_solver.
    + rewrite size_union in H3 by set_solver. rewrite size_singleton in H3. lia.
Qed.

(** With a fuel unit for each queued key and each key still to come, the search
    ends with the closure of the keys it started from. *)
Lemma grow_spec fuel queue keys :
  (∀ a, a ∈ queue → a ∈ keys) → (∀ a b, a ∈ keys → a ∉ queue → b ∈ next a → b ∈ keys) →
  (length queue + size (U ∖ keys) ≤ fuel)%nat →
  ∃ m, grow next fuel queue keys = Some m ∧ ∀ k, k ∈ m ↔ ∃ r, r ∈ keys ∧ rtc step r k.
Proof.
  revert queue keys. induction fuel as [|fuel IH]; intros [|k rest] keys Hq Hc Hf; cbn [grow length] in *; try lia.
  1,2: exists keys; split; [done|]; intros x; split; [by exists x|]; intros (r&Hr&Hx);
    induction Hx as [|a b d Hab _ IHx]; [done|]; apply IHx, (Hc a b); [done|by apply not_elem_of_nil|done].
  destruct (visit_spec (next k) keys) as (H1&H2&H3). set (r := visit (next k) keys) in *.
  assert (k ∈ keys) as Hk by (apply Hq, elem_of_cons; by left).
  destruct (IH (rest ++ r.1) r.2) as (m&Hm&Hmx).
  - intros a [Ha|Ha]%elem_of_app; rewrite H1; [set_solver|]. apply H2 in Ha as [Ha _]. set_solver.
  - intros a b Ha Hna Hb. rewrite H1 in Ha |- *. rewrite elem_of_app in Hna.
    destruct (decide (a ∈ keys)) as [Hak|Hak].
    + destruct (decide (a = k)) as [->|Hne]; [set_solver|]. apply elem_of_union_l, (Hc a b); [done|set_solver|done].
    + exfalso. apply Hna. right. apply H2. set_solver.
  - assert (size (U ∖ keys) = length r.1 + size (U ∖ r.2))%nat as Hs; [|rewrite length_app; lia].
    assert (U ∖ keys = (r.2 ∖ keys) ∪ (U ∖ r.2)) as ->.
    { rewrite H1. apply set_eq. intros x. pose proof (next_in k x).
      destruct (decide (x ∈ keys)), (decide (x ∈ next k)); set_solver. }
    rewrite size_union by set_solver. rewrite size_difference by set_solver. lia.
  - exists m. split; [done|]. intros x. rewrite Hmx. split.
    + intros (a&Ha&Hx). rewrite H1 in Ha. apply elem_of_union in Ha as [Ha|Ha%elem_of_list_to_set]; [by exists a|].
      exists k. split; [done|]. by eapply rtc_l.
    + intros (a&Ha&Hx). exists a. rewrite H1. split; [set_solver|done].
Qed.

Lemma grow_closure fuel seeds : (length seeds + size U ≤ fuel)%nat →
  ∃ m, grow next fuel seeds (list_to_set seeds) = Some m ∧ ∀ k, k ∈ m ↔ ∃ r, r ∈ seeds ∧ rtc step r k.
Proof.
  intros Hf. destruct (grow_spec fuel seeds (list_to_set seeds)) as (m&Hm&Hx).
  - intros a. by rewrite elem_of_list_to_set.
  - intros a b Ha%elem_of_list_to_set Hna. done.
  - pose proof (subseteq_size (U ∖ list_to_set seeds) U ltac:(set_solver)). lia.
  - exists m. split; [done|]. intros k. rewrite Hx. by setoid_rewrite elem_of_list_to_set.
Qed.

End closure.

Lemma size_list_to_set_le (l : list string) : (size (list_to_set l : gset string) ≤ length l)%nat.
Proof.
  induction l as [|x l IH]; [done|]. cbn [list_to_set length]. rewrite size_union_alt, size_singleton.
  pose proof (subseteq_size (list_to_set l ∖ {[x]} : gset string) (list_to_set l) ltac:(set_solver)). lia.
Qed.

(** *** The two searches *)

Definition arena_seeds (f : TopologyFilter) (ns : list GraphNode) : list string :=
  arena_roots f ns ++ (gn_key <$> filter (λ n, placed_in (arena_roots f ns) n = true) ns).

(** An edge into a node that is not placed in another Arena. *)
Definition scope_edge (roots : list string) (ns : list GraphNode) (es : list GraphEdge) (a b : string) : Prop :=
  ∃ e, e ∈ es ∧ ge_source e = a ∧ ge_target e = b
    ∧ ∀ n k, find_node b ns = Some n → gn_arena_key n = Some k → placed_in roots n = true.

(** A parent that an overview may show. *)
Definition layout_edge (ns : list GraphNode) (es : list GraphEdge) (a b : string) : Prop :=
  ∃ e n, e ∈ es ∧ is_ancestry e = true ∧ ge_target e = a ∧ ge_source e = b
    ∧ find_node b ns = Some n ∧ overview_kind (gn_kind n) = true.

Definition joined (es : list GraphEdge) (a b : string) : Prop :=
  ∃ e, e ∈ es ∧ (ge_source e = a ∧ ge_target e = b ∨ ge_target e = a ∧ ge_source e = b).

Lemma scope_next_spec roots ns es a b : b ∈ scope_next roots ns es a ↔ scope_edge roots ns es a b.
Proof.
  unfold scope_next, scope_edge, targets_of. rewrite list_elem_of_filter, list_elem_of_fmap. split.
  - intros [Hp (e&->&[Hs He]%list_elem_of_filter)]. exists e. repeat (split; [done|]). intros n k Hn Hk.
    by rewrite Hn, Hk in Hp.
  - intros (e&He&Hs&<-&Hp). split; [|exists e; by rewrite list_elem_of_filter]. destruct (find_node _ ns) as [n|] eqn:En; [|done].
    destruct (gn_arena_key n) as [k|] eqn:Ek; [|done]. by apply (Hp n k).
Qed.

Lemma layout_next_spec ns es a b : b ∈ layout_next ns es a ↔ layout_edge ns es a b.
Proof.
  unfold layout_next, layout_edge. rewrite list_elem_of_fmap. split.
  - intros (e&->&[Hp He]%list_elem_of_filter). rewrite !andb_true_iff, String.eqb_eq in Hp. destruct Hp as [[Ha Ht] Hk].
    destruct (find_node (ge_source e) ns) as [n|] eqn:En; [|done]. by exists e, n.
  - intros (e&n&He&Ha&Ht&<-&Hn&Hk). exists e. split; [done|]. apply list_elem_of_filter. split; [|done].
    by rewrite Ha, Ht, String.eqb_refl, Hn, Hk.
Qed.

Lemma neighbours_spec es a b : b ∈ neighbours_of es a ↔ joined es a b.
Proof.
  unfold neighbours_of, joined. rewrite list_elem_of_omap. split.
  - intros (e&He&Hb). exists e. split; [done|]. destruct (String.eqb_spec (ge_source e) a); [left; naive_solver|].
    destruct (String.eqb_spec (ge_target e) a); [right; naive_solver|done].
  - intros (e&He&[[<- <-]|[<- <-]]); exists e; (split; [done|]); [by rewrite String.eqb_refl|].
    destruct (String.eqb_spec (ge_source e) (ge_target e)) as [->|]; [done|by rewrite String.eqb_refl].
Qed.

Lemma rtc_ext {A} (R S : A → A → Prop) a b : (∀ x y, R x y ↔ S x y) → rtc R a b ↔ rtc S a b.
Proof. intros H. split; induction 1; [done|eapply rtc_l; [by apply H|done]|done|eapply rtc_l; [by apply H|done]]. Qed.

Lemma arena_scope_spec f ns es : ∃ m, arena_scope f ns es = Some m
  ∧ ∀ k, k ∈ m ↔ ∃ r, r ∈ arena_seeds f ns ∧ rtc (scope_edge (arena_roots f ns) ns es) r k.
Proof.
  unfold arena_scope. fold (arena_seeds f ns).
  destruct (grow_closure (scope_next (arena_roots f ns) ns es) (list_to_set (ge_target <$> es))
              ltac:(intros k x (e&He&_&<-&_)%scope_next_spec; apply elem_of_list_to_set, list_elem_of_fmap; by exists e)
              (length (arena_seeds f ns) + length es) (arena_seeds f ns)) as (m&Hm&Hx).
  { pose proof (size_list_to_set_le (ge_target <$> es)) as H. rewrite length_fmap in H. lia. }
  exists m. split; [done|]. intros k. rewrite Hx. setoid_rewrite (rtc_ext _ (scope_edge (arena_roots f ns) ns es)); [done|].
  intros. apply scope_next_spec.
Qed.

Lemma layout_keys_spec ns es shown : ∃ m, layout_keys ns es shown = Some m
  ∧ ∀ k, k ∈ m ↔ ∃ r, r ∈ layout_seeds ns shown ∧ rtc (layout_edge ns es) r k.
Proof.
  unfold layout_keys.
  destruct (grow_closure (layout_next ns es) (list_to_set (ge_source <$> es))
              ltac:(intros k x (e&n&He&_&_&<-&_)%layout_next_spec; apply elem_of_list_to_set, list_elem_of_fmap; by exists e)
              (length (remove_dups (layout_seeds ns shown)) + length es) (remove_dups (layout_seeds ns shown))) as (m&Hm&Hx).
  { pose proof (size_list_to_set_le (ge_source <$> es)) as H. rewrite length_fmap in H. lia. }
  exists m. split; [done|]. intros k. rewrite Hx. setoid_rewrite elem_of_remove_dups.
  setoid_rewrite (rtc_ext _ (layout_edge ns es)); [done|]. intros. apply layout_next_spec.
Qed.

(** *** Facets *)

(** The filter that selects one value of a facet. *)
Definition select_value (k : Facet) (v : string) (f : TopologyFilter) : TopologyFilter :=
  let at_facet k' := if decide (k' = k) then Some [v] else fl_facet f k' in
  {| fl_category := at_facet f_category; fl_work_kind := at_facet f_work_kind; fl_work_status := at_facet f_work_status;
     fl_observation_status := at_facet f_observation_status; fl_record_status := at_facet f_record_status;
     fl_progress := at_facet f_progress; fl_relationship := fl_relationship f; fl_archived := fl_archived f;
     fl_arena := fl_arena f; fl_anchor := fl_anchor f; fl_q := fl_q f; fl_node_limit := fl_node_limit f;
     fl_edge_limit := fl_edge_limit f; fl_if_revision := fl_if_revision f |}.

Lemma select_facet k v f k' : fl_facet (select_value k v f) k' = if decide (k' = k) then Some [v] else fl_facet f k'.
Proof. by destruct k'. Qed.

Lemma matches_selected k v f n : facet_counted k n = Some v → _matches (select_value k v f) None n = _matches f (Some k) n.
Proof.
  intros Hn. unfold _matches.
  assert (∀ k', unskipped_passes (select_value k v f) None n k' = unskipped_passes f (Some k) n k') as H.
  { intros k'. unfold unskipped_passes. rewrite (bool_decide_eq_false_2 (Some k' = None)) by done. cbn [orb]. unfold passes. rewrite select_facet.
    case_decide as Hk; [subst k'|].
    - rewrite bool_decide_eq_true_2 by done. unfold facet_counted in Hn. destruct (facet_value k n) as [[x|]|]; [|done|done].
      cbn in Hn. injection Hn as ->. cbn [orb]. apply str_in_spec, elem_of_cons. by left.
    - rewrite bool_decide_eq_false_2 by congruence. done. }
  unfold FACETS. cbn [forallb]. rewrite !H. done.
Qed.


Lemma counter_spec l v : default 0 (counter l !! v) = Z.of_nat (length (filter (λ x, x = v) l)).
Proof.
  unfold counter. enough (∀ m, default 0 (foldl counted_in m l !! v) = default 0 (m !! v) + Z.of_nat (length (filter (λ x, x = v) l)))
    as H by (rewrite H, lookup_empty; simpl; lia).
  induction l as [|x l IH]; intros m; [simpl; lia|]. cbn [foldl]. rewrite IH. unfold counted_in.
  destruct (decide (x = v)) as [->|Hne].
  - rewrite lookup_insert_eq, filter_cons_True by done. cbn [default from_option length]. unfold Datatypes.id. lia.
  - rewrite lookup_insert_ne, filter_cons_False by done. done.
Qed.

Lemma omap_count {A} (g : A → option string) (p : A → bool) l v :
  length (filter (λ x, x = v) (omap g (filter (λ a, p a = true) l)))
  = length (filter (λ a, g a = Some v ∧ p a = true) l).
Proof.
  induction l as [|a l IH]; [done|]. destruct (p a) eqn:Ep.
  - rewrite filter_cons_True by done. cbn [omap list_omap]. destruct (g a) as [x|] eqn:Eg.
    + destruct (decide (x = v)) as [->|Hne].
      * rewrite !filter_cons_True by done. cbn [length]. f_equal. exact IH.
      * rewrite filter_cons_False by done. rewrite filter_cons_False by (rewrite Eg; intros [? _]; congruence). exact IH.
    + rewrite filter_cons_False by (rewrite Eg; intros [? _]; done). exact IH.
  - rewrite !filter_cons_False by (rewrite ?Ep; intros H; destruct_and?; done). exact IH.
Qed.

Lemma facet_count_selected f scoped k v :
  default 0 (facet_counts f scoped k !! v)
  = Z.of_nat (length (filter (λ n, facet_counted k n = Some v) (matching_nodes (select_value k v f) scoped))).
Proof.
  unfold facet_counts. rewrite counter_spec, omap_count. f_equal. unfold matching_nodes. induction scoped as [|n l IH]; [done|].
  destruct (decide (facet_counted k n = Some v)) as [Hn|Hn].
  - pose proof (matches_selected k v f n Hn) as Hm. destruct (_matches f (Some k) n) eqn:E.
    + rewrite !filter_cons_True by done. cbn [length]. f_equal. exact IH.
    + rewrite (filter_cons_False _ n) by (rewrite E; intros [_ ?]; done).
      rewrite (filter_cons_False (λ n, _matches (select_value k v f) None n = true)) by (rewrite Hm; done). exact IH.
  - rewrite (filter_cons_False _ n) by (intros [? _]; done). destruct (_matches (select_value k v f) None n) eqn:E.
    + rewrite (filter_cons_True (λ n, _matches (select_value k v f) None n = true)) by done.
      rewrite filter_cons_False by done. exact IH.
    + rewrite (filter_cons_False (λ n, _matches (select_value k v f) None n = true)) by (rewrite E; done). exact IH.
Qed.

(** *** What a filter asks for, without the functions that check it *)

Definition one_of (o : option (list string)) (x : option string) : Prop :=
  ∀ l, o = Some l → ∃ v, x = Some v ∧ v ∈ l.

Record wanted_node (f : TopologyFilter) (n : GraphNode) : Prop := {
  wn_category : one_of (fl_category f) (Some (gn_category n));
  wn_work_kind : gn_category n = "work" → one_of (fl_work_kind f) (Some (gn_kind n));
  wn_work_status : gn_category n = "work" → one_of (fl_work_status f) (Some (gn_status n));
  wn_progress : gn_category n = "work" → one_of (fl_progress f) (gn_todo_progress n);
  wn_observation_status : gn_category n = "observation" → one_of (fl_observation_status f) (Some (gn_status n));
  wn_record_status : gn_category n = "receipt" → one_of (fl_record_status f) (Some (gn_status n));
  wn_only : fl_archived f = "only" → gn_archived n = true;
  wn_exclude : fl_archived f ≠ "only" → fl_archived f ≠ "include" → gn_archived n = false;
  wn_text : fl_q f ≠ "" → ∃ before after, py_lower (gn_title n +:+ " " +:+ gn_id n) = before +:+ fl_q f +:+ after
}.

Definition wanted_edge (f : TopologyFilter) (nodes : list GraphNode) (e : GraphEdge) : Prop :=
  ge_source e ∈ gn_key <$> nodes ∧ ge_target e ∈ gn_key <$> nodes ∧ one_of (fl_relationship f) (Some (ge_relationship e)).

Lemma one_of_spec o x : match o with Some l => match x with Some v => str_in v l | None => false end | None => true end = true ↔ one_of o x.
Proof.
  unfold one_of. destruct o as [l|]; [|by split]. destruct x as [v|].
  - rewrite str_in_spec. split; [intros Hv l' [= <-]; by exists v|]. intros H. by destruct (H l eq_refl) as (?&[= <-]&?).
  - split; [done|]. intros H. by destruct (H l eq_refl) as (?&?&_).
Qed.

Lemma passes_spec f k n : passes f k n = true ↔ ∀ v, facet_value k n = Some v → one_of (fl_facet f k) v.
Proof.
  unfold passes. destruct (facet_value k n) as [v|].
  - assert ((∀ v', Some v = Some v' → one_of (fl_facet f k) v') ↔ one_of (fl_facet f k) v) as -> by naive_solver.
    rewrite <-one_of_spec. by destruct (fl_facet f k).
  - destruct (fl_facet f k); naive_solver.
Qed.

Lemma when_spec (c x : string) (v : option string) (P : option string → Prop) :
  (∀ w, (if String.eqb c x then Some v else None) = Some w → P w) ↔ (c = x → P v).
Proof. destruct (String.eqb_spec c x); naive_solver. Qed.

Lemma matches_spec f n : _matches f None n = true ↔ wanted_node f n.
Proof.
  unfold _matches, archive_passes, text_passes, FACETS. cbn [forallb].
  assert (∀ k, unskipped_passes f None n k = passes f k n) as Hu.
  { intros k. unfold unskipped_passes. by rewrite bool_decide_eq_false_2. }
  rewrite !Hu, !andb_true_iff, !passes_spec. cbn [facet_value fl_facet]. rewrite !when_spec.
  assert (String.eqb (fl_archived f) "include" || Bool.eqb (gn_archived n) (String.eqb (fl_archived f) "only") = true
    ↔ (fl_archived f = "only" → gn_archived n = true) ∧ (fl_archived f ≠ "only" → fl_archived f ≠ "include" → gn_archived n = false)) as ->.
  { destruct (String.eqb_spec (fl_archived f) "include") as [Hi|Hi], (String.eqb_spec (fl_archived f) "only") as [Ho|Ho],
      (gn_archived n); cbn [orb Bool.eqb]; intuition congruence. }
  assert (String.eqb (fl_q f) "" || has_substring (fl_q f) (py_lower (gn_title n +:+ " " +:+ gn_id n)) = true
    ↔ (fl_q f ≠ "" → ∃ before after, py_lower (gn_title n +:+ " " +:+ gn_id n) = before +:+ fl_q f +:+ after)) as ->.
  { rewrite orb_true_iff, has_substring_spec, String.eqb_eq. destruct (decide (fl_q f = "")); naive_solver. }
  split; [intros H; destruct_and!; constructor; naive_solver|intros []; split_and!; naive_solver].
Qed.

#[export] Instance wanted_node_dec f n : Decision (wanted_node f n).
Proof. destruct (_matches f None n) eqn:E; [left|right]; rewrite <-matches_spec, E; done. Defined.

Lemma relationship_spec f r : relationship_admitted f r = true ↔ one_of (fl_relationship f) (Some r).
Proof. apply (one_of_spec (fl_relationship f) (Some r)). Qed.

#[export] Instance wanted_edge_dec f ns e : Decision (wanted_edge f ns e).
Proof.
  unfold wanted_edge. apply and_dec; [apply _|]. apply and_dec; [apply _|].
  destruct (relationship_admitted f (ge_relationship e)) eqn:E; [left|right]; rewrite <-relationship_spec, E; done.
Defined.

Lemma matching_nodes_wanted f l : matching_nodes f l = filter (wanted_node f) l.
Proof. apply list_filter_iff. intros n. apply matches_spec. Qed.

Lemma matching_edges_wanted f ns es : matching_edges f ns es = filter (wanted_edge f ns) es.
Proof. apply list_filter_iff. intros e. unfold wanted_edge. by rewrite relationship_spec. Qed.

Lemma filter_same_length {A} (P : A → Prop) `{∀ x, Decision (P x)} (l : list A) :
  length (filter P l) = length l → filter P l = l.
Proof.
  induction l as [|x l IH]; [done|]. pose proof (length_filter P l) as Hle. rewrite filter_cons. destruct (decide (P x)); cbn [length] in *.
  - intros Hl. f_equal. apply IH. lia.
  - lia.
Qed.

Lemma take_same_length {A} n (l : list A) : length (take n l) = length l → take n l = l.
Proof. rewrite length_take. intros H. apply take_ge. lia. Qed.

Lemma shown_edges_all f shown es : length (shown_edges f shown es) = length es → shown_edges f shown es = es.
Proof.
  unfold shown_edges. set (l := filter _ es). intros H. pose proof (length_filter (λ e, ge_source e ∈ gn_key <$> shown ∧ ge_target e ∈ gn_key <$> shown) es) as Hl.
  fold l in Hl. pose proof (length_take l (Z.to_nat (fl_edge_limit f))) as Ht.
  rewrite take_same_length by lia. apply filter_same_length. fold l. lia.
Qed.

(** ** The canonical query *)

(** *** Text fields are fixed points *)

Lemma lower_char_facts c :
  lower_char (lower_char c) = lower_char c ∧ is_space (lower_char c) = is_space c
  ∧ (code (lower_char c) <? 32)%N = (code c <? 32)%N.
Proof. destruct c as [[] [] [] [] [] [] [] []]; repeat split; reflexivity. Qed.

Lemma py_lower_idem s : py_lower (py_lower s) = py_lower s.
Proof. induction s as [|c s IH]; [done|]. cbn [py_lower]. rewrite IH. f_equal. apply lower_char_facts. Qed.

Lemma py_lower_length s : String.length (py_lower s) = String.length s.
Proof. induction s as [|c s IH]; [done|]. cbn [py_lower String.length]. by rewrite IH. Qed.

Lemma py_lower_empty s : py_lower s = "" ↔ s = "".
Proof. by destruct s. Qed.

Lemma py_lower_forall p q s : (∀ c, q (lower_char c) = p c) → str_forall q (py_lower s) = str_forall p s.
Proof. intros H. induction s as [|c s IH]; [done|]. cbn [py_lower str_forall]. by rewrite H, IH. Qed.

Lemma py_lower_strip s : py_lower (strip s) = strip (py_lower s).
Proof.
  assert (∀ t, py_lower (rstrip t) = rstrip (py_lower t)) as Hr.
  { induction t as [|c t IH]; [done|]. cbn [rstrip py_lower]. rewrite <-IH.
    destruct (lower_char_facts c) as (_&->&_). destruct (is_space c); cbn [andb]; [|done].
    destruct (String.eqb_spec (rstrip t) "") as [->|Hn]; [done|].
    destruct (String.eqb_spec (py_lower (rstrip t)) "") as [He|]; [|done]. by apply (proj1 (py_lower_empty _)) in He. }
  unfold strip. rewrite Hr. f_equal. induction s as [|c s IH]; [done|]. cbn [py_lower]. rewrite !drop_while_cons.
  destruct (lower_char_facts c) as (_&->&_). by destruct (is_space c).
Qed.

Lemma rstrip_idem t : rstrip (rstrip t) = rstrip t.
Proof.
  induction t as [|c t IH]; [done|]. cbn [rstrip]. destruct (is_space c && String.eqb (rstrip t) "") eqn:E; [done|].
  cbn [rstrip]. by rewrite IH, E.
Qed.

Lemma strip_idem s : strip (strip s) = strip s.
Proof.
  unfold strip. enough (drop_while is_space (rstrip (drop_while is_space s)) = rstrip (drop_while is_space s)) as ->
    by apply rstrip_idem.
  induction s as [|c s IH]; [done|]. rewrite drop_while_cons. destruct (is_space c) eqn:Ec; [exact IH|].
  cbn [rstrip]. rewrite Ec. cbn [andb]. by rewrite drop_while_cons, Ec.
Qed.

Lemma strip_forall p s : str_forall p s = true → str_forall p (strip s) = true.
Proof.
  assert (∀ t, str_forall p t = true → str_forall p (rstrip t) = true) as Hr.
  { induction t as [|c t IH]; [done|]. cbn [str_forall rstrip]. intros [Hc Ht]%andb_true_iff.
    destruct (is_space c && _); [done|]. cbn [str_forall]. by rewrite Hc, IH. }
  intros Hs. apply Hr. induction s as [|c s IH]; [done|]. rewrite drop_while_cons. destruct (is_space c); [|exact Hs].
  apply IH. cbn [str_forall] in Hs. by apply andb_true_iff in Hs as [_ ?].
Qed.

Lemma strip_length s : (String.length (strip s) ≤ String.length s)%nat.
Proof.
  assert (∀ t, String.length (rstrip t) ≤ String.length t)%nat as Hr.
  { induction t as [|c t IH]; [done|]. cbn [rstrip]. destruct (is_space c && _); cbn [String.length]; lia. }
  unfold strip. etransitivity; [apply Hr|]. induction s as [|c s IH]; [done|]. rewrite drop_while_cons. destruct (is_space c); cbn [String.length]; lia.
Qed.

Lemma search_text_again s t : search_text s = Some t → search_text t = Some t.
Proof.
  unfold search_text. destruct (_ || _) eqn:E; [done|]. intros [= <-]. apply orb_false_iff in E as [Hl Hc].
  rewrite <-py_lower_strip, strip_idem, py_lower_idem. unfold str_len, str_exists in *. rewrite py_lower_length.
  rewrite (proj2 (Z.ltb_ge _ _)) by (apply Z.ltb_ge in Hl; pose proof (strip_length s); lia).
  rewrite (py_lower_forall (λ c, negb (code c <? 32)%N)) by (intros c; by destruct (lower_char_facts c) as (_&_&->)).
  apply negb_false_iff in Hc. by rewrite strip_forall by done.
Qed.

Lemma reference_text_again b s t : reference_text b s = Some t → reference_text b t = Some t.
Proof.
  intros H. enough (t = s) by congruence. unfold reference_text in H. destruct (_ || _); [congruence|].
  destruct (split_once ":" s) as [[k i]|]; [|done]. destruct (_ && _); congruence.
Qed.

Lemma archived_text_again s t : archived_text s = Some t → archived_text t = Some t.
Proof. intros H. enough (t = s) by congruence. unfold archived_text in H. destruct (str_in _ _); congruence. Qed.

Lemma revision_text_again s t : revision_text s = Some t → revision_text t = Some t.
Proof. intros H. enough (t = s) by congruence. unfold revision_text in H. destruct (hex_text _ _); congruence. Qed.

(** *** Limits *)

Lemma digits_value_uint d a : digits_value (Zpos a) (NilEmpty.string_of_uint d) = Zpos (Pos.of_uint_acc d a).
Proof.
  revert a. induction d; intros a; cbn [NilEmpty.string_of_uint digits_value Pos.of_uint_acc]; [done|..];
    rewrite <-IHd; f_equal; match goal with |- _ + ?x = _ => let v := eval vm_compute in x in change x with v end; lia.
Qed.

Lemma digits_value_lower acc s : 0 <= acc → str_forall is_digit s = true → acc <= digits_value acc s.
Proof.
  revert acc. induction s as [|c s IH]; intros acc Ha; [done|]. cbn [str_forall digits_value]. rewrite andb_true_iff.
  intros [Hc Hs]. unfold is_digit, in_range in Hc. apply andb_true_iff in Hc as [Hc _]. apply N.leb_le in Hc.
  specialize (IH (acc * 10 + (Z.of_N (code c) - 48)) ltac:(lia) Hs). lia.
Qed.

Lemma bounded_text_range m s z : bounded_text m s = Some z → 1 <= z <= m.
Proof.
  unfold bounded_text. destruct s as [|c r]; [done|]. destruct (_ && _) eqn:E; [|done]. intros [= <-].
  rewrite !andb_true_iff in E. destruct E as [[[Hc Hr] _] Hm%Z.leb_le]. split; [|done].
  cbn [digits_value]. unfold in_range in Hc. apply andb_true_iff in Hc as [Hc _]. apply N.leb_le in Hc.
  pose proof (digits_value_lower (0 * 10 + (Z.of_N (code c) - 48)) r ltac:(lia) Hr). lia.
Qed.

Lemma bounded_text_print m z : 1 <= z <= m → m <= 50000 → bounded_text m (print_int z) = Some z.
Proof.
  intros Hz Hm. destruct z as [|p|p]; [lia| |lia]. unfold print_int. cbn [Z.to_int NilZero.string_of_int].
  pose proof (DecimalPos.Unsigned.of_to p) as Ho. pose proof (DecimalPos.Unsigned.to_uint_nonzero p) as Hn.
  assert (Decimal.unorm (Pos.to_uint p) = Pos.to_uint p) as Hu.
  { rewrite <-DecimalN.Unsigned.to_of. unfold N.of_uint. by rewrite Ho. }
  pose proof (unorm_numeral (Pos.to_uint p)) as (_&_&H0). rewrite Hu in H0. clear Hu.
  assert (∀ d a, Pos.of_uint_acc d a = p → (Decimal.nb_digits d <= 4)%nat) as Hlen.
  { intros d a <-. pose proof (of_uint_acc_bound d a) as Hb.
    destruct (decide (Decimal.nb_digits d <= 4)%nat) as [|Hd]; [done|].
    assert (10 ^ 5 <= 10 ^ Z.of_nat (Decimal.nb_digits d)) by (apply Z.pow_le_mono_r; lia). nia. }
  destruct (Pos.to_uint p) as [|d|d|d|d|d|d|d|d|d|d]; simpl in Ho; try done.
  { destruct d; done. }
  all: injection Ho as Ho; pose proof (Hlen _ _ Ho) as Hl; unfold bounded_text, NilZero.string_of_uint;
    cbn [NilEmpty.string_of_uint digits_value]; rewrite string_of_uint_digits;
    match goal with |- context [digits_value ?a _] => let v := eval vm_compute in a in change a with v end;
    rewrite digits_value_uint, Ho; unfold str_len; rewrite string_length_digits;
    rewrite !(proj2 (Z.leb_le _ _)) by lia; reflexivity.
Qed.

Lemma bounded_text_again m s z : m <= 50000 → bounded_text m s = Some z → bounded_text m (print_int z) = Some z.
Proof. intros Hm H%bounded_text_range. by apply bounded_text_print. Qed.

(** *** Fields and pairs *)

Definition pairs_of (fields : list (string * list string)) : list (string * string) :=
  List.concat ((λ kl : string * list string, pair kl.1 <$> kl.2) <$> fields).

Lemma values_app k l1 l2 : values_of k (l1 ++ l2) = values_of k l1 ++ values_of k l2.
Proof. unfold values_of. by rewrite filter_app, fmap_app. Qed.

Lemma values_pair k k' l : values_of k (pair k' <$> l) = if decide (k' = k) then l else [].
Proof.
  unfold values_of. induction l as [|x l IH]; [by case_decide|]. rewrite fmap_cons. destruct (decide (k' = k)) as [->|Hne].
  - rewrite filter_cons_True by done. rewrite fmap_cons. by f_equal.
  - rewrite filter_cons_False by done. exact IH.
Qed.

Lemma values_pairs_of k fields : values_of k (pairs_of fields) = List.concat (snd <$> filter (λ kl, kl.1 = k) fields).
Proof.
  induction fields as [|[k' l] fields IH]; [done|]. unfold pairs_of in *. cbn [fmap list_fmap List.concat fst snd].
  rewrite values_app, values_pair. destruct (decide (k' = k)) as [->|Hne].
  - rewrite filter_cons_True by done. cbn [fmap list_fmap List.concat fst snd]. by f_equal.
  - rewrite filter_cons_False by done. exact IH.
Qed.

Lemma pairs_of_keys fields kv : kv ∈ pairs_of fields → kv.1 ∈ fields.*1.
Proof.
  unfold pairs_of. rewrite list_elem_of_In, in_concat. intros (l&Hl&Hk). apply list_elem_of_In in Hl, Hk.
  apply list_elem_of_fmap in Hl as (kl&->&Hkl). apply list_elem_of_fmap in Hk as (x&->&_). cbn. by apply list_elem_of_fmap_2.
Qed.

Lemma pairs_of_nodup fields : NoDup fields.*1 → Forall (λ kl, NoDup kl.2) fields → NoDup (pairs_of fields).
Proof.
  intros Hk Hf. induction fields as [|[k l] fields IH]; [constructor|].
  apply NoDup_cons in Hk as [Hk1 Hk2]. apply Forall_cons in Hf as [Hl Hf]. unfold pairs_of. cbn [fmap list_fmap List.concat fst snd].
  apply NoDup_app. split; [by apply NoDup_fmap_2; [intros ? ? [=]|]|]. split; [|by apply IH].
  intros kv (x&->&_)%list_elem_of_fmap Hin. apply pairs_of_keys in Hin. done.
Qed.

(** The values of distinct names take at most all pairs. *)
Lemma values_length_sum ks pairs : NoDup ks →
  (foldr (λ k n, length (values_of k pairs) + n) 0 ks ≤ length pairs)%nat.
Proof.
  revert pairs. induction ks as [|k ks IH]; intros pairs Hks; [simpl; lia|]. apply NoDup_cons in Hks as [Hk Hks]. cbn [foldr].
  set (rest := filter (λ kv : string * string, kv.1 ≠ k) pairs).
  assert (length (values_of k pairs) + length rest = length pairs)%nat as Hsplit.
  { unfold values_of, rest. rewrite length_fmap. clear. induction pairs as [|kv pairs IH]; [done|].
    destruct (decide (kv.1 = k)) as [E|E].
    - rewrite filter_cons_True, filter_cons_False by (rewrite ?E; auto). cbn [length]. lia.
    - rewrite filter_cons_False, filter_cons_True by done. cbn [length]. lia. }
  assert (∀ k', k' ∈ ks → values_of k' rest = values_of k' pairs) as Hrest.
  { intros k' Hk'. unfold values_of, rest. f_equal. rewrite list_filter_filter. apply list_filter_iff. intros kv. split; [tauto|].
    intros E. split; [done|]. intros E'. congruence. }
  specialize (IH rest Hks).
  assert (∀ l, (∀ k', k' ∈ l → k' ∈ ks) → foldr (λ k' n, length (values_of k' pairs) + n)%nat 0%nat l
    = foldr (λ k' n, length (values_of k' rest) + n)%nat 0%nat l) as Heq.
  { induction l as [|x l IHl]; intros Hl; [done|]. cbn [foldr]. rewrite Hrest by (apply Hl, elem_of_cons; by left).
    rewrite IHl; [done|]. intros y Hy. apply Hl, elem_of_cons. by right. }
  rewrite Heq by done. lia.
Qed.

Lemma multiple_again adm items o : NoDup items → parse_multiple adm items = Ok o →
  parse_multiple adm (multiple_values o) = Ok o ∧ NoDup (multiple_values o) ∧ (length (multiple_values o) ≤ length items)%nat.
Proof.
  intros Hnd. unfold parse_multiple at 1. destruct items as [|x items]; [intros [= <-]; split_and!; [done|constructor|done]|].
  assert (x :: items ≠ []) as Hne by done. revert Hnd Hne. generalize (x :: items). clear x items. intros l Hnd Hne.
  case_bool_decide as Hn; [intros [= <-]; split_and!; [done|apply NoDup_singleton|destruct l; [done|simpl; lia]]|].
  destruct (str_in "none" l || existsb _ _) eqn:E; [done|]. intros [= <-]. apply orb_false_iff in E as [E1 E2].
  pose proof (stable_sort_perm String.leb l) as Hp.
  assert (StronglySorted (λ a b, String.leb a b = true) (stable_sort String.leb l)) as Hs.
  { apply stable_sort_sorted.
    - intros a b Hab. apply str_leb_spec. destruct (str_trichotomy a b) as [H|[H|H]]; [|by left|by right].
      exfalso. enough (String.leb a b = true) by congruence. apply str_leb_spec. by right.
    - intros a b c. rewrite !str_leb_spec. intros [->|H1] [->|H2]; auto. right. by eapply str_ltb_trans. }
  assert (multiple_values (Some (stable_sort String.leb l)) = stable_sort String.leb l) as Hm.
  { unfold multiple_values. destruct (stable_sort String.leb l) as [|y r] eqn:El; [|done]. by apply Permutation_nil_l in Hp. }
  rewrite Hm. split; [|split; [by rewrite Hp|by rewrite Hp]].
  unfold parse_multiple. destruct (stable_sort String.leb l) as [|y r] eqn:El.
  { by apply Permutation_nil_l in Hp. }
  rewrite bool_decide_eq_false_2.
  2:{ intros Heq. rewrite Heq in Hp. apply Permutation_singleton_l in Hp. by rewrite Hp in Hn. }
  assert (str_in "none" (y :: r) = false) as ->.
  { apply not_true_iff_false. intros H%str_in_spec. rewrite Hp in H. apply str_in_spec in H. congruence. }
  assert (existsb (λ z, negb (adm z)) (y :: r) = false) as ->.
  { apply not_true_iff_false. intros (z&Hz&Hb)%existsb_exists. apply list_elem_of_In in Hz. rewrite Hp in Hz.
    apply not_true_iff_false in E2. apply E2, existsb_exists. exists z. split; [by apply list_elem_of_In|done]. }
  cbn [orb]. by rewrite stable_sort_strict.
Qed.

Lemma one_again f fb items x : (∀ s t, f s = Some t → f t = Some t) → parse_one fb f items = Ok x →
  parse_one fb f (one_value fb x) = Ok x ∧ NoDup (one_value fb x) ∧ (length (one_value fb x) ≤ length items)%nat.
Proof.
  intros Hf H. unfold one_value. destruct (String.eqb_spec x fb) as [->|Hne].
  - split; [done|]. split; [constructor|simpl; lia].
  - destruct items as [|s [|]]; try discriminate H; [by injection H as ->|]. cbn in H. apply of_option_Ok in H.
    apply Hf in H. split; [cbn; by rewrite H|]. split; [apply NoDup_singleton|simpl; lia].
Qed.

Lemma limit_again m fb items x : m <= 50000 → parse_one fb (bounded_text m) items = Ok x →
  parse_one fb (bounded_text m) (limit_value fb x) = Ok x ∧ NoDup (limit_value fb x) ∧ (length (limit_value fb x) ≤ length items)%nat.
Proof.
  intros Hm H. unfold limit_value. destruct (Z.eqb_spec x fb) as [->|Hne].
  - split; [done|]. split; [constructor|simpl; lia].
  - destruct items as [|s [|]]; try discriminate H; [by injection H as ->|]. cbn in H. apply of_option_Ok in H.
    apply bounded_text_again in H; [|done]. split; [cbn; by rewrite H|]. split; [apply NoDup_singleton|simpl; lia].
Qed.

Lemma values_nodup k pairs : NoDup pairs → NoDup (values_of k pairs).
Proof.
  unfold values_of. intros H. apply (NoDup_filter (λ kv, kv.1 = k)) in H.
  assert (Forall (λ kv, kv.1 = k) (filter (λ kv : string * string, kv.1 = k) pairs)) as Hk by apply Forall_filter_1 || (apply Forall_forall; intros kv Hkv; by apply list_elem_of_filter in Hkv as [? _]).
  induction H as [|[k1 x] l Hx _ IH]; [constructor|]. apply Forall_cons in Hk as [Hk1 Hk]. cbn in Hk1. subst k1. rewrite fmap_cons. cbn.
  constructor; [|by apply IH]. intros ([k2 y]&Hy&Hin)%list_elem_of_fmap. cbn in Hy. subst y.
  rewrite Forall_forall in Hk. specialize (Hk _ Hin). cbn in Hk. by subst k2.
Qed.

(** Reading back what a filter prints gives the filter, with no more pairs. *)
Lemma filter_again pairs f : filter_of_pairs pairs = Ok f →
  filter_of_pairs (query_pairs f) = Ok f ∧ (length (query_pairs f) ≤ length pairs)%nat.
Proof.
  unfold filter_of_pairs at 1. intros (?&Hg%raise_if_Ok&H)%res_bind_Ok. apply orb_false_iff in Hg as [_ Hnd].
  apply negb_false_iff, bool_decide_eq_true in Hnd.
  pose proof (λ k, values_nodup k pairs Hnd) as Hv.
  do 6 (let o := fresh "o" in let E := fresh "E" in apply res_bind_Ok in H as (o&E&H); unfold facet_of in E;
        apply multiple_again in E as (?&?&?); [|apply Hv]).
  apply res_bind_Ok in H as (rel&Er&H). apply multiple_again in Er as (?&?&?); [|apply Hv].
  apply res_bind_Ok in H as (arch&Ea&H). apply one_again in Ea as (?&?&?); [|apply archived_text_again].
  apply res_bind_Ok in H as (arena&Eb&H). apply one_again in Eb as (?&?&?); [|apply reference_text_again].
  apply res_bind_Ok in H as (anchor&Ec&H). apply one_again in Ec as (?&?&?); [|apply reference_text_again].
  apply res_bind_Ok in H as (q&Ed&H). apply one_again in Ed as (?&?&?); [|apply search_text_again].
  apply res_bind_Ok in H as (nl&Ee&H). apply limit_again in Ee as (?&?&?); [|lia].
  apply res_bind_Ok in H as (el&Ef&H). apply limit_again in Ef as (?&?&?); [|lia].
  apply res_bind_Ok in H as (rv&Eg&H). apply one_again in Eg as (?&?&?); [|apply revision_text_again].
  injection H as <-.
  set (f := {| fl_category := _ |}). split.
  - change (query_pairs f) with (pairs_of (query_fields f)).
    assert (∀ k l, (List.concat (snd <$> filter (λ kl, kl.1 = k) (query_fields f))) = l ++ [] → values_of k (pairs_of (query_fields f)) = l) as Hval.
    { intros k l E. rewrite values_pairs_of, E. apply List.app_nil_r. }
    unfold filter_of_pairs.
    rewrite (bool_decide_eq_true_2 (NoDup (pairs_of (query_fields f)))).
    2:{ apply pairs_of_nodup; [|unfold query_fields; repeat (apply Forall_cons; split; [done|]); constructor].
        apply (bool_decide_unpack _). vm_compute. exact I. }
    assert (existsb (λ kv : string * string, negb (str_in kv.1 FILTER_FIELDS)) (pairs_of (query_fields f)) = false) as ->.
    { apply not_true_iff_false. intros (kv&Hin&Hb)%existsb_exists. apply list_elem_of_In, pairs_of_keys in Hin.
      apply negb_true_iff, not_true_iff_false in Hb. apply Hb, str_in_spec. revert Hin. generalize (kv.1).
      apply Forall_forall. unfold query_fields. cbn [fmap list_fmap fst].
      repeat (apply Forall_cons; split; [by apply str_in_spec; vm_compute|]). constructor. }
    cbn [negb orb raise_if mbind res_bind]. unfold facet_of.
    repeat (match goal with |- context [values_of ?k (pairs_of (query_fields f))] =>
              erewrite (Hval k) by reflexivity end).
    clear Hval. subst f. cbn [snd fl_category fl_work_kind fl_work_status fl_observation_status fl_record_status fl_progress
      fl_relationship fl_archived fl_arena fl_anchor fl_q fl_node_limit fl_edge_limit fl_if_revision].
    repeat (match goal with H : ?x = Ok _ |- context [?x] => rewrite H; cbn [mbind res_bind] end).
    reflexivity.
  - change (query_pairs f) with (pairs_of (query_fields f)).
    assert (length (pairs_of (query_fields f)) = foldr (λ kl n, length kl.2 + n) 0 (query_fields f))%nat as ->.
    { unfold pairs_of. generalize (query_fields f). induction l as [|kl l IH]; [done|]. cbn [fmap list_fmap List.concat foldr].
      rewrite length_app, length_fmap. by f_equal. }
    pose proof (values_length_sum (query_fields f).*1 pairs) as Hsum.
    etransitivity; [|apply Hsum; apply (bool_decide_unpack _); vm_compute; exact I].
    unfold query_fields, f. cbn [fmap list_fmap foldr fst snd fl_category fl_work_kind fl_work_status fl_observation_status
      fl_record_status fl_progress fl_relationship fl_archived fl_arena fl_anchor fl_q fl_node_limit fl_edge_limit fl_if_revision].
    cbn [facet_name] in *. lia.
Qed.

(** ** Properties *)

(** C31: The scope of a topology read is a closure and its search ends on every
    graph: with an Arena the scope holds the Arena's nodes, the nodes placed in it,
    and what edges reach from them without entering a node placed in another
    Arena; with an anchor only the anchor and its neighbours remain. *)
Theorem topology_scope_exact f ns es :
  ∃ keys, scope_keys f ns es = Some keys
    ∧ ∀ k, k ∈ keys ↔
        (if truthy (fl_arena f)
         then ∃ r, r ∈ arena_seeds f ns ∧ rtc (scope_edge (arena_roots f ns) ns es) r k
         else k ∈ gn_key <$> ns)
        ∧ (truthy (fl_anchor f) = true → k = fl_anchor f ∨ joined es (fl_anchor f) k).
Proof.
  assert (∃ m, (if truthy (fl_arena f) then arena_scope f ns es else Some (list_to_set (gn_key <$> ns))) = Some m
    ∧ ∀ k, k ∈ m ↔ if truthy (fl_arena f) then ∃ r, r ∈ arena_seeds f ns ∧ rtc (scope_edge (arena_roots f ns) ns es) r k
                   else k ∈ gn_key <$> ns) as (m&Hm&Hx).
  { destruct (truthy (fl_arena f)); [apply arena_scope_spec|]. eexists. split; [done|]. intros k. apply elem_of_list_to_set. }
  exists (anchor_keys f es m). unfold scope_keys. rewrite Hm. split; [done|]. intros k. rewrite <-Hx. unfold anchor_keys.
  destruct (truthy (fl_anchor f)); [|split; [by intros|tauto]].
  rewrite elem_of_intersection, elem_of_list_to_set, elem_of_cons, neighbours_spec. tauto.
Qed.

(** C32: A topology read is exact: it always returns.  Its nodes are the first
    [node_limit] of those in scope that the filter wants, each with the number of
    its distinct neighbours over the wanted edges, and its edges are the first
    [edge_limit] of the wanted edges - between wanted nodes, of a wanted
    relationship - whose ends are both returned; everything keeps the order of the
    snapshot.  The full numbers are reported, the answer is complete exactly when
    nothing was cut, the layout context is closed under visible ancestors, and each
    facet count is the number of nodes that selecting that value gives. *)
Theorem topology_projection_exact s f :
  ∃ p (keys layout : gset string), let ns := sn_nodes s in
    let scoped := filter (λ n, gn_key n ∈ keys) ns in
    let nodes := filter (wanted_node f) scoped in
    let edges := filter (wanted_edge f nodes) (sn_edges s) in
    let shown := take (Z.to_nat (fl_node_limit f)) nodes in
    filter_projection s f = Ok p ∧ scope_keys f ns (sn_edges s) = Some keys
    ∧ (pj_nodes p).*1 = shown
    ∧ (∀ n z, (n, z) ∈ pj_nodes p → ∃ m : gset string, z = Z.of_nat (size m) ∧ ∀ k, k ∈ m ↔ joined edges (gn_key n) k)
    ∧ pj_edges p = take (Z.to_nat (fl_edge_limit f))
                     (filter (λ e, ge_source e ∈ gn_key <$> shown ∧ ge_target e ∈ gn_key <$> shown) edges)
    ∧ pj_scoped p = Z.of_nat (length scoped) ∧ pj_matching p = Z.of_nat (length nodes)
    ∧ pj_matching_edges p = Z.of_nat (length edges)
    ∧ (pj_complete p = true ↔ (pj_nodes p).*1 = nodes ∧ pj_edges p = edges)
    ∧ pj_layout_nodes p = filter (λ n, gn_key n ∈ layout) ns
    ∧ (∀ k, k ∈ layout ↔ ∃ r, r ∈ layout_seeds ns shown ∧ rtc (layout_edge ns (sn_edges s)) r k)
    ∧ (∀ k v, default 0 (pj_facets p k !! v)
              = Z.of_nat (length (filter (λ n, facet_counted k n = Some v) (filter (wanted_node (select_value k v f)) scoped)))).
Proof.
  set (ns := sn_nodes s). set (es := sn_edges s).
  assert (∃ keys, scope_keys f ns es = Some keys) as [keys Hk].
  { unfold scope_keys. destruct (truthy (fl_arena f)); [|by eexists]. destruct (arena_scope_spec f ns es) as (m&->&_). by eexists. }
  set (scoped := filter (λ n, gn_key n ∈ keys) ns). set (shown := take (Z.to_nat (fl_node_limit f)) (matching_nodes f scoped)).
  destruct (layout_keys_spec ns es shown) as (layout&Hl&Hx).
  assert (∀ l : list GraphNode, ((λ n, (n, degree (matching_edges f (matching_nodes f scoped) es) (gn_key n))) <$> l).*1 = l) as Hfst.
  { intros l. induction l as [|n l IH]; [done|]. cbn. f_equal. exact IH. }
  eexists _, keys, layout. cbn zeta. rewrite <-!matching_nodes_wanted, <-!matching_edges_wanted. fold scoped shown.
  split; [unfold filter_projection; fold ns es; rewrite Hk; cbn [of_option mbind res_bind]; fold scoped shown; rewrite Hl; reflexivity|].
  cbn [pj_nodes pj_edges pj_complete pj_layout_nodes pj_facets pj_scoped pj_matching pj_matching_edges]. rewrite Hfst.
  split_and!; try done.
  - intros n z (n'&[= -> ->]&_)%list_elem_of_fmap.
    exists (list_to_set (neighbours_of (matching_edges f (matching_nodes f scoped) es) (gn_key n'))). split; [done|].
    intros k. rewrite elem_of_list_to_set. apply neighbours_spec.
  - rewrite andb_true_iff, !bool_decide_eq_true. split.
    + intros [H1 H2]. split; [by apply take_same_length|by apply shown_edges_all].
    + by intros [-> ->].
  - intros k v. rewrite <-matching_nodes_wanted. apply facet_count_selected.
Qed.

Lemma topology_filter_again text f : topology_filter text = Ok f →
  str_len (utf8_encode (filter_query f)) <= MAX_QUERY_BYTES → topology_filter (filter_query f) = Ok f.
Proof.
  unfold topology_filter. intros (?&_&H)%res_bind_Ok Hlen. apply Z.ltb_ge in Hlen. rewrite Hlen. cbn [raise_if mbind res_bind].
  assert (∃ pairs, filter_of_pairs pairs = Ok f ∧ Z.of_nat (length pairs) <= 80) as (pairs&Hf&Hp).
  { destruct (String.eqb text "").
    - injection H as <-. exists []. split; [vm_compute; reflexivity|cbn; lia].
    - apply res_bind_Ok in H as (?&_&H). apply res_bind_Ok in H as (pairs&Hq&H). exists pairs. split; [done|].
      destruct (parse_qsl true 80 text) as [l|e] eqn:E; cbn in Hq.
      + injection Hq as <-. by apply parse_qsl_length in E.
      + by destruct (is_value_error e). }
  apply filter_again in Hf as [Hf Hl]. destruct (String.eqb (filter_query f) "") eqn:E.
  - apply String.eqb_eq in E. unfold filter_query in E. apply urlencode_empty in E. rewrite E in Hf. rewrite <-Hf. vm_compute. reflexivity.
  - apply String.eqb_neq in E. unfold filter_query in *. rewrite urlencode_escapes. cbn [raise_if mbind res_bind].
    rewrite parse_qsl_urlencode; [exact Hf| |lia]. intros E'. by apply E, urlencode_empty.
Qed.

(** C33: Target round trip, for targets whose decoded text has code points below 256:
    a filter read from a topology target prints a target that reads back, as
    canonical, to the same filter, provided the printed query keeps the bound on
    query bytes; a target accepted as canonical is its filter's own print, so for it
    nothing more is needed.  Beyond that alphabet it fails: lower case can be longer
    than the text it comes from (U+0130), and a search text within the bound of 200
    characters can print one that is over it. *)
Theorem topology_target_roundtrip target canonical f :
  parse_target target canonical = Ok f →
  canonical = true ∨ str_len (utf8_encode (filter_query f)) <= MAX_QUERY_BYTES →
  parse_target (filter_target f) true = Ok f ∧ (canonical = true → filter_target f = target).
Proof.
  intros H Hc. pose proof H as H0. unfold parse_target in H. destruct (default (target, "") (split_once "?" target)) as [path text].
  apply res_bind_Ok in H as (?&_&H). apply res_bind_Ok in H as (f'&Hf&H). apply res_bind_Ok in H as (?&Hg%raise_if_Ok&[= ->]).
  assert (canonical = true → filter_target f = target) as Hcan.
  { intros ->. rewrite andb_true_l in Hg. by apply negb_false_iff, String.eqb_eq in Hg. }
  split; [|done]. destruct canonical; [by rewrite Hcan|]. destruct Hc as [[=]|Hlen].
  pose proof (topology_filter_again _ _ Hf Hlen) as Ha. unfold parse_target, filter_target.
  destruct (String.eqb (filter_query f) "") eqn:E.
  - apply String.eqb_eq in E. rewrite E in Ha. rewrite str_app_nil_r.
    assert (default (PATH, "") (split_once "?" PATH) = (PATH, "")) as -> by (vm_compute; reflexivity).
    rewrite String.eqb_refl, Ha. cbn [negb raise_if mbind res_bind]. rewrite E.
    change (if String.eqb "" "" then "" else "?" +:+ "") with "". by rewrite str_app_nil_r, String.eqb_refl.
  - change ("?" +:+ filter_query f) with (String "?" (filter_query f)). rewrite split_once_app by (vm_compute; reflexivity).
    change (default (PATH +:+ String "?" (filter_query f), "") (Some (PATH, filter_query f))) with (PATH, filter_query f). cbv iota.
    rewrite String.eqb_refl, Ha. cbn [negb raise_if mbind res_bind]. rewrite E.
    change ("?" +:+ filter_query f) with (String "?" (filter_query f)). by rewrite String.eqb_refl.
Qed.

Definition ex_filter : TopologyFilter :=
  {| fl_category := Some ["arena"; "work"]; fl_work_kind := None; fl_work_status := None; fl_observation_status := None;
     fl_record_status := None; fl_progress := None; fl_relationship := None; fl_archived := "include"; fl_arena := ""; fl_anchor := "";
     fl_q := "a b"; fl_node_limit := 5000; fl_edge_limit := 20000; fl_if_revision := "" |}.

Lemma topology_target_roundtrip_witness :
  filter_target ex_filter = PATH +:+ "?category=arena&category=work&q=a+b" ∧ parse_target (filter_target ex_filter) true = Ok ex_filter.
Proof.
  assert (parse_target (PATH +:+ "?q=A%20b&category=work&category=arena") false = Ok ex_filter) as E by (vm_compute; reflexivity).
  assert (str_len (utf8_encode (filter_query ex_filter)) <=? MAX_QUERY_BYTES = true) as Hl by (vm_compute; reflexivity).
  split; [vm_compute; reflexivity|]. apply (topology_target_roundtrip _ _ _ E). right. by apply Z.leb_le.
Defined.
